(* ===== verification/_CoqProject ===== *)
-Q . S2P
Prelude.v
PyStr.v
PyVal.v
StepDag.v
Autonomy.v
ReviewVerdict.v
ReviewGroup.v
Json.v
Protocol.v
Handoff.v
DelegationMatch.v
GatePreview.v
Scheduler.v
ReviewIteration.v
Lease.v
Store.v
Conversation.v
Dispatch.v
Workflow.v
Attempt.v
AgentProtocol.v
Governance.v
Snapshot.v
AttemptStore.v
GovernanceStore.v
Coordinator.v
Supervisor.v
Recovery.v
EvidenceStore.v
AcpPermission.v
MissionStore.v
MissionProgress.v
ServiceFacts.v
DaemonService.v
RunLoop.v
