(* ===== verification/Prelude.v ===== *)
(** * AgentDeck: a verification library

    AgentDeck drives several command line coding agents from one place.  A
    Leader writes a plan of numbered steps; each step becomes an approval; an
    approved step is dispatched, as a prompt, to the agent named by the step;
    the agent answers with a reply that may carry a review verdict; a failed
    review appends a rework step and a new review to the plan.  A daemon
    schedules longer Missions and hands the right to control them out as a
    lease.  This library models that control logic, which decides what may run,
    and proves the properties the program relies on.  All source paths are
    relative to [src/src/agentdeck].

    ** Files

    Foundations:

    - [Prelude]: exceptions and the result monad, loops that may raise, tactics
      ([inv_ok], [split_guards], [case_goal]) and lemmas on lists.
    - [PyStr]: Python text on UTF-8 byte strings (characters, [strip], [split],
      [splitlines], prefixes, decimal digits, hexadecimal identities).
    - [PyVal]: Python values (JSON documents), dictionaries as association lists
      in insertion order, [==], truth, hashing, [int()], [str()].
    - [Json]: the printer and the scanner of the standard library's [json], and
      their round trip.

    Plans, reviews and the run loop:

    - [StepDag] ([step_dag.py], the wave guard of [cli.py]): direct dependencies
      of a plan's steps and their transitive closure.
    - [Autonomy] ([autonomy.py]): automatic approval under an allowlist and a
      budget, and the run-loop gate.
    - [ReviewVerdict] ([review_verdict.py]): the verdict schema, the verdict line
      of a reply, alignment with acceptance criteria.
    - [ReviewGroup] ([review_group.py]): several reviewers of one step: expansion,
      selection of a group, aggregation of their verdicts.
    - [ReviewIteration] ([review_iteration.py], [StateStore.append_review_iteration]
      of [state.py]): selection of a plan's verdict, the rework task, the next
      round and the write of it.
    - [DelegationMatch] ([delegation_match.py]): does a shell command fall under
      the delegations a human granted?  [GatePreview] ([gate_preview.py]): the
      grants offered for a command.
    - [Store] ([StateStore] of [state.py]): plan status, the Leader's review,
      approvals, dispatch records, replies and their artifacts, Leader actions.
    - [Dispatch] ([cli.py], [dispatch_receptive.py], [startup_trust.py]): can the
      pane receive a task, the branch a worktree starts from, the dispatch of an
      approved approval.
    - [RunLoop] ([cli.py]): one wave of a plan ([_run_loop_single_wave]) and one
      wave over all plans ([_run_loop_all]).
    - [Handoff] and [Workflow] ([workflow.py], [mission_authority.py], workflow
      runs of [state.py]): the handoff record and the reply block it is read
      from; the sequential workflow over panes and ACP turns.

    The daemon and its Missions:

    - [Protocol] ([daemon/protocol.py]): envelopes, frames, handshake.
    - [Lease] ([daemon/lease.py]): grant, renewal, expiry, release and takeover of
      the controller lease, the controller token, the validation of a persisted
      transition and the registry of authorised ones, the event outbox.
    - [Scheduler] ([daemon/scheduler.py]): facts, the one-transition gate and its
      decisions, the observation.
    - [Snapshot], [Attempt], [AttemptStore] ([state.py]): the frozen execution
      snapshot of a Mission; attempt records and the history of their admission;
      the store's operations on them.
    - [Coordinator] ([daemon/service.py]) and [Supervisor]
      ([daemon/supervisor.py]): the two drivers that take an attempt through
      admission and completion, as steps interleaved with everybody else.
    - [Recovery] ([daemon/recovery.py]): facts after a crash, the recovery gate,
      the startup gate.
    - [EvidenceStore] ([state.py]): the store behind the startup gate: the
      validated recovery snapshot and its token, the commit of the decisions, the
      evidence of replies, handoffs and permissions.
    - [AcpPermission] ([state.py]): permissions in the middle of a turn and the
      authorisation of their effects.
    - [MissionStore] ([state.py], [mission.py], [mission_authority.py]): a Mission's
      record, its confirmation and admission, the start of a Worker's pane, the
      preparation of an attempt.  [MissionProgress]: the advance of the cursor,
      the completion, and runs of all Mission operations.
    - [ServiceFacts] ([daemon/service.py]): the facts the scheduler reads from the
      document and the runtime.  [DaemonService]: the effects of the gate's
      decisions, the queue of mutations and the loop of [ProjectDaemonService].
    - [AgentProtocol] ([runtime/protocol.py], ledger of [state.py]): sessions,
      turns, updates and permissions of Worker agents, their transitions, and the
      outbox that carries their events to the journal.
    - [Governance] ([daemon/governance.py], [conversation/bindings.py]) and
      [GovernanceStore] ([state.py]): previews and gates of governed actions; the
      store's operations that consume a preview.
    - [Conversation] ([conversation/models.py], [conversation/lifecycle.py]):
      conversations, turns, previews and ownership as replayed histories.

    A definition has the name of the function it translates; the parts of a long
    function (a loop body, a branch) are definitions of their own, composed in
    the order of the code.

    ** State, errors, effects

    The saved document of [StateStore] is a value ([dict]); an operation takes it
    and returns the document it saves, or the exception it raises ([result]).
    Only one process at a time holds the store's lock, so an operation is one
    step; a wave is a sequence of operations, with no other writer in between.
    Where an operation writes more than once and its guarantee depends on the
    order (the agent ledger: document, journal, document) it returns its list of
    writes, and a crash keeps a prefix of them.  The drivers of an attempt and
    the sequential workflow are step functions or lists of requests, answered by
    an environment the theorems quantify over.
    Rows of a table that are no dictionaries, missing keys, values of an
    unexpected type and unhashable keys raise what the code raises, where it
    raises it; a generator expression stops at its first match.  Clock readings,
    identities drawn at random and [id()] are arguments ([stamps], [store_world],
    [gov_world], [evidence_world], [mission_world], [acp_world], [fresh]; [acp_world]
    also holds what the file system resolves a path to and where home directories
    are, while joining and comparing paths is modelled, [evidence_world] and [mission_world] what the
    configuration would freeze today).  What the runtime answers to the scheduler
    and to its effects is given by [probe_world] and [tick_world].  An object the code mutates through an alias (a row of
    a table) is replaced in the table it is in.

    Parameters, each a type class: [FloatText] (the text of a float, with laws
    [FloatTextLaws]), [RecursionLimits] (nesting the interpreter's scanner and
    printer bear), [JsonLoads] ([json.loads] of a verdict line, which also reads
    [NaN] and [Infinity]), [PyRepr] ([repr] of floats and containers), [LeaseEnv]
    ([datetime] text, SHA-256, spaced [json.dumps]) with its laws
    [LeaseEnvLaws], [Files] (reading an artifact and hashing it).  Panes, worktree
    commands, keystrokes and reply files are records a wave is given
    ([send_world], [wave_world]).  Texts are valid UTF-8 and floats are finite.

    ** Bounds and fuel

    [StepDag.walk] recurses with fuel, [2 * size + 2] for [size] steps; the
    numbers on a call path are distinct, so this is enough
    ([derive_step_ancestors_terminates]: the walk returns on every plan).  The
    JSON scanner has the length of its text as fuel ([scan_fuel_enough]).  A
    wait of the workflow, for a pane's reply or for a request of an ACP call, has
    as many looks as its clock allows before the run's timeout: so many are enough
    for the run to return ([workflow_run_ends]).  Every other recursion is
    structural.
    Integers are unbounded, as in Python; [int()] accepts 4300 digits; a time to
    live is rounded to a double and to a microsecond as CPython does.

    ** Theorems

    - Run loop: a wave dispatches nothing without authority
      ([wave_dispatch_authorised]) and only what is ready ([wave_dispatch_safe]:
      ancestors complete, agent not at work on a step of any plan, one task per
      agent, the approval marked);
      the wave over all plans shares one budget and one set of busy agents
      ([run_loop_all_safe]).
    - Store and dispatch: approvals are created once, a decision changes one row,
      a reply is recorded whatever its verdict line is, the status counts what
      it lists, reviewers of a group never start from each other's branch, a
      refused dispatch writes nothing.
    - Steps: ancestors are the transitive closure of the dependencies and the
      derivation terminates; the guard is the earliest-step rule on a linear
      plan and fans a review group out.
    - Reviews: the verdict schema, the aggregation that blocks on any failure,
      the choice of the group that counts; a plan gets at most the allowed number
      of rounds, each a rework step with its re-review steps and their approvals,
      for a reply not used before; a rework step's own verdict
      never counts.
    - Delegations: a matched command is covered segment by segment; the grants
      offered for a command match it; two shapes that slip through are shown.
    - Workflow: every run ends, completes only with every step completed, and
      never sends a delivered task again; handoffs and reply texts survive their
      round trip.
    - Daemon protocol: round trip and framing of requests, what a decoded request
      is, the handshake.
    - Lease: an accepted transition is a step of an abstract lease; once a lease
      has ended no token of its generation controls any later lease; what the
      operations produce validates and, up to a digest collision, nothing else
      does.
    - Missions: the scheduler's gate takes each transition exactly under its
      guard; an accepted admission history is a path of the admission protocol
      and the store's operations refine that protocol; however launches
      interleave no claim is admitted or completed twice; a supervised run
      accounts for its admission; recovery resumes nothing a Worker may hold,
      and a daemon that has started over the saved document runs on decisions the
      gate made on that document ([startup_resumes_safely]).
    - Mission runs: a prepared attempt awaits its admission; a Mission is
      confirmed once and a Worker of a step started once; a rerouted step is not
      retried; along any run of operations a Mission has at most one attempt
      under way, of the step after its cursor, and completes only with every step
      done and handed over, provided the run starts with no attempt and other
      writers leave attempts, handoffs and cursors alone.  A decision of the scheduler fits the document it was made on
      ([decisions_fit_document]); the daemon's loop is such a run
      ([daemon_runs_missions_in_order]) and serves its queue
      ([queued_mutation_is_served]).
    - Permissions: a permission waits in a valid ledger and within the bounds of
      its turn, is found again by a retry, and allows at most one effect, with
      every gate open ([acp_effect_allowed_once]).
    - Agent ledger: no event, whether there at first or accepted on the way, is
      lost or written twice across crashes; an accepted
      history walks the edges of each entity's kind; recording extends it.
    - Governance: a preview authorises one action once, on the facts it was shown
      for; every governed mutation spends such a preview, on facts recomputed from the
      document it changes; Missions move along
      allowed edges at an idle boundary.  A forced stop of a prepared attempt is
      shown to break the admission history, and a reroute of an ended Mission to
      have no effect.
    - Conversations: an accepted history is a path of every entity, inside one
      conversation, with at most one active turn.

    ** Not modelled

    Payload contracts, printing and argument parsing; the user interfaces; the
    providers, tmux and ACP runtimes and the daemon's sockets, processes and
    locks; the file format, migrations and the SQLite shadow copy.  The wording
    of prompts is an argument of a dispatch.  Audit events of plans, approvals
    and replies, the provider and skill fields of a plan's status, and the check
    of a wave's printed payload are left out of the modelled operations; none of
    them decides anything.

    Of the daemon service, the handlers of its requests and the records they
    print; of the Missions, their orchestration over panes and the compilation of
    semantic plans (the hash and the validation of a plan are parameters); the
    conversation router and session, the run-loop host, the review digest, the
    role topology, the custody of branches and the schema of a Leader's plan.
    These compose the modelled operations, or shape payloads for a person to
    read. *)
From stdpp Require Export base list strings gmap pretty.
From Stdlib Require Export ZArith Lia.

(** ** Errors

    A Python exception of the modelled code, by class.  Only the classes the
    modelled functions raise are listed; the message is the source's text. *)
Inductive exn : Type :=
| ValueError (msg : string)
| TypeError (msg : string)
| KeyError (key : string)
| PermissionError (msg : string)
| RuntimeError (msg : string)
| OSError (msg : string)
| IndexError
| AttributeError
| StopIteration
| OverflowError
| AssertionError
| GovernanceError (msg : string)
| PreviewBindingError (msg : string)
| ServiceError (msg : string)
| WorkerAttemptError (msg : string)
| LeaseError (msg : string)
| RecoveryError (msg : string)
| SchedulerError (msg : string)
| RpcProtocolError (code msg : string)
| MissionStateError (msg : string).

#[export] Instance exn_eq_dec : EqDecision exn.
Proof. solve_decision. Defined.

(** [except ValueError], [except (TypeError, ValueError)]: some of the program's
    exceptions are [ValueError]s, the others [RuntimeError]s. *)
Definition value_error (e : exn) : bool :=
  match e with
  | ValueError _ | GovernanceError _ | PreviewBindingError _ | SchedulerError _ | RpcProtocolError _ _ | RecoveryError _ | MissionStateError _ => true
  | _ => false
  end.
Definition type_or_value (e : exn) : bool := match e with TypeError _ => true | _ => value_error e end.
Definition runtime_error (e : exn) : bool :=
  match e with RuntimeError _ | LeaseError _ | WorkerAttemptError _ | ServiceError _ => true | _ => false end.

(** The outcome of a call that may raise. *)
Inductive result (A : Type) : Type :=
| Ok (a : A)
| Err (e : exn).
Arguments Ok {A} a.
Arguments Err {A} e.

#[export] Instance result_ret : MRet result := fun A => Ok.
#[export] Instance result_bind : MBind result := fun A B f m =>
  match m with Ok a => f a | Err e => Err e end.
#[export] Instance result_fmap : FMap result := fun A B f m =>
  match m with Ok a => Ok (f a) | Err e => Err e end.

Definition is_ok {A} (r : result A) : bool :=
  match r with Ok _ => true | Err _ => false end.

(** [if b: raise e] as a statement. *)
Definition raise_if (b : bool) (e : exn) : result unit :=
  if b then Err e else Ok tt.

(** Run a fallible body over a list, left to right, stopping at the first
    exception (a Python [for] loop with an accumulator). *)
Fixpoint foldM {A B} (f : B -> A -> result B) (acc : B) (l : list A) : result B :=
  match l with
  | [] => Ok acc
  | x :: l => acc' ← f acc x; foldM f acc' l
  end.

(** A comprehension whose element expression may raise. *)
Fixpoint mapR {A B} (f : A -> result B) (l : list A) : result (list B) :=
  match l with
  | [] => Ok []
  | x :: l => y ← f x; ys ← mapR f l; Ok (y :: ys)
  end.

(** A comprehension whose condition may raise. *)
Fixpoint filterR {A} (f : A -> result bool) (l : list A) : result (list A) :=
  match l with
  | [] => Ok []
  | x :: l => b ← f x; r ← filterR f l; Ok (if b : bool then x :: r else r)
  end.

Section result_lemmas.
  Context {A B : Type}.
  Implicit Types (m : result A) (f : A -> result B).

Lemma bind_Ok m f b :
    (m ≫= f) = Ok b <-> exists a, m = Ok a /\ f a = Ok b.
  Proof. destruct m; cbn; naive_solver. Qed.

Lemma bind_Err m f e :
    (m ≫= f) = Err e <-> m = Err e \/ exists a, m = Ok a /\ f a = Err e.
  Proof. destruct m; cbn; naive_solver. Qed.

Lemma raise_if_Err b e e' : raise_if b e = Err e' -> e' = e.
Proof. unfold raise_if. destruct b; congruence. Qed.

Lemma is_ok_exists m : is_ok m = true <-> exists a, m = Ok a.
  Proof. destruct m; cbn; naive_solver. Qed.

End result_lemmas.

Lemma raise_if_Ok b e u : raise_if b e = Ok u <-> b = false.
Proof. unfold raise_if. destruct b, u; split; congruence. Qed.

Section loop_lemmas.
  Context {A B : Type}.

Lemma mapR_Ok (f : A -> result B) l r :
    mapR f l = Ok r <-> Forall2 (fun x y => f x = Ok y) l r.
  Proof.
    revert r; induction l as [|x l IH]; intros r; cbn [mapR].
    - split; [intros [= <-]; constructor | by inversion 1].
    - rewrite bind_Ok; setoid_rewrite bind_Ok; setoid_rewrite IH. split.
      + intros (y & Hy & ys & Hys & [= <-]); by constructor.
      + inversion 1; subst; naive_solver.
  Qed.

Lemma mapR_Err (f : A -> result B) l e :
    mapR f l = Err e -> exists x, x ∈ l /\ f x = Err e.
  Proof.
    induction l as [|x l IH]; cbn [mapR]; [done|]. intros [H|(y & _ & H)]%bind_Err.
    - exists x. split; [by left|done].
    - apply bind_Err in H as [H|(ys & _ & [=])]. destruct (IH H) as (z & Hz & He).
      exists z. split; [by right|done].
  Qed.

Lemma filterR_Ok (f : A -> result bool) l r :
  filterR f l = Ok r -> r = List.filter (fun x => match f x with Ok b => b | Err _ => false end) l.
Proof.
  revert r; induction l as [|x l IH]; intros r; cbn [filterR]; [by intros [= <-]|].
  intros (b & Hb & (r' & Hr & [= <-])%bind_Ok)%bind_Ok. cbn [List.filter]. rewrite Hb, <- (IH _ Hr). done.
Qed.

Lemma foldM_app (f : B -> A -> result B) acc l k :
    foldM f acc (l ++ k) = foldM f acc l ≫= (fun acc => foldM f acc k).
  Proof.
    revert acc; induction l as [|x l IH]; intros acc; cbn; [done|].
    destruct (f acc x); cbn; auto.
  Qed.

  (** Invariants of a loop that may raise. *)
Lemma foldM_ind (P : list A -> B -> Prop) (f : B -> A -> result B) acc l r :
    P [] acc ->
    (forall pre x acc acc', P pre acc -> f acc x = Ok acc' -> P (pre ++ [x]) acc') ->
    foldM f acc l = Ok r -> P l r.
  Proof.
    intros H0 Hs. assert (Hg : forall pre acc, P pre acc -> foldM f acc l = Ok r -> P (pre ++ l) r).
    { induction l as [|x l IH]; intros pre acc' HP; cbn [foldM].
      - intros [= <-]. by rewrite app_nil_r.
      - rewrite bind_Ok. intros (b & Hb & Hr).
        replace (pre ++ x :: l) with ((pre ++ [x]) ++ l) by by rewrite <- app_assoc.
        eapply IH; eauto. }
    intros; by apply (Hg [] acc).
  Qed.
End loop_lemmas.

(** ** Tactics *)

(** Invert hypotheses of the form [_ = Ok _] through binds and guards. *)
Ltac inv_ok :=
  repeat match goal with
  | H : (_ ≫= _) = Ok _ |- _ =>
      apply bind_Ok in H; let a := fresh "a" in let H1 := fresh "Hr" in
      destruct H as (a & H1 & H)
  | H : mret _ = Ok _ |- _ => unfold mret, result_ret in H
  | H : Ok _ = Ok _ |- _ => injection H as H; try subst
  | H : Err _ = Ok _ |- _ => discriminate H
  | H : raise_if ?b _ = Ok _ |- _ =>
      let Hb := fresh "Hg" in unfold raise_if in H; destruct b eqn:Hb; [discriminate H|]; clear H
  | x : unit |- _ => destruct x
  end.

(** Split the boolean guards the code writes with [and], [or] and [not]. *)
Ltac split_guards :=
  repeat match goal with
  | H : (_ && _)%bool = true |- _ => apply andb_true_iff in H as [? ?]
  | H : (_ || _)%bool = false |- _ => apply orb_false_iff in H as [? ?]
  | H : negb _ = true |- _ => apply negb_true_iff in H
  | H : negb _ = false |- _ => apply negb_false_iff in H
  | H : bool_decide _ = true |- _ => apply bool_decide_eq_true in H
  | H : bool_decide _ = false |- _ => apply bool_decide_eq_false in H
  | H : Z.eqb _ _ = true |- _ => apply Z.eqb_eq in H
  | H : Z.eqb _ _ = false |- _ => apply Z.eqb_neq in H
  | H : Z.ltb _ _ = true |- _ => apply Z.ltb_lt in H
  | H : Z.ltb _ _ = false |- _ => apply Z.ltb_ge in H
  | H : Z.leb _ _ = true |- _ => apply Z.leb_le in H
  | H : Z.leb _ _ = false |- _ => apply Z.leb_gt in H
  | H : String.eqb _ _ = true |- _ => apply String.eqb_eq in H
  | H : String.eqb _ _ = false |- _ => apply String.eqb_neq in H
  end.

(** Destruct every [if] and [match] of the goal, keeping the equations. *)
Ltac case_goal :=
  repeat match goal with
  | |- context [match ?x with _ => _ end] =>
      lazymatch x with
      | context [match _ with _ => _ end] => fail
      | _ => let E := fresh "E" in destruct x eqn:E; try done
      end
  end.

(** A closed text is not an element of a closed list. *)
Ltac not_in := apply (bool_decide_eq_false_1 _); vm_compute; reflexivity.

(** ** Lists *)

Fixpoint drop_while {A} (p : A -> bool) (l : list A) : list A :=
  match l with
  | [] => []
  | x :: l' => if p x then drop_while p l' else l
  end.

(** [next((x for x in l if p x), None)] *)
Definition find_first {A} (p : A -> bool) (l : list A) : option A := head (List.filter p l).

(** [min(l)] on a non-empty list of integers. *)
Definition list_minZ (x : Z) (l : list Z) : Z := foldl Z.min x l.
Definition list_maxZ (x : Z) (l : list Z) : Z := foldl Z.max x l.

Section list_lemmas.
  Context {A : Type}.
  Implicit Types (l : list A).

Lemma find_first_Some (p : A -> bool) l x :
    find_first p l = Some x -> x ∈ l /\ p x = true.
  Proof.
    unfold find_first. intros H%head_Some_elem_of. apply list_elem_of_In, filter_In in H.
    by rewrite list_elem_of_In.
  Qed.

Lemma find_first_None (p : A -> bool) l :
    find_first p l = None <-> (forall x, x ∈ l -> p x = false).
  Proof.
    unfold find_first. split.
    - intros H x Hx. destruct (p x) eqn:Hp; [|done].
      assert (Hin : In x (List.filter p l)) by (apply filter_In; rewrite <- list_elem_of_In; auto).
      by destruct (List.filter p l).
    - intros H. destruct (List.filter p l) as [|y k] eqn:Hk; [done|].
      assert (Hin : In y (List.filter p l)) by (rewrite Hk; by left).
      apply filter_In in Hin as [Hy Hp]. rewrite <- list_elem_of_In in Hy.
      by rewrite (H _ Hy) in Hp.
  Qed.

Lemma forallb_elem (p : A -> bool) l :
    forallb p l = true <-> (forall x, x ∈ l -> p x = true).
  Proof. rewrite forallb_forall. by setoid_rewrite list_elem_of_In. Qed.

Lemma existsb_elem (p : A -> bool) l :
    existsb p l = true <-> (exists x, x ∈ l /\ p x = true).
  Proof. rewrite existsb_exists. by setoid_rewrite list_elem_of_In. Qed.

Lemma existsb_elem_false (p : A -> bool) l :
    existsb p l = false <-> (forall x, x ∈ l -> p x = false).
  Proof.
    rewrite <- not_true_iff_false, existsb_elem. split.
    - intros H x Hx. apply not_true_iff_false. eauto.
    - intros H (x & Hx & Hp). by rewrite H in Hp.
  Qed.
End list_lemmas.

Lemma list_minZ_le x l : (list_minZ x l <= x)%Z /\ Forall (fun y => (list_minZ x l <= y)%Z) l.
Proof.
  unfold list_minZ. revert x; induction l as [|y l IH]; intros x; cbn; [split; [lia|constructor]|].
  destruct (IH (Z.min x y)) as [H1 H2]. split; [lia|]. constructor; [lia|done].
Qed.

Lemma list_minZ_elem x l : list_minZ x l ∈ x :: l.
Proof.
  unfold list_minZ. revert x; induction l as [|y l IH]; intros x; cbn; [by left|].
  specialize (IH (Z.min x y)). apply elem_of_cons in IH as [->|IH].
  - destruct (Z.min_spec x y) as [[_ ->]|[_ ->]]; set_solver.
  - set_solver.
Qed.

Lemma list_maxZ_ge x l : (x <= list_maxZ x l)%Z /\ Forall (fun y => (y <= list_maxZ x l)%Z) l.
Proof.
  unfold list_maxZ. revert x; induction l as [|y l IH]; intros x; cbn; [split; [lia|constructor]|].
  destruct (IH (Z.max x y)) as [H1 H2]. split; [lia|]. constructor; [lia|done].
Qed.

Create HintDb agentdeck.
#[export] Hint Resolve find_first_Some list_minZ_elem : agentdeck.
