(* ===== verification/PyStr.v ===== *)
(** * Python strings

    A Python [str] is modelled as its UTF-8 encoding in a [string]; equality,
    concatenation and prefix tests agree with the code-point ones because
    UTF-8 is self-synchronising.  [chars] recovers the sequence of characters
    (one string per code point), and every operation whose result depends on
    characters ([len], slices, [strip], [split], [splitlines]) is defined on
    it.  The whitespace, line-break and decimal-digit classes are those of
    CPython 3.11 (Unicode 14). *)
From S2P Require Import Prelude.
From Stdlib Require Import Ascii.

#[global] Arguments String.append !_ _ / : simpl nomatch.

Definition byte_of (c : ascii) : N := N_of_ascii c.

(** A UTF-8 continuation byte, [10xxxxxx]. *)
Definition is_cont (c : ascii) : bool := (128 <=? byte_of c)%N && (byte_of c <? 192)%N.

Definition starts_cont (s : string) : bool :=
  match s with String c _ => is_cont c | EmptyString => false end.

(** The characters of a string: every continuation byte belongs to the
    character that precedes it. *)
Fixpoint chars (s : string) : list string :=
  match s with
  | EmptyString => []
  | String a r =>
      match chars r with
      | c :: cs => if starts_cont c then String a c :: cs else String a EmptyString :: c :: cs
      | [] => [String a EmptyString]
      end
  end.

(** ["".join(cs)] *)
Fixpoint concat_str (cs : list string) : string :=
  match cs with [] => "" | c :: cs => c +:+ concat_str cs end.

(** [sep.join(cs)] *)
Fixpoint join (sep : string) (cs : list string) : string :=
  match cs with
  | [] => ""
  | [c] => c
  | c :: cs => c +:+ sep +:+ join sep cs
  end.

(** [ord], on one character. *)
Definition ord (c : string) : N :=
  match c with
  | String a EmptyString => byte_of a
  | String a (String b EmptyString) =>
      (N.land (byte_of a) 31 * 64 + N.land (byte_of b) 63)%N
  | String a (String b (String d EmptyString)) =>
      (N.land (byte_of a) 15 * 4096 + N.land (byte_of b) 63 * 64 + N.land (byte_of d) 63)%N
  | String a (String b (String d (String e EmptyString))) =>
      (N.land (byte_of a) 7 * 262144 + N.land (byte_of b) 63 * 4096
       + N.land (byte_of d) 63 * 64 + N.land (byte_of e) 63)%N
  | _ => 0%N
  end.

(** [len(s)] *)
Definition py_len (s : string) : Z := Z.of_nat (length (chars s)).

(** [s[:n]] and [s[n:]] for [n] not negative. *)
Definition py_take (n : nat) (s : string) : string := concat_str (take n (chars s)).
Definition py_drop (n : nat) (s : string) : string := concat_str (drop n (chars s)).

(** [s[:z]] for any integer: a negative bound counts from the end. *)
Definition py_slice_to (z : Z) (s : string) : string :=
  py_take (Z.to_nat (if (z <? 0)%Z then z + py_len s else z)) s.

(** [str.isspace] of one character, and the regex class [\s]. *)
Definition is_space (c : string) : bool :=
  let n := ord c in
  ((9 <=? n) && (n <=? 13) || (28 <=? n) && (n <=? 32) || (n =? 133) || (n =? 160)
   || (n =? 5760) || (8192 <=? n) && (n <=? 8202) || (n =? 8232) || (n =? 8233)
   || (n =? 8239) || (n =? 8287) || (n =? 12288))%N.

(** The line boundaries of [str.splitlines]. *)
Definition is_linebreak (c : string) : bool :=
  let n := ord c in
  ((10 <=? n) && (n <=? 13) || (28 <=? n) && (n <=? 30) || (n =? 133)
   || (n =? 8232) || (n =? 8233))%N.

(** The zeros of the Unicode 14 [Nd] ranges; each range is ten code points. *)
Definition nd_zeros : list N :=
  [48; 1632; 1776; 1984; 2406; 2534; 2662; 2790; 2918; 3046; 3174; 3302; 3430; 3558; 3664;
   3792; 3872; 4160; 4240; 6112; 6160; 6470; 6608; 6784; 6800; 6992; 7088; 7232; 7248; 42528;
   43216; 43264; 43472; 43504; 43600; 44016; 65296; 66720; 68912; 69734; 69872; 69942; 70096;
   70384; 70736; 70864; 71248; 71360; 71472; 71904; 72016; 72784; 73040; 73120; 92768; 92864;
   93008; 120782; 120792; 120802; 120812; 120822; 123200; 123632; 125264; 130032]%N.

(** The decimal value of a character, and the regex class [\d]. *)
Definition decimal_value (c : string) : option N :=
  z ← find_first (fun z => (z <=? ord c) && (ord c <? z + 10))%N nd_zeros;
  Some (ord c - z)%N.
Definition is_decimal (c : string) : bool := bool_decide (is_Some (decimal_value c)).

(** [s.lstrip()], [s.rstrip()], [s.strip()] *)
Definition lstrip (s : string) : string := concat_str (drop_while is_space (chars s)).
Definition rstrip (s : string) : string :=
  concat_str (reverse (drop_while is_space (reverse (chars s)))).
Definition strip (s : string) : string := rstrip (lstrip s).

(** [s.strip() == ""], i.e. every character is whitespace. *)
Definition blank (s : string) : bool := forallb is_space (chars s).

(** [s.split()]: the maximal runs of non-whitespace characters. *)
Fixpoint split_go (cur : string) (cs : list string) : list string :=
  match cs with
  | [] => if String.eqb cur "" then [] else [cur]
  | c :: cs =>
      if is_space c
      then if String.eqb cur "" then split_go "" cs else cur :: split_go "" cs
      else split_go (cur +:+ c) cs
  end.
Definition py_split (s : string) : list string := split_go "" (chars s).

(** [s.splitlines()] *)
Fixpoint splitlines_go (cur : string) (cs : list string) : list string :=
  match cs with
  | [] => if String.eqb cur "" then [] else [cur]
  | c :: cs' =>
      if is_linebreak c
      then cur :: match cs' with
                  | d :: cs'' =>
                      if (ord c =? 13)%N && (ord d =? 10)%N
                      then splitlines_go "" cs'' else splitlines_go "" cs'
                  | [] => []
                  end
      else splitlines_go (cur +:+ c) cs'
  end.
Definition splitlines (s : string) : list string := splitlines_go "" (chars s).

(** [s.startswith(p)] *)
Definition startswith (p s : string) : bool := String.prefix p s.

(** [sub in s] *)
Fixpoint contains (sub s : string) : bool :=
  startswith sub s || match s with String _ r => contains sub r | EmptyString => false end.

(** [s[len(p):]] when [s] starts with [p]. *)
Fixpoint drop_prefix (p s : string) : option string :=
  match p, s with
  | EmptyString, _ => Some s
  | String a p, String b s => if Ascii.eqb a b then drop_prefix p s else None
  | String _ _, EmptyString => None
  end.

(** [s.partition(sep)] for a one-byte separator: the part before the first
    occurrence, and what follows it when there is one. *)
Fixpoint partition (sep : ascii) (s : string) : string * option string :=
  match s with
  | EmptyString => ("", None)
  | String a r =>
      if Ascii.eqb a sep then ("", Some r)
      else let '(b, o) := partition sep r in (String a b, o)
  end.

(** Lowercase hexadecimal identities: a fixed prefix and [n] digits. *)
Definition is_lower_hex (c : ascii) : bool :=
  let n := byte_of c in (48 <=? n)%N && (n <=? 57)%N || (97 <=? n)%N && (n <=? 102)%N.
Fixpoint all_ascii (p : ascii -> bool) (s : string) : bool :=
  match s with EmptyString => true | String c s => p c && all_ascii p s end.
Definition hex_id (p : string) (n : nat) (s : string) : bool :=
  match drop_prefix p s with
  | Some r => Nat.eqb (String.length r) n && all_ascii is_lower_hex r
  | None => false
  end.

(** ** Laws *)

Lemma concat_chars s : concat_str (chars s) = s.
Proof.
  induction s as [|a s IH]; [done|]. cbn. destruct (chars s) as [|c cs]; cbn in *; [by rewrite IH|].
  destruct (starts_cont c); cbn; by rewrite IH.
Qed.

Lemma chars_nil s : chars s = [] <-> s = "".
Proof.
  split; [|by intros ->]. intros H. by rewrite <- (concat_chars s), H.
Qed.

Lemma concat_str_app l k : concat_str (l ++ k) = concat_str l +:+ concat_str k.
Proof.
  induction l as [|c l IH]; [done|]. cbn. rewrite IH.
  induction c as [|a c IHc]; [done|]. cbn. by f_equal.
Qed.

Lemma app_str_nil_r s : s +:+ "" = s.
Proof. induction s as [|a s IH]; [done|]. cbn. by f_equal. Qed.

Lemma app_str_assoc a b c : a +:+ (b +:+ c) = (a +:+ b) +:+ c.
Proof. induction a as [|x a IH]; [done|]. cbn. by f_equal. Qed.

Lemma startswith_spec p s : startswith p s = true <-> exists r, s = p +:+ r.
Proof.
  unfold startswith. revert s; induction p as [|a p IH]; intros [|b s]; cbn.
  - split; [by exists ""|done].
  - split; [by eexists|done].
  - split; [done|]. intros [r Hr]. discriminate.
  - destruct (ascii_dec a b) as [->|Hne].
    + rewrite IH. split; intros [r Hr]; exists r; [by rewrite Hr|by injection Hr].
    + split; [done|]. intros [r Hr]. injection Hr. congruence.
Qed.

Lemma drop_prefix_spec p s r : drop_prefix p s = Some r <-> s = p +:+ r.
Proof.
  revert s; induction p as [|a p IH]; intros [|b s]; cbn; try naive_solver.
  destruct (Ascii.eqb_spec a b) as [->|Hne].
  - rewrite IH. naive_solver.
  - naive_solver.
Qed.

Lemma startswith_app p r : startswith p (p +:+ r) = true.
Proof. apply startswith_spec. by exists r. Qed.

Lemma partition_spec sep s b r :
  partition sep s = (b, Some r) -> s = b +:+ String sep r.
Proof.
  revert b; induction s as [|a s IH]; intros b; cbn; [done|].
  destruct (Ascii.eqb_spec a sep) as [->|Hne]; [by intros [= <- <-]|].
  destruct (partition sep s) as [b' [r'|]]; intros [= <- <-]. cbn. f_equal. by apply IH.
Qed.

Lemma contains_spec sub s :
  contains sub s = true <-> exists a b, s = a +:+ sub +:+ b.
Proof.
  induction s as [|x s IH]; cbn -[startswith]; rewrite orb_true_iff, startswith_spec.
  - split.
    + intros [[r Hr]|?]; [|done]. exists "", r. done.
    + intros (a & b & H). left. destruct a; [|done]. by exists b.
  - rewrite IH. split.
    + intros [[r ->]|(a & b & ->)]; [by exists "", r|]. by exists (String x a), b.
    + intros (a & b & H). destruct a as [|y a].
      * left. by exists b.
      * right. injection H as -> H. by exists a, b.
Qed.

Lemma drop_while_forallb {A} (p : A -> bool) l : drop_while p l = [] <-> forallb p l = true.
Proof. induction l as [|x l IH]; cbn; [done|]. by destruct (p x). Qed.

Lemma drop_while_head {A} (p : A -> bool) l x k : drop_while p l = x :: k -> p x = false.
Proof.
  induction l as [|y l IH]; cbn; [done|]. destruct (p y) eqn:Hy; [done|]. by intros [= <- _].
Qed.

Lemma drop_while_suffix {A} (p : A -> bool) l : exists k, l = k ++ drop_while p l /\ forallb p k = true.
Proof.
  induction l as [|y l (k & Hk & Hp)]; [by exists []|]. cbn. destruct (p y) eqn:Hy.
  - exists (y :: k). cbn. by rewrite <- Hk, Hy.
  - by exists [].
Qed.

(** *** Sequences of characters *)

(** One character, and a character that may follow another one. *)
Definition is_char (c : string) : bool :=
  match c with String _ r => all_ascii is_cont r | EmptyString => false end.
Definition chars_ok (cs : list string) : bool :=
  forallb is_char cs && match cs with [] => true | _ :: cs => forallb (fun c => negb (starts_cont c)) cs end.

Lemma chars_cons_ok a r cs :
  all_ascii is_cont r = true -> match cs with [] => True | c :: _ => is_char c = true /\ starts_cont c = false end ->
  chars (concat_str cs) = cs -> chars (String a r +:+ concat_str cs) = String a r :: cs.
Proof.
  intros Hr Hc Hcs. revert a Hr; induction r as [|b r IH]; intros a.
  - intros _. cbn [String.append chars]. rewrite Hcs. destruct cs as [|[|x c] cs]; [done|by destruct Hc|].
    destruct Hc as [_ Hc]. cbn in Hc |- *. by rewrite Hc.
  - cbn [all_ascii]. intros [Hb Hr]%andb_true_iff. specialize (IH b Hr).
    change (chars (String a (String b r +:+ concat_str cs)) = String a (String b r) :: cs).
    cbn [chars]. rewrite IH. cbn. by rewrite Hb.
Qed.

Lemma chars_concat cs : chars_ok cs = true -> chars (concat_str cs) = cs.
Proof.
  unfold chars_ok. induction cs as [|c cs IH]; [done|]. cbn [forallb concat_str].
  intros [[Hc Hcs]%andb_true_iff Hh]%andb_true_iff. destruct c as [|a r]; [done|].
  apply chars_cons_ok; [done| |].
  - destruct cs as [|c' cs]; [done|]. cbn in Hh, Hcs. apply andb_true_iff in Hh as [Hh _], Hcs as [Hcs _].
    by apply negb_true_iff in Hh.
  - apply IH. rewrite Hcs. destruct cs as [|c' cs]; [done|]. cbn in Hh |- *. by apply andb_true_iff in Hh as [_ Hh].
Qed.

Lemma chars_chars_ok s : chars_ok (chars s) = true.
Proof.
  unfold chars_ok. induction s as [|a s IH]; [done|]. cbn [chars]. destruct (chars s) as [|c cs] eqn:Hcs; [done|].
  apply andb_true_iff in IH as [[Hc Hcs']%andb_true_iff Ht].
  change (forallb is_char cs = true) in Hcs'.
  destruct (starts_cont c) eqn:Hs; simpl; rewrite Hcs', Ht.
  - destruct c as [|x c]; [done|]. cbn in Hc, Hs |- *. by rewrite Hc, Hs.
  - rewrite Hc. cbn. by rewrite Hs.
Qed.

Lemma chars_ok_app l k : chars_ok (l ++ k) = true -> chars_ok l = true /\ chars_ok k = true.
Proof.
  unfold chars_ok. rewrite forallb_app, !andb_true_iff. intros [[Hl Hk] Ht]. rewrite Hl, Hk.
  destruct l as [|c l]; [done|]. cbn in Ht. rewrite forallb_app in Ht. apply andb_true_iff in Ht as [H1 H2].
  split_and!; try done. destruct k as [|d k]; [done|]. cbn in H2. by apply andb_true_iff in H2 as [_ H2].
Qed.

(** [strip] on the sequence of characters. *)
Definition strip_chars (cs : list string) : list string :=
  reverse (drop_while is_space (reverse (drop_while is_space cs))).

Lemma drop_while_chars_ok p cs : chars_ok cs = true -> chars_ok (drop_while p cs) = true.
Proof.
  intros H. destruct (drop_while_suffix p cs) as (k & Hk & _). rewrite Hk in H. by apply chars_ok_app in H as [_ H].
Qed.

Lemma rstrip_suffix cs : exists k, cs = reverse (drop_while is_space (reverse cs)) ++ k /\ forallb is_space k = true.
Proof.
  destruct (drop_while_suffix is_space (reverse cs)) as (k & Hk & Hs). exists (reverse k). split.
  - by rewrite <- reverse_app, <- Hk, reverse_involutive.
  - rewrite forallb_elem in *. intros x. rewrite elem_of_reverse. apply Hs.
Qed.

Lemma strip_chars_ok cs : chars_ok cs = true -> chars_ok (strip_chars cs) = true.
Proof.
  intros H. apply (drop_while_chars_ok is_space) in H. unfold strip_chars.
  destruct (rstrip_suffix (drop_while is_space cs)) as (k & Hk & _). rewrite Hk in H. by apply chars_ok_app in H as [H _].
Qed.

Lemma strip_concat cs : chars_ok cs = true -> strip (concat_str cs) = concat_str (strip_chars cs).
Proof.
  intros H. unfold strip, lstrip, rstrip, strip_chars. rewrite (chars_concat cs) by done.
  by rewrite (chars_concat (drop_while _ _)) by by apply drop_while_chars_ok.
Qed.

(** *** Words *)

(** [py_split] on the sequence of characters. *)
Fixpoint words_go (cur : list string) (cs : list string) : list (list string) :=
  match cs with
  | [] => match cur with [] => [] | _ => [cur] end
  | c :: cs =>
      if is_space c then match cur with [] => words_go [] cs | _ => cur :: words_go [] cs end
      else words_go (cur ++ [c]) cs
  end.

Lemma concat_str_empty cs : forallb is_char cs = true -> String.eqb (concat_str cs) "" = match cs with [] => true | _ => false end.
Proof. destruct cs as [|[|a r] cs]; done. Qed.

Lemma split_go_words cs : forall cur,
  forallb is_char cur = true -> forallb is_char cs = true ->
  split_go (concat_str cur) cs = concat_str <$> words_go cur cs.
Proof.
  induction cs as [|c cs IH]; intros cur Hcur; cbn [split_go words_go forallb].
  - intros _. rewrite concat_str_empty by done. by destruct cur.
  - intros [Hc Hcs]%andb_true_iff. rewrite concat_str_empty by done. destruct (is_space c).
    + specialize (IH [] eq_refl Hcs). cbn in IH. destruct cur; [done|]. by rewrite IH.
    + rewrite <- IH; [|rewrite forallb_app, Hcur; cbn; by rewrite Hc|done].
      f_equal. rewrite concat_str_app. cbn. by rewrite app_str_nil_r.
Qed.

Lemma py_split_words s : py_split s = concat_str <$> words_go [] (chars s).
Proof.
  unfold py_split. rewrite <- split_go_words; [done..|].
  pose proof (chars_chars_ok s) as H. unfold chars_ok in H. by apply andb_true_iff in H as [H _].
Qed.

(** Every word is a non-empty run of characters that are not whitespace. *)
Definition is_word (w : list string) : Prop := w <> [] /\ Forall (fun c => is_space c = false) w.

Lemma words_go_words cs : forall cur,
  Forall (fun c => is_space c = false) cur -> Forall is_word (words_go cur cs).
Proof.
  induction cs as [|c cs IH]; intros cur Hc; cbn [words_go].
  - destruct cur as [|c cur]; [constructor|]. constructor; [split; [done|exact Hc]|constructor].
  - destruct (is_space c) eqn:Hs.
    + destruct cur as [|d cur]; [by apply IH|]. constructor; [done|by apply IH].
    + apply IH. apply Forall_app. by repeat constructor.
Qed.

Lemma words_go_run w cur cs :
  Forall (fun c => is_space c = false) w -> words_go cur (w ++ cs) = words_go (cur ++ w) cs.
Proof.
  intros Hw; revert cur; induction Hw as [|c w Hc _ IH]; intros cur; cbn; [by rewrite app_nil_r|].
  rewrite Hc, IH. by rewrite <- app_assoc.
Qed.

Fixpoint join_words (ws : list (list string)) : list string :=
  match ws with
  | [] => []
  | [w] => w
  | w :: ws => w ++ " " :: join_words ws
  end.

Lemma words_join ws : Forall is_word ws -> words_go [] (join_words ws) = ws.
Proof.
  induction 1 as [|w ws [Hne Hw] Hws IH]; [done|]. cbn [join_words]. destruct ws as [|w' ws].
  - rewrite <- (app_nil_r w) at 1. rewrite words_go_run by done. cbn. by destruct w.
  - rewrite words_go_run by done. cbn [words_go app]. change (is_space " ") with true.
    destruct w; [done|]. by rewrite IH.
Qed.

Lemma join_concat ws : join " " (concat_str <$> ws) = concat_str (join_words ws).
Proof.
  induction ws as [|w ws IH]; [done|]. cbn [fmap list_fmap join join_words].
  destruct ws as [|w' ws]; [done|]. rewrite concat_str_app.
  change (concat_str w +:+ (" " +:+ join " " (concat_str <$> w' :: ws)) =
          concat_str w +:+ (" " +:+ concat_str (join_words (w' :: ws)))). by rewrite IH.
Qed.

Lemma words_go_elem cs : forall cur w c, w ∈ words_go cur cs -> c ∈ w -> c ∈ cur \/ c ∈ cs.
Proof.
  induction cs as [|d cs IH]; intros cur w c; cbn [words_go].
  - destruct cur; [by intros ?%not_elem_of_nil|]. intros ->%list_elem_of_singleton. by left.
  - destruct (is_space d).
    + destruct cur as [|x cur].
      * intros Hw Hc. destruct (IH _ _ _ Hw Hc) as [|]; [by left|right; by right].
      * intros [->|Hw]%elem_of_cons Hc; [by left|].
        destruct (IH _ _ _ Hw Hc) as [?%not_elem_of_nil|]; [done|right; by right].
    + intros Hw Hc. destruct (IH _ _ _ Hw Hc) as [[|Hd]%elem_of_app|]; [by left| |right; by right].
      apply list_elem_of_singleton in Hd as ->. right. by left.
Qed.

Definition follows (c : string) : Prop := is_char c = true /\ starts_cont c = false.

Lemma join_words_follows ws : Forall (Forall follows) ws -> Forall follows (join_words ws).
Proof.
  induction 1 as [|w ws Hw Hws IH]; [constructor|]. cbn [join_words]. destruct ws; [done|].
  apply Forall_app. split; [done|]. by constructor.
Qed.

Lemma chars_ok_cons c cs : is_char c = true -> Forall follows cs -> chars_ok (c :: cs) = true.
Proof.
  unfold chars_ok. intros Hc Hf. cbn. rewrite Hc. cbn. rewrite Forall_forall in Hf.
  rewrite andb_true_iff, !forallb_elem. split; intros x Hx; [|apply negb_true_iff]; by apply Hf.
Qed.

Lemma chars_ok_inv cs : chars_ok cs = true ->
  match cs with [] => True | c :: cs => is_char c = true /\ Forall follows cs end.
Proof.
  unfold chars_ok. destruct cs as [|c cs]; [done|]. cbn [forallb]. intros [[Hc Hcs]%andb_true_iff Hf]%andb_true_iff.
  split; [done|]. rewrite forallb_elem in Hcs, Hf. apply Forall_forall. intros x Hx.
  split; [by apply Hcs|]. by apply negb_true_iff, Hf.
Qed.

Lemma chars_follows v : starts_cont v = false -> Forall follows (chars v).
Proof.
  intros Hv. pose proof (chars_ok_inv _ (chars_chars_ok v)) as H. pose proof (concat_chars v) as Hc.
  destruct (chars v) as [|c cs]; [done|]. destruct H as [Hch Hf]. constructor; [|done]. split; [done|].
  rewrite <- Hc in Hv. by destruct c.
Qed.

Lemma words_go_cons cs : forall cur, cur <> [] ->
  exists w ws, words_go cur cs = (cur ++ w) :: ws /\ forall c, c ∈ w \/ (exists v, v ∈ ws /\ c ∈ v) -> c ∈ cs.
Proof.
  induction cs as [|d cs IH]; intros cur Hne; cbn [words_go].
  - destruct cur as [|x cur]; [done|]. exists [], []. rewrite app_nil_r. split; [done|].
    intros c [?%not_elem_of_nil|(v & ?%not_elem_of_nil & _)]; done.
  - destruct (is_space d).
    + destruct cur as [|x cur]; [done|]. exists [], (words_go [] cs). rewrite app_nil_r. split; [done|].
      intros c [?%not_elem_of_nil|(v & Hv & Hc)]; [done|].
      destruct (words_go_elem _ _ _ _ Hv Hc) as [?%not_elem_of_nil|]; [done|by right].
    + destruct (IH (cur ++ [d])) as (w & ws & Hw & Hin); [by destruct cur|]. exists (d :: w), ws.
      rewrite Hw, <- app_assoc. split; [done|]. intros c [[->|Hc]%elem_of_cons|Hc]; [by left|right; apply Hin; by left|right; apply Hin; by right].
Qed.

Lemma join_words_ok cs : chars_ok cs = true -> chars_ok (join_words (words_go [] cs)) = true.
Proof.
  intros H%chars_ok_inv. destruct cs as [|c cs]; [done|]. destruct H as [Hc Hf]. rewrite Forall_forall in Hf.
  cbn [words_go]. destruct (is_space c).
  - assert (Hj : Forall follows (join_words (words_go [] cs))).
    { apply join_words_follows, Forall_forall. intros w Hw. apply Forall_forall. intros x Hx.
      destruct (words_go_elem _ _ _ _ Hw Hx) as [?%not_elem_of_nil|]; [done|auto]. }
    destruct Hj as [|x l [Hx _] Hl]; [done|]. by apply chars_ok_cons.
  - destruct (words_go_cons cs [c]) as (w & ws & Hw & Hin); [done|]. cbn [app]. rewrite Hw.
    assert (Forall follows w /\ Forall (Forall follows) ws) as [Hw1 Hws].
    { split; [|apply Forall_forall; intros v Hv]; apply Forall_forall; intros x Hx; apply Hf, Hin; eauto. }
    cbn [join_words app]. destruct ws as [|v ws]; [by apply chars_ok_cons|].
    apply chars_ok_cons; [done|]. apply Forall_app. split; [done|]. constructor; [done|by apply join_words_follows].
Qed.

(** [" ".join(s.split()).split() == s.split()] *)
Lemma py_split_join s : py_split (join " " (py_split s)) = py_split s.
Proof.
  rewrite (py_split_words s), join_concat, py_split_words.
  rewrite chars_concat by apply join_words_ok, chars_chars_ok. f_equal. apply words_join.
  by apply words_go_words.
Qed.

Lemma words_go_lstrip cs : words_go [] (drop_while is_space cs) = words_go [] cs.
Proof.
  induction cs as [|c cs IH]; [done|]. cbn [drop_while words_go]. destruct (is_space c) eqn:Hc; [done|].
  cbn [words_go]. by rewrite Hc.
Qed.

Lemma words_go_spaces cur k : forallb is_space k = true -> words_go cur k = words_go cur [].
Proof.
  revert cur; induction k as [|c k IH]; intros cur; [done|]. cbn [forallb]. intros [Hc Hk]%andb_true_iff.
  cbn [words_go]. rewrite Hc. destruct cur; rewrite (IH [] Hk); done.
Qed.

Lemma words_go_rstrip cur l k : forallb is_space k = true -> words_go cur (l ++ k) = words_go cur l.
Proof.
  intros Hk; revert cur; induction l as [|c l IH]; intros cur; [by apply words_go_spaces|].
  cbn. destruct (is_space c); [destruct cur|]; by rewrite IH.
Qed.

Lemma py_split_strip s : py_split (strip s) = py_split s.
Proof.
  rewrite !py_split_words. f_equal.
  rewrite <- (concat_chars s) at 1. rewrite strip_concat by apply chars_chars_ok.
  rewrite chars_concat by apply strip_chars_ok, chars_chars_ok. unfold strip_chars.
  rewrite <- (words_go_lstrip (chars s)). set (l := drop_while is_space (chars s)).
  destruct (rstrip_suffix l) as (k & Hk & Hs). rewrite Hk at 2. by rewrite words_go_rstrip.
Qed.

Lemma words_nil cs : words_go [] cs = [] <-> forallb is_space cs = true.
Proof.
  split.
  - induction cs as [|c cs IH]; [done|]. cbn [words_go forallb]. destruct (is_space c); [done|].
    intros H. cbn in H. destruct (words_go_cons cs [c]) as (w & ws & Hw & _); [done|]. by rewrite Hw in H.
  - intros H. by rewrite words_go_spaces.
Qed.

Lemma strip_empty cs : chars_ok cs = true -> strip (concat_str cs) = "" <-> words_go [] cs = [].
Proof.
  intros Hok. rewrite words_nil, strip_concat by done. split.
  - intros H. apply strip_chars_ok in Hok.
    assert (Hs : strip_chars cs = []).
    { rewrite <- (chars_concat _ Hok). by rewrite H. }
    unfold strip_chars in Hs. apply (f_equal reverse) in Hs. rewrite reverse_involutive in Hs.
    apply drop_while_forallb in Hs. destruct (drop_while_suffix is_space cs) as (k & Hk & Hf).
    rewrite Hk, forallb_app, Hf. cbn. rewrite forallb_elem in *. intros x Hx. apply Hs. by apply elem_of_reverse.
  - intros H. apply drop_while_forallb in H. unfold strip_chars. by rewrite H.
Qed.

Lemma blank_words s : py_split s <> [] -> blank s = false.
Proof.
  rewrite py_split_words. intros H. destruct (blank s) eqn:Hb; [|done]. apply words_nil in Hb. by rewrite Hb in H.
Qed.

Lemma drop_while_fixed {A} (p : A -> bool) l : drop_while p (drop_while p l) = drop_while p l.
Proof. induction l as [|x l IH]; cbn; [done|]. destruct (p x) eqn:Hx; [done|]. cbn. by rewrite Hx. Qed.

Lemma strip_chars_fixed r : strip_chars (strip_chars r) = strip_chars r.
Proof.
  unfold strip_chars at 1 3. set (l := drop_while is_space r).
  assert (Hl : drop_while is_space (strip_chars r) = strip_chars r).
  { unfold strip_chars. fold l. destruct (rstrip_suffix l) as (k & Hk & _).
    destruct (reverse (drop_while is_space (reverse l))) as [|c m]; [done|].
    assert (Hc : is_space c = false) by (by apply (drop_while_head is_space r c (m ++ k))).
    cbn. by rewrite Hc. }
  rewrite Hl. unfold strip_chars. fold l. by rewrite reverse_involutive, drop_while_fixed.
Qed.

Lemma strip_strip s : strip (strip s) = strip s.
Proof.
  rewrite <- (concat_chars s). pose proof (chars_chars_ok s) as H.
  rewrite strip_concat, strip_concat by (done || by apply strip_chars_ok). by rewrite strip_chars_fixed.
Qed.

Lemma strip_nonempty s : strip s <> "" <-> exists c, c ∈ chars s /\ is_space c = false.
Proof.
  rewrite <- (concat_chars s) at 1. rewrite (strip_empty (chars s)) by apply chars_chars_ok. rewrite words_nil. split.
  - intros H. destruct (existsb (fun c => negb (is_space c)) (chars s)) eqn:He.
    + apply existsb_elem in He as (c & Hc & Hn). apply negb_true_iff in Hn. eauto.
    + exfalso. apply H. rewrite forallb_elem. rewrite existsb_elem_false in He.
      intros c Hc. by apply negb_false_iff, He.
  - intros (c & Hc & Hs) Hf. rewrite forallb_elem in Hf. by rewrite Hf in Hs.
Qed.

Lemma chars_app_str a b : starts_cont b = false -> chars (a +:+ b) = chars a ++ chars b.
Proof.
  intros Hb. pose proof (chars_chars_ok a) as Ha. pose proof (chars_follows b Hb) as Hf.
  rewrite <- (concat_chars a) at 1. rewrite <- (concat_chars b) at 1. rewrite <- concat_str_app.
  apply chars_concat. apply chars_ok_inv in Ha. destruct (chars a) as [|c cs]; cbn [app].
  - destruct Hf as [|x l [Hx _] Hl]; [done|by apply chars_ok_cons].
  - destruct Ha as [Hc Hcs]. apply chars_ok_cons; [done|by apply Forall_app].
Qed.

Create HintDb pystr.
#[export] Hint Rewrite concat_chars app_str_nil_r concat_str_app : pystr.
