(* ===== verification/PyVal.v ===== *)
(** * Python values

    The dynamically typed values the code receives (JSON documents, persisted
    state, provider output), with the operations the modelled modules apply to
    them.  A dictionary is an association list in insertion order with string
    keys; a float is a finite dyadic number [m * 2^e] (the infinities and NaN
    do not occur in the modelled functions). *)
From S2P Require Import Prelude PyStr.

Inductive pyval : Type :=
| PNone
| PBool (b : bool)
| PInt (z : Z)
| PFloat (m e : Z)
| PStr (s : string)
| PList (l : list pyval)
| PTuple (l : list pyval)
| PDict (d : list (string * pyval)).

Notation dict := (list (string * pyval)).

(** ** Induction and decidable equality (the type is nested) *)

Section pyval_ind.
  Variable P : pyval -> Prop.
  Hypothesis HNone : P PNone.
  Hypothesis HBool : forall b, P (PBool b).
  Hypothesis HInt : forall z, P (PInt z).
  Hypothesis HFloat : forall m e, P (PFloat m e).
  Hypothesis HStr : forall s, P (PStr s).
  Hypothesis HList : forall l, Forall P l -> P (PList l).
  Hypothesis HTuple : forall l, Forall P l -> P (PTuple l).
  Hypothesis HDict : forall d, Forall (fun kv => P kv.2) d -> P (PDict d).

Fixpoint pyval_ind' (v : pyval) : P v :=
    match v with
    | PNone => HNone
    | PBool b => HBool b
    | PInt z => HInt z
    | PFloat m e => HFloat m e
    | PStr s => HStr s
    | PList l => HList l ((fix go l := match l return Forall P l with
        | [] => Forall_nil_2 _ | x :: l => Forall_cons_2 _ _ _ (pyval_ind' x) (go l) end) l)
    | PTuple l => HTuple l ((fix go l := match l return Forall P l with
        | [] => Forall_nil_2 _ | x :: l => Forall_cons_2 _ _ _ (pyval_ind' x) (go l) end) l)
    | PDict d => HDict d ((fix go d := match d return Forall (fun kv => P kv.2) d with
        | [] => Forall_nil_2 _
        | (k, x) :: d => Forall_cons_2 _ (k, x) _ (pyval_ind' x) (go d) end) d)
    end.
End pyval_ind.

Fixpoint pyval_eqb (v w : pyval) {struct v} : bool :=
  let fix eqbs (l k : list pyval) : bool :=
    match l, k with
    | [], [] => true
    | x :: l, y :: k => pyval_eqb x y && eqbs l k
    | _, _ => false
    end in
  match v, w with
  | PNone, PNone => true
  | PBool a, PBool b => Bool.eqb a b
  | PInt a, PInt b => Z.eqb a b
  | PFloat m e, PFloat m' e' => Z.eqb m m' && Z.eqb e e'
  | PStr a, PStr b => String.eqb a b
  | PList l, PList k => eqbs l k
  | PTuple l, PTuple k => eqbs l k
  | PDict d, PDict d' =>
      (fix go (d d' : dict) : bool :=
         match d, d' with
         | [], [] => true
         | (k, x) :: d, (k', y) :: d' => String.eqb k k' && pyval_eqb x y && go d d'
         | _, _ => false
         end) d d'
  | _, _ => false
  end.

Lemma pyval_eqb_spec v w : pyval_eqb v w = true <-> v = w.
Proof.
  revert w; induction v as [|b|z|m e|s|l IH|l IH|d IH] using pyval_ind'; intros [];
    cbn; try (split; [done|congruence]).
  - rewrite Bool.eqb_true_iff. naive_solver.
  - rewrite Z.eqb_eq. naive_solver.
  - rewrite andb_true_iff, !Z.eqb_eq. naive_solver.
  - rewrite String.eqb_eq. naive_solver.
  - revert l0; induction IH as [|x l Hx _ IH]; intros [|y k]; try (split; [done|congruence]).
    rewrite andb_true_iff, Hx, IH. naive_solver.
  - revert l0; induction IH as [|x l Hx _ IH]; intros [|y k]; try (split; [done|congruence]).
    rewrite andb_true_iff, Hx, IH. naive_solver.
  - revert d0; induction IH as [|[k x] d Hx _ IH]; intros [|[k' y] d']; try (split; [done|congruence]).
    cbn in Hx. rewrite !andb_true_iff, Hx, IH, String.eqb_eq. naive_solver.
Qed.

#[export] Instance pyval_eq_dec : EqDecision pyval.
Proof.
  intros v w. destruct (pyval_eqb v w) eqn:H.
  - left. by apply pyval_eqb_spec.
  - right. intros ->. by rewrite (proj2 (pyval_eqb_spec w w)) in H.
Defined.

(** ** Dictionaries *)

(** [k in d] / [d[k]] / [d.get(k)] *)
Fixpoint dlookup (k : string) (d : dict) : option pyval :=
  match d with
  | [] => None
  | (k', v) :: d => if String.eqb k k' then Some v else dlookup k d
  end.
Definition dmem (k : string) (d : dict) : bool :=
  match dlookup k d with Some _ => true | None => false end.
Definition dget (k : string) (d : dict) : pyval :=
  match dlookup k d with Some v => v | None => PNone end.

(** [d[k] = v]: in place when the key exists, at the end otherwise. *)
Fixpoint dset (k : string) (v : pyval) (d : dict) : dict :=
  match d with
  | [] => [(k, v)]
  | (k', v') :: d => if String.eqb k k' then (k', v) :: d else (k', v') :: dset k v d
  end.

(** [d.update(items)] *)
Definition dupdate (items d : dict) : dict :=
  foldl (fun d kv => dset kv.1 kv.2 d) d items.

(** [d.pop(k, None)], the resulting dictionary. *)
Definition dpop (k : string) (d : dict) : dict :=
  List.filter (fun kv => negb (String.eqb k kv.1)) d.

Definition dkeys (d : dict) : list string := d.*1.

(** [k in ks] for a tuple or set of strings. *)
Definition in_strs (k : string) (ks : list string) : bool := existsb (String.eqb k) ks.

(** [set(d) == fields], [fields <= set(d)], [set(d) - allowed] is empty. *)
Definition has_keys (fields : list string) (d : dict) : bool := forallb (fun k => dmem k d) fields.
Definition only_keys (allowed : list string) (d : dict) : bool :=
  forallb (fun k => in_strs k allowed) (dkeys d).
Definition keys_are (fields : list string) (d : dict) : bool := has_keys fields d && only_keys fields d.

(** ** Truth, equality, hashing *)

Definition truthy (v : pyval) : bool :=
  match v with
  | PNone => false
  | PBool b => b
  | PInt z => negb (z =? 0)%Z
  | PFloat m _ => negb (m =? 0)%Z
  | PStr s => negb (String.eqb s "")
  | PList l | PTuple l => match l with [] => false | _ => true end
  | PDict d => match d with [] => false | _ => true end
  end.

(** [v or w] *)
Definition py_or (v w : pyval) : pyval := if truthy v then v else w.

(** The number a value is, as [(mantissa, exponent)]; [bool] is an [int]. *)
Definition num_of (v : pyval) : option (Z * Z) :=
  match v with
  | PBool b => Some ((if b then 1 else 0)%Z, 0%Z)
  | PInt z => Some (z, 0%Z)
  | PFloat m e => Some (m, e)
  | _ => None
  end.
Definition num_eqb (a b : Z * Z) : bool :=
  let e := Z.min a.2 b.2 in
  (a.1 * 2 ^ (a.2 - e) =? b.1 * 2 ^ (b.2 - e))%Z.

(** [v == w] *)
Fixpoint py_eq (v w : pyval) {struct v} : bool :=
  let fix eqs (l k : list pyval) : bool :=
    match l, k with
    | [], [] => true
    | x :: l, y :: k => py_eq x y && eqs l k
    | _, _ => false
    end in
  match num_of v, num_of w with
  | Some a, Some b => num_eqb a b
  | _, _ =>
      match v, w with
      | PNone, PNone => true
      | PStr a, PStr b => String.eqb a b
      | PList l, PList k => eqs l k
      | PTuple l, PTuple k => eqs l k
      | PDict d, PDict d' =>
          Nat.eqb (length d) (length d') &&
          (fix go (d : dict) : bool :=
             match d with
             | [] => true
             | (k, x) :: d =>
                 match dlookup k d' with Some y => py_eq x y && go d | None => false end
             end) d
      | _, _ => false
      end
  end.

(** A value that may be a dictionary key or a set member. *)
Fixpoint hashable (v : pyval) : bool :=
  match v with
  | PList _ | PDict _ => false
  | PTuple l => forallb hashable l
  | _ => true
  end.

(** [v in s] for a set [s] of strings: an unhashable [v] raises [TypeError]. *)
Definition in_str_set (v : pyval) (s : list string) : result bool :=
  if hashable v
  then Ok (match v with PStr x => in_strs x s | _ => false end)
  else Err (TypeError "unhashable type").

(** [v in l] for a list or tuple: comparison by [==], no hashing. *)
Definition in_list (v : pyval) (l : list pyval) : bool := existsb (fun x => py_eq v x) l.

(** ** Dictionaries with arbitrary (hashable) keys, as built by comprehensions *)

Section keyed.
  Context {A : Type}.

  (** [m.get(k)]: the last binding wins when [m] lists insertions in order. *)
Definition kget (k : pyval) (m : list (pyval * A)) : option A :=
    snd <$> head (List.filter (fun kv => py_eq k kv.1) (reverse m)).
End keyed.

(** [{key(x): x for x in l}]: insertion of an unhashable key raises. *)
Definition keyed_by {A} (key : A -> pyval) (l : list A) : result (list (pyval * A)) :=
  mapR (fun x => if hashable (key x) then Ok (key x, x) else Err (TypeError "unhashable type")) l.

(** ** Conversions *)

(** [repr] of floats and containers is the interpreter's; everything else
    [str] prints is fixed here. *)
Class PyRepr := py_repr : pyval -> string.

Definition py_str `{PyRepr} (v : pyval) : string :=
  match v with
  | PStr s => s
  | PNone => "None"
  | PBool true => "True"
  | PBool false => "False"
  | PInt z => pretty z
  | v => py_repr v
  end.

(** The digits of [int(s)]: decimal digits with single underscores between. *)
Fixpoint int_digits (acc : Z) (count : nat) (after_digit : bool) (cs : list string)
    : option (Z * nat) :=
  match cs with
  | [] => if after_digit then Some (acc, count) else None
  | c :: cs =>
      match decimal_value c with
      | Some n => int_digits (acc * 10 + Z.of_N n)%Z (S count) true cs
      | None =>
          if String.eqb c "_" && after_digit then int_digits acc count false cs else None
      end
  end.

(** [int(s)]: at most 4300 digits are accepted. *)
Definition int_of_str (s : string) : result Z :=
  let invalid := Err (ValueError "invalid literal for int()") in
  let cs := chars (strip s) in
  let '(sign, cs) := match cs with
                     | c :: cs' => if String.eqb c "-" then ((-1)%Z, cs')
                                   else if String.eqb c "+" then (1%Z, cs') else (1%Z, cs)
                     | [] => (1%Z, cs)
                     end in
  match int_digits 0 0 false cs with
  | Some (z, n) =>
      if (Z.of_nat n <=? 4300)%Z then Ok (sign * z)%Z
      else Err (ValueError "Exceeds the limit for integer string conversion")
  | None => invalid
  end.

(** [int(v)] *)
Definition py_int (v : pyval) : result Z :=
  match v with
  | PBool b => Ok (if b then 1 else 0)%Z
  | PInt z => Ok z
  | PFloat m e => Ok (if (0 <=? e)%Z then m * 2 ^ e else Z.quot m (2 ^ (- e)))%Z
  | PStr s => int_of_str s
  | _ => Err (TypeError "int() argument must be a string or a real number")
  end.

(** [isinstance(v, int)] (a [bool] is one), and [type(v) is int]. *)
Definition isinstance_int (v : pyval) : option Z :=
  match v with PInt z => Some z | PBool b => Some (if b then 1 else 0)%Z | _ => None end.
Definition exact_int (v : pyval) : option Z :=
  match v with PInt z => Some z | _ => None end.
Definition is_dict (v : pyval) : bool := match v with PDict _ => true | _ => false end.
Definition is_str (v : pyval) : bool := match v with PStr _ => true | _ => false end.
Definition is_list (v : pyval) : bool := match v with PList _ => true | _ => false end.

(** The dictionaries of a list: [[x for x in l if isinstance(x, dict)]]. *)
Definition dicts_of (l : list pyval) : list dict :=
  omap (fun v => match v with PDict d => Some d | _ => None end) l.

(** ** Laws *)

Lemma dlookup_dset k k' v d :
  dlookup k (dset k' v d) = if String.eqb k k' then Some v else dlookup k d.
Proof.
  induction d as [|[k0 v0] d IH]; cbn; [by destruct (String.eqb k k')|].
  destruct (String.eqb_spec k' k0) as [->|Hne]; cbn; destruct (String.eqb_spec k k0) as [->|Hne'];
    try done.
  by destruct (String.eqb_spec k0 k') as [->|].
Qed.

Lemma dlookup_dset_eq k v d : dlookup k (dset k v d) = Some v.
Proof. by rewrite dlookup_dset, String.eqb_refl. Qed.

Lemma dlookup_dset_ne k k' v d : k <> k' -> dlookup k (dset k' v d) = dlookup k d.
Proof. intros H. by rewrite dlookup_dset, (proj2 (String.eqb_neq _ _) H). Qed.

Lemma dget_dset k k' v d : dget k (dset k' v d) = if String.eqb k k' then v else dget k d.
Proof. unfold dget. rewrite dlookup_dset. by destruct (String.eqb k k'). Qed.

Lemma dlookup_None k d : dlookup k d = None <-> k ∉ dkeys d.
Proof.
  unfold dkeys. induction d as [|[k' v] d IH]; cbn; [split; [intros _ ?%not_elem_of_nil|]; done|].
  rewrite not_elem_of_cons. destruct (String.eqb_spec k k') as [->|Hne]; naive_solver.
Qed.

Lemma in_strs_spec k ks : in_strs k ks = true <-> k ∈ ks.
Proof.
  unfold in_strs. rewrite existsb_elem. setoid_rewrite String.eqb_eq. naive_solver.
Qed.

Lemma dmem_spec k d : dmem k d = true <-> k ∈ dkeys d.
Proof.
  unfold dmem. destruct (dlookup k d) eqn:H.
  - split; [|done]. intros _. destruct (decide (k ∈ dkeys d)) as [|Hn]; [done|].
    apply dlookup_None in Hn. congruence.
  - apply dlookup_None in H. naive_solver.
Qed.

Lemma keys_are_spec fields d : keys_are fields d = true <-> (forall k, k ∈ fields <-> k ∈ dkeys d).
Proof.
  unfold keys_are, has_keys, only_keys. rewrite andb_true_iff, !forallb_elem.
  setoid_rewrite dmem_spec. setoid_rewrite in_strs_spec. naive_solver.
Qed.

Lemma num_eqb_refl a : num_eqb a a = true.
Proof. unfold num_eqb. by rewrite Z.eqb_refl. Qed.

(** Distinct keys, recursively: what a Python dictionary guarantees. *)
Fixpoint wf_val (v : pyval) : bool :=
  match v with
  | PList l | PTuple l => forallb wf_val l
  | PDict d => bool_decide (NoDup (dkeys d)) && forallb (fun kv => wf_val kv.2) d
  | _ => true
  end.

Lemma dlookup_elem k v d : dlookup k d = Some v -> (k, v) ∈ d.
Proof.
  induction d as [|[k' v'] d IH]; cbn; [done|].
  destruct (String.eqb_spec k k') as [->|Hne]; [intros [= ->]; by left|]. intros H; right; auto.
Qed.

Lemma dlookup_NoDup k v d : NoDup (dkeys d) -> (k, v) ∈ d -> dlookup k d = Some v.
Proof.
  unfold dkeys. induction d as [|[k' v'] d IH]; cbn; [by intros _ ?%not_elem_of_nil|].
  intros [Hn Hd]%NoDup_cons [[= -> ->]|Hin]%elem_of_cons; [by rewrite String.eqb_refl|].
  destruct (String.eqb_spec k k') as [->|]; [|auto].
  exfalso. apply Hn. apply list_elem_of_fmap. by exists (k', v).
Qed.

Lemma in_str_set_str s l : in_str_set (PStr s) l = Ok (in_strs s l).
Proof. done. Qed.

Lemma py_eq_str v s : py_eq v (PStr s) = true <-> v = PStr s.
Proof. destruct v; cbn; try (split; congruence). rewrite String.eqb_eq. naive_solver. Qed.

Lemma py_eq_str_l v s : py_eq (PStr s) v = true <-> v = PStr s.
Proof. destruct v; cbn; try (split; congruence). rewrite String.eqb_eq. naive_solver. Qed.

Lemma elem_of_dicts_of d l : d ∈ dicts_of l <-> PDict d ∈ l.
Proof.
  unfold dicts_of. rewrite list_elem_of_omap. split.
  - intros (v & Hv & H). destruct v; simplify_eq. done.
  - intros H. by exists (PDict d).
Qed.

Lemma dicts_of_cons v l :
  dicts_of (v :: l) = match v with PDict d => d :: dicts_of l | _ => dicts_of l end.
Proof. by destruct v. Qed.

(** [v == v]; a dictionary has distinct keys. *)
Lemma py_eq_refl v : wf_val v = true -> py_eq v v = true.
Proof.
  induction v as [|b|z|m e|s|l IH|l IH|d IH] using pyval_ind'; intros Hwf; cbn [py_eq num_of];
    try apply num_eqb_refl; try done; try apply String.eqb_refl.
  1,2: cbn [wf_val] in Hwf; induction IH as [|x l Hx _ IHl]; [done|]; cbn [forallb] in Hwf;
    apply andb_true_iff in Hwf as [H1 H2]; rewrite Hx by done; by apply IHl.
  cbn [wf_val] in Hwf. apply andb_true_iff in Hwf as [Hd%bool_decide_eq_true Hwf].
  rewrite forallb_elem in Hwf. rewrite Nat.eqb_refl. cbn [andb]. rewrite Forall_forall in IH.
  assert (Hin : forall kv, kv ∈ d -> kv ∈ d) by done. revert Hin. generalize d at 1 4 as k. intros k.
  induction k as [|[key x] k IHk]; intros Hk; [done|].
  rewrite (dlookup_NoDup key x d Hd) by (apply Hk; by left).
  assert (py_eq x x = true) as -> by (apply (IH (key, x)); [apply Hk; by left|apply (Hwf (key, x)), Hk; by left]).
  apply IHk. intros kv Hkv. apply Hk. by right.
Qed.

Create HintDb pyval.
#[export] Hint Rewrite dlookup_dset_eq dget_dset : pyval.
