(* ===== verification/StepDag.v ===== *)
(** * Step dependencies ([step_dag.py] and the wave guard of [cli.py])

    The dependency relation of a plan is derived from the step markers; the
    wave guard dispatches a step only when none of its (transitive) ancestors
    is incomplete.  Dictionaries keyed by step numbers are [gmap]s; where the
    code iterates over one, its insertion order is ascending and is spelled
    out by [dependency_order]. *)
From S2P Require Import Prelude PyStr PyVal.
From stdpp Require Import sorting.

(** ** Definitions *)

Definition step_number (step : pyval) : option Z :=
  match step with
  | PDict d =>
      match dget "step" d with
      | PInt number => if (number <? 1)%Z then None else Some number
      | _ => None
      end
  | _ => None
  end.

Definition group_of (step : pyval) : option Z :=
  match step with
  | PDict d => exact_int (dget "review_group" d)
  | _ => None
  end.

(** The loop body of [_group_members]: the maps under construction. *)
Definition group_members_step (acc : gmap Z Z * gmap Z (list Z)) (step : pyval)
    : gmap Z Z * gmap Z (list Z) :=
  let '(group_by_step, members) := acc in
  match step_number step with
  | None => acc
  | Some number =>
      match group_of step with
      | None => acc
      | Some group =>
          (<[number := group]> group_by_step,
           <[group := default [] (members !! group) ++ [number]]> members)
      end
  end.

Definition group_members (steps : list pyval) : gmap Z Z * gmap Z (list Z) :=
  let '(group_by_step, members) := foldl group_members_step (∅, ∅) steps in
  (group_by_step, merge_sort Z.le <$> members).

Definition step_numbers (steps : list pyval) : list Z := omap step_number steps.

Section derivation.
  Variable group_by_step : gmap Z Z.
  Variable members : gmap Z (list Z).

  (** [members[group]] (the group of a step always has an entry, see
      [group_by_step_members]). *)
Definition members_of (group : Z) : list Z := default [] (members !! group).

Definition closing_set (before : Z) : list Z :=
    if (before <? 1)%Z then []
    else match group_by_step !! before with
         | Some group => members_of group
         | None => [before]
         end.

Definition anchor (number : Z) : Z :=
    match group_by_step !! number with
    | Some group =>
        match members_of group with
        | m :: ms => list_minZ m ms
        | [] => number
        end
    | None => number
    end.
End derivation.

Definition sorted_numbers (steps : list pyval) : list Z := merge_sort Z.le (step_numbers steps).

Definition derive_step_dependencies (steps : list pyval) : gmap Z (list Z) :=
  let '(group_by_step, members) := group_members steps in
  foldl (fun deps number =>
           <[number := closing_set group_by_step members (anchor group_by_step members number - 1)]> deps)
    ∅ (sorted_numbers steps).

(** The keys of that dictionary in insertion order. *)
Definition dependency_order (steps : list pyval) : list Z := remove_dups (sorted_numbers steps).

Section walk.
  Variable dependencies : gmap Z (list Z).

  (** The [for dependency in ...] loop of [walk], for the recursive call [rec]. *)
Fixpoint walk_each (rec : Z -> gset Z -> gmap Z (gset Z) -> option (gset Z * gmap Z (gset Z)))
      (number : Z) (seen : gset Z) (ds : list Z) (collected : gset Z) (resolved : gmap Z (gset Z))
      : option (gset Z * gmap Z (gset Z)) :=
    match ds with
    | [] => Some (collected, resolved)
    | d :: ds =>
        if bool_decide (d ∈ seen) then walk_each rec number seen ds collected resolved
        else match rec d (seen ∪ {[number]}) resolved with
             | Some (sub, resolved) =>
                 walk_each rec number seen ds (collected ∪ {[d]} ∪ sub) resolved
             | None => None
             end
    end.

  (** [walk(number, seen)] with the memo table [resolved] threaded through;
      [None] only when the fuel runs out. *)
Fixpoint walk (fuel : nat) (number : Z) (seen : gset Z) (resolved : gmap Z (gset Z))
      : option (gset Z * gmap Z (gset Z)) :=
    match fuel with
    | O => None
    | S fuel =>
        match resolved !! number with
        | Some cached => Some (cached, resolved)
        | None =>
            match walk_each (walk fuel) number seen (default [] (dependencies !! number)) ∅ resolved with
            | Some (collected, resolved) => Some (collected, <[number := collected]> resolved)
            | None => None
            end
        end
    end.

  (** The comprehension over [dependencies], sharing one memo table. *)
Fixpoint walk_all (fuel : nat) (order : list Z) (out : gmap Z (list Z))
      (resolved : gmap Z (gset Z)) : option (gmap Z (list Z)) :=
    match order with
    | [] => Some out
    | number :: order =>
        match walk fuel number ∅ resolved with
        | Some (collected, resolved) =>
            walk_all fuel order (<[number := merge_sort Z.le (elements collected)]> out) resolved
        | None => None
        end
    end.
End walk.

Definition walk_fuel (dependencies : gmap Z (list Z)) : nat := 2 * size dependencies + 2.

Definition derive_step_ancestors (steps : list pyval) : option (gmap Z (list Z)) :=
  let dependencies := derive_step_dependencies steps in
  walk_all dependencies (walk_fuel dependencies) (dependency_order steps) ∅ ∅.

Definition dependencies_for (dependencies : gmap Z (list Z)) (step : Z) : list Z :=
  match dependencies !! step with
  | Some known => known
  | None => if (1 <? step)%Z then [(step - 1)%Z] else []
  end.

(** [list(range(a, b))] *)
Definition range (a b : Z) : list Z := (fun i => a + Z.of_nat i)%Z <$> seq 0 (Z.to_nat (b - a)).

Definition ancestors_for (ancestors : gmap Z (list Z)) (step : Z) : list Z :=
  match ancestors !! step with
  | Some known => known
  | None => range 1 (Z.max step 1)
  end.

(** The guard of the single wave: the step is held when an ancestor of it is
    incomplete. *)
Definition held_for_inputs (incomplete_steps : gset Z) (step_ancestors : gmap Z (list Z))
    (step_number : Z) : bool :=
  existsb (fun a => bool_decide (a ∈ incomplete_steps)) (ancestors_for step_ancestors step_number).

(** ** The direct edges *)

Definition depends (deps : gmap Z (list Z)) (n d : Z) : Prop := d ∈ default [] (deps !! n).

Lemma group_members_fold steps :
  let acc := foldl group_members_step (∅, ∅) steps in
  (forall d g, acc.1 !! d = Some g ->
     exists s, s ∈ steps /\ step_number s = Some d /\ group_of s = Some g) /\
  (forall d g, d ∈ default [] (acc.2 !! g) <->
     exists s, s ∈ steps /\ step_number s = Some d /\ group_of s = Some g) /\
  (forall d, is_Some (acc.1 !! d) <-> exists g s, s ∈ steps /\ step_number s = Some d /\ group_of s = Some g).
Proof.
  induction steps as [|s steps (IH1 & IH2 & IH3)] using rev_ind.
  { cbn. setoid_rewrite lookup_empty. split_and!; [done|..].
    - intros d g. cbn. split; [by intros ?%not_elem_of_nil|]. by intros (? & ?%not_elem_of_nil & _).
    - intros d. split; [by intros []|]. by intros (? & ? & ?%not_elem_of_nil & _). }
  rewrite foldl_snoc. cbn zeta in *. set (acc := foldl group_members_step _ steps) in *.
  assert (Hskip : (step_number s = None \/ group_of s = None) -> group_members_step acc s = acc).
  { destruct acc as [a b]. cbn. by intros [-> | ->]; [|destruct (step_number s)]. }
  assert (Hnone : (step_number s = None \/ group_of s = None) -> forall d g,
     (exists s', s' ∈ steps ++ [s] /\ step_number s' = Some d /\ group_of s' = Some g) <->
     (exists s', s' ∈ steps /\ step_number s' = Some d /\ group_of s' = Some g)).
  { intros Hs d g. setoid_rewrite elem_of_app. setoid_rewrite list_elem_of_singleton. naive_solver. }
  destruct (step_number s) as [n|] eqn:Hn; [destruct (group_of s) as [g0|] eqn:Hg|].
  - clear Hskip Hnone. destruct acc as [a b]. unfold group_members_step. rewrite Hn, Hg. cbn in *.
    setoid_rewrite elem_of_app. setoid_rewrite list_elem_of_singleton.
    split_and!.
    + intros d g. rewrite lookup_insert. case_decide; naive_solver.
    + intros d g. rewrite lookup_insert. case_decide as Hd.
      * subst. cbn. rewrite elem_of_app, list_elem_of_singleton, IH2. naive_solver.
      * rewrite IH2. naive_solver.
    + intros d. rewrite lookup_insert. case_decide as Hd; [|rewrite IH3]; naive_solver.
  - rewrite Hskip by auto. setoid_rewrite (Hnone ltac:(auto)). auto.
  - rewrite Hskip by auto. setoid_rewrite (Hnone ltac:(auto)). auto.
Qed.

Section group_facts.
  Variable steps : list pyval.
Let gm := group_members steps.

Lemma elem_of_members d g :
    d ∈ members_of gm.2 g <-> exists s, s ∈ steps /\ step_number s = Some d /\ group_of s = Some g.
  Proof.
    unfold gm, group_members, members_of. destruct (group_members_fold steps) as (_ & H & _).
    destruct (foldl _ _ steps) as [a b]. cbn in *. rewrite <- H, lookup_fmap.
    destruct (b !! g) as [l|]; cbn; [|done]. by rewrite merge_sort_Permutation.
  Qed.

Lemma group_by_step_members d g : gm.1 !! d = Some g -> d ∈ members_of gm.2 g.
  Proof.
    rewrite elem_of_members. unfold gm, group_members.
    destruct (group_members_fold steps) as (H & _ & _).
    destruct (foldl _ _ steps) as [a b]. cbn in *. apply H.
  Qed.

Lemma group_by_step_is_Some d :
    is_Some (gm.1 !! d) <-> exists g s, s ∈ steps /\ step_number s = Some d /\ group_of s = Some g.
  Proof.
    unfold gm, group_members. destruct (group_members_fold steps) as (_ & _ & H).
    destruct (foldl _ _ steps) as [a b]. cbn in *. apply H.
  Qed.

  (** With distinct step numbers every member of a group knows its group. *)
Lemma members_group_by_step d g :
    NoDup (step_numbers steps) -> d ∈ members_of gm.2 g -> gm.1 !! d = Some g.
  Proof.
    intros Hnd (s & Hs & Hd & Hg)%elem_of_members.
    destruct (proj2 (group_by_step_is_Some d)) as [g' Hg']; [eauto|]. rewrite Hg'. f_equal.
    apply group_by_step_members, elem_of_members in Hg' as (s' & Hs' & Hd' & Hg').
    assert (s' = s) as ->; [|congruence].
    clear Hg Hg' gm. revert Hnd Hs Hs'. induction steps as [|x l IH]; [by intros _ ?%not_elem_of_nil|].
    unfold step_numbers; cbn. rewrite !elem_of_cons. intros Hnd Hs Hs'.
    assert (Hin : forall y, y ∈ l -> step_number y = Some d -> d ∈ omap step_number l).
    { intros y Hy Hyd. apply list_elem_of_omap. eauto. }
    destruct (step_number x) as [n|] eqn:Hx.
    - apply NoDup_cons in Hnd as [Hnin Hnd].
      destruct Hs as [-> |Hs], Hs' as [->|Hs']; simplify_eq; try done; try by destruct Hnin; eauto.
      by apply IH.
    - destruct Hs as [-> |Hs], Hs' as [->|Hs']; simplify_eq; try done. by apply IH.
  Qed.

Lemma anchor_le d : (anchor gm.1 gm.2 d <= d)%Z.
  Proof.
    unfold anchor. destruct (gm.1 !! d) as [g|] eqn:Hd; [|lia].
    apply group_by_step_members in Hd. destruct (members_of gm.2 g) as [|m ms]; [lia|].
    destruct (list_minZ_le m ms) as [H1 H2]. rewrite Forall_forall in H2.
    apply elem_of_cons in Hd as [->|Hd]; [done|]. by apply H2.
  Qed.

Lemma anchor_min d g x :
    gm.1 !! d = Some g -> x ∈ members_of gm.2 g -> (anchor gm.1 gm.2 d <= x)%Z.
  Proof.
    unfold anchor. intros -> Hx. destruct (members_of gm.2 g) as [|m ms]; [by apply not_elem_of_nil in Hx|].
    destruct (list_minZ_le m ms) as [H1 H2]. rewrite Forall_forall in H2.
    apply elem_of_cons in Hx as [-> |Hx]; [done|]. by apply H2.
  Qed.

  (** The edge set strictly decreases the anchor: this is why the derivation
      has no cycle. *)
Lemma closing_set_anchor b d :
    NoDup (step_numbers steps) ->
    d ∈ closing_set gm.1 gm.2 b -> (anchor gm.1 gm.2 d <= b)%Z /\ (1 <= b)%Z.
  Proof.
    intros Hnd. unfold closing_set. destruct (Z.ltb_spec b 1); [by intros ?%not_elem_of_nil|].
    destruct (gm.1 !! b) as [g|] eqn:Hb.
    - intros Hd. split; [|done]. eapply anchor_min; [by apply members_group_by_step|].
      by apply group_by_step_members.
    - intros ->%list_elem_of_singleton. split; [|done]. unfold anchor. by rewrite Hb.
  Qed.
End group_facts.

Lemma derive_deps_lookup steps n :
  derive_step_dependencies steps !! n =
    let gm := group_members steps in
    if decide (n ∈ step_numbers steps)
    then Some (closing_set gm.1 gm.2 (anchor gm.1 gm.2 n - 1)) else None.
Proof.
  unfold derive_step_dependencies. destruct (group_members steps) as [a b]. cbn zeta. cbn [fst snd].
  set (f := fun number => closing_set a b (anchor a b number - 1)).
  assert (H : forall l, foldl (fun deps number => <[number := f number]> deps) (∅ : gmap Z (list Z)) l !! n
                   = if decide (n ∈ l) then Some (f n) else None).
  { induction l as [|x l IH] using rev_ind; [done|].
    rewrite foldl_snoc, lookup_insert, IH.
    assert (Hl : n ∈ l ++ [x] <-> n ∈ l \/ n = x) by (rewrite elem_of_app, list_elem_of_singleton; done).
    destruct (decide (x = n)), (decide (n ∈ l)), (decide (n ∈ l ++ [x])); naive_solver. }
  unfold f in H. rewrite H. unfold sorted_numbers.
  destruct (decide (n ∈ merge_sort _ _)) as [Hi|Hi]; rewrite merge_sort_Permutation in Hi;
    destruct (decide _); done.
Qed.

Lemma depends_spec steps n d :
  depends (derive_step_dependencies steps) n d <->
    let gm := group_members steps in
    n ∈ step_numbers steps /\ d ∈ closing_set gm.1 gm.2 (anchor gm.1 gm.2 n - 1).
Proof.
  unfold depends. rewrite derive_deps_lookup. cbn zeta. case_decide; cbn; [naive_solver|].
  split; [by intros ?%not_elem_of_nil|naive_solver].
Qed.

Lemma depends_anchor steps n d :
  NoDup (step_numbers steps) ->
  depends (derive_step_dependencies steps) n d ->
  let gm := group_members steps in (anchor gm.1 gm.2 d < anchor gm.1 gm.2 n)%Z.
Proof.
  intros Hnd (_ & Hd)%depends_spec. apply closing_set_anchor in Hd; [|done]. cbn. lia.
Qed.

Lemma tc_depends_anchor steps n d :
  NoDup (step_numbers steps) ->
  tc (depends (derive_step_dependencies steps)) n d ->
  let gm := group_members steps in (anchor gm.1 gm.2 d < anchor gm.1 gm.2 n)%Z.
Proof.
  intros Hnd. cbn. induction 1 as [x y H|x y z H _ IH].
  - by apply depends_anchor in H.
  - apply depends_anchor in H; [|done]. cbn in H. lia.
Qed.

(** ** Termination of the traversal *)

Section walk_total.
  Variable deps : gmap Z (list Z).

Definition walk_measure (number : Z) (seen : gset Z) : nat :=
    2 * size (dom deps ∖ seen) + (if bool_decide (number ∈ seen) then 1 else 0).

Lemma walk_measure_decreases n d seen :
    n ∈ dom deps -> d ∉ seen -> walk_measure d (seen ∪ {[n]}) < walk_measure n seen.
  Proof.
    intros Hn Hd. unfold walk_measure. destruct (decide (n ∈ seen)) as [Hs|Hs].
    - replace (seen ∪ {[n]}) with seen by set_solver.
      rewrite (bool_decide_eq_false_2 (d ∈ seen)), (bool_decide_eq_true_2 (n ∈ seen)) by done. lia.
    - rewrite (bool_decide_eq_false_2 (n ∈ seen)) by done.
      assert (Hsz : size (dom deps ∖ seen) = S (size (dom deps ∖ (seen ∪ {[n]})))).
      { replace (dom deps ∖ seen) with ({[n]} ∪ dom deps ∖ (seen ∪ {[n]})).
        - rewrite size_union, size_singleton by set_solver. done.
        - apply set_eq. intros x. destruct (decide (x = n)); set_solver. }
      rewrite Hsz. destruct (bool_decide _); lia.
  Qed.

Lemma walk_is_Some fuel n seen resolved :
    walk_measure n seen < fuel -> is_Some (walk deps fuel n seen resolved).
  Proof.
    revert n seen resolved. induction fuel as [|fuel IH]; intros n seen resolved Hm; [lia|]. cbn.
    destruct (resolved !! n); [by eexists|].
    assert (Hds : forall d, d ∈ default [] (deps !! n) -> n ∈ dom deps).
    { intros d Hd. apply elem_of_dom. destruct (deps !! n); [by eexists|]. by apply not_elem_of_nil in Hd. }
    generalize (∅ : gset Z) as coll. revert resolved Hds.
    induction (default [] (deps !! n)) as [|d ds IHds]; intros resolved Hds coll; cbn; [by eexists|].
    assert (Hn : n ∈ dom deps) by (apply (Hds d); by left).
    assert (Hds' : forall d, d ∈ ds -> n ∈ dom deps) by done.
    case_bool_decide as Hd; [by apply IHds|].
    destruct (IH d (seen ∪ {[n]}) resolved) as [[sub r] Hr].
    { pose proof (walk_measure_decreases n d seen Hn Hd). lia. }
    rewrite Hr. by apply IHds.
  Qed.
End walk_total.

Lemma walk_all_is_Some deps order out resolved :
  is_Some (walk_all deps (walk_fuel deps) order out resolved).
Proof.
  revert out resolved; induction order as [|n order IH]; intros out resolved; cbn [walk_all]; [by eexists|].
  destruct (walk_is_Some deps (walk_fuel deps) n ∅ resolved) as [[c r] Hr].
  { unfold walk_measure, walk_fuel. rewrite bool_decide_eq_false_2 by set_solver.
    replace (dom deps ∖ ∅) with (dom deps) by set_solver. rewrite size_dom. lia. }
  rewrite Hr. apply IH.
Qed.

(** ** The traversal computes the transitive closure *)

Section walk_closure.
  Variable deps : gmap Z (list Z).
Let R := depends deps.
  Hypothesis acyclic : forall x, ~ tc R x x.

Definition closed (resolved : gmap Z (gset Z)) : Prop :=
    forall k c, resolved !! k = Some c -> forall d, d ∈ c <-> tc R k d.

Lemma tc_step n x : tc R n x <-> exists d, R n d /\ (x = d \/ tc R d x).
  Proof.
    split.
    - inversion 1; subst; eauto.
    - intros (d & Hd & [-> |Hx]); [by apply tc_once|]. by eapply tc_l.
  Qed.

Lemma walk_each_closure rec n seen ds coll res out res' :
    (forall d s r c r', closed r -> (forall x, x ∈ s -> tc R x d) -> rec d s r = Some (c, r') ->
       closed r' /\ forall x, x ∈ c <-> tc R d x) ->
    (forall d, d ∈ ds -> R n d) -> (forall x, x ∈ seen -> tc R x n) -> closed res ->
    walk_each rec n seen ds coll res = Some (out, res') ->
    closed res' /\ forall x, x ∈ out <-> x ∈ coll \/ exists d, d ∈ ds /\ (x = d \/ tc R d x).
  Proof.
    intros Hrec. revert coll res. induction ds as [|d ds IH]; intros coll res Hds Hseen Hres; cbn.
    { intros [= <- <-]. split; [done|]. intros x. split; [by left|]. by intros [|(? & ?%not_elem_of_nil & _)]. }
    assert (Hnd : R n d) by (apply Hds; by left).
    case_bool_decide as Hd.
    { exfalso. apply (acyclic d). eapply tc_r; eauto. }
    destruct (rec d (seen ∪ {[n]}) res) as [[sub r]|] eqn:Hr; [|done]. intros Hw.
    apply Hrec in Hr as [Hr Hsub]; [|done|].
    2:{ intros x [Hx | ->%elem_of_singleton]%elem_of_union; [by eapply tc_r; eauto|by apply tc_once]. }
    apply IH in Hw as [Hw Hout]; [|by intros y Hy; apply Hds; right|done|done].
    split; [done|]. intros x. rewrite Hout, !elem_of_union, elem_of_singleton, Hsub.
    setoid_rewrite elem_of_cons. split.
    - intros [[[? | ->]|?]|(d' & ? & ?)]; eauto 8.
    - intros [?|(d' & [-> | ?] & [-> | ?])]; eauto 8.
  Qed.

Lemma walk_closure fuel n seen res c res' :
    closed res -> (forall x, x ∈ seen -> tc R x n) ->
    walk deps fuel n seen res = Some (c, res') ->
    closed res' /\ forall x, x ∈ c <-> tc R n x.
  Proof.
    revert n seen res c res'. induction fuel as [|fuel IH]; intros n seen res c res' Hres Hseen; [done|].
    cbn. destruct (res !! n) as [cached|] eqn:Hn.
    { intros [= <- <-]. split; [done|]. by apply Hres. }
    destruct (walk_each _ _ _ _ _ _) as [[out r]|] eqn:Hw; [|done]. intros [= <- <-].
    apply walk_each_closure in Hw as [Hr Hout]; [|by eauto|done|done|done].
    assert (Hc : forall x, x ∈ out <-> tc R n x).
    { intros x. rewrite Hout, tc_step. set_solver. }
    split; [|done]. intros k c. rewrite lookup_insert. case_decide; [|apply Hr]. by intros [= <-]; subst.
  Qed.

Lemma walk_all_closure fuel order out res m :
    closed res -> walk_all deps fuel order out res = Some m ->
    forall n, (n ∈ order -> exists l, m !! n = Some l /\ Sorted Z.le l /\ NoDup l /\
                             forall d, d ∈ l <-> tc R n d) /\
              (n ∉ order -> m !! n = out !! n).
  Proof.
    revert out res; induction order as [|k order IH]; intros out res Hres; cbn.
    { intros [= <-] n. split; [by intros ?%not_elem_of_nil|done]. }
    destruct (walk deps fuel k ∅ res) as [[c r]|] eqn:Hw; [|done]. intros Hm n.
    apply walk_closure in Hw as [Hr Hc]; [|done|by intros x ?%not_elem_of_empty].
    destruct (IH _ _ Hr Hm n) as [IH1 IH2]. rewrite elem_of_cons. split.
    - intros Hn. destruct (decide (n ∈ order)) as [|Hno]; [by apply IH1|].
      destruct Hn as [->|]; [|done]. rewrite IH2, lookup_insert_eq by done.
      eexists; split_and!; [done|apply Sorted_merge_sort; intros ??; lia| |].
      + rewrite merge_sort_Permutation. apply NoDup_elements.
      + intros d. by rewrite merge_sort_Permutation, elem_of_elements.
    - intros [Hne Hno]%Decidable.not_or. rewrite IH2 by done. by rewrite lookup_insert_ne.
  Qed.
End walk_closure.

Lemma depends_acyclic steps x :
  NoDup (step_numbers steps) -> ~ tc (depends (derive_step_dependencies steps)) x x.
Proof. intros Hnd H. apply tc_depends_anchor in H; [|done]. cbn in H. lia. Qed.

Lemma elem_of_dependency_order steps n : n ∈ dependency_order steps <-> n ∈ step_numbers steps.
Proof.
  unfold dependency_order, sorted_numbers. by rewrite elem_of_remove_dups, merge_sort_Permutation.
Qed.

Lemma derive_step_ancestors_lookup steps anc :
  NoDup (step_numbers steps) -> derive_step_ancestors steps = Some anc ->
  forall n, (n ∈ step_numbers steps -> exists l, anc !! n = Some l /\ Sorted Z.le l /\ NoDup l /\
               forall d, d ∈ l <-> tc (depends (derive_step_dependencies steps)) n d) /\
            (n ∉ step_numbers steps -> anc !! n = None).
Proof.
  intros Hnd H n. unfold derive_step_ancestors in H.
  destruct (walk_all_closure _ (fun x => depends_acyclic steps x Hnd) _ _ _ ∅ _
              (fun k c Hk => ltac:(by rewrite lookup_empty in Hk)) H n) as [H1 H2].
  rewrite <- elem_of_dependency_order. split; [done|]. intros Hn. rewrite H2 by done. apply lookup_empty.
Qed.

(** ** Properties *)

(** On every sequence of step records, malformed ones
    included, [derive_step_ancestors] returns: its recursion never runs out of
    the fuel [2 * |dependencies| + 2], whatever the edges are. *)
Lemma derive_step_ancestors_terminates steps :
  exists ancestors, derive_step_ancestors steps = Some ancestors.
Proof. apply walk_all_is_Some. Qed.

(** C38: when no two steps share a number, the derived relation has no cycle and
    the ancestors of a described step are exactly the transitive closure of the
    direct dependencies, listed in ascending order without repetition and
    never containing the step itself. *)
Theorem derive_step_ancestors_closure steps ancestors n :
  NoDup (step_numbers steps) ->
  derive_step_ancestors steps = Some ancestors ->
  n ∈ step_numbers steps ->
  exists l, ancestors !! n = Some l /\ Sorted Z.le l /\ NoDup l /\ n ∉ l /\
    forall d, d ∈ l <-> tc (depends (derive_step_dependencies steps)) n d.
Proof.
  intros Hnd H Hn. destruct (derive_step_ancestors_lookup _ _ Hnd H n) as [(l & Hl & Hs & Hd & Hm)%(fun f => f Hn) _].
  exists l. split_and!; [done..| |done]. rewrite Hm. by apply depends_acyclic.
Qed.

Lemma range_elem a b x : x ∈ range a b <-> (a <= x < b)%Z.
Proof.
  unfold range. rewrite list_elem_of_fmap. setoid_rewrite elem_of_seq. split.
  - intros (i & -> & Hi). lia.
  - intros Hx. exists (Z.to_nat (x - a)). lia.
Qed.

Lemma range_NoDup a b : NoDup (range a b).
Proof. unfold range. apply NoDup_fmap_2; [intros ???; lia|apply NoDup_seq]. Qed.

(** A plan numbered [1..N] without review groups. *)
Definition linear_plan (steps : list pyval) (N : Z) : Prop :=
  step_numbers steps ≡ₚ range 1 (N + 1) /\ forall s, s ∈ steps -> group_of s = None.

Lemma linear_depends steps N n d :
  linear_plan steps N ->
  depends (derive_step_dependencies steps) n d <-> (1 <= d < n)%Z /\ (d = n - 1)%Z /\ (n <= N)%Z.
Proof.
  intros [Hp Hg]. rewrite depends_spec. cbn. rewrite Hp, range_elem.
  assert (Hnone : forall x, (group_members steps).1 !! x = None).
  { intros x. apply eq_None_not_Some. intros (g & s & Hs & _ & Hgs)%group_by_step_is_Some.
    by rewrite Hg in Hgs. }
  unfold anchor, closing_set. rewrite !Hnone.
  destruct (Z.ltb_spec (n - 1) 1); [|rewrite list_elem_of_singleton; lia].
  split; [by intros [_ ?%not_elem_of_nil]|lia].
Qed.

Lemma linear_tc steps N n d :
  linear_plan steps N ->
  tc (depends (derive_step_dependencies steps)) n d <-> (1 <= d < n)%Z /\ (n <= N)%Z.
Proof.
  intros HN. split.
  - induction 1 as [x y H|x y z H _ IH]; apply (linear_depends _ N) in H; lia || done.
  - intros [[Hd Hn] HnN]. remember (Z.to_nat (n - d)) as k eqn:Hk.
    revert n Hn HnN Hk. induction k as [|k IH]; intros n Hn HnN Hk; [lia|].
    assert (Hs : depends (derive_step_dependencies steps) n (n - 1)) by (apply (linear_depends _ N); [done|lia]).
    destruct (decide (d = n - 1)%Z) as [->|Hne]; [by apply tc_once|].
    eapply tc_l; [exact Hs|]. apply IH; lia.
Qed.

(** C39 (equivalence with the previous guard): on a plan numbered [1..N] with no
    review group, an incomplete step passes the wave guard exactly when it is
    the earliest incomplete step, the steps the plan does not describe
    included. *)
Theorem linear_guard_is_earliest steps N ancestors incomplete s :
  linear_plan steps N ->
  derive_step_ancestors steps = Some ancestors ->
  (forall x, x ∈ incomplete -> 1 <= x)%Z -> s ∈ incomplete ->
  held_for_inputs incomplete ancestors s = false <-> (forall x, x ∈ incomplete -> s <= x)%Z.
Proof.
  intros HN H Hpos Hs. pose proof (Hpos s Hs) as Hs1.
  assert (Hnd : NoDup (step_numbers steps)) by (destruct HN as [-> _]; apply range_NoDup).
  unfold held_for_inputs. rewrite existsb_elem_false.
  assert (Ha : forall a, a ∈ ancestors_for ancestors s <-> (1 <= a < s)%Z).
  { intros a. unfold ancestors_for.
    destruct (derive_step_ancestors_lookup _ _ Hnd H s) as [H1 H2].
    destruct (decide (s ∈ step_numbers steps)) as [Hin|Hin].
    - destruct (H1 Hin) as (l & -> & _ & _ & ->). rewrite (linear_tc _ N) by done.
      destruct HN as [Hp _]. rewrite Hp, range_elem in Hin. lia.
    - rewrite (H2 Hin), range_elem. lia. }
  setoid_rewrite Ha. setoid_rewrite bool_decide_eq_false. split.
  - intros Hh x Hx. pose proof (Hpos x Hx). destruct (decide (s <= x)%Z); [done|]. destruct (Hh x); [lia|done].
  - intros Hm a Ha1 Hai. specialize (Hm a Hai). lia.
Qed.

(** A described step passes the guard exactly
    when no step it depends on, directly or not, is incomplete. *)
Lemma guard_waits_for_all_inputs steps ancestors incomplete n :
  NoDup (step_numbers steps) ->
  derive_step_ancestors steps = Some ancestors ->
  n ∈ step_numbers steps ->
  held_for_inputs incomplete ancestors n = false <->
    (forall d, tc (depends (derive_step_dependencies steps)) n d -> d ∉ incomplete).
Proof.
  intros Hnd H Hn. destruct (derive_step_ancestors_lookup _ _ Hnd H n) as [H1 _].
  destruct (H1 Hn) as (l & Hl & _ & _ & Hm). unfold held_for_inputs, ancestors_for. rewrite Hl.
  rewrite existsb_elem_false. setoid_rewrite bool_decide_eq_false. by setoid_rewrite Hm.
Qed.

Lemma group_same_anchor steps a b g :
  NoDup (step_numbers steps) ->
  a ∈ members_of (group_members steps).2 g -> b ∈ members_of (group_members steps).2 g ->
  anchor (group_members steps).1 (group_members steps).2 a =
  anchor (group_members steps).1 (group_members steps).2 b.
Proof.
  intros Hnd Ha Hb. unfold anchor.
  rewrite (members_group_by_step _ _ _ Hnd Ha), (members_group_by_step _ _ _ Hnd Hb).
  destruct (members_of _ g); [by apply not_elem_of_nil in Ha|done].
Qed.

Lemma member_described steps a g : a ∈ members_of (group_members steps).2 g -> a ∈ step_numbers steps.
Proof.
  intros (s & Hs & Hn & _)%elem_of_members. unfold step_numbers. apply list_elem_of_omap. eauto.
Qed.

Lemma group_same_depends steps a b g :
  NoDup (step_numbers steps) ->
  a ∈ members_of (group_members steps).2 g -> b ∈ members_of (group_members steps).2 g ->
  forall d, depends (derive_step_dependencies steps) a d <-> depends (derive_step_dependencies steps) b d.
Proof.
  intros Hnd Ha Hb d. rewrite !depends_spec. cbn zeta. rewrite (group_same_anchor _ _ _ _ Hnd Ha Hb).
  pose proof (member_described _ _ _ Ha). pose proof (member_described _ _ _ Hb). tauto.
Qed.

(** The members of one review group have the same
    ancestors, none of which is a member of the group, so they pass the wave
    guard together; and a step that follows a group is held while any member
    of that group is incomplete. *)
Lemma review_group_fanout steps ancestors incomplete g a b :
  NoDup (step_numbers steps) ->
  derive_step_ancestors steps = Some ancestors ->
  a ∈ members_of (group_members steps).2 g -> b ∈ members_of (group_members steps).2 g ->
  ancestors !! a = ancestors !! b /\
  b ∉ ancestors_for ancestors a /\
  held_for_inputs incomplete ancestors a = held_for_inputs incomplete ancestors b /\
  (forall n, n ∈ step_numbers steps -> (group_members steps).1 !! n = None ->
     (n - 1)%Z ∈ members_of (group_members steps).2 g -> (1 < n)%Z ->
     a ∈ incomplete -> held_for_inputs incomplete ancestors n = true).
Proof.
  intros Hnd H Ha Hb.
  destruct (derive_step_ancestors_lookup _ _ Hnd H a) as [(la & Hla & Hsa & Hda & Hma)%(fun f => f (member_described _ _ _ Ha)) _].
  destruct (derive_step_ancestors_lookup _ _ Hnd H b) as [(lb & Hlb & Hsb & Hdb & Hmb)%(fun f => f (member_described _ _ _ Hb)) _].
  assert (Heq : la = lb).
  { apply (Sorted_unique Z.le); [done..|]. apply NoDup_Permutation; [done..|]. intros d.
    rewrite Hma, Hmb, !tc_step. by setoid_rewrite (group_same_depends _ _ _ _ Hnd Ha Hb). }
  subst lb. split_and!; [by rewrite Hla, Hlb| | |].
  - unfold ancestors_for. rewrite Hla, Hmb. by apply depends_acyclic.
  - unfold held_for_inputs, ancestors_for. by rewrite Hla, Hlb.
  - intros n Hn Hng Hprev Hn1 Hinc. apply not_false_iff_true.
    rewrite (guard_waits_for_all_inputs _ _ _ _ Hnd H Hn). intros Hall. apply (Hall a); [|done].
    apply tc_once, depends_spec. cbn zeta. split; [done|]. replace (anchor _ _ n) with n by (unfold anchor; by rewrite Hng). unfold closing_set.
    destruct (Z.ltb_spec (n - 1) 1); [lia|]. by rewrite (members_group_by_step _ _ _ Hnd Hprev).
Qed.

(** ** Witnesses and boundary cases *)

Definition plan_step (n : Z) (group : option Z) : pyval :=
  PDict (("step", PInt n) :: match group with Some g => [("review_group", PInt g)] | None => [] end).

(** Implement, two reviewers in parallel, a follow-up step. *)
Definition fan_plan : list pyval :=
  [plan_step 1 None; plan_step 2 (Some 1%Z); plan_step 3 (Some 1%Z); plan_step 4 None].
Definition fan_ancestors : gmap Z (list Z) := default ∅ (derive_step_ancestors fan_plan).
Definition line_plan : list pyval := [plan_step 1 None; plan_step 2 None; plan_step 3 None].
Definition line_ancestors : gmap Z (list Z) := default ∅ (derive_step_ancestors line_plan).

Example fan_ancestors_4 : fan_ancestors !! 4%Z = Some [1; 2; 3]%Z.
Proof. vm_compute. reflexivity. Qed.

Lemma derive_step_ancestors_closure_witness :
  exists l, fan_ancestors !! 4%Z = Some l /\ Sorted Z.le l /\ NoDup l /\ 4%Z ∉ l /\
    forall d, d ∈ l <-> tc (depends (derive_step_dependencies fan_plan)) 4%Z d.
Proof.
  apply (derive_step_ancestors_closure fan_plan fan_ancestors 4).
  - apply (bool_decide_eq_true_1 _). vm_compute. reflexivity.
  - vm_compute. reflexivity.
  - apply (bool_decide_eq_true_1 _). vm_compute. reflexivity.
Defined.

Lemma linear_guard_is_earliest_witness :
  held_for_inputs {[2; 3]}%Z line_ancestors 2 = false <-> (forall x, x ∈ ({[2; 3]}%Z : gset Z) -> 2 <= x)%Z.
Proof.
  apply (linear_guard_is_earliest line_plan 3).
  - split; [vm_compute; reflexivity|].
    intros s Hs. unfold line_plan in Hs.
    repeat (apply elem_of_cons in Hs as [-> | Hs]; [reflexivity|]). by apply not_elem_of_nil in Hs.
  - vm_compute. reflexivity.
  - intros x Hx. apply elem_of_union in Hx as [->%elem_of_singleton | ->%elem_of_singleton]; lia.
  - set_solver.
Defined.

Lemma guard_waits_for_all_inputs_witness :
  held_for_inputs {[3]}%Z fan_ancestors 2 = false <->
    (forall d, tc (depends (derive_step_dependencies fan_plan)) 2%Z d -> d ∉ ({[3]}%Z : gset Z)).
Proof.
  apply (guard_waits_for_all_inputs fan_plan).
  - apply (bool_decide_eq_true_1 _). vm_compute. reflexivity.
  - vm_compute. reflexivity.
  - apply (bool_decide_eq_true_1 _). vm_compute. reflexivity.
Defined.

Lemma review_group_fanout_witness :
  fan_ancestors !! 2%Z = fan_ancestors !! 3%Z /\
  3%Z ∉ ancestors_for fan_ancestors 2 /\
  held_for_inputs {[3]}%Z fan_ancestors 2 = held_for_inputs {[3]}%Z fan_ancestors 3 /\
  (forall n, n ∈ step_numbers fan_plan -> (group_members fan_plan).1 !! n = None ->
     (n - 1)%Z ∈ members_of (group_members fan_plan).2 1 -> (1 < n)%Z ->
     2%Z ∈ ({[3]}%Z : gset Z) -> held_for_inputs {[3]}%Z fan_ancestors n = true).
Proof.
  apply (review_group_fanout fan_plan fan_ancestors {[3]}%Z 1 2 3).
  - apply (bool_decide_eq_true_1 _). vm_compute. reflexivity.
  - vm_compute. reflexivity.
  - apply (bool_decide_eq_true_1 _). vm_compute. reflexivity.
  - apply (bool_decide_eq_true_1 _). vm_compute. reflexivity.
Defined.

(** Without review groups but with a gap in the numbering (steps 1 and 3) the
    guard is weaker than "earliest incomplete step": step 3 only waits for the
    step numbered 2, which does not exist, and passes while step 1 is still
    incomplete. *)
Example gap_plan_passes_out_of_order :
  held_for_inputs {[1; 3]}%Z
    (default ∅ (derive_step_ancestors [plan_step 1 None; plan_step 3 None])) 3 = false.
Proof. vm_compute. reflexivity. Qed.

(** With a repeated step number the direct edges can form a cycle, which only
    the [seen] set of [walk] breaks. *)
Definition cyclic_plan : list pyval :=
  [plan_step 1 (Some 1%Z); plan_step 3 (Some 1%Z); plan_step 2 None; plan_step 3 (Some 2%Z)].

Example duplicate_numbers_cycle : tc (depends (derive_step_dependencies cyclic_plan)) 3%Z 3%Z.
Proof.
  apply (tc_l _ _ 2%Z); [|apply tc_once];
    unfold depends; apply (bool_decide_eq_true_1 _); vm_compute; reflexivity.
Qed.
