(* ===== verification/Autonomy.v ===== *)
(** * Autonomous approval selection and the run-loop gate ([autonomy.py]) *)
From S2P Require Import Prelude PyStr PyVal.

(** ** Definitions *)

(** One iteration of the selection loop: the lists built so far. *)
Definition select_step (allowed : list string) (max_approvals : Z)
    (acc : list dict * list dict) (approval : pyval) : result (list dict * list dict) :=
  let '(selected, skipped) := acc in
  match approval with
  | PDict a =>
      isin ← in_str_set (dget "agent_id" a) allowed;
      if negb isin then
        Ok (selected, skipped ++ [dset "reason" (PStr "agent not in allowlist") a])
      else if (max_approvals <=? Z.of_nat (length selected))%Z then
        Ok (selected, skipped ++ [dset "reason" (PStr "budget exhausted") a])
      else Ok (selected ++ [a], skipped)
  | _ => Ok acc
  end.

Definition select_auto_approvals (pending : list pyval) (allowed_agents : list string)
    (max_approvals : Z) : result (list dict * list dict) :=
  foldM (select_step allowed_agents max_approvals) ([], []) pending.

Definition run_loop_gate `{PyRepr} (review : dict) (has_error : bool) (plan_id : string)
    : string * string :=
  if has_error then ("error", "agentdeck plan status --plan-id " +:+ plan_id)
  else
    let next_action := dget "next_action" review in
    if py_eq next_action (PStr "dispatch_approved") then
      ("blocked", "agentdeck agent spawn --agent " +:+ py_str (dget "agent_id" review))
    else if py_eq next_action (PStr "wait_for_approval") then
      ("needs_human_approval", "agentdeck approval list")
    else if py_eq next_action (PStr "wait_for_reply") then
      ("waiting_for_reply",
       "agentdeck capture-reply --agent " +:+ py_str (dget "agent_id" review)
       +:+ " --message-id " +:+ py_str (dget "message_id" review))
    else if py_eq next_action (PStr "summarize") then
      ("complete", "agentdeck leader summary --plan-id " +:+ plan_id)
    else ("idle", "agentdeck run --plan-id " +:+ plan_id).

(** ** What the selection promises *)

(** The approval's agent is on the allowlist. *)
Definition allowlisted (allowed : list string) (a : dict) : bool :=
  match dget "agent_id" a with PStr s => in_strs s allowed | _ => false end.

(** The reference: the first [max_approvals] allowlisted records are approved;
    every other record is skipped, in order, with its reason. *)
Fixpoint label_skipped (allowed : list string) (budget : nat) (l : list dict) : list dict :=
  match l with
  | [] => []
  | a :: l =>
      if allowlisted allowed a then
        match budget with
        | O => dset "reason" (PStr "budget exhausted") a :: label_skipped allowed O l
        | S b => label_skipped allowed b l
        end
      else dset "reason" (PStr "agent not in allowlist") a :: label_skipped allowed budget l
  end.

Definition hashable_agents (pending : list pyval) : bool :=
  forallb (fun a => hashable (dget "agent_id" a)) (dicts_of pending).

Lemma in_str_set_allowlisted a allowed :
  hashable (dget "agent_id" a) = true ->
  in_str_set (dget "agent_id" a) allowed = Ok (allowlisted allowed a).
Proof. unfold in_str_set, allowlisted. by intros ->. Qed.

Lemma select_step_dict allowed max sel skip a :
  hashable (dget "agent_id" a) = true ->
  select_step allowed max (sel, skip) (PDict a) =
  Ok (if allowlisted allowed a then
        if (max <=? Z.of_nat (length sel))%Z
        then (sel, skip ++ [dset "reason" (PStr "budget exhausted") a]) else (sel ++ [a], skip)
      else (sel, skip ++ [dset "reason" (PStr "agent not in allowlist") a])).
Proof.
  intros H. cbn. rewrite in_str_set_allowlisted by done. cbn.
  destruct (allowlisted allowed a); cbn; [by destruct (_ <=? _)%Z|done].
Qed.

Lemma select_fold allowed max pending sel skip :
  hashable_agents pending = true ->
  foldM (select_step allowed max) (sel, skip) pending =
  Ok (sel ++ take (Z.to_nat max - length sel) (List.filter (allowlisted allowed) (dicts_of pending)),
      skip ++ label_skipped allowed (Z.to_nat max - length sel) (dicts_of pending)).
Proof.
  unfold hashable_agents. revert sel skip.
  induction pending as [|p pending IH]; intros sel skip; cbn [foldM].
  { intros _. unfold dicts_of; cbn. by rewrite take_nil, !app_nil_r. }
  rewrite dicts_of_cons. destruct p; try exact (IH sel skip). cbn [forallb].
  intros [Ha Hp]%andb_true_iff. rewrite select_step_dict by done.
  cbn [mbind result_bind List.filter label_skipped].
  destruct (allowlisted allowed d) eqn:Hd; [destruct (Z.leb_spec max (Z.of_nat (length sel)))|];
    rewrite (IH _ _ Hp).
  - replace (Z.to_nat max - length sel) with 0 by lia. cbn. by rewrite <- !app_assoc.
  - rewrite length_app. cbn [length].
    replace (Z.to_nat max - length sel) with (S (Z.to_nat max - (length sel + 1))) by lia.
    cbn. by rewrite <- !app_assoc.
  - by rewrite <- !app_assoc.
Qed.

Lemma select_fold_unhashable allowed max pending acc :
  hashable_agents pending = false ->
  foldM (select_step allowed max) acc pending = Err (TypeError "unhashable type").
Proof.
  unfold hashable_agents. revert acc.
  induction pending as [|p pending IH]; intros [sel skip]; cbn [foldM]; [done|].
  rewrite dicts_of_cons. destruct p; try exact (IH (sel, skip)). cbn [forallb].
  destruct (hashable (dget "agent_id" d)) eqn:Hd.
  - rewrite select_step_dict by done. by apply IH.
  - intros _. cbn. unfold in_str_set. by rewrite Hd.
Qed.

Lemma label_skipped_length allowed b l :
  length (take b (List.filter (allowlisted allowed) l)) + length (label_skipped allowed b l) = length l.
Proof.
  revert b; induction l as [|d l IH]; intros b; cbn; [by rewrite take_nil|].
  destruct (allowlisted allowed d); [destruct b as [|b]|]; cbn.
  - specialize (IH 0). rewrite take_0 in IH. cbn in IH. lia.
  - specialize (IH b). lia.
  - specialize (IH b). lia.
Qed.

(** The selection approves exactly the first [max_approvals] records of
    allowlisted agents in queue order (a negative budget approves nothing), so
    it never exceeds the budget; every other record is skipped, in order, with
    the reason the allowlist or the budget gives, and entries that are not
    objects are dropped.  It raises only when some record's agent identity is
    unhashable. *)
Lemma select_auto_approvals_spec pending allowed max :
  match select_auto_approvals pending allowed max with
  | Ok (selected, skipped) =>
      selected = take (Z.to_nat max) (List.filter (allowlisted allowed) (dicts_of pending)) /\
      skipped = label_skipped allowed (Z.to_nat max) (dicts_of pending) /\
      (Z.of_nat (length selected) <= Z.max 0 max)%Z /\
      Forall (fun a => exists s, dget "agent_id" a = PStr s /\ s ∈ allowed) selected /\
      length selected + length skipped = length (dicts_of pending)
  | Err e => e = TypeError "unhashable type" /\ hashable_agents pending = false
  end.
Proof.
  unfold select_auto_approvals. destruct (hashable_agents pending) eqn:Hh;
    [rewrite select_fold by done|by rewrite select_fold_unhashable].
  cbn [length app]. rewrite Nat.sub_0_r. split_and!; [done|done| | |apply label_skipped_length].
  - rewrite length_take. lia.
  - apply Forall_take, Forall_forall. intros a [_ Ha]%list_elem_of_In%filter_In.
    unfold allowlisted in Ha. destruct (dget "agent_id" a); try done.
    eexists; split; [done|]. by apply in_strs_spec.
Qed.
