(* ===== verification/ReviewVerdict.v ===== *)
(** * Review verdicts ([review_verdict.py])

    Validation, the reply-line parser and the alignment with the acceptance
    criteria.  [json.loads] is a parameter ([JsonLoads]): [None] stands for a
    [JSONDecodeError]. *)
From S2P Require Import Prelude PyStr PyVal.

(** ** Definitions *)

Class JsonLoads := json_loads : string -> option pyval.

Definition REVIEW_VERDICT_SCHEMA_VERSION : string := "review-verdict/v1".
Definition REVIEW_VERDICT_REQUIRED_FIELDS : list string := ["schema_version"; "criteria"; "overall"].
Definition REVIEW_VERDICT_OPTIONAL_FIELDS : list string := ["score"; "notes"].
Definition REVIEW_VERDICT_CRITERION_VERDICTS : list string := ["pass"; "fail"; "unknown"].
Definition REVIEW_VERDICT_OVERALL_VALUES : list string := ["pass"; "fail"; "needs_changes"].
Definition VERDICT_LINE_PREFIX : string := "verdict:".

Definition invalid_verdict : exn := ValueError "review verdict is invalid".

(** [type(v) is not str or not v.strip()] *)
Definition not_text (v : pyval) : bool :=
  match v with PStr s => String.eqb (strip s) "" | _ => true end.

(** The body of the loop over [payload["criteria"]]. *)
Definition check_criterion (item : pyval) : result unit :=
  match item with
  | PDict d =>
      _ ← raise_if (negb (has_keys ["criterion"; "verdict"] d)
                    || negb (only_keys ["criterion"; "verdict"; "evidence"] d)) invalid_verdict;
      _ ← raise_if (not_text (dget "criterion" d)) invalid_verdict;
      known ← in_str_set (dget "verdict" d) REVIEW_VERDICT_CRITERION_VERDICTS;
      _ ← raise_if (negb known) invalid_verdict;
      raise_if (dmem "evidence" d && not_text (dget "evidence" d)) invalid_verdict
  | _ => Err invalid_verdict
  end.

Definition score_invalid (v : pyval) : bool :=
  match exact_int v with Some score => (score <? 0)%Z || (100 <? score)%Z | None => true end.

Definition validate_review_verdict (payload : pyval) : result dict :=
  match payload with
  | PDict d =>
      _ ← raise_if (negb (has_keys REVIEW_VERDICT_REQUIRED_FIELDS d)
                    || negb (only_keys (REVIEW_VERDICT_REQUIRED_FIELDS ++ REVIEW_VERDICT_OPTIONAL_FIELDS) d))
            invalid_verdict;
      _ ← raise_if (negb (py_eq (dget "schema_version" d) (PStr REVIEW_VERDICT_SCHEMA_VERSION))) invalid_verdict;
      criteria ← match dget "criteria" d with
                 | PList (c :: cs) => Ok (c :: cs)
                 | _ => Err invalid_verdict
                 end;
      _ ← mapR check_criterion criteria;
      known ← in_str_set (dget "overall" d) REVIEW_VERDICT_OVERALL_VALUES;
      _ ← raise_if (negb known) invalid_verdict;
      _ ← raise_if (dmem "score" d && score_invalid (dget "score" d)) invalid_verdict;
      _ ← raise_if (dmem "notes" d && not_text (dget "notes" d)) invalid_verdict;
      Ok d
  | _ => Err invalid_verdict
  end.

(** The text after the prefix, for one line of a reply. *)
Definition verdict_of_line (line : string) : option string :=
  match drop_prefix VERDICT_LINE_PREFIX (strip line) with
  | Some rest => Some (strip rest)
  | None => None
  end.

Definition parse_verdict_line `{JsonLoads} (text : string) : result (option dict) :=
  match omap verdict_of_line (splitlines text) with
  | [] => Ok None
  | [l] =>
      match json_loads l with
      | Some payload => d ← validate_review_verdict payload; Ok (Some d)
      | None => Err invalid_verdict
      end
  | _ => Err invalid_verdict
  end.

Record aligned_verdict := AlignedVerdict {
  criteria_total : Z; passed : Z; failed : Z; unknown : Z;
  overall : pyval; score : pyval;
  unverified : list pyval; extra : list pyval
}.

(** The items of a validated verdict, and one field of each. *)
Definition criteria_items (d : dict) : list dict :=
  match dget "criteria" d with PList l => dicts_of l | _ => [] end.
Definition count_verdicts (v : string) (items : list dict) : Z :=
  Z.of_nat (length (List.filter (fun d => py_eq (dget "verdict" d) (PStr v)) items)).

Definition align_verdict_with_criteria (verdict : pyval) (acceptance_criteria : option (list pyval))
    : result aligned_verdict :=
  validated ← validate_review_verdict verdict;
  let criteria := criteria_items validated in
  let verdict_texts := dget "criterion" <$> criteria in
  let '(unverified, extra) :=
    match acceptance_criteria with
    | None => ([], [])
    | Some ac => (List.filter (fun c => negb (in_list c verdict_texts)) ac,
                  List.filter (fun c => negb (in_list c ac)) verdict_texts)
    end in
  Ok {| criteria_total := Z.of_nat (length criteria);
        passed := count_verdicts "pass" criteria;
        failed := count_verdicts "fail" criteria;
        unknown := count_verdicts "unknown" criteria;
        overall := dget "overall" validated;
        score := dget "score" validated;
        unverified := unverified; extra := extra |}.

(** ** The schema, declaratively *)

Definition is_text (v : pyval) : Prop := exists s, v = PStr s /\ strip s <> "".

Record criterion_schema (d : dict) : Prop := {
  cs_fields : forall k, k ∈ dkeys d -> k ∈ ["criterion"; "verdict"; "evidence"];
  cs_criterion : exists v, dlookup "criterion" d = Some v /\ is_text v;
  cs_verdict : exists s, dlookup "verdict" d = Some (PStr s) /\ s ∈ REVIEW_VERDICT_CRITERION_VERDICTS;
  cs_evidence : forall v, dlookup "evidence" d = Some v -> is_text v
}.

Record verdict_schema (d : dict) : Prop := {
  vs_fields : forall k, k ∈ dkeys d -> k ∈ REVIEW_VERDICT_REQUIRED_FIELDS ++ REVIEW_VERDICT_OPTIONAL_FIELDS;
  vs_version : dlookup "schema_version" d = Some (PStr REVIEW_VERDICT_SCHEMA_VERSION);
  vs_criteria : exists items, dlookup "criteria" d = Some (PList (PDict <$> items)) /\
                  items <> [] /\ Forall criterion_schema items;
  vs_overall : exists s, dlookup "overall" d = Some (PStr s) /\ s ∈ REVIEW_VERDICT_OVERALL_VALUES;
  vs_score : forall v, dlookup "score" d = Some v -> exists z, v = PInt z /\ (0 <= z <= 100)%Z;
  vs_notes : forall v, dlookup "notes" d = Some v -> is_text v
}.

(** ** Lemmas *)

Lemma not_text_spec v : not_text v = false <-> is_text v.
Proof.
  unfold is_text. destruct v; cbn; try (split; [done|naive_solver]).
  rewrite String.eqb_neq. naive_solver.
Qed.

Lemma in_str_set_Ok_true v l : in_str_set v l = Ok true <-> exists s, v = PStr s /\ s ∈ l.
Proof.
  unfold in_str_set. destruct v; cbn; try (split; [done|naive_solver]).
  - setoid_rewrite <- in_strs_spec. split; [intros [= H]; eauto|]. by intros (s' & [= ->] & ->).
  - destruct (forallb hashable l0); split; naive_solver.
Qed.

Lemma has_keys_spec ks d : has_keys ks d = true <-> Forall (fun k => is_Some (dlookup k d)) ks.
Proof.
  unfold has_keys. rewrite forallb_elem, Forall_forall. unfold dmem.
  split; intros H k Hk; specialize (H k Hk); destruct (dlookup k d); try done; by destruct H.
Qed.

Lemma only_keys_spec ks d : only_keys ks d = true <-> forall k, k ∈ dkeys d -> k ∈ ks.
Proof. unfold only_keys. rewrite forallb_elem. by setoid_rewrite in_strs_spec. Qed.

Lemma dget_lookup k d v : dlookup k d = Some v -> dget k d = v.
Proof. unfold dget. by intros ->. Qed.

Lemma dmem_guard k d (p : pyval -> bool) :
  dmem k d && p (dget k d) = false <-> forall v, dlookup k d = Some v -> p v = false.
Proof. unfold dmem, dget. destruct (dlookup k d); cbn; naive_solver. Qed.

Lemma check_criterion_spec item :
  check_criterion item = Ok tt <-> exists d, item = PDict d /\ criterion_schema d.
Proof.
  destruct item; try (split; [done|naive_solver]). cbn [check_criterion].
  repeat setoid_rewrite bind_Ok. repeat setoid_rewrite raise_if_Ok. split.
  - intros ([] & Hk & [] & Hc & known & Hv & [] & Hkn & He).
    apply orb_false_iff in Hk as [Hk1 Hk2]. apply negb_false_iff in Hk1, Hk2, Hkn. subst known.
    apply has_keys_spec in Hk1. rewrite !Forall_cons in Hk1. destruct Hk1 as ([c Hc'] & [v Hv'] & _).
    rewrite (dget_lookup _ _ _ Hc') in Hc. rewrite (dget_lookup _ _ _ Hv') in Hv.
    exists d. split; [done|]. split.
    + by apply only_keys_spec.
    + exists c. split; [done|]. by apply not_text_spec.
    + apply in_str_set_Ok_true in Hv as (s & -> & Hs). eauto.
    + intros x Hx. apply not_text_spec. by apply (proj1 (dmem_guard _ _ not_text) He).
  - intros (d' & [= ->] & [Hf (c & Hc & Hct) (s & Hs & Hsv) He]). exists tt. split.
    + apply orb_false_iff; split; apply negb_false_iff; [|by apply only_keys_spec].
      apply has_keys_spec. repeat constructor; eauto.
    + exists tt. split; [rewrite (dget_lookup _ _ _ Hc); by apply not_text_spec|]. exists true. split.
      * rewrite (dget_lookup _ _ _ Hs). apply in_str_set_Ok_true. eauto.
      * exists tt. split; [done|]. apply (dmem_guard _ _ not_text). intros v Hv. by apply not_text_spec, He.
Qed.

Lemma mapR_unit (f : pyval -> result unit) l :
  is_ok (mapR f l) = true <-> Forall (fun x => f x = Ok tt) l.
Proof.
  induction l as [|x l IH]; cbn; [by split; [constructor|]|]. rewrite Forall_cons, <- IH.
  destruct (f x) as [[]|]; cbn; [destruct (mapR f l); cbn|]; naive_solver.
Qed.

Lemma criteria_list_Ok v items :
  match v with PList (c :: cs) => Ok (c :: cs) | _ => Err invalid_verdict end = Ok items <->
  v = PList items /\ items <> [].
Proof. destruct v as [| | | | |[]| |]; naive_solver. Qed.

Lemma check_criteria_Ok l :
  is_ok (mapR check_criterion l) = true <->
  exists items, l = PDict <$> items /\ Forall criterion_schema items.
Proof.
  rewrite mapR_unit. split.
  - induction 1 as [|x l Hx _ (items & -> & Hi)]; [by exists []|].
    apply check_criterion_spec in Hx as (d & -> & Hd). exists (d :: items). by split; [|constructor].
  - intros (items & -> & Hi). apply Forall_fmap. eapply Forall_impl; [exact Hi|].
    intros d Hd. apply check_criterion_spec. eauto.
Qed.

Lemma score_invalid_spec v : score_invalid v = false <-> exists z, v = PInt z /\ (0 <= z <= 100)%Z.
Proof.
  unfold score_invalid. destruct v; cbn; try (split; [done|naive_solver]).
  rewrite orb_false_iff, !Z.ltb_ge. naive_solver.
Qed.

(** The tests of [validate_review_verdict], in conjunctive form. *)
Lemma validate_Ok payload d :
  validate_review_verdict payload = Ok d <->
  payload = PDict d /\
  has_keys REVIEW_VERDICT_REQUIRED_FIELDS d = true /\
  only_keys (REVIEW_VERDICT_REQUIRED_FIELDS ++ REVIEW_VERDICT_OPTIONAL_FIELDS) d = true /\
  dget "schema_version" d = PStr REVIEW_VERDICT_SCHEMA_VERSION /\
  (exists items, dget "criteria" d = PList items /\ items <> [] /\ is_ok (mapR check_criterion items) = true) /\
  in_str_set (dget "overall" d) REVIEW_VERDICT_OVERALL_VALUES = Ok true /\
  dmem "score" d && score_invalid (dget "score" d) = false /\
  dmem "notes" d && not_text (dget "notes" d) = false.
Proof.
  destruct payload as [| | | | | | |d']; try (split; [done|naive_solver]).
  cbn [validate_review_verdict].
  repeat setoid_rewrite bind_Ok. repeat setoid_rewrite raise_if_Ok. setoid_rewrite criteria_list_Ok.
  setoid_rewrite is_ok_exists. rewrite <- py_eq_str. split.
  - intros ([] & Hk & [] & Hv & items & Hi & u & Hu & known & Ho & [] & Hkn & [] & Hs & [] & Hn & [= ->]).
    apply orb_false_iff in Hk as [Hk1 Hk2]. apply negb_false_iff in Hk1, Hk2, Hv, Hkn. subst known.
    split_and!; eauto. by exists items; destruct Hi; eauto.
  - intros ([= ->] & Hk1 & Hk2 & Hv & (items & Hi & Hne & u & Hu) & Ho & Hs & Hn).
    exists tt. split; [by rewrite Hk1, Hk2|]. exists tt. split; [by rewrite Hv|].
    exists items. split; [done|]. exists u. split; [done|]. exists true. split; [done|].
    exists tt. split; [done|]. exists tt. split; [done|]. exists tt. split; [done|done].
Qed.

Lemma dkeys_dset k v d : k ∈ dkeys d -> dkeys (dset k v d) = dkeys d.
Proof.
  unfold dkeys. induction d as [|[k' v'] d IH]; cbn; [by intros ?%not_elem_of_nil|].
  destruct (String.eqb_spec k k') as [->|Hne]; [done|]. intros [->|Hk]%elem_of_cons; [done|].
  cbn. by rewrite IH.
Qed.

Lemma verdict_schema_checks d : verdict_schema d <->
  has_keys REVIEW_VERDICT_REQUIRED_FIELDS d = true /\
  only_keys (REVIEW_VERDICT_REQUIRED_FIELDS ++ REVIEW_VERDICT_OPTIONAL_FIELDS) d = true /\
  dget "schema_version" d = PStr REVIEW_VERDICT_SCHEMA_VERSION /\
  (exists items, dget "criteria" d = PList items /\ items <> [] /\ is_ok (mapR check_criterion items) = true) /\
  in_str_set (dget "overall" d) REVIEW_VERDICT_OVERALL_VALUES = Ok true /\
  dmem "score" d && score_invalid (dget "score" d) = false /\
  dmem "notes" d && not_text (dget "notes" d) = false.
Proof.
  rewrite only_keys_spec, has_keys_spec, !dmem_guard. setoid_rewrite not_text_spec.
  setoid_rewrite score_invalid_spec. setoid_rewrite check_criteria_Ok. split.
  - intros [Hf Hv (items & Hi & Hne & Hfa) (s & Hs & Hso) Hsc Hn]. split_and!; try done.
    + repeat constructor; eauto.
    + by apply dget_lookup.
    + exists (PDict <$> items). split; [by apply dget_lookup|]. split; [by destruct items|eauto].
    + rewrite (dget_lookup _ _ _ Hs). apply in_str_set_Ok_true. eauto.
  - intros (Hk & Hf & Hv & (its & Hi & Hne & items & -> & Hfa) & Ho & Hsc & Hn).
    unfold REVIEW_VERDICT_REQUIRED_FIELDS in Hk. rewrite !Forall_cons in Hk.
    destruct Hk as ([v1 H1] & [v2 H2] & [v3 H3] & _).
    rewrite (dget_lookup _ _ _ H1) in Hv. rewrite (dget_lookup _ _ _ H2) in Hi.
    rewrite (dget_lookup _ _ _ H3) in Ho. apply in_str_set_Ok_true in Ho as (s & -> & Hs). subst.
    split; [done|done| |eauto|done|done]. exists items. split; [done|]. split; [by destruct items|done].
Qed.

(** ** Properties *)

(** C40: validation accepts exactly the documents of the [review-verdict/v1]
    schema (the declarative [verdict_schema]: exact fields, version, a
    non-empty criteria list whose items have text and a known verdict, a known
    [overall], an integer score between 0 and 100 that is not a boolean, text
    notes), and returns the document unchanged. *)
Theorem validate_review_verdict_spec payload d :
  validate_review_verdict payload = Ok d <-> payload = PDict d /\ verdict_schema d.
Proof. rewrite validate_Ok, verdict_schema_checks. done. Qed.

Lemma validate_overall_unhashable d v :
  verdict_schema d -> hashable v = false ->
  validate_review_verdict (PDict (dset "overall" v d)) = Err (TypeError "unhashable type").
Proof.
  intros Hs Hv. pose proof (vs_overall _ Hs) as (s & Ho & _).
  assert (Hk : dkeys (dset "overall" v d) = dkeys d).
  { apply dkeys_dset. apply dmem_spec. unfold dmem. by rewrite Ho. }
  apply verdict_schema_checks in Hs as (H1 & H2 & H3 & (items & H4 & Hne & H4') & H5 & H6 & H7).
  cbn [validate_review_verdict].
  assert (Hh : has_keys REVIEW_VERDICT_REQUIRED_FIELDS (dset "overall" v d) = true).
  { unfold has_keys in *. rewrite forallb_elem in *. setoid_rewrite dmem_spec. rewrite Hk.
    setoid_rewrite dmem_spec in H1. done. }
  unfold only_keys in *. rewrite Hk, Hh, H2. cbn [negb orb raise_if mbind result_bind].
  rewrite !dget_dset. cbn -[py_eq mapR in_str_set].
  rewrite H3, H4. cbn -[mapR in_str_set]. destruct items as [|c cs]; [done|].
  cbn -[mapR in_str_set]. apply is_ok_exists in H4' as [u ->]. cbn -[in_str_set].
  unfold in_str_set. by rewrite Hv.
Qed.

Lemma in_str_set_Err v l e : in_str_set v l = Err e -> e = TypeError "unhashable type".
Proof. unfold in_str_set. destruct (hashable v); congruence. Qed.

(** Peel the binds of a failing validation, one statement at a time. *)
Ltac bind_err H :=
  apply bind_Err in H as [H|(? & _ & H)]; [first
    [ left; by apply raise_if_Err in H | right; by apply in_str_set_Err in H | idtac ] | ].

Lemma check_criterion_Err item e :
  check_criterion item = Err e -> e = invalid_verdict \/ e = TypeError "unhashable type".
Proof.
  destruct item; cbn [check_criterion]; try (intros [= <-]; by left).
  intros H. do 4 bind_err H. left. by apply raise_if_Err in H.
Qed.

Lemma validate_Err payload e :
  validate_review_verdict payload = Err e -> e = invalid_verdict \/ e = TypeError "unhashable type".
Proof.
  destruct payload as [| | | | | | |d]; cbn [validate_review_verdict]; try (intros [= <-]; by left).
  intros H. do 2 bind_err H. bind_err H.
  { left. destruct (dget "criteria" d) as [| | | | |[]| |]; congruence. }
  bind_err H.
  { apply mapR_Err in H as (item & _ & H). by eapply check_criterion_Err. }
  do 4 bind_err H. done.
Qed.

(** The reply-line parser fails only with the documented
    [ValueError] or with the [TypeError] of an unhashable member test; and that
    second failure really happens: in a reply whose single verdict line decodes
    to an otherwise valid verdict, an [overall] that is an array or an object
    makes it raise [TypeError], which callers that catch [ValueError] let
    through. *)
Lemma parse_verdict_line_errors `{JsonLoads} text :
  (forall e, parse_verdict_line text = Err e ->
     e = invalid_verdict \/ e = TypeError "unhashable type") /\
  (forall line d v, verdict_schema d -> hashable v = false ->
     omap verdict_of_line (splitlines text) = [line] ->
     json_loads line = Some (PDict (dset "overall" v d)) ->
     parse_verdict_line text = Err (TypeError "unhashable type")).
Proof.
  unfold parse_verdict_line. split.
  - intros e. destruct (omap _ _) as [|l [|]]; [done| |intros [= <-]; by left].
    destruct (json_loads l); [|intros [= <-]; by left]. intros [He|(? & _ & [=])]%bind_Err.
    by eapply validate_Err.
  - intros line d v Hs Hv Hl Hj. rewrite Hl, Hj. by rewrite validate_overall_unhashable.
Qed.

Lemma count_partition items :
  Forall criterion_schema items ->
  (count_verdicts "pass" items + count_verdicts "fail" items + count_verdicts "unknown" items)%Z
  = Z.of_nat (length items).
Proof.
  unfold count_verdicts. induction 1 as [|d items [_ _ (s & Hs & Hin) _] _ IH]; [done|].
  cbn [List.filter]. rewrite (dget_lookup _ _ _ Hs). unfold REVIEW_VERDICT_CRITERION_VERDICTS in Hin.
  repeat (apply elem_of_cons in Hin as [-> | Hin]; [cbn in *; lia|]). by apply not_elem_of_nil in Hin.
Qed.

Lemma dicts_of_PDict items : dicts_of (PDict <$> items) = items.
Proof. induction items as [|d l IH]; [done|]. rewrite fmap_cons, dicts_of_cons. by f_equal. Qed.

Lemma in_list_texts c (items : list dict) :
  Forall criterion_schema items ->
  in_list c (dget "criterion" <$> items) = true <-> c ∈ dget "criterion" <$> items.
Proof.
  intros Hi. unfold in_list. rewrite existsb_elem, Forall_forall in *.
  assert (Ht : forall x, x ∈ dget "criterion" <$> items -> exists s, x = PStr s).
  { intros x (d & -> & Hd)%list_elem_of_fmap. destruct (cs_criterion _ (Hi d Hd)) as (v & Hv & s & -> & _).
    exists s. by apply dget_lookup. }
  split.
  - intros (x & Hx & He). destruct (Ht x Hx) as [s ->]. by apply py_eq_str in He as ->.
  - intros Hc. exists c. split; [done|]. destruct (Ht c Hc) as [s ->]. by apply py_eq_str.
Qed.

Lemma in_list_str s l : in_list (PStr s) l = true <-> PStr s ∈ l.
Proof.
  unfold in_list. rewrite existsb_elem. setoid_rewrite py_eq_str_l. naive_solver.
Qed.

(** Aligning a valid verdict never fails; the per-verdict counts add up to
    the number of criteria, [unverified] is exactly the acceptance criteria the
    verdict does not mention and [extra] exactly the mentioned texts that are
    not acceptance criteria, so both are empty only when the two sets
    coincide. *)
Lemma align_verdict_spec d ac :
  verdict_schema d ->
  exists r items,
    align_verdict_with_criteria (PDict d) (Some ac) = Ok r /\
    dget "criteria" d = PList (PDict <$> items) /\
    let texts := dget "criterion" <$> items in
    (passed r + failed r + unknown r = criteria_total r)%Z /\
    criteria_total r = Z.of_nat (length items) /\
    (forall c, c ∈ unverified r <-> c ∈ ac /\ c ∉ texts) /\
    (forall c, c ∈ extra r <-> c ∈ texts /\ c ∉ ac) /\
    (unverified r = [] /\ extra r = [] <-> forall c, c ∈ ac <-> c ∈ texts).
Proof.
  intros Hs. destruct (vs_criteria _ Hs) as (items & Hc & _ & Hi).
  unfold align_verdict_with_criteria.
  assert (Hval : validate_review_verdict (PDict d) = Ok d) by (apply validate_Ok; split; [done|by apply verdict_schema_checks]).
  rewrite Hval. cbn [mbind result_bind].
  set (texts := dget "criterion" <$> items).
  assert (Hitems : criteria_items d = items).
  { unfold criteria_items. rewrite (dget_lookup _ _ _ Hc). apply dicts_of_PDict. }
  rewrite Hitems. fold texts.
  assert (Hu : forall c, c ∈ List.filter (fun c => negb (in_list c texts)) ac <-> c ∈ ac /\ c ∉ texts).
  { intros c. rewrite list_elem_of_In, filter_In, <- list_elem_of_In, negb_true_iff, <- not_true_iff_false.
    unfold texts. by rewrite in_list_texts. }
  assert (He : forall c, c ∈ List.filter (fun c => negb (in_list c ac)) texts <-> c ∈ texts /\ c ∉ ac).
  { intros c. rewrite list_elem_of_In, filter_In, <- list_elem_of_In, negb_true_iff, <- not_true_iff_false.
    split; intros [Hc1 Hc2]; (split; [done|]); unfold texts in Hc1;
      apply list_elem_of_fmap in Hc1 as (x & -> & Hx); rewrite Forall_forall in Hi;
      destruct (cs_criterion _ (Hi x Hx)) as (v & Hv & s & -> & _);
      rewrite (dget_lookup _ _ _ Hv), in_list_str in *; done. }
  eexists _, items. split; [reflexivity|]. split; [by apply dget_lookup|]. cbn.
  split_and!; [by apply count_partition|done|exact Hu|exact He|].
  split.
  - intros [Hnu Hne] c. specialize (Hu c). specialize (He c). rewrite Hnu in Hu. rewrite Hne in He.
    pose proof (not_elem_of_nil c). destruct (decide (c ∈ ac)), (decide (c ∈ texts)); tauto.
  - intros Heq. split; apply elem_of_nil_inv; intros c.
    + rewrite Hu, Heq. tauto.
    + rewrite He, Heq. tauto.
Qed.

(** ** Witnesses *)

Definition sample_criterion : dict := [("criterion", PStr "tests pass"); ("verdict", PStr "fail")].
Definition sample_verdict : dict :=
  [("schema_version", PStr REVIEW_VERDICT_SCHEMA_VERSION);
   ("criteria", PList [PDict sample_criterion]); ("overall", PStr "fail"); ("score", PInt 40)].

Lemma sample_verdict_schema : verdict_schema sample_verdict.
Proof.
  apply verdict_schema_checks, (validate_Ok (PDict sample_verdict) sample_verdict). vm_compute. reflexivity.
Qed.

Lemma parse_verdict_line_errors_witness :
  @parse_verdict_line (fun _ => Some (PDict (dset "overall" (PList []) sample_verdict)))
    "verdict: {...}" = Err (TypeError "unhashable type").
Proof.
  apply (proj2 (@parse_verdict_line_errors
           (fun _ => Some (PDict (dset "overall" (PList []) sample_verdict))) "verdict: {...}")
           "{...}" sample_verdict (PList [])).
  - apply sample_verdict_schema.
  - reflexivity.
  - vm_compute. reflexivity.
  - reflexivity.
Defined.

Lemma align_verdict_spec_witness :
  exists r items,
    align_verdict_with_criteria (PDict sample_verdict) (Some [PStr "tests pass"; PStr "docs updated"]) = Ok r /\
    dget "criteria" sample_verdict = PList (PDict <$> items) /\
    let texts := dget "criterion" <$> items in
    (passed r + failed r + unknown r = criteria_total r)%Z /\
    criteria_total r = Z.of_nat (length items) /\
    (forall c, c ∈ unverified r <-> c ∈ [PStr "tests pass"; PStr "docs updated"] /\ c ∉ texts) /\
    (forall c, c ∈ extra r <-> c ∈ texts /\ c ∉ [PStr "tests pass"; PStr "docs updated"]) /\
    (unverified r = [] /\ extra r = [] <->
       forall c, c ∈ [PStr "tests pass"; PStr "docs updated"] <-> c ∈ texts).
Proof. apply align_verdict_spec. apply sample_verdict_schema. Defined.
