(* ===== verification/ReviewGroup.v ===== *)
(** * Review groups ([review_group.py])

    Expansion of a review step into one step per reviewer, selection of the
    latest group whose verdicts are in, and the any-fail-blocks aggregation. *)
From S2P Require Import Prelude PyStr PyVal StepDag.
From stdpp Require Import sorting.

(** ** Expansion *)

Definition REVIEW_GROUP_ORIGIN : string := "review_group".
Definition REVIEW_GROUP_RULE : string := "any_fail_blocks".

(** The members one review step becomes, numbered after [number]. *)
Fixpoint group_items (step : dict) (group member number : Z) (reviewers : list (string * string))
    : list dict :=
  match reviewers with
  | [] => []
  | (agent_id, role) :: reviewers =>
      dupdate [("step", PInt (number + 1)); ("agent_id", PStr agent_id); ("role", PStr role);
               ("origin", PStr REVIEW_GROUP_ORIGIN); ("review_group", PInt group);
               ("review_group_member", PInt member)] step
      :: group_items step group (member + 1) (number + 1) reviewers
  end.

(** The loop over the plan's steps; [None] when an entry is not an object. *)
Fixpoint expand_steps (signature_role : string) (reviewers : list (string * string))
    (number group : Z) (steps : list pyval) : option (list dict) :=
  match steps with
  | [] => Some []
  | PDict step :: steps =>
      if negb (py_eq (dget "role" step) (PStr signature_role)) then
        rest ← expand_steps signature_role reviewers (number + 1) group steps;
        Some (dset "step" (PInt (number + 1)) step :: rest)
      else
        rest ← expand_steps signature_role reviewers
                 (number + Z.of_nat (length reviewers)) (group + 1) steps;
        Some (group_items step (group + 1) 0 number reviewers ++ rest)
  | _ :: _ => None
  end.

Definition expand_review_group (plan : dict) (reviewers : list (string * string)) : dict :=
  match reviewers with
  | [] => plan
  | (_, signature_role) :: _ =>
      match dget "steps" plan with
      | PList (s :: steps) =>
          match expand_steps signature_role reviewers 0 0 (s :: steps) with
          | Some expanded => dset "steps" (PList (PDict <$> expanded)) plan
          | None => plan
          end
      | _ => plan
      end
  end.

(** ** Selection *)

(** One iteration of [review_group_numbers]. *)
Definition group_number_step (mapping : gmap Z Z) (step : pyval) : gmap Z Z :=
  match step with
  | PDict d =>
      match exact_int (dget "step" d), exact_int (dget "review_group" d) with
      | Some number, Some group => <[number := group]> mapping
      | _, _ => mapping
      end
  | _ => mapping
  end.
Definition review_group_numbers (steps : list pyval) : gmap Z Z := foldl group_number_step ∅ steps.

(** [by_group[group]], sorted; and the groups, latest first. *)
Definition group_steps (groups : gmap Z Z) (group : Z) : list Z :=
  merge_sort Z.le (List.filter (fun n => bool_decide (groups !! n = Some group)) (elements (dom groups))).
Definition groups_descending (groups : gmap Z Z) : list Z :=
  reverse (merge_sort Z.le (elements (map_to_set (fun _ g => g) groups : gset Z))).

Record member := Member {
  m_step : Z; m_agent_id : pyval; m_reply_id : pyval; m_verdict : option dict
}.

Record group_view := GroupView {
  gv_group : Z; gv_members : list member; gv_reported : Z; gv_complete : bool; gv_last_reply_id : pyval;
  gv_last_reply_index : option Z
}.

(** The merged criteria in first-seen order. *)
Notation merged := (list (string * string)).

Section selection.
Context `{PyRepr}.

(** The replies that carry a verdict object, with their position. *)
Definition verdict_replies (replies : list pyval) : list (nat * (dict * dict)) :=
  omap (fun ir => match ir.2 with
                  | PDict r => match dget "verdict" r with PDict v => Some (ir.1, (r, v)) | _ => None end
                  | _ => None
                  end) (imap (fun i r => (i, r)) replies).

(** [reply_by_message.get(mid)]: the last such reply to the message. *)
Definition reply_for (replies : list pyval) (mid : string) : option (nat * (dict * dict)) :=
  last (List.filter (fun ir => String.eqb (py_str (dget "message_id" ir.2.1)) mid) (verdict_replies replies)).

Definition plan_approvals (approvals : list pyval) (plan_id : string) : list dict :=
  List.filter (fun a => py_eq (dget "plan_id" a) (PStr plan_id)) (dicts_of approvals).

(** The lookups shared by the two selectors: the member record of a step, and
    the position of its reply. *)
Definition member_of (steps_by_number approval_by_step : list (pyval * dict)) (replies : list pyval)
    (number : Z) : member * option nat :=
  let agent := match kget (PInt number) steps_by_number with Some s => dget "agent_id" s | None => PNone end in
  let message_id := match kget (PInt number) approval_by_step with
                    | Some a => py_str (dget "message_id" a) | None => "None" end in
  match reply_for replies message_id with
  | Some (i, (r, v)) => (Member number agent (dget "reply_id" r) (Some v), Some i)
  | None => (Member number agent PNone None, None)
  end.

Definition reported (m : member) : bool := match m_verdict m with Some _ => true | None => false end.

(** The members of a group, in step order, with the positions of their replies. *)
Definition members_for (steps_by_number approval_by_step : list (pyval * dict)) (replies : list pyval)
    (groups : gmap Z Z) (group : Z) : list (member * option nat) :=
  member_of steps_by_number approval_by_step replies <$> group_steps groups group.

(** [last_index] after the loop over a complete group. *)
Definition last_index (members : list (member * option nat)) : Z :=
  foldl Z.max (-1)%Z (omap (fun m => Z.of_nat <$> m.2) members).

Definition complete_view (group : Z) (members : list (member * option nat)) : option group_view :=
  if forallb (fun m => reported m.1) members then
    match last members with
    | Some m => Some (GroupView group members.*1 (Z.of_nat (length members)) true (m_reply_id m.1)
                        (Some (last_index members)))
    | None => None
    end
  else None.

Definition latest_complete_group (steps approvals replies : list pyval) (plan_id : string)
    : result (option group_view) :=
  let groups := review_group_numbers steps in
  if decide (groups = ∅) then Ok None
  else
    steps_by_number ← keyed_by (dget "step") (dicts_of steps);
    approval_by_step ← keyed_by (dget "step") (plan_approvals approvals plan_id);
    Ok (head (omap (fun g => complete_view g (members_for steps_by_number approval_by_step replies groups g))
                (groups_descending groups))).

Definition status_view (group : Z) (members : list (member * option nat)) : option group_view :=
  let members := members.*1 in
  match last (List.filter reported members) with
  | Some m =>
      let n := length (List.filter reported members) in
      Some (GroupView group members (Z.of_nat n) (Nat.eqb n (length members)) (PStr (py_str (m_reply_id m))) None)
  | None => None
  end.

Definition latest_group_status (steps approvals replies : list pyval) (plan_id : string)
    : result (option group_view) :=
  let groups := review_group_numbers steps in
  if decide (groups = ∅) then Ok None
  else
    steps_by_number ← keyed_by (dget "step") (dicts_of steps);
    approval_by_step ← keyed_by (dget "step") (plan_approvals approvals plan_id);
    Ok (head (omap (fun g => status_view g (members_for steps_by_number approval_by_step replies groups g))
                (groups_descending groups))).

(** ** Aggregation *)

Definition severity (value : string) : option Z :=
  if String.eqb value "pass" then Some 0%Z
  else if String.eqb value "needs_changes" then Some 1%Z
  else if String.eqb value "fail" then Some 2%Z else None.

(** An overall outside the severity table counts as ["fail"]. *)
Definition clamp_overall (v : string) : string :=
  match severity v with Some _ => v | None => "fail" end.

Definition worse (overall value : string) : string :=
  if (default 0 (severity overall) <? default 0 (severity value))%Z then value else overall.

(** [for x in v] *)
Definition py_iter (v : pyval) : result (list pyval) :=
  match v with
  | PList l | PTuple l => Ok l
  | PStr s => Ok (PStr <$> chars s)
  | PDict d => Ok (PStr <$> dkeys d)
  | _ => Err (TypeError "object is not iterable")
  end.

Fixpoint merge_criterion (criterion incoming : string) (m : merged) : merged :=
  match m with
  | [] => [(criterion, incoming)]
  | (c, current) :: m =>
      if String.eqb criterion c then
        (c, if negb (String.eqb current "fail")
               && (String.eqb incoming "fail" || String.eqb current "pass")
            then incoming else current) :: m
      else (c, current) :: merge_criterion criterion incoming m
  end.
Definition merge_item (m : merged) (item : pyval) : merged :=
  match item with
  | PDict d => merge_criterion (py_str (dget "criterion" d)) (py_str (dget "verdict" d)) m
  | _ => m
  end.

Record agg := Agg { ag_overall : string; ag_merged : merged; ag_scores : list Z }.

Definition aggregate_step (acc : agg) (m : member) : result agg :=
  let verdict := default [] (m_verdict m) in
  let overall := worse (ag_overall acc) (clamp_overall (py_str (dget "overall" verdict))) in
  let scores := match exact_int (dget "score" verdict) with
                | Some z => ag_scores acc ++ [z] | None => ag_scores acc end in
  items ← py_iter (py_or (dget "criteria" verdict) (PList []));
  Ok (Agg overall (foldl merge_item (ag_merged acc) items) scores).

Record group_verdict := GroupVerdict {
  gr_overall : string; gr_rule : string; gr_criteria : merged; gr_score : option Z
}.

Definition aggregate_group_verdicts (members : list member) : result group_verdict :=
  acc ← foldM aggregate_step (Agg "pass" [] []) members;
  Ok (GroupVerdict (ag_overall acc) REVIEW_GROUP_RULE (ag_merged acc)
        (match ag_scores acc with [] => None | z :: zs => Some (list_minZ z zs) end)).
End selection.

(** ** Expansion: numbering and groups *)

Lemma dget_dupdate k items d :
  dget k (dupdate items d) = match dlookup k (reverse items) with Some v => v | None => dget k d end.
Proof.
  unfold dupdate. induction items as [|[k' v'] items IH] using rev_ind; [done|].
  rewrite foldl_snoc, reverse_snoc, dget_dset, IH. cbn. by destruct (String.eqb k k').
Qed.

Lemma group_items_length step g m n revs : length (group_items step g m n revs) = length revs.
Proof. revert m n; induction revs as [|[a r] revs IH]; intros m n; cbn; [done|]. by rewrite IH. Qed.

Lemma step_number_dset step n : (1 <= n)%Z -> step_number (PDict (dset "step" (PInt n) step)) = Some n.
Proof. intros Hn. cbn. rewrite dget_dset. cbn. by destruct (Z.ltb_spec n 1); [lia|]. Qed.

Lemma range_cons a b : (a < b)%Z -> range a b = a :: range (a + 1) b.
Proof.
  intros H. unfold range. replace (Z.to_nat (b - a)) with (S (Z.to_nat (b - (a + 1)))) by lia.
  cbn. f_equal; [lia|]. rewrite <- fmap_S_seq, <- list_fmap_compose. apply list_fmap_ext. intros i x _. cbn. lia.
Qed.

Lemma range_nil a : range a a = [].
Proof. unfold range. by rewrite Z.sub_diag. Qed.

Lemma range_app a b c : (a <= b <= c)%Z -> range a c = range a b ++ range b c.
Proof.
  intros H. remember (Z.to_nat (b - a)) as k eqn:Hk. revert a H Hk; induction k as [|k IH]; intros a H Hk.
  - replace b with a by lia. by rewrite range_nil.
  - rewrite (range_cons a c), (range_cons a b) by lia. cbn. f_equal. apply IH; lia.
Qed.

Lemma step_numbers_app l k : step_numbers (l ++ k) = step_numbers l ++ step_numbers k.
Proof. apply omap_app. Qed.

Lemma step_numbers_cons s l n :
  step_number s = Some n -> step_numbers (s :: l) = n :: step_numbers l.
Proof. unfold step_numbers. cbn. by intros ->. Qed.

Lemma group_items_number step g m n revs :
  (0 <= n)%Z ->
  step_numbers (PDict <$> group_items step g m n revs) = range (n + 1) (n + Z.of_nat (length revs) + 1).
Proof.
  revert m n; induction revs as [|[a r] revs IH]; intros m n Hn.
  { rewrite Z.add_0_r, range_nil. done. }
  cbn [group_items length]. rewrite fmap_cons, range_cons by lia. erewrite step_numbers_cons.
  - f_equal. rewrite IH by lia. f_equal; lia.
  - cbn [step_number]. rewrite dget_dupdate. cbn. by destruct (Z.ltb_spec (n + 1) 1); [lia|].
Qed.

Lemma expand_steps_number sig revs n g steps out :
  (0 <= n)%Z -> expand_steps sig revs n g steps = Some out ->
  step_numbers (PDict <$> out) = range (n + 1) (n + Z.of_nat (length out) + 1).
Proof.
  revert n g out; induction steps as [|s steps IH]; intros n g out Hn.
  { intros [= <-]. rewrite Z.add_0_r, range_nil. done. }
  destruct s; try done. cbn [expand_steps]. destruct (negb _).
  - intros (rest & Hr & [= <-])%bind_Some. apply IH in Hr; [|lia].
    rewrite fmap_cons, range_cons by (cbn; lia). erewrite step_numbers_cons by (apply step_number_dset; lia).
    f_equal. rewrite Hr. cbn [length]. f_equal; lia.
  - intros (rest & Hr & [= <-])%bind_Some. apply IH in Hr; [|lia].
    rewrite fmap_app, step_numbers_app, group_items_number, Hr, length_app, group_items_length by done.
    rewrite (range_app (n + 1) (n + Z.of_nat (length revs) + 1) (n + Z.of_nat (_ + length rest) + 1)) by lia.
    by rewrite Nat2Z.inj_add, Z.add_assoc.
Qed.

Lemma expand_steps_is_Some sig revs n g steps :
  forallb is_dict steps = true -> is_Some (expand_steps sig revs n g steps).
Proof.
  revert n g; induction steps as [|s steps IH]; intros n g; cbn; [by eexists|].
  destruct s; try done. cbn. intros Hs. destruct (negb _).
  - destruct (IH (n + 1)%Z g Hs) as [r ->]. by eexists.
  - destruct (IH (n + Z.of_nat (length revs))%Z (g + 1)%Z Hs) as [r ->]. by eexists.
Qed.

(** How many steps of a list carry the group mark [k]. *)
Definition group_size (k : Z) (l : list dict) : nat :=
  length (List.filter (fun d => bool_decide (group_of (PDict d) = Some k)) l).

Definition review_steps (sig : string) (steps : list pyval) : nat :=
  length (List.filter (fun d => py_eq (dget "role" d) (PStr sig)) (dicts_of steps)).

Lemma group_size_app k l l' : group_size k (l ++ l') = group_size k l + group_size k l'.
Proof. unfold group_size. by rewrite List.filter_app, length_app. Qed.

Lemma group_items_size step g m n revs k :
  group_size k (group_items step g m n revs) = if decide (k = g) then length revs else 0.
Proof.
  unfold group_size. revert m n; induction revs as [|[a r] revs IH]; intros m n; cbn [group_items List.filter].
  { by case_decide. }
  unfold group_of. rewrite dget_dupdate. cbn. destruct (decide (k = g)) as [->|Hne].
  - rewrite bool_decide_eq_true_2 by done. cbn. f_equal. exact (IH _ _).
  - rewrite bool_decide_eq_false_2 by congruence. exact (IH _ _).
Qed.

Lemma expand_steps_group_size sig revs n g steps out k :
  Forall (fun d => group_of (PDict d) = None) (dicts_of steps) ->
  expand_steps sig revs n g steps = Some out ->
  group_size k out = if decide (g < k <= g + Z.of_nat (review_steps sig steps))%Z then length revs else 0.
Proof.
  unfold review_steps. revert n g out; induction steps as [|s steps IH]; intros n g out Hf.
  { intros [= <-]. cbn. rewrite decide_False; [done|lia]. }
  destruct s; try done. rewrite dicts_of_cons in *. apply Forall_cons in Hf as [Hd Hf]. cbn [expand_steps List.filter].
  destruct (py_eq _ _) eqn:Hr; cbn [negb].
  - intros (rest & He & [= <-])%bind_Some. rewrite group_size_app, group_items_size.
    rewrite (IH _ _ _ Hf He). cbn [length].
    repeat case_decide; lia.
  - intros (rest & He & [= <-])%bind_Some. specialize (IH _ _ _ Hf He). unfold group_size in *.
    cbn [List.filter]. rewrite bool_decide_eq_false_2; [done|].
    cbn in Hd |- *. rewrite dget_dset. cbn. by rewrite Hd.
Qed.

(** Expanding a plan whose entries are all objects renumbers the steps
    [1..n] consecutively and, when the plan carried no group marks, replaces
    the k-th review step by a group [k] with exactly one member per reviewer
    and leaves no other group. *)
Lemma expand_review_group_numbering plan agent role revs s steps :
  dget "steps" plan = PList (s :: steps) -> forallb is_dict (s :: steps) = true ->
  exists out,
    dget "steps" (expand_review_group plan ((agent, role) :: revs)) = PList (PDict <$> out) /\
    step_numbers (PDict <$> out) = range 1 (Z.of_nat (length out) + 1) /\
    NoDup (step_numbers (PDict <$> out)) /\
    (Forall (fun d => group_of (PDict d) = None) (dicts_of (s :: steps)) ->
     forall k, group_size k out =
       if decide (1 <= k <= Z.of_nat (review_steps role (s :: steps)))%Z then S (length revs) else 0).
Proof.
  intros Hs Hd. destruct (expand_steps_is_Some role ((agent, role) :: revs) 0 0 _ Hd) as [out Ho].
  exists out. unfold expand_review_group. rewrite Hs, Ho, dget_dset. cbn [String.eqb Ascii.eqb Bool.eqb].
  assert (Hn := expand_steps_number _ _ _ _ _ _ (Z.le_refl 0) Ho).
  replace (0 + 1)%Z with 1%Z in Hn by lia. rewrite Z.add_0_l in Hn.
  split_and!; [done|done|rewrite Hn; apply range_NoDup|].
  intros Hf k. rewrite (expand_steps_group_size _ _ _ _ _ _ k Hf Ho).
  destruct (decide (0 < k <= _)%Z), (decide (1 <= k <= _)%Z); cbn; lia || done.
Qed.

(** ** Selection: the latest group *)

Lemma head_omap_Some {A B} (f : A -> option B) l v :
  head (omap f l) = Some v <->
  exists l1 x l2, l = l1 ++ x :: l2 /\ f x = Some v /\ Forall (fun y => f y = None) l1.
Proof.
  split.
  - induction l as [|y l IH]; cbn; [done|]. destruct (f y) as [w|] eqn:Hy.
    + intros [= ->]. by exists [], y, l.
    + intros H. destruct (IH H) as (l1 & x & l2 & -> & Hx & Hl). exists (y :: l1), x, l2. by auto.
  - intros (l1 & x & l2 & -> & Hx & Hl). induction Hl as [|y l1 Hy _ IH]; cbn.
    + by rewrite Hx.
    + by rewrite Hy.
Qed.

Lemma head_omap_None {A B} (f : A -> option B) l :
  head (omap f l) = None <-> Forall (fun y => f y = None) l.
Proof.
  induction l as [|y l IH]; cbn; [done|]. rewrite Forall_cons, <- IH. destruct (f y); naive_solver.
Qed.

Lemma elem_of_groups_descending groups g :
  g ∈ groups_descending groups <-> exists n, groups !! n = Some g.
Proof.
  unfold groups_descending. rewrite elem_of_reverse, merge_sort_Permutation, elem_of_elements.
  rewrite elem_of_map_to_set. split; [intros (n & g' & Hn & ->)|intros (n & Hn)]; eauto.
Qed.

Lemma groups_descending_first groups l1 g l2 g' :
  groups_descending groups = l1 ++ g :: l2 -> g' ∈ groups_descending groups -> (g < g')%Z -> g' ∈ l1.
Proof.
  intros Heq Hin Hlt. rewrite Heq in Hin. apply elem_of_app in Hin as [?|Hin]; [done|].
  apply elem_of_cons in Hin as [->|Hin]; [lia|]. exfalso.
  unfold groups_descending in Heq. apply (f_equal reverse) in Heq.
  rewrite reverse_involutive, reverse_app, reverse_cons, <- app_assoc in Heq.
  assert (Hs := StronglySorted_merge_sort Z.le (elements (map_to_set (λ _ g, g) groups : gset Z))).
  rewrite Heq in Hs. apply StronglySorted_app_1_elem_of with (x1 := g') (x2 := g) in Hs; [lia| |].
  - by apply elem_of_reverse.
  - by left.
Qed.

Lemma elem_of_group_steps groups g n : n ∈ group_steps groups g <-> groups !! n = Some g.
Proof.
  unfold group_steps. rewrite merge_sort_Permutation, list_elem_of_In, filter_In, <- list_elem_of_In.
  rewrite elem_of_elements, elem_of_dom, bool_decide_eq_true. split; [tauto|]. intros H. by rewrite H.
Qed.

Lemma group_steps_sorted groups g : StronglySorted Z.le (group_steps groups g).
Proof. apply (StronglySorted_merge_sort Z.le). Qed.

Lemma group_steps_nonempty groups g :
  g ∈ groups_descending groups -> group_steps groups g <> [].
Proof.
  intros (n & Hn)%elem_of_groups_descending. apply elem_of_group_steps in Hn.
  intros H. rewrite H in Hn. by apply not_elem_of_nil in Hn.
Qed.

Section selection_lemmas.
Context `{PyRepr}.
Context (sbn abs : list (pyval * dict)) (replies : list pyval).

Lemma complete_view_Some g ms v :
  complete_view g ms = Some v <->
  forallb (fun m => reported m.1) ms = true /\
  exists m, last ms = Some m /\
    v = GroupView g ms.*1 (Z.of_nat (length ms)) true (m_reply_id m.1) (Some (last_index ms)).
Proof.
  unfold complete_view. destruct (forallb _ ms); [|naive_solver]. destruct (last ms); naive_solver.
Qed.

Lemma complete_view_None g ms :
  ms <> [] -> complete_view g ms = None <-> exists m, m ∈ ms.*1 /\ reported m = false.
Proof.
  intros Hne. unfold complete_view. destruct (forallb _ ms) eqn:Hf.
  - destruct (last ms) eqn:Hl; [|by apply last_None in Hl]. rewrite forallb_elem in Hf.
    split; [done|]. intros (m & (x & -> & Hx)%list_elem_of_fmap & Hm). by rewrite Hf in Hm.
  - split; [intros _|done]. apply not_true_iff_false in Hf. rewrite forallb_elem in Hf.
    destruct (existsb (fun m => negb (reported m.1)) ms) eqn:He.
    + apply existsb_elem in He as (x & Hx & Hr). exists x.1. apply negb_true_iff in Hr.
      split; [by apply list_elem_of_fmap_2|done].
    + exfalso. apply Hf. rewrite existsb_elem_false in He. intros x Hx. by apply negb_false_iff, He.
Qed.

Lemma status_view_None g ms :
  status_view g ms = None <-> Forall (fun m => reported m = false) ms.*1.
Proof.
  unfold status_view. destruct (last _) eqn:Hl.
  - split; [done|]. intros Hf. apply last_Some_elem_of in Hl. apply list_elem_of_In, filter_In in Hl as [Hm Hr].
    rewrite Forall_forall in Hf. rewrite <- list_elem_of_In in Hm. by rewrite (Hf _ Hm) in Hr.
  - split; [|done]. intros _. apply last_None in Hl. apply Forall_forall. intros m Hm.
    destruct (reported m) eqn:Hr; [|done].
    assert (Hin : In m (List.filter reported ms.*1)) by (apply filter_In; by rewrite <- list_elem_of_In).
    by rewrite Hl in Hin.
Qed.
End selection_lemmas.

Lemma filter_all_length {A} (p : A -> bool) l :
  Forall (fun x => p x = true) l <-> length (List.filter p l) = length l.
Proof.
  induction l as [|x l IH]; cbn; [done|]. rewrite Forall_cons, IH.
  destruct (p x) eqn:Hp; cbn; [split; [intros [_ ->]; done|intros [= ->]; done]|].
  pose proof (List.filter_length_le p l). split; [by intros [? _]|lia].
Qed.

(** What a reported verdict rests on: a recorded reply with that verdict object,
    answering the message of an approval of this plan for that step (or, when
    the step has no approval, the message identity ["None"]). *)
Definition backed_by `{PyRepr} (approvals replies : list pyval) (plan_id : string) (m : member) : Prop :=
  forall v, m_verdict m = Some v ->
  exists r, PDict r ∈ replies /\ dget "verdict" r = PDict v /\ dget "reply_id" r = m_reply_id m /\
    ((exists a, PDict a ∈ approvals /\ dget "plan_id" a = PStr plan_id /\
        py_eq (PInt (m_step m)) (dget "step" a) = true /\
        py_str (dget "message_id" r) = py_str (dget "message_id" a)) \/
     py_str (dget "message_id" r) = "None").

Section backing.
Context `{PyRepr}.

Lemma reply_for_Some replies mid i r v :
  reply_for replies mid = Some (i, (r, v)) ->
  PDict r ∈ replies /\ dget "verdict" r = PDict v /\ py_str (dget "message_id" r) = mid.
Proof.
  unfold reply_for, verdict_replies. intros H1%last_Some_elem_of.
  apply list_elem_of_In, filter_In in H1 as [H1 H2%String.eqb_eq]. rewrite <- list_elem_of_In in H1.
  apply list_elem_of_omap in H1 as ([j x] & Hx & H1). cbn in H1.
  apply elem_of_lookup_imap in Hx as (k & y & [= -> ->] & Hy).
  destruct y as [| | | | | | |d]; try done. destruct (dget "verdict" d) eqn:Hv; try done. simplify_eq.
  split_and!; [by eapply list_elem_of_lookup_2|done|done].
Qed.

Lemma keyed_by_elem {A} (key : A -> pyval) l m k x :
  keyed_by key l = Ok m -> kget k m = Some x -> x ∈ l /\ py_eq k (key x) = true.
Proof.
  intros Hm%mapR_Ok Hk. unfold kget in Hk.
  destruct (head _) as [[k' x']|] eqn:Hh; [|done]. cbn in Hk. injection Hk as ->.
  apply head_Some_elem_of in Hh. apply list_elem_of_In, filter_In in Hh as [Hin Heq].
  rewrite <- list_elem_of_In in Hin. apply (proj1 (elem_of_reverse _ _)) in Hin.
  apply list_elem_of_lookup in Hin as (i & Hi).
  destruct (Forall2_lookup_r _ _ _ _ _ Hm Hi) as (y & Hy & He).
  destruct (hashable (key y)); [|done]. injection He as <- <-.
  split; [by eapply list_elem_of_lookup_2|done].
Qed.

Lemma member_of_backed sbn approvals abs replies plan_id n :
  keyed_by (dget "step") (plan_approvals approvals plan_id) = Ok abs ->
  backed_by approvals replies plan_id (member_of sbn abs replies n).1.
Proof.
  intros Ha v. unfold member_of. destruct (reply_for _ _) as [[i [r w]]|] eqn:Hr; [|done].
  cbn. intros [= ->]. apply reply_for_Some in Hr as (Hin & Hv & Hm).
  exists r. split_and!; [done|done|done|].
  destruct (kget (PInt n) abs) as [a|] eqn:Hk; [left|by right].
  destruct (keyed_by_elem _ _ _ _ _ Ha Hk) as [Hin' Heq]. exists a. unfold plan_approvals in Hin'.
  apply list_elem_of_In, filter_In in Hin' as [Hin' Hp]. apply list_elem_of_In, elem_of_dicts_of in Hin'.
  apply py_eq_str in Hp. done.
Qed.

Lemma members_for_backed sbn approvals abs replies plan_id groups g :
  keyed_by (dget "step") (plan_approvals approvals plan_id) = Ok abs ->
  Forall (backed_by approvals replies plan_id) (members_for sbn abs replies groups g).*1.
Proof.
  intros Ha. apply Forall_fmap, Forall_forall. intros x (n & -> & _)%list_elem_of_fmap.
  by eapply member_of_backed.
Qed.

Lemma members_for_steps sbn abs replies groups g :
  m_step <$> (members_for sbn abs replies groups g).*1 = group_steps groups g.
Proof.
  unfold members_for. induction (group_steps groups g) as [|n l IH]; [done|]. rewrite !fmap_cons, IH. f_equal.
  unfold member_of. by destruct (reply_for _ _) as [[? []]|].
Qed.

Lemma members_for_nonempty sbn abs replies groups g :
  g ∈ groups_descending groups -> members_for sbn abs replies groups g <> [].
Proof. intros Hg He%fmap_nil_inv. by eapply group_steps_nonempty. Qed.
End backing.

(** The groups of a plan, and the members of a group as both selectors see them. *)
Definition is_group (steps : list pyval) (g : Z) : Prop := exists n, review_group_numbers steps !! n = Some g.

Definition group_members_of `{PyRepr} (steps approvals replies : list pyval) (plan_id : string) (g : Z)
    : result (list member) :=
  sbn ← keyed_by (dget "step") (dicts_of steps);
  abs ← keyed_by (dget "step") (plan_approvals approvals plan_id);
  Ok (members_for sbn abs replies (review_group_numbers steps) g).*1.

Section selector_shape.
Context `{PyRepr}.
Context (steps approvals replies : list pyval) (plan_id : string).
Let groups := review_group_numbers steps.

Lemma no_groups g : groups = ∅ -> ~ is_group steps g.
Proof. unfold is_group. fold groups. intros -> (n & Hn). by rewrite lookup_empty in Hn. Qed.

Lemma complete_shape r :
  latest_complete_group steps approvals replies plan_id = Ok r ->
  groups = ∅ /\ r = None \/
  exists sbn abs, keyed_by (dget "step") (dicts_of steps) = Ok sbn /\
    keyed_by (dget "step") (plan_approvals approvals plan_id) = Ok abs /\
    r = head (omap (fun g => complete_view g (members_for sbn abs replies groups g)) (groups_descending groups)).
Proof.
  unfold latest_complete_group. fold groups. case_decide; [intros [= <-]; by left|].
  intros (sbn & Hs & (abs & Ha & [= <-])%bind_Ok)%bind_Ok. right; eauto 6.
Qed.

Lemma status_shape r :
  latest_group_status steps approvals replies plan_id = Ok r ->
  groups = ∅ /\ r = None \/
  exists sbn abs, keyed_by (dget "step") (dicts_of steps) = Ok sbn /\
    keyed_by (dget "step") (plan_approvals approvals plan_id) = Ok abs /\
    r = head (omap (fun g => status_view g (members_for sbn abs replies groups g)) (groups_descending groups)).
Proof.
  unfold latest_group_status. fold groups. case_decide; [intros [= <-]; by left|].
  intros (sbn & Hs & (abs & Ha & [= <-])%bind_Ok)%bind_Ok. right; eauto 6.
Qed.

Lemma group_members_of_eq sbn abs g :
  keyed_by (dget "step") (dicts_of steps) = Ok sbn ->
  keyed_by (dget "step") (plan_approvals approvals plan_id) = Ok abs ->
  group_members_of steps approvals replies plan_id g = Ok (members_for sbn abs replies groups g).*1.
Proof. intros Hs Ha. unfold group_members_of. by rewrite Hs, Ha. Qed.

Lemma is_group_elem g : is_group steps g <-> g ∈ groups_descending groups.
Proof. by rewrite elem_of_groups_descending. Qed.

(** The latest complete group, in terms of [group_members_of]. *)
Lemma complete_group_Some v :
  latest_complete_group steps approvals replies plan_id = Ok (Some v) ->
  is_group steps (gv_group v) /\
  group_members_of steps approvals replies plan_id (gv_group v) = Ok (gv_members v) /\
  Forall (fun m => reported m = true) (gv_members v) /\
  (forall g, is_group steps g -> (gv_group v < g)%Z ->
     exists ms m, group_members_of steps approvals replies plan_id g = Ok ms /\ m ∈ ms /\ reported m = false).
Proof.
  intros [[_ [=]]|(sbn & abs & Hs & Ha & Hh)]%complete_shape. symmetry in Hh.
  apply head_omap_Some in Hh as (l1 & g & l2 & Hl & Hv & Hn).
  apply complete_view_Some in Hv as (Hr & m & Hm & ->). cbn.
  assert (Hg : g ∈ groups_descending groups) by (rewrite Hl; set_solver).
  split_and!; [by apply is_group_elem|by apply group_members_of_eq| |].
  - apply Forall_fmap, Forall_forall. rewrite forallb_elem in Hr. apply Hr.
  - intros g' Hg' Hlt. apply is_group_elem in Hg'.
    assert (Hin := groups_descending_first _ _ _ _ _ Hl Hg' Hlt).
    rewrite Forall_forall in Hn. apply Hn in Hin. apply complete_view_None in Hin as (m' & Hm' & Hr');
      [|by apply members_for_nonempty]. eexists _, m'. split_and!; [by apply group_members_of_eq|done|done].
Qed.

Lemma complete_group_None g :
  latest_complete_group steps approvals replies plan_id = Ok None -> is_group steps g ->
  exists ms m, group_members_of steps approvals replies plan_id g = Ok ms /\ m ∈ ms /\ reported m = false.
Proof.
  intros [[Hg _]|(sbn & abs & Hs & Ha & Hh)]%complete_shape Hin; [by apply no_groups in Hin|].
  symmetry in Hh. apply head_omap_None in Hh. rewrite Forall_forall in Hh. apply is_group_elem in Hin.
  destruct (proj1 (complete_view_None _ _ (members_for_nonempty _ _ _ _ _ Hin)) (Hh _ Hin)) as (m & Hm & Hr).
  eexists _, m. split_and!; [by apply group_members_of_eq|done|done].
Qed.

Lemma status_group_Some v :
  latest_group_status steps approvals replies plan_id = Ok (Some v) ->
  is_group steps (gv_group v) /\
  group_members_of steps approvals replies plan_id (gv_group v) = Ok (gv_members v) /\
  gv_reported v = Z.of_nat (length (List.filter reported (gv_members v))) /\
  (gv_complete v = true <-> Forall (fun m => reported m = true) (gv_members v)) /\
  (exists m, m ∈ gv_members v /\ reported m = true) /\
  (forall g ms, is_group steps g -> (gv_group v < g)%Z ->
     group_members_of steps approvals replies plan_id g = Ok ms -> Forall (fun m => reported m = false) ms).
Proof.
  intros [[_ [=]]|(sbn & abs & Hs & Ha & Hh)]%status_shape. symmetry in Hh.
  apply head_omap_Some in Hh as (l1 & g & l2 & Hl & Hv & Hn).
  assert (Hg : g ∈ groups_descending groups) by (rewrite Hl; set_solver).
  unfold status_view in Hv. destruct (last _) as [m|] eqn:Hm; [|done]. injection Hv as <-. cbn.
  split_and!; [by apply is_group_elem|by apply group_members_of_eq|done| | |].
  - rewrite Nat.eqb_eq. symmetry. apply filter_all_length.
  - apply last_Some_elem_of in Hm. apply list_elem_of_In, filter_In in Hm as [Hm Hr].
    rewrite <- list_elem_of_In in Hm. eauto.
  - intros g' ms Hg' Hlt. rewrite (group_members_of_eq _ _ _ Hs Ha). intros [= <-].
    apply is_group_elem in Hg'. rewrite Forall_forall in Hn.
    eapply (proj1 (status_view_None _ _)), Hn. by eapply groups_descending_first.
Qed.
End selector_shape.

Lemma group_members_steps `{PyRepr} steps approvals replies plan_id g ms :
  group_members_of steps approvals replies plan_id g = Ok ms ->
  m_step <$> ms = group_steps (review_group_numbers steps) g.
Proof. intros (sbn & _ & (abs & _ & [= <-])%bind_Ok)%bind_Ok. apply members_for_steps. Qed.

Lemma complete_group_complete `{PyRepr} steps approvals replies plan_id v :
  latest_complete_group steps approvals replies plan_id = Ok (Some v) -> gv_complete v = true.
Proof.
  intros [[_ [=]]|(sbn & abs & _ & _ & Hh)]%complete_shape. symmetry in Hh.
  apply head_omap_Some in Hh as (_ & g & _ & _ & Hv & _). by apply complete_view_Some in Hv as (_ & m & _ & ->).
Qed.

Section selector_agreement.
Context `{PyRepr}.
Context (steps approvals replies : list pyval) (plan_id : string).

Lemma group_members_of_nonempty g ms :
  is_group steps g -> group_members_of steps approvals replies plan_id g = Ok ms -> exists m, m ∈ ms.
Proof.
  intros Hg (sbn & _ & (abs & _ & [= <-])%bind_Ok)%bind_Ok. apply is_group_elem in Hg.
  destruct (members_for sbn abs replies (review_group_numbers steps) g) as [|x l] eqn:He.
  - by apply (members_for_nonempty sbn abs replies _ _ Hg) in He.
  - exists x.1. by left.
Qed.

Lemma status_covers s g ms m :
  latest_group_status steps approvals replies plan_id = Ok s -> is_group steps g ->
  group_members_of steps approvals replies plan_id g = Ok ms -> m ∈ ms -> reported m = true ->
  exists sv, s = Some sv /\ (g <= gv_group sv)%Z.
Proof.
  intros Hs Hg Hms Hm Hr. destruct s as [sv|].
  - exists sv. split; [done|]. destruct (Z.le_gt_cases g (gv_group sv)) as [|Hlt]; [done|exfalso].
    apply status_group_Some in Hs as (_ & _ & _ & _ & _ & Hl). specialize (Hl g ms Hg Hlt Hms).
    rewrite Forall_forall in Hl. by rewrite (Hl _ Hm) in Hr.
  - exfalso. apply status_shape in Hs as [[He _]|(sbn & abs & Hs & Ha & Hh)]; [by eapply no_groups|].
    symmetry in Hh. apply head_omap_None in Hh. rewrite Forall_forall in Hh.
    apply is_group_elem, Hh, status_view_None in Hg.
    rewrite (group_members_of_eq _ _ _ _ _ _ _ Hs Ha) in Hms. injection Hms as <-.
    rewrite Forall_forall in Hg. by rewrite (Hg _ Hm) in Hr.
Qed.

Lemma status_complete_agrees c sv :
  latest_complete_group steps approvals replies plan_id = Ok c ->
  latest_group_status steps approvals replies plan_id = Ok (Some sv) -> gv_complete sv = true ->
  exists cv, c = Some cv /\ gv_group cv = gv_group sv /\ gv_members cv = gv_members sv.
Proof.
  intros Hc (Hg & Hms & _ & Hall & _ & Hl)%status_group_Some Hcomp.
  apply Hall in Hcomp. rewrite Forall_forall in Hcomp. destruct c as [cv|].
  - apply complete_group_Some in Hc as (Hcg & Hcm & Hcr & Hcl).
    destruct (Z.lt_trichotomy (gv_group cv) (gv_group sv)) as [Hlt|[Heq|Hgt]].
    + destruct (Hcl _ Hg Hlt) as (ms & m & Hms' & Hm & Hr). rewrite Hms in Hms'. injection Hms' as <-.
      by rewrite (Hcomp _ Hm) in Hr.
    + exists cv. split_and!; [done|done|]. rewrite Heq in Hcm. congruence.
    + specialize (Hl _ _ Hcg Hgt Hcm). destruct (group_members_of_nonempty _ _ Hcg Hcm) as [m Hm].
      rewrite Forall_forall in Hl, Hcr. specialize (Hl _ Hm). specialize (Hcr _ Hm). congruence.
  - destruct (complete_group_None _ _ _ _ _ Hc Hg) as (ms & m & Hms' & Hm & Hr).
    rewrite Hms in Hms'. injection Hms' as <-. by rewrite (Hcomp _ Hm) in Hr.
Qed.
End selector_agreement.

(** When the trigger selector picks a group, it is a group of the plan,
    its members are exactly the steps carrying its mark in ascending order, every
    member reported a verdict that rests on a recorded reply to that step's
    message, and every later group still has a member that has not reported;
    when it picks none, every group has such a member.  So an incomplete group
    never triggers an iteration round. *)
Lemma latest_complete_group_spec `{PyRepr} steps approvals replies plan_id r :
  latest_complete_group steps approvals replies plan_id = Ok r ->
  match r with
  | Some v =>
      is_group steps (gv_group v) /\
      m_step <$> gv_members v = group_steps (review_group_numbers steps) (gv_group v) /\
      Forall (fun m => reported m = true) (gv_members v) /\
      Forall (backed_by approvals replies plan_id) (gv_members v) /\
      gv_complete v = true /\
      (exists m, last (gv_members v) = Some m /\ gv_last_reply_id v = m_reply_id m) /\
      (forall g, is_group steps g -> (gv_group v < g)%Z ->
         exists ms m, group_members_of steps approvals replies plan_id g = Ok ms /\ m ∈ ms /\ reported m = false)
  | None =>
      forall g, is_group steps g ->
        exists ms m, group_members_of steps approvals replies plan_id g = Ok ms /\ m ∈ ms /\ reported m = false
  end.
Proof.
  destruct r as [v|]; [|intros Hr g; by apply complete_group_None].
  intros Hr. destruct (complete_group_Some _ _ _ _ _ Hr) as (Hg & Hm & Hrep & Hl).
  apply complete_shape in Hr as [[_ [=]]|(sbn & abs & Hs & Ha & Hh)].
  rewrite (group_members_of_eq _ _ _ _ _ _ _ Hs Ha) in Hm. injection Hm as Hm.
  symmetry in Hh. apply head_omap_Some in Hh as (l1 & g & l2 & _ & Hv & _).
  apply complete_view_Some in Hv as (_ & m & Hlast & ->). cbn in *.
  split_and!; [done|apply members_for_steps|done|by eapply members_for_backed|done| |done].
  exists m.1. by rewrite fmap_last, Hlast.
Qed.

(** The display and gate selector never hides a verdict: it shows a group
    at least as late as every group with a reported member, counts the reported
    members exactly, and agrees with the trigger selector: a group it shows as
    complete is the one the trigger selects with the same members, and a group
    the trigger selects is shown, or a later, incomplete one is. *)
Lemma group_status_covers_complete `{PyRepr} steps approvals replies plan_id c s :
  latest_complete_group steps approvals replies plan_id = Ok c ->
  latest_group_status steps approvals replies plan_id = Ok s ->
  (forall g ms m, is_group steps g -> group_members_of steps approvals replies plan_id g = Ok ms ->
     m ∈ ms -> reported m = true -> exists sv, s = Some sv /\ (g <= gv_group sv)%Z) /\
  (forall sv, s = Some sv -> gv_complete sv = true ->
     exists cv, c = Some cv /\ gv_group cv = gv_group sv /\ gv_members cv = gv_members sv) /\
  (forall cv, c = Some cv -> exists sv, s = Some sv /\ (gv_group cv <= gv_group sv)%Z /\
     (gv_complete sv = true <-> gv_group cv = gv_group sv)).
Proof.
  intros Hc Hs. split; [intros g ms m ????; by eapply status_covers|].
  split; [intros sv -> ?; by eapply status_complete_agrees|].
  intros cv ->. pose proof Hc as Hc'. apply complete_group_Some in Hc' as (Hcg & Hcm & Hcr & Hcl).
  destruct (group_members_of_nonempty _ _ _ _ _ _ Hcg Hcm) as [m Hm]. rewrite Forall_forall in Hcr.
  destruct (status_covers _ _ _ _ _ _ _ m Hs Hcg Hcm Hm (Hcr _ Hm)) as (sv & -> & Hle).
  exists sv. split_and!; [done|done|]. split.
  - intros Hco. by destruct (status_complete_agrees _ _ _ _ _ _ Hc Hs Hco) as (cv' & [= <-] & Heq & _).
  - intros Heq. apply status_group_Some in Hs as (_ & Hms & _ & Hall & _). apply Hall.
    rewrite <- Heq, Hcm in Hms. injection Hms as <-. by apply Forall_forall.
Qed.

(** ** Aggregation: any fail blocks *)

Definition overall_text `{PyRepr} (m : member) : string := py_str (dget "overall" (default [] (m_verdict m))).
Definition member_items (m : member) : result (list pyval) :=
  py_iter (py_or (dget "criteria" (default [] (m_verdict m))) (PList [])).
Definition score_of (m : member) : option Z := exact_int (dget "score" (default [] (m_verdict m))).
(** The [(criterion, verdict)] texts a list of criteria entries contributes. *)
Definition item_pairs `{PyRepr} (items : list pyval) : list (string * string) :=
  (fun d => (py_str (dget "criterion" d), py_str (dget "verdict" d))) <$> dicts_of items.

(** The verdicts given to one criterion, in order, and their merge. *)
Definition votes (c : string) (pairs : list (string * string)) : list string :=
  omap (fun p => if String.eqb c p.1 then Some p.2 else None) pairs.
Definition merge_votes (vs : list string) : string :=
  if existsb (String.eqb "fail") vs then "fail"
  else default "pass" (find_first (fun v => negb (String.eqb v "pass")) vs).

Fixpoint mlookup (c : string) (m : merged) : option string :=
  match m with
  | [] => None
  | (c', v) :: m => if String.eqb c c' then Some v else mlookup c m
  end.

Section aggregate_lemmas.
Context `{PyRepr}.

Lemma aggregate_closed acc members r :
  foldM aggregate_step acc members = Ok r ->
  exists items, Forall2 (fun m its => member_items m = Ok its) members items /\
    ag_overall r = foldl worse (ag_overall acc) ((fun m => clamp_overall (overall_text m)) <$> members) /\
    ag_scores r = ag_scores acc ++ omap score_of members /\
    ag_merged r = foldl merge_item (ag_merged acc) (concat items).
Proof.
  revert acc; induction members as [|m members IH]; intros acc; cbn [foldM].
  - intros [= <-]. exists []. rewrite app_nil_r. by split_and!; [constructor|..].
  - intros (acc' & (its & Hi & [= <-])%bind_Ok & Hr)%bind_Ok.
    apply IH in Hr as (items & Hf & Ho & Hsc & Hm). exists (its :: items). cbn in *.
    split_and!; [by constructor|done| |by rewrite foldl_app].
    rewrite Hsc. unfold score_of at 2. destruct (exact_int _); cbn; by rewrite <- ?app_assoc.
Qed.

Lemma worse_severity a b x y :
  severity a = Some x -> severity b = Some y -> severity (worse a b) = Some (Z.max x y).
Proof.
  unfold worse. intros Ha Hb. rewrite Ha, Hb. cbn. destruct (Z.ltb_spec x y); [rewrite Hb|rewrite Ha]; f_equal; lia.
Qed.

Lemma clamp_severity v : exists x, severity (clamp_overall v) = Some x /\ (0 <= x <= 2)%Z.
Proof.
  unfold clamp_overall. destruct (severity v) as [x|] eqn:Hv; [|by exists 2%Z].
  exists x. split; [done|]. unfold severity in Hv. repeat destruct (String.eqb _ _); simplify_eq; lia.
Qed.

Lemma severity_inj a b x : severity a = Some x -> severity b = Some x -> a = b.
Proof.
  unfold severity. destruct (String.eqb_spec a "pass"), (String.eqb_spec b "pass"),
    (String.eqb_spec a "needs_changes"), (String.eqb_spec b "needs_changes"),
    (String.eqb_spec a "fail"), (String.eqb_spec b "fail"); subst; try done; congruence.
Qed.

Lemma fold_worse_severity o x l :
  severity o = Some x -> Forall (fun v => exists y, severity v = Some y) l ->
  severity (foldl worse o l) = Some (list_maxZ x (omap severity l)).
Proof.
  unfold list_maxZ. intros Ho Hl; revert o x Ho. induction Hl as [|v l [y Hy] _ IH]; intros o x Ho; [done|].
  cbn. rewrite Hy. cbn. apply IH. by apply worse_severity.
Qed.
End aggregate_lemmas.

Lemma list_maxZ_elem x l : list_maxZ x l ∈ x :: l.
Proof.
  unfold list_maxZ. revert x; induction l as [|y l IH]; intros x; cbn; [by left|].
  specialize (IH (Z.max x y)). apply elem_of_cons in IH as [->|IH]; [|set_solver].
  destruct (Z.max_spec x y) as [[_ ->]|[_ ->]]; set_solver.
Qed.

(** The severity of a member's clamped verdict. *)
Definition member_severity `{PyRepr} (m : member) : Z := default 0%Z (severity (clamp_overall (overall_text m))).

Lemma aggregate_overall `{PyRepr} members r :
  aggregate_group_verdicts members = Ok r ->
  severity (gr_overall r) = Some (list_maxZ 0 (member_severity <$> members)).
Proof.
  intros (acc & Hacc & [= <-])%bind_Ok. apply aggregate_closed in Hacc as (_ & _ & Ho & _ & _). cbn in *.
  rewrite Ho, (fold_worse_severity "pass" 0); [|done|].
  - do 2 f_equal. clear Ho. induction members as [|m ms IH]; [done|]. rewrite fmap_cons. cbn. unfold member_severity.
    destruct (clamp_severity (overall_text m)) as (x & -> & _). cbn. f_equal. exact IH.
  - apply Forall_fmap, Forall_forall. intros m _. destruct (clamp_severity (overall_text m)) as (x & Hx & _). eauto.
Qed.

Definition merge_update (current incoming : string) : string :=
  if negb (String.eqb current "fail") && (String.eqb incoming "fail" || String.eqb current "pass")
  then incoming else current.

Lemma find_first_app {A} (p : A -> bool) l k :
  find_first p (l ++ k) = match find_first p l with Some x => Some x | None => find_first p k end.
Proof.
  unfold find_first. rewrite List.filter_app. destruct (List.filter p l); done.
Qed.

Lemma merge_votes_snoc vs v : vs <> [] -> merge_votes (vs ++ [v]) = merge_update (merge_votes vs) v.
Proof.
  intros _. unfold merge_votes, merge_update. rewrite existsb_app, find_first_app.
  destruct (existsb _ vs) eqn:Hf; [done|]. rewrite existsb_elem_false in Hf.
  destruct (find_first _ vs) as [w|] eqn:Hw; cbn [existsb orb default find_first List.filter];
    rewrite (String.eqb_sym "fail" v).
  - apply find_first_Some in Hw as [Hin Hw]. apply Hf in Hin. rewrite String.eqb_sym in Hin.
    apply negb_true_iff in Hw. cbn. rewrite Hin, Hw.
    destruct (String.eqb_spec v "fail") as [->|]; done.
  - unfold find_first. cbn.
    destruct (String.eqb_spec v "fail") as [->|]; [done|]. destruct (String.eqb_spec v "pass") as [->|]; done.
Qed.

Lemma merge_votes_one v : merge_votes [v] = v.
Proof.
  unfold merge_votes, find_first. cbn [existsb List.filter]. rewrite (String.eqb_sym "fail" v).
  destruct (String.eqb_spec v "fail") as [->|]; [done|]. by destruct (String.eqb_spec v "pass") as [->|].
Qed.

Lemma mlookup_merge c k v m :
  mlookup c (merge_criterion k v m) =
  if String.eqb c k then Some (match mlookup c m with Some w => merge_update w v | None => v end)
  else mlookup c m.
Proof.
  induction m as [|[k' w] m IH]; cbn; [done|].
  destruct (String.eqb_spec k k') as [->|Hne]; cbn.
  - by destruct (String.eqb_spec c k').
  - rewrite IH. destruct (String.eqb_spec c k') as [->|]; [|done].
    by destruct (String.eqb_spec k' k) as [->|].
Qed.

Lemma merge_keys c k v m : c ∈ (merge_criterion k v m).*1 <-> c = k \/ c ∈ m.*1.
Proof.
  induction m as [|[k' w] m IH]; cbn; [set_solver|].
  destruct (String.eqb_spec k k') as [->|Hne]; cbn; rewrite !elem_of_cons, ?IH; tauto.
Qed.

Lemma merge_NoDup k v m : NoDup m.*1 -> NoDup (merge_criterion k v m).*1.
Proof.
  induction m as [|[k' w] m IH]; cbn; [intros _; apply NoDup_singleton|].
  intros [Hn Hd]%NoDup_cons. destruct (String.eqb_spec k k') as [->|Hne]; cbn; apply NoDup_cons; [done|].
  rewrite merge_keys. split; [|by apply IH]. intros [->|]; done.
Qed.

(** The three facts about the merged criteria, as one loop invariant. *)
Record merge_inv (pairs : list (string * string)) (m : merged) : Prop := {
  mi_nodup : NoDup m.*1;
  mi_value : forall c, mlookup c m = match votes c pairs with [] => None | vs => Some (merge_votes vs) end;
}.

Lemma merge_inv_step pairs m k v :
  merge_inv pairs m -> merge_inv (pairs ++ [(k, v)]) (merge_criterion k v m).
Proof.
  intros [Hd Hv]. split; [by apply merge_NoDup|]. intros c. rewrite mlookup_merge, Hv.
  unfold votes. rewrite omap_app. cbn. destruct (String.eqb c k); cbn; [|by rewrite app_nil_r].
  destruct (omap _ pairs) as [|w ws]; cbn [app]; [by rewrite merge_votes_one|].
  f_equal. symmetry. by apply (merge_votes_snoc (w :: ws)).
Qed.

Lemma merge_items_inv `{PyRepr} pairs m items :
  merge_inv pairs m -> merge_inv (pairs ++ item_pairs items) (foldl merge_item m items).
Proof.
  revert pairs m; induction items as [|i items IH]; intros pairs m Hm.
  - unfold item_pairs. cbn. by rewrite app_nil_r.
  - unfold item_pairs. rewrite dicts_of_cons. cbn [foldl]. destruct i; try exact (IH _ _ Hm).
    rewrite fmap_cons. specialize (IH _ _ (merge_inv_step _ _ (py_str (dget "criterion" d)) (py_str (dget "verdict" d)) Hm)).
    by rewrite <- app_assoc in IH.
Qed.

Lemma severity_facts `{PyRepr} m :
  (member_severity m = 0%Z <-> overall_text m = "pass") /\ (0 <= member_severity m <= 2)%Z /\
  (member_severity m = 2%Z <-> overall_text m = "fail" \/ severity (overall_text m) = None).
Proof.
  unfold member_severity, clamp_overall. generalize (overall_text m). intros v.
  destruct (severity v) as [x|] eqn:Hs.
  - rewrite Hs. cbn. unfold severity in Hs.
    destruct (String.eqb_spec v "pass") as [->|H1]; [injection Hs as <-|].
    { split_and!; [done|lia..|split; [lia|]]. by intros [|]. }
    destruct (String.eqb_spec v "needs_changes") as [->|H2]; [injection Hs as <-|].
    { split_and!; [split; [lia|done]|lia..|split; [lia|]]. by intros [|]. }
    destruct (String.eqb_spec v "fail") as [->|H3]; [injection Hs as <-|done].
    split_and!; [split; [lia|done]|lia..|split; [by left|done]].
  - cbn. split_and!; [split; [lia|intros ->; done]|lia..|split; [by right|done]].
Qed.

(** A group verdict is never more lenient than any member: the aggregate
    overall is always a contract value, its severity is the maximum of the
    members' (a value outside the table counts as [fail]), so it passes exactly
    when every member says [pass] and fails as soon as one says [fail] or
    something unknown; the score is the lowest reported one. *)
Lemma aggregate_any_fail_blocks `{PyRepr} members r :
  aggregate_group_verdicts members = Ok r ->
  gr_overall r ∈ ["pass"; "needs_changes"; "fail"] /\
  (gr_overall r = "pass" <-> Forall (fun m => overall_text m = "pass") members) /\
  (gr_overall r = "fail" <->
     Exists (fun m => overall_text m = "fail" \/ severity (overall_text m) = None) members) /\
  match omap score_of members with
  | [] => gr_score r = None
  | z :: zs => exists lo, gr_score r = Some lo /\ lo ∈ z :: zs /\ Forall (fun y => (lo <= y)%Z) (z :: zs)
  end.
Proof.
  intros Hr. pose proof (aggregate_overall _ _ Hr) as Ho.
  pose proof (fun m : member => severity_facts m) as Hsev.
  pose proof (list_maxZ_elem 0 (member_severity <$> members)) as Hin.
  pose proof (list_maxZ_ge 0 (member_severity <$> members)) as [Hge0 Hge].
  rewrite Forall_fmap, Forall_forall in Hge. cbn in Hge.
  assert (Hmax : (list_maxZ 0 (member_severity <$> members) <= 2)%Z).
  { apply elem_of_cons in Hin as [->|(m & -> & _)%list_elem_of_fmap]; [lia|]. apply Hsev. }
  split_and!.
  - unfold severity in Ho. rewrite !elem_of_cons.
    destruct (String.eqb_spec (gr_overall r) "pass"); [by left|].
    destruct (String.eqb_spec (gr_overall r) "needs_changes"); [by right; left|].
    destruct (String.eqb_spec (gr_overall r) "fail"); [by right; right; left|done].
  - rewrite Forall_forall. setoid_rewrite <- (proj1 (Hsev _)). split.
    + intros He m Hm. rewrite He in Ho. injection Ho as Ho. specialize (Hge m Hm). pose proof (Hsev m). lia.
    + intros Hall. apply (severity_inj _ _ 0%Z); [|done]. rewrite Ho. f_equal.
      apply elem_of_cons in Hin as [->|(m & -> & Hm)%list_elem_of_fmap]; [done|]. auto.
  - rewrite Exists_exists. setoid_rewrite <- (proj2 (proj2 (Hsev _))). split.
    + intros He. rewrite He in Ho. injection Ho as Ho.
      apply elem_of_cons in Hin as [Hz|(m & Hz & Hm)%list_elem_of_fmap]; [lia|].
      exists m. split; [done|]. lia.
    + intros (m & Hm & H2). apply (severity_inj _ _ 2%Z); [|done]. rewrite Ho. f_equal.
      specialize (Hge m Hm). lia.
  - apply bind_Ok in Hr as (acc & Hacc & [= <-]). apply aggregate_closed in Hacc as (_ & _ & _ & -> & _).
    cbn. destruct (omap score_of members) as [|z zs]; [done|]. exists (list_minZ z zs).
    pose proof (list_minZ_le z zs) as [H1 H2]. split_and!; [done|apply list_minZ_elem|by constructor].
Qed.

(** The merged criteria list every criterion of the members exactly once;
    its verdict is [fail] when any member fails it, otherwise the first verdict
    that is not [pass], otherwise [pass].  Aggregation fails exactly when some
    member's criteria value is not iterable. *)
Lemma aggregate_criteria_merge `{PyRepr} members :
  match aggregate_group_verdicts members with
  | Ok r =>
      exists items, Forall2 (fun m its => member_items m = Ok its) members items /\
        NoDup (gr_criteria r).*1 /\
        forall c, mlookup c (gr_criteria r) =
          match votes c (item_pairs (concat items)) with [] => None | vs => Some (merge_votes vs) end
  | Err e => e = TypeError "object is not iterable" /\ Exists (fun m => is_ok (member_items m) = false) members
  end.
Proof.
  unfold aggregate_group_verdicts. destruct (foldM _ _ _) as [acc|e] eqn:Hacc; cbn.
  - apply aggregate_closed in Hacc as (items & Hi & _ & _ & ->). exists items. split; [done|].
    destruct (merge_items_inv [] [] (concat items)) as [Hd Hv]; [split; [constructor|done]|]. done.
  - generalize dependent (Agg "pass" [] []). induction members as [|m members IH]; intros acc; cbn [foldM]; [done|].
    intros [Hs|(acc' & _ & Hr)]%bind_Err.
    + apply bind_Err in Hs as [Hs|(? & _ & [=])]. fold (member_items m) in Hs. split.
      * unfold member_items, py_iter in Hs. destruct (py_or _ _); simplify_eq; done.
      * left. by rewrite Hs.
    + destruct (IH _ Hr) as [-> He]. split; [done|]. by right.
Qed.

(** ** Witnesses *)

#[local] Instance plain_repr : PyRepr := fun _ => "<repr>".

Definition group_plan : dict :=
  [("steps", PList [PDict [("step", PInt 7); ("role", PStr "planning")];
                    PDict [("step", PInt 9); ("role", PStr "review")]])].

Lemma expand_review_group_numbering_witness :
  exists out,
    dget "steps" (expand_review_group group_plan [("codex", "review"); ("kimi", "review")]) = PList (PDict <$> out) /\
    step_numbers (PDict <$> out) = range 1 (Z.of_nat (length out) + 1) /\
    NoDup (step_numbers (PDict <$> out)) /\
    (Forall (fun d => group_of (PDict d) = None)
       (dicts_of [PDict [("step", PInt 7); ("role", PStr "planning")];
                  PDict [("step", PInt 9); ("role", PStr "review")]]) ->
     forall k, group_size k out =
       if decide (1 <= k <= Z.of_nat (review_steps "review"
         [PDict [("step", PInt 7); ("role", PStr "planning")];
          PDict [("step", PInt 9); ("role", PStr "review")]]))%Z then 2 else 0).
Proof. apply expand_review_group_numbering; reflexivity. Defined.

Definition member_step (n : Z) (agent : string) : pyval :=
  PDict [("step", PInt n); ("agent_id", PStr agent); ("review_group", PInt 1)].
Definition step_approval (n : Z) (mid : string) : pyval :=
  PDict [("plan_id", PStr "p1"); ("step", PInt n); ("message_id", PStr mid)].
Definition verdict_reply (mid rid overall : string) : pyval :=
  PDict [("message_id", PStr mid); ("reply_id", PStr rid); ("verdict", PDict [("overall", PStr overall)])].

Definition sample_steps : list pyval := [member_step 2 "codex"; member_step 3 "kimi"].
Definition sample_approvals : list pyval := [step_approval 2 "m2"; step_approval 3 "m3"].
Definition sample_replies : list pyval := [verdict_reply "m3" "r3" "fail"; verdict_reply "m2" "r2" "pass"].
Definition sample_view : group_view :=
  GroupView 1 [Member 2 (PStr "codex") (PStr "r2") (Some [("overall", PStr "pass")]);
               Member 3 (PStr "kimi") (PStr "r3") (Some [("overall", PStr "fail")])] 2 true (PStr "r3") (Some 1%Z).

Lemma latest_complete_group_spec_witness :
  is_group sample_steps 1 /\
  Forall (backed_by sample_approvals sample_replies "p1") (gv_members sample_view) /\
  gv_complete sample_view = true.
Proof.
  destruct (latest_complete_group_spec sample_steps sample_approvals sample_replies "p1" (Some sample_view))
    as (H1 & _ & _ & H4 & H5 & _); [vm_compute; reflexivity|]. split_and!; [exact H1|exact H4|exact H5].
Defined.

Lemma group_status_covers_complete_witness :
  exists sv, latest_group_status sample_steps sample_approvals sample_replies "p1" = Ok (Some sv) /\
    (1 <= gv_group sv)%Z /\ (gv_complete sv = true <-> 1%Z = gv_group sv).
Proof.
  destruct (latest_group_status sample_steps sample_approvals sample_replies "p1") as [s|] eqn:Hs;
    [|vm_compute in Hs; discriminate Hs].
  destruct (group_status_covers_complete sample_steps sample_approvals sample_replies "p1" (Some sample_view) s)
    as (_ & _ & H3); [vm_compute; reflexivity|exact Hs|].
  destruct (H3 sample_view eq_refl) as (sv & -> & H4 & H5). exists sv. split_and!; [done|exact H4|exact H5].
Defined.

Lemma aggregate_any_fail_blocks_witness :
  exists r, aggregate_group_verdicts (gv_members sample_view) = Ok r /\
    (gr_overall r = "pass" <-> Forall (fun m => overall_text m = "pass") (gv_members sample_view)) /\
    gr_overall r = "fail".
Proof.
  destruct (aggregate_group_verdicts (gv_members sample_view)) as [r|] eqn:Hr; [|vm_compute in Hr; discriminate Hr].
  exists r. destruct (aggregate_any_fail_blocks _ _ Hr) as (_ & H2 & H3 & _). split_and!; [done|exact H2|].
  apply H3. right. left. left. vm_compute. reflexivity.
Defined.
