(* ===== verification/Json.v ===== *)
(** * JSON text

    [json.dumps(v, ensure_ascii=False, allow_nan=False, sort_keys=True,
    separators=(",", ":"))] and [json.loads(text, object_pairs_hook=hook,
    parse_constant=reject)] of the standard library, as the daemon's protocol
    uses them: the compact printer with sorted keys, and the scanner (strings
    with their escapes and surrogate pairs, numbers, arrays, objects, white
    space, nesting limit).  The text of a float and its value are parameters
    ([FloatText]) with the law of CPython ([float(repr(x)) == x]).

    A text is a byte string; a lone surrogate, which a Python string may hold
    and UTF-8 may not, is the three bytes its code point would have, so
    [valid_utf8] tells the strings that [encode] accepts.  A float too large
    for a double is the infinity: the value [2 ^ 1024] or more. *)
From S2P Require Import Prelude PyStr PyVal.
From Stdlib Require Import Ascii Sorted.

(** ** UTF-8 *)

Definition in_range (a b : N) (c : ascii) : bool := (a <=? byte_of c)%N && (byte_of c <=? b)%N.

(** What a strict UTF-8 decoder accepts: no overlong form, no surrogate,
    nothing above U+10FFFF. *)
Fixpoint valid_utf8 (s : string) : bool :=
  match s with
  | EmptyString => true
  | String a r =>
      if (byte_of a <? 128)%N then valid_utf8 r
      else match r with
      | EmptyString => false
      | String b r =>
          if in_range 194 223 a then is_cont b && valid_utf8 r
          else match r with
          | EmptyString => false
          | String c r =>
              if in_range 224 239 a
              then (if (byte_of a =? 224)%N then in_range 160 191 b
                    else if (byte_of a =? 237)%N then in_range 128 159 b
                    else is_cont b) && is_cont c && valid_utf8 r
              else match r with
              | EmptyString => false
              | String d r =>
                  in_range 240 244 a
                  && (if (byte_of a =? 240)%N then in_range 144 191 b
                      else if (byte_of a =? 244)%N then in_range 128 143 b
                      else is_cont b) && is_cont c && is_cont d && valid_utf8 r
              end
          end
      end
  end.

(** The bytes of one code point. *)
Definition utf8_of (n : N) : string :=
  if (n <? 128)%N then String (ascii_of_N n) ""
  else if (n <? 2048)%N
  then String (ascii_of_N (192 + n / 64)) (String (ascii_of_N (128 + n mod 64)) "")
  else if (n <? 65536)%N
  then String (ascii_of_N (224 + n / 4096)) (String (ascii_of_N (128 + n / 64 mod 64))
         (String (ascii_of_N (128 + n mod 64)) ""))
  else String (ascii_of_N (240 + n / 262144)) (String (ascii_of_N (128 + n / 4096 mod 64))
         (String (ascii_of_N (128 + n / 64 mod 64)) (String (ascii_of_N (128 + n mod 64)) ""))).

(** ** Numbers *)

(** A finite double in canonical form; at [2 ^ 1024] the double is infinite. *)
Definition float_finite (m e : Z) : bool :=
  (if (0 <=? e)%Z then Z.abs m * 2 ^ e <? 2 ^ 1024 else Z.abs m <? 2 ^ (1024 - e))%Z.
Definition is_double (m e : Z) : bool :=
  ((m =? 0) && (e =? 0) || Z.odd m && (Z.abs m <? 2 ^ 53) && (-1074 <=? e))%Z && float_finite m e.

Definition is_digit (c : ascii) : bool := in_range 48 57 c.

Fixpoint span_digits (s : string) : string * string :=
  match s with
  | String c r => if is_digit c then let '(d, t) := span_digits r in (String c d, t) else ("", s)
  | EmptyString => ("", "")
  end.

(** An optional minus sign and digits without a leading zero, then an optional
    fraction, then an optional exponent. *)
Definition scan_int (s : string) : option (string * string) :=
  let '(sign, r) := match s with
                    | String c r => if Ascii.eqb c "-" then ("-", r) else ("", s)
                    | EmptyString => ("", s)
                    end in
  match r with
  | String c r' =>
      if Ascii.eqb c "0" then Some (sign +:+ "0", r')
      else if is_digit c then let '(d, t) := span_digits r in Some (sign +:+ d, t)
      else None
  | EmptyString => None
  end.
Definition scan_frac (s : string) : string * string :=
  match s with
  | String c r =>
      if Ascii.eqb c "."
      then match span_digits r with (EmptyString, _) => ("", s) | (d, t) => (String c d, t) end
      else ("", s)
  | EmptyString => ("", s)
  end.
Definition scan_exp (s : string) : string * string :=
  match s with
  | String c r =>
      if Ascii.eqb c "e" || Ascii.eqb c "E"
      then let '(sign, r') := match r with
                              | String p r' => if Ascii.eqb p "+" || Ascii.eqb p "-"
                                               then (String p "", r') else ("", r)
                              | EmptyString => ("", r)
                              end in
           match span_digits r' with (EmptyString, _) => ("", s) | (d, t) => (String c (sign +:+ d), t) end
      else ("", s)
  | EmptyString => ("", s)
  end.

(** The number's text, whether it is a float, and what follows it. *)
Definition scan_number (s : string) : option (string * bool * string) :=
  '(i, r) ← scan_int s;
  let '(f, r) := scan_frac r in
  let '(x, r) := scan_exp r in
  Some (i +:+ f +:+ x, negb (String.eqb (f +:+ x) ""), r).

Fixpoint digits_value (acc : Z) (s : string) : Z :=
  match s with
  | String c r => digits_value (acc * 10 + (Z.of_N (byte_of c) - 48))%Z r
  | EmptyString => acc
  end.
Definition max_str_digits : nat := 4300.

(** [int(text)] of a scanned integer; [repr] of an integer. *)
Definition int_value (s : string) : option Z :=
  let '(neg, d) := match s with
                   | String c r => if Ascii.eqb c "-" then (true, r) else (false, s)
                   | EmptyString => (false, s)
                   end in
  if Nat.leb (String.length d) max_str_digits
  then Some (if neg then - digits_value 0 d else digits_value 0 d)%Z else None.
Definition int_text (z : Z) : result string :=
  if Nat.leb (String.length (pretty (Z.to_N (Z.abs z)))) max_str_digits
  then Ok (pretty z) else Err (ValueError "Exceeds the limit for integer string conversion").

(** The text of a float, and the double (or infinity) nearest to a text. *)
Class FloatText := {
  float_repr : Z -> Z -> string;
  float_of_text : string -> Z * Z
}.
Class FloatTextLaws `{FloatText} := {
  float_repr_number m e : is_double m e = true -> scan_number (float_repr m e) = Some (float_repr m e, true, "");
  float_of_repr m e : is_double m e = true -> float_of_text (float_repr m e) = (m, e)
}.

(** ** Printing *)

Definition dq : ascii := ascii_of_N 34.
Definition bs : ascii := ascii_of_N 92.

Definition hex_digit (n : N) : ascii := ascii_of_N (if (n <? 10)%N then 48 + n else 87 + n)%N.

Definition escape_char (c : ascii) : string :=
  match byte_of c with
  | 34 => String bs (String dq "")
  | 92 => String bs (String bs "")
  | 10 => String bs "n"
  | 13 => String bs "r"
  | 9 => String bs "t"
  | 12 => String bs "f"
  | 8 => String bs "b"
  | n => if n <? 32
         then String bs ("u00" +:+ String (hex_digit (n / 16)) (String (hex_digit (n mod 16)) ""))
         else String c ""
  end%N.
Fixpoint escape (s : string) : string :=
  match s with EmptyString => "" | String c r => escape_char c +:+ escape r end.
Definition json_string (s : string) : string := String dq (escape s +:+ String dq "").

(** [sorted(d.items())]: by key, in code point order, which is byte order. *)
Fixpoint insert_key {A} (kv : string * A) (l : list (string * A)) : list (string * A) :=
  match l with
  | [] => [kv]
  | kv' :: l' => if String.leb kv.1 kv'.1 then kv :: l else kv' :: insert_key kv l'
  end.
Fixpoint sort_keys {A} (l : list (string * A)) : list (string * A) :=
  match l with [] => [] | kv :: l => insert_key kv (sort_keys l) end.

Definition brackets (o c : ascii) (items : list string) : string :=
  String o (join "," items +:+ String c "").

(** [json.dumps(v, sort_keys=True, separators=(",", ":"), allow_nan=False)],
    strings printed by [quoted]. *)
Fixpoint json_dumps_with `{FloatText} (quoted : string -> string) (v : pyval) : result string :=
  match v with
  | PNone => Ok "null"
  | PBool b => Ok (if b then "true" else "false")
  | PInt z => int_text z
  | PFloat m e =>
      if float_finite m e then Ok (float_repr m e)
      else Err (ValueError "Out of range float values are not JSON compliant")
  | PStr s => Ok (quoted s)
  | PList l | PTuple l => items ← mapR (json_dumps_with quoted) l; Ok (brackets "[" "]" items)
  | PDict d =>
      items ← mapR (fun kt : string * result string => t ← kt.2; Ok (quoted kt.1 +:+ ":" +:+ t))
                   (sort_keys (map (fun kv => (kv.1, json_dumps_with quoted kv.2)) d));
      Ok (brackets "{" "}" items)
  end.

(** With [ensure_ascii=False]. *)
Notation json_dumps_sorted := (json_dumps_with json_string).

(** With the default [ensure_ascii=True]: a character beyond ASCII as the
    escape of its code point, or of its surrogate pair. *)
Definition unicode_escape (n : N) : string :=
  String bs (String "u" (String (hex_digit (n / 4096)) (String (hex_digit (n / 256 mod 16))
    (String (hex_digit (n / 16 mod 16)) (String (hex_digit (n mod 16)) ""))))).
Definition escape_ascii_char (c : string) : string :=
  let n := ord c in
  if (n <? 127)%N then escape c
  else if (n <? 65536)%N then unicode_escape n
  else unicode_escape (55296 + (n - 65536) / 1024) +:+ unicode_escape (56320 + (n - 65536) mod 1024).
Definition json_string_ascii (s : string) : string :=
  String dq (concat_str (escape_ascii_char <$> chars s) +:+ String dq "").
Notation json_dumps_ascii := (json_dumps_with json_string_ascii).

(** [json.dumps(v, ensure_ascii=False, sort_keys=True)], with the default
    separators and [allow_nan]. *)
Definition spaced_brackets (o c : ascii) (items : list string) : string :=
  String o (join ", " items +:+ String c "").
Fixpoint json_dumps_spaced `{FloatText} (v : pyval) : result string :=
  match v with
  | PNone => Ok "null"
  | PBool b => Ok (if b then "true" else "false")
  | PInt z => int_text z
  | PFloat m e => Ok (if float_finite m e then float_repr m e else if (m <? 0)%Z then "-Infinity" else "Infinity")
  | PStr s => Ok (json_string s)
  | PList l | PTuple l => items ← mapR json_dumps_spaced l; Ok (spaced_brackets "[" "]" items)
  | PDict d =>
      items ← mapR (fun kt : string * result string => t ← kt.2; Ok (json_string kt.1 +:+ ": " +:+ t))
                   (sort_keys (map (fun kv => (kv.1, json_dumps_spaced kv.2)) d));
      Ok (spaced_brackets "{" "}" items)
  end.

(** ** Scanning *)

Fixpoint skip_ws (s : string) : string :=
  match s with
  | String c r => if in_range 9 10 c || (byte_of c =? 13)%N || (byte_of c =? 32)%N then skip_ws r else s
  | EmptyString => ""
  end.

Definition hex_val (c : ascii) : option N :=
  let n := byte_of c in
  if is_digit c then Some (n - 48)%N
  else if in_range 97 102 c then Some (n - 87)%N
  else if in_range 65 70 c then Some (n - 55)%N
  else None.
Definition hex4 (a b c d : ascii) : option N :=
  a ← hex_val a; b ← hex_val b; c ← hex_val c; d ← hex_val d;
  Some (((a * 16 + b) * 16 + c) * 16 + d)%N.

(** The character after a backslash. *)
Definition simple_escape (c : ascii) : option ascii :=
  match byte_of c with
  | 34 => Some dq
  | 92 => Some bs
  | 47 => Some c
  | 98 => Some (ascii_of_N 8)
  | 102 => Some (ascii_of_N 12)
  | 110 => Some (ascii_of_N 10)
  | 114 => Some (ascii_of_N 13)
  | 116 => Some (ascii_of_N 9)
  | _ => None
  end%N.

Definition prepend (p : string) (o : option (string * string)) : option (string * string) :=
  '(t, r) ← o; Some (p +:+ t, r).

(** The rest of a string literal after its opening quote. *)
Fixpoint scan_string (s : string) : option (string * string) :=
  match s with
  | EmptyString => None
  | String c r =>
      if Ascii.eqb c dq then Some ("", r)
      else if Ascii.eqb c bs then
        match r with
        | String x r =>
            if Ascii.eqb x "u" then
              match r with
              | String a (String b (String c (String d r))) =>
                  match hex4 a b c d with
                  | None => None
                  | Some n =>
                      if (55296 <=? n)%N && (n <=? 56319)%N then
                        match r with
                        | String x (String y (String a (String b (String c (String d r'))))) =>
                            if Ascii.eqb x bs && Ascii.eqb y "u" then
                              match hex4 a b c d with
                              | None => None
                              | Some m =>
                                  if (56320 <=? m)%N && (m <=? 57343)%N
                                  then prepend (utf8_of (65536 + (n - 55296) * 1024 + (m - 56320))%N) (scan_string r')
                                  else prepend (utf8_of n) (scan_string r)
                              end
                            else prepend (utf8_of n) (scan_string r)
                        | _ => prepend (utf8_of n) (scan_string r)
                        end
                      else prepend (utf8_of n) (scan_string r)
                  end
              | _ => None
              end
            else match simple_escape x with
                 | Some c => prepend (String c "") (scan_string r)
                 | None => None
                 end
        | EmptyString => None
        end
      else if (byte_of c <? 32)%N then None
      else prepend (String c "") (scan_string r)
  end.

Definition expect (c : ascii) (s : string) : option string :=
  match s with String x r => if Ascii.eqb x c then Some r else None | EmptyString => None end.
Definition literal (p : string) (v : pyval) (s : string) : option (pyval * string) :=
  r ← drop_prefix p s; Some (v, r).
Definition number_value `{FloatText} (t : string) (is_float : bool) : option pyval :=
  if is_float then Some (let '(m, e) := float_of_text t in PFloat m e) else PInt <$> int_value t.

(** [None] is an exception: [JSONDecodeError], what the hook raises, a number
    [int] refuses, or [RecursionError] when arrays and objects are nested more
    than [limit] deep.  Every call consumes a character before it recurses at
    the same kind, so a fuel of twice the length and one suffices
    ([scan_fuel_enough]). *)
Section scanner.
  Context `{FloatText}.
  Variable hook : dict -> option pyval.

Fixpoint scan_value (limit fuel : nat) (s : string) {struct fuel} : option (pyval * string) :=
    match fuel, s with
    | S fuel, String c r =>
        if Ascii.eqb c dq then '(t, r) ← scan_string r; Some (PStr t, r)
        else if Ascii.eqb c "{" then
          match limit with
          | O => None
          | S limit =>
              match expect "}" (skip_ws r) with
              | Some r => v ← hook []; Some (v, r)
              | None => '(kvs, r) ← scan_members limit fuel (skip_ws r); v ← hook kvs; Some (v, r)
              end
          end
        else if Ascii.eqb c "[" then
          match limit with
          | O => None
          | S limit =>
              match expect "]" (skip_ws r) with
              | Some r => Some (PList [], r)
              | None => '(l, r) ← scan_elements limit fuel (skip_ws r); Some (PList l, r)
              end
          end
        else if Ascii.eqb c "n" then literal "null" PNone s
        else if Ascii.eqb c "t" then literal "true" (PBool true) s
        else if Ascii.eqb c "f" then literal "false" (PBool false) s
        else '(t, x, r) ← scan_number s; v ← number_value t x; Some (v, r)
    | _, _ => None
    end
with scan_elements (limit fuel : nat) (s : string) {struct fuel} : option (list pyval * string) :=
    match fuel with
    | O => None
    | S fuel =>
        '(v, r) ← scan_value limit fuel s;
        match expect "]" (skip_ws r) with
        | Some r => Some ([v], r)
        | None =>
            r ← expect "," (skip_ws r);
            '(l, r) ← scan_elements limit fuel (skip_ws r); Some (v :: l, r)
        end
    end
with scan_members (limit fuel : nat) (s : string) {struct fuel} : option (dict * string) :=
    match fuel with
    | O => None
    | S fuel =>
        r ← expect dq s;
        '(k, r) ← scan_string r;
        r ← expect ":" (skip_ws r);
        '(v, r) ← scan_value limit fuel (skip_ws r);
        match expect "}" (skip_ws r) with
        | Some r => Some ([(k, v)], r)
        | None =>
            r ← expect "," (skip_ws r);
            '(l, r) ← scan_members limit fuel (skip_ws r); Some ((k, v) :: l, r)
        end
    end.

(** [json.loads(text, object_pairs_hook=hook, parse_constant=reject)] *)
Definition bom : string := utf8_of 65279.
Definition json_loads_with (limit : nat) (s : string) : option pyval :=
  if startswith bom s then None
  else '(v, r) ← scan_value limit (2 * String.length s + 2) (skip_ws s);
       if String.eqb (skip_ws r) "" then Some v else None.
End scanner.

(** ** Laws *)

(** *** String literals *)

Lemma prepend_nil o : prepend "" o = o.
Proof. by destruct o as [[]|]. Qed.

Lemma scan_escape_char c r : scan_string (escape_char c +:+ r) = prepend (String c "") (scan_string r).
Proof. by destruct c as [[] [] [] [] [] [] [] []]. Qed.

Lemma scan_json_string s r : scan_string (escape s +:+ String dq r) = Some (s, r).
Proof.
  induction s as [|c s IH]; [done|]. cbn [escape]. rewrite <- app_str_assoc, scan_escape_char, IH. done.
Qed.

Definition no_lf (s : string) : bool := all_ascii (fun c => negb (Ascii.eqb c "010")) s.

Lemma all_ascii_app p s t : all_ascii p (s +:+ t) = all_ascii p s && all_ascii p t.
Proof. induction s as [|c s IH]; cbn; [done|]. by rewrite IH, andb_assoc. Qed.

Lemma all_ascii_weaken (p q : ascii -> bool) s :
  (forall c, p c = true -> q c = true) -> all_ascii p s = true -> all_ascii q s = true.
Proof. intros H. induction s; cbn; [done|]. rewrite !andb_true_iff. naive_solver. Qed.

Lemma escape_no_lf s : no_lf (escape s) = true.
Proof.
  induction s as [|c s IH]; [done|]. cbn [escape]. unfold no_lf in *. rewrite all_ascii_app, IH, andb_true_r.
  by destruct c as [[] [] [] [] [] [] [] []].
Qed.

(** *** Decimal numbers *)

Lemma digits_value_app acc s t : digits_value acc (s +:+ t) = digits_value (digits_value acc s) t.
Proof. revert acc; induction s as [|c s IH]; intros acc; cbn; auto. Qed.

Lemma pretty_char_digit x : (x < 10)%N ->
  is_digit (pretty_N_char x) = true /\ (Z.of_N (byte_of (pretty_N_char x)) - 48 = Z.of_N x)%Z.
Proof.
  intros Hx. assert (x = 0 \/ x = 1 \/ x = 2 \/ x = 3 \/ x = 4 \/ x = 5 \/ x = 6 \/ x = 7 \/ x = 8 \/ x = 9)%N
    by lia. naive_solver.
Qed.

Definition head_ok (s : string) : Prop := match s with String c _ => c <> "0"%char | EmptyString => False end.

Lemma pretty_go_digits x : forall s, exists p,
  pretty_N_go x s = p +:+ s /\ all_ascii is_digit p = true
  /\ digits_value 0 p = Z.of_N x /\ (if decide (x = 0)%N then p = "" else head_ok p).
Proof.
  induction (N.lt_wf_0 x) as [x _ IH]; intros s.
  destruct (decide (x = 0)%N) as [->|Hx]; [by exists ""|].
  rewrite pretty_N_go_step by lia.
  destruct (pretty_char_digit (x mod 10)) as [Hd Hv]; [by apply N.mod_lt|].
  destruct (IH (x `div` 10)%N ltac:(by apply N.div_lt; [lia|]) (String (pretty_N_char (x `mod` 10)) s))
    as (p & -> & Hp & Hval & Hh).
  pose proof (N.div_mod x 10 ltac:(done)) as Hdm.
  exists (p +:+ String (pretty_N_char (x mod 10)) ""). split_and!.
  - by rewrite <- app_str_assoc.
  - rewrite all_ascii_app, Hp. cbn. by rewrite Hd.
  - rewrite digits_value_app, Hval. cbn [digits_value]. rewrite Hv. lia.
  - case_decide as Hz; [|by destruct p]. subst p. cbn. rewrite Hz in Hdm. rewrite N.mul_0_r, N.add_0_l in Hdm.
    rewrite <- Hdm. assert (x < 10)%N as Hs by (rewrite Hdm; by apply N.mod_lt).
    assert (x = 1 \/ x = 2 \/ x = 3 \/ x = 4 \/ x = 5 \/ x = 6 \/ x = 7 \/ x = 8 \/ x = 9)%N by lia.
    naive_solver.
Qed.

(** The decimal text of a natural number: digits, no leading zero, its value. *)
Lemma pretty_N_digits x : exists c p, pretty x = String c p
  /\ all_ascii is_digit (String c p) = true /\ digits_value 0 (String c p) = Z.of_N x
  /\ (c = "0"%char -> p = "").
Proof.
  unfold pretty, pretty_N. case_decide as Hx; [subst x; by exists "0"%char, ""|].
  destruct (pretty_go_digits x "") as (p & -> & Hp & Hv & Hh). rewrite decide_False in Hh by done.
  rewrite app_str_nil_r. destruct p as [|c p]; [done|]. exists c, p. by split_and!.
Qed.

(** What may follow a value in a compact document. *)
Definition ends (r : string) : bool :=
  match r with
  | EmptyString => true
  | String c _ => Ascii.eqb c "," || Ascii.eqb c "]" || Ascii.eqb c "}"
  end.

Lemma span_digits_app s d t r : ends r = true -> span_digits s = (d, t) -> span_digits (s +:+ r) = (d, t +:+ r).
Proof.
  intros Hr. revert d t; induction s as [|c s IH]; intros d t; cbn.
  - intros [= <- <-]. destruct r as [|c r]; [done|]. cbn in Hr |- *.
    by destruct c as [[] [] [] [] [] [] [] []].
  - destruct (is_digit c); [|by intros [= <- <-]]. destruct (span_digits s) as [d' t'] eqn:E.
    intros [= <- <-]. by rewrite (IH d' t').
Qed.

Lemma span_digits_all s : all_ascii is_digit s = true -> span_digits s = (s, "").
Proof. induction s as [|c s IH]; cbn; [done|]. intros [-> Hs]%andb_true_iff. by rewrite IH. Qed.

Lemma scan_int_app s i t r : ends r = true -> scan_int s = Some (i, t) -> scan_int (s +:+ r) = Some (i, t +:+ r).
Proof.
  intros Hr. unfold scan_int. destruct s as [|c s]; [done|]. cbn.
  destruct (Ascii.eqb c "-").
  - destruct s as [|c' s]; [done|]. cbn. destruct (Ascii.eqb c' "0"); [by intros [= <- <-]|].
    destruct (is_digit c'); [|done]. destruct (span_digits s) as [d k] eqn:E.
    intros [= <- <-]. by rewrite (span_digits_app _ _ _ _ Hr E).
  - cbn. destruct (Ascii.eqb c "0"); [by intros [= <- <-]|]. destruct (is_digit c); [|done].
    destruct (span_digits s) as [d k] eqn:E. intros [= <- <-]. by rewrite (span_digits_app _ _ _ _ Hr E).
Qed.

Lemma scan_frac_app s f t r : ends r = true -> scan_frac s = (f, t) -> scan_frac (s +:+ r) = (f, t +:+ r).
Proof.
  intros Hr. unfold scan_frac. destruct s as [|c s]; cbn.
  - intros [= <- <-]. destruct r as [|c r]; [done|]. by destruct c as [[] [] [] [] [] [] [] []].
  - destruct (Ascii.eqb c "."); [|by intros [= <- <-]]. destruct (span_digits s) as [d k] eqn:E.
    rewrite (span_digits_app _ _ _ _ Hr E). by destruct d; intros [= <- <-].
Qed.

Lemma scan_exp_app s x t r : ends r = true -> scan_exp s = (x, t) -> scan_exp (s +:+ r) = (x, t +:+ r).
Proof.
  intros Hr. unfold scan_exp. destruct s as [|c s]; cbn.
  - intros [= <- <-]. destruct r as [|c r]; [done|]. by destruct c as [[] [] [] [] [] [] [] []].
  - destruct (Ascii.eqb c "e" || Ascii.eqb c "E"); [|by intros [= <- <-]].
    destruct s as [|p s]; cbn.
    + intros [= <- <-]. destruct r as [|q r]; [done|].
      assert (Hq : Ascii.eqb q "+" || Ascii.eqb q "-" = false)
        by (by destruct q as [[] [] [] [] [] [] [] []]).
      rewrite Hq. pose proof (span_digits_app "" "" "" (String q r) Hr eq_refl) as E. cbn in E |- *.
      by rewrite E.
    + destruct (Ascii.eqb p "+" || Ascii.eqb p "-").
      * destruct (span_digits s) as [d k] eqn:E. rewrite (span_digits_app _ _ _ _ Hr E).
        by destruct d; intros [= <- <-].
      * destruct (span_digits (String p s)) as [d k] eqn:E. 
        pose proof (span_digits_app _ _ _ _ Hr E) as E'. cbn in E' |- *. rewrite E'.
        by destruct d; intros [= <- <-].
Qed.

Lemma scan_number_app s t x r : ends r = true ->
  scan_number s = Some (t, x, "") -> scan_number (s +:+ r) = Some (t, x, r).
Proof.
  intros Hr. unfold scan_number. destruct (scan_int s) as [[i a]|] eqn:Hi; [|done].
  rewrite (scan_int_app _ _ _ _ Hr Hi). cbn [mbind option_bind].
  destruct (scan_frac a) as [f b] eqn:Hf. rewrite (scan_frac_app _ _ _ _ Hr Hf).
  destruct (scan_exp b) as [e c] eqn:He. rewrite (scan_exp_app _ _ _ _ Hr He).
  intros [= <- <- ->]. done.
Qed.

Lemma scan_int_digits c p : all_ascii is_digit (String c p) = true -> (c = "0"%char -> p = "") ->
  scan_int (String c p) = Some (String c p, "") /\ scan_int (String "-" (String c p)) = Some (String "-" (String c p), "").
Proof.
  intros Hd Hz. assert (Ascii.eqb c "-" = false) as Hm.
  { cbn in Hd. apply andb_true_iff in Hd as [Hd _]. by destruct c as [[] [] [] [] [] [] [] []]. }
  unfold scan_int. rewrite Hm. change (Ascii.eqb "-" "-") with true. cbv iota beta.
  destruct (Ascii.eqb_spec c "0") as [->|]; [by rewrite Hz by done|].
  rewrite (span_digits_all _ Hd). cbn in Hd. by apply andb_true_iff in Hd as [-> _].
Qed.

Lemma int_text_scan z t r : int_text z = Ok t -> ends r = true ->
  scan_number (t +:+ r) = Some (t, false, r) /\ int_value t = Some z.
Proof.
  unfold int_text. destruct (Nat.leb _ _) eqn:Hlen; [|done]. intros [= <-] Hr.
  destruct (pretty_N_digits (Z.to_N (Z.abs z))) as (c & p & E & Hd & Hv & Hz). rewrite E in Hlen.
  destruct (scan_int_digits c p Hd Hz) as [Hs Hs'].
  assert (Ascii.eqb c "-" = false) as Hm.
  { cbn in Hd. apply andb_true_iff in Hd as [Hd _]. by destruct c as [[] [] [] [] [] [] [] []]. }
  assert (pretty z = if (z <? 0)%Z then String "-" (String c p) else String c p) as ->.
  { destruct z as [|q|q]; [exact E|exact E|exact (f_equal (String "-") E)]. }
  destruct (Z.ltb_spec z 0); (split; [apply scan_number_app; [done|]; unfold scan_number|]);
    rewrite ?Hs, ?Hs'; cbn [mbind option_bind scan_frac scan_exp];
    rewrite ?app_str_nil_r; try done.
  - unfold int_value. change (Ascii.eqb "-" "-") with true. cbv iota.
    rewrite Hlen, Hv. f_equal. lia.
  - unfold int_value. rewrite Hm, Hlen, Hv. f_equal. lia.
Qed.

(** *** Sorting by key *)

Section sort_keys.
  Context {A : Type}.
  Implicit Types (l : list (string * A)).

Lemma insert_key_perm kv l : insert_key kv l ≡ₚ kv :: l.
Proof.
  induction l as [|kv' l IH]; cbn; [done|]. destruct (String.leb kv.1 kv'.1); [done|].
  rewrite IH. apply Permutation_swap.
Qed.

Lemma sort_keys_perm l : sort_keys l ≡ₚ l.
Proof. induction l as [|kv l IH]; cbn; [done|]. by rewrite insert_key_perm, IH. Qed.

Lemma sort_keys_map {B} (f : string * A -> B) l :
  sort_keys (map (fun kv => (kv.1, f kv)) l) = map (fun kv => (kv.1, f kv)) (sort_keys l).
Proof.
  assert (Hi : forall kv k, insert_key (kv.1, f kv) (map (fun kv => (kv.1, f kv)) k)
                       = map (fun kv => (kv.1, f kv)) (insert_key kv k)).
  { intros kv k; induction k as [|kv' k IH]; cbn; [done|]. destruct (String.leb kv.1 kv'.1); cbn; [done|].
    by rewrite IH. }
  induction l as [|kv l IH]; cbn; [done|]. by rewrite IH, Hi.
Qed.
End sort_keys.

(** The value a sorted printing denotes: every dictionary in key order. *)
Fixpoint sort_val (v : pyval) : pyval :=
  match v with
  | PList l => PList (map sort_val l)
  | PTuple l => PTuple (map sort_val l)
  | PDict d => PDict (sort_keys (map (fun kv => (kv.1, sort_val kv.2)) d))
  | v => v
  end.

(** Documents: no tuple, doubles in canonical form, distinct keys. *)
Fixpoint json_ok (v : pyval) : bool :=
  match v with
  | PFloat m e => is_double m e
  | PTuple _ => false
  | PList l => forallb json_ok l
  | PDict d => bool_decide (NoDup (dkeys d)) && forallb (fun kv => json_ok kv.2) d
  | _ => true
  end.

(** How deep the arrays and objects of a value are nested. *)
Fixpoint nest (v : pyval) : nat :=
  match v with
  | PList l | PTuple l => S (foldr (fun v n => Nat.max (nest v) n) 0 l)
  | PDict d => S (foldr (fun kv n => Nat.max (nest kv.2) n) 0 d)
  | _ => 0
  end.

Lemma foldr_max_le {A} (f : A -> nat) l n x : foldr (fun x n => Nat.max (f x) n) 0 l <= n -> x ∈ l -> f x <= n.
Proof. induction l as [|y l IH]; cbn; [by intros _ ?%not_elem_of_nil|]. intros H [->|Hx]%elem_of_cons; [lia|]. apply IH; [lia|done]. Qed.

(** *** The scanner reads what the printer wrote *)

Lemma length_app_str a b : String.length (a +:+ b) = String.length a + String.length b.
Proof. induction a; cbn; auto. Qed.

Definition num_start (c : ascii) : bool := Ascii.eqb c "-" || is_digit c.
Definition value_start (c : ascii) : bool :=
  num_start c || existsb (Ascii.eqb c) [dq; "{"; "["; "n"; "t"; "f"]%char.
Definition starts_value (t : string) : bool := match t with String c _ => value_start c | EmptyString => false end.

Lemma scan_number_head s t x r : scan_number s = Some (t, x, r) -> exists c s', s = String c s' /\ num_start c = true.
Proof.
  unfold scan_number, scan_int, num_start. destruct s as [|c s]; [done|].
  destruct (Ascii.eqb c "-") eqn:Hm; [intros _; exists c, s; split; [done|by rewrite Hm]|].
  destruct (Ascii.eqb_spec c "0") as [->|]; [intros _; by exists "0"%char, s|].
  destruct (is_digit c) eqn:Hd; [|done]. intros _. exists c, s. split; [done|by rewrite Hd, orb_true_r].
Qed.

Lemma skip_ws_value t r : starts_value t = true -> skip_ws (t +:+ r) = t +:+ r.
Proof. destruct t as [|c t]; [done|]. cbn [starts_value]. by destruct c as [[] [] [] [] [] [] [] []]. Qed.

Lemma expect_value c t r : starts_value t = true -> value_start c = false -> expect c (t +:+ r) = None.
Proof.
  destruct t as [|x t]; [done|]. cbn. intros Hx Hc. destruct (Ascii.eqb_spec x c); [congruence|done].
Qed.

Section roundtrip.
  Context {ft : FloatText} {laws : FloatTextLaws}.
  Variable hook : dict -> option pyval.
  Hypothesis hook_ok : forall d, NoDup (dkeys d) -> hook d = Some (PDict d).

Lemma dumps_start v t : json_ok v = true -> json_dumps_sorted v = Ok t -> starts_value t = true.
Proof.
  destruct v as [|b|z|m e|s|l|l|d]; cbn [json_ok json_dumps_with].
  - by intros _ [= <-].
  - intros _ [= <-]. by destruct b.
  - intros _ H. destruct (int_text_scan z t "" H eq_refl) as [Hs _]. rewrite app_str_nil_r in Hs.
    destruct (scan_number_head _ _ _ _ Hs) as (c & s' & -> & Hc). cbn. unfold value_start. by rewrite Hc.
  - intros Hd H. destruct (float_finite m e); [injection H as <-|done].
    destruct (scan_number_head _ _ _ _ (float_repr_number m e Hd)) as (c & s' & -> & Hc).
    cbn. unfold value_start. by rewrite Hc.
  - by intros _ [= <-].
  - intros _ H. by inv_ok.
  - done.
  - intros _ H. by inv_ok.
Qed.

Lemma scan_value_number limit fuel c s : num_start c = true ->
  scan_value hook limit (S fuel) (String c s)
  = '(t, x, r) ← scan_number (String c s); v ← number_value t x; Some (v, r).
Proof.
  intros Hc. assert (Ascii.eqb c dq = false /\ Ascii.eqb c "{" = false /\ Ascii.eqb c "[" = false
    /\ Ascii.eqb c "n" = false /\ Ascii.eqb c "t" = false /\ Ascii.eqb c "f" = false) as (H1 & H2 & H3 & H4 & H5 & H6)
    by (by destruct c as [[] [] [] [] [] [] [] []]).
  cbn [scan_value]. by rewrite H1, H2, H3, H4, H5, H6.
Qed.

(** [t] is read back as [v] (with its dictionaries in key order). *)
Definition reads (limit : nat) (v : pyval) (t : string) : Prop :=
  starts_value t = true /\ forall r fuel, ends r = true -> 2 * String.length (t +:+ r) + 1 <= fuel ->
    scan_value hook limit fuel (t +:+ r) = Some (sort_val v, r).

Lemma skip_sep c s : Ascii.eqb c "," || Ascii.eqb c "]" || Ascii.eqb c "}" || Ascii.eqb c ":" = true ->
  skip_ws (String c s) = String c s.
Proof. by destruct c as [[] [] [] [] [] [] [] []]. Qed.

Lemma expect_eq c s : expect c (String c s) = Some s.
Proof. cbn. by rewrite Ascii.eqb_refl. Qed.

Lemma expect_ne c x s : Ascii.eqb x c = false -> expect c (String x s) = None.
Proof. cbn. by intros ->. Qed.

(** Step over a separator the printer wrote. *)
Ltac separators :=
  repeat first [ rewrite skip_sep by done | rewrite expect_eq | rewrite expect_ne by done
               | progress cbn [mbind option_bind] ].

Lemma join_cons a b ts : join "," (a :: b :: ts) = a +:+ String "," (join "," (b :: ts)).
Proof. done. Qed.

Lemma scan_elements_join limit l ts : l <> [] -> Forall2 (reads limit) l ts ->
  forall r fuel, 2 * String.length (join "," ts +:+ String "]" r) + 2 <= fuel ->
  scan_elements hook limit fuel (join "," ts +:+ String "]" r) = Some (map sort_val l, r).
Proof.
  intros Hl H. induction H as [|v t l ts [Ht Hv] Hts IH]; [done|]. clear Hl. intros r fuel Hf.
  destruct fuel as [|fuel]; [lia|]. cbn [scan_elements]. destruct Hts as [|v' t' l ts Hv' Hts].
  - cbn [join] in *. rewrite Hv by (done || lia). by separators.
  - rewrite join_cons in *. rewrite <- app_str_assoc in *. cbn [String.append] in *.
    rewrite Hv by (done || lia). separators.
    rewrite skip_ws_value by (destruct Hv' as [Hs _]; destruct ts; [done|rewrite join_cons; by destruct t']).
    rewrite IH; [done|done|]. rewrite length_app_str in Hf. cbn [String.length] in Hf. lia.
Qed.

Definition member (kt : string * string) : string := json_string kt.1 +:+ ":" +:+ kt.2.

Lemma scan_members_join limit (d : dict) (ts : list string) : d <> [] -> Forall2 (fun kv t => reads limit kv.2 t) d ts ->
  forall r fuel, 2 * String.length (join "," (map member (zip (dkeys d) ts)) +:+ String "}" r) + 2 <= fuel ->
  scan_members hook limit fuel (join "," (map member (zip (dkeys d) ts)) +:+ String "}" r)
  = Some (map (fun kv => (kv.1, sort_val kv.2)) d, r).
Proof.
  intros Hl H. induction H as [|[k v] t d ts [Ht Hv] Hts IH]; [done|]. clear Hl. intros r fuel Hf.
  destruct fuel as [|fuel]; [lia|]. cbn [scan_members].
  assert (Hm : forall x, member (k, t) +:+ x = String dq (escape k +:+ String dq (String ":" (t +:+ x)))).
  { intros x. unfold member, json_string. cbn. by rewrite <- !app_str_assoc. }
  assert (Hstep : forall x, expect dq (member (k, t) +:+ x) = Some (escape k +:+ String dq (String ":" (t +:+ x)))).
  { intros x. by rewrite Hm. }
  destruct Hts as [|[k' v'] t' d ts Hv' Hts].
  - cbn [dkeys fmap list_fmap fst zip zip_with map join] in *. rewrite Hstep. cbn [mbind option_bind].
    rewrite scan_json_string. separators.
    rewrite skip_ws_value by done. rewrite Hv; [by separators|done|].
    rewrite Hm in Hf. cbn [String.length] in Hf. rewrite !length_app_str in Hf. cbn [String.length] in Hf.
    rewrite length_app_str in Hf. rewrite length_app_str. lia.
  - cbn [dkeys fmap list_fmap fst zip zip_with map] in *. rewrite join_cons in *.
    rewrite <- app_str_assoc in *. cbn [String.append] in *. rewrite Hstep. cbn [mbind option_bind].
    rewrite scan_json_string. separators.
    rewrite skip_ws_value by done.
    rewrite Hm in Hf. cbn [String.length] in Hf. rewrite !length_app_str in Hf. cbn [String.length] in Hf.
    rewrite length_app_str in Hf. cbn [String.length] in Hf.
    rewrite Hv; [|done|rewrite length_app_str; cbn [String.length]; lia].
    separators.
    rewrite skip_ws_value by (destruct ts, d; done).
    rewrite IH; [done|done|lia].
Qed.

Lemma scan_value_array limit fuel s :
  scan_value hook (S limit) (S fuel) (String "[" s)
  = match expect "]" (skip_ws s) with
    | Some r => Some (PList [], r)
    | None => '(l, r) ← scan_elements hook limit fuel (skip_ws s); Some (PList l, r)
    end.
Proof. done. Qed.

Lemma scan_value_object limit fuel s :
  scan_value hook (S limit) (S fuel) (String "{" s)
  = match expect "}" (skip_ws s) with
    | Some r => v ← hook []; Some (v, r)
    | None => '(kvs, r) ← scan_members hook limit fuel (skip_ws s); v ← hook kvs; Some (v, r)
    end.
Proof. done. Qed.

Lemma reads_array limit l ts : Forall2 (reads limit) l ts -> reads (S limit) (PList l) (brackets "[" "]" ts).
Proof.
  intros H. split; [done|]. intros r fuel Hr Hf. destruct fuel as [|fuel]; [lia|]. unfold brackets in *.
  cbn [String.append String.length] in *. rewrite <- app_str_assoc in *. cbn [String.append] in *.
  rewrite scan_value_array. destruct H as [|v t l ts Hv Hts]; [by cbn [join String.append]; separators|].
  assert (Hs : starts_value (join "," (t :: ts)) = true).
  { destruct Hv as [Hs _]. destruct ts; [done|]. rewrite join_cons. by destruct t. }
  rewrite skip_ws_value, expect_value by done.
  rewrite (scan_elements_join limit (v :: l)); [done|done|by constructor|lia].
Qed.

Lemma reads_object limit d ts : NoDup (dkeys d) -> Forall2 (fun kv t => reads limit kv.2 t) d ts ->
  forall r fuel, ends r = true ->
    2 * String.length (brackets "{" "}" (map member (zip (dkeys d) ts)) +:+ r) + 1 <= fuel ->
    scan_value hook (S limit) fuel (brackets "{" "}" (map member (zip (dkeys d) ts)) +:+ r)
    = Some (PDict (map (fun kv => (kv.1, sort_val kv.2)) d), r).
Proof.
  intros Hd H r fuel Hr Hf. destruct fuel as [|fuel]; [lia|]. unfold brackets in *.
  cbn [String.append String.length] in *. rewrite <- app_str_assoc in *. cbn [String.append] in *.
  rewrite scan_value_object. destruct H as [|[k v] t d ts Hv Hts].
  - cbn [dkeys fmap list_fmap zip zip_with map join String.append]. separators. by rewrite hook_ok by constructor.
  - assert (Hs : starts_value (join "," (map member (zip (dkeys ((k, v) :: d)) (t :: ts)))) = true).
    { cbn. by destruct d, ts. }
    rewrite skip_ws_value, expect_value by done.
    rewrite (scan_members_join limit ((k, v) :: d)); [|done|by constructor|lia].
    cbn [mbind option_bind]. rewrite hook_ok; [done|].
    unfold dkeys in *. by rewrite <- list_fmap_compose.
Qed.

Lemma sort_val_members (d : dict) :
  sort_keys (map (fun kv => (kv.1, sort_val kv.2)) d) = map (fun kv => (kv.1, sort_val kv.2)) (sort_keys d).
Proof. apply (sort_keys_map (fun kv => sort_val kv.2)). Qed.

Lemma dumps_items (d : dict) items :
  mapR (fun kt : string * result string => t ← kt.2; Ok (json_string kt.1 +:+ ":" +:+ t))
       (map (fun kv => (kv.1, json_dumps_sorted kv.2)) d) = Ok items ->
  exists ts, items = map member (zip (dkeys d) ts) /\ Forall2 (fun kv t => json_dumps_sorted kv.2 = Ok t) d ts.
Proof.
  intros H%mapR_Ok. revert items H.
  induction d as [|kv d IH]; intros items H; cbn in H; [apply Forall2_nil_inv_l in H as ->; by exists []|].
  apply Forall2_cons_inv_l in H as (t & ts & (x & Hx & [= <-])%bind_Ok & Hts & ->).
  destruct (IH _ Hts) as (xs & -> & Hxs). exists (x :: xs). split; [done|by constructor].
Qed.

(** The scanner reads a printed document back, its dictionaries in key order. *)
Lemma dumps_reads v : forall limit t, json_ok v = true -> nest v <= limit ->
  json_dumps_sorted v = Ok t -> reads limit v t.
Proof.
  induction v as [|b|z|m e|s|l IH|l IH|d IH] using pyval_ind'; intros limit t Hok Hn Ht;
    pose proof (dumps_start _ _ Hok Ht) as Hstart.
  - injection Ht as <-. split; [done|]. intros r [|fuel] Hr Hf; [lia|done].
  - injection Ht as <-. split; [done|]. intros r [|fuel] Hr Hf; [lia|]. by destruct b.
  - split; [done|]. intros r [|fuel] Hr Hf; [lia|].
    destruct (int_text_scan z t r Ht Hr) as [Hs Hv].
    destruct (scan_number_head _ _ _ _ Hs) as (c & s & Hc & Hnum). rewrite Hc, scan_value_number, <- Hc, Hs by done.
    cbn. by rewrite Hv.
  - split; [done|]. intros r [|fuel] Hr Hf; [lia|]. cbn [json_ok json_dumps_with] in *.
    destruct (float_finite m e); [injection Ht as <-|done].
    pose proof (scan_number_app _ _ _ r Hr (float_repr_number m e Hok)) as Hs.
    destruct (scan_number_head _ _ _ _ Hs) as (c & s & Hc & Hnum). rewrite Hc, scan_value_number, <- Hc, Hs by done.
    cbn. by rewrite float_of_repr.
  - injection Ht as <-. split; [done|]. intros r [|fuel] Hr Hf; [lia|]. unfold json_string. cbn [String.append].
    change (scan_value hook limit (S fuel) (String dq ((escape s +:+ String dq "") +:+ r)))
      with ('(t, r) ← scan_string ((escape s +:+ String dq "") +:+ r); Some (PStr t, r)).
    rewrite <- app_str_assoc. cbn [String.append]. by rewrite scan_json_string.
  - cbn [json_dumps_with] in Ht. apply bind_Ok in Ht as (ts & Hts & [= <-]). cbn [nest] in Hn.
    destruct limit as [|limit]; [lia|]. apply le_S_n in Hn. apply reads_array.
    apply mapR_Ok in Hts. cbn [json_ok] in Hok. rewrite forallb_elem in Hok.
    rewrite Forall2_same_length_lookup in Hts |- *. destruct Hts as [Hl Hts]. split; [done|].
    intros i x y Hx Hy. pose proof (list_elem_of_lookup_2 _ _ _ Hx) as Hin. rewrite Forall_forall in IH.
    apply (IH x Hin); [auto|by apply (foldr_max_le nest l)|by apply (Hts i)].
  - done.
  - cbn [json_dumps_with] in Ht. apply bind_Ok in Ht as (items & Hts & [= <-]). cbn [nest] in Hn.
    destruct limit as [|limit]; [lia|]. apply le_S_n in Hn. cbn [json_ok] in Hok.
    apply andb_true_iff in Hok as [Hd Hok]. apply bool_decide_eq_true in Hd. rewrite forallb_elem in Hok.
    rewrite (sort_keys_map (fun kv => json_dumps_sorted kv.2)) in Hts. 
    destruct (dumps_items _ _ Hts) as (ts & -> & Hts').
    assert (Hp : forall kv, kv ∈ sort_keys d -> kv ∈ d) by (intros kv; by rewrite sort_keys_perm).
    assert (Hr : Forall2 (fun kv t => reads limit kv.2 t) (sort_keys d) ts).
    { rewrite Forall2_same_length_lookup in Hts' |- *. destruct Hts' as [Hl Hts']. split; [done|].
      intros i x y Hx Hy. pose proof (Hp _ (list_elem_of_lookup_2 _ _ _ Hx)) as Hin. rewrite Forall_forall in IH.
      apply (IH x Hin); [by apply Hok|by apply (foldr_max_le (fun kv => nest kv.2) d)|by apply (Hts' i)]. }
    split; [done|]. intros r fuel Hends Hf. cbn [sort_val]. rewrite sort_val_members.
    apply reads_object; try done. unfold dkeys. by rewrite sort_keys_perm.
Qed.

(** [json.loads] after [json.dumps]. *)
Lemma loads_dumps limit v t : json_ok v = true -> nest v <= limit -> json_dumps_sorted v = Ok t ->
  json_loads_with hook limit t = Some (sort_val v).
Proof.
  intros Hok Hn Ht. destruct (dumps_reads v limit t Hok Hn Ht) as [Hs Hr]. unfold json_loads_with.
  assert (startswith bom t = false) as ->.
  { destruct t as [|c t]; [done|]. cbn [starts_value] in Hs. by destruct c as [[] [] [] [] [] [] [] []]. }
  pose proof (skip_ws_value t "" Hs) as Hw. specialize (Hr "" (2 * String.length t + 2) eq_refl).
  rewrite app_str_nil_r in Hw, Hr. by rewrite Hw, Hr by lia.
Qed.
End roundtrip.

(** *** A printed document is one line *)

Lemma span_digits_no_lf s : no_lf (span_digits s).1 = true.
Proof.
  induction s as [|c s IH]; cbn; [done|]. destruct (is_digit c) eqn:Hd; [|done].
  destruct (span_digits s) as [d t]. cbn in IH |- *. unfold no_lf in IH. rewrite IH, andb_true_r.
  by destruct c as [[] [] [] [] [] [] [] []].
Qed.

Lemma scan_number_no_lf s t x r : scan_number s = Some (t, x, r) -> no_lf t = true.
Proof.
  unfold scan_number. destruct (scan_int s) as [[i a]|] eqn:Hi; [|done]. cbn [mbind option_bind].
  destruct (scan_frac a) as [f b] eqn:Hf, (scan_exp b) as [e c] eqn:He. intros [= <- _ _].
  unfold no_lf. rewrite !all_ascii_app. apply andb_true_iff; split; [|apply andb_true_iff; split].
  - unfold scan_int in Hi. destruct s as [|y s]; [done|].
    destruct (Ascii.eqb y "-") eqn:Hy; [destruct s as [|z s]; [done|]; set (w := z) in *|set (w := y) in *];
      (destruct (Ascii.eqb w "0"); [by injection Hi as <- _|]; destruct (is_digit w); [|done];
       match type of Hi with context [span_digits ?q] =>
         pose proof (span_digits_no_lf q) as Hn; destruct (span_digits q) as [d k] end;
       by injection Hi as <- _).
  - unfold scan_frac in Hf. destruct a as [|y a]; [by injection Hf as <- _|].
    destruct (Ascii.eqb_spec y ".") as [->|]; [|by injection Hf as <- _].
    pose proof (span_digits_no_lf a) as Hn. destruct (span_digits a) as [d k].
    by destruct d; injection Hf as <- _.
  - unfold scan_exp in He. destruct b as [|y b]; [by injection He as <- _|].
    destruct (Ascii.eqb y "e" || Ascii.eqb y "E") eqn:Hy; [|by injection He as <- _].
    assert (Ascii.eqb y "010" = false) as Hl by (by destruct y as [[] [] [] [] [] [] [] []]).
    destruct b as [|p b]; [by injection He as <- _|].
    destruct (Ascii.eqb p "+" || Ascii.eqb p "-") eqn:Hp.
    + assert (Ascii.eqb p "010" = false) as Hpl by (by destruct p as [[] [] [] [] [] [] [] []]).
      pose proof (span_digits_no_lf b) as Hn. destruct (span_digits b) as [d k].
      destruct d; injection He as <- _; [done|]. cbn. by rewrite Hl, Hpl.
    + pose proof (span_digits_no_lf (String p b)) as Hn. destruct (span_digits (String p b)) as [d k].
      destruct d; injection He as <- _; [done|]. cbn. by rewrite Hl.
Qed.

Lemma join_no_lf ts : Forall (fun t => no_lf t = true) ts -> no_lf (join "," ts) = true.
Proof.
  induction 1 as [|t ts Ht Hts IH]; [done|]. destruct ts as [|t' ts]; [done|].
  rewrite join_cons. unfold no_lf in *. rewrite all_ascii_app, Ht. done.
Qed.

Lemma json_string_no_lf s : no_lf (json_string s) = true.
Proof.
  unfold json_string, no_lf. cbn. rewrite all_ascii_app. cbn. rewrite andb_true_r. apply escape_no_lf.
Qed.

Lemma dumps_no_lf `{FloatTextLaws} v : forall t, json_ok v = true -> json_dumps_sorted v = Ok t -> no_lf t = true.
Proof.
  assert (Hbr : forall o c ts, Ascii.eqb o "010" = false -> Ascii.eqb c "010" = false ->
    Forall (fun t => no_lf t = true) ts -> no_lf (brackets o c ts) = true).
  { intros o c ts Ho Hc Hts%join_no_lf. unfold brackets, no_lf in *. cbn. rewrite all_ascii_app, Hts. cbn.
    by rewrite Ho, Hc. }
  induction v as [|b|z|m e|s|l IH|l IH|d IH] using pyval_ind'; intros t Hok Ht.
  - by injection Ht as <-.
  - injection Ht as <-. by destruct b.
  - destruct (int_text_scan z t "" Ht eq_refl) as [Hs _]. by eapply scan_number_no_lf.
  - cbn [json_ok json_dumps_with] in *. destruct (float_finite m e); [injection Ht as <-|done].
    eapply scan_number_no_lf. by apply float_repr_number.
  - injection Ht as <-. apply json_string_no_lf.
  - cbn [json_dumps_with] in Ht. apply bind_Ok in Ht as (ts & Hts%mapR_Ok & [= <-]). apply Hbr; try done.
    cbn [json_ok] in Hok. rewrite forallb_elem in Hok. rewrite Forall_forall in IH. apply Forall_forall. intros t Hin.
    apply list_elem_of_lookup in Hin as (i & Hi). destruct (Forall2_lookup_r _ _ _ _ _ Hts Hi) as (x & Hx & Hd).
    apply list_elem_of_lookup_2 in Hx. eauto.
  - done.
  - cbn [json_dumps_with] in Ht. apply bind_Ok in Ht as (ts & Hts & [= <-]). apply Hbr; try done.
    cbn [json_ok] in Hok. apply andb_true_iff in Hok as [_ Hok]. rewrite forallb_elem in Hok.
    rewrite (sort_keys_map (fun kv => json_dumps_sorted kv.2)) in Hts. apply mapR_Ok in Hts.
    rewrite Forall_forall in IH. apply Forall_forall. intros t Hin.
    apply list_elem_of_lookup in Hin as (i & Hi). destruct (Forall2_lookup_r _ _ _ _ _ Hts Hi) as (x & Hx & Hd).
    apply list_elem_of_lookup_2, list_elem_of_In, in_map_iff in Hx as (kv & <- & Hkv%list_elem_of_In).
    rewrite sort_keys_perm in Hkv. cbn [fst snd] in Hd. apply bind_Ok in Hd as (u & Hu & Ht). assert (t = json_string kv.1 +:+ ":" +:+ u) as -> by congruence.
    unfold no_lf. rewrite all_ascii_app. apply andb_true_iff; split; [apply json_string_no_lf|]. cbn.
    apply (IH kv); auto.
Qed.

(** *** Sorting is invisible to [==] *)

Lemma py_eq_sort_val v : json_ok v = true -> py_eq (sort_val v) v = true.
Proof.
  induction v as [|b|z|m e|s|l IH|l IH|d IH] using pyval_ind'; cbn [json_ok]; intros Hok; try done.
  - cbn. apply num_eqb_refl.
  - cbn. apply num_eqb_refl.
  - cbn. apply num_eqb_refl.
  - cbn. apply String.eqb_refl.
  - cbn [sort_val]. induction IH as [|x l Hx _ IHl]; [done|]. cbn in Hok |- *.
    apply andb_true_iff in Hok as [H1 H2]. rewrite Hx by done. by apply IHl.
  - apply andb_true_iff in Hok as [Hd Hok]. apply bool_decide_eq_true in Hd. rewrite forallb_elem in Hok.
    cbn [sort_val]. rewrite sort_val_members. cbn [py_eq num_of]. rewrite length_map.
    rewrite (Permutation_length (sort_keys_perm d)), Nat.eqb_refl.
    cbn [andb]. assert (Hp : forall kv, kv ∈ sort_keys d -> kv ∈ d) by (intros kv; by rewrite sort_keys_perm).
    induction (sort_keys d) as [|[k x] k' IHk]; [done|]. cbn.
    rewrite (dlookup_NoDup k x d Hd) by (apply Hp; by left). rewrite Forall_forall in IH.
    assert (py_eq (sort_val x) x = true) as ->
      by (apply (IH (k, x)); [apply Hp; by left|apply (Hok (k, x)), Hp; by left]).
    apply IHk.
    intros kv Hkv. apply Hp. by right.
Qed.

(** *** Sorting twice is sorting once *)

Section sorted.
Context {A : Type}.
Implicit Types (l : list (string * A)).

Definition key_le (a b : string * A) : Prop := String.leb a.1 b.1 = true.

Lemma insert_key_sorted kv l : Sorted key_le l -> Sorted.Sorted key_le (insert_key kv l).
Proof.
  induction 1 as [|kv' l Hl IH Hd]; cbn; [by repeat constructor|].
  destruct (String.leb kv.1 kv'.1) eqn:E; [by repeat constructor|].
  constructor; [done|]. assert (key_le kv' kv) by (destruct (String.leb_total kv.1 kv'.1); [congruence|done]).
  destruct l as [|x l]; cbn; [by constructor|]. inversion Hd; subst. by destruct (String.leb kv.1 x.1); constructor.
Qed.
Lemma sort_keys_sorted l : Sorted key_le (sort_keys l).
Proof. induction l as [|kv l IH]; cbn; [constructor|]. by apply insert_key_sorted. Qed.

Lemma sort_keys_fixed l : Sorted key_le l -> sort_keys l = l.
Proof.
  induction 1 as [|kv l Hl IH Hd]; cbn; [done|]. rewrite IH. destruct l as [|x l]; cbn; [done|].
  inversion Hd; subst. match goal with H : key_le _ _ |- _ => unfold key_le in H; by rewrite H end.
Qed.
Lemma sort_keys_idemp l : sort_keys (sort_keys l) = sort_keys l.
Proof. apply sort_keys_fixed, sort_keys_sorted. Qed.
End sorted.

Lemma dumps_sort_val `{FloatText} v : json_dumps_sorted (sort_val v) = json_dumps_sorted v.
Proof.
  induction v as [|b|z|m e|s|l IH|l IH|d IH] using pyval_ind'; try done;
    cbn [sort_val json_dumps_with].
  1,2: f_equal; induction IH as [|x l Hx _ IHl]; cbn; [done|]; by rewrite Hx, IHl.
  rewrite sort_val_members, map_map. cbn [fst snd].
  rewrite (map_ext_in (fun kv => (kv.1, json_dumps_sorted (sort_val kv.2))) (fun kv => (kv.1, json_dumps_sorted kv.2))).
  - by rewrite <- (sort_keys_map (fun kv => json_dumps_sorted kv.2)), sort_keys_idemp.
  - intros kv Hkv%list_elem_of_In. rewrite sort_keys_perm in Hkv. rewrite Forall_forall in IH. by rewrite (IH kv).
Qed.

(** *** The fuel is enough *)

Lemma skip_ws_length s : String.length (skip_ws s) <= String.length s.
Proof. induction s as [|c s IH]; cbn; [done|]. case_match; cbn in *; lia. Qed.

Lemma expect_length c s r : expect c s = Some r -> String.length s = S (String.length r).
Proof. destruct s as [|x s]; cbn; [done|]. destruct (Ascii.eqb x c); [|done]. by intros [= ->]. Qed.

Lemma prepend_Some p o t r : prepend p o = Some (t, r) -> exists u, o = Some (u, r).
Proof. destruct o as [[u q]|]; cbn; [|done]. intros [= _ ->]. by exists u. Qed.

Lemma scan_string_length s : forall t r, scan_string s = Some (t, r) -> String.length r < String.length s.
Proof.
  induction s as [s IH] using (induction_ltof1 _ String.length). unfold ltof in IH. intros t r.
  destruct s as [|c s]; [done|]. cbn [scan_string]. intros H.
  repeat match type of H with context [match ?x with _ => _ end] =>
    lazymatch x with context [match _ with _ => _ end] => fail | _ => destruct x end; try discriminate H end;
  try (injection H as <- <-; cbn [String.length]; lia);
  apply prepend_Some in H as (u & H); apply IH in H; cbn [String.length] in *; lia.
Qed.

Lemma span_digits_split s : s = (span_digits s).1 +:+ (span_digits s).2.
Proof.
  induction s as [|c s IH]; cbn; [done|]. destruct (is_digit c); [|done].
  destruct (span_digits s) as [d t]. cbn in IH |- *. by rewrite <- IH.
Qed.

Lemma span_digits_length s d t : span_digits s = (d, t) -> String.length s = String.length d + String.length t.
Proof. intros H. pose proof (span_digits_split s) as Hs. rewrite H in Hs. rewrite Hs. apply length_app_str. Qed.

(** Destruct what a scanner of digits matches on, keeping lengths. *)
Ltac scan_cases H :=
  repeat match type of H with
  | context [span_digits ?s] =>
      let E := fresh "E" in destruct (span_digits s) as [? ?] eqn:E; apply span_digits_length in E
  | context [match ?x with _ => _ end] =>
      lazymatch x with context [match _ with _ => _ end] => fail | _ => destruct x end; try discriminate H
  end.

Lemma scan_number_length s t x r : scan_number s = Some (t, x, r) -> String.length r < String.length s.
Proof.
  unfold scan_number. destruct (scan_int s) as [[i a]|] eqn:Hi; [|done]. cbn [mbind option_bind].
  destruct (scan_frac a) as [f b] eqn:Hf, (scan_exp b) as [e c] eqn:He. intros [= _ _ <-].
  assert (String.length c <= String.length b).
  { unfold scan_exp in He. scan_cases He; injection He as <- <-; cbn [String.length] in *; lia. }
  assert (String.length b <= String.length a).
  { unfold scan_frac in Hf. scan_cases Hf; injection Hf as <- <-; cbn [String.length] in *; lia. }
  assert (String.length a < String.length s); [|lia].
  clear Hf He. unfold scan_int in Hi. destruct s as [|y s]; [done|].
  destruct (Ascii.eqb y "-"); [destruct s as [|z s]; [done|]; set (w := z) in *|set (w := y) in *];
    (destruct (Ascii.eqb w "0"); [injection Hi as <- <-; cbn [String.length]; lia|]);
    (destruct (is_digit w) eqn:Hw; [|done]); cbn [span_digits] in Hi; rewrite ?Hw in Hi;
    subst w; rewrite ?Hw in Hi; scan_cases Hi; injection Hi as <- <-; cbn [String.length] in *; lia.
Qed.

Section fuel.
  Context `{FloatText}.
  Variable hook : dict -> option pyval.

Lemma scan_value_S limit fuel s : scan_value hook limit (S fuel) s =
  match s with
  | EmptyString => None
  | String c r =>
      if Ascii.eqb c dq then '(t, r) ← scan_string r; Some (PStr t, r)
      else if Ascii.eqb c "{" then
        match limit with
        | O => None
        | S limit =>
            match expect "}" (skip_ws r) with
            | Some r => v ← hook []; Some (v, r)
            | None => '(kvs, r) ← scan_members hook limit fuel (skip_ws r); v ← hook kvs; Some (v, r)
            end
        end
      else if Ascii.eqb c "[" then
        match limit with
        | O => None
        | S limit =>
            match expect "]" (skip_ws r) with
            | Some r => Some (PList [], r)
            | None => '(l, r) ← scan_elements hook limit fuel (skip_ws r); Some (PList l, r)
            end
        end
      else if Ascii.eqb c "n" then literal "null" PNone s
      else if Ascii.eqb c "t" then literal "true" (PBool true) s
      else if Ascii.eqb c "f" then literal "false" (PBool false) s
      else '(t, x, r) ← scan_number s; v ← number_value t x; Some (v, r)
  end.
Proof. by destruct s. Qed.

Lemma scan_elements_S limit fuel s : scan_elements hook limit (S fuel) s =
  '(v, r) ← scan_value hook limit fuel s;
  match expect "]" (skip_ws r) with
  | Some r => Some ([v], r)
  | None =>
      r ← expect "," (skip_ws r);
      '(l, r) ← scan_elements hook limit fuel (skip_ws r); Some (v :: l, r)
  end.
Proof. done. Qed.

Lemma scan_members_S limit fuel s : scan_members hook limit (S fuel) s =
  r ← expect dq s;
  '(k, r) ← scan_string r;
  r ← expect ":" (skip_ws r);
  '(v, r) ← scan_value hook limit fuel (skip_ws r);
  match expect "}" (skip_ws r) with
  | Some r => Some ([(k, v)], r)
  | None =>
      r ← expect "," (skip_ws r);
      '(l, r) ← scan_members hook limit fuel (skip_ws r); Some ((k, v) :: l, r)
  end.
Proof. done. Qed.

Lemma scan_length fuel :
  (forall limit s v r, scan_value hook limit fuel s = Some (v, r) -> String.length r < String.length s)
  /\ (forall limit s l r, scan_elements hook limit fuel s = Some (l, r) -> String.length r < String.length s)
  /\ (forall limit s l r, scan_members hook limit fuel s = Some (l, r) -> String.length r < String.length s).
Proof.
  induction fuel as [|fuel (IHv & IHe & IHm)]; [done|].
  assert (Hlit : forall p w s v r, p <> "" -> literal p w s = Some (v, r) -> String.length r < String.length s).
  { intros p w s v r Hp. unfold literal. destruct (drop_prefix p s) as [q|] eqn:E; [|done].
    intros [= _ <-]. apply drop_prefix_spec in E as ->. rewrite length_app_str. destruct p; [done|cbn; lia]. }
  split_and!; intros limit s v r Hs; rewrite ?scan_value_S, ?scan_elements_S, ?scan_members_S in Hs.
  - destruct s as [|c s]; [done|]. cbn [String.length].
    destruct (Ascii.eqb c dq).
    { destruct (scan_string s) as [[t q]|] eqn:E; [|done]. injection Hs as <- <-.
      apply scan_string_length in E. lia. }
    destruct (Ascii.eqb c "{").
    { destruct limit as [|limit]; [done|]. pose proof (skip_ws_length s) as Hw.
      destruct (expect "}" (skip_ws s)) as [q|] eqn:E.
      - apply expect_length in E. destruct (hook []); [|done]. injection Hs as <- <-. lia.
      - destruct (scan_members _ _ _ _) as [[kvs q]|] eqn:Em; [|done]. cbn [mbind option_bind] in Hs.
        destruct (hook kvs); [|done]. injection Hs as <- <-. apply IHm in Em. lia. }
    destruct (Ascii.eqb c "[").
    { destruct limit as [|limit]; [done|]. pose proof (skip_ws_length s) as Hw.
      destruct (expect "]" (skip_ws s)) as [q|] eqn:E.
      - apply expect_length in E. injection Hs as <- <-. lia.
      - destruct (scan_elements _ _ _ _) as [[kvs q]|] eqn:Em; [|done].
        injection Hs as <- <-. apply IHe in Em. lia. }
    do 3 (destruct (Ascii.eqb c _); [by apply (Hlit _ _ (String c s)) in Hs|]).
    destruct (scan_number (String c s)) as [[[t x] q]|] eqn:E; [|done]. apply scan_number_length in E.
    cbn [mbind option_bind] in Hs. destruct (number_value t x); [|done]. by injection Hs as <- <-.
  - destruct (scan_value _ _ _ _) as [[w q]|] eqn:E; [|done]. apply IHv in E. cbn [mbind option_bind] in Hs.
    pose proof (skip_ws_length q). destruct (expect "]" (skip_ws q)) as [u|] eqn:E1.
    + apply expect_length in E1. injection Hs as <- <-. lia.
    + destruct (expect "," (skip_ws q)) as [u|] eqn:E2; [|done]. cbn [mbind option_bind] in Hs.
      destruct (scan_elements _ _ _ _) as [[kvs p]|] eqn:Em; [|done]. injection Hs as <- <-.
      apply IHe in Em. apply expect_length in E2. pose proof (skip_ws_length u). lia.
  - destruct (expect dq s) as [q|] eqn:E; [|done]. apply expect_length in E. cbn [mbind option_bind] in Hs.
    destruct (scan_string q) as [[k u]|] eqn:Ek; [|done]. apply scan_string_length in Ek. cbn [mbind option_bind] in Hs.
    pose proof (skip_ws_length u). destruct (expect ":" (skip_ws u)) as [p|] eqn:Ep; [|done].
    apply expect_length in Ep. cbn [mbind option_bind] in Hs. pose proof (skip_ws_length p).
    destruct (scan_value _ _ _ _) as [[w o]|] eqn:Ev; [|done]. apply IHv in Ev. cbn [mbind option_bind] in Hs.
    pose proof (skip_ws_length o). destruct (expect "}" (skip_ws o)) as [n|] eqn:E1.
    + apply expect_length in E1. injection Hs as <- <-. lia.
    + destruct (expect "," (skip_ws o)) as [n|] eqn:E2; [|done]. cbn [mbind option_bind] in Hs.
      destruct (scan_members _ _ _ _) as [[kvs m]|] eqn:Em; [|done]. injection Hs as <- <-.
      apply IHm in Em. apply expect_length in E2. pose proof (skip_ws_length n). lia.
Qed.

(** More fuel than twice the length and one (two inside an array or object)
    changes nothing: a [None] of [json_loads_with] is never for want of fuel. *)
Lemma scan_fuel_enough fuel :
  (forall limit s fuel', 2 * String.length s + 1 <= fuel -> 2 * String.length s + 1 <= fuel' ->
     scan_value hook limit fuel s = scan_value hook limit fuel' s)
  /\ (forall limit s fuel', 2 * String.length s + 2 <= fuel -> 2 * String.length s + 2 <= fuel' ->
     scan_elements hook limit fuel s = scan_elements hook limit fuel' s)
  /\ (forall limit s fuel', 2 * String.length s + 2 <= fuel -> 2 * String.length s + 2 <= fuel' ->
     scan_members hook limit fuel s = scan_members hook limit fuel' s).
Proof.
  induction fuel as [|fuel (IHv & IHe & IHm)]; [split_and!; intros; lia|].
  split_and!; intros limit s [|fuel'] H1 H2; try lia; rewrite ?scan_value_S, ?scan_elements_S, ?scan_members_S.
  - destruct s as [|c s]; [done|]. cbn [String.length] in *. pose proof (skip_ws_length s).
    destruct (Ascii.eqb c dq); [done|]. destruct (Ascii.eqb c "{").
    { destruct limit as [|limit]; [done|]. by rewrite (IHm limit (skip_ws s) fuel') by lia. }
    destruct (Ascii.eqb c "["); [|done].
    destruct limit as [|limit]; [done|]. by rewrite (IHe limit (skip_ws s) fuel') by lia.
  - rewrite (IHv limit s fuel') by lia. destruct (scan_value _ _ fuel' s) as [[v r]|] eqn:E; [|done].
    apply scan_length in E. cbn [mbind option_bind]. pose proof (skip_ws_length r).
    destruct (expect "]" (skip_ws r)); [done|]. destruct (expect "," (skip_ws r)) as [q|] eqn:E2; [|done].
    apply expect_length in E2. cbn [mbind option_bind]. pose proof (skip_ws_length q).
    by rewrite (IHe limit (skip_ws q) fuel') by lia.
  - destruct (expect dq s) as [q|] eqn:E; [|done]. apply expect_length in E. cbn [mbind option_bind].
    destruct (scan_string q) as [[k u]|] eqn:Ek; [|done]. apply scan_string_length in Ek. cbn [mbind option_bind].
    pose proof (skip_ws_length u). destruct (expect ":" (skip_ws u)) as [p|] eqn:Ep; [|done].
    apply expect_length in Ep. cbn [mbind option_bind]. pose proof (skip_ws_length p).
    rewrite (IHv limit (skip_ws p) fuel') by lia. destruct (scan_value _ _ fuel' _) as [[v r]|] eqn:Ev; [|done].
    apply scan_length in Ev. cbn [mbind option_bind]. pose proof (skip_ws_length r).
    destruct (expect "}" (skip_ws r)); [done|]. destruct (expect "," (skip_ws r)) as [w|] eqn:E2; [|done].
    apply expect_length in E2. cbn [mbind option_bind]. pose proof (skip_ws_length w).
    by rewrite (IHm limit (skip_ws w) fuel') by lia.
Qed.
End fuel.

(** A hook that accepts more, and agrees where both accept, reads more. *)
Section hooks.
Context `{FloatText}.
Context (hook hook' : dict -> option pyval) (hooks : forall d v, hook d = Some v -> hook' d = Some v).

Lemma scan_hook_mono fuel :
  (forall limit s x, scan_value hook limit fuel s = Some x -> scan_value hook' limit fuel s = Some x)
  /\ (forall limit s x, scan_elements hook limit fuel s = Some x -> scan_elements hook' limit fuel s = Some x)
  /\ (forall limit s x, scan_members hook limit fuel s = Some x -> scan_members hook' limit fuel s = Some x).
Proof.
  induction fuel as [|fuel (IHv & IHe & IHm)]; [done|].
  split_and!; intros limit s x Hs; rewrite ?scan_value_S, ?scan_elements_S, ?scan_members_S in *.
  - destruct s as [|c s]; [done|]. destruct (Ascii.eqb c dq); [done|]. destruct (Ascii.eqb c "{").
    { destruct limit as [|limit]; [done|]. destruct (expect "}" (skip_ws s)).
      - destruct (hook []) eqn:E; [|done]. by rewrite (hooks _ _ E).
      - destruct (scan_members hook _ _ _) as [[kvs q]|] eqn:E; [|done]. rewrite (IHm _ _ _ E).
        cbn [mbind option_bind] in *. destruct (hook kvs) eqn:Eh; [|done]. by rewrite (hooks _ _ Eh). }
    destruct (Ascii.eqb c "["); [|done]. destruct limit as [|limit]; [done|]. destruct (expect "]" (skip_ws s)); [done|].
    destruct (scan_elements hook _ _ _) as [[l q]|] eqn:E; [|done]. by rewrite (IHe _ _ _ E).
  - destruct (scan_value hook _ _ s) as [[v r]|] eqn:E; [|done]. rewrite (IHv _ _ _ E). cbn [mbind option_bind] in *.
    destruct (expect "]" (skip_ws r)); [done|]. destruct (expect "," (skip_ws r)) as [q|]; [|done].
    cbn [mbind option_bind] in *. destruct (scan_elements hook _ _ _) as [[l u]|] eqn:El; [|done]. by rewrite (IHe _ _ _ El).
  - destruct (expect dq s) as [q|]; [|done]. cbn [mbind option_bind] in *.
    destruct (scan_string q) as [[k u]|]; [|done]. cbn [mbind option_bind] in *.
    destruct (expect ":" (skip_ws u)) as [p|]; [|done]. cbn [mbind option_bind] in *.
    destruct (scan_value hook _ _ (skip_ws p)) as [[v r]|] eqn:E; [|done]. rewrite (IHv _ _ _ E). cbn [mbind option_bind] in *.
    destruct (expect "}" (skip_ws r)); [done|]. destruct (expect "," (skip_ws r)) as [w|]; [|done].
    cbn [mbind option_bind] in *. destruct (scan_members hook _ _ _) as [[l y]|] eqn:El; [|done]. by rewrite (IHm _ _ _ El).
Qed.

Lemma loads_hook_mono limit s v : json_loads_with hook limit s = Some v -> json_loads_with hook' limit s = Some v.
Proof.
  unfold json_loads_with. destruct (startswith bom s); [done|].
  destruct (scan_value hook _ _ _) as [[x r]|] eqn:E; [|done]. by rewrite (proj1 (scan_hook_mono _) _ _ _ E).
Qed.
End hooks.

(** ** Witness data

    A float text that satisfies the laws: a decimal fraction whose digits
    number the double.  (The interpreter's own text is a parameter.) *)
Definition sample_float_text : FloatText := {|
  float_repr m e := "0." +:+ pretty (Npos (encode (m, e)));
  float_of_text t :=
    match drop_prefix "0." t with
    | Some d => default (0, 0)%Z (decode (Z.to_pos (digits_value 0 d)))
    | None => (0, 0)%Z
    end
|}.

Lemma sample_float_laws : @FloatTextLaws sample_float_text.
Proof.
  split; intros m e _; cbn [float_repr float_of_text sample_float_text];
    destruct (pretty_N_digits (Npos (encode (m, e)))) as (c & p & -> & Hd & Hv & _).
  - cbn [String.append]. unfold scan_number.
    change (scan_int (String "0" (String "." (String c p)))) with (Some ("0", String "." (String c p))).
    cbn [mbind option_bind]. unfold scan_frac. change (Ascii.eqb "." ".") with true. cbv iota.
    rewrite (span_digits_all _ Hd). cbn. by rewrite app_str_nil_r.
  - change (drop_prefix "0." ("0." +:+ String c p)) with (Some (String c p)).
    cbv beta iota zeta. rewrite Hv. cbn [Z.of_N Z.to_pos]. by rewrite decode_encode.
Qed.
