(* ===== verification/Protocol.v ===== *)
(** * The daemon's RPC envelopes and frames ([daemon/protocol.py])

    Requests, responses and events, their validation, and the frame of one:
    a JSON document on one line, at most [max_bytes] long including its final
    line feed.  A frame is a byte string.  A frozen list or mapping of the
    module is the list or dictionary it freezes: every check of the module
    accepts both alike.  An argument whose type the code inspects is a Python
    value; [None] is a frame argument that is not [bytes]. *)
From S2P Require Import Prelude PyStr PyVal ReviewGroup Json.
From Stdlib Require Import Ascii.

Definition DAEMON_RPC_PROTOCOL_VERSION : string := "daemon-rpc/v1".
Definition READ_ONLY_METHODS : pyval := PTuple [PStr "handshake"; PStr "status"].
Definition _REQUEST_FIELDS : list string := ["request_id"; "method"; "params"].
Definition _RESPONSE_FIELDS : list string := ["request_id"; "ok"; "result"; "error"].
Definition _EVENT_FIELDS : list string := ["event_id"; "revision"; "kind"; "summary"].
Definition _ERROR_FIELDS : list string := ["code"; "message"].
Definition _HANDSHAKE_FIELDS : list string := ["project_root_hash"; "client_version"; "protocol_version"].
Definition _MAX_JSON_NESTING : nat := 64.

(** How deep the interpreter recurses before it raises [RecursionError], in the
    JSON scanner and in [_is_json_value]. *)
Class RecursionLimits := {
  scanner_depth : nat;
  checker_depth : nat
}.

Record RpcRequest := { request_id : pyval; method : pyval; params : pyval }.
Record RpcResponse := { response_id : pyval; ok : pyval; response_result : pyval; error : pyval }.
Record RpcEvent := { event_id : pyval; revision : pyval; kind : pyval; summary : pyval }.

Definition _error (code msg : string) : exn := RpcProtocolError code msg.
Definition _invalid_json_value : exn :=
  _error "invalid_json_value" "envelope contains an invalid JSON value".

Definition _valid_utf8_string (s : string) : bool := valid_utf8 s.
Definition _required_string (v : pyval) : bool :=
  match v with
  | PStr s => negb (String.eqb (strip s) "") && _valid_utf8_string s
  | _ => false
  end.

(** The copy a constructor keeps; a value is a tree, so no object is its own
    ancestor. *)
Fixpoint _freeze_json (depth : nat) (v : pyval) {struct v} : result pyval :=
  if Nat.ltb _MAX_JSON_NESTING depth then Err _invalid_json_value
  else match v with
       | PDict d => PDict <$> mapR (fun kv => pair kv.1 <$> _freeze_json (S depth) kv.2) d
       | PList l => PList <$> mapR (_freeze_json (S depth)) l
       | v => Ok v
       end.
Definition _detached_json (v : pyval) : result pyval := _freeze_json 0 v.

(** [RpcRequest(...)], [RpcResponse(...)], [RpcEvent(...)] *)
Definition new_request (id m p : pyval) : result RpcRequest :=
  p ← _detached_json p; Ok {| request_id := id; method := m; params := p |}.
Definition new_response (id k r e : pyval) : result RpcResponse :=
  r ← _detached_json r; e ← _detached_json e;
  Ok {| response_id := id; ok := k; response_result := r; error := e |}.
Definition new_event (id rev k s : pyval) : result RpcEvent :=
  s ← _detached_json s; Ok {| event_id := id; revision := rev; kind := k; summary := s |}.

Fixpoint json_value (limit : nat) (v : pyval) {struct v} : bool :=
  match v with
  | PNone | PBool _ | PInt _ => true
  | PStr s => _valid_utf8_string s
  | PFloat m e => float_finite m e
  | PTuple _ => false
  | PList l => match limit with O => false | S limit => forallb (json_value limit) l end
  | PDict d =>
      match limit with
      | O => false
      | S limit => forallb (fun kv => _valid_utf8_string kv.1 && json_value limit kv.2) d
      end
  end.

Definition dict_keys_are (fields : list string) (v : pyval) : bool :=
  match v with PDict d => keys_are fields d | _ => false end.
Definition get_item (k : string) (v : pyval) : pyval :=
  match v with PDict d => dget k d | _ => PNone end.

(** [len(frame)] counts bytes. *)
Definition byte_len (s : string) : Z := Z.of_nat (String.length s).
Definition LF_byte : ascii := "010".
Fixpoint count_byte (c : ascii) (s : string) : nat :=
  match s with EmptyString => 0 | String x r => (if Ascii.eqb x c then 1 else 0) + count_byte c r end.

(** [frame[:-1]] when the frame ends with a line feed. *)
Fixpoint without_lf (s : string) : option string :=
  match s with
  | EmptyString => None
  | String c EmptyString => if Ascii.eqb c LF_byte then Some "" else None
  | String c r => String c <$> without_lf r
  end.

Definition _validate_max_bytes (max_bytes : pyval) : result unit :=
  match max_bytes with
  | PInt z => raise_if (z <=? 0)%Z (_error "invalid_max_bytes" "maximum frame size is invalid")
  | _ => Err (_error "invalid_max_bytes" "maximum frame size is invalid")
  end.
Definition exceeds (s : string) (max_bytes : pyval) : bool :=
  match max_bytes with PInt z => (z <? byte_len s)%Z | _ => false end.

Definition _object_without_duplicates (pairs : dict) : option dict :=
  foldl (fun (acc : option dict) kv =>
           d ← acc; if dmem kv.1 d then None else Some (dset kv.1 kv.2 d))
        (Some []) pairs.

Section protocol.
  Context `{FloatText} {lim : RecursionLimits}.

Definition _is_json_value (v : pyval) : bool := json_value checker_depth v.
Definition _valid_json_object (v : pyval) : bool := is_dict v && _is_json_value v.

(** [frozenset(allowed_methods)] accepts an iterable of hashable members. *)
Definition _validate_allowed_methods (allowed : pyval) : result (list pyval) :=
  let invalid := _error "invalid_method_allowlist" "request method allowlist is invalid" in
  if is_str allowed then Err invalid
  else match py_iter allowed with
       | Ok ms =>
           if forallb hashable ms
           then _ ← raise_if (existsb (fun m => negb (_required_string m)) ms) invalid; Ok ms
           else Err invalid
       | Err _ => Err invalid
       end.

Definition _validate_handshake_params (p : pyval) : result unit :=
  raise_if (negb (is_dict p) || negb (dict_keys_are _HANDSHAKE_FIELDS p)
            || negb (forallb (fun f => _required_string (get_item f p)) _HANDSHAKE_FIELDS)
            || negb (_is_json_value p))
           (_error "invalid_handshake" "handshake parameters are invalid").

Definition _validate_request (r : RpcRequest) (allowed : pyval) : result unit :=
  methods ← _validate_allowed_methods allowed;
  _ ← raise_if (negb (_required_string (request_id r)) || negb (_required_string (method r))
                || negb (_valid_json_object (params r)))
               (_error "invalid_request" "request envelope is invalid");
  _ ← raise_if (negb (in_list (method r) methods))
               (_error "method_not_allowed" "request method is not allowed");
  if py_eq (method r) (PStr "handshake") then _validate_handshake_params (params r) else Ok tt.

Definition _validate_response (r : RpcResponse) : result unit :=
  let valid := _required_string (response_id r)
               && match ok r with PBool _ => true | _ => false end in
  let valid :=
    if valid && truthy (ok r)
    then _valid_json_object (response_result r) && bool_decide (error r = PNone)
    else if valid
    then bool_decide (response_result r = PNone) && is_dict (error r)
         && dict_keys_are _ERROR_FIELDS (error r)
         && _required_string (get_item "code" (error r)) && _required_string (get_item "message" (error r))
         && _is_json_value (error r)
    else valid in
  raise_if (negb valid) (_error "invalid_response" "response envelope is invalid").

Definition _validate_event (e : RpcEvent) : result unit :=
  raise_if (negb (_required_string (event_id e))
            || match revision e with PInt z => (z <? 0)%Z | _ => true end
            || negb (_required_string (kind e)) || negb (_valid_json_object (summary e)))
           (_error "invalid_event" "event envelope is invalid").

(** [RpcRequest.handshake(...)] *)
Definition handshake (id project_root_hash client_version protocol_version : pyval) : result RpcRequest :=
  r ← new_request id (PStr "handshake")
        (PDict [("project_root_hash", project_root_hash); ("client_version", client_version);
                ("protocol_version", protocol_version)]);
  _ ← _validate_request r READ_ONLY_METHODS;
  Ok r.

(** ** Frames *)

(** [.encode("utf-8")] and [.decode("utf-8")] *)
Definition utf8_text (s : string) (e : exn) : result string := if valid_utf8 s then Ok s else Err e.

Definition _encode_object (payload : dict) (max_bytes : pyval) : result string :=
  _ ← _validate_max_bytes max_bytes;
  match (text ← json_dumps_sorted (PDict payload);
         encoded ← utf8_text text (ValueError "surrogates not allowed");
         Ok (encoded +:+ String LF_byte "")) with
  | Err _ => Err _invalid_json_value
  | Ok encoded =>
      _ ← raise_if (exceeds encoded max_bytes) (_error "frame_too_large" "frame exceeds maximum size");
      Ok encoded
  end.

Definition request_payload (r : RpcRequest) : dict :=
  [("request_id", request_id r); ("method", method r); ("params", params r)].
Definition response_payload (r : RpcResponse) : dict :=
  [("request_id", response_id r); ("ok", ok r); ("result", response_result r); ("error", error r)].
Definition event_payload (e : RpcEvent) : dict :=
  [("event_id", event_id e); ("revision", revision e); ("kind", kind e); ("summary", summary e)].

Definition encode_request (r : RpcRequest) (max_bytes allowed_methods : pyval) : result string :=
  _ ← _validate_request r allowed_methods; _encode_object (request_payload r) max_bytes.
Definition encode_response (r : RpcResponse) (max_bytes : pyval) : result string :=
  _ ← _validate_response r; _encode_object (response_payload r) max_bytes.
Definition encode_event (e : RpcEvent) (max_bytes : pyval) : result string :=
  _ ← _validate_event e; _encode_object (event_payload e) max_bytes.

Definition _decode_object (frame : option string) (max_bytes : pyval) : result dict :=
  _ ← _validate_max_bytes max_bytes;
  match frame with
  | None => Err (_error "invalid_frame" "frame is invalid")
  | Some frame =>
      _ ← raise_if (exceeds frame max_bytes) (_error "frame_too_large" "frame exceeds maximum size");
      match without_lf frame with
      | None => Err (_error "incomplete_frame" "frame is incomplete")
      | Some body =>
          _ ← raise_if (negb (Nat.eqb (count_byte LF_byte frame) 1))
                       (_error "invalid_frame" "frame must contain exactly one JSON document");
          document ← utf8_text body (_error "invalid_utf8" "frame is not valid UTF-8");
          match json_loads_with (fun pairs => PDict <$> _object_without_duplicates pairs)
                                scanner_depth document with
          | None => Err (_error "invalid_json" "JSON document is invalid")
          | Some v =>
              match v with
              | PDict d =>
                  if _is_json_value v then Ok d
                  else Err (_error "invalid_json_object" "JSON document must be an object")
              | _ => Err (_error "invalid_json_object" "JSON document must be an object")
              end
          end
      end
  end.

Definition decode_request (frame : option string) (max_bytes allowed_methods : pyval) : result RpcRequest :=
  payload ← _decode_object frame max_bytes;
  _ ← raise_if (negb (keys_are _REQUEST_FIELDS payload))
               (_error "invalid_request" "request envelope is invalid");
  r ← new_request (dget "request_id" payload) (dget "method" payload) (dget "params" payload);
  _ ← _validate_request r allowed_methods;
  Ok r.
Definition decode_response (frame : option string) (max_bytes : pyval) : result RpcResponse :=
  payload ← _decode_object frame max_bytes;
  _ ← raise_if (negb (keys_are _RESPONSE_FIELDS payload))
               (_error "invalid_response" "response envelope is invalid");
  r ← new_response (dget "request_id" payload) (dget "ok" payload) (dget "result" payload)
                   (dget "error" payload);
  _ ← _validate_response r;
  Ok r.
Definition decode_event (frame : option string) (max_bytes : pyval) : result RpcEvent :=
  payload ← _decode_object frame max_bytes;
  _ ← raise_if (negb (keys_are _EVENT_FIELDS payload))
               (_error "invalid_event" "event envelope is invalid");
  e ← new_event (dget "event_id" payload) (dget "revision" payload) (dget "kind" payload)
                (dget "summary" payload);
  _ ← _validate_event e;
  Ok e.

(** ** The handshake *)

Definition negotiate_handshake (r : RpcRequest) (project_root_hash daemon_version project_view_version : pyval)
    : result dict :=
  _ ← raise_if (negb (py_eq (method r) (PStr "handshake")))
               (_error "invalid_handshake_request" "handshake request is invalid");
  _ ← _validate_request r (PTuple [PStr "handshake"]);
  _ ← raise_if (negb (forallb _required_string [project_root_hash; daemon_version; project_view_version]))
               (_error "invalid_handshake_context" "handshake context is invalid");
  let compatible := py_eq (get_item "protocol_version" (params r)) (PStr DAEMON_RPC_PROTOCOL_VERSION)
                    && py_eq (get_item "project_root_hash" (params r)) project_root_hash in
  Ok [("protocol_version", PStr DAEMON_RPC_PROTOCOL_VERSION);
      ("daemon_version", daemon_version);
      ("project_view_schema_version", project_view_version);
      ("compatible", PBool compatible);
      ("write_enabled", PBool compatible);
      ("capabilities", PList (PStr <$> if compatible then ["status"; "mutate"; "subscribe"] else ["status"]))].
End protocol.

(** ** Laws *)

(** What [_freeze_json] accepts: no value below the nesting limit. *)
Fixpoint shallow (depth : nat) (v : pyval) : bool :=
  Nat.leb depth _MAX_JSON_NESTING
  && match v with
     | PDict d => forallb (fun kv => shallow (S depth) kv.2) d
     | PList l => forallb (shallow (S depth)) l
     | _ => true
     end.

Lemma freeze_spec v : forall depth,
  _freeze_json depth v = if shallow depth v then Ok v else Err _invalid_json_value.
Proof.
  assert (Hd : forall depth, Nat.ltb _MAX_JSON_NESTING depth = negb (Nat.leb depth _MAX_JSON_NESTING)).
  { intros depth. rewrite Nat.ltb_antisym. done. }
  induction v as [|b|z|m e|s|l IH|l IH|d IH] using pyval_ind'; intros depth; cbn [_freeze_json shallow];
    rewrite Hd; destruct (Nat.leb depth _MAX_JSON_NESTING); cbn [negb andb]; try done.
  - assert (mapR (_freeze_json (S depth)) l
            = if forallb (shallow (S depth)) l then Ok l else Err _invalid_json_value) as ->.
    { induction IH as [|x l Hx _ IHl]; [done|]. cbn [mapR forallb]. rewrite Hx, IHl.
      destruct (shallow (S depth) x); [|done]. cbn. by destruct (forallb _ l). }
    by destruct (forallb _ l).
  - assert (mapR (fun kv : string * pyval => pair kv.1 <$> _freeze_json (S depth) kv.2) d
            = if forallb (fun kv => shallow (S depth) kv.2) d then Ok d else Err _invalid_json_value) as ->.
    { induction IH as [|[k x] d Hx _ IHd]; [done|]. cbn [mapR forallb fst snd]. cbn in Hx. rewrite Hx, IHd.
      destruct (shallow (S depth) x); [|done]. cbn. by destruct (forallb _ d). }
    by destruct (forallb _ d).
Qed.

Lemma shallow_nest v : forall depth, json_ok v = true -> shallow depth v = true -> nest v + depth <= 65.
Proof.
  induction v as [|b|z|m e|s|l IH|l IH|d IH] using pyval_ind'; intros depth; cbn [json_ok shallow nest];
    intros Hok [Hd%Nat.leb_le Hv]%andb_true_iff; unfold _MAX_JSON_NESTING in *; try lia; try done.
  - enough (foldr (fun v n => Nat.max (nest v) n) 0 l + S depth <= 65) by lia.
    induction IH as [|x l Hx _ IHl]; cbn [foldr]; [lia|]. cbn in Hok, Hv.
    apply andb_true_iff in Hok as [O1 O2], Hv as [H1 H2].
    specialize (Hx _ O1 H1). specialize (IHl O2 H2). lia.
  - enough (foldr (fun kv n => Nat.max (nest kv.2) n) 0 d + S depth <= 65) by lia.
    apply andb_true_iff in Hok as [_ Hok].
    induction IH as [|x l Hx _ IHl]; cbn [foldr]; [lia|]. cbn in Hok, Hv.
    apply andb_true_iff in Hok as [O1 O2], Hv as [H1 H2].
    specialize (Hx _ O1 H1). specialize (IHl O2 H2). lia.
Qed.

Lemma forallb_perm {A} (p : A -> bool) l k : l ≡ₚ k -> forallb p l = forallb p k.
Proof.
  intros H. apply eq_bool_prop_intro. rewrite !Is_true_true, !forallb_elem. by setoid_rewrite H.
Qed.

Lemma forallb_map_eq {A B} (p : B -> bool) (q : A -> bool) (f : A -> B) l :
  Forall (fun x => p (f x) = q x) l -> forallb p (map f l) = forallb q l.
Proof. induction 1 as [|x l Hx _ IH]; cbn; congruence. Qed.

Lemma shallow_sort v : forall depth, shallow depth (sort_val v) = shallow depth v.
Proof.
  induction v as [|b|z|m e|s|l IH|l IH|d IH] using pyval_ind'; intros depth; cbn [sort_val shallow]; try done;
    f_equal.
  - apply forallb_map_eq. eapply Forall_impl; [exact IH|]. naive_solver.
  - rewrite (forallb_perm _ _ _ (sort_keys_perm _)). apply forallb_map_eq.
    eapply Forall_impl; [exact IH|]. naive_solver.
Qed.

Lemma json_value_sort v : forall limit, json_value limit (sort_val v) = json_value limit v.
Proof.
  induction v as [|b|z|m e|s|l IH|l IH|d IH] using pyval_ind'; intros limit; cbn [sort_val json_value]; try done;
    destruct limit as [|limit]; try done.
  - apply forallb_map_eq. eapply Forall_impl; [exact IH|]. naive_solver.
  - rewrite (forallb_perm _ _ _ (sort_keys_perm _)). apply forallb_map_eq.
    eapply Forall_impl; [exact IH|]. intros kv Hkv. cbn in *. by rewrite Hkv.
Qed.

Lemma json_value_limit v : forall limit limit', json_value limit v = true -> nest v <= limit' ->
  json_value limit' v = true.
Proof.
  assert (Hmax : forall A (f : A -> nat) l n, foldr (fun x n => Nat.max (f x) n) 0 l <= n -> Forall (fun x => f x <= n) l).
  { intros A f l n Hn. apply Forall_forall. intros x Hx. by eapply foldr_max_le. }
  induction v as [|b|z|m e|s|l IH|l IH|d IH] using pyval_ind'; intros limit limit'; cbn [json_value nest]; try done;
    destruct limit as [|limit]; try done; intros Hv Hn; destruct limit' as [|limit']; try lia;
    apply le_S_n, Hmax in Hn.
  - revert Hv Hn. induction IH as [|x l Hx _ IHl]; [done|]. cbn [forallb].
    intros [H1 H2]%andb_true_iff [Hn1 Hn2]%Forall_cons. by rewrite (Hx limit limit'), IHl.
  - revert Hv Hn. induction IH as [|[k x] d Hx _ IHd]; [done|]. cbn [forallb fst snd].
    intros [[H0 H1]%andb_true_iff H2]%andb_true_iff [Hn1 Hn2]%Forall_cons. cbn in Hx, Hn1.
    by rewrite H0, (Hx limit limit'), IHd.
Qed.

Lemma dlookup_sort k d : NoDup (dkeys d) ->
  dlookup k (sort_keys (map (fun kv => (kv.1, sort_val kv.2)) d)) = sort_val <$> dlookup k d.
Proof.
  intros Hd. rewrite sort_val_members.
  assert (Hk : dkeys (sort_keys d) ≡ₚ dkeys d) by (unfold dkeys; by rewrite sort_keys_perm).
  assert (Hl : dlookup k (sort_keys d) = dlookup k d).
  { destruct (dlookup k d) as [v|] eqn:E.
    - apply dlookup_NoDup; [by rewrite Hk|]. rewrite sort_keys_perm. by apply dlookup_elem.
    - apply dlookup_None in E. apply dlookup_None. by rewrite Hk. }
  rewrite <- Hl. clear. induction (sort_keys d) as [|[k' v] l IH]; [done|]. cbn. by destruct (String.eqb k k').
Qed.

Lemma keys_are_sort fields (d : dict) :
  keys_are fields (sort_keys (map (fun kv => (kv.1, sort_val kv.2)) d)) = keys_are fields d.
Proof.
  apply eq_bool_prop_intro. rewrite !Is_true_true, !keys_are_spec.
  assert (forall k, k ∈ dkeys (sort_keys (map (fun kv => (kv.1, sort_val kv.2)) d)) <-> k ∈ dkeys d) as Hk.
  { intros k. unfold dkeys. rewrite sort_keys_perm. by rewrite <- list_fmap_compose. }
  by setoid_rewrite Hk.
Qed.

Lemma without_lf_app t : without_lf (t +:+ String LF_byte "") = Some t.
Proof.
  induction t as [|c t IH]; [done|]. cbn [String.append without_lf]. rewrite IH. by destruct t.
Qed.

Lemma without_lf_Some s t : without_lf s = Some t -> s = t +:+ String LF_byte "".
Proof.
  revert t; induction s as [|c s IH]; intros t; [done|]. cbn [without_lf]. destruct s as [|c' s].
  - destruct (Ascii.eqb_spec c LF_byte) as [->|]; [|done]. by intros [= <-].
  - destruct (without_lf (String c' s)) as [u|] eqn:E; [|done]. intros [= <-]. by rewrite (IH u).
Qed.

Lemma count_byte_app c s t : count_byte c (s +:+ t) = count_byte c s + count_byte c t.
Proof. induction s as [|x s IH]; cbn; [done|]. rewrite IH. lia. Qed.

Lemma count_no_lf t : no_lf t = true <-> count_byte LF_byte t = 0.
Proof.
  unfold no_lf, LF_byte. induction t as [|c t IH]; [done|]. cbn [all_ascii count_byte].
  rewrite andb_true_iff, IH. destruct (Ascii.eqb c "010"); cbn; [|naive_solver]. split; [by intros []|lia].
Qed.

Lemma duplicates_go (d acc : dict) : NoDup (dkeys (acc ++ d)) ->
  foldl (fun (acc : option dict) kv => d ← acc; if dmem kv.1 d then None else Some (dset kv.1 kv.2 d))
        (Some acc) d = Some (acc ++ d).
Proof.
  revert acc; induction d as [|[k v] d IH]; intros acc Hd; cbn [foldl]; [by rewrite app_nil_r|].
  assert (k ∉ dkeys acc) as Hk.
  { unfold dkeys in Hd. rewrite fmap_app in Hd. apply NoDup_app in Hd as (_ & Hn & _). intros Hin.
    apply (Hn k Hin). by left. }
  cbn [mbind option_bind fst snd]. destruct (dmem k acc) eqn:Hm; [by apply dmem_spec in Hm|].
  assert (dset k v acc = acc ++ [(k, v)]) as ->.
  { clear -Hk. unfold dkeys in Hk. induction acc as [|[k' v'] acc IH]; [done|]. cbn in Hk |- *.
    apply not_elem_of_cons in Hk as [Hne Hk]. rewrite (proj2 (String.eqb_neq k k') Hne). by rewrite IH. }
  rewrite IH by (by rewrite <- app_assoc). by rewrite <- app_assoc.
Qed.

Lemma object_without_duplicates_ok d : NoDup (dkeys d) -> _object_without_duplicates d = Some d.
Proof. apply (duplicates_go d []). Qed.

Section laws.
  Context {ft : FloatText} {laws : FloatTextLaws} {lim : RecursionLimits}.

Lemma validate_max_bytes_Ok mb u : _validate_max_bytes mb = Ok u -> exists z, mb = PInt z /\ (0 < z)%Z.
Proof.
  destruct mb as [| |z| | | | |]; try done. unfold _validate_max_bytes, raise_if.
  destruct (Z.leb_spec z 0); [done|]. by exists z.
Qed.

(** A frame the module writes: the document, printed, and one line feed. *)
Lemma encode_object_Ok payload max_bytes frame : _encode_object payload max_bytes = Ok frame ->
  exists z text, max_bytes = PInt z /\ (0 < z)%Z /\ json_dumps_sorted (PDict payload) = Ok text
    /\ valid_utf8 text = true /\ frame = text +:+ String LF_byte "" /\ (byte_len frame <= z)%Z.
Proof.
  unfold _encode_object. intros (u & (z & -> & Hz)%validate_max_bytes_Ok & H)%bind_Ok.
  destruct (json_dumps_sorted (PDict payload)) as [text|] eqn:Ht; [|done]. cbn [mbind result_bind] in H.
  unfold utf8_text in H. destruct (valid_utf8 text) eqn:Hu; [|done]. cbn [mbind result_bind] in H.
  apply bind_Ok in H as ([] & Hx & [= <-]). unfold raise_if, exceeds in Hx.
  destruct (Z.ltb_spec z (byte_len (text +:+ String LF_byte ""))); [done|]. by exists z, text.
Qed.

(** The frame of a document is read back as the document. *)
Lemma decode_encoded payload max_bytes frame d :
  json_ok (PDict payload) = true -> nest (PDict payload) <= scanner_depth ->
  json_value checker_depth (PDict payload) = true -> sort_val (PDict payload) = PDict d ->
  _encode_object payload max_bytes = Ok frame -> _decode_object (Some frame) max_bytes = Ok d.
Proof.
  intros Hok Hn Hv Hd (z & text & -> & Hz & Ht & Hu & -> & Hle)%encode_object_Ok.
  pose proof (proj1 (count_no_lf _) (dumps_no_lf _ _ Hok Ht)) as Hc.
  unfold _decode_object, _validate_max_bytes, raise_if, exceeds.
  rewrite (proj2 (Z.leb_gt z 0)) by lia. cbn [mbind result_bind].
  rewrite (proj2 (Z.ltb_ge z _)) by lia. cbn [mbind result_bind].
  rewrite without_lf_app, count_byte_app, Hc. cbn [Nat.add count_byte]. 
  change (Ascii.eqb LF_byte LF_byte) with true. cbn [Nat.add Nat.eqb negb mbind result_bind].
  unfold utf8_text. rewrite Hu. cbn [mbind result_bind].
  rewrite (loads_dumps (fun pairs => PDict <$> _object_without_duplicates pairs)
             (fun d' Hd' => f_equal (fmap PDict) (object_without_duplicates_ok d' Hd')) scanner_depth
             (PDict payload) text Hok Hn Ht), Hd.
  unfold _is_json_value. rewrite <- Hd, json_value_sort, Hv. done.
Qed.

Lemma required_string_inv v : _required_string v = true ->
  exists s, v = PStr s /\ _valid_utf8_string s = true.
Proof. destruct v; try done. cbn. intros [_ H]%andb_true_iff. eauto. Qed.

Lemma detached_Ok p q : _detached_json p = Ok q -> q = p /\ shallow 0 p = true.
Proof. unfold _detached_json. rewrite freeze_spec. destruct (shallow 0 p); [|done]. by intros [= <-]. Qed.

Lemma detached_sort p : shallow 0 p = true -> _detached_json (sort_val p) = Ok (sort_val p).
Proof. intros H. unfold _detached_json. by rewrite freeze_spec, shallow_sort, H. Qed.

(** Every field of a payload with sorted members is found again. *)
Lemma dget_sort k (d : dict) : NoDup (dkeys d) ->
  dget k (sort_keys (map (fun kv => (kv.1, sort_val kv.2)) d)) = sort_val (dget k d).
Proof. intros Hd. unfold dget. rewrite dlookup_sort by done. by destruct (dlookup k d). Qed.

Lemma required_string_sort v : _required_string (sort_val v) = _required_string v.
Proof. by destruct v. Qed.

Lemma is_json_value_sort v : _is_json_value (sort_val v) = _is_json_value v.
Proof. apply json_value_sort. Qed.

Lemma valid_json_object_sort v : _valid_json_object (sort_val v) = _valid_json_object v.
Proof. unfold _valid_json_object. rewrite is_json_value_sort. by destruct v. Qed.

Lemma dict_keys_are_sort fields v : dict_keys_are fields (sort_val v) = dict_keys_are fields v.
Proof. destruct v; try done. apply keys_are_sort. Qed.

Lemma get_item_sort k v : json_ok v = true -> get_item k (sort_val v) = sort_val (get_item k v).
Proof.
  destruct v; try done. cbn [json_ok get_item sort_val]. intros [Hd _]%andb_true_iff.
  apply bool_decide_eq_true in Hd. by apply dget_sort.
Qed.

Lemma validate_handshake_sort p : json_ok p = true ->
  _validate_handshake_params (sort_val p) = _validate_handshake_params p.
Proof.
  intros Hok. unfold _validate_handshake_params. rewrite dict_keys_are_sort, is_json_value_sort.
  assert (is_dict (sort_val p) = is_dict p) as -> by (by destruct p).
  cbn [forallb _HANDSHAKE_FIELDS]. by rewrite !get_item_sort, !required_string_sort by done.
Qed.

Lemma validate_request_sort id m p allowed : json_ok p = true ->
  _validate_request {| request_id := id; method := m; params := sort_val p |} allowed
  = _validate_request {| request_id := id; method := m; params := p |} allowed.
Proof.
  intros Hok. unfold _validate_request. cbn [request_id method params].
  by rewrite valid_json_object_sort, validate_handshake_sort.
Qed.

Lemma validate_request_inv r allowed u : _validate_request r allowed = Ok u ->
  _required_string (request_id r) = true /\ _required_string (method r) = true
  /\ is_dict (params r) = true /\ json_value checker_depth (params r) = true
  /\ exists ms, _validate_allowed_methods allowed = Ok ms /\ in_list (method r) ms = true.
Proof.
  unfold _validate_request. intros (ms & Hms & (? & Hg & (? & Hg' & _)%bind_Ok)%bind_Ok)%bind_Ok.
  unfold raise_if in Hg, Hg'.
  destruct (negb (_required_string (request_id r)) || _ || _) eqn:E; [done|].
  destruct (negb (in_list _ _)) eqn:E'; [done|]. unfold _valid_json_object, _is_json_value in E.
  split_guards. split_and!; try done. by exists ms.
Qed.

Lemma json_ok_str v : _required_string v = true -> json_ok v = true /\ sort_val v = v /\ nest v = 0
  /\ forall limit, json_value limit v = true.
Proof. intros (s & -> & Hs)%required_string_inv. by split_and!. Qed.

Lemma validate_response_sort id k r e : json_ok e = true ->
  _validate_response {| response_id := id; ok := k; response_result := sort_val r; error := sort_val e |}
  = _validate_response {| response_id := id; ok := k; response_result := r; error := e |}.
Proof.
  intros He. unfold _validate_response. cbn [response_id ok response_result error].
  rewrite valid_json_object_sort, dict_keys_are_sort, is_json_value_sort, !get_item_sort, !required_string_sort by done.
  assert (Hn : forall v, bool_decide (sort_val v = PNone) = bool_decide (v = PNone)).
  { intros v. apply bool_decide_ext. by destruct v. }
  rewrite !Hn. assert (is_dict (sort_val e) = is_dict e) as -> by (by destruct e). done.
Qed.

Lemma validate_response_inv r u : _validate_response r = Ok u ->
  _required_string (response_id r) = true /\ (exists b, ok r = PBool b)
  /\ json_value checker_depth (response_result r) = true /\ json_value checker_depth (error r) = true.
Proof.
  destruct r as [id k r e]. unfold _validate_response, raise_if. cbn [response_id ok response_result error].
  destruct (_required_string id) eqn:Hid; [|done]. destruct k as [|b| | | | | |]; try done.
  assert (Hn : json_value checker_depth PNone = true) by (by destruct checker_depth).
  destruct b; cbn [andb truthy negb].
  - unfold _valid_json_object, _is_json_value. destruct (is_dict r && _ && _) eqn:E; [|done]. intros _.
    split_guards. subst e. split_and!; try done. by exists true.
  - unfold _is_json_value. destruct (bool_decide (r = PNone) && _ && _ && _ && _ && _) eqn:E; [|done]. intros _.
    split_guards. subst r. split_and!; try done. by exists false.
Qed.

Lemma validate_event_inv e u : _validate_event e = Ok u ->
  _required_string (event_id e) = true /\ (exists z, revision e = PInt z /\ (0 <= z)%Z)
  /\ _required_string (kind e) = true /\ json_value checker_depth (summary e) = true.
Proof.
  unfold _validate_event, raise_if, _valid_json_object, _is_json_value.
  destruct (negb (_required_string (event_id e)) || _ || _ || _) eqn:E; [done|]. intros _. split_guards.
  split_and!; try done. destruct (revision e) as [| |z| | | | |]; try done. split_guards. by exists z.
Qed.

Section deep.
(** The depth the interpreter must allow: a payload is one object around what
    [_freeze_json] accepts. *)
Hypothesis scanner_deep : 66 <= scanner_depth.
Hypothesis checker_deep : 66 <= checker_depth.

(** A payload's members are fit for the scanner and the checker. *)
Definition fit (kv : string * pyval) : Prop :=
  _valid_utf8_string kv.1 = true /\ json_ok kv.2 = true /\ nest kv.2 <= 65 /\ json_value 65 kv.2 = true.

Lemma fit_payload d : NoDup (dkeys d) -> Forall fit d ->
  json_ok (PDict d) = true /\ nest (PDict d) <= scanner_depth /\ json_value checker_depth (PDict d) = true.
Proof.
  intros Hd Hfit. assert (nest (PDict d) <= 66) as Hn.
  { cbn [nest]. apply le_n_S. clear Hd. induction Hfit as [|kv d (_ & _ & Hkv & _) _ IH]; cbn; lia. }
  split_and!; [| |apply (json_value_limit _ 66)]; try lia.
  - cbn [json_ok]. rewrite bool_decide_eq_true_2 by done. rewrite andb_true_l, forallb_elem. intros kv Hkv.
    rewrite Forall_forall in Hfit. by apply Hfit.
  - cbn [json_value]. rewrite forallb_elem. intros kv Hkv. rewrite Forall_forall in Hfit.
    destruct (Hfit kv Hkv) as (-> & _ & _ & ->). done.
Qed.

Lemma fit_str k v : _valid_utf8_string k = true -> _required_string v = true -> fit (k, v).
Proof.
  intros Hk Hv. destruct (json_ok_str v Hv) as (H1 & _ & H2 & H3). unfold fit. cbn [fst snd].
  rewrite H2. split_and!; auto; lia.
Qed.

Lemma fit_value k v limit : _valid_utf8_string k = true -> json_ok v = true -> shallow 0 v = true ->
  json_value limit v = true -> fit (k, v).
Proof.
  intros Hk Hok Hs Hv. pose proof (shallow_nest v 0 Hok Hs). split_and!; try done; cbn [snd]; [lia|].
  eapply json_value_limit; [done|lia].
Qed.

Lemma request_decodes id m p r max_bytes allowed frame : json_ok p = true ->
  new_request id m p = Ok r -> encode_request r max_bytes allowed = Ok frame ->
  decode_request (Some frame) max_bytes allowed
  = Ok {| request_id := id; method := m; params := sort_val p |}.
Proof.
  intros Hok (q & [-> Hs]%detached_Ok & [= <-])%bind_Ok ([] & Hval & Henc)%bind_Ok.
  pose proof (validate_request_inv _ _ _ Hval) as (Hid & Hm & Hd & Hv & _). cbn [request_id method params] in *.
  destruct (fit_payload (request_payload {| request_id := id; method := m; params := p |})) as (P1 & P2 & P3).
  { cbn. repeat constructor; not_in. }
  { unfold request_payload. rewrite !Forall_cons, Forall_nil.
    split_and!; [by apply fit_str|by apply fit_str|by eapply fit_value|done]. }
  unfold decode_request. erewrite decode_encoded; [|exact P1|exact P2|exact P3|reflexivity|exact Henc].
  cbn [mbind result_bind]. rewrite keys_are_sort. cbn [keys_are]. unfold raise_if.
  change (negb (keys_are _ _)) with false. cbn [mbind result_bind].
  rewrite !dget_sort by (cbn; repeat constructor; not_in).
  change (dget "request_id" _) with id. change (dget "method" _) with m. change (dget "params" _) with p.
  destruct (json_ok_str _ Hid) as (_ & -> & _ & _), (json_ok_str _ Hm) as (_ & -> & _ & _).
  unfold new_request. rewrite detached_sort by done. cbn [mbind result_bind].
  by rewrite validate_request_sort, Hval.
Qed.

Lemma response_decodes id k r e resp max_bytes frame : json_ok r = true -> json_ok e = true ->
  new_response id k r e = Ok resp -> encode_response resp max_bytes = Ok frame ->
  decode_response (Some frame) max_bytes
  = Ok {| response_id := id; ok := k; response_result := sort_val r; error := sort_val e |}.
Proof.
  intros Hr He (q & [-> Hs]%detached_Ok & (q' & [-> Hs']%detached_Ok & [= <-])%bind_Ok)%bind_Ok
    ([] & Hval & Henc)%bind_Ok.
  pose proof (validate_response_inv _ _ Hval) as (Hid & (b & Hb) & Hv & Hv'). cbn in Hid, Hb, Hv, Hv'. subst k.
  destruct (fit_payload (response_payload {| response_id := id; ok := PBool b; response_result := r; error := e |}))
    as (P1 & P2 & P3).
  { cbn. repeat constructor; not_in. }
  { unfold response_payload. rewrite !Forall_cons, Forall_nil.
    split_and!; [by apply fit_str|by apply (fit_value _ _ 65)|by eapply fit_value|by eapply fit_value|done]. }
  unfold decode_response. erewrite decode_encoded; [|exact P1|exact P2|exact P3|reflexivity|exact Henc].
  cbn [mbind result_bind]. rewrite keys_are_sort. unfold raise_if.
  change (negb (keys_are _ _)) with false. cbn [mbind result_bind].
  rewrite !dget_sort by (cbn; repeat constructor; not_in).
  change (dget "request_id" _) with id. change (dget "ok" _) with (PBool b).
  change (dget "result" _) with r. change (dget "error" _) with e.
  destruct (json_ok_str _ Hid) as (_ & -> & _ & _).
  unfold new_response. rewrite !detached_sort by done. cbn [mbind result_bind sort_val].
  by rewrite validate_response_sort, Hval.
Qed.

Lemma event_decodes id rev k s e max_bytes frame : json_ok s = true ->
  new_event id rev k s = Ok e -> encode_event e max_bytes = Ok frame ->
  decode_event (Some frame) max_bytes
  = Ok {| event_id := id; revision := rev; kind := k; summary := sort_val s |}.
Proof.
  intros Hok (q & [-> Hs]%detached_Ok & [= <-])%bind_Ok ([] & Hval & Henc)%bind_Ok.
  pose proof (validate_event_inv _ _ Hval) as (Hid & (z & Hz & _) & Hk & Hv). cbn in Hid, Hz, Hk, Hv. subst rev.
  destruct (fit_payload (event_payload {| event_id := id; revision := PInt z; kind := k; summary := s |}))
    as (P1 & P2 & P3).
  { cbn. repeat constructor; not_in. }
  { unfold event_payload. rewrite !Forall_cons, Forall_nil.
    split_and!; [by apply fit_str|by apply (fit_value _ _ 65)|by apply fit_str|by eapply fit_value|done]. }
  unfold decode_event. erewrite decode_encoded; [|exact P1|exact P2|exact P3|reflexivity|exact Henc].
  cbn [mbind result_bind]. rewrite keys_are_sort. unfold raise_if.
  change (negb (keys_are _ _)) with false. cbn [mbind result_bind].
  rewrite !dget_sort by (cbn; repeat constructor; not_in).
  change (dget "event_id" _) with id. change (dget "revision" _) with (PInt z).
  change (dget "kind" _) with k. change (dget "summary" _) with s.
  destruct (json_ok_str _ Hid) as (_ & -> & _ & _), (json_ok_str _ Hk) as (_ & -> & _ & _).
  unfold new_event. rewrite detached_sort by done. cbn [mbind result_bind sort_val].
  unfold _validate_event in Hval |- *. cbn [event_id revision kind summary] in Hval |- *.
  by rewrite valid_json_object_sort, Hval.
Qed.

(** C34: A request the module builds and encodes is decoded, under the same
    bound and allowlist, as the request that was built: the same identity and
    method, and parameters equal to the ones given, their keys in code point
    order. *)
Theorem request_roundtrip id m p r max_bytes allowed frame : json_ok p = true ->
  new_request id m p = Ok r -> encode_request r max_bytes allowed = Ok frame ->
  decode_request (Some frame) max_bytes allowed
    = Ok {| request_id := id; method := m; params := sort_val p |}
  /\ py_eq (sort_val p) p = true.
Proof. intros Hok Hr Hf. split; [by eapply request_decodes|by apply py_eq_sort_val]. Qed.

(** Responses and events make the same round trip. *)
Lemma response_and_event_roundtrip :
  (forall id k r e resp max_bytes frame, json_ok r = true -> json_ok e = true ->
     new_response id k r e = Ok resp -> encode_response resp max_bytes = Ok frame ->
     decode_response (Some frame) max_bytes
       = Ok {| response_id := id; ok := k; response_result := sort_val r; error := sort_val e |}
     /\ py_eq (sort_val r) r = true /\ py_eq (sort_val e) e = true)
  /\ (forall id rev k s e max_bytes frame, json_ok s = true ->
     new_event id rev k s = Ok e -> encode_event e max_bytes = Ok frame ->
     decode_event (Some frame) max_bytes
       = Ok {| event_id := id; revision := rev; kind := k; summary := sort_val s |}
     /\ py_eq (sort_val s) s = true).
Proof.
  split.
  - intros. split_and!; [by eapply response_decodes|by apply py_eq_sort_val..].
  - intros. split; [by eapply event_decodes|by apply py_eq_sort_val].
Qed.

End deep.

(** A frame that fits [max_bytes] and is one line. *)
Definition one_line (max_bytes : pyval) (frame : string) : Prop :=
  exists z line, max_bytes = PInt z /\ frame = line +:+ String LF_byte "" /\ no_lf line = true
    /\ valid_utf8 line = true /\ (byte_len frame <= z)%Z.

Lemma encode_object_line payload max_bytes frame : json_ok (PDict payload) = true ->
  _encode_object payload max_bytes = Ok frame -> one_line max_bytes frame.
Proof.
  intros Hok (z & text & -> & _ & Ht & Hu & -> & Hle)%encode_object_Ok. exists z, text.
  split_and!; try done. by eapply dumps_no_lf.
Qed.

Lemma decode_object_line frame max_bytes d : _decode_object frame max_bytes = Ok d ->
  (exists s, frame = Some s /\ one_line max_bytes s) /\ json_value checker_depth (PDict d) = true.
Proof.
  unfold _decode_object. intros (u & (z & -> & Hz)%validate_max_bytes_Ok & H)%bind_Ok.
  destruct frame as [s|]; [|done]. apply bind_Ok in H as ([] & Hx & H). unfold raise_if, exceeds in Hx.
  destruct (Z.ltb_spec z (byte_len s)); [done|]. destruct (without_lf s) as [line|] eqn:Hl; [|done].
  apply without_lf_Some in Hl as ->. apply bind_Ok in H as ([] & Hc & H). unfold raise_if in Hc.
  rewrite count_byte_app in Hc. cbn [count_byte] in Hc. change (Ascii.eqb LF_byte LF_byte) with true in Hc.
  destruct (Nat.eqb _ 1) eqn:Hcount; [|done]. apply Nat.eqb_eq in Hcount.
  unfold utf8_text in H. destruct (valid_utf8 line) eqn:Hu; [|done]. cbn [mbind result_bind] in H.
  destruct (json_loads_with _ _ line) as [v|]; [|done]. destruct v; try done.
  destruct (_is_json_value (PDict d0)) eqn:Hv; [|done]. injection H as <-. split; [|done].
  eexists. split; [done|]. exists z, line. split_and!; try done. apply count_no_lf. lia.
Qed.

(** Every frame the module writes is one line of UTF-8 no longer, with
    its line feed, than the bound. *)
Lemma encoded_frames_are_bounded_lines max_bytes frame :
  (forall r allowed, json_ok (params r) = true ->
     encode_request r max_bytes allowed = Ok frame -> one_line max_bytes frame)
  /\ (forall r, json_ok (response_result r) = true -> json_ok (error r) = true ->
     encode_response r max_bytes = Ok frame -> one_line max_bytes frame)
  /\ (forall e, json_ok (summary e) = true ->
     encode_event e max_bytes = Ok frame -> one_line max_bytes frame).
Proof.
  split_and!.
  - intros r allowed Hok ([] & Hval & Henc)%bind_Ok.
    destruct (validate_request_inv _ _ _ Hval) as (Hid & Hm & _).
    eapply encode_object_line; [|done]. cbn.
    by rewrite Hok, (proj1 (json_ok_str _ Hid)), (proj1 (json_ok_str _ Hm)).
  - intros r Hok Hok' ([] & Hval & Henc)%bind_Ok.
    destruct (validate_response_inv _ _ Hval) as (Hid & (b & Hb) & _).
    eapply encode_object_line; [|done]. cbn. by rewrite Hok, Hok', (proj1 (json_ok_str _ Hid)), Hb.
  - intros e Hok ([] & Hval & Henc)%bind_Ok.
    destruct (validate_event_inv _ _ Hval) as (Hid & (z & Hz & _) & Hk & _).
    eapply encode_object_line; [|done]. cbn.
    by rewrite Hok, (proj1 (json_ok_str _ Hid)), (proj1 (json_ok_str _ Hk)), Hz.
Qed.

(** The failures of a decoded request: fixed codes and texts. *)
Definition decode_failures : list exn :=
  [_error "invalid_max_bytes" "maximum frame size is invalid"; _error "invalid_frame" "frame is invalid";
   _error "frame_too_large" "frame exceeds maximum size"; _error "incomplete_frame" "frame is incomplete";
   _error "invalid_frame" "frame must contain exactly one JSON document";
   _error "invalid_utf8" "frame is not valid UTF-8"; _error "invalid_json" "JSON document is invalid";
   _error "invalid_json_object" "JSON document must be an object";
   _error "invalid_request" "request envelope is invalid"; _invalid_json_value;
   _error "invalid_method_allowlist" "request method allowlist is invalid";
   _error "method_not_allowed" "request method is not allowed";
   _error "invalid_handshake" "handshake parameters are invalid"].

Ltac listed := apply (bool_decide_eq_true_1 _); vm_compute; reflexivity.

Lemma decode_object_failures frame mb e : _decode_object frame mb = Err e -> e ∈ decode_failures.
Proof.
  unfold _decode_object. intros [H|(u & _ & H)]%bind_Err.
  { unfold _validate_max_bytes in H. destruct mb; try (injection H as <-; listed).
    apply raise_if_Err in H as ->. listed. }
  destruct frame as [s|]; [|injection H as <-; listed].
  apply bind_Err in H as [->%raise_if_Err|(v & _ & H)]; [listed|].
  destruct (without_lf s) as [line|]; [|injection H as <-; listed].
  apply bind_Err in H as [->%raise_if_Err|(v' & _ & H)]; [listed|].
  apply bind_Err in H as [H|(doc & _ & H)].
  { unfold utf8_text in H. destruct (valid_utf8 line); [done|]. injection H as <-; listed. }
  destruct (json_loads_with _ _ doc) as [w|]; [|injection H as <-; listed].
  destruct w; try (injection H as <-; listed).
  destruct (_is_json_value _); [done|]. injection H as <-; listed.
Qed.

Lemma validate_request_failures r allowed e : _validate_request r allowed = Err e -> e ∈ decode_failures.
Proof.
  unfold _validate_request. intros [H|(ms & _ & H)]%bind_Err.
  { unfold _validate_allowed_methods in H. destruct (is_str allowed); [injection H as <-; listed|].
    destruct (py_iter allowed); [|injection H as <-; listed].
    destruct (forallb hashable a); [|injection H as <-; listed].
    apply bind_Err in H as [->%raise_if_Err|(u & _ & [=])]. listed. }
  apply bind_Err in H as [->%raise_if_Err|(u & _ & H)]; [listed|].
  apply bind_Err in H as [->%raise_if_Err|(u' & _ & H)]; [listed|].
  destruct (py_eq _ _); [|done]. apply raise_if_Err in H as ->. listed.
Qed.

(** What is decoded as a request came from one bounded line, passes the
    request's validation with its method in the allowlist, and is nested no
    deeper than the module allows; everything else fails with one of a fixed
    list of errors, none of which carries text of the frame. *)
Lemma decode_request_sound frame max_bytes allowed :
  match decode_request frame max_bytes allowed with
  | Ok r =>
      (exists s, frame = Some s /\ one_line max_bytes s)
      /\ _validate_request r allowed = Ok tt /\ shallow 0 (params r) = true
      /\ exists ms, _validate_allowed_methods allowed = Ok ms /\ in_list (method r) ms = true
  | Err e => e ∈ decode_failures
  end.
Proof.
  destruct (decode_request frame max_bytes allowed) as [r|e] eqn:E; unfold decode_request in E.
  - apply bind_Ok in E as (d & [Hf _]%decode_object_line & (? & _ & (r' & Hnew & ([] & Hval & [= ->])%bind_Ok)%bind_Ok)%bind_Ok).
    apply bind_Ok in Hnew as (p & [-> Hs]%detached_Ok & [= <-]).
    pose proof (validate_request_inv _ _ _ Hval) as (_ & _ & _ & _ & Hm). cbn [params] in *.
    by split_and!.
  - apply bind_Err in E as [E|(d & _ & E)]; [by eapply decode_object_failures|].
    apply bind_Err in E as [->%raise_if_Err|(u & _ & E)]; [listed|].
    apply bind_Err in E as [E|(r & _ & E)].
    + apply bind_Err in E as [E|(p & _ & [=])]. unfold _detached_json in E. rewrite freeze_spec in E.
      destruct (shallow 0 _); [done|]. injection E as <-. listed.
    + apply bind_Err in E as [E|(v & _ & [=])]. by eapply validate_request_failures.
Qed.
Lemma in_list_existsb m ms : in_list (PStr m) ms = existsb (fun x => bool_decide (x = PStr m)) ms.
Proof.
  unfold in_list. induction ms as [|x ms IH]; [done|]. cbn [existsb]. rewrite IH. f_equal.
  apply eq_bool_prop_intro. rewrite !Is_true_true, bool_decide_eq_true. apply py_eq_str_l.
Qed.

Lemma py_eq_required v w : _required_string v = true -> _required_string w = true ->
  py_eq v w = bool_decide (v = w).
Proof.
  intros (s & -> & _)%required_string_inv (t & -> & _)%required_string_inv.
  apply eq_bool_prop_intro. rewrite !Is_true_true, bool_decide_eq_true, py_eq_str_l. naive_solver.
Qed.

(** A client's handshake, sent over the wire, opens writing exactly when
    it speaks the daemon's protocol version and names the daemon's project;
    otherwise it can only ask for the status. *)
Lemma handshake_over_the_wire (scanner_deep : 66 <= scanner_depth) (checker_deep : 66 <= checker_depth)
  id hash version protocol r max_bytes frame own_hash daemon_version view :
  handshake id hash version protocol = Ok r ->
  encode_request r max_bytes READ_ONLY_METHODS = Ok frame ->
  forallb _required_string [own_hash; daemon_version; view] = true ->
  exists r' reply, decode_request (Some frame) max_bytes READ_ONLY_METHODS = Ok r'
    /\ negotiate_handshake r' own_hash daemon_version view = Ok reply
    /\ let granted := bool_decide (protocol = PStr DAEMON_RPC_PROTOCOL_VERSION /\ hash = own_hash) in
       dget "write_enabled" reply = PBool granted
       /\ dget "capabilities" reply
          = PList (PStr <$> if granted then ["status"; "mutate"; "subscribe"] else ["status"]).
Proof.
  intros (r0 & Hnew & ([] & Hval & [= ->])%bind_Ok)%bind_Ok Hf Hctx.
  set (p := [("project_root_hash", hash); ("client_version", version); ("protocol_version", protocol)]) in *.
  pose proof Hnew as (q & [-> Hs]%detached_Ok & Hr)%bind_Ok. injection Hr as <-.
  assert (Hreq : _required_string hash = true /\ _required_string version = true /\ _required_string protocol = true).
  { unfold _validate_request in Hval. apply bind_Ok in Hval as (ms & _ & (? & _ & (? & _ & H)%bind_Ok)%bind_Ok).
    cbn [method] in H. change (py_eq (PStr "handshake") (PStr "handshake")) with true in H.
    unfold _validate_handshake_params, raise_if in H. cbn [params] in H.
    destruct (negb (is_dict (PDict p)) || _ || _ || _) eqn:E; [done|]. split_guards.
    repeat match goal with X : forallb _ _ = true |- _ => cbn in X end. split_guards. done. }
  destruct Hreq as (Hh & Hv & Hp).
  assert (Hok : json_ok (PDict p) = true).
  { cbn. by rewrite (proj1 (json_ok_str _ Hh)), (proj1 (json_ok_str _ Hv)), (proj1 (json_ok_str _ Hp)). }
  pose proof (request_decodes scanner_deep checker_deep _ _ _ _ _ _ _ Hok Hnew Hf) as Hdec.
  eexists _, _. split; [exact Hdec|]. unfold negotiate_handshake. cbn [method params].
  change (py_eq (PStr "handshake") (PStr "handshake")) with true. unfold raise_if at 1. cbn [negb mbind result_bind].
  assert (_validate_request {| request_id := id; method := PStr "handshake"; params := sort_val (PDict p) |}
            (PTuple [PStr "handshake"]) = Ok tt) as ->.
  { rewrite validate_request_sort by done. revert Hval. unfold _validate_request.
    change (_validate_allowed_methods READ_ONLY_METHODS) with (Ok [PStr "handshake"; PStr "status"]).
    change (_validate_allowed_methods (PTuple [PStr "handshake"])) with (Ok [PStr "handshake"]).
    cbn [mbind result_bind method]. rewrite !in_list_existsb. done. }
  cbn [mbind result_bind]. rewrite Hctx. unfold raise_if. cbn [negb mbind result_bind].
  split; [reflexivity|]. rewrite !get_item_sort by done.
  change (get_item "protocol_version" (PDict p)) with protocol. change (get_item "project_root_hash" (PDict p)) with hash.
  destruct (json_ok_str _ Hp) as (_ & -> & _ & _), (json_ok_str _ Hh) as (_ & -> & _ & _).
  cbn in Hctx. split_guards. rewrite !py_eq_required by done.
  cbn [dget dlookup String.eqb]. rewrite <- bool_decide_and. done.
Qed.
End laws.

(** ** Witnesses *)

#[local] Instance sample_limits : RecursionLimits := {| scanner_depth := 1000; checker_depth := 400 |}.
Lemma sample_deep : 66 <= scanner_depth /\ 66 <= checker_depth.
Proof. cbn. lia. Qed.
#[local] Existing Instance sample_float_text.
#[local] Existing Instance sample_float_laws.

Definition sample_params : pyval :=
  PDict [("since", PInt (-12)); ("filter", PList [PStr (String dq (String LF_byte "é")); PNone; PFloat 3 (-1)]);
         ("deep", PDict [("b", PBool true); ("a", PDict [])])].
Definition sample_request : RpcRequest :=
  {| request_id := PStr "r-1"; method := PStr "status"; params := sample_params |}.
Definition sample_frame : string :=
  match encode_request sample_request (PInt 4096) READ_ONLY_METHODS with Ok f => f | Err _ => "" end.

Theorem request_roundtrip_witness :
  decode_request (Some sample_frame) (PInt 4096) READ_ONLY_METHODS
    = Ok {| request_id := PStr "r-1"; method := PStr "status"; params := sort_val sample_params |}
  /\ py_eq (sort_val sample_params) sample_params = true.
Proof.
  apply (request_roundtrip (proj1 sample_deep) (proj2 sample_deep) (PStr "r-1") (PStr "status") sample_params sample_request);
    vm_compute; reflexivity.
Defined.

Definition sample_response : RpcResponse :=
  {| response_id := PStr "r-1"; ok := PBool true; response_result := sample_params; error := PNone |}.
Definition sample_event : RpcEvent :=
  {| event_id := PStr "e-1"; revision := PInt 7; kind := PStr "changed"; summary := PDict [] |}.

Lemma response_and_event_roundtrip_witness :
  (exists frame, encode_response sample_response (PInt 4096) = Ok frame
     /\ decode_response (Some frame) (PInt 4096)
        = Ok {| response_id := PStr "r-1"; ok := PBool true; response_result := sort_val sample_params;
                error := PNone |})
  /\ (exists frame, encode_event sample_event (PInt 4096) = Ok frame
     /\ decode_event (Some frame) (PInt 4096) = Ok sample_event).
Proof.
  split.
  - destruct (encode_response sample_response (PInt 4096)) as [f|e] eqn:E; [|by vm_compute in E].
    exists f. split; [done|].
    apply (proj1 (response_and_event_roundtrip (proj1 sample_deep) (proj2 sample_deep)) (PStr "r-1") (PBool true)
             sample_params PNone sample_response); try done; vm_compute; reflexivity.
  - destruct (encode_event sample_event (PInt 4096)) as [f|e] eqn:E; [|by vm_compute in E].
    exists f. split; [done|].
    apply (proj2 (response_and_event_roundtrip (proj1 sample_deep) (proj2 sample_deep)) (PStr "e-1") (PInt 7)
             (PStr "changed") (PDict []) sample_event); try done; vm_compute; reflexivity.
Defined.

Theorem encoded_frames_are_bounded_lines_witness : one_line (PInt 4096) sample_frame.
Proof.
  apply (proj1 (encoded_frames_are_bounded_lines (PInt 4096) sample_frame) sample_request READ_ONLY_METHODS);
    vm_compute; reflexivity.
Defined.

Definition sample_handshake : RpcRequest :=
  match handshake (PStr "h-1") (PStr "abc") (PStr "1.0") (PStr DAEMON_RPC_PROTOCOL_VERSION) with
  | Ok r => r | Err _ => sample_request end.

Theorem handshake_over_the_wire_witness : exists frame r' reply,
  encode_request sample_handshake (PInt 400) READ_ONLY_METHODS = Ok frame
  /\ decode_request (Some frame) (PInt 400) READ_ONLY_METHODS = Ok r'
  /\ negotiate_handshake r' (PStr "abc") (PStr "0.9") (PStr "v3") = Ok reply
  /\ dget "write_enabled" reply = PBool true.
Proof.
  destruct (encode_request sample_handshake (PInt 400) READ_ONLY_METHODS) as [f|e] eqn:E; [|by vm_compute in E].
  destruct (handshake_over_the_wire (proj1 sample_deep) (proj2 sample_deep) (PStr "h-1") (PStr "abc") (PStr "1.0")
    (PStr DAEMON_RPC_PROTOCOL_VERSION) sample_handshake (PInt 400) f (PStr "abc") (PStr "0.9") (PStr "v3"))
    as (r' & reply & H1 & H2 & H3 & _); [vm_compute; reflexivity|exact E|vm_compute; reflexivity|].
  exists f, r', reply. by split_and!.
Defined.
