(* ===== verification/Handoff.v ===== *)
(** * Worker handoffs ([workflow.py])

    The one compact record a Worker's reply becomes, whatever transport it
    came by, its persisted form and its validation; and the structured reply
    block a Worker prints: the text AgentDeck files, and the parser that finds
    the block of a given token in a Worker's output. *)
From S2P Require Import Prelude PyStr PyVal Json.
From Stdlib Require Import Ascii.

Definition REPLY_FIELDS : list string :=
  ["handoff_token"; "status"; "summary"; "verification"; "risks"; "next_steps"].
Definition REPLY_STATUSES : list string := ["completed"; "blocked"; "failed"].
Definition CANONICAL_HANDOFF_FIELDS : list string :=
  ["handoff_token"; "status"; "summary"; "verification"; "risks"; "next_steps"; "artifacts"; "trace_ids"].
Definition MAX_CANONICAL_HANDOFF_BYTES : nat := 32 * 1024.
Definition MAX_CANONICAL_HANDOFF_ITEMS : nat := 64.

(** ** The canonical record *)

Record CanonicalArtifact := { path : string; content_hash : option string }.
Record CanonicalHandoff := {
  handoff_token : string; status : string; summary : string; verification : string;
  risks : string; next_steps : string; artifacts : list CanonicalArtifact; trace_ids : list string
}.

Definition is_content_hash (s : string) : bool := hex_id "sha256:" 64 s.

Definition artifact_doc (a : CanonicalArtifact) : pyval :=
  PDict [("path", PStr (path a));
         ("content_hash", match content_hash a with Some h => PStr h | None => PNone end)].
Definition compact (h : CanonicalHandoff) : dict :=
  [("handoff_token", PStr (handoff_token h)); ("status", PStr (status h)); ("summary", PStr (summary h));
   ("verification", PStr (verification h)); ("risks", PStr (risks h)); ("next_steps", PStr (next_steps h));
   ("artifacts", PList (artifact_doc <$> artifacts h)); ("trace_ids", PList (PStr <$> trace_ids h))].

(** A reply's four texts and its status. *)
Record compact_reply := {
  cr_status : string; cr_summary : string; cr_verification : string; cr_risks : string; cr_next_steps : string
}.

Definition required_text (field : string) (reply : dict) : result string :=
  let e := ValueError ("worker reply " +:+ field +:+ " must be a non-empty string") in
  match dget field reply with
  | PStr s => if String.eqb (strip s) "" then Err e else Ok s
  | _ => Err e
  end.

Section handoff.
  Context {repr : PyRepr} {ft : FloatText}.

Definition _validated_compact_reply (reply : pyval) : result compact_reply :=
  match reply with
  | PDict d =>
      known ← in_str_set (dget "status" d) REPLY_STATUSES;
      match known, dget "status" d with
      | true, PStr status =>
          summary ← required_text "summary" d;
          verification ← required_text "verification" d;
          risks ← required_text "risks" d;
          next_steps ← required_text "next_steps" d;
          Ok {| cr_status := status; cr_summary := summary; cr_verification := verification;
                cr_risks := risks; cr_next_steps := next_steps |}
      | _, v => Err (ValueError ("invalid workflow reply status: " +:+ py_str v))
      end
  | _ => Err (ValueError "worker reply must be an object")
  end.

(** The token of the result is the expected one. *)
Definition validate_correlated_workflow_reply (reply expected_handoff_token : pyval)
    : result (string * compact_reply) :=
  match expected_handoff_token with
  | PStr token =>
      if String.eqb token "" then Err (ValueError "workflow handoff token is invalid")
      else _ ← raise_if (match reply with PDict d => negb (py_eq (dget "handoff_token" d) (PStr token)) | _ => true end)
                        (ValueError "workflow handoff token does not match");
           r ← _validated_compact_reply reply;
           Ok (token, r)
  | _ => Err (ValueError "workflow handoff token is invalid")
  end.

Definition compact_artifact (require_hashes : bool) (artifact : pyval) : result CanonicalArtifact :=
  let e := ValueError "worker artifact evidence is invalid" in
  match artifact with
  | PDict d =>
      if keys_are ["path"; "content_hash"] d then
        match dget "path" d, dget "content_hash" d with
        | PStr p, PNone =>
            if String.eqb p "" || require_hashes then Err e else Ok {| path := p; content_hash := None |}
        | PStr p, PStr h =>
            if String.eqb p "" || negb (is_content_hash h) then Err e
            else Ok {| path := p; content_hash := Some h |}
        | _, _ => Err e
        end
      else Err e
  | _ => Err e
  end.

Definition nonempty_str (v : pyval) : option string :=
  match v with PStr s => if String.eqb s "" then None else Some s | _ => None end.

Definition compact_traces (trace_ids : pyval) : result (list string) :=
  let e := ValueError "worker trace ids are invalid" in
  match trace_ids with
  | PList l =>
      ids ← mapR (fun v => match nonempty_str v with Some s => Ok s | None => Err e end) l;
      if bool_decide (NoDup ids) then Ok ids else Err e
  | _ => Err e
  end.

Definition build_canonical_handoff (reply artifacts trace_ids expected_handoff_token require_artifact_hashes : pyval)
    : result CanonicalHandoff :=
  '(token, r) ← validate_correlated_workflow_reply reply expected_handoff_token;
  match require_artifact_hashes with
  | PBool hashes =>
      match artifacts with
      | PList l =>
          items ← mapR (compact_artifact hashes) l;
          ids ← compact_traces trace_ids;
          Ok {| handoff_token := token; status := cr_status r; summary := cr_summary r;
                verification := cr_verification r; risks := cr_risks r; next_steps := cr_next_steps r;
                artifacts := items; trace_ids := ids |}
      | _ => Err (ValueError "worker artifacts must be a list")
      end
  | _ => Err (ValueError "artifact hash policy is invalid")
  end.

Definition items_bounded (v : pyval) : bool :=
  match v with PList l => Nat.leb (length l) MAX_CANONICAL_HANDOFF_ITEMS | _ => false end.

Definition validate_canonical_handoff (value expected_handoff_token : pyval)
    : result CanonicalHandoff :=
  let invalid := ValueError "canonical Worker handoff is invalid" in
  match value with
  | PDict d =>
      if negb (keys_are CANONICAL_HANDOFF_FIELDS d) then Err invalid
      else match nonempty_str (dget "handoff_token" d) with
      | None => Err invalid
      | Some token =>
          _ ← raise_if (match expected_handoff_token with
                        | PNone => false
                        | expected => negb (py_eq (PStr token) expected)
                        end) (ValueError "canonical Worker handoff lineage is invalid");
          _ ← raise_if (negb (items_bounded (dget "artifacts" d)) || negb (items_bounded (dget "trace_ids" d))) invalid;
          rebuilt ← build_canonical_handoff (PDict (map (fun key => (key, dget key d)) REPLY_FIELDS))
                      (dget "artifacts" d) (dget "trace_ids" d) (PStr token) (PBool true);
          _ ← raise_if (negb (py_eq (PDict (compact rebuilt)) value))
                       (ValueError "canonical Worker handoff is not canonical");
          encoded ← json_dumps_ascii (PDict (compact rebuilt));
          _ ← raise_if (Nat.ltb MAX_CANONICAL_HANDOFF_BYTES (String.length encoded))
                       (ValueError "canonical Worker handoff exceeds size limit");
          Ok rebuilt
      end
  | _ => Err invalid
  end.

Definition validate_compact_worker_outcome (reply artifacts trace_ids expected_handoff_token : pyval) : result dict :=
  h ← build_canonical_handoff reply artifacts trace_ids expected_handoff_token (PBool true);
  Ok (compact h).

(** [canonical] is a [CanonicalHandoff] by its type. *)
Definition render_legacy_handoff (canonical : CanonicalHandoff) (step : Z) (agent_id : string) : result dict :=
  if (step <? 1)%Z || String.eqb agent_id "" then Err (ValueError "legacy workflow handoff identity is invalid")
  else match trace_ids canonical with
  | [] => Err IndexError
  | trace :: _ =>
      Ok [("step", PInt step); ("agent_id", PStr agent_id); ("status", PStr (status canonical));
          ("summary", PStr (summary canonical)); ("verification", PStr (verification canonical));
          ("risks", PStr (risks canonical)); ("next_steps", PStr (next_steps canonical));
          ("artifact_paths", PList (PStr ∘ path <$> artifacts canonical));
          ("trace_command", PStr ("agentdeck trace --id " +:+ trace))]
  end.

Definition build_compact_handoff (step : Z) (agent_id : string) (reply : dict) (reply_id : string)
    (artifact_paths : list string) : result dict :=
  let token := match dget "handoff_token" reply with PStr t => t | _ => "" end in
  canonical ← build_canonical_handoff (PDict reply)
    (PList ((fun p => PDict [("path", PStr p); ("content_hash", PNone)]) <$> artifact_paths))
    (PList [PStr reply_id]) (PStr token) (PBool false);
  render_legacy_handoff canonical step agent_id.

(** ** Reply blocks *)

(** The prompt marks of the terminal interfaces, each with a space. *)
Definition tui_prefixes : list string := ["• "; "› "; "⏺ "].
Definition strip_tui (line : string) : string :=
  match omap (fun p => drop_prefix p line) tui_prefixes with
  | rest :: _ => lstrip rest
  | [] => line
  end.

Record block_state := {
  bs_blocks : list dict;             (** [blocks] *)
  bs_current : option dict;          (** [current] *)
  bs_pending : option string         (** [pending_key] *)
}.

Definition block_fields : list string := REPLY_FIELDS ++ ["full_output_path"].

(** One line of the output. *)
Definition block_line (s : block_state) (raw_line : string) : block_state :=
  let line := strip_tui (strip raw_line) in
  match drop_prefix "handoff_token:" line with
  | Some rest =>
      {| bs_blocks := bs_blocks s ++ match bs_current s with Some c => [c] | None => [] end;
         bs_current := Some [("handoff_token", PStr (strip rest))]; bs_pending := None |}
  | None =>
      match bs_current s with
      | None => s
      | Some current =>
          let continued :=
            match bs_pending s with
            | None => s
            | Some key =>
                if String.eqb line "" then {| bs_blocks := bs_blocks s; bs_current := Some current; bs_pending := None |}
                else let old := match dget key current with PStr t => t | _ => "" end in
                     {| bs_blocks := bs_blocks s;
                        bs_current := Some (dset key (PStr (if String.eqb old "" then line
                                                            else strip (old +:+ " " +:+ line))) current);
                        bs_pending := Some key |}
            end in
          match partition ":" line with
          | (key, Some value) =>
              let key := strip key in
              if in_strs key block_fields then
                let value := strip value in
                {| bs_blocks := bs_blocks s; bs_current := Some (dset key (PStr value) current);
                   bs_pending := if String.eqb value "" then Some key else None |}
              else continued
          | (_, None) => continued
          end
      end
  end.

Definition _reply_blocks (output : string) : list dict :=
  let s := foldl block_line {| bs_blocks := []; bs_current := None; bs_pending := None |} (splitlines output) in
  bs_blocks s ++ match bs_current s with Some c => [c] | None => [] end.

Definition parse_correlated_reply (output token : string) : result (option dict) :=
  match last (List.filter (fun item => py_eq (dget "handoff_token" item) (PStr token)) (_reply_blocks output)) with
  | None => Ok None
  | Some reply =>
      if forallb (fun field => truthy (dget field reply)) REPLY_FIELDS then
        _ ← validate_correlated_workflow_reply (PDict reply) (PStr token);
        Ok (Some reply)
      else Ok None
  end.

(** A reply of texts; [reply[field]] of a missing field raises [KeyError]. *)
Definition reply_line (reply : dict) (field : string) : result string :=
  match dlookup field reply with
  | Some v => Ok (field +:+ ": " +:+ py_str v)
  | None => Err (KeyError field)
  end.
Definition _structured_reply_text (reply : dict) : result string :=
  lines ← mapR (reply_line reply)
            (REPLY_FIELDS ++ (if truthy (dget "full_output_path" reply) then ["full_output_path"] else []));
  Ok (join (String "010" "") lines).

(** ** Laws *)

(** What a canonical record holds. *)
Definition good_text (s : string) : Prop := strip s <> "".
Definition good_artifact (hashes : bool) (a : CanonicalArtifact) : Prop :=
  path a <> "" /\ match content_hash a with Some h => is_content_hash h = true | None => hashes = false end.
Definition good_handoff (hashes : bool) (h : CanonicalHandoff) : Prop :=
  handoff_token h <> "" /\ status h ∈ REPLY_STATUSES
  /\ good_text (summary h) /\ good_text (verification h) /\ good_text (risks h) /\ good_text (next_steps h)
  /\ Forall (good_artifact hashes) (artifacts h)
  /\ Forall (fun t => t <> "") (trace_ids h) /\ NoDup (trace_ids h).

Lemma required_text_Ok field d s : required_text field d = Ok s -> dget field d = PStr s /\ good_text s.
Proof.
  unfold required_text. destruct (dget field d); try done. destruct (String.eqb_spec (strip s0) ""); [done|].
  by intros [= <-].
Qed.

Lemma required_text_good field d s : dget field d = PStr s -> good_text s -> required_text field d = Ok s.
Proof. unfold required_text, good_text. intros -> Hs. by rewrite (proj2 (String.eqb_neq _ _) Hs). Qed.

Lemma validated_compact_reply_Ok reply r : _validated_compact_reply reply = Ok r ->
  exists d, reply = PDict d /\ dget "status" d = PStr (cr_status r) /\ cr_status r ∈ REPLY_STATUSES
    /\ dget "summary" d = PStr (cr_summary r) /\ dget "verification" d = PStr (cr_verification r)
    /\ dget "risks" d = PStr (cr_risks r) /\ dget "next_steps" d = PStr (cr_next_steps r)
    /\ good_text (cr_summary r) /\ good_text (cr_verification r) /\ good_text (cr_risks r) /\ good_text (cr_next_steps r).
Proof.
  unfold _validated_compact_reply. destruct reply; try done. intros (k & Hk & H)%bind_Ok.
  destruct k; [|by destruct (dget _ d)]. destruct (dget "status" d) as [| | | |s| | |] eqn:Hs; try done.
  rewrite in_str_set_str in Hk. assert (in_strs s REPLY_STATUSES = true) as Hin%in_strs_spec by congruence.
  apply bind_Ok in H as (a & [Ha Ga]%required_text_Ok & (b & [Hb Gb]%required_text_Ok & (c & [Hc Gc]%required_text_Ok
    & (e & [He Ge]%required_text_Ok & [= <-])%bind_Ok)%bind_Ok)%bind_Ok).
  exists d. by split_and!.
Qed.

Lemma correlated_Ok reply tok t r : validate_correlated_workflow_reply reply tok = Ok (t, r) ->
  tok = PStr t /\ t <> "" /\ _validated_compact_reply reply = Ok r
  /\ exists d, reply = PDict d /\ dget "handoff_token" d = PStr t.
Proof.
  unfold validate_correlated_workflow_reply. destruct tok; try done. destruct (String.eqb_spec s ""); [done|].
  intros ([] & Hg & (r' & Hr & [= <- <-])%bind_Ok)%bind_Ok. unfold raise_if in Hg.
  destruct reply; try done. destruct (py_eq _ _) eqn:He; [|done]. apply py_eq_str in He. split_and!; try done.
  by exists d.
Qed.

Lemma compact_artifact_Ok hashes v a : compact_artifact hashes v = Ok a -> good_artifact hashes a.
Proof.
  unfold compact_artifact, good_artifact. destruct v; try done. destruct (keys_are _ d); [|done].
  destruct (dget "path" d); try done. destruct (dget "content_hash" d); try done;
    destruct (String.eqb_spec s ""); try done; cbn [orb].
  - destruct hashes; [done|]. by intros [= <-].
  - destruct (is_content_hash s0) eqn:E; [|done]. by intros [= <-].
Qed.

Lemma compact_traces_Ok v ids : compact_traces v = Ok ids ->
  v = PList (PStr <$> ids) /\ Forall (fun t => t <> "") ids /\ NoDup ids.
Proof.
  unfold compact_traces. destruct v; try done. intros (ids' & Hids & H)%bind_Ok.
  destruct (bool_decide (NoDup ids')) eqn:Hd; [|done]. injection H as <-. apply bool_decide_eq_true in Hd.
  apply mapR_Ok in Hids. enough (l = PStr <$> ids' /\ Forall (fun t => t <> "") ids') as [-> Hf] by done.
  clear Hd. induction Hids as [|v t l ids Hv _ [-> IH]]; [by split|].
  unfold nonempty_str in Hv. destruct v; try done. destruct (String.eqb_spec s ""); [done|].
  injection Hv as <-. split; [done|by constructor].
Qed.

Lemma compact_traces_good ids : Forall (fun t => t <> "") ids -> NoDup ids ->
  compact_traces (PList (PStr <$> ids)) = Ok ids.
Proof.
  intros Hf Hd. unfold compact_traces. 
  assert (mapR (fun v => match nonempty_str v with Some s => Ok s | None => Err (ValueError "worker trace ids are invalid") end)
            (PStr <$> ids) = Ok ids) as ->.
  { apply mapR_Ok. clear Hd. induction Hf as [|t ids Ht _ IH]; [constructor|].
    apply Forall2_cons; split; [|exact IH]. unfold nonempty_str. by rewrite (proj2 (String.eqb_neq _ _) Ht). }
  cbn [mbind result_bind]. by rewrite bool_decide_eq_true_2.
Qed.

Lemma compact_artifacts_good hashes l : Forall (good_artifact hashes) l ->
  mapR (compact_artifact hashes) (artifact_doc <$> l) = Ok l.
Proof.
  intros H. apply mapR_Ok. induction H as [|[p h] l [Hp Hh] _ IH]; [constructor|].
  apply Forall2_cons; split; [|exact IH]. cbn in Hp, Hh. unfold compact_artifact, artifact_doc.
  change (keys_are _ _) with true. cbv iota. cbn [path content_hash].
  change (dget "path" _) with (PStr p). apply String.eqb_neq in Hp. destruct h as [h|].
  - change (dget "content_hash" _) with (PStr h). by rewrite Hp, Hh.
  - change (dget "content_hash" _) with PNone. by rewrite Hp, Hh.
Qed.

Lemma build_Ok reply arts traces tok hashes h : build_canonical_handoff reply arts traces tok (PBool hashes) = Ok h ->
  good_handoff hashes h /\ tok = PStr (handoff_token h) /\ traces = PList (PStr <$> trace_ids h)
  /\ exists d, reply = PDict d /\ dget "handoff_token" d = PStr (handoff_token h)
     /\ dget "status" d = PStr (status h) /\ dget "summary" d = PStr (summary h).
Proof.
  unfold build_canonical_handoff. intros ([t r] & (-> & Ht & Hr & d & -> & Hd)%correlated_Ok & H)%bind_Ok.
  destruct arts; try done. apply bind_Ok in H as (items & Hi%mapR_Ok & (ids & (-> & Hf & Hn)%compact_traces_Ok & [= <-])%bind_Ok).
  apply validated_compact_reply_Ok in Hr as (d' & [= <-] & Hs & Hs' & H1 & _ & _ & _ & G1 & G2 & G3 & G4).
  split_and!; try done; cbn.
  - split_and!; try done. cbn. clear -Hi. induction Hi; constructor; [by eapply compact_artifact_Ok|done].
  - exists d. by split_and!.
Qed.

(** A good record is rebuilt from its own compact form. *)
Lemma build_good hashes h : good_handoff hashes h ->
  build_canonical_handoff (PDict (map (fun key => (key, dget key (compact h))) REPLY_FIELDS))
    (PList (artifact_doc <$> artifacts h)) (PList (PStr <$> trace_ids h)) (PStr (handoff_token h)) (PBool hashes)
  = Ok h.
Proof.
  intros (Ht & Hs & G1 & G2 & G3 & G4 & Ha & Hf & Hn). unfold build_canonical_handoff.
  unfold validate_correlated_workflow_reply. rewrite (proj2 (String.eqb_neq _ _) Ht).
  change (dget "handoff_token" (map _ _)) with (PStr (handoff_token h)).
  rewrite (proj2 (py_eq_str _ _) eq_refl). cbn [negb raise_if]. unfold raise_if. cbn [mbind result_bind].
  unfold _validated_compact_reply. change (dget "status" (map _ _)) with (PStr (status h)).
  rewrite in_str_set_str, (proj2 (in_strs_spec _ _) Hs). cbn [mbind result_bind].
  rewrite (required_text_good "summary" _ (summary h)), (required_text_good "verification" _ (verification h)),
    (required_text_good "risks" _ (risks h)), (required_text_good "next_steps" _ (next_steps h)) by done.
  cbn [mbind result_bind]. rewrite compact_artifacts_good, compact_traces_good by done. by destruct h.
Qed.

Lemma compact_wf h : wf_val (PDict (compact h)) = true.
Proof.
  cbn. rewrite andb_true_r, !andb_true_iff, !forallb_forall. split_and!.
  - apply bool_decide_eq_true. repeat constructor; not_in.
  - intros v (a & <- & _)%in_map_iff. cbn. rewrite andb_true_r. by destruct (content_hash a).
  - by intros v (t & <- & _)%in_map_iff.
Qed.

(** A record fits its bounds. *)
Definition bounded_handoff (h : CanonicalHandoff) : Prop :=
  length (artifacts h) <= MAX_CANONICAL_HANDOFF_ITEMS /\ length (trace_ids h) <= MAX_CANONICAL_HANDOFF_ITEMS
  /\ exists text, json_dumps_ascii (PDict (compact h)) = Ok text
     /\ String.length text <= MAX_CANONICAL_HANDOFF_BYTES.

Lemma validate_compact h expected : good_handoff true h -> bounded_handoff h ->
  expected = PNone \/ expected = PStr (handoff_token h) ->
  validate_canonical_handoff (PDict (compact h)) expected = Ok h.
Proof.
  intros Hg (Ha & Ht & text & Hd & Hs) He. unfold validate_canonical_handoff.
  change (keys_are CANONICAL_HANDOFF_FIELDS (compact h)) with true. cbn [negb].
  change (dget "handoff_token" (compact h)) with (PStr (handoff_token h)). unfold nonempty_str.
  rewrite (proj2 (String.eqb_neq _ _)) by apply Hg.
  change (dget "artifacts" (compact h)) with (PList (artifact_doc <$> artifacts h)).
  change (dget "trace_ids" (compact h)) with (PList (PStr <$> trace_ids h)).
  assert (match expected with PNone => false | e => negb (py_eq (PStr (handoff_token h)) e) end = false) as ->.
  { destruct He as [->| ->]; [done|]. by rewrite (proj2 (py_eq_str _ _)). }
  unfold raise_if at 1. cbn [mbind result_bind items_bounded].
  rewrite !length_fmap, (proj2 (Nat.leb_le _ _) Ha), (proj2 (Nat.leb_le _ _) Ht).
  unfold raise_if at 1. cbn [negb orb mbind result_bind].
  rewrite build_good by done. cbn [mbind result_bind]. rewrite py_eq_refl by apply compact_wf.
  unfold raise_if at 1. cbn [negb mbind result_bind]. rewrite Hd. cbn [mbind result_bind].
  unfold raise_if. by rewrite (proj2 (Nat.ltb_ge _ _)).
Qed.

Lemma validate_canonical_Ok value expected h : validate_canonical_handoff value expected = Ok h ->
  good_handoff true h /\ bounded_handoff h /\ (expected = PNone \/ expected = PStr (handoff_token h))
  /\ py_eq (PDict (compact h)) value = true.
Proof.
  unfold validate_canonical_handoff. destruct value as [| | | | | | |d]; try done.
  destruct (negb (keys_are _ d)); [done|]. destruct (nonempty_str _) as [token|]; [|done].
  intros ([] & Hexp & ([] & Hb & (h' & Hbuild & ([] & Heq & (text & Htext & ([] & Hlen & [= <-])%bind_Ok)%bind_Ok)
    %bind_Ok)%bind_Ok)%bind_Ok)%bind_Ok.
  unfold raise_if in *. destruct (build_Ok _ _ _ _ _ _ Hbuild) as (Hg & [= ->] & Htr & _).
  destruct (negb (items_bounded (dget "artifacts" d)) || negb (items_bounded (dget "trace_ids" d))) eqn:E; [done|].
  destruct (negb (py_eq (PDict _) _)) eqn:Eq; [done|]. destruct (Nat.ltb _ _) eqn:El; [done|]. split_guards.
  assert (length (artifacts h') <= MAX_CANONICAL_HANDOFF_ITEMS) as Ha.
  { unfold build_canonical_handoff in Hbuild. apply bind_Ok in Hbuild as ([] & _ & Hbuild).
    destruct (dget "artifacts" d) as [| | | | |l| |]; try done.
    apply bind_Ok in Hbuild as (items & Hi%mapR_Ok%Forall2_length & (ids & _ & [= <-])%bind_Ok).
    cbn. cbn in H. apply Nat.leb_le in H. lia. }
  rewrite Htr in H0. cbn in H0. rewrite length_fmap in H0. apply Nat.leb_le in H0. apply Nat.ltb_ge in El.
  split_and!; try done.
  - split_and!; try done. by exists text.
  - destruct expected; try (by left); right; destruct (py_eq (PStr _) _) eqn:Ee in Hexp; try done;
      by apply py_eq_str_l in Ee.
Qed.

(** C35: Any handoff the module builds, when it fits the bounds, is accepted
    back from its persisted form as the same record; and whatever persisted
    form is accepted equals the form of the record it is accepted as, carries
    the expected token and fits the bounds. *)
Theorem canonical_handoff_roundtrip :
  (forall reply arts traces token h,
     build_canonical_handoff reply arts traces token (PBool true) = Ok h -> bounded_handoff h ->
     validate_canonical_handoff (PDict (compact h)) token = Ok h
     /\ validate_canonical_handoff (PDict (compact h)) PNone = Ok h)
  /\ (forall value expected h, validate_canonical_handoff value expected = Ok h ->
     py_eq (PDict (compact h)) value = true /\ bounded_handoff h /\ good_handoff true h
     /\ (expected <> PNone -> expected = PStr (handoff_token h))
     /\ validate_canonical_handoff (PDict (compact h)) expected = Ok h).
Proof.
  split.
  - intros reply arts traces token h (Hg & -> & _)%build_Ok Hb. split; apply validate_compact; auto.
  - intros value expected h (Hg & Hb & He & Hv)%validate_canonical_Ok. split_and!; try done.
    + intros Hne. by destruct He.
    + by apply validate_compact.
Qed.

(** *** The text of a reply and its parser *)

(** A text that fits on one line as it is: no line break, no surrounding
    white space, not empty. *)
Definition clean (v : string) : Prop :=
  starts_cont v = false /\ strip v = v /\ v <> "" /\ Forall (fun c => is_linebreak c = false) (chars v).

Lemma drop_while_length {A} (p : A -> bool) l : length (drop_while p l) <= length l.
Proof. induction l as [|x l IH]; cbn; [done|]. destruct (p x); cbn; lia. Qed.

Lemma drop_while_same {A} (p : A -> bool) l : length l <= length (drop_while p l) -> drop_while p l = l.
Proof.
  destruct l as [|x l]; [done|]. cbn [drop_while]. destruct (p x); [|done].
  pose proof (drop_while_length p l). cbn. lia.
Qed.

Lemma strip_chars_last k : strip_chars k = k -> drop_while is_space (reverse k) = reverse k.
Proof.
  intros Hk. apply drop_while_same. rewrite length_reverse. rewrite <- Hk at 1. unfold strip_chars.
  rewrite length_reverse. pose proof (drop_while_length is_space k).
  destruct (Nat.eq_dec (length (drop_while is_space k)) (length k)) as [He|Hne].
  - rewrite (drop_while_same is_space k) by lia. done.
  - exfalso. apply (f_equal length) in Hk. unfold strip_chars in Hk. rewrite length_reverse in Hk.
    pose proof (drop_while_length is_space (reverse (drop_while is_space k))). rewrite length_reverse in *. lia.
Qed.

Lemma clean_chars v : clean v -> strip_chars (chars v) = chars v /\ chars v <> [].
Proof.
  intros (_ & Hs & Hne & _). split; [|by intros ?%chars_nil].
  rewrite <- (concat_chars v) in Hs at 1. rewrite strip_concat in Hs by apply chars_chars_ok.
  rewrite <- Hs at 2. rewrite chars_concat; [done|]. apply strip_chars_ok, chars_chars_ok.
Qed.

(** A clean text after a prefix that starts with a visible character. *)
Lemma strip_prefixed a p v : clean v -> is_space (String a "") = false -> is_cont a = false ->
  chars (String a p) = String a "" :: chars p -> strip (String a p +:+ v) = String a p +:+ v.
Proof.
  intros Hv Ha Hca Hp. destruct (clean_chars v Hv) as [Hk Hne]. apply strip_chars_last in Hk.
  assert (Hc : chars (String a p +:+ v) = String a "" :: chars p ++ chars v).
  { rewrite chars_app_str by apply Hv. by rewrite Hp. }
  rewrite <- (concat_chars (String a p +:+ v)) at 1. rewrite strip_concat by apply chars_chars_ok.
  rewrite <- (concat_chars (String a p +:+ v)) at 2. f_equal. rewrite Hc. unfold strip_chars.
  cbn [drop_while]. rewrite Ha. rewrite reverse_cons, reverse_app, <- app_assoc.
  destruct (reverse (chars v)) as [|z w] eqn:E.
  { exfalso. apply Hne. by rewrite <- (reverse_involutive (chars v)), E. }
  cbn [drop_while] in Hk. destruct (is_space z) eqn:Hz.
  { apply (f_equal length) in Hk. pose proof (drop_while_length is_space w). cbn in Hk. lia. }
  cbn [app drop_while]. rewrite Hz. change (z :: w ++ ?x) with ((z :: w) ++ x). rewrite <- E.
  rewrite !reverse_app, !reverse_involutive. done.
Qed.

Lemma strip_after_space v : clean v -> strip (String " " v) = v.
Proof.
  intros Hv. destruct (clean_chars v Hv) as [Hk _].
  change (String " " v) with (String " " "" +:+ v).
  assert (Hc : chars (String " " "" +:+ v) = String " " "" :: chars v) by (by rewrite chars_app_str by apply Hv).
  rewrite <- (concat_chars (String " " "" +:+ v)), strip_concat by apply chars_chars_ok. rewrite Hc.
  unfold strip_chars in *. cbn [drop_while]. change (is_space (String " " "")) with true. cbv iota.
  rewrite Hk. apply concat_chars.
Qed.

(** A line [splitlines] gives back. *)
Definition one_line_text (l : string) : Prop :=
  l <> "" /\ starts_cont l = false /\ Forall (fun c => is_linebreak c = false) (chars l).

Lemma splitlines_go_line l cs : forall cur, Forall (fun c => is_linebreak c = false) l ->
  splitlines_go cur (l ++ cs) = splitlines_go (cur +:+ concat_str l) cs.
Proof.
  induction l as [|c l IH]; intros cur; cbn [app concat_str]; [by rewrite app_str_nil_r|].
  intros [Hc Hl]%Forall_cons. cbn [splitlines_go]. rewrite Hc, IH by done. by rewrite app_str_assoc.
Qed.

Lemma starts_cont_join l ls sep : starts_cont l = false -> l <> "" -> starts_cont (join sep (l :: ls)) = false.
Proof. destruct l as [|a l]; [done|]. by destruct ls. Qed.

Lemma splitlines_join ls : Forall one_line_text ls -> splitlines (join (String "010" "") ls) = ls.
Proof.
  intros H. unfold splitlines. induction H as [|l ls (Hne & Hs & Hl) Hls IH]; [done|].
  destruct Hls as [|l' ls (Hne' & Hs' & Hl') Hls].
  - cbn [join]. rewrite <- (app_nil_r (chars l)), splitlines_go_line, concat_chars by done. cbn.
    by rewrite (proj2 (String.eqb_neq l "") Hne).
  - change (join (String "010" "") (l :: l' :: ls))
      with (l +:+ (String "010" "" +:+ join (String "010" "") (l' :: ls))).
    rewrite (chars_app_str l) by done.
    rewrite (chars_app_str (String "010" "")) by (by apply starts_cont_join).
    rewrite splitlines_go_line, concat_chars by done.
    change (chars (String "010" "") ++ ?x) with (String "010" "" :: x). cbn [splitlines_go].
    change (is_linebreak (String "010" "")) with true. cbv iota. change ("" +:+ l) with l.
    change (ord (String "010" "") =? 13)%N with false. cbn [andb].
    destruct (chars (join (String "010" "") (l' :: ls))) as [|d cs] eqn:E; [|by rewrite IH].
    apply chars_nil in E. destruct l'; [done|]. by destruct ls.
Qed.

Definition field_line (f v : string) : string := f +:+ ": " +:+ v.

Lemma token_line s v : clean v ->
  block_line s (field_line "handoff_token" v)
  = {| bs_blocks := bs_blocks s ++ match bs_current s with Some c => [c] | None => [] end;
       bs_current := Some [("handoff_token", PStr v)]; bs_pending := None |}.
Proof.
  intros Hv. unfold block_line, field_line. rewrite app_str_assoc.
  change ("handoff_token" +:+ ": ") with (String "h" "andoff_token: ").
  rewrite strip_prefixed by done.
  change (strip_tui (String "h" "andoff_token: " +:+ v)) with (String "h" "andoff_token: " +:+ v).
  change (drop_prefix "handoff_token:" (String "h" "andoff_token: " +:+ v)) with (Some (String " " v)).
  cbv iota beta. by rewrite strip_after_space.
Qed.

Lemma other_line s f v c : f ∈ ["status"; "summary"; "verification"; "risks"; "next_steps"; "full_output_path"] ->
  clean v -> bs_current s = Some c ->
  block_line s (field_line f v)
  = {| bs_blocks := bs_blocks s; bs_current := Some (dset f (PStr v) c); bs_pending := None |}.
Proof.
  intros Hf Hv Hc. unfold block_line, field_line. rewrite app_str_assoc.
  assert (String.eqb v "" = false) as Hne by (apply String.eqb_neq; apply Hv).
  repeat (apply elem_of_cons in Hf as [->|Hf]); [..|by apply not_elem_of_nil in Hf];
    match goal with |- context [strip ((?f +:+ ": ") +:+ v)] =>
      let x := eval vm_compute in (f +:+ ": ") in
      match x with String ?a ?p =>
        change (f +:+ ": ") with (String a p); rewrite (strip_prefixed a p) by done;
        change (strip_tui (String a p +:+ v)) with (String a p +:+ v);
        change (drop_prefix "handoff_token:" (String a p +:+ v)) with (@None string);
        change (partition ":" (String a p +:+ v)) with (f, Some (String " " v))
      end;
      change (strip f) with f; change (in_strs f block_fields) with true
    end; rewrite Hc; cbv iota beta; rewrite strip_after_space, Hne by done; done.
Qed.

Lemma other_lines bl fs vs : forall c,
  Forall (fun f => f ∈ ["status"; "summary"; "verification"; "risks"; "next_steps"; "full_output_path"]) fs ->
  Forall clean vs ->
  foldl block_line {| bs_blocks := bl; bs_current := Some c; bs_pending := None |} (zip_with field_line fs vs)
  = {| bs_blocks := bl; bs_current := Some (foldl (fun c fv => dset fv.1 (PStr fv.2) c) c (zip fs vs)); bs_pending := None |}.
Proof.
  revert vs; induction fs as [|f fs IH]; intros [|v vs] c Hf Hv; try done.
  apply Forall_cons in Hf as [Hf Hfs], Hv as [Hv Hvs]. cbn [zip_with foldl].
  rewrite (other_line _ f v c) by done. cbn [bs_blocks]. by rewrite IH.
Qed.

(** The fields the filed text has. *)
Definition text_fields (reply : dict) : list string :=
  REPLY_FIELDS ++ (if truthy (dget "full_output_path" reply) then ["full_output_path"] else []).
Definition clean_fields (reply : dict) : Prop :=
  Forall (fun f => exists v, dlookup f reply = Some (PStr v) /\ clean v) (text_fields reply).

Lemma field_line_one f v : f ∈ block_fields -> clean v -> one_line_text (field_line f v).
Proof.
  intros Hf (Hs & _ & _ & Hl). unfold field_line, one_line_text. rewrite app_str_assoc.
  assert (Hp : f +:+ ": " <> "" /\ starts_cont (f +:+ ": ") = false
               /\ forallb (fun c => negb (is_linebreak c)) (chars (f +:+ ": ")) = true).
  { repeat (apply elem_of_cons in Hf as [->|Hf]); [done..|by apply not_elem_of_nil in Hf]. }
  destruct Hp as (Hne & Hc & Hp). split_and!.
  - by destruct (f +:+ ": ").
  - by destruct (f +:+ ": ").
  - rewrite chars_app_str by done. apply Forall_app. split; [|done].
    apply Forall_forall. intros c Hin. rewrite forallb_elem in Hp. by apply negb_true_iff, Hp.
Qed.

Lemma clean_truthy v : clean v -> truthy (PStr v) = true /\ good_text v.
Proof. intros (_ & Hs & Hne & _). unfold good_text. rewrite Hs. cbn. by rewrite (proj2 (String.eqb_neq _ _) Hne). Qed.

Lemma text_blocks reply text : clean_fields reply -> _structured_reply_text reply = Ok text ->
  _reply_blocks text = [map (fun f => (f, dget f reply)) (text_fields reply)].
Proof.
  unfold _structured_reply_text, clean_fields, text_fields. intros Hc (lines & Hl & [= <-])%bind_Ok.
  set (tail := if truthy (dget "full_output_path" reply) then ["full_output_path"] else []) in *.
  assert (Ht : tail = [] \/ tail = ["full_output_path"]) by (unfold tail; destruct (truthy _); auto). clearbody tail.
  apply mapR_Ok in Hl.
  assert (Hlines : exists vs, lines = zip_with field_line (REPLY_FIELDS ++ tail) vs /\ Forall clean vs
            /\ Forall2 (fun f v => dget f reply = PStr v) (REPLY_FIELDS ++ tail) vs).
  { clear Ht. revert Hc. induction Hl as [|f l fs ls Hf _ IH]; [by exists []|].
    intros [(v & Hv & Hcl) (vs & -> & Hvs & H2)%IH]%Forall_cons. unfold reply_line in Hf. rewrite Hv in Hf.
    injection Hf as <-. exists (v :: vs). split_and!; [done|by constructor|]. constructor; [|done].
    unfold dget. by rewrite Hv. }
  clear Hl Hc. destruct Hlines as (vs & -> & Hvs & H2). unfold _reply_blocks. rewrite splitlines_join.
  2:{ assert (Hf : Forall (fun f => f ∈ block_fields) (REPLY_FIELDS ++ tail)).
      { apply Forall_forall. intros f. unfold block_fields. destruct Ht as [->| ->]; set_solver. }
      clear Ht. induction H2 as [|f v fs vs _ _ IH]; [constructor|]. apply Forall_cons in Hvs as [Hv Hvs], Hf as [Hf Hfs].
      constructor; [by apply field_line_one|auto]. }
  assert (Hlen : length vs = length (REPLY_FIELDS ++ tail)) by (symmetry; by eapply Forall2_length).
  change (REPLY_FIELDS ++ tail)
    with ("handoff_token" :: (["status"; "summary"; "verification"; "risks"; "next_steps"] ++ tail)) in *.
  destruct vs as [|v vs]; [done|]. apply Forall_cons in Hvs as [Hv Hvs]. apply Forall2_cons in H2 as [Htok H2].
  cbn [zip_with foldl]. rewrite token_line by done. cbn [bs_blocks bs_current app].
  rewrite other_lines; [|destruct Ht as [->| ->]; apply Forall_forall; intros f; set_solver|done].
  cbn [bs_blocks bs_current app map]. rewrite Htok. clear Htok Hlen Hvs. do 2 f_equal.
  destruct Ht as [->| ->]; cbn [app] in *; repeat (apply Forall2_cons_inv_l in H2 as (? & ? & Ef & H2 & ->);
    cbn [map]; rewrite Ef; clear Ef); apply Forall2_nil_inv_l in H2 as ->; reflexivity.
Qed.

(** The text AgentDeck files for a reply is read back, under the reply's
    token, as the reply: the same fields with the same values, in the order of
    the protocol. *)
Lemma reply_text_roundtrip reply token : clean_fields reply ->
  dget "handoff_token" reply = PStr token -> dget "status" reply ∈ (PStr <$> REPLY_STATUSES) ->
  exists text, _structured_reply_text reply = Ok text
    /\ parse_correlated_reply text token = Ok (Some (map (fun f => (f, dget f reply)) (text_fields reply))).
Proof.
  intros Hc Htok Hst.
  assert (Hval : forall f, f ∈ text_fields reply -> exists v, dget f reply = PStr v /\ clean v).
  { intros f Hf. unfold clean_fields in Hc. rewrite Forall_forall in Hc. destruct (Hc f Hf) as (v & Hv & Hcl).
    exists v. unfold dget. by rewrite Hv. }
  assert (exists text, _structured_reply_text reply = Ok text) as (text & Ht).
  { unfold _structured_reply_text. fold (text_fields reply).
    destruct (mapR (reply_line reply) (text_fields reply)) as [ls|e] eqn:E; [by eexists|].
    apply mapR_Err in E as (f & Hf & E). unfold clean_fields in Hc. rewrite Forall_forall in Hc.
    destruct (Hc f Hf) as (v & Hv & _). unfold reply_line in E. by rewrite Hv in E. }
  exists text. split; [done|]. unfold parse_correlated_reply. rewrite (text_blocks reply text Hc Ht).
  set (parsed := map (fun f => (f, dget f reply)) (text_fields reply)).
  assert (Hget : forall f, f ∈ REPLY_FIELDS -> dget f parsed = dget f reply /\ f ∈ text_fields reply).
  { intros f Hf. split; [|unfold text_fields; set_solver]. unfold parsed, text_fields.
    repeat (apply elem_of_cons in Hf as [->|Hf]); [reflexivity..|by apply not_elem_of_nil in Hf]. }
  cbn [List.filter]. rewrite (proj1 (Hget "handoff_token" ltac:(set_solver))), Htok, (proj2 (py_eq_str _ _) eq_refl).
  cbn [last].
  assert (forallb (fun f => truthy (dget f parsed)) REPLY_FIELDS = true) as ->.
  { apply forallb_elem. intros f Hf. destruct (Hget f Hf) as [-> Hin]. destruct (Hval f Hin) as (v & -> & Hv).
    by apply clean_truthy. }
  unfold validate_correlated_workflow_reply.
  destruct (Hval "handoff_token" (proj2 (Hget "handoff_token" ltac:(set_solver)))) as (v & Hv & Hcl).
  assert (v = token) as -> by congruence. rewrite (proj2 (String.eqb_neq token "")) by apply Hcl.
  rewrite (proj1 (Hget "handoff_token" ltac:(set_solver))), Htok, (proj2 (py_eq_str _ _) eq_refl).
  unfold raise_if. cbn [negb mbind result_bind]. unfold _validated_compact_reply.
  rewrite (proj1 (Hget "status" ltac:(set_solver))). apply list_elem_of_fmap in Hst as (st & -> & Hst).
  rewrite in_str_set_str, (proj2 (in_strs_spec _ _) Hst). cbn [mbind result_bind].
  assert (Hreq : forall f, f ∈ REPLY_FIELDS -> exists s, required_text f parsed = Ok s).
  { intros f Hf. destruct (Hget f Hf) as [Hg Hin]. destruct (Hval f Hin) as (w & Hw & Hcw).
    exists w. apply required_text_good; [congruence|by apply clean_truthy]. }
  destruct (Hreq "summary" ltac:(set_solver)) as (? & ->), (Hreq "verification" ltac:(set_solver)) as (? & ->),
    (Hreq "risks" ltac:(set_solver)) as (? & ->), (Hreq "next_steps" ltac:(set_solver)) as (? & ->). done.
Qed.

(** A parsed reply is the last block of the output with the token asked for,
    and is complete: every field is there, the status is one of the three. *)
Lemma parse_correlated_reply_Some output token reply : parse_correlated_reply output token = Ok (Some reply) ->
  reply ∈ _reply_blocks output /\ dget "handoff_token" reply = PStr token /\ token <> ""
  /\ exists r, _validated_compact_reply (PDict reply) = Ok r /\ dget "status" reply = PStr (cr_status r)
     /\ cr_status r ∈ REPLY_STATUSES.
Proof.
  unfold parse_correlated_reply. destruct (last _) as [x|] eqn:El; [|done].
  destruct (forallb _ _); [|done]. intros ([t r] & H & [= ->])%bind_Ok.
  apply correlated_Ok in H as ([= <-] & Hne & Hr & d & [= <-] & Htok).
  apply last_Some in El as (l & El). 
  assert (reply ∈ List.filter (fun item => py_eq (dget "handoff_token" item) (PStr token)) (_reply_blocks output)) as Hin
    by (rewrite El; set_solver).
  apply list_elem_of_In, filter_In in Hin as [Hin%list_elem_of_In _]. split_and!; try done.
  pose proof (validated_compact_reply_Ok _ _ Hr) as (d & [= <-] & Hs & Hin' & _). by exists r.
Qed.

End handoff.

(** ** Witnesses *)

Definition sample_reply : dict :=
  [("handoff_token", PStr "run_step_1"); ("status", PStr "completed"); ("summary", PStr "did: it");
   ("verification", PStr "tests é"); ("risks", PStr "none"); ("next_steps", PStr "none");
   ("full_output_path", PStr "out.txt"); ("extra", PStr "dropped")].
Definition cleanb (v : string) : bool :=
  negb (starts_cont v) && String.eqb (strip v) v && negb (String.eqb v "")
  && forallb (fun c => negb (is_linebreak c)) (chars v).
Lemma cleanb_clean v : cleanb v = true -> clean v.
Proof.
  unfold cleanb. intros H. split_guards. split_and!; try done. apply Forall_forall. intros c Hc.
  rewrite forallb_elem in *. by apply negb_true_iff; auto.
Qed.

Lemma sample_clean : clean_fields sample_reply.
Proof.
  unfold clean_fields. change (text_fields sample_reply) with block_fields. unfold block_fields, REPLY_FIELDS.
  cbn [app]. rewrite !Forall_cons, Forall_nil.
  split_and!; try done; (eexists; split; [reflexivity|]; apply cleanb_clean; vm_compute; reflexivity).
Qed.

#[local] Instance handoff_repr : PyRepr := fun _ => "".
#[local] Existing Instance sample_float_text.

Theorem reply_text_roundtrip_witness : exists text,
  _structured_reply_text sample_reply = Ok text
  /\ parse_correlated_reply text "run_step_1"
     = Ok (Some (List.filter (fun kv => negb (String.eqb kv.1 "extra")) sample_reply)).
Proof.
  apply (reply_text_roundtrip sample_reply "run_step_1").
  - exact sample_clean.
  - reflexivity.
  - apply (bool_decide_eq_true_1 _). vm_compute. reflexivity.
Defined.

Definition sample_artifacts : pyval :=
  PList [PDict [("path", PStr "a.py");
    ("content_hash", PStr "sha256:0123456789abcdef0123456789abcdef0123456789abcdef0123456789abcdef")]].
Definition sample_handoff : CanonicalHandoff :=
  {| handoff_token := "run_step_1"; status := "completed"; summary := "did: it"; verification := "tests é";
     risks := "none"; next_steps := "none";
     artifacts := [{| path := "a.py"; content_hash :=
       Some "sha256:0123456789abcdef0123456789abcdef0123456789abcdef0123456789abcdef" |}];
     trace_ids := ["rep_1"] |}.

Lemma sample_handoff_bounded : bounded_handoff sample_handoff.
Proof.
  split_and!; [apply Nat.leb_le; vm_compute; reflexivity..|].
  destruct (json_dumps_ascii (PDict (compact sample_handoff))) as [text|e] eqn:E; [|by vm_compute in E].
  exists text. split; [done|]. apply Nat.leb_le.
  assert (text = match json_dumps_ascii (PDict (compact sample_handoff)) with Ok t => t | Err _ => "" end) as ->
    by (by rewrite E).
  vm_compute. reflexivity.
Qed.

Theorem canonical_handoff_roundtrip_witness :
  build_canonical_handoff (PDict sample_reply) sample_artifacts (PList [PStr "rep_1"]) (PStr "run_step_1") (PBool true)
    = Ok sample_handoff
  /\ validate_canonical_handoff (PDict (compact sample_handoff)) (PStr "run_step_1") = Ok sample_handoff.
Proof.
  assert (Hb : build_canonical_handoff (PDict sample_reply) sample_artifacts (PList [PStr "rep_1"])
                 (PStr "run_step_1") (PBool true) = Ok sample_handoff) by (vm_compute; reflexivity).
  split; [exact Hb|].
  exact (proj1 (proj1 canonical_handoff_roundtrip _ _ _ _ _ Hb sample_handoff_bounded)).
Defined.
