(* ===== verification/DelegationMatch.v ===== *)
(** * Delegation matching ([delegation_match.py])

    Splitting of a composite shell command at its top-level separators, the
    fixed glue whitelist, redirect and assignment stripping, and the
    segment-by-segment coverage by the active delegations. *)
From S2P Require Import Prelude PyStr.

Definition NL : string := String (Ascii.ascii_of_nat 10) "".
Definition DQ : string := String (Ascii.ascii_of_nat 34) "".
Definition BACKSLASH : string := "\".

Definition _HARD_REJECT_SUBSTRINGS : list string := ["$("; "`"; "<("; ">("; "<<"].
Definition _CONTROL_PREFIX_WORDS : list string := ["do"; "then"; "else"].

Definition mem_str (s : string) (l : list string) : bool := existsb (String.eqb s) l.

(** ** The splitter *)

(** [command.startswith("&&", i) or command.startswith("||", i)] *)
Definition double_operator (c : string) (next : list string) : bool :=
  (String.eqb c "&" || String.eqb c "|") && match next with d :: _ => String.eqb c d | [] => false end.

(** The scan of [_split_top_level] over the characters still to read: [buf] is
    the segment under construction, [quote] the open quote, [prev] the
    character before the position. *)
Fixpoint scan (buf : list string) (quote : option string) (prev : string) (cs : list string)
    : option (list (list string)) :=
  match cs with
  | [] => match quote with Some _ => None | None => Some [buf] end
  | c :: cs' =>
      if String.eqb c BACKSLASH then
        match cs' with
        | [] => scan (buf ++ [c]) quote c cs'
        | d :: cs'' => scan (buf ++ [c; d]) quote d cs''
        end
      else match quote with
      | Some q => scan (buf ++ [c]) (if String.eqb c q then None else quote) c cs'
      | None =>
          if String.eqb c "'" || String.eqb c DQ then scan (buf ++ [c]) (Some c) c cs'
          else if String.eqb c NL then cons buf <$> scan [] None c cs'
          else if double_operator c cs' then
            cons buf <$> scan [] None c (match cs' with [] => cs' | _ :: cs'' => cs'' end)
          else if String.eqb c "&" then
            if String.eqb prev ">" then scan (buf ++ [c]) None c cs' else None
          else if String.eqb c "<" then None
          else if String.eqb c ";" || String.eqb c "|" then cons buf <$> scan [] None c cs'
          else scan (buf ++ [c]) None c cs'
      end
  end.

Definition _split_top_level (command : string) : option (list string) :=
  segments ← scan [] None "" (chars command);
  Some (strip <$> List.filter (fun seg => negb (String.eqb (strip seg) "")) (concat_str <$> segments)).

Definition _strip_control_prefix (segment : string) : string :=
  join " " (drop_while (fun t => mem_str t _CONTROL_PREFIX_WORDS) (py_split segment)).

(** ** Words and redirects *)

Definition is_ascii_alpha (c : string) : bool :=
  ((65 <=? ord c) && (ord c <=? 90) || (97 <=? ord c) && (ord c <=? 122))%N.
Definition is_ascii_digit (c : string) : bool := ((48 <=? ord c) && (ord c <=? 57))%N.
Definition is_name_start (c : string) : bool := is_ascii_alpha c || String.eqb c "_".
Definition is_name_char (c : string) : bool := is_name_start c || is_ascii_digit c.

(** [_NAME] *)
Definition is_name (s : string) : bool :=
  match chars s with c :: cs => is_name_start c && forallb is_name_char cs | [] => false end.

(** [_ENV_ASSIGNMENT] and [_GLUE_ASSIGNMENT], on a word (a string without
    whitespace): the name before the first [=], and the value after it. *)
Definition assignment (token : string) : option string :=
  match partition (Ascii.ascii_of_nat 61) token with
  | (name, Some value) => if is_name name then Some value else None
  | (_, None) => None
  end.
Definition env_assignment (token : string) : option string :=
  match assignment token with
  | Some value => if String.eqb value "" then None else Some value
  | None => None
  end.

(** [_SIMPLE_WORD] *)
Definition is_word_char (c : string) : bool :=
  is_ascii_alpha c || is_ascii_digit c || String.eqb c "." || String.eqb c "_" || String.eqb c "-".
Definition is_simple_word (s : string) : bool :=
  (negb (String.eqb s "") && forallb is_word_char (chars s))
  || match drop_prefix "${" s with
     | Some r =>
         match reverse (chars r) with
         | c :: name => String.eqb c "}" && is_name (concat_str (reverse name))
         | [] => false
         end
     | None => false
     end.

(** [_REDIRECT_TOKEN.match(tok).group(1)]: digits, one or two [>], the target. *)
Definition redirect_target (tok : string) : option string :=
  match drop_while is_decimal (chars tok) with
  | c :: cs =>
      if String.eqb c ">" then
        match cs with
        | d :: cs' => if String.eqb d ">" then Some (concat_str cs') else Some (concat_str cs)
        | [] => Some ""
        end
      else None
  | [] => None
  end.

(** [_TMP_TARGET.match(target) is None or ".." in target], negated. *)
Definition tmp_target (target : string) : bool :=
  match drop_prefix "/tmp/" target with
  | Some r => negb (String.eqb r "") && forallb (fun c => negb (is_space c)) (chars r)
              && negb (contains ".." target)
  | None => false
  end.

Fixpoint _strip_redirects (tokens : list string) : option (list string) :=
  match tokens with
  | [] => Some []
  | tok :: tokens =>
      if String.eqb tok "2>&1" then _strip_redirects tokens
      else match redirect_target tok with
      | Some target =>
          if String.eqb target "" then
            match tokens with
            | target :: tokens => if tmp_target target then _strip_redirects tokens else None
            | [] => None
            end
          else if tmp_target target then _strip_redirects tokens else None
      | None =>
          if contains ">" tok then None else cons tok <$> _strip_redirects tokens
      end
  end.

Fixpoint _strip_env_assignments (tokens : list string) : option (list string) :=
  match tokens with
  | [] => Some []
  | tok :: tokens' =>
      match env_assignment tok with
      | Some value =>
          if startswith "'" value || startswith DQ value then None
          else _strip_env_assignments tokens'
      | None => Some tokens
      end
  end.

(** ** Glue *)

Definition last_is (t : string) (tokens : list string) : bool :=
  match last tokens with Some x => String.eqb x t | None => false end.

Definition _is_glue (tokens : list string) : bool :=
  match tokens with
  | [] => true
  | head :: rest =>
      if Nat.eqb (length tokens) 1 && mem_str head ["done"; "fi"] then true
      else if Nat.eqb (length tokens) 1 && bool_decide (is_Some (assignment head)) then true
      else if mem_str head ["echo"; "true"; "test"] then true
      else if String.eqb head "exit" then Nat.leb (length tokens) 2
      else if String.eqb head "[" then last_is "]" tokens
      else if String.eqb head "if" then
        Nat.leb 3 (length tokens)
        && match rest with t :: _ => String.eqb t "[" | [] => false end
        && last_is "]" tokens
      else if String.eqb head "for" then
        match rest with
        | name :: word_in :: words => is_name name && String.eqb word_in "in" && forallb is_simple_word words
        | _ => false
        end
      else if mem_str head ["tail"; "head"] then
        forallb (fun tok => startswith "-" tok || (startswith "/tmp/" tok && negb (contains ".." tok))) rest
      else false
  end.

(** ** Matching *)

Definition hard_rejected (command : string) : bool :=
  existsb (fun marker => contains marker command) _HARD_REJECT_SUBSTRINGS.

Definition is_composite_command (command : string) : bool :=
  if hard_rejected command then true
  else if contains ">" command then true
  else match _split_top_level command with
  | None => true
  | Some segments => Nat.ltb 1 (length segments)
  end.

Record MatchedSegment := { segment : string; via : string }.

(** [" ".join(s.split())] *)
Definition normal_spaces (s : string) : string := join " " (py_split s).

(** The body of the loop over the segments: how a segment is covered, and
    whether by a delegation; [None] rejects the whole command. *)
Definition match_segment (active active_exact : list string) (raw : string) : option (MatchedSegment * bool) :=
  let stripped := _strip_control_prefix raw in
  if String.eqb stripped "" then Some ({| segment := raw; via := "glue" |}, false)
  else
    let tokens := py_split stripped in
    match tokens with
    | t0 :: _ =>
        if mem_str t0 ["eval"; "source"] then None
        else
          after_redirects ← _strip_redirects tokens;
          after_env ← _strip_env_assignments after_redirects;
          if _is_glue after_env then Some ({| segment := raw; via := "glue" |}, false)
          else
            let rest := join " " after_env in
            match find_first (String.eqb rest) active_exact with
            | Some item => Some ({| segment := raw; via := item |}, true)
            | None =>
                prefix ← find_first (fun p => startswith p rest) active;
                Some ({| segment := raw; via := prefix |}, true)
            end
    | [] => None
    end.

Fixpoint match_segments (active active_exact : list string) (raws : list string)
    : option (list (MatchedSegment * bool)) :=
  match raws with
  | [] => Some []
  | raw :: raws =>
      m ← match_segment active active_exact raw;
      ms ← match_segments active active_exact raws;
      Some (m :: ms)
  end.

Definition nonempty (s : string) : bool := negb (String.eqb s "").

Definition normalize_match (command : string) (prefixes exact_commands : list string)
    : option (list MatchedSegment) :=
  if String.eqb command "" || blank command then None
  else
    let active := List.filter nonempty prefixes in
    let active_exact := normal_spaces <$> List.filter (fun s => negb (blank s)) exact_commands in
    match active, active_exact with
    | [], [] => None
    | _, _ =>
        if hard_rejected command then None
        else
          raws ← _split_top_level command;
          match raws with
          | [] => None
          | _ =>
              matched ← match_segments active active_exact raws;
              if existsb snd matched then Some matched.*1 else None
          end
    end.

(** ** The splitter leaves no separator inside a segment *)

(** The characters the scan reads as a single segment. *)
Fixpoint undivided (quote : option string) (prev : string) (cs : list string) : bool :=
  match cs with
  | [] => match quote with Some _ => false | None => true end
  | c :: cs' =>
      if String.eqb c BACKSLASH then
        match cs' with
        | [] => undivided quote c cs'
        | d :: cs'' => undivided quote d cs''
        end
      else match quote with
      | Some q => undivided (if String.eqb c q then None else quote) c cs'
      | None =>
          if String.eqb c "'" || String.eqb c DQ then undivided (Some c) c cs'
          else if String.eqb c NL || double_operator c cs' then false
          else if String.eqb c "&" then String.eqb prev ">" && undivided None c cs'
          else if String.eqb c "<" || (String.eqb c ";" || String.eqb c "|") then false
          else undivided None c cs'
      end
  end.

Lemma list_ind_tail {A} (P : list A -> Prop) :
  P [] -> (forall c cs, P cs -> (forall d cs', cs = d :: cs' -> P cs') -> P (c :: cs)) -> forall cs, P cs.
Proof.
  intros H0 Hs. assert (Hg : forall cs, P cs /\ forall d cs', cs = d :: cs' -> P cs').
  { induction cs as [|c cs [IH1 IH2]]; [by split|]. split; [by apply Hs|]. by intros d cs' [= -> ->]. }
  intros cs. apply Hg.
Qed.

Ltac scan_cases :=
  repeat match goal with
  | |- context [if ?b then _ else _] =>
      lazymatch b with
      | context [if _ then _ else _] => fail
      | _ => let E := fresh "E" in destruct b eqn:E; cbn [orb andb]
      end
  end.

Lemma scan_undivided cs : forall buf quote prev,
  undivided quote prev cs = true -> scan buf quote prev cs = Some [buf ++ cs].
Proof.
  induction cs as [|c cs IH1 IH2] using list_ind_tail; intros buf quote prev; cbn [undivided scan].
  { destruct quote; [done|]. by rewrite app_nil_r. }
  replace (buf ++ c :: cs) with ((buf ++ [c]) ++ cs) by by rewrite <- app_assoc.
  destruct (String.eqb c BACKSLASH).
  { destruct cs as [|d cs']; [apply IH1|]. intros H. erewrite (IH2 d); [|done|done]. by rewrite <- !app_assoc. }
  destruct quote as [q|]; [apply IH1|]. scan_cases; try done; try apply IH1.
Qed.

Lemma undivided_prev cs p p' :
  p <> ">" -> p' <> ">" -> undivided None p cs = undivided None p' cs.
Proof.
  intros Hp Hp'. destruct cs as [|c cs]; [done|]. cbn.
  by rewrite (proj2 (String.eqb_neq p _) Hp), (proj2 (String.eqb_neq p' _) Hp').
Qed.

(** A piece of [cs]: a contiguous subsequence. *)
Definition piece_of (r cs : list string) : Prop := exists a b, cs = a ++ r ++ b.

Lemma piece_cons r c cs : piece_of r cs -> piece_of r (c :: cs).
Proof. intros (a & b & ->). by exists (c :: a), b. Qed.

Lemma double_operator_prefix c f cs : f `prefix_of` cs -> double_operator c cs = false -> double_operator c f = false.
Proof. intros [k ->]. unfold double_operator. destruct f; cbn; [by rewrite andb_false_r|done]. Qed.

(** What the scan returns, from any state. *)
Definition scanned (buf : list string) (quote : option string) (prev : string) (cs : list string)
    (segs : list (list string)) : Prop :=
  exists first rest, segs = (buf ++ first) :: rest /\ undivided quote prev first = true /\ first `prefix_of` cs /\
    Forall (fun r => undivided None "" r = true /\ piece_of r cs) rest.

Section scan_steps.
Context (buf : list string) (prev c : string) (cs : list string).

(** A character added to the segment under construction. *)
Lemma scanned_push quote quote' segs :
  (forall f, f `prefix_of` cs -> undivided quote' c f = true -> undivided quote prev (c :: f) = true) ->
  scanned (buf ++ [c]) quote' c cs segs -> scanned buf quote prev (c :: cs) segs.
Proof.
  intros Hu (first & rest & -> & Hf & Hp & Hr). exists (c :: first), rest. rewrite <- app_assoc. split_and!.
  - done.
  - by apply Hu.
  - by apply prefix_cons.
  - eapply Forall_impl; [exact Hr|]. intros r [H1 H2]. split; [done|by apply piece_cons].
Qed.

(** A separator: the segment ends and a new one starts after it. *)
Lemma scanned_cut cs' k segs :
  c <> ">" -> cs = k ++ cs' -> scanned [] None c cs' segs -> scanned buf None prev (c :: cs) (buf :: segs).
Proof.
  intros Hc -> (first & rest & -> & Hf & [t Hp] & Hr). exists [], (first :: rest). rewrite app_nil_r.
  split_and!; [done|done|apply prefix_nil|]. apply Forall_cons. split; [split|].
  - by rewrite (undivided_prev _ _ c) in * by done.
  - exists (c :: k), t. by rewrite Hp.
  - eapply Forall_impl; [exact Hr|]. intros r [H1 (a & b & ->)]. split; [done|].
    exists (c :: k ++ a), b. cbn. by rewrite <- !app_assoc.
Qed.
End scan_steps.

Ltac eqb_ne := let H := fresh in intros H; subst; discriminate.

Lemma scan_scanned cs : forall buf quote prev segs,
  scan buf quote prev cs = Some segs -> scanned buf quote prev cs segs.
Proof.
  induction cs as [|c cs IH1 IH2] using list_ind_tail; intros buf quote prev segs; cbn [scan].
  { destruct quote; [done|]. intros [= <-]. exists [], []. rewrite app_nil_r. by split_and!. }
  destruct (String.eqb c BACKSLASH) eqn:Hb.
  { destruct cs as [|d cs'].
    - intros Hs%IH1. eapply scanned_push; [|exact Hs]. intros f [k Hk] Hu. destruct f; [|done]. cbn. by rewrite Hb.
    - intros Hs%(IH2 d); [|done]. destruct Hs as (first & rest & -> & Hf & Hp & Hr).
      exists (c :: d :: first), rest. rewrite <- app_assoc. split_and!; [done|cbn; by rewrite Hb|by do 2 apply prefix_cons|].
      eapply Forall_impl; [exact Hr|]. intros r [H1 H2]. split; [done|by do 2 apply piece_cons]. }
  destruct quote as [q|].
  { intros Hs%IH1. eapply scanned_push; [|exact Hs]. intros f _ Hu. cbn. by rewrite Hb. }
  destruct (String.eqb c "'" || String.eqb c DQ) eqn:Hq.
  { intros Hs%IH1. eapply scanned_push; [|exact Hs]. intros f _ Hu. cbn. by rewrite Hb, Hq. }
  destruct (String.eqb c NL) eqn:Hn.
  { intros (s & Hs%IH1 & ->)%fmap_Some. eapply (scanned_cut _ _ _ _ cs []); [|done|done].
    apply String.eqb_eq in Hn. eqb_ne. }
  destruct (double_operator c cs) eqn:Hd.
  { destruct cs as [|d cs']; [by unfold double_operator in Hd; rewrite andb_false_r in Hd|].
    intros (s & Hs%(IH2 d) & ->)%fmap_Some; [|done]. eapply (scanned_cut _ _ _ _ cs' [d]); [|done|done].
    intros ->. done. }
  assert (Hpush : forall segs, scan (buf ++ [c]) None c cs = Some segs ->
    (String.eqb c "&" = true -> String.eqb prev ">" = true) -> (String.eqb c "<" || (String.eqb c ";" || String.eqb c "|")) = false ->
    scanned buf None prev (c :: cs) segs).
  { intros segs' Hs%IH1 Hamp Hsep. eapply scanned_push; [|exact Hs]. intros f Hf Hu. cbn.
    rewrite Hb, Hq, Hn, (double_operator_prefix _ _ _ Hf Hd). cbn.
    destruct (String.eqb c "&"); [by rewrite Hamp|]. by rewrite Hsep. }
  destruct (String.eqb c "&") eqn:Ha.
  { destruct (String.eqb prev ">") eqn:Hp; [|done]. intros Hs. apply Hpush; [done|done|].
    apply String.eqb_eq in Ha. by subst. }
  destruct (String.eqb c "<") eqn:Hl; [done|].
  destruct (String.eqb c ";" || String.eqb c "|") eqn:Hsep.
  { intros (s & Hs%IH1 & ->)%fmap_Some. eapply (scanned_cut _ _ _ _ cs []); [|done|done]. intros ->. done. }
  intros Hs. apply Hpush; [done|done|]. done.
Qed.

(** ** Stripping keeps a segment undivided *)

Lemma space_not_special c x : is_space c = true -> is_space x = false -> String.eqb c x = false.
Proof. intros Hc Hx. apply String.eqb_neq. intros ->. congruence. Qed.

Lemma undivided_space p c cs :
  is_space c = true -> p <> ">" -> undivided None p (c :: cs) = true -> undivided None "" cs = true.
Proof.
  intros Hs Hp. cbn [undivided]. unfold double_operator.
  rewrite (space_not_special c BACKSLASH), (space_not_special c "'"), (space_not_special c DQ),
    (space_not_special c "&"), (space_not_special c "|"), (space_not_special c "<"), (space_not_special c ";") by done.
  cbn [orb andb]. destruct (String.eqb c NL); [done|].
  intros H. rewrite (undivided_prev _ _ c); [done..|]. intros ->. done.
Qed.

Lemma undivided_lstrip cs :
  undivided None "" cs = true -> undivided None "" (drop_while is_space cs) = true.
Proof.
  induction cs as [|c cs IH]; [done|]. cbn [drop_while]. destruct (is_space c) eqn:Hc; [|done].
  intros H. apply IH. by apply (undivided_space "" c).
Qed.

Lemma undivided_snoc cs : forall q p c,
  is_space c = true -> match q with Some x => is_space x = false | None => True end ->
  undivided q p (cs ++ [c]) = true -> undivided q p cs = true.
Proof.
  induction cs as [|c0 cs IH1 IH2] using list_ind_tail; intros q p c Hc Hq.
  { cbn. rewrite (space_not_special c BACKSLASH) by done. destruct q as [x|]; [|done].
    by rewrite (space_not_special c x). }
  cbn [app undivided]. destruct (String.eqb c0 BACKSLASH).
  { destruct cs as [|d cs']; [done|]. cbn [app]. apply (IH2 d cs'); done. }
  destruct q as [x|].
  { apply IH1; [done|]. by destruct (String.eqb c0 x). }
  destruct (String.eqb c0 "'" || String.eqb c0 DQ) eqn:Hquote.
  { apply IH1; [done|]. apply orb_true_iff in Hquote as [->%String.eqb_eq| ->%String.eqb_eq]; done. }
  destruct (String.eqb c0 NL); cbn [orb]; [done|].
  destruct (double_operator c0 (cs ++ [c])) eqn:Hd; [done|].
  rewrite (double_operator_prefix c0 cs (cs ++ [c])) by (done || by exists [c]).
  destruct (String.eqb c0 "&").
  { intros [-> H]%andb_true_iff. cbn. by eapply IH1. }
  destruct (String.eqb c0 "<" || _); [done|]. by apply IH1.
Qed.

Lemma undivided_rstrip cs :
  undivided None "" cs = true -> undivided None "" (reverse (drop_while is_space (reverse cs))) = true.
Proof.
  destruct (rstrip_suffix cs) as (k & Hk & Hs). revert Hk. generalize (reverse (drop_while is_space (reverse cs))).
  intros l. revert cs. induction k as [|c k IH] using rev_ind; intros cs ->; [by rewrite app_nil_r|].
  rewrite forallb_app in Hs. apply andb_true_iff in Hs as [Hk Hc]. cbn in Hc. rewrite andb_true_r in Hc.
  rewrite app_assoc. intros Hu%undivided_snoc; [|done..]. by eapply IH.
Qed.

Lemma chars_strip r : chars_ok r = true -> chars (strip (concat_str r)) = strip_chars r.
Proof. intros Hr. rewrite strip_concat by done. apply chars_concat. by apply strip_chars_ok. Qed.

(** The segments of a command, each read by the scan as one segment. *)
Lemma split_segment command segs s :
  _split_top_level command = Some segs -> s ∈ segs ->
  s <> "" /\ strip s = s /\ undivided None "" (chars s) = true.
Proof.
  unfold _split_top_level. intros (pieces & Hp%scan_scanned & [= <-])%bind_Some (t & -> & Ht)%list_elem_of_fmap.
  apply list_elem_of_In, filter_In in Ht as [Ht Hne]. apply negb_true_iff, String.eqb_neq in Hne.
  apply list_elem_of_In, list_elem_of_fmap in Ht as (r & -> & Hr).
  destruct Hp as (first & rest & -> & Hf & [k Hk] & Hrest).
  cbn [app] in Hr.
  assert (undivided None "" r = true /\ chars_ok r = true) as [Hu Hok].
  { pose proof (chars_chars_ok command) as Hc. apply elem_of_cons in Hr as [->|Hr].
    - rewrite Hk in Hc. by apply chars_ok_app in Hc as [Hc _].
    - rewrite Forall_forall in Hrest. apply Hrest in Hr as [Hr (a & b & Heq)]. split; [done|].
      rewrite Heq in Hc. apply chars_ok_app in Hc as [_ Hc]. by apply chars_ok_app in Hc as [Hc _]. }
  split_and!; [done| |].
  - rewrite strip_concat, strip_concat by (done || by apply strip_chars_ok). by rewrite strip_chars_fixed.
  - rewrite chars_strip by done. unfold strip_chars. by apply undivided_rstrip, undivided_lstrip.
Qed.

(** The segments the splitter returns are final: none is empty, and
    splitting a segment again gives exactly that segment, so no top-level
    separator, background [&] or input redirection is left inside one. *)
Lemma split_top_level_undivided command segs :
  _split_top_level command = Some segs ->
  Forall (fun s => s <> "" /\ _split_top_level s = Some [s]) segs.
Proof.
  intros Hs. apply Forall_forall. intros s Hin. destruct (split_segment _ _ _ Hs Hin) as (Hne & Hst & Hu).
  split; [done|]. unfold _split_top_level. rewrite (scan_undivided _ [] None "" Hu).
  cbn -[strip concat_str String.eqb]. rewrite concat_chars, Hst, (proj2 (String.eqb_neq _ _) Hne).
  cbn -[strip]. by rewrite Hst.
Qed.

(** ** Coverage of a segment *)

(** What [_strip_redirects] may remove: a [2>&1] word, or a redirect into
    [/tmp/] (its target in the same word or in the next one). *)
Inductive redirects : list string -> list string -> Prop :=
| redirects_nil : redirects [] []
| redirects_dup ts out : redirects ts out -> redirects ("2>&1" :: ts) out
| redirects_joined tok target ts out :
    redirect_target tok = Some target -> tmp_target target = true -> redirects ts out -> redirects (tok :: ts) out
| redirects_next tok target ts out :
    redirect_target tok = Some "" -> tmp_target target = true -> redirects ts out ->
    redirects (tok :: target :: ts) out
| redirects_word tok ts out :
    contains ">" tok = false -> redirects ts out -> redirects (tok :: ts) (tok :: out).

Lemma strip_redirects_sound ts : forall out, _strip_redirects ts = Some out -> redirects ts out.
Proof.
  induction ts as [|tok ts IH1 IH2] using list_ind_tail; intros out; cbn [_strip_redirects].
  { intros [= <-]. constructor. }
  destruct (String.eqb_spec tok "2>&1") as [->|_]; [intros H; by constructor; apply IH1|].
  destruct (redirect_target tok) as [target|] eqn:Ht.
  - destruct (String.eqb_spec target "") as [->|_].
    + destruct ts as [|t ts]; [done|]. destruct (tmp_target t) eqn:Htmp; [|done].
      intros H. eapply redirects_next; eauto.
    + destruct (tmp_target target) eqn:Htmp; [|done]. intros H. eapply redirects_joined; eauto.
  - destruct (contains ">" tok) eqn:Hc; [done|]. intros (o & Ho & ->)%fmap_Some. constructor; auto.
Qed.

Lemma redirects_no_gt ts out : redirects ts out -> Forall (fun t => contains ">" t = false) out.
Proof. induction 1; auto. Qed.

(** A segment and what covers it. *)
Inductive covered (active active_exact : list string) (raw : string) : string -> bool -> Prop :=
| covered_control :
    _strip_control_prefix raw = "" -> covered active active_exact raw "glue" false
| covered_glue t0 ts words rest :
    py_split (_strip_control_prefix raw) = t0 :: ts -> t0 <> "eval" -> t0 <> "source" ->
    redirects (t0 :: ts) words -> _strip_env_assignments words = Some rest -> _is_glue rest = true ->
    covered active active_exact raw "glue" false
| covered_delegation t0 ts words rest via :
    py_split (_strip_control_prefix raw) = t0 :: ts -> t0 <> "eval" -> t0 <> "source" ->
    redirects (t0 :: ts) words -> _strip_env_assignments words = Some rest ->
    (via ∈ active_exact /\ join " " rest = via \/ via ∈ active /\ startswith via (join " " rest) = true) ->
    covered active active_exact raw via true.

Lemma mem_str_false s l : mem_str s l = false -> s ∉ l.
Proof. unfold mem_str. rewrite existsb_elem_false. intros H Hs. apply H in Hs. by rewrite String.eqb_refl in Hs. Qed.

Lemma match_segment_covered active active_exact raw m b :
  match_segment active active_exact raw = Some (m, b) ->
  segment m = raw /\ covered active active_exact raw (via m) b.
Proof.
  unfold match_segment. destruct (String.eqb_spec (_strip_control_prefix raw) "") as [He|_].
  { intros [= <- <-]. split; [done|by constructor]. }
  destruct (py_split _) as [|t0 ts] eqn:Hsp; [done|]. destruct (mem_str t0 _) eqn:Hm; [done|].
  apply mem_str_false in Hm. rewrite !not_elem_of_cons in Hm. destruct Hm as (Hm1 & Hm2 & _).
  intros (words & Hr%strip_redirects_sound & (rest & He & H)%bind_Some)%bind_Some.
  destruct (_is_glue rest) eqn:Hg.
  { injection H as <- <-. split; [done|by eapply covered_glue]. }
  destruct (find_first _ active_exact) as [item|] eqn:Hf.
  - injection H as <- <-. split; [done|]. apply find_first_Some in Hf as [Hf Heq%String.eqb_eq].
    eapply covered_delegation; eauto.
  - apply bind_Some in H as (p & Hp & [= <- <-]). split; [done|]. apply find_first_Some in Hp as [Hp Hs].
    eapply covered_delegation; eauto.
Qed.

Lemma match_segments_covered active active_exact raws ms :
  match_segments active active_exact raws = Some ms ->
  Forall2 (fun raw m => segment m.1 = raw /\ covered active active_exact raw (via m.1) m.2) raws ms.
Proof.
  revert ms; induction raws as [|raw raws IH]; intros ms; cbn [match_segments]; [by intros [= <-]|].
  intros ([m b] & Hm & (ms' & Hms & [= <-])%bind_Some)%bind_Some. constructor; [by apply match_segment_covered|auto].
Qed.

Definition active_of (prefixes : list string) : list string := List.filter nonempty prefixes.
Definition exact_of (exact_commands : list string) : list string :=
  normal_spaces <$> List.filter (fun s => negb (blank s)) exact_commands.

Lemma covered_none active_exact raw via : covered [] active_exact raw via true -> active_exact <> [].
Proof.
  inversion 1; subst. match goal with H : _ \/ _ |- _ => destruct H as [[Hin _]|[Hin _]] end.
  - intros ->. by apply not_elem_of_nil in Hin.
  - by apply not_elem_of_nil in Hin.
Qed.

Lemma matched_needs_delegation active active_exact raws ms :
  match_segments active active_exact raws = Some ms -> existsb snd ms = true ->
  active <> [] \/ active_exact <> [].
Proof.
  intros Hm%match_segments_covered Hs. destruct active as [|a active]; [right|by left].
  apply existsb_elem in Hs as ([m b] & Hin & Hb). cbn in Hb. subst b.
  apply list_elem_of_lookup in Hin as (i & Hi). destruct (Forall2_lookup_r _ _ _ _ _ Hm Hi) as (raw & _ & _ & Hc).
  by eapply covered_none.
Qed.

Lemma normalize_match_Some command prefixes exact_commands ms :
  normalize_match command prefixes exact_commands = Some ms <->
  command <> "" /\ blank command = false /\ hard_rejected command = false /\
  exists raws matched, _split_top_level command = Some raws /\
    match_segments (active_of prefixes) (exact_of exact_commands) raws = Some matched /\
    existsb snd matched = true /\ ms = matched.*1.
Proof.
  unfold normalize_match. fold (active_of prefixes) (exact_of exact_commands).
  destruct (String.eqb_spec command "") as [->|Hne]; [split; [done|by intros (? & _)]|]. cbn [orb].
  destruct (blank command); [split; [done|by intros (_ & ? & _)]|].
  assert (Hcore : forall o, match active_of prefixes, exact_of exact_commands with
     | [], [] => None | _, _ => o end = Some ms <->
     (active_of prefixes <> [] \/ exact_of exact_commands <> []) /\ o = Some ms).
  { intros o. destruct (active_of prefixes), (exact_of exact_commands); naive_solver. }
  rewrite Hcore. destruct (hard_rejected command); [split; [by intros [_ ?]|by intros (_ & _ & ? & _)]|].
  split.
  - intros [_ (raws & Hs & H)%bind_Some]. split_and!; try done. destruct raws as [|r raws]; [done|].
    apply bind_Some in H as (matched & Hm & H). exists (r :: raws), matched.
    destruct (existsb snd matched); [|done]. injection H as <-. done.
  - intros (_ & _ & _ & raws & matched & Hs & Hm & Hb & ->). split; [by eapply matched_needs_delegation|].
    rewrite Hs. cbn. destruct raws as [|r raws]; [injection Hm as <-; done|]. rewrite Hm. cbn -[existsb].
    by rewrite Hb.
Qed.

(** A command is matched only if it contains none of the
    substitution and heredoc markers, its top-level split succeeds, every
    segment of the split is covered in order (control words or the glue
    whitelist, or a delegation: an exact command equal to its normalised words,
    or a prefix of them; redirects only [2>&1] or into [/tmp/]; never [eval] or
    [source]), and at least one segment is covered by a delegation. *)
Lemma normalize_match_sound command prefixes exact_commands ms :
  normalize_match command prefixes exact_commands = Some ms ->
  Forall (fun marker => contains marker command = false) _HARD_REJECT_SUBSTRINGS /\
  exists raws, _split_top_level command = Some raws /\
    Forall2 (fun raw m => segment m = raw /\
       exists b, covered (active_of prefixes) (exact_of exact_commands) raw (via m) b) raws ms /\
    Exists (fun m => covered (active_of prefixes) (exact_of exact_commands) (segment m) (via m) true) ms.
Proof.
  intros (_ & _ & Hh & raws & matched & Hs & Hm & Hb & ->)%normalize_match_Some. split.
  - apply Forall_forall. unfold hard_rejected in Hh. by rewrite existsb_elem_false in Hh.
  - exists raws. split; [done|]. apply match_segments_covered in Hm. split.
    + apply Forall2_fmap_r. eapply Forall2_impl; [exact Hm|]. cbn. intros raw [m b] [Hr Hc]. eauto.
    + apply existsb_elem in Hb as ([m b] & Hin & Hb). cbn in Hb. subst b.
      apply list_elem_of_lookup in Hin as (i & Hi).
      destruct (Forall2_lookup_r _ _ _ _ _ Hm Hi) as (raw & _ & Hr & Hc). cbn in *.
      apply Exists_exists. exists m. split; [|by rewrite Hr].
      apply list_elem_of_fmap. exists (m, true). split; [done|by eapply list_elem_of_lookup_2].
Qed.

Lemma find_first_some_elem {A} (p : A -> bool) l x : x ∈ l -> p x = true -> is_Some (find_first p l).
Proof.
  intros Hx Hp. destruct (find_first p l) eqn:Hf; [by eexists|]. rewrite find_first_None in Hf.
  by rewrite (Hf _ Hx) in Hp.
Qed.

Section monotone.
Context (active active' active_exact active_exact' : list string).
Context (Hactive : active ⊆ active') (Hexact : active_exact ⊆ active_exact').

Lemma match_segment_mono raw m b :
  match_segment active active_exact raw = Some (m, b) ->
  exists m', match_segment active' active_exact' raw = Some (m', b).
Proof using Hactive Hexact.
  unfold match_segment. destruct (String.eqb _ ""); [intros [= <- <-]; eauto|].
  destruct (py_split _) as [|t0 ts]; [done|]. destruct (mem_str t0 _); [done|].
  intros (words & Hw & (rest & He & H)%bind_Some)%bind_Some. rewrite Hw. cbn [mbind option_bind]. rewrite He.
  cbn [mbind option_bind]. destruct (_is_glue rest); [injection H as <- <-; eauto|].
  destruct (find_first (String.eqb _) active_exact') as [item|] eqn:Hf'.
  { destruct (find_first _ active_exact); [injection H as _ <-; eauto|].
    apply bind_Some in H as (p & _ & [= _ <-]); eauto. }
  destruct (find_first _ active_exact) as [item|] eqn:Hf.
  - apply find_first_Some in Hf as [Hin Heq]. rewrite find_first_None in Hf'.
    by rewrite Hf' in Heq by by apply Hexact.
  - apply bind_Some in H as (p & Hp & [= _ <-]). apply find_first_Some in Hp as [Hin Hp].
    destruct (find_first_some_elem (fun p => startswith p (join " " rest)) active' p) as [p' ->];
      [by apply Hactive|done|]. cbn. eauto.
Qed.

Lemma match_segments_mono raws ms :
  match_segments active active_exact raws = Some ms ->
  exists ms', match_segments active' active_exact' raws = Some ms' /\ ms'.*2 = ms.*2.
Proof using Hactive Hexact.
  revert ms; induction raws as [|raw raws IH]; intros ms; cbn [match_segments]; [intros [= <-]; by exists []|].
  intros ([m b] & (m' & Hm')%match_segment_mono & (ms' & (ms1 & Hms & H1)%IH & [= <-])%bind_Some)%bind_Some.
  exists ((m', b) :: ms1). rewrite Hm'. cbn [mbind option_bind]. rewrite Hms.
  split; [done|]. cbn. by f_equal.
Qed.
End monotone.

Lemma existsb_snd {A} (ms : list (A * bool)) : existsb snd ms = existsb id ms.*2.
Proof. induction ms as [|[a b] ms IH]; cbn; [done|]. by rewrite IH. Qed.

Lemma filter_subseteq {A} (p : A -> bool) (l k : list A) : l ⊆ k -> List.filter p l ⊆ List.filter p k.
Proof.
  intros H x. rewrite !list_elem_of_In, !filter_In, <- !list_elem_of_In. intros [Hx Hp]. auto.
Qed.

(** Authority is monotone and never implicit: with more delegations a
    matched command stays matched, and with none (or only empty ones) nothing
    is matched, whatever glue the command consists of. *)
Lemma normalize_match_monotone command prefixes prefixes' exact exact' :
  prefixes ⊆ prefixes' -> exact ⊆ exact' ->
  (is_Some (normalize_match command prefixes exact) -> is_Some (normalize_match command prefixes' exact')) /\
  (Forall (fun p => p = "") prefixes -> Forall (fun e => blank e = true) exact ->
   normalize_match command prefixes exact = None).
Proof.
  intros Hp He. split.
  - intros [ms (H1 & H2 & H3 & raws & matched & Hs & Hm & Hb & _)%normalize_match_Some].
    assert (Ha : active_of prefixes ⊆ active_of prefixes') by by apply filter_subseteq.
    assert (Hx : exact_of exact ⊆ exact_of exact').
    { intros x (y & -> & Hy)%list_elem_of_fmap. apply list_elem_of_fmap_2. by apply (filter_subseteq _ exact exact'). }
    destruct (match_segments_mono _ _ _ _ Ha Hx _ _ Hm) as (matched' & Hm' & Hsnd).
    exists matched'.*1. apply normalize_match_Some. split_and!; [done..|]. exists raws, matched'.
    split_and!; [done|done| |done]. by rewrite existsb_snd, Hsnd, <- existsb_snd.
  - intros Hpe Hee. destruct (normalize_match command prefixes exact) as [ms|] eqn:Hn; [exfalso|done].
    apply normalize_match_Some in Hn as (_ & _ & _ & raws & matched & _ & Hm & Hb & _).
    destruct (matched_needs_delegation _ _ _ _ Hm Hb) as [Hne|Hne]; apply Hne.
    + unfold active_of. clear -Hpe. induction Hpe as [|p ps -> _ IH]; [done|]. exact IH.
    + unfold exact_of. clear -Hee. induction Hee as [|e es Hb' _ IH]; [done|]. cbn. rewrite Hb'. exact IH.
Qed.

(** ** Simple commands *)

Lemma elem_contains c s : c ∈ chars s -> contains c s = true.
Proof.
  intros Hc. apply contains_spec. rewrite <- (concat_chars s).
  apply list_elem_of_split in Hc as (l & k & ->). exists (concat_str l), (concat_str k).
  by rewrite concat_str_app.
Qed.

Lemma redirect_target_none tok : contains ">" tok = false -> redirect_target tok = None.
Proof.
  unfold redirect_target. intros Hc. destruct (drop_while_suffix is_decimal (chars tok)) as (k & Hk & _).
  destruct (drop_while is_decimal (chars tok)) as [|c cs] eqn:Hd; [done|].
  destruct (String.eqb_spec c ">") as [->|]; [|done]. exfalso.
  assert (Hin : ">" ∈ chars tok) by (rewrite Hk; set_solver). by rewrite (elem_contains _ _ Hin) in Hc.
Qed.

Lemma strip_redirects_plain ts :
  Forall (fun t => contains ">" t = false) ts -> _strip_redirects ts = Some ts.
Proof.
  induction 1 as [|t ts Ht _ IH]; [done|]. cbn [_strip_redirects].
  destruct (String.eqb_spec t "2>&1") as [->|_]; [done|]. by rewrite redirect_target_none, Ht, IH.
Qed.

(** A command that is one segment, without redirects, leading assignment,
    control word or [eval], and not glue. *)
Record simple_command (command raw : string) : Prop := {
  sc_blank : blank command = false;
  sc_safe : hard_rejected command = false;
  sc_split : _split_top_level command = Some [raw];
  sc_words : Forall (fun t => contains ">" t = false) (py_split raw);
  sc_head : match py_split raw with
            | t :: _ => mem_str t _CONTROL_PREFIX_WORDS = false /\ mem_str t ["eval"; "source"] = false /\
                        env_assignment t = None
            | [] => False
            end;
  sc_glue : _is_glue (py_split raw) = false
}.

Lemma match_segment_simple active active_exact command raw :
  simple_command command raw ->
  match_segment active active_exact raw =
    match find_first (String.eqb (normal_spaces raw)) active_exact with
    | Some e => Some ({| segment := raw; via := e |}, true)
    | None => p ← find_first (fun p => startswith p (normal_spaces raw)) active;
              Some ({| segment := raw; via := p |}, true)
    end.
Proof.
  intros [_ _ _ Hw Hh Hg]. unfold match_segment, _strip_control_prefix.
  pose proof (py_split_join raw) as Hj. unfold normal_spaces.
  destruct (py_split raw) as [|t ts] eqn:Hs; [done|]. destruct Hh as (H1 & H2 & H3).
  cbn [drop_while]. rewrite H1. rewrite Hj, H2.
  destruct (String.eqb_spec (join " " (t :: ts)) "") as [He|_]; [by rewrite He in Hj|].
  rewrite strip_redirects_plain by done. cbn [mbind option_bind _strip_env_assignments]. rewrite H3.
  cbn [mbind option_bind]. by rewrite Hg.
Qed.

(** The delegation a simple command's words are matched by. *)
Definition delegation_for (words : string) (prefixes exact : list string) : option string :=
  match find_first (String.eqb words) (exact_of exact) with
  | Some e => Some e
  | None => find_first (fun p => startswith p words) (active_of prefixes)
  end.

Lemma normalize_match_simple command raw prefixes exact :
  simple_command command raw ->
  normalize_match command prefixes exact =
    (fun d => [{| segment := raw; via := d |}]) <$> delegation_for (normal_spaces raw) prefixes exact.
Proof.
  intros Hsc. unfold normalize_match, delegation_for. fold (active_of prefixes) (exact_of exact).
  pose proof (sc_blank _ _ Hsc) as Hb. destruct (String.eqb_spec command "") as [->|_]; [done|].
  rewrite Hb, (sc_safe _ _ Hsc), (sc_split _ _ Hsc). cbn [orb mbind option_bind match_segments].
  rewrite (match_segment_simple _ _ _ _ Hsc).
  destruct (active_of prefixes) as [|p ps'], (exact_of exact) as [|e es]; [done|..];
    destruct (find_first (String.eqb _) _); try done; by destruct (find_first _ _).
Qed.

Lemma delegation_for_prefix words p :
  p <> "" -> startswith p words = true -> is_Some (delegation_for words [p] []).
Proof.
  intros Hp Hs. unfold delegation_for, active_of, nonempty, find_first. cbn.
  rewrite (proj2 (String.eqb_neq _ _) Hp). cbn. rewrite Hs. by eexists.
Qed.

Lemma delegation_for_exact words exact :
  is_Some (find_first (String.eqb words) (exact_of exact)) <->
  exists e, e ∈ exact /\ blank e = false /\ normal_spaces e = words.
Proof.
  split.
  - intros [e Hf]. apply find_first_Some in Hf as [Hin Heq%String.eqb_eq].
    unfold exact_of in Hin. apply list_elem_of_fmap in Hin as (x & -> & Hx).
    apply list_elem_of_In, filter_In in Hx as [Hx Hb]. apply list_elem_of_In in Hx. apply negb_true_iff in Hb. eauto.
  - intros (e & He & Hb & Heq). apply (find_first_some_elem _ _ (normal_spaces e)); [|by apply String.eqb_eq].
    apply list_elem_of_fmap_2, list_elem_of_In, filter_In. by rewrite <- list_elem_of_In, Hb.
Qed.

(** For a simple command, the match is exactly the first exact delegation
    whose normalised words equal the command's, else the first prefix
    delegation its normalised words start with, else none; so with exact
    delegations only, nothing can be appended to or changed in the command. *)
Lemma simple_command_match command raw prefixes exact :
  simple_command command raw ->
  normalize_match command prefixes exact =
    match find_first (String.eqb (normal_spaces raw)) (exact_of exact) with
    | Some e => Some [{| segment := raw; via := e |}]
    | None => match find_first (fun p => startswith p (normal_spaces raw)) (active_of prefixes) with
              | Some p => Some [{| segment := raw; via := p |}]
              | None => None
              end
    end /\
  (is_Some (normalize_match command [] exact) <->
   exists e, e ∈ exact /\ blank e = false /\ normal_spaces e = normal_spaces raw).
Proof.
  intros Hsc. split; rewrite (normalize_match_simple _ _ _ _ Hsc); unfold delegation_for.
  - destruct (find_first (String.eqb _) _); [done|]. by destruct (find_first _ _).
  - rewrite fmap_is_Some, <- delegation_for_exact. by destruct (find_first (String.eqb _) _).
Qed.

(** ** Where the match is not closed *)

(** The POSIX reading of quotes: inside single quotes a backslash is an
    ordinary character. *)
Fixpoint posix_segments (buf : list string) (quote : option string) (cs : list string)
    : option (list (list string)) :=
  match cs with
  | [] => match quote with Some _ => None | None => Some [buf] end
  | c :: cs' =>
      if String.eqb c BACKSLASH && negb (bool_decide (quote = Some "'")) then
        match cs' with
        | [] => posix_segments (buf ++ [c]) quote cs'
        | d :: cs'' => posix_segments (buf ++ [c; d]) quote cs''
        end
      else match quote with
      | Some q => posix_segments (buf ++ [c]) (if String.eqb c q then None else quote) cs'
      | None =>
          if String.eqb c "'" || String.eqb c DQ then posix_segments (buf ++ [c]) (Some c) cs'
          else if String.eqb c ";" || String.eqb c NL then cons buf <$> posix_segments [] None cs'
          else posix_segments (buf ++ [c]) None cs'
      end
  end.

Definition quote_attack : string := "node tests/a.mjs 'x\'; rm -rf ~; echo '\'".
Definition expand_attack : string := "X=.; node tests/a.mjs > /tmp/$X$X/etc/passwd".

(** Two commands the whole-command match accepts although part of what
    they do is not delegated.  A backslash inside single quotes is skipped with
    the quote that follows it, so a command the shell runs separately stays
    hidden in a covered segment (and the command is even considered simple);
    and a redirect target is checked before expansion, so a glue assignment
    lets it leave [/tmp/]. *)
Lemma composite_match_fail_open :
  (normalize_match quote_attack ["node tests/"] [] = Some [{| segment := quote_attack; via := "node tests/" |}] /\
   is_composite_command quote_attack = false /\
   (map (fun seg => strip (concat_str seg)) <$> posix_segments [] None (chars quote_attack)) =
     Some ["node tests/a.mjs 'x\'"; "rm -rf ~"; "echo '\'"]) /\
  (normalize_match expand_attack ["node tests/"] [] =
     Some [{| segment := "X=."; via := "glue" |};
           {| segment := "node tests/a.mjs > /tmp/$X$X/etc/passwd"; via := "node tests/" |}] /\
   tmp_target "/tmp/$X$X/etc/passwd" = true /\ tmp_target "/tmp/../etc/passwd" = false).
Proof. split_and!; vm_compute; reflexivity. Qed.

(** ** Witnesses *)

Definition sample_command : string := "for i in 1 2; do node tests/a$i.mjs > /tmp/x.log 2>&1; done".

Lemma split_top_level_undivided_witness :
  Forall (fun s => s <> "" /\ _split_top_level s = Some [s])
    ["for i in 1 2"; "do node tests/a$i.mjs > /tmp/x.log 2>&1"; "done"].
Proof. apply (split_top_level_undivided sample_command). vm_compute. reflexivity. Defined.

Lemma normalize_match_sound_witness :
  Forall (fun marker => contains marker sample_command = false) _HARD_REJECT_SUBSTRINGS /\
  exists raws, _split_top_level sample_command = Some raws.
Proof.
  destruct (normalize_match sample_command ["node tests/"] []) as [ms|] eqn:Hm; [|vm_compute in Hm; discriminate Hm].
  destruct (normalize_match_sound _ _ _ _ Hm) as [H1 (raws & H2 & _)]. split; [exact H1|by exists raws].
Defined.

Lemma normalize_match_monotone_witness :
  is_Some (normalize_match sample_command ["git status"; "node tests/"] ["ls"]).
Proof.
  destruct (normalize_match_monotone sample_command ["node tests/"] ["git status"; "node tests/"] [] ["ls"]) as [H _].
  - intros x Hx. right. exact Hx.
  - intros x Hx. by apply not_elem_of_nil in Hx.
  - apply H. vm_compute. by eexists.
Defined.

Lemma simple_command_match_witness :
  is_Some (normalize_match "node  tests/a.mjs " [] ["node tests/a.mjs"]).
Proof.
  apply (simple_command_match "node  tests/a.mjs " "node  tests/a.mjs" []).
  - split; vm_compute; try reflexivity; repeat constructor.
  - exists "node tests/a.mjs". vm_compute. split; [|done]. left.
Defined.
