(* ===== verification/GatePreview.v ===== *)
(** * Gate preview ([gate_preview.py])

    The ladder of delegation candidates for one authorization box: the levels
    sampled, the prefixes sliced from the command, the two-step closure. *)
From S2P Require Import Prelude PyStr DelegationMatch.
From stdpp Require Import sorting.

(** ** Definitions *)

Definition GATE_PREVIEW_SOURCES : list string := ["host_record"; "agent_scan"].
Definition GATE_PREVIEW_LADDER_CAP : Z := 5.

(** [shlex.quote]: the safe characters are the ASCII word characters and
    [@%+=:,./-]; anything else puts the value in single quotes. *)
Definition shell_safe (c : string) : bool :=
  is_ascii_alpha c || is_ascii_digit c || mem_str c ["_"; "@"; "%"; "+"; "="; ":"; ","; "."; "/"; "-"].
Definition quote_char (c : string) : string := if String.eqb c "'" then "'" +:+ DQ +:+ "'" +:+ DQ +:+ "'" else c.
Definition _quote (value : string) : string :=
  if String.eqb value "" then "''"
  else if forallb shell_safe (chars value) then value
  else "'" +:+ concat_str (quote_char <$> chars value) +:+ "'".

Definition _grant_command (agent_id prefix : string) : string :=
  "agentdeck delegation grant --agent " +:+ agent_id +:+ " --prefix " +:+ _quote prefix +:+ " --confirm".
Definition _exact_grant_command (agent_id command : string) : string :=
  "agentdeck delegation grant --agent " +:+ agent_id +:+ " --exact-command " +:+ _quote command +:+ " --confirm".
Definition _mcp_grant_command (agent_id server tool : string) : string :=
  "agentdeck delegation grant --agent " +:+ agent_id +:+ " --mcp-server " +:+ server
  +:+ " --mcp-tool " +:+ tool +:+ " --confirm".
Definition release_box_command (agent_id : string) : string :=
  "agentdeck agent release-box --agent " +:+ agent_id +:+ " --confirm".

(** [list(range(token_count, 0, -1))] *)
Definition levels_down (token_count : nat) : list nat := reverse (seq 1 token_count).

(** [int(step * last / (cap - 1) + 0.5)] on non-negative operands: rounding half
    up.  (The float quotient rounds to the same integer below 2^50: it is exact
    at the half points and otherwise at least [1 / (2 * (cap - 1))] away.) *)
Definition sample_index (step last cap : nat) : nat := (2 * step * last + (cap - 1)) / (2 * (cap - 1)).

Fixpoint pick_levels (levels picked : list nat) (last cap : nat) (steps : list nat) : list nat :=
  match steps with
  | [] => picked
  | step :: steps =>
      let level := nth (sample_index step last cap) levels 0 in
      pick_levels levels (if decide (level ∈ picked) then picked else picked ++ [level]) last cap steps
  end.

(** [None] is the [ZeroDivisionError] of a cap of one. *)
Definition _ladder_levels (token_count : nat) (cap : Z) : option (list nat) :=
  let levels := levels_down token_count in
  if (Z.of_nat token_count <=? cap)%Z then Some levels
  else if (cap =? 1)%Z then None
  else Some (pick_levels levels [] (length levels - 1) (Z.to_nat cap) (seq 0 (Z.to_nat cap))).

(** [match.end()] for the matches of [\S+]. *)
Fixpoint token_ends (pos : nat) (inside : bool) (cs : list string) : list nat :=
  match cs with
  | [] => if inside then [pos] else []
  | c :: cs =>
      if is_space c then (if inside then cons pos else id) (token_ends (S pos) false cs)
      else token_ends (S pos) true cs
  end.

Record candidate := Candidate {
  c_index : nat; c_prefix : string; c_unpinned_tail : string; c_is_widest : bool; c_grant_command : string
}.

Definition ladder_candidate (command agent_id : string) (ends : list nat) (index level : nat) : candidate :=
  let end_ := nth (level - 1) ends 0 in
  let prefix := py_take end_ command in
  let unpinned_tail := strip (py_drop end_ command) in
  {| c_index := S index; c_prefix := prefix; c_unpinned_tail := unpinned_tail; c_is_widest := Nat.eqb level 1;
     c_grant_command := if String.eqb unpinned_tail "" then _exact_grant_command agent_id prefix
                        else _grant_command agent_id prefix |}.

Definition prefix_ladder (command : option string) (cap : Z) (agent_id : string) : option (list candidate) :=
  match command with
  | None => Some []
  | Some command =>
      match token_ends 0 false (chars command) with
      | [] => Some []
      | ends =>
          levels ← _ladder_levels (length ends) cap;
          Some (imap (ladder_candidate command agent_id ends) levels)
      end
  end.

Record control := Control {
  k_kind : string; k_command : string; k_safety : string; k_enabled : bool; k_blocker : option string
}.
Record preview := Preview {
  p_candidates : list candidate; p_grant_command : string; p_release_command : string; p_controls : list control
}.

Definition some_text (o : option string) : bool := match o with Some s => negb (String.eqb s "") | None => false end.

(** [None] is the [ValueError] of an unknown source. *)
Definition derive_gate_preview (agent_id : string) (box_kind command mcp_server mcp_tool : option string)
    (source : string) : option preview :=
  if negb (mem_str source GATE_PREVIEW_SOURCES) then None
  else
    let is_mcp := bool_decide (box_kind = Some "mcp_tool") && some_text mcp_server && some_text mcp_tool in
    candidates ← (if is_mcp then Some [] else prefix_ladder command GATE_PREVIEW_LADDER_CAP agent_id);
    let '(grant_command, grant_enabled, grant_blocker) :=
      if is_mcp then (_mcp_grant_command agent_id (default "" mcp_server) (default "" mcp_tool), true, None)
      else ("agentdeck delegation grant --agent " +:+ agent_id +:+ " --prefix <prefix> --confirm", false,
            Some "requires a prefix chosen by a human from the ladder above") in
    Some {| p_candidates := candidates; p_grant_command := grant_command;
            p_release_command := release_box_command agent_id;
            p_controls :=
              [Control "grant" grant_command "explicit_user" grant_enabled grant_blocker;
               Control "release_box" (release_box_command agent_id) "explicit_runtime" true None;
               Control "inspect" "agentdeck delegation list" "inspect" true None] |}.

(** ** The levels *)

Section levels.
Context (n cap : nat) (Hcap : 2 <= cap) (Hn : cap < n).
Let idx (step : nat) : nat := sample_index step (n - 1) cap.

Lemma idx_first : idx 0 = 0.
Proof using Hcap Hn. unfold idx, sample_index. apply Nat.div_small. lia. Qed.

Lemma idx_last : idx (cap - 1) = n - 1.
Proof using Hcap Hn.
  unfold idx, sample_index. symmetry. apply (Nat.div_unique _ _ _ (cap - 1)); [lia|]. nia.
Qed.

(** One step of the sampling moves by at least one position. *)
Lemma idx_step s : idx s < idx (S s).
Proof using Hcap Hn.
  unfold idx, sample_index.
  assert (H : (2 * s * (n - 1) + (cap - 1) + 1 * (2 * (cap - 1))) / (2 * (cap - 1)) =
              (2 * s * (n - 1) + (cap - 1)) / (2 * (cap - 1)) + 1) by (apply Nat.div_add; lia).
  enough ((2 * s * (n - 1) + (cap - 1) + 1 * (2 * (cap - 1))) / (2 * (cap - 1)) <=
          (2 * S s * (n - 1) + (cap - 1)) / (2 * (cap - 1))) by lia.
  apply Nat.Div0.div_le_mono. nia.
Qed.

Lemma idx_lt s t : s < t -> idx s < idx t.
Proof using Hcap Hn.
  induction 1 as [|t _ IH]; [apply idx_step|]. pose proof (idx_step t). lia.
Qed.

Lemma idx_bound s : s < cap -> idx s < n.
Proof using Hcap Hn.
  intros Hs. destruct (decide (s = cap - 1)) as [->|]; [rewrite idx_last; lia|].
  assert (idx s < idx (cap - 1)) by (apply idx_lt; lia). rewrite idx_last in *. lia.
Qed.
End levels.

Lemma levels_down_nth n i : i < n -> nth i (levels_down n) 0 = n - i.
Proof.
  intros Hi. apply nth_lookup_Some. unfold levels_down.
  rewrite reverse_lookup by (rewrite length_seq; lia). rewrite length_seq, lookup_seq_lt by lia. f_equal; lia.
Qed.

Lemma levels_down_length n : length (levels_down n) = n.
Proof. unfold levels_down. by rewrite length_reverse, length_seq. Qed.

(** A list given by a strictly decreasing function of the position. *)
Lemma sorted_seq (f : nat -> nat) (a m : nat) :
  (forall s t, a <= s -> s < t -> t < a + m -> f t < f s) -> StronglySorted gt (f <$> seq a m).
Proof.
  revert a; induction m as [|m IH]; intros a Hf; cbn; [constructor|]. constructor.
  - apply IH. intros s t H1 H2 H3. apply Hf; lia.
  - apply Forall_fmap, Forall_forall. intros t Ht%elem_of_seq. cbn. apply Hf; lia.
Qed.

Lemma pick_levels_eq n cap k m :
  2 <= cap -> cap < n -> k + m = cap ->
  pick_levels (levels_down n) ((fun s => n - sample_index s (n - 1) cap) <$> seq 0 k) (n - 1) cap (seq k m) =
  (fun s => n - sample_index s (n - 1) cap) <$> seq 0 cap.
Proof.
  intros Hcap Hn. revert k; induction m as [|m IH]; intros k Hk; cbn [seq pick_levels].
  { f_equal. f_equal. lia. }
  rewrite levels_down_nth by (apply idx_bound; lia). rewrite decide_False.
  - rewrite <- (IH (S k)) by lia. by rewrite seq_S, fmap_app.
  - intros (s & He & Hs%elem_of_seq)%list_elem_of_fmap.
    pose proof (idx_lt n cap Hcap Hn s k ltac:(lia)). pose proof (idx_bound n cap Hcap Hn k ltac:(lia)). lia.
Qed.

(** The sampled levels of a ladder. *)
Record ladder_levels_ok (n cap : nat) (ls : list nat) : Prop := {
  ll_length : length ls = Nat.min n cap;
  ll_first : head ls = Some n;
  ll_last : last ls = Some 1;
  ll_sorted : StronglySorted gt ls;
  ll_bounds : Forall (fun l => 1 <= l <= n) ls
}.

Lemma levels_of_function n m (f : nat -> nat) :
  1 <= m -> f 0 = n -> f (m - 1) = 1 -> (forall s t, s < t -> t < m -> f t < f s) ->
  head (f <$> seq 0 m) = Some n /\ last (f <$> seq 0 m) = Some 1 /\ StronglySorted gt (f <$> seq 0 m) /\
  Forall (fun l => 1 <= l <= n) (f <$> seq 0 m).
Proof.
  intros Hm H0 H1 Hf. split_and!.
  - destruct m as [|m]; [lia|]. cbn. by rewrite H0.
  - destruct m as [|m]; [lia|]. rewrite seq_S, fmap_app. cbn [fmap list_fmap]. rewrite last_snoc.
    rewrite <- H1. do 2 f_equal. lia.
  - apply sorted_seq. intros; apply Hf; lia.
  - apply Forall_fmap, Forall_forall. intros s Hs%elem_of_seq. cbn. split.
    + destruct (decide (s = m - 1)) as [->|]; [lia|]. pose proof (Hf s (m - 1)). lia.
    + destruct (decide (s = 0)) as [->|]; [lia|]. pose proof (Hf 0 s). lia.
Qed.

Lemma levels_down_function n : levels_down n = (fun s => n - s) <$> seq 0 n.
Proof.
  apply (list_eq_same_length _ _ n); [by rewrite length_fmap, length_seq|by rewrite levels_down_length|].
  intros i x y Hi Hx Hy. rewrite list_lookup_fmap, lookup_seq_lt in Hy by done. injection Hy as <-.
  apply (nth_lookup_Some _ _ 0) in Hx. by rewrite levels_down_nth in Hx.
Qed.

Lemma ladder_levels_function n cap :
  1 <= n -> 2 <= cap ->
  exists f, _ladder_levels n (Z.of_nat cap) = Some (f <$> seq 0 (Nat.min n cap)) /\
    f 0 = n /\ f (Nat.min n cap - 1) = 1 /\ (forall s t, s < t -> t < Nat.min n cap -> f t < f s).
Proof.
  intros Hn Hcap. unfold _ladder_levels. destruct (Z.leb_spec (Z.of_nat n) (Z.of_nat cap)) as [Hle|Hlt].
  - exists (fun s => n - s). rewrite levels_down_function, Nat.min_l by lia. split_and!; [done|lia..].
  - exists (fun s => n - sample_index s (n - 1) cap). rewrite Nat.min_r by lia.
    destruct (Z.eqb_spec (Z.of_nat cap) 1) as [|_]; [lia|].
    rewrite Nat2Z.id, levels_down_length.
    pose proof (pick_levels_eq n cap 0 cap Hcap ltac:(lia) ltac:(lia)) as Hp. cbn [seq fmap list_fmap] in Hp.
    rewrite Hp. split_and!; [done|rewrite (idx_first n cap); lia|rewrite (idx_last n cap); lia|].
    intros s t Hst Ht. pose proof (idx_lt n cap Hcap ltac:(lia) s t Hst).
    pose proof (idx_bound n cap Hcap ltac:(lia) t Ht). lia.
Qed.

Lemma ladder_levels_ok_cap n cap :
  1 <= n -> 2 <= cap -> exists ls, _ladder_levels n (Z.of_nat cap) = Some ls /\ ladder_levels_ok n cap ls.
Proof.
  intros Hn Hcap. destruct (ladder_levels_function n cap Hn Hcap) as (f & Hf & H0 & H1 & Hlt).
  eexists. split; [exact Hf|].
  destruct (levels_of_function n (Nat.min n cap) f ltac:(lia) H0 H1 Hlt) as (Ha & Hb & Hc & Hd).
  split; [by rewrite length_fmap, length_seq|done..].
Qed.

(** ** The candidates *)

Definition inside (cur : list string) : bool := match cur with [] => false | _ => true end.

(** The k-th end splits the characters after the k-th word. *)
Lemma token_ends_words cs : forall cur pos,
  length (token_ends pos (inside cur) cs) = length (words_go cur cs) /\
  forall k e, token_ends pos (inside cur) cs !! k = Some e ->
    pos <= e <= pos + length cs /\
    words_go cur (take (e - pos) cs) = take (S k) (words_go cur cs) /\
    words_go [] (drop (e - pos) cs) = drop (S k) (words_go cur cs).
Proof.
  induction cs as [|c cs IH]; intros cur pos; cbn [token_ends words_go].
  { destruct cur as [|x cur]; (split; [done|]); intros [|k] e; cbn; try done.
    intros [= ->]. rewrite Nat.sub_diag. cbn. by split_and!; [lia..| |]. }
  destruct (is_space c) eqn:Hc.
  - destruct (IH [] (S pos)) as [Hl Hk]. cbn [inside] in *. destruct cur as [|x cur]; cbn [inside id].
    + split; [done|]. intros k e He. destruct (Hk _ _ He) as (Hb & H1 & H2).
      replace (e - pos) with (S (e - S pos)) by lia. cbn [take drop words_go]. rewrite Hc. cbn [length].
      by split_and!; [lia..| |].
    + split; [cbn; by rewrite Hl|]. intros [|k] e He; cbn in He.
      * injection He as ->. rewrite Nat.sub_diag. cbn [take drop words_go]. rewrite Hc. by split_and!; [lia..| |].
      * destruct (Hk _ _ He) as (Hb & H1 & H2). replace (e - pos) with (S (e - S pos)) by lia.
        cbn [take drop words_go]. rewrite Hc, H1, H2. cbn [length]. by split_and!; [lia..| |].
  - destruct (IH (cur ++ [c]) (S pos)) as [Hl Hk]. replace (inside (cur ++ [c])) with true in * by by destruct cur.
    split; [done|]. intros k e He. destruct (Hk _ _ He) as (Hb & H1 & H2).
    replace (e - pos) with (S (e - S pos)) by lia. cbn [take drop words_go]. rewrite Hc. cbn [length].
    by split_and!; [lia..| |].
Qed.

Section candidates.
Context (command agent : string).
Let cs := chars command.
Let ends := token_ends 0 false cs.

Lemma ends_length : length ends = length (py_split command).
Proof. rewrite py_split_words, length_fmap. exact (proj1 (token_ends_words cs [] 0)). Qed.

(** What a candidate of level [l] is. *)
Lemma candidate_spec index level :
  1 <= level <= length ends ->
  let c := ladder_candidate command agent ends index level in
  exists rest, command = c_prefix c +:+ rest /\ c_unpinned_tail c = strip rest /\
    py_split (c_prefix c) = take level (py_split command) /\
    (c_unpinned_tail c = "" <-> level = length ends) /\
    c_index c = S index /\ (c_is_widest c = true <-> level = 1) /\
    c_grant_command c = (if decide (level = length ends) then _exact_grant_command agent (c_prefix c)
                         else _grant_command agent (c_prefix c)).
Proof.
  intros Hl. destruct (lookup_lt_is_Some_2 ends (level - 1)) as [e He]; [lia|].
  destruct (token_ends_words cs [] 0) as [Hlen Hk]. destruct (Hk _ _ He) as (_ & H1 & H2).
  rewrite Nat.sub_0_r in *. replace (S (level - 1)) with level in * by lia.
  pose proof (chars_chars_ok command) as Hok. rewrite <- (take_drop e (chars command)) in Hok.
  apply chars_ok_app in Hok as [Hok1 Hok2]. fold cs in Hok1, Hok2.
  cbv zeta. unfold ladder_candidate. rewrite (nth_lookup_Some _ _ 0 _ He).
  cbn [c_prefix c_unpinned_tail c_index c_is_widest c_grant_command]. exists (py_drop e command).
  assert (Htail : strip (py_drop e command) = "" <-> level = length ends).
  { unfold py_drop. fold cs. rewrite strip_empty, H2 by done. fold ends in Hlen. cbn [inside] in Hlen.
    fold ends in Hlen. split.
    - intros Hd. apply (f_equal length) in Hd. rewrite length_drop in Hd. cbn in Hd. lia.
    - intros ->. apply length_zero_iff_nil. rewrite length_drop. lia. }
  split_and!; [|done| |exact Htail|done|by rewrite Nat.eqb_eq|].
  - unfold py_take, py_drop. by rewrite <- concat_str_app, take_drop, concat_chars.
  - rewrite (py_split_words command), (py_split_words (py_take e command)). unfold py_take. fold cs.
    rewrite chars_concat by done. rewrite H1. symmetry. apply firstn_map.
  - destruct (String.eqb_spec (strip (py_drop e command)) "") as [Hs|Hs]; [rewrite decide_True|rewrite decide_False]; tauto.
Qed.
End candidates.

Lemma prefix_ladder_nonempty command agent :
  py_split command <> [] ->
  exists levels, ladder_levels_ok (length (py_split command)) 5 levels /\
    prefix_ladder (Some command) GATE_PREVIEW_LADDER_CAP agent =
      Some (imap (ladder_candidate command agent (token_ends 0 false (chars command))) levels).
Proof.
  intros Hne. pose proof (ends_length command) as Hl. unfold prefix_ladder.
  destruct (token_ends 0 false (chars command)) as [|e es] eqn:He.
  { by destruct (py_split command). }
  destruct (ladder_levels_ok_cap (length (py_split command)) 5) as (ls & Hls & Hok); [|lia|].
  { rewrite <- Hl. cbn. lia. }
  exists ls. split; [done|]. rewrite Hl. change GATE_PREVIEW_LADDER_CAP with (Z.of_nat 5). by rewrite Hls.
Qed.

(** The ladder of a command with words has [min (number of words) 5] rungs,
    from the whole command down to its first word, each strictly shorter than
    the one before.  Every rung's prefix is a verbatim prefix of the command
    holding exactly its first [level] words, the rest (stripped) is the unpinned
    tail; the tail is empty on the first rung only, and exactly there the grant
    pins the whole command instead of a prefix; the last rung only is marked
    widest.  A command without words has no rungs. *)
Lemma prefix_ladder_spec command agent :
  let n := length (py_split command) in
  exists candidates, prefix_ladder (Some command) GATE_PREVIEW_LADDER_CAP agent = Some candidates /\
    length candidates = Nat.min n 5 /\
    exists levels, (n <> 0 -> ladder_levels_ok n 5 levels) /\
    forall i c, candidates !! i = Some c -> exists level rest,
      levels !! i = Some level /\ c_index c = S i /\
      command = c_prefix c +:+ rest /\ c_unpinned_tail c = strip rest /\
      py_split (c_prefix c) = take level (py_split command) /\
      (c_unpinned_tail c = "" <-> level = n) /\ (c_is_widest c = true <-> level = 1) /\
      c_grant_command c = (if decide (level = n) then _exact_grant_command agent (c_prefix c)
                           else _grant_command agent (c_prefix c)).
Proof.
  cbv zeta. pose proof (ends_length command) as Hlen. destruct (decide (py_split command = [])) as [Hnil|Hne].
  - exists []. rewrite Hnil in *. cbn [length Nat.min]. unfold prefix_ladder.
    destruct (token_ends 0 false (chars command)); [|done].
    split_and!; [done..|]. exists []. by split.
  - destruct (prefix_ladder_nonempty command agent Hne) as (ls & Hok & Hp). rewrite Hp. eexists. split; [done|].
    split; [by rewrite length_imap, (ll_length _ _ _ Hok)|]. exists ls. split; [done|].
    intros i c (level & Hl & ->)%list_lookup_imap_Some.
    pose proof (ll_bounds _ _ _ Hok) as Hb. rewrite Forall_forall in Hb.
    specialize (Hb level ltac:(by eapply list_elem_of_lookup_2)).
    destruct (candidate_spec command agent i level) as (rest & H1 & H2 & H3 & H4 & H5 & H6 & H7); [lia|].
    exists level, rest. rewrite Hlen in *. done.
Qed.

(** On a simple command in normal form, whichever rung the human picks,
    the delegation it grants (exact on the first rung, a prefix elsewhere)
    matches the command on the box. *)
Lemma ladder_rungs_match command agent candidates c :
  simple_command command command -> normal_spaces command = command ->
  prefix_ladder (Some command) GATE_PREVIEW_LADDER_CAP agent = Some candidates -> c ∈ candidates ->
  is_Some (if decide (c_unpinned_tail c = "") then normalize_match command [] [c_prefix c]
           else normalize_match command [c_prefix c] []).
Proof.
  intros Hsc Hnorm Hp (i & Hi)%list_elem_of_lookup.
  assert (Hne : py_split command <> []).
  { pose proof (sc_head _ _ Hsc). by destruct (py_split command). }
  destruct (prefix_ladder_nonempty command agent Hne) as (ls & Hok & Hp'). rewrite Hp in Hp'. injection Hp' as ->.
  apply list_lookup_imap_Some in Hi as (level & Hl & ->).
  pose proof (ll_bounds _ _ _ Hok) as Hb. rewrite Forall_forall in Hb.
  specialize (Hb level ltac:(by eapply list_elem_of_lookup_2)).
  destruct (candidate_spec command agent i level) as (rest & H1 & _ & H3 & H4 & _); [by rewrite ends_length|].
  set (c := ladder_candidate _ _ _ _ _) in *. rewrite ends_length in H4.
  assert (Hw : py_split (c_prefix c) <> []).
  { rewrite H3. destruct (py_split command); [done|]. by destruct level; [lia|]. }
  case_decide as Ht; rewrite (normalize_match_simple _ _ _ _ Hsc), fmap_is_Some.
  - unfold delegation_for. assert (He : is_Some (find_first (String.eqb (normal_spaces command)) (exact_of [c_prefix c]))).
    { apply delegation_for_exact. exists (c_prefix c). split_and!; [by left|by apply blank_words|].
      unfold normal_spaces. rewrite H3, (proj1 H4 Ht). by rewrite firstn_all. }
    destruct He as [e ->]. by eexists.
  - apply delegation_for_prefix; [intros He; by rewrite He in Hw|]. rewrite Hnorm. apply startswith_spec. eauto.
Qed.

(** ** Quoting *)

(** How a POSIX shell reads one word back, as far as quoted words go: an unquoted
    character must be an ordinary one; [None] is anything else. *)
Fixpoint sh_read (quote : option string) (cs : list string) : option (list string) :=
  match cs with
  | [] => match quote with None => Some [] | Some _ => None end
  | c :: cs =>
      match quote with
      | None =>
          if String.eqb c "'" || String.eqb c DQ then sh_read (Some c) cs
          else if shell_safe c then cons c <$> sh_read None cs else None
      | Some q =>
          if String.eqb c q then sh_read None cs
          else if String.eqb q DQ && mem_str c ["$"; "`"; BACKSLASH] then None
          else cons c <$> sh_read quote cs
      end
  end.

(** The characters [quote_char] writes. *)
Definition quote_chars (c : string) : list string :=
  if String.eqb c "'" then ["'"; DQ; "'"; DQ; "'"] else [c].

Lemma quote_chars_concat cs : concat_str (quote_char <$> cs) = concat_str (concat (quote_chars <$> cs)).
Proof.
  induction cs as [|c cs IH]; [done|]. cbn [fmap list_fmap concat concat_str]. rewrite concat_str_app, <- IH.
  f_equal. unfold quote_char, quote_chars. destruct (String.eqb c "'"); [done|]. cbn. by rewrite app_str_nil_r.
Qed.

Lemma sh_read_quoted cs rest :
  sh_read (Some "'") (concat (quote_chars <$> cs) ++ rest) = (app cs) <$> sh_read (Some "'") rest.
Proof.
  induction cs as [|c cs IH]; cbn [fmap list_fmap concat app].
  { destruct (sh_read _ _); done. }
  rewrite <- app_assoc. unfold quote_chars at 1. destruct (String.eqb_spec c "'") as [->|Hne].
  - change (cons "'" <$> sh_read (Some "'") (concat (quote_chars <$> cs) ++ rest) = app ("'" :: cs) <$> sh_read (Some "'") rest).
    rewrite IH. by destruct (sh_read _ rest).
  - cbn [app sh_read]. rewrite (proj2 (String.eqb_neq _ _) Hne). cbn [String.eqb andb].
    change (cons c <$> sh_read (Some "'") (concat (quote_chars <$> cs) ++ rest) = app (c :: cs) <$> sh_read (Some "'") rest).
    rewrite IH. by destruct (sh_read _ rest).
Qed.

Lemma sh_read_safe cs : forallb shell_safe cs = true -> sh_read None cs = Some cs.
Proof.
  induction cs as [|c cs IH]; [done|]. cbn [forallb sh_read]. intros [Hc Hcs]%andb_true_iff. rewrite Hc.
  assert (Hq : String.eqb c "'" || String.eqb c DQ = false).
  { apply orb_false_iff; split; apply String.eqb_neq; intros ->; done. }
  by rewrite Hq, IH.
Qed.

Lemma quoted_follows cs : Forall follows cs -> Forall follows (concat (quote_chars <$> cs)).
Proof.
  induction 1 as [|c cs Hc _ IH]; [constructor|]. cbn [fmap list_fmap concat]. apply Forall_app. split; [|done].
  unfold quote_chars. destruct (String.eqb c "'"); [|by apply Forall_singleton].
  repeat (apply Forall_cons; split; [by split|]). constructor.
Qed.

(** A grant command is paste-ready: the shell reads a quoted
    prefix back as one word with exactly the original characters. *)
Lemma quote_roundtrip value :
  starts_cont value = false -> sh_read None (chars (_quote value)) = Some (chars value).
Proof.
  intros Hv. unfold _quote. destruct (String.eqb_spec value "") as [->|_]; [done|].
  destruct (forallb shell_safe (chars value)) eqn:Hs; [by apply sh_read_safe|].
  rewrite quote_chars_concat. set (q := concat (quote_chars <$> chars value)).
  assert (Hq : "'" +:+ concat_str q +:+ "'" = concat_str ("'" :: q ++ ["'"])).
  { cbn [concat_str]. by rewrite concat_str_app. }
  rewrite Hq, chars_concat.
  - cbn [sh_read]. change (sh_read (Some "'") (q ++ ["'"]) = Some (chars value)). unfold q. rewrite sh_read_quoted.
    cbn. by rewrite app_nil_r.
  - apply chars_ok_cons; [done|]. apply Forall_app. split; [by apply quoted_follows, chars_follows|].
    by apply Forall_singleton.
Qed.

(** ** Witnesses *)

Definition box_command : string := "npx playwright open file:///tmp/index.html --browser chromium --headed".

Lemma ladder_rungs_match_witness :
  is_Some (normalize_match box_command ["npx playwright open file:///tmp/index.html"] []).
Proof.
  destruct (prefix_ladder (Some box_command) GATE_PREVIEW_LADDER_CAP "codex") as [cs|] eqn:Hc;
    [|vm_compute in Hc; discriminate Hc].
  destruct (cs !! 2) as [c|] eqn:Hi; [|vm_compute in Hc; injection Hc as <-; discriminate Hi].
  assert (H : is_Some (if decide (c_unpinned_tail c = "") then normalize_match box_command [] [c_prefix c]
                       else normalize_match box_command [c_prefix c] [])).
  { apply (ladder_rungs_match box_command "codex" cs c);
      [split; vm_compute; try reflexivity; repeat constructor|vm_compute; reflexivity|exact Hc|].
    by eapply list_elem_of_lookup_2. }
  vm_compute in Hc. injection Hc as <-. injection Hi as <-. exact H.
Defined.

Lemma quote_roundtrip_witness : sh_read None (chars (_quote "echo 'hi' $HOME")) = Some (chars "echo 'hi' $HOME").
Proof. apply quote_roundtrip. reflexivity. Defined.
