(* ===== verification/Scheduler.v ===== *)
(** * The Mission scheduler ([daemon/scheduler.py])

    Validation of a fact snapshot, the pure one-transition gate, the checks a
    decision must pass, and the observation projected from the gate. *)
From S2P Require Import Prelude PyStr PyVal.

(** ** States *)

Inductive mission_st := MIdle | MPendingConfirmation | MPreparing | MRunning | MCompleted | MStopped | MInterrupted.
Inductive step_st := StNone | StPending | StActive | StCompleted | StFailed | StBlocked.
Inductive attempt_st :=
| ANone | APrepared | AAdmitting | ASubmitted | ARunning | ACompleted | ASucceeded | AFailed | ACancelled
| AInterrupted | AAmbiguous.
Inductive reply_st := RNone | RPending | RReceived | RValidated | RInvalid.
Inductive handoff_st := HNone | HPending | HRecorded.
Inductive permission_st := PermNone | PermPending | PermApproved | PermDenied | PermExpired.
Inductive snapshot_st := SnValid | SnMissing | SnDrift.
Inductive lineage_st := LValid | LMissing.
Inductive ownership_st := Owned | Conflict.
Inductive decision_kind :=
| KStartWorker | KPrepareDispatch | KDispatchPrepared | KAwaitWorker | KValidateReply | KRecordHandoff
| KActivateNext | KWaitHuman | KWaitAmbiguity | KBlocked | KCompleteMission | KIdle.

#[export] Instance mission_st_dec : EqDecision mission_st. Proof. solve_decision. Defined.
#[export] Instance step_st_dec : EqDecision step_st. Proof. solve_decision. Defined.
#[export] Instance attempt_st_dec : EqDecision attempt_st. Proof. solve_decision. Defined.
#[export] Instance reply_st_dec : EqDecision reply_st. Proof. solve_decision. Defined.
#[export] Instance handoff_st_dec : EqDecision handoff_st. Proof. solve_decision. Defined.
#[export] Instance permission_st_dec : EqDecision permission_st. Proof. solve_decision. Defined.
#[export] Instance snapshot_st_dec : EqDecision snapshot_st. Proof. solve_decision. Defined.
#[export] Instance lineage_st_dec : EqDecision lineage_st. Proof. solve_decision. Defined.
#[export] Instance ownership_st_dec : EqDecision ownership_st. Proof. solve_decision. Defined.
#[export] Instance decision_kind_dec : EqDecision decision_kind. Proof. solve_decision. Defined.

(** The spelling of each state: the member strings of the state sets. *)
Definition MISSION_STATES : list (string * mission_st) :=
  [("idle", MIdle); ("pending_confirmation", MPendingConfirmation); ("preparing", MPreparing);
   ("running", MRunning); ("completed", MCompleted); ("stopped", MStopped); ("interrupted", MInterrupted)].
Definition STEP_STATES : list (string * step_st) :=
  [("none", StNone); ("pending", StPending); ("active", StActive); ("completed", StCompleted);
   ("failed", StFailed); ("blocked", StBlocked)].
Definition ATTEMPT_STATES : list (string * attempt_st) :=
  [("none", ANone); ("prepared", APrepared); ("admitting", AAdmitting); ("submitted", ASubmitted);
   ("running", ARunning); ("completed", ACompleted); ("succeeded", ASucceeded); ("failed", AFailed);
   ("cancelled", ACancelled); ("interrupted", AInterrupted); ("ambiguous", AAmbiguous)].
Definition REPLY_STATES : list (string * reply_st) :=
  [("none", RNone); ("pending", RPending); ("received", RReceived); ("validated", RValidated);
   ("invalid", RInvalid)].
Definition HANDOFF_STATES : list (string * handoff_st) :=
  [("none", HNone); ("pending", HPending); ("recorded", HRecorded)].
Definition PERMISSION_STATES : list (string * permission_st) :=
  [("none", PermNone); ("pending", PermPending); ("approved", PermApproved); ("denied", PermDenied);
   ("expired", PermExpired)].
Definition SNAPSHOT_STATES : list (string * snapshot_st) :=
  [("valid", SnValid); ("missing", SnMissing); ("drift", SnDrift)].
Definition LINEAGE_STATES : list (string * lineage_st) := [("valid", LValid); ("missing", LMissing)].
Definition OWNERSHIP_STATES : list (string * ownership_st) := [("owned", Owned); ("conflict", Conflict)].

Definition WORKER_START_REQUIRED_BLOCKER : string := "frozen tmux Worker startup required".

Definition _FACT_FIELDS : list string :=
  ["mission_id"; "mission_state"; "step_id"; "step_state"; "attempt_id"; "attempt_state"; "reply_state";
   "handoff_state"; "permission_state"; "worker_ready"; "next_step_eligible"; "all_steps_completed";
   "snapshot_state"; "lineage_state"; "ownership_state"; "active_attempt_count"; "blocker"].

(** [_MISSION_ID], [_STEP_ID], [_ATTEMPT_ID] *)
Definition is_mission_id (s : string) : bool := hex_id "mis_" 12 s.
Definition is_attempt_id (s : string) : bool := hex_id "mat_" 12 s.
Definition is_digit (c : Ascii.ascii) : bool := (48 <=? byte_of c)%N && (byte_of c <=? 57)%N.
Definition is_step_id (s : string) : bool :=
  match drop_prefix "step_" s with
  | Some (String c r) => is_digit c && negb (byte_of c =? 48)%N && all_ascii is_digit r
  | _ => false
  end.

Definition active_attempt (a : attempt_st) : bool :=
  bool_decide (a ∈ [APrepared; AAdmitting; ASubmitted; ARunning]).
Definition successful_attempt (a : attempt_st) : bool := bool_decide (a ∈ [ACompleted; ASucceeded]).
Definition terminal_mission (m : mission_st) : bool := bool_decide (m ∈ [MCompleted; MStopped; MInterrupted]).

Definition is_successful_attempt_result (attempt_state result_status : pyval) : bool :=
  match attempt_state, result_status with
  | PStr a, PStr r => in_strs a ["completed"; "succeeded"] && String.eqb r "completed"
  | _, _ => false
  end.

Record SchedulerFacts := {
  f_mission_id : option string; mission_state : mission_st;
  f_step_id : option string; step_state : step_st;
  f_attempt_id : option string; attempt_state : attempt_st;
  reply_state : reply_st; handoff_state : handoff_st; permission_state : permission_st;
  worker_ready : bool; next_step_eligible : bool; all_steps_completed : bool;
  snapshot_state : snapshot_st; lineage_state : lineage_st; ownership_state : ownership_st;
  active_attempt_count : Z; f_blocker : option string
}.

Definition is_none {A} (o : option A) : bool := match o with None => true | Some _ => false end.
Definition eqd {A} `{EqDecision A} (a b : A) : bool := bool_decide (a = b).

(** ** Validation *)

Definition bad (what : string) : exn := SchedulerError ("invalid scheduler facts: " +:+ what).

Fixpoint assoc_str {A} (s : string) (l : list (string * A)) : option A :=
  match l with [] => None | (k, v) :: l => if String.eqb s k then Some v else assoc_str s l end.
Definition parse_state {A} (states : list (string * A)) (v : pyval) : result A :=
  match v with
  | PStr s => match assoc_str s states with Some a => Ok a | None => Err (bad "unknown state") end
  | _ => Err (bad "unknown state")
  end.
Definition parse_flag (v : pyval) : result bool :=
  match v with PBool b => Ok b | _ => Err (bad "boolean field") end.
Definition parse_count (v : pyval) : result Z :=
  match v with
  | PInt z => if (z <? 0)%Z then Err (bad "active attempt count") else Ok z
  | _ => Err (bad "active attempt count")
  end.
Definition parse_blocker (v : pyval) : result (option string) :=
  match v with
  | PNone => Ok None
  | PStr s => if blank s then Err (bad "blocker") else Ok (Some s)
  | _ => Err (bad "blocker")
  end.
Definition _optional_identity (v : pyval) (pattern : string -> bool) (label : string) : result (option string) :=
  match v with
  | PNone => Ok None
  | PStr s => if pattern s then Ok (Some s) else Err (bad (label +:+ " identity"))
  | _ => Err (bad (label +:+ " identity"))
  end.

(** The lineage checks of [__post_init__], after the fields are well typed. *)
Definition idle_facts (f : SchedulerFacts) : bool :=
  is_none (f_mission_id f) && is_none (f_step_id f) && is_none (f_attempt_id f)
  && eqd (step_state f) StNone && eqd (attempt_state f) ANone && eqd (reply_state f) RNone
  && eqd (handoff_state f) HNone && eqd (permission_state f) PermNone
  && negb (next_step_eligible f) && negb (all_steps_completed f) && negb (eqd (snapshot_state f) SnDrift)
  && eqd (lineage_state f) LValid && eqd (ownership_state f) Owned
  && (active_attempt_count f =? 0)%Z && is_none (f_blocker f).

Definition check_lineage (f : SchedulerFacts) : result unit :=
  if eqd (mission_state f) MIdle then raise_if (negb (idle_facts f)) (bad "idle Mission facts")
  else
    _ ← raise_if (is_none (f_mission_id f)) (bad "mission identity");
    _ ← raise_if (eqd (mission_state f) MPendingConfirmation
                  && (negb (is_none (f_step_id f)) || negb (eqd (step_state f) StNone)
                      || negb (is_none (f_attempt_id f)) || negb (eqd (attempt_state f) ANone)
                      || negb (active_attempt_count f =? 0)%Z)) (bad "unconfirmed Mission lineage");
    _ ← raise_if (negb (eqd (step_state f) StNone) && is_none (f_step_id f)) (bad "step identity");
    _ ← raise_if (is_none (f_step_id f) && negb (is_none (f_attempt_id f))) (bad "step identity");
    _ ← (if active_attempt (attempt_state f)
         then raise_if (active_attempt_count f <? 1)%Z (bad "active attempt count")
         else raise_if (active_attempt_count f =? 1)%Z (bad "active attempt count"));
    _ ← raise_if (negb (eqd (attempt_state f) ANone) && is_none (f_attempt_id f)) (bad "attempt identity");
    _ ← raise_if (negb (is_none (f_attempt_id f)) && eqd (attempt_state f) ANone) (bad "attempt identity");
    _ ← raise_if (negb (eqd (reply_state f) RNone) && is_none (f_attempt_id f)) (bad "reply lineage");
    _ ← raise_if (negb (eqd (handoff_state f) HNone) && negb (eqd (reply_state f) RValidated)) (bad "handoff lineage");
    raise_if (next_step_eligible f
              && (negb (eqd (reply_state f) RValidated) || negb (eqd (handoff_state f) HRecorded)))
      (bad "next-step lineage").

(** The checks of [SchedulerFacts.__post_init__], in their order. *)
Definition post_init (d : dict) : result SchedulerFacts :=
  mission ← parse_state MISSION_STATES (dget "mission_state" d);
  step ← parse_state STEP_STATES (dget "step_state" d);
  attempt ← parse_state ATTEMPT_STATES (dget "attempt_state" d);
  reply ← parse_state REPLY_STATES (dget "reply_state" d);
  handoff ← parse_state HANDOFF_STATES (dget "handoff_state" d);
  permission ← parse_state PERMISSION_STATES (dget "permission_state" d);
  snapshot ← parse_state SNAPSHOT_STATES (dget "snapshot_state" d);
  lineage ← parse_state LINEAGE_STATES (dget "lineage_state" d);
  ownership ← parse_state OWNERSHIP_STATES (dget "ownership_state" d);
  ready ← parse_flag (dget "worker_ready" d);
  eligible ← parse_flag (dget "next_step_eligible" d);
  completed ← parse_flag (dget "all_steps_completed" d);
  count ← parse_count (dget "active_attempt_count" d);
  blocker ← parse_blocker (dget "blocker" d);
  mission_id ← _optional_identity (dget "mission_id" d) is_mission_id "mission";
  step_id ← _optional_identity (dget "step_id" d) is_step_id "step";
  attempt_id ← _optional_identity (dget "attempt_id" d) is_attempt_id "attempt";
  let f := {| f_mission_id := mission_id; mission_state := mission; f_step_id := step_id; step_state := step;
              f_attempt_id := attempt_id; attempt_state := attempt; reply_state := reply;
              handoff_state := handoff; permission_state := permission; worker_ready := ready;
              next_step_eligible := eligible; all_steps_completed := completed; snapshot_state := snapshot;
              lineage_state := lineage; ownership_state := ownership; active_attempt_count := count;
              f_blocker := blocker |} in
  _ ← check_lineage f;
  Ok f.

Definition from_mapping (value : pyval) : result SchedulerFacts :=
  match value with
  | PDict d => if keys_are _FACT_FIELDS d then post_init d else Err (bad "exact fields required")
  | _ => Err (bad "exact fields required")
  end.

(** ** Decisions *)

Record SchedulerDecision := {
  kind : decision_kind; d_mission_id : option string; d_step_id : option string; d_attempt_id : option string;
  d_blocker : option string
}.

Definition matches (pattern : string -> bool) (o : option string) : bool :=
  match o with Some s => pattern s | None => true end.

(** [SchedulerDecision.__post_init__] *)
Definition decision_checks (d : SchedulerDecision) : bool :=
  matches is_mission_id (d_mission_id d) && matches is_step_id (d_step_id d) && matches is_attempt_id (d_attempt_id d)
  && (if eqd (kind d) KBlocked
      then match d_blocker d with Some b => negb (blank b) | None => false end
      else is_none (d_blocker d))
  && negb (negb (is_none (d_step_id d)) && is_none (d_mission_id d))
  && negb (negb (is_none (d_attempt_id d)) && is_none (d_step_id d))
  && negb (negb (eqd (kind d) KIdle) && is_none (d_mission_id d))
  && negb (bool_decide (kind d ∈ [KStartWorker; KPrepareDispatch])
           && (is_none (d_step_id d) || negb (is_none (d_attempt_id d))))
  && negb (eqd (kind d) KCompleteMission && (negb (is_none (d_step_id d)) || negb (is_none (d_attempt_id d))))
  && negb (bool_decide (kind d ∈ [KDispatchPrepared; KAwaitWorker; KValidateReply; KRecordHandoff; KActivateNext;
                                   KWaitAmbiguity]) && is_none (d_attempt_id d)).

Definition _decision (k : decision_kind) (f : SchedulerFacts) (blocker : option string) : result SchedulerDecision :=
  let d := {| kind := k; d_mission_id := f_mission_id f; d_step_id := f_step_id f;
              d_attempt_id := f_attempt_id f; d_blocker := blocker |} in
  if decision_checks d then Ok d else Err (SchedulerError "invalid scheduler decision").

Definition step_reason (s : step_st) : string :=
  if eqd s StFailed then "Mission step is failed" else "Mission step is blocked".
Definition attempt_reason (a : attempt_st) : string :=
  if eqd a AFailed then "Mission attempt failed"
  else if eqd a ACancelled then "Mission attempt cancelled" else "Mission attempt interrupted".

(** The last part of [schedule_gate]: completion and progress, once no
    blocker, permission or ambiguity is left. *)
Definition progress_gate (f : SchedulerFacts) : result SchedulerDecision :=
  let go k := _decision k f None in
  let block b := _decision KBlocked f (Some b) in
  let successful := successful_attempt (attempt_state f) in
  if all_steps_completed f then
    if negb (is_none (f_attempt_id f)) then
      if successful && negb (eqd (reply_state f) RValidated) then block "completion has unverified Worker result"
      else if successful && negb (eqd (handoff_state f) HRecorded) then block "completion has unrecorded handoff"
      else block "completion conflicts with current step"
    else if negb (is_none (f_step_id f)) then block "completion conflicts with current step"
    else go KCompleteMission
  else if eqd (step_state f) StPending && eqd (attempt_state f) ANone && worker_ready f then go KPrepareDispatch
  else if eqd (step_state f) StPending && eqd (attempt_state f) ANone then block "Worker is not ready"
  else if eqd (attempt_state f) APrepared then
    if negb (worker_ready f) then block "Worker is not ready at dispatch" else go KDispatchPrepared
  else if successful && eqd (reply_state f) RReceived then go KValidateReply
  else if successful && eqd (reply_state f) RValidated && negb (eqd (handoff_state f) HRecorded) then
    go KRecordHandoff
  else if successful && eqd (reply_state f) RValidated && eqd (handoff_state f) HRecorded && next_step_eligible f then
    go KActivateNext
  else if bool_decide (attempt_state f ∈ [ASubmitted; ARunning]) then go KAwaitWorker
  else if successful && bool_decide (reply_state f ∈ [RNone; RPending]) then block "Worker result is missing"
  else if eqd (step_state f) StActive && eqd (attempt_state f) ANone then
    block "active Mission step has no attempt"
  else if successful && eqd (reply_state f) RValidated && eqd (handoff_state f) HRecorded then
    block "successful attempt has no next transition"
  else block "incomplete active Mission facts".

(** [schedule_gate]; under [facts.blocker is None] the reasons [facts.blocker or r]
    are [r]. *)
Definition schedule_gate (f : SchedulerFacts) : result SchedulerDecision :=
  let go k := _decision k f None in
  let block b := _decision KBlocked f (Some b) in
  let terminal := terminal_mission (mission_state f) in
  let active := negb (active_attempt_count f =? 0)%Z in
  if eqd (mission_state f) MIdle then go KIdle
  else if negb (eqd (lineage_state f) LValid) then block "missing Mission lineage"
  else if negb (eqd (ownership_state f) Owned) then block "Worker ownership conflict"
  else if eqd (mission_state f) MPendingConfirmation then
    if eqd (snapshot_state f) SnDrift then block "frozen snapshot drift"
    else match f_blocker f with
    | Some b => block b
    | None => go KWaitHuman
    end
  else if negb (eqd (snapshot_state f) SnValid) then
    block (if eqd (snapshot_state f) SnDrift then "frozen snapshot drift" else "frozen snapshot missing")
  else if (1 <? active_attempt_count f)%Z then block "conflicting active attempts"
  else if all_steps_completed f && active then block "completion conflicts with active attempt"
  else if terminal && active then block "terminal Mission conflicts with active attempt"
  else if negb terminal && bool_decide (f_blocker f = Some WORKER_START_REQUIRED_BLOCKER)
          && eqd (step_state f) StPending && eqd (attempt_state f) ANone && is_none (f_attempt_id f)
          && (active_attempt_count f =? 0)%Z then go KStartWorker
  else match f_blocker f with
  | Some b => block b
  | None =>
  if active_attempt (attempt_state f)
     && (bool_decide (reply_state f ∈ [RReceived; RValidated]) || negb (eqd (handoff_state f) HNone)
         || next_step_eligible f) then block "Worker reply precedes successful terminal attempt"
  else if terminal && eqd (permission_state f) PermPending then block "terminal Mission has pending permission"
  else if terminal && eqd (attempt_state f) AAmbiguous then block "terminal Mission retains ambiguous attempt"
  else if bool_decide (permission_state f ∈ [PermDenied; PermExpired]) then
    block (if eqd (permission_state f) PermDenied then "permission denied" else "permission expired")
  else if bool_decide (step_state f ∈ [StFailed; StBlocked]) then block (step_reason (step_state f))
  else if bool_decide (attempt_state f ∈ [AFailed; ACancelled; AInterrupted]) then
    block (attempt_reason (attempt_state f))
  else if eqd (reply_state f) RInvalid then block "Worker reply is invalid"
  else if eqd (mission_state f) MCompleted && (negb (is_none (f_step_id f)) || negb (is_none (f_attempt_id f))) then
    block "terminal Mission retains current lineage"
  else if terminal then go KIdle
  else if eqd (permission_state f) PermPending then go KWaitHuman
  else if bool_decide (attempt_state f ∈ [AAdmitting; AAmbiguous]) then go KWaitAmbiguity
  else progress_gate f
  end.

Record observation := {
  o_state : string; o_mission : option string; o_step : option string; o_next : option decision_kind;
  o_blockers : list string
}.

Definition scheduler_observation (f : SchedulerFacts) : result observation :=
  d ← schedule_gate f;
  let '(state, next) :=
    if eqd (kind d) KBlocked then ("blocked", Some (kind d))
    else if terminal_mission (mission_state f) then ("terminal", None)
    else if eqd (kind d) KIdle then ("inactive", None)
    else if bool_decide (kind d ∈ [KWaitHuman; KWaitAmbiguity]) then ("waiting_human", Some (kind d))
    else ("running", Some (kind d)) in
  Ok {| o_state := state; o_mission := f_mission_id f; o_step := f_step_id f; o_next := next;
        o_blockers := match d_blocker d with None => [] | Some b => [b] end |}.

(** [run_scheduler_once]: [apply] is the caller's effect. *)
Definition run_scheduler_once {R} (f : SchedulerFacts) (apply : SchedulerDecision -> result R) : result R :=
  d ← schedule_gate f; apply d.

(** ** Valid facts *)

Lemma eqd_true {A} `{EqDecision A} (a b : A) : eqd a b = true <-> a = b.
Proof. apply bool_decide_eq_true. Qed.
Lemma eqd_false {A} `{EqDecision A} (a b : A) : eqd a b = false <-> a <> b.
Proof. apply bool_decide_eq_false. Qed.
Lemma is_none_true {A} (o : option A) : is_none o = true <-> o = None.
Proof. by destruct o. Qed.

(** The invariant of a [SchedulerFacts] object. *)
Record facts_ok (f : SchedulerFacts) : Prop := {
  fo_count : (0 <= active_attempt_count f)%Z;
  fo_blocker : forall b, f_blocker f = Some b -> blank b = false;
  fo_mission_id : matches is_mission_id (f_mission_id f) = true;
  fo_step_id : matches is_step_id (f_step_id f) = true;
  fo_attempt_id : matches is_attempt_id (f_attempt_id f) = true;
  fo_lineage : check_lineage f = Ok tt
}.

Lemma parse_count_Ok v z : parse_count v = Ok z -> (0 <= z)%Z.
Proof. destruct v; cbn; try done. destruct (Z.ltb_spec z0 0); [done|]. by intros [= <-]. Qed.

Lemma parse_blocker_Ok v o : parse_blocker v = Ok o -> forall b, o = Some b -> blank b = false.
Proof. destruct v; cbn; try done; [by intros [= <-]|]. destruct (blank s) eqn:H; [done|]. intros [= <-]. by intros ? [= <-]. Qed.

Lemma optional_identity_Ok v p l o : _optional_identity v p l = Ok o -> matches p o = true.
Proof. destruct v; cbn; try done; [by intros [= <-]|]. destruct (p s) eqn:H; [|done]. by intros [= <-]. Qed.

Lemma from_mapping_ok v f : from_mapping v = Ok f -> facts_ok f.
Proof.
  destruct v as [| | | | | | |d]; cbn [from_mapping]; try done. destruct (keys_are _ d); [|done].
  unfold post_init. intros H. repeat (apply bind_Ok in H as (? & ? & H)).
  injection H as <-. split; cbn [active_attempt_count f_blocker f_mission_id f_step_id f_attempt_id].
  - eauto using parse_count_Ok.
  - eauto using parse_blocker_Ok.
  - eauto using optional_identity_Ok.
  - eauto using optional_identity_Ok.
  - eauto using optional_identity_Ok.
  - by destruct x16.
Qed.

(** What the lineage checks give for a Mission that is not idle. *)
Record live_lineage (f : SchedulerFacts) : Prop := {
  ll_mission : is_none (f_mission_id f) = false;
  ll_pending : mission_state f = MPendingConfirmation ->
    f_step_id f = None /\ step_state f = StNone /\ f_attempt_id f = None /\ attempt_state f = ANone /\
    active_attempt_count f = 0%Z;
  ll_step : f_step_id f = None -> step_state f = StNone /\ f_attempt_id f = None;
  ll_attempt : f_attempt_id f = None <-> attempt_state f = ANone;
  ll_active : active_attempt (attempt_state f) = true -> (1 <= active_attempt_count f)%Z;
  ll_inactive : active_attempt (attempt_state f) = false -> active_attempt_count f <> 1%Z;
  ll_reply : f_attempt_id f = None -> reply_state f = RNone;
  ll_handoff : handoff_state f <> HNone -> reply_state f = RValidated;
  ll_next : next_step_eligible f = true -> reply_state f = RValidated /\ handoff_state f = HRecorded
}.

Lemma raise_Ok b e : raise_if b e = Ok tt <-> b = false.
Proof. unfold raise_if. by destruct b. Qed.

Lemma check_lineage_idle f : mission_state f = MIdle -> check_lineage f = Ok tt <-> idle_facts f = true.
Proof.
  intros Hm. unfold check_lineage. rewrite (proj2 (eqd_true _ _) Hm), raise_Ok. apply negb_false_iff.
Qed.

Lemma is_none_false {A} (o : option A) : is_none o = false <-> o <> None.
Proof. by destruct o. Qed.

#[local] Hint Rewrite negb_true_iff negb_false_iff andb_true_iff andb_false_iff orb_true_iff orb_false_iff
  @eqd_true @eqd_false @is_none_true @is_none_false Z.eqb_eq Z.eqb_neq Z.ltb_lt Z.ltb_ge : states.

Lemma check_lineage_live f : mission_state f <> MIdle -> check_lineage f = Ok tt -> live_lineage f.
Proof.
  intros Hm. unfold check_lineage. rewrite (proj2 (eqd_false _ _) Hm). intros H.
  repeat (apply bind_Ok in H as ([] & ?Hc & H)).
  assert (Hact : active_attempt (attempt_state f) = true -> (1 <= active_attempt_count f)%Z).
  { intros Ha. rewrite Ha, raise_Ok in Hc3. autorewrite with states in Hc3. lia. }
  assert (Hina : active_attempt (attempt_state f) = false -> active_attempt_count f <> 1%Z).
  { intros Ha. rewrite Ha, raise_Ok in Hc3. by autorewrite with states in Hc3. }
  clear Hc3. rewrite raise_Ok in *. split; try done.
  - clear -Hc0. intros Hp. rewrite (proj2 (eqd_true _ _) Hp) in Hc0. autorewrite with states in Hc0.
    by destruct Hc0 as [|[[[[]]]]].
  - clear -Hc1 Hc2. intros Hs. rewrite Hs in *. cbn in *. autorewrite with states in *.
    by destruct Hc1, Hc2.
  - clear -Hc4 Hc5. autorewrite with states in *. split; intros Ha; rewrite Ha in *.
    + by destruct Hc4.
    + by destruct Hc5.
  - clear -Hc6. intros Ha. rewrite Ha in *. autorewrite with states in *. by destruct Hc6.
  - clear -Hc7. intros Ha. autorewrite with states in *. by destruct Hc7.
  - clear -H. intros Ha. rewrite Ha in *. autorewrite with states in *. by destruct H as [|[]].
Qed.

(** ** When each decision is taken *)

Definition integrity (f : SchedulerFacts) : bool :=
  eqd (lineage_state f) LValid && eqd (ownership_state f) Owned && eqd (snapshot_state f) SnValid
  && negb (1 <? active_attempt_count f)%Z.
Definition live (f : SchedulerFacts) : bool := bool_decide (mission_state f ∈ [MPreparing; MRunning]).
(** A reply recorded while its attempt is still active. *)
Definition early_reply (f : SchedulerFacts) : bool :=
  active_attempt (attempt_state f) && bool_decide (reply_state f ∈ [RReceived; RValidated]).
(** Nothing failed, was refused or is invalid. *)
Definition healthy (f : SchedulerFacts) : bool :=
  is_none (f_blocker f) && negb (bool_decide (permission_state f ∈ [PermDenied; PermExpired]))
  && negb (bool_decide (step_state f ∈ [StFailed; StBlocked]))
  && negb (bool_decide (attempt_state f ∈ [AFailed; ACancelled; AInterrupted]))
  && negb (eqd (reply_state f) RInvalid) && negb (early_reply f)
  && negb (all_steps_completed f && negb (active_attempt_count f =? 0)%Z).
Definition clear (f : SchedulerFacts) : bool :=
  integrity f && live f && healthy f && negb (eqd (permission_state f) PermPending).

Definition guard (k : decision_kind) (f : SchedulerFacts) : bool :=
  match k with
  | KIdle =>
      eqd (mission_state f) MIdle
      || integrity f && terminal_mission (mission_state f) && (active_attempt_count f =? 0)%Z && healthy f
         && negb (eqd (permission_state f) PermPending) && negb (eqd (attempt_state f) AAmbiguous)
         && negb (eqd (mission_state f) MCompleted && (negb (is_none (f_step_id f)) || negb (is_none (f_attempt_id f))))
  | KWaitHuman =>
      eqd (mission_state f) MPendingConfirmation && eqd (lineage_state f) LValid && eqd (ownership_state f) Owned
      && negb (eqd (snapshot_state f) SnDrift) && is_none (f_blocker f)
      || integrity f && live f && healthy f && eqd (permission_state f) PermPending
  | KWaitAmbiguity => clear f && bool_decide (attempt_state f ∈ [AAdmitting; AAmbiguous])
  | KStartWorker =>
      integrity f && live f && bool_decide (f_blocker f = Some WORKER_START_REQUIRED_BLOCKER)
      && eqd (step_state f) StPending && eqd (attempt_state f) ANone
  | KCompleteMission =>
      clear f && all_steps_completed f && is_none (f_step_id f) && is_none (f_attempt_id f)
  | KPrepareDispatch =>
      clear f && negb (all_steps_completed f) && eqd (step_state f) StPending && eqd (attempt_state f) ANone
      && worker_ready f
  | KDispatchPrepared =>
      clear f && negb (all_steps_completed f) && eqd (attempt_state f) APrepared && worker_ready f
  | KAwaitWorker =>
      clear f && negb (all_steps_completed f) && bool_decide (attempt_state f ∈ [ASubmitted; ARunning])
  | KValidateReply =>
      clear f && negb (all_steps_completed f) && successful_attempt (attempt_state f)
      && eqd (reply_state f) RReceived
  | KRecordHandoff =>
      clear f && negb (all_steps_completed f) && successful_attempt (attempt_state f)
      && eqd (reply_state f) RValidated && negb (eqd (handoff_state f) HRecorded)
  | KActivateNext =>
      clear f && negb (all_steps_completed f) && successful_attempt (attempt_state f)
      && eqd (reply_state f) RValidated && eqd (handoff_state f) HRecorded && next_step_eligible f
  | KBlocked => false
  end.

(** ** The gate takes exactly those decisions *)

Ltac norm_bool H :=
  repeat first [ rewrite negb_true_iff in H | rewrite negb_false_iff in H | rewrite andb_true_iff in H
               | rewrite orb_false_iff in H ].

(** Use the boolean facts of the context in the goal. *)
Ltac use_tests :=
  repeat match goal with
  | H : ?b = true |- context [?b] => rewrite H
  | H : ?b = false |- context [?b] => rewrite H
  end; cbn [andb orb negb].

(** The decision is well formed and, unless it blocks, its guard holds. *)
Definition sound (f : SchedulerFacts) (r : result SchedulerDecision) : Prop :=
  exists d, r = Ok d /\ decision_checks d = true /\
    d_mission_id d = f_mission_id f /\ d_step_id d = f_step_id f /\ d_attempt_id d = f_attempt_id f /\
    (kind d <> KBlocked -> guard (kind d) f = true).

Section leaves.
Context (f : SchedulerFacts) (Hok : facts_ok f).

Lemma decision_sound k b :
  decision_checks {| kind := k; d_mission_id := f_mission_id f; d_step_id := f_step_id f;
                     d_attempt_id := f_attempt_id f; d_blocker := b |} = true ->
  (k <> KBlocked -> guard k f = true) -> sound f (_decision k f b).
Proof. intros Hc Hg. unfold _decision. rewrite Hc. eexists. split; [done|]. by split_and!. Qed.

Lemma idle_sound :
  (mission_state f = MIdle \/ live_lineage f) -> guard KIdle f = true -> sound f (_decision KIdle f None).
Proof using Hok.
  intros Hm Hg. apply decision_sound; [|done]. destruct Hok as [_ _ H1 H2 H3 Hl]. unfold decision_checks. cbn.
  rewrite H1, H2, H3. cbn. destruct Hm as [Hm|Hl'].
  - apply (check_lineage_idle f Hm) in Hl. unfold idle_facts in Hl. autorewrite with states in Hl.
    destruct Hl as [[[[[[[[[[[[[[-> ->] ->] _] _] _] _] _] _] _] _] _] _] _] _]. done.
  - destruct Hl' as [Hmi _ Hs _ _ _ _ _ _]. rewrite Hmi. destruct (f_step_id f); cbn; [|by rewrite (proj2 (Hs eq_refl))].
    by rewrite andb_false_r.
Qed.

Context (Hlive : live_lineage f).

Lemma block_sound b : blank b = false -> sound f (_decision KBlocked f (Some b)).
Proof using Hok Hlive.
  intros Hb. apply decision_sound; [|done]. destruct Hok as [_ _ H1 H2 H3 _]. destruct Hlive as [Hmi _ Hs _ _ _ _ _ _].
  unfold decision_checks. cbn. rewrite H1, H2, H3, Hb, Hmi. cbn.
  destruct (f_step_id f); cbn; [|by rewrite (proj2 (Hs eq_refl))]. by rewrite andb_false_r.
Qed.

(** Decisions that name no particular lineage. *)
Lemma wait_human_sound : guard KWaitHuman f = true -> sound f (_decision KWaitHuman f None).
Proof using Hok Hlive.
  intros Hg. apply decision_sound; [|done]. destruct Hok as [_ _ H1 H2 H3 _]. destruct Hlive as [Hmi _ Hs _ _ _ _ _ _].
  unfold decision_checks. cbn. rewrite H1, H2, H3, Hmi. cbn.
  destruct (f_step_id f); cbn; [|by rewrite (proj2 (Hs eq_refl))]. by rewrite andb_false_r.
Qed.

(** Decisions about the current attempt. *)
Lemma attempt_sound k :
  k ∈ [KDispatchPrepared; KAwaitWorker; KValidateReply; KRecordHandoff; KActivateNext; KWaitAmbiguity] ->
  attempt_state f <> ANone -> guard k f = true -> sound f (_decision k f None).
Proof using Hok Hlive.
  intros Hk Ha Hg. apply decision_sound; [|done]. destruct Hok as [_ _ H1 H2 H3 _].
  destruct Hlive as [Hmi _ Hs Hat _ _ _ _ _]. unfold decision_checks. cbn -[elem_of]. rewrite H1, H2, H3, Hmi.
  destruct (f_attempt_id f) eqn:Hai; [|by destruct Ha; apply Hat].
  destruct (f_step_id f) eqn:Hsi; [|by destruct (Hs eq_refl)].
  repeat (apply elem_of_cons in Hk as [->|Hk]; [done|]). by apply not_elem_of_nil in Hk.
Qed.

(** Decisions about the current step before it has an attempt. *)
Lemma step_sound k :
  k ∈ [KStartWorker; KPrepareDispatch] -> step_state f <> StNone -> attempt_state f = ANone ->
  guard k f = true -> sound f (_decision k f None).
Proof using Hok Hlive.
  intros Hk Hst Ha Hg. apply decision_sound; [|done]. destruct Hok as [_ _ H1 H2 H3 _].
  destruct Hlive as [Hmi _ Hs Hat _ _ _ _ _]. unfold decision_checks. cbn -[elem_of]. rewrite H1, H2, H3, Hmi.
  rewrite (proj2 Hat Ha). destruct (f_step_id f) eqn:Hsi; [|by destruct (Hs eq_refl)].
  repeat (apply elem_of_cons in Hk as [->|Hk]; [done|]). by apply not_elem_of_nil in Hk.
Qed.

Lemma complete_sound :
  f_step_id f = None -> f_attempt_id f = None -> guard KCompleteMission f = true ->
  sound f (_decision KCompleteMission f None).
Proof using Hok Hlive.
  intros Hs Ha Hg. apply decision_sound; [|done]. destruct Hok as [_ _ H1 _ _ _].
  destruct Hlive as [Hmi _ _ _ _ _ _ _ _]. unfold decision_checks. cbn. by rewrite H1, Hs, Ha, Hmi.
Qed.
End leaves.

Lemma successful_not_none a : successful_attempt a = true -> a <> ANone.
Proof. by intros H ->. Qed.
Lemma in_not_none a (l : list attempt_st) : bool_decide (a ∈ l) = true -> ANone ∉ l -> a <> ANone.
Proof. by intros H%bool_decide_eq_true Hn ->. Qed.

Ltac solve_in := first [ apply (bool_decide_eq_true_1 _); vm_compute; reflexivity
                      | apply (bool_decide_eq_false_1 _); vm_compute; reflexivity ].

Ltac guard_goal := unfold guard; use_tests; try reflexivity.

Lemma progress_sound f :
  facts_ok f -> live_lineage f -> clear f = true -> sound f (progress_gate f).
Proof.
  intros Hok Hl Hc. pose proof (block_sound f Hok Hl) as Hb. unfold progress_gate.
  destruct (all_steps_completed f) eqn:Hall.
  { destruct (f_attempt_id f) eqn:Ha; cbn [is_none negb].
    - destruct (_ && _); [by apply Hb|]. destruct (_ && _); by apply Hb.
    - destruct (f_step_id f) eqn:Hs; cbn [is_none negb]; [by apply Hb|].
      apply complete_sound; [done..|]. unfold guard. by rewrite Hc, Hall, Hs, Ha. }
  destruct (eqd (step_state f) StPending && eqd (attempt_state f) ANone && worker_ready f) eqn:E1.
  { apply andb_true_iff in E1 as [[E1 E2]%andb_true_iff E3]. apply step_sound; [done..|solve_in| | |].
    - rewrite eqd_true in E1. by rewrite E1.
    - by apply eqd_true.
    - guard_goal. }
  destruct (eqd (step_state f) StPending && eqd (attempt_state f) ANone); [by apply Hb|].
  destruct (eqd (attempt_state f) APrepared) eqn:Ep.
  { destruct (worker_ready f) eqn:Ew; cbn [negb]; [|by apply Hb]. apply attempt_sound; [done..|solve_in| |].
    - rewrite eqd_true in Ep. by rewrite Ep.
    - guard_goal. }
  destruct (successful_attempt (attempt_state f)) eqn:Es; cbn [andb].
  { destruct (eqd (reply_state f) RReceived) eqn:Er.
    { apply attempt_sound; [done..|solve_in|by apply successful_not_none|guard_goal]. }
    destruct (eqd (reply_state f) RValidated) eqn:Ev; cbn [andb].
    - destruct (eqd (handoff_state f) HRecorded) eqn:Eh; cbn [negb andb].
      + destruct (next_step_eligible f) eqn:En.
        { apply attempt_sound; [done..|solve_in|by apply successful_not_none|guard_goal]. }
        repeat case_match; try (by apply Hb).
        apply attempt_sound; [done..|solve_in|by apply successful_not_none|guard_goal].
      + apply attempt_sound; [done..|solve_in|by apply successful_not_none|guard_goal].
    - repeat case_match; try (by apply Hb).
      apply attempt_sound; [done..|solve_in|by apply successful_not_none|guard_goal]. }
  destruct (bool_decide (attempt_state f ∈ [ASubmitted; ARunning])) eqn:Eaw; [|repeat case_match; by apply Hb].
  apply attempt_sound; [done..|solve_in|eapply in_not_none; [done|solve_in]|guard_goal].
Qed.

(** Under the lineage checks an early reply is the code's three-way test. *)
Lemma early_reply_eq f :
  live_lineage f ->
  active_attempt (attempt_state f)
  && (bool_decide (reply_state f ∈ [RReceived; RValidated]) || negb (eqd (handoff_state f) HNone)
      || next_step_eligible f) = early_reply f.
Proof.
  intros Hl. unfold early_reply. f_equal. destruct (bool_decide (reply_state f ∈ _)) eqn:Hr; [done|]. cbn [orb].
  apply bool_decide_eq_false in Hr. destruct (next_step_eligible f) eqn:Hn.
  { destruct (ll_next _ Hl Hn) as [Hv _]. rewrite Hv in Hr. set_solver. }
  rewrite orb_false_r. apply negb_false_iff, eqd_true. destruct (handoff_state f) eqn:Hh; [done|..];
    rewrite (ll_handoff _ Hl) in Hr by (by rewrite Hh); set_solver.
Qed.

Lemma live_or f :
  mission_state f <> MIdle -> mission_state f <> MPendingConfirmation ->
  live f = negb (terminal_mission (mission_state f)).
Proof. unfold live. by destruct (mission_state f). Qed.

Lemma blank_reasons f : blank (step_reason (step_state f)) = false /\ blank (attempt_reason (attempt_state f)) = false.
Proof. unfold step_reason, attempt_reason. split; repeat case_match; reflexivity. Qed.

Lemma gate_sound f : facts_ok f -> sound f (schedule_gate f).
Proof.
  intros Hok. unfold schedule_gate. destruct (eqd (mission_state f) MIdle) eqn:Hidle.
  { apply idle_sound; [done|left; by apply eqd_true|guard_goal]. }
  assert (Hni : mission_state f <> MIdle) by by apply eqd_false.
  pose proof (check_lineage_live f Hni (fo_lineage _ Hok)) as Hl.
  pose proof (block_sound f Hok Hl) as Hb. pose proof (fo_blocker _ Hok) as Hbl.
  destruct (eqd (lineage_state f) LValid) eqn:Hlin; cbn [negb]; [|by apply Hb].
  destruct (eqd (ownership_state f) Owned) eqn:Hown; cbn [negb]; [|by apply Hb].
  destruct (eqd (mission_state f) MPendingConfirmation) eqn:Hpc.
  { destruct (eqd (snapshot_state f) SnDrift) eqn:Hd; [by apply Hb|].
    destruct (f_blocker f) as [b|] eqn:Hbb; [apply Hb; eauto|]. apply wait_human_sound; [done..|]. guard_goal.
    by rewrite Hbb. }
  destruct (eqd (snapshot_state f) SnValid) eqn:Hsn; cbn [negb]; [|apply Hb; by case_match].
  destruct (1 <? active_attempt_count f)%Z eqn:Hcnt; [by apply Hb|].
  destruct (all_steps_completed f && negb (active_attempt_count f =? 0)%Z) eqn:Hall; [by apply Hb|].
  destruct (terminal_mission (mission_state f) && negb (active_attempt_count f =? 0)%Z) eqn:Hta; [by apply Hb|].
  assert (Hint : integrity f = true) by (unfold integrity; by rewrite Hlin, Hown, Hsn, Hcnt).
  assert (Hlive : live f = negb (terminal_mission (mission_state f))) by (apply live_or; [done|by apply eqd_false]).
  destruct (negb (terminal_mission (mission_state f)) && _ && _ && _ && _ && _) eqn:Hstart.
  { repeat (apply andb_true_iff in Hstart as [Hstart ?Hs]). rewrite Hstart in Hlive.
    apply step_sound; [done..|solve_in| |by apply eqd_true|guard_goal].
    rewrite eqd_true in Hs2. by rewrite Hs2. }
  clear Hstart. destruct (f_blocker f) as [b|] eqn:Hbb; [apply Hb; eauto|].
  rewrite (early_reply_eq f Hl). destruct (early_reply f) eqn:He; [by apply Hb|].
  destruct (terminal_mission (mission_state f) && eqd (permission_state f) PermPending) eqn:Htp; [by apply Hb|].
  destruct (terminal_mission (mission_state f) && eqd (attempt_state f) AAmbiguous) eqn:Htam; [by apply Hb|].
  destruct (bool_decide (permission_state f ∈ [PermDenied; PermExpired])) eqn:Hp; [apply Hb; by case_match|].
  destruct (bool_decide (step_state f ∈ [StFailed; StBlocked])) eqn:Hs; [apply Hb, blank_reasons|].
  destruct (bool_decide (attempt_state f ∈ [AFailed; ACancelled; AInterrupted])) eqn:Ha; [apply Hb, blank_reasons|].
  destruct (eqd (reply_state f) RInvalid) eqn:Hr; [by apply Hb|].
  assert (Hh : healthy f = true).
  { unfold healthy. by rewrite Hbb, Hp, Hs, Ha, Hr, He, Hall. }
  destruct (eqd (mission_state f) MCompleted && _) eqn:Hcl; [by apply Hb|].
  destruct (terminal_mission (mission_state f)) eqn:Hterm; cbn [andb negb] in *.
  { apply idle_sound; [done|by right|]. apply negb_false_iff in Hta. guard_goal. }
  destruct (eqd (permission_state f) PermPending) eqn:Hpp.
  { apply wait_human_sound; [done..|]. guard_goal. }
  assert (Hc : clear f = true) by (unfold clear; by rewrite Hint, Hlive, Hh, Hpp).
  destruct (bool_decide (attempt_state f ∈ [AAdmitting; AAmbiguous])) eqn:Hamb; [|by apply progress_sound].
  apply attempt_sound; [done..|solve_in|eapply in_not_none; [done|solve_in]|guard_goal].
Qed.

Lemma live_tests f :
  live f = true ->
  eqd (mission_state f) MIdle = false /\ eqd (mission_state f) MPendingConfirmation = false /\
  eqd (mission_state f) MCompleted = false /\ terminal_mission (mission_state f) = false.
Proof. unfold live. by destruct (mission_state f). Qed.

(** Split a conjunction of tests into one hypothesis per test. *)
Ltac split_tests H :=
  repeat match type of H with
  | (_ && _)%bool = true => let H' := fresh "T" in apply andb_true_iff in H as [H H'];
      try (rewrite negb_true_iff in H')
  end; try (rewrite negb_true_iff in H).

Lemma healthy_gate f :
  live_lineage f -> integrity f = true -> healthy f = true ->
  eqd (mission_state f) MIdle = false -> eqd (mission_state f) MPendingConfirmation = false ->
  (terminal_mission (mission_state f) = true -> (active_attempt_count f =? 0)%Z = true) ->
  schedule_gate f =
    (if terminal_mission (mission_state f) && eqd (permission_state f) PermPending
     then _decision KBlocked f (Some "terminal Mission has pending permission")
     else if terminal_mission (mission_state f) && eqd (attempt_state f) AAmbiguous
     then _decision KBlocked f (Some "terminal Mission retains ambiguous attempt")
     else if eqd (mission_state f) MCompleted && (negb (is_none (f_step_id f)) || negb (is_none (f_attempt_id f)))
     then _decision KBlocked f (Some "terminal Mission retains current lineage")
     else if terminal_mission (mission_state f) then _decision KIdle f None
     else if eqd (permission_state f) PermPending then _decision KWaitHuman f None
     else if bool_decide (attempt_state f ∈ [AAdmitting; AAmbiguous]) then _decision KWaitAmbiguity f None
     else progress_gate f).
Proof.
  intros Hl Hi Hh H1 H2 Hterm. unfold integrity in Hi. split_tests Hi. unfold healthy in Hh. split_tests Hh.
  unfold schedule_gate. rewrite H1, H2, Hi, T0, T1, T. cbn [negb]. rewrite T2.
  rewrite (is_none_true (f_blocker f)) in Hh. rewrite Hh, (early_reply_eq f Hl), T3, T4, T5, T6, T7.
  rewrite (bool_decide_eq_false_2 (None = Some _)) by done. rewrite andb_false_r. cbn [andb negb].
  destruct (terminal_mission (mission_state f)) eqn:Ht; cbn [andb]; [|done].
  rewrite (Hterm eq_refl). cbn [negb]. done.
Qed.

Lemma clear_gate f :
  live_lineage f -> clear f = true ->
  schedule_gate f = if bool_decide (attempt_state f ∈ [AAdmitting; AAmbiguous])
                    then _decision KWaitAmbiguity f None else progress_gate f.
Proof.
  intros Hl Hc. unfold clear in Hc. split_tests Hc. destruct (live_tests f T1) as (H1 & H2 & H3 & H4).
  rewrite (healthy_gate f Hl) by (done || by rewrite H4). by rewrite H3, H4, T.
Qed.

(** What a test on the attempt state decides about the others. *)
Lemma successful_tests a : successful_attempt a = true ->
  eqd a ANone = false /\ eqd a APrepared = false /\ bool_decide (a ∈ [AAdmitting; AAmbiguous]) = false.
Proof. by destruct a. Qed.

Lemma guard_gate f k :
  facts_ok f -> k <> KBlocked -> guard k f = true -> schedule_gate f = _decision k f None.
Proof.
  intros Hok Hk Hg. destruct (decide (mission_state f = MIdle)) as [Hidle|Hni].
  { assert (k = KIdle) as ->.
    { destruct k; try done; cbn in Hg; unfold clear, live in Hg; rewrite Hidle in Hg; cbn in Hg;
        rewrite ?andb_false_r in Hg; cbn in Hg; rewrite ?andb_false_r in Hg; done. }
    unfold schedule_gate. by rewrite Hidle. }
  pose proof (check_lineage_live f Hni (fo_lineage _ Hok)) as Hl.
  pose proof (proj2 (eqd_false _ _) Hni) as Hni'.
  destruct k; try done; cbn [guard] in Hg.
  - (* start_worker *) split_tests Hg. destruct (live_tests f T2) as (H1 & H2 & H3 & H4).
    unfold integrity in Hg. split_tests Hg. unfold schedule_gate. rewrite H1, H2, H4, Hg, T4, T5, T3. cbn [negb andb].
    rewrite T1, T0, T. rewrite eqd_true in T. rewrite (proj2 (is_none_true _) (proj2 (ll_attempt _ Hl) T)).
    assert (Hz : (active_attempt_count f =? 0)%Z = true).
    { pose proof (ll_inactive _ Hl ltac:(by rewrite T)). pose proof (fo_count _ Hok).
      apply Z.ltb_ge in T3. apply Z.eqb_eq. lia. }
    rewrite Hz. cbn [negb andb]. by rewrite andb_false_r.
  - (* prepare_dispatch *) split_tests Hg. rewrite (clear_gate f Hl Hg). unfold progress_gate.
    rewrite T2, T1, T0, T. rewrite eqd_true in T0. by rewrite T0.
  - (* dispatch_prepared *) split_tests Hg. rewrite (clear_gate f Hl Hg). unfold progress_gate.
    rewrite T1, T. rewrite eqd_true in T0. rewrite T0. cbn. by rewrite andb_false_r.
  - (* await_worker *) split_tests Hg. rewrite (clear_gate f Hl Hg). unfold progress_gate. rewrite T0.
    apply bool_decide_eq_true in T. rewrite !elem_of_cons in T. destruct T as [Ha|[Ha|Ha%not_elem_of_nil]]; [..|done];
      rewrite Ha; cbn; by rewrite !andb_false_r.
  - (* validate_reply *) split_tests Hg. rewrite (clear_gate f Hl Hg). unfold progress_gate.
    destruct (successful_tests _ T0) as (H1 & H2 & H3). rewrite T1, H1, H2, H3, T0, T. cbn [andb]. by rewrite !andb_false_r.
  - (* record_handoff *) split_tests Hg. rewrite (clear_gate f Hl Hg). unfold progress_gate.
    destruct (successful_tests _ T1) as (H1 & H2 & H3). rewrite T2, H1, H2, H3, T1, T. rewrite eqd_true in T0.
    rewrite T0. cbn. by rewrite !andb_false_r.
  - (* activate_next *) split_tests Hg. rewrite (clear_gate f Hl Hg). unfold progress_gate.
    destruct (successful_tests _ T2) as (H1 & H2 & H3). rewrite T3, H1, H2, H3, T2, T0, T. rewrite eqd_true in T1.
    rewrite T1. cbn. by rewrite !andb_false_r.
  - (* wait_human *) apply orb_true_iff in Hg as [Hg|Hg]; split_tests Hg.
    + unfold schedule_gate. rewrite Hni', Hg, T2, T1, T0. rewrite is_none_true in T. by rewrite T.
    + destruct (live_tests f T1) as (H1 & H2 & H3 & H4).
      rewrite (healthy_gate f Hl) by (done || by rewrite H4). by rewrite H3, H4, T.
  - (* wait_ambiguity *) split_tests Hg. by rewrite (clear_gate f Hl Hg), T.
  - (* complete_mission *) split_tests Hg. rewrite (clear_gate f Hl Hg). unfold progress_gate. rewrite T1, T0, T.
    rewrite is_none_true in T. rewrite (proj1 (ll_attempt _ Hl) T). done.
  - (* idle *) rewrite Hni' in Hg. cbn [orb] in Hg. split_tests Hg.
    rewrite (healthy_gate f Hl); [by rewrite T, T0, T1, T4; cbn [andb]|done..| |done].
    destruct (mission_state f); done.
Qed.

(** C30: for every fact snapshot the constructor accepts, the gate returns one
    decision (it never raises): the decision passes the decision checks and
    carries the snapshot's identities, and each non-blocking kind is chosen
    exactly under its guard; so the guards are pairwise exclusive, and the gate
    blocks exactly when none of them holds. *)
Theorem schedule_gate_spec v f :
  from_mapping v = Ok f ->
  exists d, schedule_gate f = Ok d /\ decision_checks d = true /\
    d_mission_id d = f_mission_id f /\ d_step_id d = f_step_id f /\ d_attempt_id d = f_attempt_id f /\
    (forall k, k <> KBlocked -> (kind d = k <-> guard k f = true)) /\
    (kind d = KBlocked <-> forall k, guard k f = false).
Proof.
  intros Hok%from_mapping_ok. destruct (gate_sound f Hok) as (d & Hd & Hc & H1 & H2 & H3 & Hg). exists d.
  assert (Hk : forall k, k <> KBlocked -> kind d = k <-> guard k f = true).
  { intros k Hk. split; [intros <-; by apply Hg|]. intros Hgk. rewrite (guard_gate f k Hok Hk Hgk) in Hd.
    unfold _decision in Hd. destruct (decision_checks _); [|done]. by injection Hd as <-. }
  split_and!; try done. split.
  - intros Hb k. destruct (guard k f) eqn:Hgk; [|done]. destruct (decide (k = KBlocked)) as [->|Hne]; [done|].
    apply (Hk k Hne) in Hgk. congruence.
  - intros Hall. destruct (decide (kind d = KBlocked)) as [|Hne]; [done|]. pose proof (Hg Hne) as Hgk.
    by rewrite Hall in Hgk.
Qed.

Lemma gate_kind f d :
  facts_ok f -> schedule_gate f = Ok d -> kind d <> KBlocked -> guard (kind d) f = true.
Proof.
  intros Hok Hd. destruct (gate_sound f Hok) as (d' & Hd' & _ & _ & _ & _ & Hg).
  rewrite Hd in Hd'. by injection Hd' as <-.
Qed.

Lemma gate_blocker f d : facts_ok f -> schedule_gate f = Ok d -> kind d = KBlocked <-> d_blocker d <> None.
Proof.
  intros Hok Hd. destruct (gate_sound f Hok) as (d' & Hd' & Hc & _). rewrite Hd in Hd'. injection Hd' as <-.
  unfold decision_checks in Hc. repeat (apply andb_true_iff in Hc as [Hc ?Hx]).
  destruct (eqd (kind d) KBlocked) eqn:Hk.
  - rewrite eqd_true in Hk. rewrite Hk. destruct (d_blocker d); done.
  - rewrite eqd_false in Hk. rewrite is_none_true in Hx5. rewrite Hx5. done.
Qed.

Lemma integrity_count f : live_lineage f -> facts_ok f -> integrity f = true ->
  active_attempt_count f = if active_attempt (attempt_state f) then 1%Z else 0%Z.
Proof.
  intros Hl Hok Hi. unfold integrity in Hi. split_tests Hi. apply Z.ltb_ge in T. pose proof (fo_count _ Hok).
  destruct (active_attempt _) eqn:Ha; [pose proof (ll_active _ Hl Ha)|pose proof (ll_inactive _ Hl Ha)]; lia.
Qed.

Lemma guard_integrity f k :
  k ∈ [KStartWorker; KPrepareDispatch; KDispatchPrepared; KAwaitWorker; KValidateReply; KRecordHandoff; KActivateNext;
       KCompleteMission; KWaitAmbiguity] ->
  guard k f = true -> integrity f = true /\ live f = true.
Proof.
  intros Hk Hg.
  assert (Hc : clear f = true \/ integrity f && live f = true).
  { repeat (apply elem_of_cons in Hk as [->|Hk]; [cbn [guard] in Hg; split_tests Hg; auto|]).
    - right. by rewrite Hg, T2.
    - by apply not_elem_of_nil in Hk. }
  destruct Hc as [Hc|Hc]; [unfold clear in Hc|]; split_tests Hc; done.
Qed.

Lemma guard_not_idle f k :
  k ∈ [KStartWorker; KPrepareDispatch; KDispatchPrepared; KAwaitWorker; KValidateReply; KRecordHandoff; KActivateNext;
       KCompleteMission; KWaitAmbiguity] ->
  guard k f = true -> mission_state f <> MIdle.
Proof. intros Hk Hg. destruct (guard_integrity f k Hk Hg) as [_ Hl]. unfold live in Hl. by intros Hm; rewrite Hm in Hl. Qed.

(** The state of the attempt a decision is taken about. *)
Definition attempt_in_flight (k : decision_kind) : option bool :=
  match k with
  | KStartWorker | KPrepareDispatch | KValidateReply | KRecordHandoff | KActivateNext | KCompleteMission => Some false
  | KDispatchPrepared | KAwaitWorker => Some true
  | _ => None
  end.

Lemma guard_in_flight f k b :
  facts_ok f -> attempt_in_flight k = Some b -> guard k f = true ->
  active_attempt_count f = if b then 1%Z else 0%Z.
Proof.
  intros Hok Hb Hg.
  assert (Hk : k ∈ [KStartWorker; KPrepareDispatch; KDispatchPrepared; KAwaitWorker; KValidateReply; KRecordHandoff;
                    KActivateNext; KCompleteMission; KWaitAmbiguity]) by (destruct k; try done; solve_in).
  destruct (guard_integrity f k Hk Hg) as [Hi _]. pose proof (guard_not_idle f k Hk Hg) as Hni.
  pose proof (check_lineage_live f Hni (fo_lineage _ Hok)) as Hl. rewrite (integrity_count f Hl Hok Hi).
  assert (Ha : active_attempt (attempt_state f) = b); [|by rewrite Ha].
  destruct k; try done; injection Hb as <-; cbn [guard] in Hg; split_tests Hg.
  - rewrite eqd_true in T. by rewrite T.
  - rewrite eqd_true in T0. by rewrite T0.
  - rewrite eqd_true in T0. by rewrite T0.
  - by destruct (attempt_state f).
  - by destruct (attempt_state f).
  - by destruct (attempt_state f).
  - by destruct (attempt_state f).
  - rewrite is_none_true in T. by rewrite (proj1 (ll_attempt _ Hl) T).
Qed.

Lemma terminal_guard f k : terminal_mission (mission_state f) = true -> guard k f = true -> k = KIdle.
Proof.
  intros Ht Hg. assert (Hlive : live f = false) by (unfold live; by destruct (mission_state f)).
  assert (Hp : eqd (mission_state f) MPendingConfirmation = false) by by destruct (mission_state f).
  destruct k; try done; exfalso; cbn [guard] in Hg; unfold clear in Hg;
    rewrite Hlive, ?Hp, ?andb_false_r in Hg; cbn [andb orb] in Hg; by rewrite ?andb_false_r in Hg.
Qed.

Lemma clear_parts f : clear f = true ->
  integrity f = true /\ live f = true /\ healthy f = true /\ eqd (permission_state f) PermPending = false.
Proof. unfold clear. intros H. by split_tests H. Qed.

Lemma integrity_parts f : integrity f = true ->
  lineage_state f = LValid /\ ownership_state f = Owned /\ snapshot_state f = SnValid /\ (active_attempt_count f <= 1)%Z.
Proof. unfold integrity. intros H. split_tests H. apply Z.ltb_ge in T.
  split_and!; [by apply (proj1 (eqd_true _ _))..|done].
Qed.

Lemma healthy_parts f : healthy f = true ->
  f_blocker f = None /\ bool_decide (permission_state f ∈ [PermDenied; PermExpired]) = false /\
  bool_decide (step_state f ∈ [StFailed; StBlocked]) = false /\
  bool_decide (attempt_state f ∈ [AFailed; ACancelled; AInterrupted]) = false /\
  eqd (reply_state f) RInvalid = false /\ early_reply f = false.
Proof. unfold healthy. intros H. split_tests H. rewrite is_none_true in H. done. Qed.

(** A terminal Mission is only ever left idle or blocked; a transition that
    starts, prepares, verifies, hands over or completes is chosen only when no
    attempt is in flight, and one is dispatched or awaited only when exactly one
    is; a prepared dispatch goes out only with valid lineage and snapshot, owned
    Worker, ready Worker, a live Mission, no blocker and no pending, denied or
    expired permission. *)
Lemma schedule_gate_safety v f d :
  from_mapping v = Ok f -> schedule_gate f = Ok d ->
  (terminal_mission (mission_state f) = true -> kind d ∈ [KIdle; KBlocked]) /\
  (forall b, attempt_in_flight (kind d) = Some b -> active_attempt_count f = if b then 1%Z else 0%Z) /\
  (kind d = KDispatchPrepared ->
   lineage_state f = LValid /\ ownership_state f = Owned /\ snapshot_state f = SnValid /\
   mission_state f ∈ [MPreparing; MRunning] /\ attempt_state f = APrepared /\ worker_ready f = true /\
   f_blocker f = None /\ permission_state f ∈ [PermNone; PermApproved]).
Proof.
  intros Hok%from_mapping_ok Hd. pose proof (gate_kind f d Hok Hd) as Hg. split_and!.
  - intros Ht. destruct (decide (kind d = KBlocked)) as [->|Hne]; [solve_in|].
    rewrite (terminal_guard f (kind d) Ht (Hg Hne)). solve_in.
  - intros b Hb. apply (guard_in_flight f (kind d)); [done..|]. apply Hg. by intros Hk; rewrite Hk in Hb.
  - intros Hk. rewrite Hk in Hg. specialize (Hg ltac:(discriminate)). cbn [guard] in Hg. split_tests Hg.
    destruct (clear_parts f Hg) as (Hi & Hl & Hh & Hp). destruct (integrity_parts f Hi) as (H1 & H2 & H3 & _).
    destruct (healthy_parts f Hh) as (Hb & Hp' & _). rewrite eqd_true in T0. split_and!; try done.
    + unfold live in Hl. by apply bool_decide_eq_true in Hl.
    + destruct (permission_state f); try done; solve_in.
Qed.

(** The observation agrees with the gate: it lists a blocker exactly when
    the gate blocks, announces no next transition exactly for terminal Missions
    and idle ones, and otherwise announces the gate's own decision. *)
Lemma scheduler_observation_spec v f :
  from_mapping v = Ok f ->
  exists d o, schedule_gate f = Ok d /\ scheduler_observation f = Ok o /\
    (o_state o = "blocked" <-> kind d = KBlocked) /\ (o_blockers o <> [] <-> kind d = KBlocked) /\
    (o_next o = None <-> kind d = KIdle) /\ (kind d <> KIdle -> o_next o = Some (kind d)) /\
    (o_state o = "terminal" <-> terminal_mission (mission_state f) = true /\ kind d = KIdle).
Proof.
  intros Hok%from_mapping_ok. destruct (gate_sound f Hok) as (d & Hd & _). pose proof (gate_kind f d Hok Hd) as Hg.
  pose proof (gate_blocker f d Hok Hd) as Hb. unfold scheduler_observation. rewrite Hd. cbn [mbind result_bind].
  assert (Hterm : terminal_mission (mission_state f) = true -> kind d <> KBlocked -> kind d = KIdle).
  { intros Ht Hne. by apply (terminal_guard f _ Ht), Hg. }
  assert (Hbl : forall (x : option string), match x with None => [] | Some b => [b] end <> [] <-> x <> None).
  { by intros []. }
  destruct (eqd (kind d) KBlocked) eqn:Hkb.
  { rewrite eqd_true in Hkb. eexists d, _. split; [done|]. split; [done|]. cbn. rewrite Hbl, <- Hb, Hkb.
    split_and!; try done. split; [done|by intros [_ ?]]. }
  rewrite eqd_false in Hkb. destruct (terminal_mission (mission_state f)) eqn:Ht.
  { specialize (Hterm eq_refl Hkb). eexists d, _. split; [done|]. split; [done|]. cbn. rewrite Hbl, <- Hb, Hterm.
    by split_and!. }
  destruct (eqd (kind d) KIdle) eqn:Hki; [rewrite eqd_true in Hki|rewrite eqd_false in Hki].
  { eexists d, _. split; [done|]. split; [done|]. cbn. rewrite Hbl, <- Hb, Hki. clear. intuition congruence. }
  destruct (bool_decide (kind d ∈ _)); eexists d, _; (split; [done|]); (split; [done|]); cbn;
    rewrite Hbl, <- Hb; clear -Hkb Hki; intuition congruence.
Qed.

(** ** Witnesses *)

Definition sample_facts : pyval :=
  PDict [("mission_id", PStr "mis_0123456789ab"); ("mission_state", PStr "running"); ("step_id", PStr "step_2");
         ("step_state", PStr "active"); ("attempt_id", PStr "mat_0123456789ab"); ("attempt_state", PStr "prepared");
         ("reply_state", PStr "none"); ("handoff_state", PStr "none"); ("permission_state", PStr "approved");
         ("worker_ready", PBool true); ("next_step_eligible", PBool false); ("all_steps_completed", PBool false);
         ("snapshot_state", PStr "valid"); ("lineage_state", PStr "valid"); ("ownership_state", PStr "owned");
         ("active_attempt_count", PInt 1); ("blocker", PNone)].

Lemma schedule_gate_spec_witness :
  exists f d, from_mapping sample_facts = Ok f /\ schedule_gate f = Ok d /\ kind d = KDispatchPrepared.
Proof.
  destruct (from_mapping sample_facts) as [f|] eqn:Hf; [|vm_compute in Hf; discriminate Hf].
  destruct (schedule_gate_spec sample_facts f Hf) as (d & Hd & _ & _ & _ & _ & Hk & _).
  exists f, d. split_and!; [done|done|]. apply Hk; [discriminate|]. vm_compute in Hf. injection Hf as <-. reflexivity.
Defined.

Lemma schedule_gate_safety_witness :
  exists f d, from_mapping sample_facts = Ok f /\ schedule_gate f = Ok d /\ active_attempt_count f = 1%Z.
Proof.
  destruct (from_mapping sample_facts) as [f|] eqn:Hf; [|vm_compute in Hf; discriminate Hf].
  destruct (schedule_gate f) as [d|] eqn:Hd; [|vm_compute in Hf; injection Hf as <-; vm_compute in Hd; discriminate Hd].
  exists f, d. split_and!; [done|done|].
  destruct (schedule_gate_safety sample_facts f d Hf Hd) as (_ & H & _). apply (H true).
  vm_compute in Hf. injection Hf as <-. vm_compute in Hd. injection Hd as <-. reflexivity.
Defined.

Lemma scheduler_observation_spec_witness :
  exists f d o, from_mapping sample_facts = Ok f /\ schedule_gate f = Ok d /\ scheduler_observation f = Ok o /\
    (kind d <> KIdle -> o_next o = Some (kind d)).
Proof.
  destruct (from_mapping sample_facts) as [f|] eqn:Hf; [|vm_compute in Hf; discriminate Hf].
  destruct (scheduler_observation_spec sample_facts f Hf) as (d & o & H1 & H2 & _ & _ & _ & H3 & _).
  exists f, d, o. split_and!; [done|done|done|exact H3].
Defined.
