(* ===== verification/ReviewIteration.v ===== *)
(** * The review iteration loop ([review_iteration.py])

    Selection of a plan's verdict, the deterministic rework task, and the
    derivation of the next round's steps. *)
From S2P Require Import Prelude PyStr PyVal ReviewVerdict ReviewGroup.

(** ** Constants and small selections *)

Definition REVIEW_ITERATION_ORIGIN : string := "review_iteration".
Definition REWORK_TRIGGER_OVERALLS : list string := ["fail"; "needs_changes"].
Definition MAX_REWORK_TASK_CHARS : Z := 4000.
Definition REWORK_TASK_FOOTER : string := "修复后 commit 到任务分支。".
Definition LF : string := String (Ascii.ascii_of_nat 10) "".

(** [state.get(key, [])], iterated. *)
Definition state_list (key : string) (state : dict) : result (list pyval) :=
  match dlookup key state with None => Ok [] | Some v => py_iter v end.

Definition is_iteration (d : dict) : bool := py_eq (dget "origin" d) (PStr REVIEW_ITERATION_ORIGIN).

Definition rounds_step (rounds : Z) (d : dict) : Z :=
  match isinstance_int (dget "round" d) with
  | Some value => if is_iteration d && (rounds <? value)%Z then value else rounds
  | None => rounds
  end.
Definition plan_review_rounds (steps : list pyval) : Z := foldl rounds_step 0%Z (dicts_of steps).

Definition rework_number (d : dict) : option Z :=
  if is_iteration d && py_eq (dget "iteration_kind" d) (PStr "rework") then exact_int (dget "step" d) else None.
Definition rework_step_numbers (steps : list pyval) : list Z := omap rework_number (dicts_of steps).

(** [value in numbers] for a set of integers. *)
Definition in_int_set (v : pyval) (numbers : list Z) : result bool :=
  if hashable v then Ok (existsb (fun n => py_eq v (PInt n)) numbers) else Err (TypeError "unhashable type").

Section iteration.
Context `{PyRepr}.

Definition _consumed_reply_ids (steps : list pyval) : list string :=
  omap (fun d => if is_iteration d && truthy (dget "triggered_by_reply" d)
                 then Some (py_str (dget "triggered_by_reply" d)) else None) (dicts_of steps).

(** The approvals of the plan that may carry its verdict, by message. *)
Definition verdict_approval (excluded : list Z) (plan_id : string) (a : dict) : result (option (string * dict)) :=
  if py_eq (dget "plan_id" a) (PStr plan_id) && truthy (dget "message_id" a) then
    skip ← in_int_set (dget "step" a) excluded;
    Ok (if skip : bool then None else Some (py_str (dget "message_id" a), a))
  else Ok None.

Definition last_for {A} (key : string) (entries : list (string * A)) : option A :=
  snd <$> last (List.filter (fun kv => String.eqb key kv.1) entries).

Definition latest_step (by_message : list (string * dict)) (latest : option (dict * dict)) (r : dict)
    : option (dict * dict) :=
  match dget "verdict" r with
  | PDict _ => match last_for (py_str (dget "message_id" r)) by_message with
               | Some a => Some (r, a) | None => latest end
  | _ => latest
  end.

Definition _latest_verdict_reply (state : dict) (plan_id : string) (steps : list pyval)
    : result (option (dict * dict)) :=
  approvals ← state_list "approvals" state;
  entries ← mapR (verdict_approval (rework_step_numbers steps) plan_id) (dicts_of approvals);
  replies ← state_list "replies" state;
  Ok (foldl (latest_step (omap id entries)) None (dicts_of replies)).

Record reviewer_member := ReviewerMember {
  rm_agent_id : pyval; rm_step : Z; rm_reply_id : pyval; rm_verdict : dict; rm_text : string
}.
Record selection := Selection {
  s_verdict : dict; s_reply_id : string; s_reply_text : string; s_approval : option dict;
  s_members : option (list reviewer_member); s_group : option Z; s_complete : bool
}.

Definition criterion_entry (c : string * string) : pyval :=
  PDict [("criterion", PStr c.1); ("verdict", PStr c.2)].
Definition group_verdict_dict (g : group_verdict) : dict :=
  [("schema_version", PStr REVIEW_VERDICT_SCHEMA_VERSION); ("criteria", PList (criterion_entry <$> gr_criteria g));
   ("overall", PStr (gr_overall g))]
  ++ match gr_score g with Some z => [("score", PInt z)] | None => [] end.

Definition truthy_verdict (m : member) : bool := match m_verdict m with Some (_ :: _) => true | _ => false end.

(** The group path, once a group is selected. *)
Definition group_selection (approvals replies : list dict) (plan_id : string) (require_complete_group : bool)
    (g : group_view) : result (option selection) :=
  let reported := List.filter truthy_verdict (gv_members g) in
  match reported, gv_members g with
  | [], _ | _, [] => Ok None
  | _, first :: _ =>
      let approval := find_first (fun a => py_eq (dget "plan_id" a) (PStr plan_id)
                                           && py_eq (dget "step" a) (PInt (m_step first))) approvals in
      if bool_decide (is_Some approval) || negb require_complete_group then
        let texts := (fun r => (py_str (dget "reply_id" r), py_str (py_or (dget "text" r) (PStr "")))) <$> replies in
        aggregate ← aggregate_group_verdicts reported;
        Ok (Some {| s_verdict := group_verdict_dict aggregate;
                    s_reply_id := py_str (gv_last_reply_id g); s_reply_text := ""; s_approval := approval;
                    s_members := Some ((fun m => ReviewerMember (m_agent_id m) (m_step m) (m_reply_id m)
                                                   (default [] (m_verdict m))
                                                   (default "" (last_for (py_str (m_reply_id m)) texts)))
                                       <$> gv_members g);
                    s_group := Some (gv_group g); s_complete := gv_complete g |})
      else Ok None
  end.

(** The path without groups: the latest verdict reply as it is. *)
Definition single_selection (ra : dict * dict) : selection :=
  {| s_verdict := match dget "verdict" ra.1 with PDict v => v | _ => [] end;
     s_reply_id := py_str (dget "reply_id" ra.1);
     s_reply_text := py_str (py_or (dget "text" ra.1) (PStr "")); s_approval := Some ra.2;
     s_members := None; s_group := None; s_complete := true |}.

Definition select_plan_verdict (state : dict) (plan_id : string) (steps : pyval) (require_complete_group : bool)
    : result (option selection) :=
  let steps := match steps with PList l => l | _ => [] end in
  if bool_decide (review_group_numbers steps = ∅) then
    latest ← _latest_verdict_reply state plan_id steps;
    Ok (option_map single_selection latest)
  else
    approvals ← state_list "approvals" state;
    replies ← state_list "replies" state;
    group ← (if require_complete_group
             then latest_complete_group steps (PDict <$> dicts_of approvals) (PDict <$> dicts_of replies) plan_id
             else latest_group_status steps (PDict <$> dicts_of approvals) (PDict <$> dicts_of replies) plan_id);
    match group with
    | None => Ok None
    | Some g => group_selection (dicts_of approvals) (dicts_of replies) plan_id require_complete_group g
    end.

(** ** The implementation step under review *)

Definition keep_max (best : option (Z * dict)) (step : Z) (a : dict) : option (Z * dict) :=
  match best with
  | Some (s, _) => if (s <? step)%Z then Some (step, a) else best
  | None => Some (step, a)
  end.

(** [int(a.get("step") or 0)] *)
Definition step_int (d : dict) : result Z := py_int (py_or (dget "step" d) (PInt 0)).

Definition implementation_step (messages : list (string * dict)) (plan_id : string) (review_step : Z)
    (best : option (Z * dict) * option (Z * dict)) (a : dict)
    : option (Z * dict) * option (Z * dict) :=
  if negb (py_eq (dget "plan_id" a) (PStr plan_id)) then best
  else match step_int a with
  | Err _ => best
  | Ok step =>
      if (review_step <=? step)%Z || negb (truthy (dget "message_id" a)) then best
      else
        let message := default [] (last_for (py_str (dget "message_id" a)) messages) in
        (if truthy (dget "worktree_branch" message) then keep_max best.1 step a else best.1,
         keep_max best.2 step a)
  end.

Definition _implementation_approval (state : dict) (plan_id : string) (review_step : Z) : result (option dict) :=
  messages ← state_list "messages" state;
  approvals ← state_list "approvals" state;
  let by_id := (fun m => (py_str (dget "message_id" m), m)) <$> dicts_of messages in
  let best := foldl (implementation_step by_id plan_id review_step) (None, None) (dicts_of approvals) in
  Ok (snd <$> (match best.1 with Some b => Some b | None => best.2 end)).

(** ** The rework task *)

(** [verdict.get("criteria", [])], the failed entries. *)
Definition failed_criteria (verdict : dict) : result (list dict) :=
  items ← match dlookup "criteria" verdict with None => Ok [] | Some v => py_iter v end;
  Ok (List.filter (fun d => py_eq (dget "verdict" d) (PStr "fail")) (dicts_of items)).

Definition failed_line (item : dict) : string :=
  "- " +:+ py_str (dget "criterion" item)
  +:+ (if truthy (dget "evidence" item) then " (证据: " +:+ py_str (dget "evidence" item) +:+ ")" else "").

Definition failed_lines (verdict : dict) : result (list string) :=
  failed ← failed_criteria verdict;
  Ok (match failed with [] => [] | _ => "未通过的验收标准:" :: (failed_line <$> failed) end).

Definition member_block (m : reviewer_member) : result (option string) :=
  let overall := py_str (dget "overall" (rm_verdict m)) in
  if String.eqb overall "pass" then Ok None
  else
    failed ← failed_lines (rm_verdict m);
    Ok (Some (join LF (("### reviewer " +:+ py_str (rm_agent_id m)) :: ("判定: " +:+ overall) :: failed
                       ++ (if String.eqb (rm_text m) "" then [] else [rm_text m])))).

Definition build_group_review_text (members : list reviewer_member) : result string :=
  blocks ← mapR member_block members;
  Ok (join (LF +:+ LF) (omap id blocks)).

Definition score_suffix (verdict : dict) : string :=
  match dget "score" verdict with
  | PInt _ | PBool _ => " (score " +:+ py_str (dget "score" verdict) +:+ ")"
  | _ => ""
  end.

Definition rework_marker (reply_id : string) (trace_ids : option (list string)) : string :=
  let ids := match trace_ids with Some (t :: ts) => t :: ts | _ => [reply_id] end in
  LF +:+ "[审查意见已截断,全文见 "
  +:+ join " / " ((fun t => "agentdeck trace --id " +:+ t) <$> ids) +:+ "]" +:+ LF +:+ REWORK_TASK_FOOTER.

(** The untruncated task: header, quoted review, closing instruction. *)
Definition rework_text (round_number : Z) (original_task : string) (verdict : dict) (failed : list string)
    (reply_text : string) : string :=
  join LF ((["Review 第 " +:+ pretty round_number +:+ " 轮未通过,按审查意见返工。";
             "原任务: " +:+ original_task;
             "审查判定: " +:+ py_str (dget "overall" verdict) +:+ score_suffix verdict] ++ failed)
           ++ ["审查意见原文:"; reply_text; REWORK_TASK_FOOTER]).

Definition clip_task (text marker : string) : string :=
  if (MAX_REWORK_TASK_CHARS <? py_len text)%Z
  then py_slice_to (MAX_REWORK_TASK_CHARS - py_len marker) text +:+ marker
  else text.

Definition build_rework_task (round_number : Z) (original_task : string) (verdict : dict)
    (reply_id reply_text : string) (trace_ids : option (list string)) : result string :=
  failed ← failed_lines verdict;
  Ok (clip_task (rework_text round_number original_task verdict failed reply_text) (rework_marker reply_id trace_ids)).

(** ** The next round *)

(** [_pair]: a two-element sequence of true values. *)
Definition binding_pair (v : pyval) : option (string * string) :=
  match v with
  | PTuple [a; b] | PList [a; b] => if truthy a && truthy b then Some (py_str a, py_str b) else None
  | _ => None
  end.

Definition _review_binding_pairs (review_binding : pyval) : result (list (string * string) * option (string * string)) :=
  let binding := match review_binding with PDict d => d | _ => [] end in
  items ← py_iter (py_or (dget "reviewers" binding) (PTuple []));
  let reviewers : list (string * string) := omap binding_pair items in
  Ok (reviewers, binding_pair (dget "round_reviewer" binding)).

Definition _review_step (step : Z) (agent_id role : pyval) (task : string) (risk : pyval) (provenance : dict)
    (group_member : option (Z * Z)) : dict :=
  dupdate provenance
    [("iteration_kind", PStr "review"); ("step", PInt step); ("agent_id", agent_id); ("role", role);
     ("task", PStr task); ("risk", risk); ("requires_approval", PBool true)]
  ++ match group_member with
     | Some (group, member) => [("review_group", PInt group); ("review_group_member", PInt member)]
     | None => []
     end.

Inductive refusal := NoPlan | NoVerdict | VerdictPass | AlreadyTriggered | RoundsExhausted | NoImplementationStep.

Record iteration := Iteration {
  i_round : Z; i_triggered_by : string; i_rework_step : dict; i_review_steps : list dict
}.

Definition provenance_of (round_number : Z) (reply_id : string) : dict :=
  [("origin", PStr REVIEW_ITERATION_ORIGIN); ("round", PInt round_number); ("triggered_by_reply", PStr reply_id)].

(** The re-review steps: one per bound reviewer, else the bound round reviewer,
    else the agent of the reviewed step. *)
Definition review_steps (steps : list pyval) (next_number : Z) (review_approval provenance : dict)
    (reviewers : list (string * string)) (round_reviewer : option (string * string)) : list dict :=
  let task := py_str (py_or (dget "task" review_approval) (PStr "")) in
  let risk := py_or (dget "risk" review_approval) (PStr "low") in
  match reviewers with
  | _ :: _ =>
      let next_group := (match snd <$> map_to_list (review_group_numbers steps) with
                         | [] => 0 | g :: gs => list_maxZ g gs end + 1)%Z in
      imap (fun index ar => _review_step (next_number + 1 + Z.of_nat index) (PStr ar.1) (PStr ar.2) task risk
                              provenance (Some (next_group, Z.of_nat index))) reviewers
  | [] =>
      match round_reviewer with
      | Some (agent, role) =>
          [_review_step (next_number + 1) (PStr agent) (PStr role) task risk provenance None]
      | None =>
          [_review_step (next_number + 1) (dget "agent_id" review_approval) (dget "role" review_approval) task risk
             provenance None]
      end
  end.

(** The plan record and the value of its [steps]. *)
Definition find_plan (state : dict) (plan_id : string) : result (option dict) :=
  plans ← state_list "plans" state;
  Ok (find_first (fun p => py_eq (dget "plan_id" p) (PStr plan_id)) (dicts_of plans)).
Definition plan_steps (plan : dict) : pyval :=
  match dget "plan" plan with
  | PDict body => match dlookup "steps" body with Some v => v | None => PList [] end
  | _ => PList []
  end.

(** The reply text and the trace identities the rework task quotes. *)
Definition quoted_review (s : selection) : result (string * option (list string)) :=
  match s_members s with
  | Some (m :: ms) =>
      let members := m :: ms in
      text ← build_group_review_text members;
      let ids := omap (fun m => if py_eq (dget "overall" (rm_verdict m)) (PStr "pass") then None
                                else Some (py_str (rm_reply_id m))) members in
      Ok (text, Some (match ids with [] => [s_reply_id s] | _ => ids end))
  | _ => Ok (s_reply_text s, None)
  end.

(** From [round_number = rounds + 1] on. *)
Definition build_iteration (steps : list pyval) (rounds : Z) (s : selection) (review_approval implementation : dict)
    (review_binding : pyval) : result iteration :=
  let round_number := (rounds + 1)%Z in
  numbers ← mapR step_int (dicts_of steps);
  let next_number := (match numbers with [] => 0 | n :: ns => list_maxZ n ns end + 1)%Z in
  let provenance := provenance_of round_number (s_reply_id s) in
  '(reply_text, trace_ids) ← quoted_review s;
  task ← build_rework_task round_number (py_str (py_or (dget "task" implementation) (PStr ""))) (s_verdict s)
           (s_reply_id s) reply_text trace_ids;
  let rework_step :=
    dupdate provenance
      [("iteration_kind", PStr "rework"); ("step", PInt next_number); ("agent_id", dget "agent_id" implementation);
       ("role", dget "role" implementation); ("task", PStr task);
       ("risk", py_or (dget "risk" implementation) (PStr "low")); ("requires_approval", PBool true)] in
  '(reviewers, round_reviewer) ← _review_binding_pairs review_binding;
  Ok {| i_round := round_number; i_triggered_by := s_reply_id s; i_rework_step := rework_step;
        i_review_steps := review_steps steps next_number review_approval provenance reviewers round_reviewer |}.

Definition derive_review_iteration (state : dict) (plan_id : string) (max_review_rounds : Z) (review_binding : pyval)
    : result (refusal + iteration) :=
  plan ← find_plan state plan_id;
  match plan with
  | None => Ok (inl NoPlan)
  | Some plan =>
      let steps_value := plan_steps plan in
      selected ← select_plan_verdict state plan_id steps_value true;
      match selected with
      | None => Ok (inl NoVerdict)
      | Some s =>
          triggers ← in_str_set (dget "overall" (s_verdict s)) REWORK_TRIGGER_OVERALLS;
          if negb triggers then Ok (inl VerdictPass)
          else
            steps ← py_iter steps_value;
            if in_strs (s_reply_id s) (_consumed_reply_ids steps) then Ok (inl AlreadyTriggered)
            else
              let rounds := plan_review_rounds steps in
              if (max_review_rounds <=? rounds)%Z then Ok (inl RoundsExhausted)
              else
                let review_approval := default [] (s_approval s) in
                match step_int review_approval with
                | Err (TypeError _) | Err (ValueError _) => Ok (inl NoImplementationStep)
                | Err e => Err e
                | Ok review_step_number =>
                    implementation ← _implementation_approval state plan_id review_step_number;
                    match implementation with
                    | None => Ok (inl NoImplementationStep)
                    | Some implementation =>
                        i ← build_iteration steps rounds s review_approval implementation review_binding;
                        Ok (inr i)
                    end
                end
      end
  end.

(** ** Refinement of the rework task *)

Definition build_refine_prompt (original_task : string) (verdict : dict) (members : option (list reviewer_member))
    : result string :=
  failed ← failed_lines verdict;
  review_text ← (match members with
                 | Some (m :: ms) => build_group_review_text (m :: ms)
                 | _ => Ok ""
                 end);
  let review_text := if (MAX_REWORK_TASK_CHARS <? py_len review_text)%Z
                     then py_slice_to MAX_REWORK_TASK_CHARS review_text +:+ LF +:+ "[意见过长,已截断]"
                     else review_text in
  Ok (join LF (["你是软件项目的 Leader。下面是一次代码审查未通过的记录。";
                "请把审查意见提炼成一份聚焦、可执行的返工任务,直接写给实现者看。";
                "只输出返工任务正文本身:不要前言、不要标题、不要代码块包裹。";
                "只依据下面给出的事实,不要臆造未提到的问题,也不要改动任务的负责人或步骤结构。";
                "";
                "原任务: " +:+ original_task;
                "审查判定: " +:+ py_str (dget "overall" verdict) +:+ score_suffix verdict] ++ failed
               ++ (if String.eqb review_text "" then [] else [""; "审查意见原文(按 reviewer 分段):"; review_text]))).

Definition _footer_key (text : string) : string :=
  concat_str (List.filter (fun c => negb (is_space c) && negb (String.eqb c "。") && negb (String.eqb c ".")) (chars text)).

(** [text[-n:]] for a positive [n]. *)
Definition py_last (n : nat) (text : string) : string := py_drop (length (chars text) - n) text.

Definition _has_rework_footer (text : string) : bool :=
  contains (_footer_key REWORK_TASK_FOOTER)
    (_footer_key (py_last (length (chars REWORK_TASK_FOOTER) * 3) text)).

Definition validate_refined_task (text : pyval) : result string :=
  match text with
  | PStr t =>
      let stripped := strip t in
      if String.eqb stripped "" then Err (ValueError "refined task must not be empty")
      else
        let normalized := if _has_rework_footer stripped then stripped
                          else stripped +:+ LF +:+ REWORK_TASK_FOOTER in
        if (MAX_REWORK_TASK_CHARS <? py_len normalized)%Z
        then Err (ValueError "refined task exceeds 4000 chars") else Ok normalized
  | _ => Err (ValueError "refined task must be a string")
  end.

(** ** The write path ([StateStore.append_review_iteration])

    [new_id i] is the [i]-th identity the call draws and [now] its clock reading;
    the result is the saved state (when something is written). *)

Definition pending_approval (plan_id id now : string) (step : dict) : dict :=
  [("approval_id", PStr id); ("plan_id", PStr plan_id); ("step", dget "step" step);
   ("agent_id", dget "agent_id" step); ("role", dget "role" step); ("task", dget "task" step);
   ("risk", dget "risk" step); ("status", PStr "pending"); ("created_at", PStr now)].

(** Extend the steps of the first plan with this identity; [None] when its body
    or its steps have the wrong shape. *)
Definition extend_plan (plan : dict) (new_steps : list dict) : option dict :=
  match dget "plan" plan with
  | PDict body =>
      match dget "steps" body with
      | PList steps => Some (dset "plan" (PDict (dset "steps" (PList (steps ++ (PDict <$> new_steps))) body)) plan)
      | _ => None
      end
  | _ => None
  end.

Fixpoint extend_plans (plan_id : string) (new_steps : list dict) (plans : list pyval) : result (option (list pyval)) :=
  match plans with
  | [] => Err (ValueError "StopIteration")
  | PDict plan :: rest =>
      if py_eq (dget "plan_id" plan) (PStr plan_id) then
        Ok (option_map (fun p => PDict p :: rest) (extend_plan plan new_steps))
      else r ← extend_plans plan_id new_steps rest; Ok (option_map (cons (PDict plan)) r)
  | _ :: _ => Err AttributeError
  end.

Record append_result := AppendResult {
  ap_round : Z; ap_triggered_by : string; ap_steps : list pyval; ap_refined : bool;
  ap_refine_skipped : bool
}.

Definition valid_override (t : string) : bool :=
  negb (String.eqb (strip t) "") && (py_len t <=? MAX_REWORK_TASK_CHARS)%Z.

(** The derived steps, with the refined task adopted when it answers the same
    reply. *)
Definition adopt_override (rework : option (string * string)) (i : iteration) : list dict * bool * bool :=
  let plain := i_rework_step i :: i_review_steps i in
  match rework with
  | None => (plain, false, false)
  | Some (task, for_reply) =>
      if String.eqb (i_triggered_by i) for_reply then
        (dset "task_source" (PStr "leader_refined") (dset "task" (PStr task) (i_rework_step i)) :: i_review_steps i,
         true, false)
      else (plain, false, true)
  end.

Definition append_review_iteration (state : dict) (plan_id : string) (max_review_rounds : Z) (review_binding : pyval)
    (rework : option (string * string)) (new_id : nat -> string) (now : string)
    : result (dict * (refusal + append_result)) :=
  _ ← (match rework with
       | Some (task, _) => raise_if (negb (valid_override task))
                             (ValueError "rework_task_override must be a validated task text")
       | None => Ok tt
       end);
  derived ← derive_review_iteration state plan_id max_review_rounds review_binding;
  match derived with
  | inl r => Ok (state, inl r)
  | inr i =>
      let '(new_steps, refined, skipped) := adopt_override rework i in
      plans ← (match dget "plans" state with PList l => Ok l | _ => Err (TypeError "plans") end);
      extended ← extend_plans plan_id new_steps plans;
      match extended with
      | None => Ok (state, inl NoPlan)
      | Some plans =>
          approvals ← (match dlookup "approvals" state with
                       | None => Ok [] | Some (PList l) => Ok l | Some _ => Err AttributeError end);
          let added := imap (fun i step => PDict (pending_approval plan_id (new_id i) now step)) new_steps in
          Ok (dset "approvals" (PList (approvals ++ added)) (dset "plans" (PList plans) state),
              inr {| ap_round := i_round i; ap_triggered_by := i_triggered_by i;
                     ap_steps := dget "step" <$> new_steps; ap_refined := refined; ap_refine_skipped := skipped |})
      end
  end.
End iteration.

(** ** Text lengths *)

Lemma py_len_app a b : starts_cont b = false -> py_len (a +:+ b) = (py_len a + py_len b)%Z.
Proof. intros Hb. unfold py_len. rewrite chars_app_str, length_app by done. lia. Qed.

Lemma py_len_take n s : (py_len (py_take n s) <= Z.of_nat n)%Z.
Proof.
  unfold py_len, py_take. pose proof (chars_chars_ok s) as H. rewrite <- (take_drop n (chars s)) in H.
  apply chars_ok_app in H as [H _]. rewrite chars_concat by done. rewrite length_take. lia.
Qed.

Lemma py_len_slice_to z s : (0 <= z)%Z -> (py_len (py_slice_to z s) <= z)%Z.
Proof.
  intros Hz. unfold py_slice_to. destruct (Z.ltb_spec z 0); [lia|]. etrans; [apply py_len_take|]. lia.
Qed.

Lemma join_app_last sep l x : exists pre, join sep (l ++ [x]) = pre +:+ x.
Proof.
  induction l as [|a l [pre IH]]; [by exists ""|]. cbn [app join]. destruct l as [|b l].
  - exists (a +:+ sep). cbn. by rewrite app_str_assoc.
  - exists (a +:+ sep +:+ pre). cbn [app] in *. rewrite IH. by rewrite !app_str_assoc.
Qed.

Lemma suffix_app a b x : (exists pre, b = pre +:+ x) -> exists pre, a +:+ b = pre +:+ x.
Proof. intros [pre ->]. exists (a +:+ pre). apply app_str_assoc. Qed.

Lemma marker_footer reply_id trace_ids : exists pre, rework_marker reply_id trace_ids = pre +:+ REWORK_TASK_FOOTER.
Proof. unfold rework_marker. do 5 apply suffix_app. by exists "". Qed.

Lemma text_footer `{PyRepr} round_number original_task verdict failed reply_text :
  exists pre, rework_text round_number original_task verdict failed reply_text = pre +:+ REWORK_TASK_FOOTER.
Proof.
  unfold rework_text. match goal with |- context [join LF (?h ++ _)] => generalize h end. intros h.
  replace (h ++ ["审查意见原文:"; reply_text; REWORK_TASK_FOOTER])
    with ((h ++ ["审查意见原文:"; reply_text]) ++ [REWORK_TASK_FOOTER]) by by rewrite <- app_assoc.
  apply join_app_last.
Qed.

(** A rework task always ends with the fixed closing instruction,
    and it never exceeds [MAX_REWORK_TASK_CHARS] characters as long as the
    truncation marker itself fits in that budget. *)
Lemma rework_task_bounded `{PyRepr} round_number original_task verdict reply_id reply_text trace_ids t :
  build_rework_task round_number original_task verdict reply_id reply_text trace_ids = Ok t ->
  (exists pre, t = pre +:+ REWORK_TASK_FOOTER) /\
  ((py_len (rework_marker reply_id trace_ids) <= MAX_REWORK_TASK_CHARS)%Z -> (py_len t <= MAX_REWORK_TASK_CHARS)%Z).
Proof.
  unfold build_rework_task. intros (failed & _ & Ht)%bind_Ok.
  assert (t = clip_task (rework_text round_number original_task verdict failed reply_text)
                (rework_marker reply_id trace_ids)) as -> by congruence. clear Ht.
  pose proof (text_footer round_number original_task verdict failed reply_text) as Hf.
  revert Hf. generalize (rework_text round_number original_task verdict failed reply_text). intros text Hf.
  unfold clip_task. destruct (Z.ltb_spec MAX_REWORK_TASK_CHARS (py_len text)) as [Hlong|Hshort]; [|done].
  split; [apply suffix_app, marker_footer|]. intros Hm. rewrite py_len_app by reflexivity.
  pose proof (py_len_slice_to (MAX_REWORK_TASK_CHARS - py_len (rework_marker reply_id trace_ids)) text). lia.
Qed.

(** ** The derived steps *)

(** What every derived step carries. *)
Record derived_step (round_number : Z) (reply_id : string) (d : dict) : Prop := {
  ds_origin : is_iteration d = true;
  ds_round : dget "round" d = PInt round_number;
  ds_trigger : dget "triggered_by_reply" d = PStr reply_id;
  ds_approval : dget "requires_approval" d = PBool true
}.

Lemma dget_app_absent k d e : dlookup k e = None -> dget k (d ++ e) = dget k d.
Proof.
  intros He. unfold dget. induction d as [|[k' v] d IH]; cbn; [by rewrite He|]. by destruct (String.eqb k k').
Qed.

Lemma group_fields_absent k (gm : option (Z * Z)) :
  k ∉ ["review_group"; "review_group_member"] ->
  dlookup k (match gm with
             | Some (group, member) => [("review_group", PInt group); ("review_group_member", PInt member)]
             | None => [] end) = None.
Proof.
  intros Hk. apply dlookup_None. destruct gm as [[g m]|]; [exact Hk|apply not_elem_of_nil].
Qed.

Lemma review_step_derived step agent role task risk n rid gm :
  derived_step n rid (_review_step step agent role task risk (provenance_of n rid) gm) /\
  dget "step" (_review_step step agent role task risk (provenance_of n rid) gm) = PInt step /\
  dget "iteration_kind" (_review_step step agent role task risk (provenance_of n rid) gm) = PStr "review".
Proof.
  unfold _review_step, is_iteration. split; [split|split]; unfold is_iteration;
    rewrite dget_app_absent by (apply group_fields_absent; not_in); try reflexivity.
Qed.

Section derive.
Context `{PyRepr}.

(** The re-review steps go to whom the binding names: one step per bound
    reviewer, members of one new review group in the binding's order; else one
    step, for the bound round reviewer or for the agent of the reviewed step. *)
Definition reviewed_by (steps : list pyval) (approval : dict) (reviewers : list (string * string))
    (round_reviewer : option (string * string)) (reviews : list dict) : Prop :=
  match reviewers with
  | _ :: _ => length reviews = length reviewers /\
      exists group, (forall step g, review_group_numbers steps !! step = Some g -> (g < group)%Z) /\
        forall i agent role, reviewers !! i = Some (agent, role) ->
          exists d, reviews !! i = Some d /\ dget "agent_id" d = PStr agent /\ dget "role" d = PStr role /\
            dget "review_group" d = PInt group /\ dget "review_group_member" d = PInt (Z.of_nat i)
  | [] => exists d, reviews = [d] /\ dlookup "review_group" d = None /\
      match round_reviewer with
      | Some (agent, role) => dget "agent_id" d = PStr agent /\ dget "role" d = PStr role
      | None => dget "agent_id" d = dget "agent_id" approval /\ dget "role" d = dget "role" approval
      end
  end.

Lemma next_group_above steps step g :
  review_group_numbers steps !! step = Some g ->
  (g < match snd <$> map_to_list (review_group_numbers steps) with [] => 0 | g :: gs => list_maxZ g gs end + 1)%Z.
Proof.
  intros Hg. assert (Hin : g ∈ (snd <$> map_to_list (review_group_numbers steps))).
  { apply list_elem_of_fmap. exists (step, g). split; [done|]. by apply elem_of_map_to_list. }
  destruct (snd <$> _) as [|g0 gs]; [by apply not_elem_of_nil in Hin|]. destruct (list_maxZ_ge g0 gs) as [Hm Hf].
  apply elem_of_cons in Hin as [->|Hin]; [lia|]. rewrite Forall_forall in Hf. specialize (Hf _ Hin). cbn in Hf. lia.
Qed.

Lemma review_steps_reviewed steps next approval n rid reviewers round_reviewer :
  reviewed_by steps approval reviewers round_reviewer
    (review_steps steps next approval (provenance_of n rid) reviewers round_reviewer).
Proof.
  unfold reviewed_by, review_steps. destruct reviewers as [|ar reviewers].
  - destruct round_reviewer as [[a r]|]; eexists; (split; [reflexivity|]); by split.
  - split; [by rewrite length_imap|]. eexists. split; [apply next_group_above|].
    intros i agent role Hi. rewrite list_lookup_imap, Hi. eexists. split; [reflexivity|]. done.
Qed.

Lemma review_steps_derived steps next approval n rid reviewers round_reviewer :
  let new := review_steps steps next approval (provenance_of n rid) reviewers round_reviewer in
  new <> [] /\ Forall (derived_step n rid) new /\ Forall (fun d => dget "iteration_kind" d = PStr "review") new /\
  dget "step" <$> new = (fun i => PInt (next + 1 + Z.of_nat i)) <$> seq 0 (length new).
Proof.
  cbv zeta. unfold review_steps. destruct reviewers as [|ar reviewers].
  - destruct round_reviewer as [[a r]|]; (split_and!; [done|apply Forall_singleton, review_step_derived|
      apply Forall_singleton, review_step_derived|]); cbn [fmap list_fmap length seq];
      rewrite (proj1 (proj2 (review_step_derived _ _ _ _ _ _ _ _))); do 2 f_equal; lia.
  - split_and!; [done| | |].
    + apply Forall_lookup. intros i d (x & Hx & ->)%list_lookup_imap_Some. apply review_step_derived.
    + apply Forall_lookup. intros i d (x & Hx & ->)%list_lookup_imap_Some. apply review_step_derived.
    + rewrite length_imap. apply list_eq. intros i. rewrite !list_lookup_fmap, list_lookup_imap.
      destruct ((ar :: reviewers) !! i) as [x|] eqn:Hx.
      * rewrite lookup_seq_lt by by eapply lookup_lt_Some.
        cbn [fmap option_fmap option_map]. done.
      * by rewrite lookup_seq_ge by by apply lookup_ge_None.
Qed.

Lemma rounds_app steps new n :
  plan_review_rounds steps = (n - 1)%Z -> new <> [] -> Forall (fun d => is_iteration d = true /\ dget "round" d = PInt n) new ->
  plan_review_rounds (steps ++ (PDict <$> new)) = n.
Proof.
  intros Hr Hne Hnew. unfold plan_review_rounds, dicts_of in *. rewrite omap_app, foldl_app, Hr.
  fold (dicts_of (PDict <$> new)). rewrite dicts_of_PDict.
  assert (Hstep : forall a d, is_iteration d = true -> dget "round" d = PInt n -> (a <= n)%Z -> rounds_step a d = n).
  { intros a d Hi Hd Ha. unfold rounds_step. rewrite Hd, Hi. cbn. destruct (Z.ltb_spec a n); lia. }
  assert (Hfix : forall l a, Forall (fun d => is_iteration d = true /\ dget "round" d = PInt n) l -> (a = n)%Z ->
    foldl rounds_step a l = n).
  { induction l as [|d l IH]; intros a Hl Ha; [done|]. apply Forall_cons in Hl as [[H1 H2] Hl]. cbn. apply IH; [done|].
    apply Hstep; [done..|lia]. }
  destruct new as [|d new]; [done|]. apply Forall_cons in Hnew as [[H1 H2] Hnew]. cbn [foldl].
  rewrite (Hstep _ d) by (done || lia). by apply Hfix.
Qed.

Lemma consumed_app steps new rid :
  new <> [] -> Forall (fun d => is_iteration d = true /\ dget "triggered_by_reply" d = PStr rid) new ->
  _consumed_reply_ids steps ⊆ _consumed_reply_ids (steps ++ (PDict <$> new)) /\
  (rid <> "" -> rid ∈ _consumed_reply_ids (steps ++ (PDict <$> new))).
Proof.
  intros Hne Hnew. unfold _consumed_reply_ids, dicts_of. rewrite !omap_app.
  fold (dicts_of (PDict <$> new)). rewrite dicts_of_PDict. split.
  - intros x Hx. apply elem_of_app. by left.
  - intros Hrid. apply elem_of_app. right. destruct new as [|d new]; [done|].
    apply Forall_cons in Hnew as [[H1 H2] _]. cbn. rewrite H1, H2. cbn.
    rewrite (proj2 (String.eqb_neq _ _) Hrid). by left.
Qed.
End derive.

Section derive_inversion.
Context `{PyRepr}.
Context (state : dict) (plan_id : string) (max_rounds : Z) (binding : pyval).

(** The facts behind a derived round. *)
Record derivation (i : iteration) (steps : list pyval) (s : selection) (implementation : dict) : Prop := {
  dv_plan : exists plan, find_plan state plan_id = Ok (Some plan) /\ py_iter (plan_steps plan) = Ok steps /\
              select_plan_verdict state plan_id (plan_steps plan) true = Ok (Some s);
  dv_overall : exists o, dget "overall" (s_verdict s) = PStr o /\ o ∈ REWORK_TRIGGER_OVERALLS;
  dv_fresh : s_reply_id s ∉ _consumed_reply_ids steps;
  dv_rounds : (plan_review_rounds steps < max_rounds)%Z;
  dv_implementation : exists n, step_int (default [] (s_approval s)) = Ok n /\
    _implementation_approval state plan_id n = Ok (Some implementation);
  dv_build : build_iteration steps (plan_review_rounds steps) s (default [] (s_approval s)) implementation binding = Ok i
}.

Lemma in_strs_false k ks : in_strs k ks = false <-> k ∉ ks.
Proof. rewrite <- in_strs_spec. by destruct (in_strs k ks). Qed.

Lemma derive_inr i :
  derive_review_iteration state plan_id max_rounds binding = Ok (inr i) ->
  exists steps s implementation, derivation i steps s implementation.
Proof.
  unfold derive_review_iteration. intros (plan & Hp & Hd)%bind_Ok. destruct plan as [plan|]; [|done].
  apply bind_Ok in Hd as (sel & Hsel & Hd). destruct sel as [s|]; [|done].
  apply bind_Ok in Hd as (trig & Ht & Hd). destruct trig; cbn [negb] in Hd; [|done].
  apply bind_Ok in Hd as (steps & Hst & Hd). destruct (in_strs _ _) eqn:Hc; [done|].
  destruct (Z.leb_spec max_rounds (plan_review_rounds steps)) as [|Hlt]; [done|].
  destruct (step_int _) as [n|[]] eqn:Hn; try done.
  apply bind_Ok in Hd as (impl & Him & Hd). destruct impl as [impl|]; [|done].
  apply bind_Ok in Hd as (i' & Hb & [= ->]). exists steps, s, impl. split; eauto.
  - by apply in_str_set_Ok_true.
  - by apply in_strs_false.
Qed.

(** A refusal's reason is always one of the closed list, and only a plan that
    exists, selected a failing fresh verdict, and has rounds left gets past it. *)
Lemma build_iteration_spec steps rounds s approval implementation i :
  build_iteration steps rounds s approval implementation binding = Ok i ->
  let new := i_rework_step i :: i_review_steps i in
  i_round i = (rounds + 1)%Z /\ i_triggered_by i = s_reply_id s /\
  Forall (derived_step (rounds + 1) (s_reply_id s)) new /\ i_review_steps i <> [] /\
  dget "iteration_kind" (i_rework_step i) = PStr "rework" /\ dlookup "review_group" (i_rework_step i) = None /\
  dget "agent_id" (i_rework_step i) = dget "agent_id" implementation /\
  Forall (fun d => dget "iteration_kind" d = PStr "review") (i_review_steps i) /\
  (exists reviewers rr, _review_binding_pairs binding = Ok (reviewers, rr) /\
    reviewed_by steps approval reviewers rr (i_review_steps i)) /\
  exists numbers next, mapR step_int (dicts_of steps) = Ok numbers /\ Forall (fun n => (n < next)%Z) numbers /\
    dget "step" <$> new = (fun k => PInt (next + Z.of_nat k)) <$> seq 0 (length new).
Proof.
  unfold build_iteration. intros (numbers & Hn & [[text ids] [_ (task & _ & [[reviewers rr] [Hb [= <-]]]%bind_Ok)%bind_Ok]]%bind_Ok)%bind_Ok.
  cbn [i_rework_step i_review_steps i_round i_triggered_by].
  set (next := (match numbers with [] => 0 | n :: ns => list_maxZ n ns end + 1)%Z).
  destruct (review_steps_derived steps next approval (rounds + 1) (s_reply_id s) reviewers rr) as (H1 & H2 & H3 & H4).
  split_and!; try done.
  - constructor; [|done]. split; reflexivity.
  - exists reviewers, rr. split; [done|]. apply review_steps_reviewed.
  - exists numbers, next. split_and!; [done| |].
    + unfold next. destruct numbers as [|n ns]; [constructor|]. destruct (list_maxZ_ge n ns) as [Hm Hf].
      constructor; [lia|]. eapply Forall_impl; [exact Hf|]. cbn. lia.
    + cbn [length seq]. rewrite !fmap_cons, H4. f_equal; [cbn; f_equal; lia|].
      rewrite <- fmap_S_seq, <- list_fmap_compose. apply list_fmap_ext. intros k x _. cbn. f_equal. lia.
Qed.
End derive_inversion.

(** ** The write *)

Lemma dget_dset_ne k k' v d : k <> k' -> dget k (dset k' v d) = dget k d.
Proof. intros Hk. by rewrite dget_dset, (proj2 (String.eqb_neq _ _) Hk). Qed.

Lemma dlookup_dget k d v : dlookup k d = Some v -> dget k d = v.
Proof. unfold dget. by intros ->. Qed.

Lemma dget_list_lookup k d l : dget k d = PList l -> dlookup k d = Some (PList l).
Proof. unfold dget. destruct (dlookup k d); [by intros ->|done]. Qed.

Lemma extend_plan_steps plan new plan' :
  extend_plan plan new = Some plan' ->
  exists steps, plan_steps plan = PList steps /\ plan_steps plan' = PList (steps ++ (PDict <$> new)) /\
    dget "plan_id" plan' = dget "plan_id" plan.
Proof.
  unfold extend_plan, plan_steps. destruct (dget "plan" plan) as [| | | | | | |body]; try done.
  destruct (dget "steps" body) as [| | | | |steps| |] eqn:Hs; try done. intros [= <-]. exists steps.
  rewrite (dget_list_lookup _ _ _ Hs). rewrite dget_dset, String.eqb_refl, dlookup_dset_eq.
  split_and!; [done|done|]. by rewrite dget_dset_ne.
Qed.

Lemma find_first_cons {A} (p : A -> bool) x l : find_first p (x :: l) = if p x then Some x else find_first p l.
Proof. unfold find_first. cbn. by destruct (p x). Qed.

Lemma extend_plans_find pid new plans plans' :
  extend_plans pid new plans = Ok (Some plans') ->
  exists plan plan', find_first (fun p => py_eq (dget "plan_id" p) (PStr pid)) (dicts_of plans) = Some plan /\
    find_first (fun p => py_eq (dget "plan_id" p) (PStr pid)) (dicts_of plans') = Some plan' /\
    extend_plan plan new = Some plan'.
Proof.
  revert plans'; induction plans as [|p plans IH]; intros plans'; cbn [extend_plans]; [done|].
  destruct p as [| | | | | | |p]; try done. rewrite dicts_of_cons, find_first_cons.
  destruct (py_eq (dget "plan_id" p) (PStr pid)) eqn:Hp.
  - destruct (extend_plan p new) as [p'|] eqn:He; [|done]. intros [= <-]. exists p, p'.
    rewrite dicts_of_cons, find_first_cons. destruct (extend_plan_steps _ _ _ He) as (_ & _ & _ & Hid).
    by rewrite Hid, Hp.
  - intros (r & Hr & Hr')%bind_Ok. destruct r as [r|]; [|done]. injection Hr' as <-.
    destruct (IH r Hr) as (plan & plan' & H1 & H2 & H3). exists plan, plan'.
    by rewrite dicts_of_cons, find_first_cons, Hp.
Qed.

Lemma adopt_override_steps rework i n rid :
  Forall (derived_step n rid) (i_rework_step i :: i_review_steps i) ->
  Forall (derived_step n rid) (adopt_override rework i).1.1 /\ (adopt_override rework i).1.1 <> [] /\
  dget "step" <$> (adopt_override rework i).1.1 = dget "step" <$> (i_rework_step i :: i_review_steps i) /\
  exists first, (adopt_override rework i).1.1 = first :: i_review_steps i /\
    dget "iteration_kind" first = dget "iteration_kind" (i_rework_step i) /\
    dget "agent_id" first = dget "agent_id" (i_rework_step i).
Proof.
  unfold adopt_override. intros Hf. assert (Hplain : exists first, i_rework_step i :: i_review_steps i = first :: i_review_steps i /\
    dget "iteration_kind" first = dget "iteration_kind" (i_rework_step i) /\
    dget "agent_id" first = dget "agent_id" (i_rework_step i)) by by eexists.
  destruct rework as [[task r]|]; [|done]. destruct (String.eqb _ _); [|done].
  cbn [fst]. apply Forall_cons in Hf as [[H1 H2 H3 H4] Hf]. split_and!; [|done| |].
  - constructor; [|done]. unfold is_iteration in *. split; unfold is_iteration; by rewrite !dget_dset_ne.
  - rewrite !fmap_cons. f_equal. by rewrite !dget_dset_ne.
  - eexists. split; [done|]. by rewrite !dget_dset_ne.
Qed.

Definition has_steps (state : dict) (plan_id : string) (steps : list pyval) : Prop :=
  exists plan, find_plan state plan_id = Ok (Some plan) /\ plan_steps plan = PList steps.

Lemma has_steps_fun state plan_id l k : has_steps state plan_id l -> has_steps state plan_id k -> l = k.
Proof. intros (p & Hp & Hl) (q & Hq & Hk). congruence. Qed.

(** The trigger of a round: the selected verdict, that of reply [reply_id], is
    one of those that ask for rework, [approval] is that of the reviewed step,
    and [worker] the agent who implemented what was reviewed. *)
Definition triggered `{PyRepr} (state : dict) (plan_id reply_id : string) (approval : dict) (worker : pyval) : Prop :=
  exists plan s number implementation, find_plan state plan_id = Ok (Some plan) /\
    select_plan_verdict state plan_id (plan_steps plan) true = Ok (Some s) /\ s_reply_id s = reply_id /\
    (dget "overall" (s_verdict s) = PStr "fail" \/ dget "overall" (s_verdict s) = PStr "needs_changes") /\
    approval = default [] (s_approval s) /\ step_int approval = Ok number /\
    _implementation_approval state plan_id number = Ok (Some implementation) /\
    worker = dget "agent_id" implementation.

(** What a round adds to the plan: a rework step of the implementing agent,
    then at least one re-review step, for the reviewers the binding names. *)
Definition round_steps `{PyRepr} (binding : pyval) (steps : list pyval) (approval : dict) (worker : pyval)
    (new : list dict) : Prop :=
  exists rework reviews reviewers round_reviewer, new = rework :: reviews /\
    dget "iteration_kind" rework = PStr "rework" /\ dget "agent_id" rework = worker /\
    reviews <> [] /\ Forall (fun d => dget "iteration_kind" d = PStr "review") reviews /\
    _review_binding_pairs binding = Ok (reviewers, round_reviewer) /\
    reviewed_by steps approval reviewers round_reviewer reviews.

(** One approval per new step, in their order: the [i]-th asks for the [i]-th
    step, for its agent, and is pending. *)
Definition one_approval_each (plan_id : string) (new_id : nat -> string) (new : list dict) (added : list pyval) : Prop :=
  length added = length new /\
  forall i d, new !! i = Some d -> exists a, added !! i = Some (PDict a) /\
    dget "approval_id" a = PStr (new_id i) /\ dget "plan_id" a = PStr plan_id /\ dget "status" a = PStr "pending" /\
    dget "step" a = dget "step" d /\ dget "agent_id" a = dget "agent_id" d /\ dget "role" a = dget "role" d /\
    dget "task" a = dget "task" d /\ dget "risk" a = dget "risk" d.

Lemma pending_each plan_id new_id now new :
  one_approval_each plan_id new_id new (imap (fun i step => PDict (pending_approval plan_id (new_id i) now step)) new).
Proof.
  split; [by rewrite length_imap|]. intros i d Hi. rewrite list_lookup_imap, Hi. by eexists.
Qed.

(** What a successful write did. *)
Record appended `{PyRepr} (state state' : dict) (plan_id : string) (max_rounds : Z) (binding : pyval)
    (new_id : nat -> string) (r : append_result) (steps : list pyval) (new : list dict) : Prop := {
  ad_before : has_steps state plan_id steps;
  ad_after : has_steps state' plan_id (steps ++ (PDict <$> new));
  ad_left : (plan_review_rounds steps < max_rounds)%Z;
  ad_round : ap_round r = (plan_review_rounds steps + 1)%Z;
  ad_rounds : plan_review_rounds (steps ++ (PDict <$> new)) = ap_round r;
  ad_fresh : ap_triggered_by r ∉ _consumed_reply_ids steps;
  ad_new : new <> [] /\ Forall (derived_step (ap_round r) (ap_triggered_by r)) new;
  ad_numbers : exists numbers next, mapR step_int (dicts_of steps) = Ok numbers /\
    Forall (fun n => (n < next)%Z) numbers /\
    dget "step" <$> new = (fun k => PInt (next + Z.of_nat k)) <$> seq 0 (length new);
  ad_steps : ap_steps r = dget "step" <$> new;
  ad_kinds : exists approval worker, triggered state plan_id (ap_triggered_by r) approval worker /\
    round_steps binding steps approval worker new;
  ad_approvals : exists approvals added,
    (dget "approvals" state = PList approvals \/ dlookup "approvals" state = None /\ approvals = []) /\
    dget "approvals" state' = PList (approvals ++ added) /\ one_approval_each plan_id new_id new added
}.

Section append.
Context `{PyRepr}.

Lemma append_inv state plan_id max_rounds binding rework new_id now state' r :
  append_review_iteration state plan_id max_rounds binding rework new_id now = Ok (state', inr r) ->
  exists i plans plans' approvals, derive_review_iteration state plan_id max_rounds binding = Ok (inr i) /\
    dget "plans" state = PList plans /\
    extend_plans plan_id (adopt_override rework i).1.1 plans = Ok (Some plans') /\
    dget "approvals" state' = PList (approvals ++
      imap (fun i step => PDict (pending_approval plan_id (new_id i) now step)) (adopt_override rework i).1.1) /\
    (dget "approvals" state = PList approvals \/ dlookup "approvals" state = None /\ approvals = []) /\
    dlookup "plans" state' = Some (PList plans') /\
    ap_round r = i_round i /\ ap_triggered_by r = i_triggered_by i /\
    ap_steps r = dget "step" <$> (adopt_override rework i).1.1.
Proof.
  unfold append_review_iteration. intros ([] & _ & (derived & Hd & Ha)%bind_Ok)%bind_Ok.
  destruct derived as [|i]; [done|]. destruct (adopt_override rework i) as [[new refined] skipped] eqn:Hnew.
  apply bind_Ok in Ha as (plans & Hp & (ext & He & Ha)%bind_Ok). destruct ext as [plans'|]; [|done].
  apply bind_Ok in Ha as (approvals & Hap & Hst). 
  assert (state' = dset "approvals" (PList (approvals ++
            imap (fun i step => PDict (pending_approval plan_id (new_id i) now step)) new))
            (dset "plans" (PList plans') state)) as -> by congruence.
  assert (r = {| ap_round := i_round i; ap_triggered_by := i_triggered_by i; ap_steps := dget "step" <$> new;
                 ap_refined := refined; ap_refine_skipped := skipped |}) as -> by congruence.
  clear Hst. exists i, plans, plans', approvals. rewrite Hnew. cbn [fst]. split_and!; try done.
  - destruct (dget "plans" state); congruence.
  - apply dlookup_dget, dlookup_dset_eq.
  - clear -Hap. unfold dget. destruct (dlookup "approvals" state) as [[]|]; try done; injection Hap as <-; auto.
  - rewrite dlookup_dset_ne by done. apply dlookup_dset_eq.
Qed.

Lemma append_appended state plan_id max_rounds binding rework new_id now state' r :
  append_review_iteration state plan_id max_rounds binding rework new_id now = Ok (state', inr r) ->
  exists steps new, appended state state' plan_id max_rounds binding new_id r steps new.
Proof.
  intros (i & plans & plans' & approvals & Hd & Hp & He & Happ & Hold & Hpl & Hr & Ht & Hs)%append_inv.
  apply derive_inr in Hd as (steps & s & impl & [Hplan Hover Hfresh Hlt Himpl Hb]).
  apply build_iteration_spec in Hb as (H1 & H2 & Hder & Hrev & Hkind & _ & Hagent & Hkinds & (rs & rr & Hpairs & Hby) & Hnum).
  destruct (adopt_override_steps rework i _ _ Hder) as (Hder' & Hne & Hsteps & first & Hfirst & Hfk & Hfa).
  assert (Htrig : triggered state plan_id (s_reply_id s) (default [] (s_approval s)) (dget "agent_id" impl)).
  { destruct Hplan as (plan & Hfp & _ & Hsel), Himpl as (n & Hn & Hi). exists plan, s, n, impl. split_and!; try done.
    destruct Hover as (o & -> & Ho). clear -Ho. unfold REWORK_TRIGGER_OVERALLS in Ho. set_solver. }
  set (new := (adopt_override rework i).1.1) in *.
  apply extend_plans_find in He as (plan & plan' & Hf & Hf' & Hx).
  destruct (extend_plan_steps _ _ _ Hx) as (steps' & Hst & Hst' & _).
  assert (Hfind : forall st l, dlookup "plans" st = Some (PList l) ->
    find_plan st plan_id = Ok (find_first (fun p => py_eq (dget "plan_id" p) (PStr plan_id)) (dicts_of l))).
  { intros st l Hl. unfold find_plan, state_list. by rewrite Hl. }
  destruct Hplan as (plan0 & Hfp & Hiter & _). rewrite (Hfind _ _ (dget_list_lookup _ _ _ Hp)), Hf in Hfp.
  injection Hfp as <-. rewrite Hst in Hiter. injection Hiter as <-. rewrite <- H1, <- H2 in Hder'.
  exists steps', new. rewrite <- H2 in Hfresh. split; rewrite ?Hr, ?Ht; try done.
  - exists plan. by rewrite (Hfind _ _ (dget_list_lookup _ _ _ Hp)), Hf.
  - exists plan'. by rewrite (Hfind _ _ Hpl), Hf'.
  - apply rounds_app; [lia|done|]. eapply Forall_impl; [exact Hder'|]. by intros d [].
  - destruct Hnum as (numbers & next & Hn1 & Hn2 & Hn3). exists numbers, next. split_and!; [done|done|].
    rewrite Hsteps, Hn3. f_equal. f_equal. apply (f_equal length) in Hsteps. by rewrite !length_fmap in Hsteps.
  - exists (default [] (s_approval s)), (dget "agent_id" impl). rewrite H2. split; [done|].
    exists first, (i_review_steps i), rs, rr. rewrite Hfk, Hfa. done.
  - eexists approvals, _. split_and!; [done|exact Happ|apply pending_each].
Qed.
End append.

Lemma append_refused `{PyRepr} state plan_id max_rounds binding rework new_id now state' reason :
  append_review_iteration state plan_id max_rounds binding rework new_id now = Ok (state', inl reason) -> state' = state.
Proof.
  unfold append_review_iteration. intros ([] & _ & (derived & _ & Ha)%bind_Ok)%bind_Ok.
  destruct derived as [|i]; [by injection Ha as <-|]. destruct (adopt_override rework i) as [[new refined] skipped].
  apply bind_Ok in Ha as (plans & _ & (ext & _ & Ha)%bind_Ok). destruct ext; [|by injection Ha as <-].
  by apply bind_Ok in Ha as (approvals & _ & [=]).
Qed.

(** C36: a refused round writes nothing.  An appended one was asked for by the
    plan's selected verdict, of a reply that had not triggered a round before,
    and extends the plan's steps by a rework step of the implementing agent
    followed by its re-review steps: one per bound reviewer, as members of a new
    review group, else a single one.  The new steps are numbered consecutively
    above every existing number, each marked with the round, the triggering reply
    and required approval; the round count grows by exactly one, within the
    limit.  Every new step gets exactly one approval, pending, for its agent. *)
Theorem append_review_iteration_spec `{PyRepr} state plan_id max_rounds binding rework new_id now state' out :
  append_review_iteration state plan_id max_rounds binding rework new_id now = Ok (state', out) ->
  match out with
  | inl _ => state' = state
  | inr r => exists steps new, appended state state' plan_id max_rounds binding new_id r steps new
  end.
Proof.
  intros Ha. destruct out as [reason|r]; [by eapply append_refused|by eapply append_appended].
Qed.

(** A history of rounds of one plan: between two rounds anything but the plan's
    steps may change (new replies, approvals, messages). *)
Inductive rework_run `{PyRepr} (plan_id : string) (max_rounds : Z) (start : list pyval)
    : list pyval -> list string -> Prop :=
| run_start : rework_run plan_id max_rounds start start []
| run_round steps triggers state state' binding rework new_id now r steps' :
    rework_run plan_id max_rounds start steps triggers -> has_steps state plan_id steps ->
    append_review_iteration state plan_id max_rounds binding rework new_id now = Ok (state', inr r) ->
    has_steps state' plan_id steps' ->
    rework_run plan_id max_rounds start steps' (ap_triggered_by r :: triggers).

(** C37 (termination): however replies arrive between them, a plan gets at most
    [max_rounds] rounds in total: [k] rounds raise its round count by exactly
    [k], never beyond the limit, and no reply identity triggers two of them. *)
Theorem review_rounds_bounded `{PyRepr} plan_id max_rounds start steps triggers :
  rework_run plan_id max_rounds start steps triggers ->
  plan_review_rounds steps = (plan_review_rounds start + Z.of_nat (length triggers))%Z /\
  (triggers <> [] -> (plan_review_rounds steps <= max_rounds)%Z) /\
  NoDup (List.filter (fun t => negb (String.eqb t "")) triggers).
Proof.
  intros Hrun. assert (Hinv : plan_review_rounds steps = (plan_review_rounds start + Z.of_nat (length triggers))%Z /\
    (triggers <> [] -> (plan_review_rounds steps <= max_rounds)%Z) /\
    NoDup (List.filter (fun t => negb (String.eqb t "")) triggers) /\
    forall t, t ∈ triggers -> t <> "" -> t ∈ _consumed_reply_ids steps).
  { induction Hrun as [|steps triggers state state' binding rework new_id now r steps' _ (IH1 & IH2 & IH3 & IH4) Hs Ha Hs'].
    { split_and!; [cbn; lia|done|constructor|by intros t ?%not_elem_of_nil]. }
    destruct (append_appended _ _ _ _ _ _ _ _ _ Ha) as (steps0 & new & [Hb Haf Hl Hr Hrs Hf [Hne Hd] _ _ _ _]).
    rewrite (has_steps_fun _ _ _ _ Hb Hs) in *. rewrite (has_steps_fun _ _ _ _ Hs' Haf).
    assert (Hcons := consumed_app steps new (ap_triggered_by r) Hne).
    destruct Hcons as [Hsub Hin]; [eapply Forall_impl; [exact Hd|]; by intros d []|].
    rewrite Hrs, Hr. split_and!; [cbn; lia|intros _; lia| |].
    - cbn [List.filter]. destruct (String.eqb_spec (ap_triggered_by r) "") as [He|Hne']; [done|].
      apply NoDup_cons. split; [|done]. rewrite list_elem_of_In, filter_In, <- list_elem_of_In. intros [Ht _]. auto.
    - intros t [->|Ht]%elem_of_cons Hne'; [auto|]. apply Hsub. auto. }
  tauto.
Qed.

(** ** Whose verdict is selected *)

Section who.
Context `{PyRepr}.

Lemma last_for_elem {A} key (l : list (string * A)) x : last_for key l = Some x -> (key, x) ∈ l.
Proof.
  unfold last_for. destruct (last _) as [[k y]|] eqn:Hl; [|done]. cbn. intros [= ->].
  apply last_Some_elem_of, list_elem_of_In, filter_In in Hl as [Hl Hk]. cbn in Hk. apply String.eqb_eq in Hk as ->.
  by rewrite list_elem_of_In.
Qed.

Lemma verdict_approval_Some excluded plan_id a k x :
  verdict_approval excluded plan_id a = Ok (Some (k, x)) ->
  x = a /\ k = py_str (dget "message_id" a) /\ dget "plan_id" a = PStr plan_id /\
  forall n, n ∈ excluded -> py_eq (dget "step" a) (PInt n) = false.
Proof.
  unfold verdict_approval. destruct (py_eq (dget "plan_id" a) (PStr plan_id)) eqn:Hp; [|done]. cbn [andb].
  destruct (truthy _); [|done]. intros (skip & Hs & Hx)%bind_Ok. destruct skip; [done|].
  assert (k = py_str (dget "message_id" a) /\ x = a) as [-> ->] by (split; congruence).
  apply py_eq_str in Hp. split_and!; [done|done|done|]. unfold in_int_set in Hs. destruct (hashable _); [|done].
  injection Hs as Hs. by rewrite existsb_elem_false in Hs.
Qed.

Lemma latest_fold_inv by_message l init r a :
  foldl (latest_step by_message) init l = Some (r, a) ->
  init = Some (r, a) \/ (r ∈ l /\ exists v, dget "verdict" r = PDict v /\
    (py_str (dget "message_id" r), a) ∈ by_message).
Proof.
  revert init; induction l as [|d l IH]; intros init; cbn [foldl]; [by left|].
  intros [Hi|(Hr & Hv)]%IH; [|right; split; [by right|done]].
  unfold latest_step in Hi. destruct (dget "verdict" d) as [| | | | | | |v] eqn:Hd; auto.
  destruct (last_for _ _) as [a'|] eqn:Hl; auto. injection Hi as -> ->. right. split; [by left|].
  exists v. split; [done|]. by apply last_for_elem.
Qed.

(** A verdict reply and the approval of the step it answers. *)
Lemma latest_verdict_reply_spec state plan_id steps r a :
  _latest_verdict_reply state plan_id steps = Ok (Some (r, a)) ->
  exists approvals replies v, state_list "approvals" state = Ok approvals /\ state_list "replies" state = Ok replies /\
    a ∈ dicts_of approvals /\ r ∈ dicts_of replies /\ dget "verdict" r = PDict v /\
    dget "plan_id" a = PStr plan_id /\ py_str (dget "message_id" a) = py_str (dget "message_id" r) /\
    forall n, n ∈ rework_step_numbers steps -> py_eq (dget "step" a) (PInt n) = false.
Proof.
  unfold _latest_verdict_reply.
  intros (approvals & Ha & (entries & He & (replies & Hr & Hl)%bind_Ok)%bind_Ok)%bind_Ok. injection Hl as Hl.
  apply latest_fold_inv in Hl as [Hl|(Hin & v & Hv & Hb)]; [done|]. apply list_elem_of_omap in Hb as (e & Hein & He').
  cbn in He'. subst e. apply mapR_Ok in He. apply list_elem_of_lookup in Hein as (i & Hi).
  destruct (Forall2_lookup_r _ _ _ _ _ He Hi) as (x & Hx & Hva).
  apply verdict_approval_Some in Hva as (-> & Hk & Hp & Hn).
  exists approvals, replies, v. split_and!; try done. by eapply list_elem_of_lookup_2.
Qed.

Lemma group_selection_Some approvals replies plan_id require g s :
  group_selection approvals replies plan_id require g = Ok (Some s) ->
  s_group s = Some (gv_group g) /\ s_complete s = gv_complete g /\
  exists ms, s_members s = Some ms /\ rm_step <$> ms = m_step <$> gv_members g.
Proof.
  unfold group_selection. destruct (List.filter truthy_verdict (gv_members g)) as [|m ms] eqn:Hf; [done|].
  destruct (gv_members g) as [|first rest] eqn:Hg; [done|]. destruct (_ || _); [|done].
  intros (agg & _ & Hs)%bind_Ok. injection Hs as <-. cbn. split_and!; [done|done|]. eexists. split; [done|].
  cbn. f_equal. rewrite <- list_fmap_compose. by apply list_fmap_ext.
Qed.
End who.

(** The verdict a plan is judged by is never a worker's own: without review
    groups it is the verdict of a recorded reply to an approval of this plan
    whose step is not a rework step; with groups, every member considered is a
    step marked with the selected group (for the trigger, a complete one). *)
Lemma select_plan_verdict_reviewers `{PyRepr} state plan_id steps require s :
  select_plan_verdict state plan_id (PList steps) require = Ok (Some s) ->
  (review_group_numbers steps = ∅ ->
   exists approvals replies a r, state_list "approvals" state = Ok approvals /\ state_list "replies" state = Ok replies /\
     s_approval s = Some a /\ a ∈ dicts_of approvals /\ dget "plan_id" a = PStr plan_id /\
     r ∈ dicts_of replies /\ dget "verdict" r = PDict (s_verdict s) /\ s_reply_id s = py_str (dget "reply_id" r) /\
     py_str (dget "message_id" a) = py_str (dget "message_id" r) /\
     forall n, n ∈ rework_step_numbers steps -> py_eq (dget "step" a) (PInt n) = false) /\
  (review_group_numbers steps <> ∅ ->
   exists g ms, s_group s = Some g /\ s_members s = Some ms /\ is_group steps g /\
     rm_step <$> ms = group_steps (review_group_numbers steps) g /\
     (require = true -> s_complete s = true)).
Proof.
  unfold select_plan_verdict. split; intros Hg; [rewrite bool_decide_eq_true_2 in H0 by done|rewrite bool_decide_eq_false_2 in H0 by done].
  - apply bind_Ok in H0 as (latest & Hl & Hs). destruct latest as [[r a]|]; [|done]. cbn in Hs.
    destruct (latest_verdict_reply_spec _ _ _ _ _ Hl) as (approvals & replies & v & H1 & H2 & H3 & H4 & H5 & H6 & H7 & H8).
    assert (s = single_selection (r, a)) as -> by congruence. unfold single_selection. cbn [fst snd s_approval s_verdict s_reply_id].
    rewrite H5. exists approvals, replies, a, r. done.
  - apply bind_Ok in H0 as (approvals & Ha & (replies & Hr & (group & Hsel & Hs)%bind_Ok)%bind_Ok).
    destruct group as [g|]; [|done]. apply group_selection_Some in Hs as (H1 & H2 & ms & H3 & H4).
    destruct require.
    + pose proof (complete_group_Some _ _ _ _ _ Hsel) as (Hig & Hms & _).
      exists (gv_group g), ms. rewrite H4. split_and!; try done; [by eapply group_members_steps|].
      intros _. rewrite H2. by eapply complete_group_complete.
    + pose proof (status_group_Some _ _ _ _ _ Hsel) as (Hig & Hms & _).
      exists (gv_group g), ms. rewrite H4. split_and!; try done. by eapply group_members_steps.
Qed.

(** ** The refined task and the writer's guard *)

(** A refined task that passes validation is accepted by the writer's guard
    (not blank and within the length limit), and it either already closes with
    the fixed instruction or has it appended. *)
Lemma refined_task_accepted v t :
  validate_refined_task v = Ok t ->
  valid_override t = true /\ (py_len t <= MAX_REWORK_TASK_CHARS)%Z /\
  exists s, v = PStr s /\
    (t = strip s /\ _has_rework_footer (strip s) = true \/ t = strip s +:+ LF +:+ REWORK_TASK_FOOTER).
Proof.
  destruct v as [| | | |s| | |]; try done. cbn [validate_refined_task].
  destruct (String.eqb_spec (strip s) "") as [|Hne]; [done|].
  set (x := if _has_rework_footer (strip s) then strip s else _).
  destruct (Z.ltb_spec MAX_REWORK_TASK_CHARS (py_len x)) as [|Hlen]; [done|]. intros Ht.
  assert (t = x) as -> by congruence. clear Ht.
  assert (Hx : strip x <> "").
  { unfold x. destruct (_has_rework_footer (strip s)); [by rewrite strip_strip|].
    rewrite <- strip_strip in Hne. apply strip_nonempty in Hne as (c & Hc & Hs). apply strip_nonempty. exists c.
    split; [|done]. rewrite chars_app_str by reflexivity. apply elem_of_app. by left. }
  split; [|split; [done|exists s; split; [done|]]].
  - unfold valid_override. apply andb_true_iff. split; [by apply negb_true_iff, String.eqb_neq|by apply Z.leb_le].
  - unfold x. destruct (_has_rework_footer (strip s)); auto.
Qed.

(** ** Witnesses *)

#[local] Instance witness_repr : PyRepr := fun _ => "<repr>".

Definition reviewed_state (rounds_so_far : list pyval) : dict :=
  [("plans", PList [PDict [("plan_id", PStr "p1"); ("plan", PDict [("steps", PList
      ([PDict [("step", PInt 1); ("agent_id", PStr "coder"); ("role", PStr "implementation"); ("task", PStr "build it")];
        PDict [("step", PInt 2); ("agent_id", PStr "codex"); ("role", PStr "review")]] ++ rounds_so_far))])]]);
   ("approvals", PList
      [PDict [("plan_id", PStr "p1"); ("step", PInt 1); ("message_id", PStr "m1"); ("agent_id", PStr "coder")];
       PDict [("plan_id", PStr "p1"); ("step", PInt 2); ("message_id", PStr "m2"); ("agent_id", PStr "codex")]]);
   ("messages", PList [PDict [("message_id", PStr "m1"); ("worktree_branch", PStr "task/1")]]);
   ("replies", PList [PDict [("message_id", PStr "m2"); ("reply_id", PStr "r2"); ("text", PStr "broken");
      ("verdict", PDict [("overall", PStr "fail");
         ("criteria", PList [PDict [("criterion", PStr "tests pass"); ("verdict", PStr "fail")]])])]])].

Definition reviewed_steps : list pyval :=
  [PDict [("step", PInt 1); ("agent_id", PStr "coder"); ("role", PStr "implementation"); ("task", PStr "build it")];
   PDict [("step", PInt 2); ("agent_id", PStr "codex"); ("role", PStr "review")]].

Lemma rework_task_bounded_witness :
  exists t, build_rework_task 1 "build it" [("overall", PStr "fail")] "r2" "broken" None = Ok t /\
    (py_len t <= MAX_REWORK_TASK_CHARS)%Z.
Proof.
  destruct (build_rework_task 1 "build it" [("overall", PStr "fail")] "r2" "broken" None) as [t|] eqn:Ht;
    [|vm_compute in Ht; discriminate Ht].
  exists t. split; [done|]. apply (proj2 (rework_task_bounded _ _ _ _ _ _ _ Ht)). vm_compute. discriminate.
Defined.

Definition sample_ids (i : nat) : string := "a" +:+ pretty (i + 1).

Lemma append_review_iteration_spec_witness :
  exists state' r, append_review_iteration (reviewed_state []) "p1" 2 PNone None sample_ids "now" = Ok (state', inr r) /\
    exists steps new, appended (reviewed_state []) state' "p1" 2 PNone sample_ids r steps new.
Proof.
  destruct (append_review_iteration (reviewed_state []) "p1" 2 PNone None sample_ids "now") as [[state' [x|r]]|] eqn:Ha;
    [vm_compute in Ha; discriminate Ha| |vm_compute in Ha; discriminate Ha].
  exists state', r. split; [done|]. exact (append_review_iteration_spec _ _ _ _ _ _ _ _ _ Ha).
Defined.

Lemma review_rounds_bounded_witness :
  exists steps t, rework_run "p1" 2 reviewed_steps steps [t] /\ (plan_review_rounds steps <= 2)%Z.
Proof.
  destruct (append_review_iteration (reviewed_state []) "p1" 2 PNone None sample_ids "now") as [[state' [x|r]]|] eqn:Ha;
    [vm_compute in Ha; discriminate Ha| |vm_compute in Ha; discriminate Ha].
  destruct (append_appended _ _ _ _ _ _ _ _ _ Ha) as (steps & new & Had).
  assert (Hrun : rework_run "p1" 2 reviewed_steps (steps ++ (PDict <$> new)) [ap_triggered_by r]).
  { eapply run_round; [constructor| |exact Ha|exact (ad_after _ _ _ _ _ _ _ _ _ Had)].
    eexists. split; vm_compute; reflexivity. }
  exists (steps ++ (PDict <$> new)), (ap_triggered_by r). split; [done|].
  apply (proj1 (proj2 (review_rounds_bounded _ _ _ _ _ Hrun))). discriminate.
Defined.

Lemma select_plan_verdict_reviewers_witness :
  exists s, select_plan_verdict (reviewed_state []) "p1" (PList reviewed_steps) true = Ok (Some s) /\
    exists a r : dict, s_approval s = Some a /\ dget "plan_id" a = PStr "p1" /\ dget "verdict" r = PDict (s_verdict s).
Proof.
  destruct (select_plan_verdict (reviewed_state []) "p1" (PList reviewed_steps) true) as [[s|]|] eqn:Hs;
    [|vm_compute in Hs; discriminate Hs|vm_compute in Hs; discriminate Hs].
  exists s. split; [done|]. destruct (select_plan_verdict_reviewers _ _ _ _ _ Hs) as [H1 _].
  destruct (H1 ltac:(vm_compute; reflexivity)) as (_ & _ & a & r & _ & _ & H2 & _ & H3 & _ & H4 & _).
  by exists a, r.
Defined.

Lemma refined_task_accepted_witness :
  exists t, validate_refined_task (PStr " fix the parser ") = Ok t /\ valid_override t = true.
Proof.
  destruct (validate_refined_task (PStr " fix the parser ")) as [t|] eqn:Ht; [|vm_compute in Ht; discriminate Ht].
  exists t. split; [done|]. apply (refined_task_accepted _ _ Ht).
Defined.
