(* ===== verification/Lease.v ===== *)
(** * Controller leases ([daemon/lease.py])

    Granting, renewing, expiring, releasing and taking over the single
    controller lease; the validation of a lease, of a controller token and of a
    persisted transition; the audit events and the registry of authorised
    transitions.

    An aware [datetime] is its UTC instant in microseconds since year 1; it may
    lie outside years 1 to 9999, and then [astimezone(utc)] overflows.  The
    text form of an instant ([isoformat]; [fromisoformat] of an aware text),
    SHA-256 and [json.dumps] are parameters ([LeaseEnv]) with the laws the code
    relies on ([LeaseEnvLaws]); the random part of an identity and the [id()]
    of a new object are arguments.  A string holds no surrogate and a float is
    finite, so the checks of [_freeze_json] on those always pass here. *)
From S2P Require Import Prelude PyStr PyVal.

Class LeaseEnv := {
  isoformat : Z -> string;
  fromisoformat : string -> option Z;
  sha256_hex : string -> string;
  json_dumps : pyval -> string
}.

(** The representable instants: years 1 to 9999. *)
Definition MAX_INSTANT : Z := 315537897599999999.
Definition representable (t : Z) : bool := (0 <=? t)%Z && (t <=? MAX_INSTANT)%Z.

Class LeaseEnvLaws `{LeaseEnv} := {
  isoformat_parse : forall t, representable t = true -> fromisoformat (isoformat t) = Some t;
  sha256_hex_form : forall s, String.length (sha256_hex s) = 64 /\ all_ascii is_lower_hex (sha256_hex s) = true
}.

Definition lease_error {A} (msg : string) : result A := Err (LeaseError msg).

(** ** Identities *)

Definition is_alnum (c : Ascii.ascii) : bool :=
  let n := byte_of c in
  ((48 <=? n) && (n <=? 57) || (65 <=? n) && (n <=? 90) || (97 <=? n) && (n <=? 122))%N.
Definition is_id_char (c : Ascii.ascii) : bool :=
  is_alnum c || let n := byte_of c in ((n =? 46) || (n =? 95) || (n =? 58) || (n =? 45))%N.

(** [_CLIENT_ID], [_ACTIVE_LEASE_ID], [_TERMINAL_LEASE_ID], [_SHA256] *)
Definition client_id_form (s : string) : bool :=
  match s with
  | String c r => is_alnum c && all_ascii is_id_char r && (String.length r <=? 127)
  | EmptyString => false
  end.
Definition active_lease_id (s : string) : bool := hex_id "lse_" 24 s.
Definition terminal_lease_id (s : string) : bool := hex_id "lst_" 24 s.
Definition is_sha256 (s : string) : bool := hex_id "" 64 s.
Definition event_id_form (s : string) : bool := hex_id "evt_" 24 s.

(** [s[:24]] on ASCII text. *)
Definition first24 (s : string) : string := String.substring 0 24 s.

(** ** Data *)

Record ControllerLease := {
  lease_id : string; client_id : string; issued_at : string; expires_at : string; last_renewed_at : string;
  generation : Z
}.
#[export] Instance ControllerLease_eq_dec : EqDecision ControllerLease.
Proof. solve_decision. Defined.

Definition summary (l : ControllerLease) : dict :=
  [("lease_id", PStr (lease_id l)); ("client_id", PStr (client_id l)); ("issued_at", PStr (issued_at l));
   ("expires_at", PStr (expires_at l)); ("last_renewed_at", PStr (last_renewed_at l));
   ("generation", PInt (generation l))].

Record ObserverRegistration := { observer_id : string; registered_at : string; can_mutate : bool }.

Record TakeoverPreview := {
  requester : string; current_lease_id : string; current_generation : Z; previewed_at : string; digest : string
}.

(** An audit event; [ev_factory] says that its capability is the factory's token. *)
Record LeaseAuditEvent := {
  event_id : string; event_type : string; created_at : string; payload : dict; ev_factory : bool
}.

(** A transition object; [identity] is its [id()], [factory] as above. *)
Record LeaseTransition := {
  identity : nat; action : string; previous : option ControllerLease; current : option ControllerLease;
  audit_event : LeaseAuditEvent; factory : bool
}.

(** [_AUTHORIZED_TRANSITIONS] restricted to its live references: by identity,
    the authorization text and the fingerprint taken at registration.  The
    weak-reference callback [discard] deletes the entry of a collected object. *)
Notation registry := (gmap nat (string * string)).
Definition discard (i : nat) (reg : registry) : registry := delete i reg.

(** ** Time to live *)

(** Rounding of [m / 2^k] to an integer, ties to even. *)
Definition div_half_even (m k : Z) : Z :=
  let q := Z.shiftr m k in
  let r := (m - Z.shiftl q k)%Z in
  let twice := (2 * r)%Z in
  if (twice <? 2 ^ k)%Z then q
  else if (2 ^ k <? twice)%Z then (q + 1)%Z
  else if Z.even q then q else (q + 1)%Z.

(** A positive number [m * 2^e] rounded to a double (53 significant bits). *)
Definition to_double (m e : Z) : Z * Z :=
  let k := (Z.log2 m - 52)%Z in
  if (k <=? 0)%Z then (m, e) else (div_half_even m k, e + k)%Z.

(** [_ttl]: a positive finite float [m * 2^e]; [2^1024] and above overflow. *)
Definition _ttl (value : pyval) : result (Z * Z) :=
  let bad := lease_error "controller lease TTL must be a positive finite number" in
  match value with
  | PInt z =>
      if (z <=? 0)%Z then bad
      else let '(m, e) := to_double z 0 in
      if (1024 <=? Z.log2 m + e)%Z then bad else Ok (m, e)
  | PFloat m e => if (m <=? 0)%Z then bad else Ok (m, e)
  | _ => bad
  end.

(** [timedelta(seconds=x)] in microseconds, for [x = m * 2^e] positive: the whole
    seconds exactly, the fraction times [1e6] rounded to a double, then to the
    nearest integer with ties decided by the parity of the sum so far. *)
Definition timedelta_us (x : Z * Z) : Z :=
  let '(m, e) := x in
  if (0 <=? e)%Z then (m * 2 ^ e * 1000000)%Z
  else
    let k := (- e)%Z in
    let whole := Z.shiftr m k in
    let frac := (m - Z.shiftl whole k)%Z in
    if (frac =? 0)%Z then (whole * 1000000)%Z
    else
      let '(m', e') := to_double (frac * 1000000) e in
      let k' := (- e')%Z in
      let us := if (0 <=? e')%Z then (m' * 2 ^ e')%Z else Z.shiftr m' k' in
      let left := if (0 <=? e')%Z then 0%Z else (m' - Z.shiftl us k')%Z in
      let sum := (whole * 1000000 + us)%Z in
      if (2 * left <? 2 ^ k')%Z then sum
      else if (2 ^ k' <? 2 * left)%Z then (sum + 1)%Z
      else if Z.even sum then sum else (sum + 1)%Z.

Section lease.
Context {env : LeaseEnv}.

Definition _client_id (value : pyval) : result string :=
  match value with
  | PStr s => if client_id_form s then Ok s else lease_error "invalid client identity"
  | _ => lease_error "invalid client identity"
  end.

(** [_now]: [None] is a value that is not an aware [datetime]. *)
Definition _now (value : option Z) : result Z :=
  match value with
  | Some t => if representable t then Ok t else Err OverflowError
  | None => lease_error "time must be a timezone-aware datetime"
  end.

Definition _timestamp (t : Z) : string := isoformat t.

Definition _parse_timestamp (value : pyval) (field : string) : result Z :=
  let bad := lease_error ("invalid controller lease " +:+ field) in
  match value with
  | PStr s =>
      match fromisoformat s with
      | Some t => if representable t then Ok t else Err OverflowError
      | None => bad
      end
  | _ => bad
  end.

Definition _assert_not_backward (now baseline : Z) : result unit :=
  raise_if (now <? baseline)%Z (LeaseError "backward time is not allowed").

(** ** Validation of a lease *)

Definition check_lease_id (value : pyval) : result string :=
  match value with
  | PStr s => if active_lease_id s || terminal_lease_id s then Ok s
              else lease_error "invalid controller lease lease_id"
  | _ => lease_error "invalid controller lease lease_id"
  end.
Definition check_generation (value : pyval) : result Z :=
  match value with
  | PInt g => if (g <=? 0)%Z then lease_error "invalid controller lease generation" else Ok g
  | _ => lease_error "invalid controller lease generation"
  end.
Definition text_of (value : pyval) : string := match value with PStr s => s | _ => "" end.

(** [validate_controller_lease] on the fields of a lease object. *)
Definition validate_fields (d : dict) : result ControllerLease :=
  id ← check_lease_id (dget "lease_id" d);
  client ← _client_id (dget "client_id" d);
  gen ← check_generation (dget "generation" d);
  issued ← _parse_timestamp (dget "issued_at" d) "issued_at";
  renewed ← _parse_timestamp (dget "last_renewed_at" d) "last_renewed_at";
  expires ← _parse_timestamp (dget "expires_at" d) "expires_at";
  _ ← raise_if (renewed <? issued)%Z (LeaseError "invalid controller lease timestamp order");
  _ ← raise_if (expires <? issued)%Z (LeaseError "invalid controller lease timestamp order");
  _ ← raise_if (expires <? renewed)%Z (LeaseError "invalid controller lease timestamp order");
  Ok {| lease_id := id; client_id := client; issued_at := text_of (dget "issued_at" d);
        expires_at := text_of (dget "expires_at" d); last_renewed_at := text_of (dget "last_renewed_at" d);
        generation := gen |}.

Definition validate_controller_lease (l : ControllerLease) : result ControllerLease := validate_fields (summary l).

Definition _LEASE_FIELDS : list string :=
  ["lease_id"; "client_id"; "issued_at"; "expires_at"; "last_renewed_at"; "generation"].

Definition controller_lease_from_summary (value : pyval) : result (option ControllerLease) :=
  match value with
  | PNone => Ok None
  | PDict d => if keys_are _LEASE_FIELDS d then l ← validate_fields d; Ok (Some l)
               else lease_error "invalid persisted controller lease"
  | _ => lease_error "invalid persisted controller lease"
  end.

Definition _is_terminal_lease (l : ControllerLease) : bool := terminal_lease_id (lease_id l).

(** [hashlib.sha256(text.encode("ascii")).hexdigest()[:24]] *)
Definition _terminal_lease_id (l : ControllerLease) : string :=
  "lst_" +:+ first24 (sha256_hex ("controller-terminal:" +:+ lease_id l +:+ ":" +:+ pretty (generation l))).

(** ** The controller token *)

Definition validate_controller (lease : option ControllerLease) (id : pyval) (gen : pyval) (now : option Z)
    : result bool :=
  match lease with
  | None => lease_error "controller lease required"
  | Some l =>
      _ ← validate_controller_lease l;
      _ ← raise_if (_is_terminal_lease l) (LeaseError "controller lease expired");
      current_time ← _now now;
      _ ← (match id, gen with
           | PStr i, PInt g =>
               raise_if (negb (active_lease_id i) || negb (String.eqb (lease_id l) i) || negb (generation l =? g)%Z)
                 (LeaseError "stale controller lease")
           | _, _ => lease_error "stale controller lease"
           end);
      renewed ← _parse_timestamp (PStr (last_renewed_at l)) "last_renewed_at";
      _ ← _assert_not_backward current_time renewed;
      expires ← _parse_timestamp (PStr (expires_at l)) "expires_at";
      _ ← raise_if (expires <=? current_time)%Z (LeaseError "controller lease expired");
      Ok true
  end.

Definition controller_lease_is_active (value : pyval) (now : option Z) : bool :=
  match controller_lease_from_summary value with
  | Ok (Some l) =>
      if _is_terminal_lease l then false
      else is_ok (validate_controller (Some l) (PStr (lease_id l)) (PInt (generation l)) now)
  | _ => false
  end.


(** ** Frozen JSON *)

Fixpoint _freeze_json (depth : nat) (v : pyval) {struct v} : result pyval :=
  if 32 <? depth then lease_error "invalid daemon event outbox"
  else match v with
       | PList l => PTuple <$> mapR (_freeze_json (S depth)) l
       | PDict d => PDict <$> mapR (fun kv => pair kv.1 <$> _freeze_json (S depth) kv.2) d
       | PTuple _ => lease_error "invalid daemon event outbox"
       | v => Ok v
       end.

Fixpoint _thaw_json (v : pyval) : pyval :=
  match v with
  | PDict d => PDict (map (fun kv => (kv.1, _thaw_json kv.2)) d)
  | PTuple l => PList (map _thaw_json l)
  | v => v
  end.

(** [LeaseAuditEvent(...)] with [__post_init__]. *)
Definition audit_event_of (id ty at_ : string) (p : dict) : result LeaseAuditEvent :=
  frozen ← _freeze_json 0 (PDict p);
  match frozen with
  | PDict d => Ok {| event_id := id; event_type := ty; created_at := at_; payload := d; ev_factory := false |}
  | _ => lease_error "invalid controller lease audit payload"
  end.

Definition event_summary (e : LeaseAuditEvent) : dict :=
  [("event_id", PStr (event_id e)); ("event_type", PStr (event_type e)); ("created_at", PStr (created_at e));
   ("payload", _thaw_json (PDict (payload e)))].

Definition audit_action (act : string) : result string :=
  if String.eqb act "granted" then Ok "grant" else if String.eqb act "renewed" then Ok "renew"
  else if String.eqb act "expired" then Ok "expire" else if String.eqb act "released" then Ok "release"
  else if String.eqb act "taken_over" then Ok "takeover" else Err (KeyError act).

Definition audit_payload (act : string) (l : ControllerLease) : dict :=
  [("action", PStr act); ("client_id", PStr (client_id l)); ("generation", PInt (generation l));
   ("lease_id", PStr (lease_id l))].

Definition expire_event_id (l : ControllerLease) : string :=
  "evt_" +:+ first24 (sha256_hex ("controller-expire:" +:+ lease_id l +:+ ":" +:+ pretty (generation l))).

Definition _event (hex act : string) (l : ControllerLease) (now : Z) : result LeaseAuditEvent :=
  audit ← audit_action act;
  e ← audit_event_of (if String.eqb act "expired" then expire_event_id l else "evt_" +:+ first24 hex)
        ("controller_lease_" +:+ act) (_timestamp now) (audit_payload audit l);
  Ok {| event_id := event_id e; event_type := event_type e; created_at := created_at e; payload := payload e;
        ev_factory := true |}.

(** ** Transitions and their registry *)

Definition lease_value (l : option ControllerLease) : pyval :=
  match l with Some l => PDict (summary l) | None => PNone end.

Definition fingerprint_doc (t : LeaseTransition) (auth : string) : pyval :=
  PDict [("action", PStr (action t)); ("previous", lease_value (previous t)); ("current", lease_value (current t));
         ("audit_event", PDict (event_summary (audit_event t))); ("authorization", PStr auth)].
Definition _transition_fingerprint (t : LeaseTransition) (auth : string) : string :=
  sha256_hex (json_dumps (fingerprint_doc t auth)).

Definition _transition (reg : registry) (ident : nat) (act : string) (prev : option ControllerLease)
    (cur : ControllerLease) (ev : LeaseAuditEvent) (facts : dict) : registry * LeaseTransition :=
  let t := {| identity := ident; action := act; previous := prev; current := Some cur; audit_event := ev;
              factory := true |} in
  let auth := json_dumps (PDict facts) in
  (<[ident := (auth, _transition_fingerprint t auth)]> reg, t).

Definition _transition_is_authorized (reg : registry) (t : LeaseTransition) : bool :=
  match reg !! identity t with
  | Some (auth, expected) => String.eqb expected (_transition_fingerprint t auth)
  | None => false
  end.

(** ** Operations *)

Definition plus_ttl (now : Z) (ttl : Z * Z) : result string :=
  let t := (now + timedelta_us ttl)%Z in
  if representable t then Ok (_timestamp t) else lease_error "controller lease TTL is not representable".

Definition _new_lease (hex client : string) (now : Z) (ttl : Z * Z) (gen : Z) : result ControllerLease :=
  expires ← plus_ttl now ttl;
  Ok {| lease_id := "lse_" +:+ first24 hex; client_id := client; issued_at := _timestamp now;
        expires_at := expires; last_renewed_at := _timestamp now; generation := gen |}.

Definition register_observer (client : pyval) (now : option Z) : result ObserverRegistration :=
  id ← _client_id client;
  t ← _now now;
  Ok {| observer_id := id; registered_at := _timestamp t; can_mutate := false |}.

(** The identities drawn by an operation: [id()] of the new transition and the
    two [uuid4().hex] of the lease and of the event. *)
Record fresh := { f_ident : nat; f_lease : string; f_event : string }.

Definition grant_controller (reg : registry) (f : fresh) (client : pyval) (now : option Z) (ttl_seconds : pyval)
    (prev : option ControllerLease) : result (registry * LeaseTransition) :=
  req ← _client_id client;
  current_time ← _now now;
  ttl ← _ttl ttl_seconds;
  _ ← (match prev with
       | None => Ok tt
       | Some p =>
           _ ← validate_controller_lease p;
           last_time ← _parse_timestamp (PStr (last_renewed_at p)) "last_renewed_at";
           _ ← _assert_not_backward current_time last_time;
           expires ← _parse_timestamp (PStr (expires_at p)) "expires_at";
           raise_if (current_time <? expires)%Z (LeaseError "controller lease is already held")
       end);
  let gen := match prev with None => 1%Z | Some p => (generation p + 1)%Z end in
  lease ← _new_lease (f_lease f) req current_time ttl gen;
  ev ← _event (f_event f) "granted" lease current_time;
  Ok (_transition reg (f_ident f) "grant" prev lease ev [("client_id", PStr req); ("kind", PStr "grant")]).

Definition renew_controller (reg : registry) (f : fresh) (cur : ControllerLease) (id gen : pyval) (now : option Z)
    (ttl_seconds : pyval) : result (registry * LeaseTransition) :=
  current_time ← _now now;
  _ ← validate_controller (Some cur) id gen (Some current_time);
  ttl ← _ttl ttl_seconds;
  expires ← plus_ttl current_time ttl;
  let renewed := {| lease_id := lease_id cur; client_id := client_id cur; issued_at := issued_at cur;
                    expires_at := expires; last_renewed_at := _timestamp current_time;
                    generation := generation cur |} in
  ev ← _event (f_event f) "renewed" renewed current_time;
  Ok (_transition reg (f_ident f) "renew" (Some cur) renewed ev
        [("generation", gen); ("kind", PStr "renew"); ("lease_id", id)]).

Definition with_lease_id (id : string) (l : ControllerLease) : ControllerLease :=
  {| lease_id := id; client_id := client_id l; issued_at := issued_at l; expires_at := expires_at l;
     last_renewed_at := last_renewed_at l; generation := generation l |}.

Definition expire_controller (reg : registry) (f : fresh) (cur : ControllerLease) (now : option Z)
    : result (registry * LeaseTransition) :=
  _ ← validate_controller_lease cur;
  _ ← raise_if (_is_terminal_lease cur) (LeaseError "terminal controller lease cannot expire again");
  current_time ← _now now;
  renewed ← _parse_timestamp (PStr (last_renewed_at cur)) "last_renewed_at";
  _ ← _assert_not_backward current_time renewed;
  expires ← _parse_timestamp (PStr (expires_at cur)) "expires_at";
  _ ← raise_if (current_time <? expires)%Z (LeaseError "controller lease has not expired");
  ev ← _event (f_event f) "expired" cur current_time;
  Ok (_transition reg (f_ident f) "expire" (Some cur) (with_lease_id (_terminal_lease_id cur) cur) ev
        [("expired_at", PStr (_timestamp current_time)); ("generation", PInt (generation cur));
         ("kind", PStr "expire"); ("lease_id", PStr (lease_id cur))]).

Definition release_controller (reg : registry) (f : fresh) (cur : ControllerLease) (id gen : pyval) (now : option Z)
    : result (registry * LeaseTransition) :=
  current_time ← _now now;
  _ ← validate_controller (Some cur) id gen (Some current_time);
  let released := {| lease_id := lease_id cur; client_id := client_id cur; issued_at := issued_at cur;
                     expires_at := _timestamp current_time; last_renewed_at := last_renewed_at cur;
                     generation := generation cur |} in
  ev ← _event (f_event f) "released" released current_time;
  Ok (_transition reg (f_ident f) "release" (Some cur) released ev
        [("generation", gen); ("kind", PStr "release"); ("lease_id", id)]).

(** ** Takeover *)

Definition _takeover_digest (cur : ControllerLease) (req at_ : string) : string :=
  sha256_hex (json_dumps (PDict [("current", PDict (summary cur)); ("previewed_at", PStr at_); ("requester", PStr req)])).

Definition preview_takeover (cur : ControllerLease) (req : pyval) (now : option Z) : result TakeoverPreview :=
  _ ← validate_controller_lease cur;
  _ ← raise_if (_is_terminal_lease cur) (LeaseError "terminal controller lease cannot be taken over");
  requester_id ← _client_id req;
  current_time ← _now now;
  renewed ← _parse_timestamp (PStr (last_renewed_at cur)) "last_renewed_at";
  _ ← _assert_not_backward current_time renewed;
  _ ← raise_if (String.eqb requester_id (client_id cur)) (LeaseError "takeover requester already controls the lease");
  let at_ := _timestamp current_time in
  Ok {| requester := requester_id; current_lease_id := lease_id cur; current_generation := generation cur;
        previewed_at := at_; digest := _takeover_digest cur requester_id at_ |}.

(** The [try] block: a [LeaseError] of the preview time is a mismatch. *)
Definition confirmation_matches (cur : ControllerLease) (c : TakeoverPreview) (requester_id : string) (now : Z)
    : result bool :=
  match _parse_timestamp (PStr (previewed_at c)) "takeover preview time" with
  | Ok preview_time =>
      renewed ← _parse_timestamp (PStr (last_renewed_at cur)) "last_renewed_at";
      Ok (String.eqb (requester c) requester_id && String.eqb (current_lease_id c) (lease_id cur)
          && (current_generation c =? generation cur)%Z && is_sha256 (digest c)
          && String.eqb (_takeover_digest cur requester_id (previewed_at c)) (digest c)
          && (renewed <=? preview_time)%Z && (preview_time <=? now)%Z
          && negb (String.eqb requester_id (client_id cur)))
  | Err (LeaseError _) => Ok false
  | Err e => Err e
  end.

Definition confirm_takeover (reg : registry) (f : fresh) (cur : ControllerLease) (c : TakeoverPreview) (req : pyval)
    (now : option Z) (ttl_seconds : pyval) : result (registry * LeaseTransition) :=
  _ ← validate_controller_lease cur;
  requester_id ← _client_id req;
  current_time ← _now now;
  renewed ← _parse_timestamp (PStr (last_renewed_at cur)) "last_renewed_at";
  _ ← _assert_not_backward current_time renewed;
  matches ← confirmation_matches cur c requester_id current_time;
  _ ← raise_if (negb matches) (LeaseError "takeover confirmation mismatch");
  ttl ← _ttl ttl_seconds;
  taken ← _new_lease (f_lease f) requester_id current_time ttl (generation cur + 1)%Z;
  ev ← _event (f_event f) "taken_over" taken current_time;
  Ok (_transition reg (f_ident f) "takeover" (Some cur) taken ev
        [("confirmed_by", PStr requester_id); ("kind", PStr "takeover");
         ("preview", PDict [("current_generation", PInt (current_generation c));
                            ("current_lease_id", PStr (current_lease_id c)); ("digest", PStr (digest c));
                            ("previewed_at", PStr (previewed_at c)); ("requester", PStr (requester c))])]).

(** ** Validation of a persisted transition *)

Definition expected_event_type (act : string) : option string :=
  if String.eqb act "grant" then Some "controller_lease_granted"
  else if String.eqb act "renew" then Some "controller_lease_renewed"
  else if String.eqb act "expire" then Some "controller_lease_expired"
  else if String.eqb act "release" then Some "controller_lease_released"
  else if String.eqb act "takeover" then Some "controller_lease_taken_over" else None.

(** The edge table.  The time stamps read here were parsed by the validation
    of the two leases, so reading them first raises nothing. *)
Definition valid_edge (act : string) (prev : option ControllerLease) (cur : ControllerLease) (at_ : string)
    (event_time : Z) : result bool :=
  expires ← _parse_timestamp (PStr (expires_at cur)) "expires_at";
  match prev with
  | None =>
      Ok (String.eqb act "grant" && (generation cur =? 1)%Z && String.eqb (issued_at cur) at_
          && String.eqb (last_renewed_at cur) at_ && (event_time <? expires)%Z)
  | Some p =>
      p_renewed ← _parse_timestamp (PStr (last_renewed_at p)) "last_renewed_at";
      p_expires ← _parse_timestamp (PStr (expires_at p)) "expires_at";
      Ok (if String.eqb act "renew" then
            String.eqb (lease_id cur) (lease_id p) && String.eqb (client_id cur) (client_id p)
            && (generation cur =? generation p)%Z && String.eqb (issued_at cur) (issued_at p)
            && String.eqb (last_renewed_at cur) at_ && (p_renewed <=? event_time)%Z
            && (event_time <? p_expires)%Z && (event_time <? expires)%Z
          else if String.eqb act "expire" then
            negb (_is_terminal_lease p) && bool_decide (cur = with_lease_id (_terminal_lease_id p) p)
            && (p_expires <=? event_time)%Z
          else if String.eqb act "release" then
            String.eqb (lease_id cur) (lease_id p) && String.eqb (client_id cur) (client_id p)
            && (generation cur =? generation p)%Z && String.eqb (issued_at cur) (issued_at p)
            && String.eqb (last_renewed_at cur) (last_renewed_at p) && String.eqb (expires_at cur) at_
            && (p_renewed <=? event_time)%Z && (event_time <? p_expires)%Z
          else if String.eqb act "grant" || String.eqb act "takeover" then
            (generation cur =? generation p + 1)%Z && negb (String.eqb (lease_id cur) (lease_id p))
            && String.eqb (issued_at cur) at_ && String.eqb (last_renewed_at cur) at_
            && (event_time <? expires)%Z && (p_renewed <=? event_time)%Z
            && (String.eqb act "takeover" || (p_expires <=? event_time)%Z)
          else false)
  end.

Definition validate_lease_transition (reg : registry) (persisted : pyval) (t : LeaseTransition)
    : result LeaseTransition :=
  _ ← raise_if (negb (factory t) || negb (_transition_is_authorized reg t))
        (LeaseError "invalid controller lease transition");
  prev ← controller_lease_from_summary persisted;
  _ ← raise_if (negb (bool_decide (previous t = prev))) (LeaseError "stale controller lease");
  cur ← (match current t with
         | Some c => validate_controller_lease c
         | None => lease_error "invalid controller lease transition"
         end);
  match expected_event_type (action t) with
  | None => lease_error "invalid controller lease transition"
  | Some ty =>
      let ev := audit_event t in
      _ ← raise_if (negb (ev_factory ev)) (LeaseError "invalid controller lease audit event");
      event_time ← _parse_timestamp (PStr (created_at ev)) "audit time";
      _ ← raise_if (negb (String.eqb (event_type ev) ty) || negb (event_id_form (event_id ev)))
            (LeaseError "invalid controller lease audit event");
      match (if String.eqb (action t) "expire" then prev else Some cur) with
      | None => Err AssertionError
      | Some audit_lease =>
          _ ← raise_if (negb (py_eq (PDict (payload ev)) (PDict (audit_payload (action t) audit_lease))))
                (LeaseError "invalid controller lease audit event");
          ok ← valid_edge (action t) prev cur (created_at ev) event_time;
          _ ← raise_if (negb ok) (LeaseError "invalid controller lease transition");
          Ok t
      end
  end.

(** ** The event outbox *)

Definition event_id_chars (s : string) : bool :=
  match drop_prefix "evt_" s with Some r => client_id_form r | None => false end.
Definition is_type_char (c : Ascii.ascii) : bool :=
  let n := byte_of c in ((97 <=? n) && (n <=? 122) || (48 <=? n) && (n <=? 57) || (n =? 95))%N.
Definition event_type_form (s : string) : bool :=
  match s with
  | String c r => let n := byte_of c in
                  ((97 <=? n) && (n <=? 122))%N && all_ascii is_type_char r && (String.length r <=? 127)
  | EmptyString => false
  end.

Definition _EVENT_FIELDS : list string := ["event_id"; "event_type"; "created_at"; "payload"].

Definition validate_daemon_event_record (value : pyval) : result string :=
  let bad := lease_error "invalid daemon event record" in
  match value with
  | PDict d =>
      if negb (keys_are _EVENT_FIELDS d) then bad
      else match dget "event_id" d, dget "event_type" d, dget "payload" d with
           | PStr id, PStr ty, PDict p =>
               if negb (event_id_chars id) || negb (event_type_form ty) then bad
               else match (_ ← _parse_timestamp (dget "created_at" d) "daemon event created_at";
                           _freeze_json 0 (PDict p)) with
                    | Ok _ => Ok id
                    | Err (LeaseError _) => bad
                    | Err e => Err e
                    end
           | _, _, _ => bad
           end
  | _ => bad
  end.

Definition validate_daemon_event_outbox (value : pyval) : result (list string) :=
  match value with
  | PList l =>
      ids ← mapR (fun item => match validate_daemon_event_record item with
                              | Err (LeaseError _) => lease_error "invalid daemon event outbox item"
                              | r => r
                              end) l;
      if bool_decide (NoDup ids) then Ok ids else Err (ValueError "duplicate daemon event identity")
  | _ => Err (TypeError "daemon_event_outbox must be a list")
  end.


(** ** Abstract specification

    A step of the persisted lease, by action, at an instant. *)

Definition instant (s : string) : option Z :=
  match fromisoformat s with Some t => if representable t then Some t else None | None => None end.

(** What a well-formed lease is. *)
Definition lease_ok (l : ControllerLease) : Prop :=
  (active_lease_id (lease_id l) = true \/ terminal_lease_id (lease_id l) = true)
  /\ client_id_form (client_id l) = true /\ (0 < generation l)%Z
  /\ exists i r e, instant (issued_at l) = Some i /\ instant (last_renewed_at l) = Some r
     /\ instant (expires_at l) = Some e /\ (i <= r <= e)%Z.

Inductive lease_step : string -> option ControllerLease -> Z -> ControllerLease -> Prop :=
| step_first l now e :
    generation l = 1%Z ->
    instant (issued_at l) = Some now -> instant (last_renewed_at l) = Some now ->
    instant (expires_at l) = Some e -> (now < e)%Z ->
    lease_step "grant" None now l
| step_new act p l now r pe e :
    act = "grant" /\ (pe <= now)%Z \/ act = "takeover" ->
    generation l = (generation p + 1)%Z -> lease_id l <> lease_id p ->
    instant (issued_at l) = Some now -> instant (last_renewed_at l) = Some now ->
    instant (expires_at l) = Some e -> (now < e)%Z ->
    instant (last_renewed_at p) = Some r -> (r <= now)%Z -> instant (expires_at p) = Some pe ->
    lease_step act (Some p) now l
| step_renew p l now r pe e :
    lease_id l = lease_id p -> client_id l = client_id p -> generation l = generation p ->
    issued_at l = issued_at p -> instant (last_renewed_at l) = Some now ->
    instant (last_renewed_at p) = Some r -> instant (expires_at p) = Some pe -> (r <= now < pe)%Z ->
    instant (expires_at l) = Some e -> (now < e)%Z ->
    lease_step "renew" (Some p) now l
| step_release p l now r pe :
    lease_id l = lease_id p -> client_id l = client_id p -> generation l = generation p ->
    issued_at l = issued_at p -> last_renewed_at l = last_renewed_at p ->
    instant (last_renewed_at p) = Some r -> instant (expires_at p) = Some pe -> (r <= now < pe)%Z ->
    instant (expires_at l) = Some now ->
    lease_step "release" (Some p) now l
| step_expire p now pe :
    _is_terminal_lease p = false -> instant (expires_at p) = Some pe -> (pe <= now)%Z ->
    lease_step "expire" (Some p) now (with_lease_id (_terminal_lease_id p) p).

(** A transition of action [act] from the persisted lease [p] to [l] at [now]
    that the code's own validation accepts. *)
Definition accepted_step (act : string) (p : ControllerLease) (now : Z) (l : ControllerLease) : Prop :=
  exists reg t, validate_lease_transition reg (lease_value (Some p)) t = Ok t
    /\ action t = act /\ current t = Some l /\ instant (created_at (audit_event t)) = Some now.

(** Accepted transitions in chronological order. *)
Inductive later : Z -> ControllerLease -> Z -> ControllerLease -> Prop :=
| later_refl now l : later now l now l
| later_step t l now l' act now' l'' :
    later t l now l' -> (now <= now')%Z -> accepted_step act l' now' l'' -> later t l now' l''.

(** The token [(id, gen)] controls the lease at [now]. *)
Definition token_ok (l : ControllerLease) (id : string) (gen now : Z) : Prop :=
  validate_controller (Some l) (PStr id) (PInt gen) (Some now) = Ok true.

(** ** Lemmas *)

Lemma parse_instant s f t : _parse_timestamp (PStr s) f = Ok t <-> instant s = Some t.
Proof.
  cbn [_parse_timestamp]. unfold instant. destruct (fromisoformat s) as [u|]; [|done].
  destruct (representable u); naive_solver.
Qed.

Lemma parse_instant_2 s f t : instant s = Some t -> _parse_timestamp (PStr s) f = Ok t.
Proof. apply parse_instant. Qed.

Lemma validate_lease_iff l l' : validate_controller_lease l = Ok l' <-> l' = l /\ lease_ok l.
Proof.
  destruct l as [id client issued expires renewed gen].
  unfold validate_controller_lease, validate_fields, lease_ok. cbn -[_parse_timestamp String.eqb].
  unfold dget. cbn [dlookup summary String.eqb Ascii.eqb Bool.eqb lease_id client_id issued_at expires_at
    last_renewed_at generation text_of check_lease_id _client_id check_generation].
  split.
  - intros H. inv_ok. destruct (active_lease_id id || terminal_lease_id id) eqn:Hid; [|discriminate].
    destruct (client_id_form client) eqn:Hc; [|discriminate].
    destruct (gen <=? 0)%Z eqn:Hpos; [discriminate|]. inv_ok.
    repeat match goal with H : _parse_timestamp _ _ = Ok _ |- _ => apply parse_instant in H end.
    split_guards. apply orb_true_iff in Hid.
    split; [done|]. do 3 (split; [done || lia|]). eexists _, _, _; repeat (split; [eassumption|]). lia.
  - intros (-> & Hid & Hc & Hg & i & r & e & Hi & Hr & He & Hord).
    apply orb_true_iff in Hid. rewrite Hid, Hc. cbn [mbind result_bind].
    replace (gen <=? 0)%Z with false by lia. cbn [mbind result_bind].
    rewrite (parse_instant_2 _ _ _ Hi), (parse_instant_2 _ _ _ Hr), (parse_instant_2 _ _ _ He).
    cbn [mbind result_bind]. unfold raise_if.
    replace (r <? i)%Z with false by lia. replace (e <? i)%Z with false by lia.
    by replace (e <? r)%Z with false by lia.
Qed.

Lemma validate_fields_ok d l : validate_fields d = Ok l -> lease_ok l.
Proof.
  unfold validate_fields, lease_ok. intros H. inv_ok. cbn.
  unfold check_lease_id, _client_id, check_generation in *.
  repeat match goal with
  | H : match ?v with _ => _ end = Ok _ |- _ => destruct v eqn:?; try discriminate
  | H : (if ?b then _ else _) = Ok _ |- _ => destruct b eqn:?; try discriminate
  end; inv_ok.
  assert (Hts : forall v f t, _parse_timestamp v f = Ok t -> instant (text_of v) = Some t).
  { intros [] f t; try discriminate. apply parse_instant. }
  split; [by apply orb_true_iff|]. split; [done|]. split_guards. split; [lia|].
  eexists _, _, _. split; [by eapply Hts|]. split; [by eapply Hts|]. split; [by eapply Hts|]. lia.
Qed.

Lemma from_summary_ok v l : controller_lease_from_summary v = Ok (Some l) -> lease_ok l.
Proof.
  destruct v; cbn; try discriminate. destruct (keys_are _ _); [|discriminate].
  intros H. inv_ok. simplify_eq. by eapply validate_fields_ok.
Qed.

(** A lease and its persisted form. *)
Lemma from_summary_value l : lease_ok l -> controller_lease_from_summary (lease_value (Some l)) = Ok (Some l).
Proof.
  intros Hl. cbn [lease_value controller_lease_from_summary].
  replace (keys_are _LEASE_FIELDS (summary l)) with true by done.
  change (validate_fields (summary l)) with (validate_controller_lease l).
  by rewrite (proj2 (validate_lease_iff l l) (conj eq_refl Hl)).
Qed.

Lemma valid_edge_step act prev l at_ now ok :
  valid_edge act prev l at_ now = Ok ok -> instant at_ = Some now ->
  is_Some (expected_event_type act) -> ok = true -> lease_step act prev now l.
Proof.
  intros Hv Hat Hact ->. unfold valid_edge in Hv. destruct prev as [p|]; inv_ok;
    repeat match goal with H : _parse_timestamp _ _ = Ok _ |- _ => apply parse_instant in H end.
  - destruct (String.eqb_spec act "renew") as [->|].
    { split_guards. eapply step_renew; eauto; congruence || lia. }
    destruct (String.eqb_spec act "expire") as [->|].
    { split_guards. subst l. eapply step_expire; eauto. }
    destruct (String.eqb_spec act "release") as [->|].
    { split_guards. eapply step_release; eauto; congruence || lia. }
    destruct (String.eqb act "grant" || String.eqb act "takeover") eqn:Hgt; [|discriminate].
    split_guards.
    eapply (step_new act p l now); eauto; try congruence.
    match goal with H : String.eqb act "takeover" || _ = true |- _ => apply orb_true_iff in H as [H|H] end;
      split_guards; [by right|].
    apply orb_true_iff in Hgt as [Hgt|Hgt]; split_guards; [left; by split|by right].
  - split_guards. subst act. eapply step_first; eauto; congruence || lia.
Qed.

(** Only an authorised transition of the persisted lease validates, and it is a
    step of the abstract lease. *)
Lemma validate_transition_inv reg v t r :
  validate_lease_transition reg v t = Ok r ->
  r = t /\ factory t = true /\ _transition_is_authorized reg t = true
  /\ controller_lease_from_summary v = Ok (previous t)
  /\ exists l ty now, current t = Some l /\ lease_ok l /\ expected_event_type (action t) = Some ty
     /\ instant (created_at (audit_event t)) = Some now /\ event_type (audit_event t) = ty
     /\ event_id_form (event_id (audit_event t)) = true
     /\ (exists audited, (if String.eqb (action t) "expire" then previous t else Some l) = Some audited
         /\ py_eq (PDict (payload (audit_event t))) (PDict (audit_payload (action t) audited)) = true)
     /\ lease_step (action t) (previous t) now l.
Proof.
  unfold validate_lease_transition. intros H. inv_ok. split_guards.
  destruct (current t) as [c|] eqn:Hc; [|discriminate].
  match goal with H : validate_controller_lease c = Ok _ |- _ => apply validate_lease_iff in H as [-> Hl] end.
  destruct (expected_event_type (action t)) as [ty|] eqn:Hty; [|discriminate]. inv_ok.
  destruct (if String.eqb (action t) "expire" then _ else _) as [audited|] eqn:Ha; [|discriminate]. inv_ok.
  split_guards. subst.
  match goal with H : _parse_timestamp _ _ = Ok _ |- _ => apply parse_instant in H end.
  split; [done|]. split; [done|]. split; [done|].
  split; [done|]. eexists c, _, _. split; [done|]. split; [done|]. split; [done|].
  split; [eassumption|]. split; [done|]. split; [done|]. split; [by exists audited|].
  eapply valid_edge_step; eauto.
Qed.

Lemma accepted_lease_step act p now l : accepted_step act p now l -> lease_step act (Some p) now l.
Proof.
  intros (reg & t & Hv & <- & Hc & Hnow).
  apply validate_transition_inv in Hv as (_ & _ & _ & Hp & l' & ty & now' & Hc' & _ & _ & Hnow' & _ & _ & _ & Hs).
  cbn [lease_value controller_lease_from_summary] in Hp.
  destruct (keys_are _LEASE_FIELDS (summary p)); [|discriminate].
  apply bind_Ok in Hp as (p' & Hp' & Hprev). apply validate_lease_iff in Hp' as [-> _].
  injection Hprev as Hprev. rewrite <- Hprev in Hs. by simplify_eq.
Qed.

(** *** Identities *)

(** [uuid4().hex] and a hexadecimal digest: at least 24 lowercase digits. *)
Definition hex_text (s : string) : Prop := 24 <= String.length s /\ all_ascii is_lower_hex s = true.

Lemma substring_hex n s :
  n <= String.length s -> all_ascii is_lower_hex s = true ->
  String.length (String.substring 0 n s) = n /\ all_ascii is_lower_hex (String.substring 0 n s) = true.
Proof.
  revert s; induction n as [|n IH]; intros [|c s]; cbn; try done; try lia.
  intros Hn [-> Hs]%andb_true_iff. destruct (IH s) as [-> ->]; [lia|done|done].
Qed.

Lemma first24_form p s : hex_text s -> hex_id p 24 (p +:+ first24 s) = true.
Proof.
  intros [Hn Hs]. unfold hex_id. rewrite (proj2 (drop_prefix_spec p _ (first24 s)) eq_refl).
  destruct (substring_hex 24 s Hn Hs) as [Hl Hh]. unfold first24. by rewrite Hl, Hh.
Qed.

Lemma terminal_not_active s : terminal_lease_id s = true -> active_lease_id s = false.
Proof.
  unfold terminal_lease_id, active_lease_id, hex_id.
  destruct (drop_prefix "lst_" s) as [r|] eqn:Ht; [|done]. intros _.
  apply drop_prefix_spec in Ht as ->. done.
Qed.

Definition event_record (id ty : string) (now : Z) (p : dict) : LeaseAuditEvent :=
  {| event_id := id; event_type := ty; created_at := _timestamp now; payload := p; ev_factory := true |}.

Lemma event_Ok hex act l now ev :
  _event hex act l now = Ok ev ->
  exists a, audit_action act = Ok a
    /\ ev = event_record (if String.eqb act "expired" then expire_event_id l else "evt_" +:+ first24 hex)
              ("controller_lease_" +:+ act) now (audit_payload a l).
Proof. unfold _event. intros H. inv_ok. eexists; split; [eassumption|]. cbn in *. inv_ok. done. Qed.

(** *** Factory transitions validate *)

Definition audited (act : string) (prev : option ControllerLease) (cur : ControllerLease) : option ControllerLease :=
  if String.eqb act "expire" then prev else Some cur.

Lemma payload_eq_refl act l : py_eq (PDict (audit_payload act l)) (PDict (audit_payload act l)) = true.
Proof.
  pose proof (num_eqb_refl (generation l, 0%Z)) as Hn.
  remember (generation l) as g eqn:Hg. destruct l as [id client i e r g']. cbn in Hg. subst g'.
  cbn -[num_eqb String.eqb] in *.
  repeat match goal with
  | |- context [String.eqb ?x ?x] => rewrite (String.eqb_refl x)
  | |- context [String.eqb ?x ?y] => change (String.eqb x y) with false
  end.
  cbn -[num_eqb String.eqb].
  rewrite !String.eqb_refl, Hn. done.
Qed.

Lemma registered_validates reg i act prev cur id ty now facts l reg' t :
  _transition reg i act prev cur (event_record id ty now (audit_payload act l)) facts = (reg', t) ->
  (forall p, prev = Some p -> lease_ok p) -> lease_ok cur ->
  expected_event_type act = Some ty -> event_id_form id = true -> instant (_timestamp now) = Some now ->
  audited act prev cur = Some l -> valid_edge act prev cur (_timestamp now) now = Ok true ->
  validate_lease_transition reg' (lease_value prev) t = Ok t.
Proof.
  unfold _transition. intros [= <- <-] Hp Hcur Hty Hid Hnow Haud Hedge.
  unfold validate_lease_transition, _transition_is_authorized.
  cbn [factory identity negb orb]. rewrite lookup_insert_eq, String.eqb_refl.
  cbn [negb raise_if mbind result_bind].
  assert (controller_lease_from_summary (lease_value prev) = Ok prev) as ->.
  { destruct prev as [p|]; [by apply from_summary_value, Hp|done]. }
  cbn [mbind result_bind previous current action audit_event ev_factory created_at event_type event_id payload event_record].
  rewrite bool_decide_eq_true_2 by done. cbn [negb raise_if mbind result_bind].
  rewrite (proj2 (validate_lease_iff cur cur) (conj eq_refl Hcur)). cbn [mbind result_bind].
  rewrite Hty, (parse_instant_2 _ _ _ Hnow), String.eqb_refl, Hid. cbn [negb orb raise_if mbind result_bind].
  fold (audited act prev cur). rewrite Haud, payload_eq_refl, Hedge. done.
Qed.

(** *** The controller token *)

Lemma now_Ok now t : _now now = Ok t <-> now = Some t /\ representable t = true.
Proof.
  unfold _now. destruct now as [u|]; [|by split; [|intros [? _]]].
  destruct (representable u) eqn:Hu; split.
  - intros [= ->]. done.
  - intros [[= ->] _]. done.
  - discriminate.
  - intros [[= ->] Ht]. congruence.
Qed.

Lemma client_id_Ok v s : _client_id v = Ok s -> client_id_form s = true.
Proof.
  unfold _client_id. destruct v as [| | | |s0| | |]; try discriminate.
  destruct (client_id_form s0) eqn:Hf; [|discriminate]. by intros [= <-].
Qed.

Lemma token_inv l id gen now b :
  validate_controller (Some l) id gen now = Ok b ->
  b = true /\ lease_ok l /\ _is_terminal_lease l = false /\ active_lease_id (lease_id l) = true
  /\ id = PStr (lease_id l) /\ gen = PInt (generation l)
  /\ exists t r e, now = Some t /\ representable t = true /\ instant (last_renewed_at l) = Some r
     /\ instant (expires_at l) = Some e /\ (r <= t < e)%Z.
Proof.
  unfold validate_controller, _assert_not_backward. intros Hv. inv_ok.
  repeat match goal with
  | H : _parse_timestamp _ _ = Ok _ |- _ => apply parse_instant in H
  | H : validate_controller_lease _ = Ok _ |- _ => apply validate_lease_iff in H as [-> H]
  | H : _now _ = Ok _ |- _ => apply now_Ok in H as [-> H]
  end.
  destruct id; try discriminate. destruct gen; try discriminate. inv_ok. split_guards. subst.
  repeat (split; [done|]). eexists _, _, _. repeat (split; [eassumption || done|]). lia.
Qed.

Lemma token_intro l now r e :
  lease_ok l -> active_lease_id (lease_id l) = true -> representable now = true ->
  instant (last_renewed_at l) = Some r -> instant (expires_at l) = Some e -> (r <= now < e)%Z ->
  validate_controller (Some l) (PStr (lease_id l)) (PInt (generation l)) (Some now) = Ok true.
Proof.
  intros Hl Ha Hn Hr He Hord. unfold validate_controller.
  rewrite (proj2 (validate_lease_iff l l) (conj eq_refl Hl)). cbn [mbind result_bind].
  assert (_is_terminal_lease l = false) as ->.
  { unfold _is_terminal_lease. apply not_true_iff_false. intros Ht%terminal_not_active. congruence. }
  cbn [raise_if mbind result_bind]. rewrite (proj2 (now_Ok _ _) (conj eq_refl Hn)). cbn [mbind result_bind].
  rewrite Ha, String.eqb_refl, Z.eqb_refl. cbn [negb orb raise_if mbind result_bind].
  rewrite (parse_instant_2 _ _ _ Hr), (parse_instant_2 _ _ _ He). cbn [mbind result_bind].
  unfold _assert_not_backward, raise_if. replace (now <? r)%Z with false by lia. cbn [mbind result_bind].
  by replace (e <=? now)%Z with false by lia.
Qed.

(** *** Time and new leases, under the laws of the environment *)

Context {laws : LeaseEnvLaws}.

Lemma timestamp_instant t : representable t = true -> instant (_timestamp t) = Some t.
Proof. intros Ht. unfold instant, _timestamp. by rewrite isoformat_parse, Ht. Qed.

Lemma plus_ttl_instant now ttl s :
  plus_ttl now ttl = Ok s -> instant s = Some (now + timedelta_us ttl)%Z.
Proof.
  unfold plus_ttl. destruct (representable _) eqn:Hr; [|discriminate]. intros [= <-]. by apply timestamp_instant.
Qed.

Lemma sha256_hex_text s : hex_text (sha256_hex s).
Proof. destruct (sha256_hex_form s) as [Hl Hh]. split; [lia|done]. Qed.

Lemma terminal_id_form l : terminal_lease_id (_terminal_lease_id l) = true.
Proof. apply first24_form, sha256_hex_text. Qed.

Lemma expire_event_form l : event_id_form (expire_event_id l) = true.
Proof. apply first24_form, sha256_hex_text. Qed.

Lemma new_lease_Ok hex client now ttl gen l :
  _new_lease hex client now ttl gen = Ok l ->
  hex_text hex -> client_id_form client = true -> (0 < gen)%Z -> representable now = true ->
  (0 < timedelta_us ttl)%Z ->
  lease_ok l /\ lease_id l = "lse_" +:+ first24 hex /\ client_id l = client /\ generation l = gen
  /\ issued_at l = _timestamp now /\ last_renewed_at l = _timestamp now
  /\ instant (expires_at l) = Some (now + timedelta_us ttl)%Z.
Proof.
  unfold _new_lease. intros Hn Hhex Hc Hg Hr Httl. inv_ok.
  match goal with H : plus_ttl _ _ = Ok _ |- _ => apply plus_ttl_instant in H as He end.
  split; [|done]. split; [left; by apply (first24_form "lse_")|]. split; [done|]. split; [done|].
  exists now, now, (now + timedelta_us ttl)%Z. cbn. rewrite timestamp_instant by done.
  repeat (split; [done|]). lia.
Qed.

(** *** The five operations *)

Inductive operation :=
| OpGrant (client : pyval) (now : option Z) (ttl_seconds : pyval) (prev : option ControllerLease)
| OpRenew (cur : ControllerLease) (id gen : pyval) (now : option Z) (ttl_seconds : pyval)
| OpExpire (cur : ControllerLease) (now : option Z)
| OpRelease (cur : ControllerLease) (id gen : pyval) (now : option Z)
| OpTakeover (cur : ControllerLease) (c : TakeoverPreview) (req : pyval) (now : option Z) (ttl_seconds : pyval).

Definition run_operation (reg : registry) (f : fresh) (op : operation) : result (registry * LeaseTransition) :=
  match op with
  | OpGrant client now ttl prev => grant_controller reg f client now ttl prev
  | OpRenew cur id gen now ttl => renew_controller reg f cur id gen now ttl
  | OpExpire cur now => expire_controller reg f cur now
  | OpRelease cur id gen now => release_controller reg f cur id gen now
  | OpTakeover cur c req now ttl => confirm_takeover reg f cur c req now ttl
  end.

(** The lease an operation starts from. *)
Definition op_previous (op : operation) : option ControllerLease :=
  match op with
  | OpGrant _ _ _ prev => prev
  | OpRenew cur _ _ _ _ | OpExpire cur _ | OpRelease cur _ _ _ | OpTakeover cur _ _ _ _ => Some cur
  end.

(** The drawn identities are hexadecimal, the drawn lease identity is new, and
    the time to live is at least a microsecond. *)
Definition fresh_ok (f : fresh) (prev : option ControllerLease) : Prop :=
  hex_text (f_lease f) /\ hex_text (f_event f)
  /\ (forall p, prev = Some p -> lease_id p <> "lse_" +:+ first24 (f_lease f)).
Definition ttl_counts (op : operation) : Prop :=
  match op with
  | OpGrant _ _ ttl _ | OpRenew _ _ _ _ ttl | OpTakeover _ _ _ _ ttl =>
      forall x, _ttl ttl = Ok x -> (0 < timedelta_us x)%Z
  | _ => True
  end.

Lemma grant_validates reg f client now ttl prev reg' t :
  grant_controller reg f client now ttl prev = Ok (reg', t) ->
  fresh_ok f prev -> ttl_counts (OpGrant client now ttl prev) ->
  validate_lease_transition reg' (lease_value prev) t = Ok t.
Proof.
  unfold grant_controller. intros Hg (Hl & He & Hnew) Httl. inv_ok.
  rename a into req, a0 into u, a1 into x, a3 into l.
  match goal with H : _client_id _ = Ok _ |- _ => apply client_id_Ok in H as Hc end.
  match goal with H : _now _ = Ok _ |- _ => apply now_Ok in H as [-> Hu] end.
  match goal with H : _event _ _ _ _ = Ok _ |- _ => apply event_Ok in H as (act & Ha & ->) end.
  cbn in Ha; injection Ha as <-.
  assert (Hp : forall p, prev = Some p -> lease_ok p /\ exists r e, instant (last_renewed_at p) = Some r
    /\ instant (expires_at p) = Some e /\ (r <= u)%Z /\ (e <= u)%Z).
  { intros p ->. inv_ok. unfold _assert_not_backward in *. inv_ok.
    match goal with H : validate_controller_lease _ = Ok _ |- _ => apply validate_lease_iff in H as [_ Hok] end.
    split; [done|]. repeat match goal with H : _parse_timestamp _ _ = Ok _ |- _ => apply parse_instant in H end.
    split_guards. eauto 10. }
  match goal with H : _new_lease _ _ _ _ _ = Ok _ |- _ => eapply new_lease_Ok in H as (Hok & Hid & Hcl & Hgen & Hi & Hren & Hx) end;
    eauto; [|destruct prev as [p|]; [destruct (Hp p eq_refl) as [(_ & _ & ? & _) _]|]; lia].
  specialize (Httl _ ltac:(eassumption)).
  eapply registered_validates; [reflexivity|by intros p Hpp; apply Hp|done|done|by apply first24_form|by apply timestamp_instant|done|].
  unfold valid_edge. rewrite (parse_instant_2 _ _ _ Hx). cbn [mbind result_bind].
  destruct prev as [p|].
  - destruct (Hp p eq_refl) as (_ & r & e & Hpr & Hpe & Hle1 & Hle2).
    rewrite (parse_instant_2 _ _ _ Hpr), (parse_instant_2 _ _ _ Hpe). cbn [mbind result_bind].
    cbn [String.eqb Ascii.eqb Bool.eqb orb]. rewrite Hi, Hren, Hgen, Hid, !String.eqb_refl.
    rewrite (proj2 (String.eqb_neq _ _)) by (intros Heq; by apply (Hnew p)). f_equal.
    cbn [negb andb orb]. lia.
  - rewrite Hi, Hren, Hgen, !String.eqb_refl. cbn [String.eqb Ascii.eqb Bool.eqb andb]. f_equal. lia.
Qed.

(** Turn the successful checks of an operation into facts. *)
Ltac lease_facts :=
  repeat match goal with
  | H : _parse_timestamp _ _ = Ok _ |- _ => apply parse_instant in H
  | H : validate_controller_lease _ = Ok _ |- _ => apply validate_lease_iff in H as [_ H]
  | H : _now _ = Ok _ |- _ => apply now_Ok in H as [-> H]
  | H : _client_id _ = Ok _ |- _ => apply client_id_Ok in H
  | H : plus_ttl _ _ = Ok _ |- _ => apply plus_ttl_instant in H
  | H : _assert_not_backward _ _ = Ok _ |- _ => unfold _assert_not_backward in H; inv_ok
  | H : _event _ _ _ _ = Ok _ |- _ =>
      let a := fresh "act" in let Ha := fresh "Hact" in
      apply event_Ok in H as (a & Ha & ->); cbn in Ha; injection Ha as <-
  | H : validate_controller _ _ _ _ = Ok _ |- _ =>
      let u := fresh "t" in let Hu := fresh "Hu" in
      apply token_inv in H as (-> & H & ? & ? & -> & -> & u & ? & ? & Hu & ? & ? & ? & ?);
      injection Hu as <-
  end; split_guards.

Ltac read_instant s :=
  match goal with H : instant s = Some _ |- _ => rewrite (parse_instant_2 _ _ _ H) end.

Lemma renew_validates reg f cur id gen now ttl reg' t :
  renew_controller reg f cur id gen now ttl = Ok (reg', t) ->
  fresh_ok f (Some cur) -> ttl_counts (OpRenew cur id gen now ttl) ->
  validate_lease_transition reg' (lease_value (Some cur)) t = Ok t.
Proof.
  unfold renew_controller. intros Hg (Hl & He & _) Httl. inv_ok. lease_facts.
  specialize (Httl _ ltac:(eassumption)). rename a into u.
  match goal with H : _ttl ttl = Ok ?y |- _ => rename y into life end.
  match goal with H : lease_ok cur |- _ =>
    pose proof H as Hcur; destruct H as (Hid & Hc & Hgen & i & r' & e' & Hi & Hr' & He' & Hord) end.
  simplify_eq.
  eapply registered_validates; [reflexivity| | |done|by apply (first24_form "evt_")|by apply timestamp_instant|done|].
  - by intros p [= <-].
  - split; [done|]. split; [done|]. split; [done|]. exists i, u, (u + timedelta_us life)%Z. cbn.
    rewrite timestamp_instant by done. repeat (split; [done|]). lia.
  - unfold valid_edge. cbn [expires_at last_renewed_at lease_id client_id issued_at generation].
    match goal with H : instant ?a = Some (u + _)%Z |- _ => rewrite (parse_instant_2 _ _ _ H) end.
    read_instant (last_renewed_at cur). read_instant (expires_at cur).
    cbn [mbind result_bind]. rewrite !String.eqb_refl, Z.eqb_refl. f_equal. cbn [andb]. lia.
Qed.

Lemma release_validates reg f cur id gen now reg' t :
  release_controller reg f cur id gen now = Ok (reg', t) -> fresh_ok f (Some cur) ->
  validate_lease_transition reg' (lease_value (Some cur)) t = Ok t.
Proof.
  unfold release_controller. intros Hg (Hl & He & _). inv_ok. lease_facts. rename a into u.
  match goal with H : lease_ok cur |- _ =>
    pose proof H as Hcur; destruct H as (Hid & Hc & Hgen & i & r' & e' & Hi & Hr' & He' & Hord) end.
  simplify_eq.
  eapply registered_validates; [reflexivity| | |done|by apply (first24_form "evt_")|by apply timestamp_instant|done|].
  - by intros p [= <-].
  - split; [done|]. split; [done|]. split; [done|]. eexists i, _, u. cbn.
    rewrite timestamp_instant by done. repeat (split; [eassumption || done|]). lia.
  - unfold valid_edge. cbn [expires_at last_renewed_at lease_id client_id issued_at generation].
    rewrite (parse_instant_2 (_timestamp u) _ u) by by apply timestamp_instant.
    read_instant (last_renewed_at cur). read_instant (expires_at cur).
    cbn [mbind result_bind String.eqb Ascii.eqb Bool.eqb].
    rewrite !String.eqb_refl, Z.eqb_refl. f_equal. cbn [andb]. lia.
Qed.

Lemma expire_validates reg f cur now reg' t :
  expire_controller reg f cur now = Ok (reg', t) ->
  validate_lease_transition reg' (lease_value (Some cur)) t = Ok t.
Proof.
  unfold expire_controller. intros Hg. inv_ok. lease_facts.
  match goal with H : lease_ok cur |- _ => pose proof H as (Hid & Hc & Hgen & i & r' & e' & Hi & Hr' & He' & Hord) end. simplify_eq.
  eapply registered_validates; [reflexivity|by intros p [= <-]| |done|apply expire_event_form|by apply timestamp_instant|done|].
  - split; [right; apply terminal_id_form|]. repeat (split; [done|]). by eexists i, _, _.
  - unfold valid_edge. cbn [expires_at last_renewed_at lease_id client_id issued_at generation with_lease_id].
    read_instant (last_renewed_at cur). read_instant (expires_at cur).
    cbn [mbind result_bind String.eqb Ascii.eqb Bool.eqb].
    match goal with H : _is_terminal_lease cur = false |- _ => rewrite H end.
    rewrite bool_decide_eq_true_2 by done. f_equal. cbn [andb negb]. lia.
Qed.

Lemma takeover_validates reg f cur c req now ttl reg' t :
  confirm_takeover reg f cur c req now ttl = Ok (reg', t) ->
  fresh_ok f (Some cur) -> ttl_counts (OpTakeover cur c req now ttl) ->
  validate_lease_transition reg' (lease_value (Some cur)) t = Ok t.
Proof.
  unfold confirm_takeover. intros Hg (Hl & He & Hnew) Httl. inv_ok. lease_facts.
  specialize (Httl _ ltac:(eassumption)).
  match goal with H : lease_ok cur |- _ => pose proof H as (Hid & Hc & Hgen & Ht) end.
  match goal with H : _new_lease _ _ _ _ _ = Ok _ |- _ =>
    eapply new_lease_Ok in H as (Hok & Hlid & Hcl & Hlg & Hi & Hren & Hx) end; eauto; [|lia].
  destruct Ht as (? & r' & e' & ? & Hr' & He' & _). simplify_eq.
  eapply registered_validates; [reflexivity|by intros p [= <-]|done|done|by apply (first24_form "evt_")
    |by apply timestamp_instant|done|].
  unfold valid_edge. rewrite (parse_instant_2 _ _ _ Hx). read_instant (last_renewed_at cur). read_instant (expires_at cur).
  cbn [mbind result_bind String.eqb Ascii.eqb Bool.eqb orb]. rewrite Hi, Hren, Hlg, Hlid, !String.eqb_refl.
  rewrite (proj2 (String.eqb_neq _ _)) by (intros Heq; by apply (Hnew cur)). f_equal. cbn [negb andb orb]. lia.
Qed.

(** *** Histories *)

Lemma later_generation t l now l' :
  later t l now l' ->
  (t <= now)%Z /\ (generation l <= generation l')%Z
  /\ (generation l = generation l' ->
      client_id l' = client_id l /\ issued_at l' = issued_at l
      /\ (lease_id l' = lease_id l \/ _is_terminal_lease l' = true)).
Proof.
  induction 1 as [|t l now l' act now' l'' _ (IH1 & IH2 & IH3) Hle Hs%accepted_lease_step]; [repeat split; auto; lia|].
  split; [lia|].
  inversion Hs; subst; cbn [with_lease_id generation client_id issued_at]; (split; [lia|]); intros Heq; try lia;
    destruct IH3 as (Hc & Hi & Hid); try congruence; (split; [congruence|]); (split; [congruence|]).
  - unfold _is_terminal_lease in *. destruct Hid as [Hid|Hid]; [left|right]; congruence.
  - unfold _is_terminal_lease in *. destruct Hid as [Hid|Hid]; [left|right]; congruence.
  - right. apply terminal_id_form.
Qed.

(** A generation that can no longer be used at [now]. *)
Definition spent (g now : Z) (l : ControllerLease) : Prop :=
  (g < generation l)%Z
  \/ generation l = g
     /\ (_is_terminal_lease l = true \/ exists e, instant (expires_at l) = Some e /\ (e <= now)%Z).

Lemma spent_start act p now l :
  lease_step act (Some p) now l -> act <> "renew" -> spent (generation p) now l.
Proof.
  intros Hs Hact. inversion Hs; subst; try congruence; unfold spent.
  - left; lia.
  - right. split; [done|]. right. by exists now.
  - right. split; [done|]. left. apply terminal_id_form.
Qed.

Lemma spent_step g now act p now' l :
  spent g now p -> (now <= now')%Z -> lease_step act (Some p) now' l -> spent g now' l.
Proof.
  unfold spent, _is_terminal_lease. intros Hsp Hle Hs. inversion Hs; subst; cbn [with_lease_id lease_id generation].
  - destruct Hsp as [|[]]; left; lia.
  - destruct Hsp as [|[Hg [Ht|(x & Hx & ?)]]]; [left; lia| |simplify_eq; lia].
    right. split; [lia|]. left. congruence.
  - destruct Hsp as [|[Hg [Ht|(x & Hx & ?)]]]; [left; lia| |simplify_eq; lia].
    right. split; [lia|]. left. congruence.
  - destruct Hsp as [|[Hg _]]; [by left|]. right. split; [done|]. left. apply terminal_id_form.
Qed.

Lemma spent_later g t l now l' : spent g t l -> later t l now l' -> spent g now l'.
Proof. intros Hsp Hl. induction Hl; [done|]. eauto using spent_step, accepted_lease_step. Qed.

(** *** The registry *)

(** The registry after a sequence of operations and collections, with the
    transitions still alive. *)
Inductive built : registry -> gmap nat LeaseTransition -> Prop :=
| built_empty : built ∅ ∅
| built_run reg live f op reg' t :
    built reg live -> live !! f_ident f = None -> run_operation reg f op = Ok (reg', t) ->
    built reg' (<[f_ident f := t]> live)
| built_discard reg live i : built reg live -> built (discard i reg) (delete i live).

Definition produced (t : LeaseTransition) : Prop :=
  exists reg f op reg', run_operation reg f op = Ok (reg', t).

Lemma run_operation_registers reg f op reg' t :
  run_operation reg f op = Ok (reg', t) ->
  exists auth, reg' = <[f_ident f := (auth, _transition_fingerprint t auth)]> reg /\ identity t = f_ident f.
Proof.
  destruct op; cbn [run_operation];
    unfold grant_controller, renew_controller, expire_controller, release_controller, confirm_takeover;
    intros H; inv_ok; eauto.
Qed.

Lemma built_entry reg live i auth fp :
  built reg live -> reg !! i = Some (auth, fp) ->
  exists t, live !! i = Some t /\ identity t = i /\ fp = _transition_fingerprint t auth /\ produced t.
Proof.
  intros Hb. revert auth fp. induction Hb as [|reg live f op reg' t _ IH Hfr Hrun|reg live j _ IH]; intros auth fp.
  - by rewrite lookup_empty.
  - destruct (run_operation_registers _ _ _ _ _ Hrun) as (a & -> & Hid).
    destruct (decide (i = f_ident f)) as [->|Hne].
    + rewrite !lookup_insert_eq. intros [= <- <-]. exists t. repeat (split; [done|]). unfold produced. eauto.
    + rewrite !lookup_insert_ne by done. apply IH.
  - unfold discard. destruct (decide (i = j)) as [->|Hne]; [by rewrite lookup_delete_eq|].
    rewrite !lookup_delete_ne by done. apply IH.
Qed.

Lemma lease_value_inj l l' : lease_value l = lease_value l' -> l = l'.
Proof. destruct l as [[]|], l' as [[]|]; unfold lease_value, summary; cbn; congruence. Qed.

Lemma fingerprint_doc_inj t t' auth auth' :
  fingerprint_doc t auth = fingerprint_doc t' auth' ->
  action t = action t' /\ previous t = previous t' /\ current t = current t'
  /\ event_summary (audit_event t) = event_summary (audit_event t').
Proof.
  unfold fingerprint_doc. intros [= Ha Hp Hc He].
  split; [done|]. split; [by apply lease_value_inj|]. split; [by apply lease_value_inj|].
  destruct (audit_event t), (audit_event t'). unfold event_summary in *. cbn in *. congruence.
Qed.

(** ** Theorems *)

(** A transition built by any of the five operations validates against the
    persisted form of the lease the operation started from, in the registry the
    operation leaves, when the drawn identities are hexadecimal and new and the
    time to live is at least a microsecond. *)
Lemma factory_transition_validates reg f op reg' t :
  run_operation reg f op = Ok (reg', t) ->
  fresh_ok f (op_previous op) -> ttl_counts op ->
  validate_lease_transition reg' (lease_value (op_previous op)) t = Ok t.
Proof.
  destruct op; cbn [run_operation op_previous]; intros.
  - by eapply grant_validates.
  - by eapply renew_validates.
  - by eapply expire_validates.
  - by eapply release_validates.
  - by eapply takeover_validates.
Qed.

(** C32: whatever validates is a step of the abstract lease: the persisted value
    is the transition's previous lease, both leases are well-formed, and the
    action, the two leases and the time of the audit event form one of the five
    steps (first or later grant, takeover, renewal, release, expiry). *)
Theorem validated_transition_steps reg v t r :
  validate_lease_transition reg v t = Ok r ->
  r = t
  /\ exists now l, instant (created_at (audit_event t)) = Some now /\ current t = Some l
     /\ lease_ok l /\ (forall p, previous t = Some p -> lease_ok p)
     /\ controller_lease_from_summary v = Ok (previous t)
     /\ lease_step (action t) (previous t) now l.
Proof.
  intros (-> & _ & _ & Hprev & l & ty & now & Hc & Hl & _ & Hat & _ & _ & _ & Hs)%validate_transition_inv.
  split; [done|]. exists now, l. repeat (split; [done|]). split; [|done].
  intros p Hp. rewrite Hp in Hprev. by eapply from_summary_ok.
Qed.

(** C31: fencing.  Once a step other than a renewal has ended a lease, no token of
    its generation controls any lease of the later history, at any time from the
    last step on; generations never fall back below it. *)
Theorem spent_token_never_controls act p t l now l' at_ :
  accepted_step act p t l -> act <> "renew" -> later t l now l' -> (now <= at_)%Z ->
  (generation p <= generation l')%Z
  /\ forall id, ~ token_ok l' id (generation p) at_.
Proof.
  intros Hs%accepted_lease_step Hact Hl Hat. pose proof (spent_start _ _ _ _ Hs Hact) as Hsp.
  apply (spent_later _ _ _ _ _ Hsp) in Hl. split; [destruct Hl as [|[]]; lia|].
  intros id Htok. apply token_inv in Htok as (_ & _ & Hterm & _ & _ & [= Hg] & u & r & e & [= <-] & _ & _ & He & Hord).
  destruct Hl as [|[_ [Ht|(x & Hx & ?)]]]; [lia|congruence|simplify_eq; lia].
Qed.

(** Generations never decrease along a history, and leases of one
    generation have one client and one issue time; the lease identity stays, or
    has become terminal. *)
Lemma generation_identifies_holder t l now l' :
  later t l now l' ->
  (generation l <= generation l')%Z
  /\ (generation l' = generation l ->
      client_id l' = client_id l /\ issued_at l' = issued_at l
      /\ (lease_id l' = lease_id l \/ _is_terminal_lease l' = true)).
Proof.
  intros (_ & Hle & Heq)%later_generation. split; [done|]. intros H. by apply Heq.
Qed.

(** In a registry built by the operations and by collections, only a
    transition with the identity and the content of a live product of an
    operation validates, unless its fingerprint collides with the product's. *)
Lemma only_produced_transitions_validate reg live v t' r :
  built reg live ->
  (forall t auth, live !! identity t' = Some t ->
     _transition_fingerprint t auth = _transition_fingerprint t' auth ->
     fingerprint_doc t auth = fingerprint_doc t' auth) ->
  validate_lease_transition reg v t' = Ok r ->
  exists t, live !! identity t' = Some t /\ produced t
    /\ action t' = action t /\ previous t' = previous t /\ current t' = current t
    /\ event_summary (audit_event t') = event_summary (audit_event t).
Proof.
  intros Hb Hcol (_ & _ & Hauth & _)%validate_transition_inv. unfold _transition_is_authorized in Hauth.
  destruct (reg !! identity t') as [[auth fp]|] eqn:Hreg; [|discriminate].
  apply String.eqb_eq in Hauth. destruct (built_entry _ _ _ _ _ Hb Hreg) as (t & Hlive & Hid & Hfp & Hprod).
  exists t. split; [done|]. split; [done|].
  assert (Hdoc : fingerprint_doc t auth = fingerprint_doc t' auth) by (apply Hcol; congruence).
  apply fingerprint_doc_inj in Hdoc as (? & ? & ? & ?). by rewrite H, H0, H1, H2.
Qed.

End lease.

(** ** A concrete environment *)

(** Instants in binary, least digit first, closed by [2]. *)
Fixpoint write_bits (p : positive) : string :=
  match p with
  | xH => "2"
  | xO p => "0" +:+ write_bits p
  | xI p => "1" +:+ write_bits p
  end.
Fixpoint read_bits (s : string) : option positive :=
  match s with
  | EmptyString => None
  | String c s =>
      if (byte_of c =? 48)%N then xO <$> read_bits s
      else if (byte_of c =? 49)%N then xI <$> read_bits s
      else if (byte_of c =? 50)%N then match s with EmptyString => Some xH | _ => None end
      else None
  end.

Lemma read_write_bits p : read_bits (write_bits p) = Some p.
Proof. induction p; cbn; rewrite ?IHp; done. Qed.

Definition sample_digest : string := "00112233445566778899aabbccddeeff00112233445566778899aabbccddeeff".

#[local] Instance sample_env : LeaseEnv := {|
  isoformat := fun t => write_bits (Z.to_pos (t + 1));
  fromisoformat := fun s => (fun p => (Z.pos p - 1)%Z) <$> read_bits s;
  sha256_hex := fun _ => sample_digest;
  json_dumps := fun _ => ""
|}.

#[local] Instance sample_laws : LeaseEnvLaws.
Proof.
  split.
  - intros t Ht. unfold representable in Ht. split_guards. cbn. rewrite read_write_bits. cbn. f_equal.
    rewrite Z2Pos.id; lia.
  - done.
Qed.

Definition hex_a : string := "0123456789abcdef0123456789abcdef".
Definition hex_b : string := "fedcba9876543210fedcba9876543210".
Definition sample_fresh : fresh := {| f_ident := 7; f_lease := hex_b; f_event := hex_a |}.

(** Alice holds the lease from instant 1000000 for ten seconds. *)
Definition alice : ControllerLease :=
  {| lease_id := "lse_" +:+ first24 hex_a; client_id := "alice"; issued_at := isoformat 1000000;
     expires_at := isoformat 11000000; last_renewed_at := isoformat 1000000; generation := 1 |}.
Definition preview : TakeoverPreview :=
  {| requester := "bob"; current_lease_id := lease_id alice; current_generation := 1;
     previewed_at := isoformat 2000000; digest := sample_digest |}.
Definition sample_takeover : operation := OpTakeover alice preview (PStr "bob") (Some 3000000%Z) (PInt 10).
Definition sample_expire : operation := OpExpire alice (Some 11000000%Z).
Definition expired : ControllerLease := with_lease_id (_terminal_lease_id alice) alice.

Lemma sample_fresh_ok : fresh_ok sample_fresh (Some alice).
Proof. split; [by split; [cbn; lia|]|]. split; [by split; [cbn; lia|]|]. by intros p [= <-]. Qed.

Lemma factory_transition_validates_witness :
  exists reg' t, run_operation ∅ sample_fresh sample_takeover = Ok (reg', t)
    /\ validate_lease_transition reg' (lease_value (Some alice)) t = Ok t.
Proof.
  destruct (run_operation ∅ sample_fresh sample_takeover) as [[reg' t]|e] eqn:E; [|by vm_compute in E].
  exists reg', t. split; [done|].
  apply (factory_transition_validates ∅ sample_fresh sample_takeover reg' t E); [exact sample_fresh_ok|].
  intros x Hx. vm_compute in Hx. injection Hx as <-. by vm_compute.
Defined.

Lemma validated_transition_steps_witness :
  exists reg t, validate_lease_transition reg (lease_value (Some alice)) t = Ok t
    /\ exists now l, current t = Some l /\ lease_step "expire" (Some alice) now l.
Proof.
  destruct (run_operation ∅ sample_fresh sample_expire) as [[reg t]|e] eqn:E; [|by vm_compute in E].
  assert (Ha : action t = "expire" /\ previous t = Some alice)
    by (vm_compute in E; injection E as _ <-; done).
  destruct Ha as [Ha Hp].
  assert (H : validate_lease_transition reg (lease_value (Some alice)) t = Ok t)
    by (vm_compute in E; injection E as <- <-; vm_compute; done).
  exists reg, t. split; [done|].
  destruct (validated_transition_steps _ _ _ _ H) as (_ & now & l & _ & Hc & _ & _ & _ & Hs).
  rewrite Ha, Hp in Hs. eauto.
Defined.

Lemma sample_expire_step : accepted_step "expire" alice 11000000 expired.
Proof.
  destruct (run_operation ∅ sample_fresh sample_expire) as [[reg t]|e] eqn:E; [|by vm_compute in E].
  exists reg, t. vm_compute in E. injection E as <- <-. by vm_compute.
Qed.

Lemma spent_token_never_controls_witness :
  ~ token_ok expired (lease_id alice) (generation alice) 12000000.
Proof.
  refine (proj2 (spent_token_never_controls "expire" alice 11000000 expired 11000000 expired 12000000
    sample_expire_step _ (later_refl _ _) _) (lease_id alice)); [done|lia].
Defined.

Lemma generation_identifies_holder_witness :
  later 1000000 alice 11000000 expired /\ client_id expired = client_id alice.
Proof.
  assert (H : later 1000000 alice 11000000 expired).
  { eapply later_step; [apply later_refl|lia|exact sample_expire_step]. }
  split; [done|]. by apply (proj2 (generation_identifies_holder _ _ _ _ H)).
Defined.

Lemma only_produced_transitions_validate_witness :
  exists reg live t, built reg live /\ validate_lease_transition reg (lease_value (Some alice)) t = Ok t
    /\ exists t0, live !! identity t = Some t0 /\ produced t0.
Proof.
  destruct (run_operation ∅ sample_fresh sample_expire) as [[reg t]|e] eqn:E; [|by vm_compute in E].
  assert (Hb : built reg (<[f_ident sample_fresh := t]> ∅)) by (eapply built_run; eauto using built_empty).
  assert (H : validate_lease_transition reg (lease_value (Some alice)) t = Ok t)
    by (vm_compute in E; injection E as <- <-; vm_compute; done).
  assert (Hid : identity t = f_ident sample_fresh) by (vm_compute in E; injection E as _ <-; done).
  exists reg, (<[f_ident sample_fresh := t]> ∅), t. split; [done|]. split; [done|].
  destruct (only_produced_transitions_validate reg _ (lease_value (Some alice)) t t Hb) with (2 := H) as (t0 & Hl & Hpr & _); [|eauto].
  intros u auth Hu _. rewrite Hid, lookup_insert_eq in Hu. by injection Hu as ->.
Defined.
