(* ===== verification/Store.v ===== *)
(** * Plans, approvals, dispatch records and replies ([state.py])

    The operations of [StateStore] the run loop is made of, on the saved
    document: plan status, the Leader's review of a plan, approvals, dispatch
    records, replies and Leader actions.  The document is a value ([dict]);
    identities and clock readings are arguments; reading and writing the file,
    its lock and the audit events are not modelled, nor is the entry naming the
    plan's Leader backend. *)
From S2P Require Import Prelude PyStr PyVal StepDag ReviewVerdict ReviewGroup ReviewIteration.

(** ** Rows of a table *)

(** [item.get(...)] on a row: anything but a dictionary has no [get]. *)
Definition as_dict (v : pyval) : result dict :=
  match v with PDict d => Ok d | _ => Err AttributeError end.

(** [[item for item in rows if p(item)]] *)
Definition rows_where (p : dict -> bool) (rows : list pyval) : result (list dict) :=
  ds ← mapR as_dict rows;
  Ok (List.filter p ds).

(** [next((item for item in rows if p(item)), None)] *)
Fixpoint first_row (p : dict -> bool) (rows : list pyval) : result (option dict) :=
  match rows with
  | [] => Ok None
  | v :: rows => d ← as_dict v; if p d then Ok (Some d) else first_row p rows
  end.

(** The same row, changed in place. *)
Fixpoint update_row (p : dict -> bool) (f : dict -> dict) (rows : list pyval) : result (option (list pyval * dict)) :=
  match rows with
  | [] => Ok None
  | v :: rows =>
      d ← as_dict v;
      if p d then Ok (Some (PDict (f d) :: rows, f d))
      else r ← update_row p f rows;
           Ok (match r with Some (rows', d') => Some (v :: rows', d') | None => None end)
  end.

(** [state.setdefault(key, [])] as a list that can be extended. *)
Definition table (key : string) (state : dict) : result (list pyval) :=
  match dlookup key state with
  | None => Ok []
  | Some (PList l) => Ok l
  | Some _ => Err AttributeError
  end.
Definition append_rows (key : string) (rows : list dict) (state : dict) : result dict :=
  l ← table key state;
  Ok (dset key (PList (l ++ (PDict <$> rows))) state).

Definition has_id (key id : string) (d : dict) : bool := py_eq (dget key d) (PStr id).

(** [m.get(key)] where [key] may be unhashable. *)
Definition keyed_get {A} (key : pyval) (m : list (pyval * A)) : result (option A) :=
  if hashable key then Ok (kget key m) else Err (TypeError "unhashable type").

(** [PStr] of an optional identity, else [None]. *)
Definition opt_get (key : string) (d : option dict) : pyval :=
  match d with Some d => dget key d | None => PNone end.

(** Reading a file, and SHA-256 of its bytes (read as a string of bytes). *)
Inductive file_read := FileMissing | ReadFailed | FileBytes (data : string).
Class Files := { read_bytes : string -> file_read; bytes_sha256 : string -> string }.

(** The characters up to the first dot. *)
Fixpoint take_while_not_dot (cs : list string) : list string :=
  match cs with
  | [] => []
  | c :: cs => if String.eqb c "." then [] else c :: take_while_not_dot cs
  end.

Section store.
Context `{PyRepr}.

(** ** Plan status *)

Definition plan_record (state : dict) (plan_id : string) : result dict :=
  plans ← state_list "plans" state;
  plan ← first_row (has_id "plan_id" plan_id) plans;
  match plan with Some p => Ok p | None => Err (KeyError plan_id) end.

(** The list the status walks: anything but a list counts as no steps. *)
Definition status_plan_steps (plan : dict) : list pyval :=
  match plan_steps plan with PList l => l | _ => [] end.

(** [if status in counts: counts[status] += 1] *)
Definition count_status (status : pyval) (counts : dict) : result dict :=
  if hashable status then
    Ok (match status with
        | PStr s => match dlookup s counts with Some (PInt n) => dset s (PInt (n + 1)) counts | _ => counts end
        | _ => counts
        end)
  else Err (TypeError "unhashable type").

Definition status_item (deps : gmap Z (list Z)) (by_step : list (pyval * dict)) (messages : list (string * dict))
    (step : dict) : result (pyval * dict) :=
  approval ← keyed_get (dget "step" step) by_step;
  let status := match approval with Some a => dget "status" a | None => PStr "not_created" end in
  number ← step_int step;
  let message := default [] (last_for (py_str (opt_get "message_id" approval)) messages) in
  Ok (status,
      [("step", dget "step" step); ("agent_id", dget "agent_id" step); ("role", dget "role" step);
       ("task", dget "task" step); ("approval_id", opt_get "approval_id" approval); ("approval_status", status);
       ("message_id", opt_get "message_id" approval); ("attempt_id", opt_get "attempt_id" approval);
       ("job_id", opt_get "job_id" approval); ("origin", dget "origin" step); ("round", dget "round" step);
       ("triggered_by_reply", dget "triggered_by_reply" step); ("review_group", dget "review_group" step);
       ("review_group_member", dget "review_group_member" step);
       ("depends_on", PList (PInt <$> dependencies_for deps number));
       ("worktree_base_commit", dget "worktree_base_commit" message)]
      ++ (if truthy (opt_get "reason" approval) then [("reason", opt_get "reason" approval)] else [])).

Definition status_step deps by_step messages (acc : dict * list dict) (step : dict) : result (dict * list dict) :=
  '(status, item) ← status_item deps by_step messages step;
  counts ← count_status status acc.1;
  Ok (counts, acc.2 ++ [item]).

Definition initial_counts (steps approvals : nat) : dict :=
  [("steps", PInt (Z.of_nat steps)); ("approvals", PInt (Z.of_nat approvals)); ("pending", PInt 0);
   ("approved", PInt 0); ("rejected", PInt 0); ("dispatched", PInt 0)].

(** The approvals of a plan, by step number. *)
Definition approvals_by_step (state : dict) (plan_id : string) : result (list dict * list (pyval * dict)) :=
  rows ← state_list "approvals" state;
  approvals ← rows_where (has_id "plan_id" plan_id) rows;
  by_step ← keyed_by (dget "step") approvals;
  Ok (approvals, by_step).

Record plan_view := PlanView { pv_counts : dict; pv_steps : list dict }.

Definition plan_status (state : dict) (plan_id : string) : result plan_view :=
  plan ← plan_record state plan_id;
  let steps := status_plan_steps plan in
  '(approvals, by_step) ← approvals_by_step state plan_id;
  messages ← state_list "messages" state;
  let by_id := (fun m => (py_str (dget "message_id" m), m)) <$> dicts_of messages in
  '(counts, items) ← foldM (status_step (derive_step_dependencies steps) by_step by_id)
                       (initial_counts (length steps) (length approvals), []) (dicts_of steps);
  Ok {| pv_counts := counts; pv_steps := items |}.

(** ** The Leader's review of a plan *)

Definition status_is (s : string) (step : dict) : bool := py_eq (dget "approval_status" step) (PStr s).

(** The loop over the dispatched steps: those without a reply, and the replies. *)
Definition review_step (replies_by_message : list (pyval * dict)) (acc : list dict * list dict) (step : dict)
    : result (list dict * list dict) :=
  let message_id := dget "message_id" step in
  if negb (status_is "dispatched" step) || negb (truthy message_id) then Ok acc
  else
    reply ← keyed_get message_id replies_by_message;
    Ok (match reply with
        | None => (acc.1 ++ [step], acc.2)
        | Some r => (acc.1, acc.2 ++ [[("agent_id", dget "agent_id" step); ("message_id", message_id);
                                       ("reply_id", dget "reply_id" r)]])
        end).

Definition waits_for_approval (step : dict) : bool :=
  match dget "approval_status" step with PNone => true | v => py_eq v (PStr "pending") end.

Definition _leader_review_core (state : dict) (plan_id : string) : result dict :=
  status ← plan_status state plan_id;
  rows ← state_list "replies" state;
  replies ← mapR as_dict rows;
  replies_by_message ← keyed_by (dget "message_id") replies;
  let answer (action reason : string) (extra : dict) : dict :=
    [("plan_id", PStr plan_id); ("next_action", PStr action); ("reason", PStr reason)] ++ extra
    ++ [("counts", PDict (pv_counts status))] in
  match find_first (status_is "approved") (pv_steps status) with
  | Some step =>
      Ok (answer "dispatch_approved" "approved step is waiting for dispatch"
            [("approval_id", dget "approval_id" step); ("agent_id", dget "agent_id" step)])
  | None =>
      '(waiting, completed) ← foldM (review_step replies_by_message) ([], []) (pv_steps status);
      match waiting with
      | step :: _ =>
          Ok (answer "wait_for_reply" "dispatched step has no reply yet"
                [("agent_id", dget "agent_id" step); ("message_id", dget "message_id" step)])
      | [] =>
          let pending := List.filter waits_for_approval (pv_steps status) in
          match completed, pending with
          | _ :: _, _ :: _ =>
              Ok (answer "wait_for_approval" "replied steps exist but pending approvals remain" [])
          | _ :: _, [] =>
              Ok (answer "summarize" "all dispatched steps have replies" [("replies", PList (PDict <$> completed))])
          | [], _ => Ok (answer "wait_for_approval" "no approved or dispatched steps are ready" [])
          end
      end
  end.

(** ** The verdict summary and the review shown to the Leader *)

Definition _plan_acceptance_criteria (state : dict) (plan_id : string) : result (option (list pyval)) :=
  plans ← state_list "plans" state;
  plan ← first_row (has_id "plan_id" plan_id) plans;
  Ok (match opt_get "planner_brief" plan with
      | PDict brief => match dget "acceptance_criteria" brief with PList l => Some l | _ => None end
      | _ => None
      end).

(** One member of the summarised group: agent, step, overall and reply. *)
Definition summary_member (agent step overall reply : pyval) : dict :=
  [("agent_id", agent); ("step", step); ("overall", overall); ("reply_id", reply)].

Record verdict_summary := VerdictSummary {
  vs_aligned : aligned_verdict; vs_complete : bool; vs_members : list dict
}.

(** The display side: incomplete groups count ([require_complete_group] is
    false), and an invalid verdict shows nothing. *)
Definition plan_verdict_summary (state : dict) (plan_id : string) : result (option verdict_summary) :=
  plans ← state_list "plans" state;
  plan ← first_row (has_id "plan_id" plan_id) plans;
  let steps := match plan with Some p => status_plan_steps p | None => [] end in
  selected ← select_plan_verdict state plan_id (PList steps) false;
  match selected with
  | None => Ok None
  | Some s =>
      criteria ← _plan_acceptance_criteria state plan_id;
      match align_verdict_with_criteria (PDict (s_verdict s)) criteria with
      | Err (ValueError _) => Ok None
      | Err e => Err e
      | Ok aligned =>
          Ok (Some {| vs_aligned := aligned; vs_complete := s_complete s;
                      vs_members :=
                        match s_members s with
                        | None => [summary_member (opt_get "agent_id" (s_approval s)) (opt_get "step" (s_approval s))
                                     (dget "overall" (s_verdict s)) (PStr (s_reply_id s))]
                        | Some ms => (fun m => summary_member (rm_agent_id m) (PInt (rm_step m))
                                                 (dget "overall" (rm_verdict m)) (rm_reply_id m)) <$> ms
                        end |})
      end
  end.

Definition leader_review (state : dict) (plan_id : string) : result (dict * option verdict_summary) :=
  review ← _leader_review_core state plan_id;
  criteria ← _plan_acceptance_criteria state plan_id;
  summary ← plan_verdict_summary state plan_id;
  Ok (review ++ [("acceptance_criteria", match criteria with Some l => PList l | None => PNone end)], summary).

(** ** Approvals *)

(** The [n]-th identity drawn by a call. *)
Notation ids := (nat -> string).

Definition _create_approvals_from_plan_state (state : dict) (plan_id : string) (new_id : ids) (now : string)
    : result (dict * list dict) :=
  plan ← plan_record state plan_id;
  rows ← state_list "approvals" state;
  existing ← rows_where (has_id "plan_id" plan_id) rows;
  let state := match dlookup "approvals" state with Some _ => state | None => dset "approvals" (PList []) state end in
  match existing with
  | _ :: _ => Ok (state, existing)
  | [] =>
      steps ← py_iter (plan_steps plan);
      let due := List.filter (fun step => truthy (dget "requires_approval" step)) (dicts_of steps) in
      let approvals := imap (fun i step => pending_approval plan_id (new_id i) now step) due in
      state' ← append_rows "approvals" approvals state;
      Ok (state', approvals)
  end.

Definition create_chat_assignment_approval (state : dict) (id now agent_id role task : string) : result (dict * dict) :=
  let approval :=
    [("approval_id", PStr id); ("plan_id", PNone); ("step", PInt 1); ("agent_id", PStr agent_id);
     ("role", PStr role); ("task", PStr task); ("risk", PStr "human_requested"); ("status", PStr "pending");
     ("source", PStr "leader_chat_task_assignment"); ("created_at", PStr now)] in
  state' ← append_rows "approvals" [approval] state;
  Ok (state', approval).

Definition approval_by_id (state : dict) (approval_id : string) : result dict :=
  rows ← state_list "approvals" state;
  found ← first_row (has_id "approval_id" approval_id) rows;
  match found with Some a => Ok a | None => Err (KeyError approval_id) end.

(** Change the approval with this identity and save. *)
Definition change_approval (state : dict) (approval_id : string) (f : dict -> dict) : result (dict * dict) :=
  rows ← state_list "approvals" state;
  changed ← update_row (has_id "approval_id" approval_id) f rows;
  match changed with
  | Some (rows', a) => Ok (dset "approvals" (PList rows') state, a)
  | None => Err (KeyError approval_id)
  end.

Definition decided (status now : string) (reason : option string) (a : dict) : dict :=
  let a := dset "decided_at" (PStr now) (dset "status" (PStr status) a) in
  match reason with
  | Some r => if String.eqb r "" then a else dset "reason" (PStr r) a
  | None => a
  end.
Definition decide_approval (state : dict) (approval_id status : string) (reason : option string) (now : string)
    : result (dict * dict) :=
  change_approval state approval_id (decided status now reason).

Definition dispatched_as (message_id attempt_id job_id now : string) (a : dict) : dict :=
  dset "dispatched_at" (PStr now) (dset "job_id" (PStr job_id) (dset "attempt_id" (PStr attempt_id)
    (dset "message_id" (PStr message_id) (dset "status" (PStr "dispatched") a)))).
Definition mark_approval_dispatched (state : dict) (approval_id message_id attempt_id job_id now : string)
    : result (dict * dict) :=
  change_approval state approval_id (dispatched_as message_id attempt_id job_id now).

(** ** Dispatch records *)

(** The worktree of a dispatch: path, branch, base branch and base commit. *)
Record worktree := { wt_path : pyval; wt_branch : pyval; wt_base_branch : pyval; wt_base_commit : pyval }.
Definition no_worktree : worktree :=
  {| wt_path := PNone; wt_branch := PNone; wt_base_branch := PNone; wt_base_commit := PNone |}.

Record dispatch_ids := { di_message : string; di_attempt : string; di_job : string; di_inbox : string }.

Definition message_record (i : dispatch_ids) (now from_actor to_agent task prompt : string)
    (skill_context : option pyval) (w : worktree) : dict :=
  [("message_id", PStr (di_message i)); ("from_actor", PStr from_actor); ("to_agent", PStr to_agent);
   ("task", PStr task); ("prompt", PStr prompt); ("status", PStr "dispatched"); ("created_at", PStr now);
   ("worktree_path", wt_path w); ("worktree_branch", wt_branch w); ("worktree_base_branch", wt_base_branch w);
   ("worktree_base_commit", wt_base_commit w)]
  ++ match skill_context with Some c => [("prompt_skill_context", c)] | None => [] end.

Definition attempt_record (i : dispatch_ids) (now to_agent : string) : dict :=
  [("attempt_id", PStr (di_attempt i)); ("message_id", PStr (di_message i)); ("agent_id", PStr to_agent);
   ("status", PStr "dispatched"); ("created_at", PStr now)].

Definition job_record (i : dispatch_ids) (now to_agent pane_id : string) : dict :=
  [("job_id", PStr (di_job i)); ("message_id", PStr (di_message i)); ("attempt_id", PStr (di_attempt i));
   ("agent_id", PStr to_agent); ("pane_id", PStr pane_id); ("status", PStr "dispatched"); ("created_at", PStr now)].

Definition inbox_record (i : dispatch_ids) (now from_actor to_agent task : string) : dict :=
  [("inbox_id", PStr (di_inbox i)); ("event_type", PStr "task_request"); ("message_id", PStr (di_message i));
   ("attempt_id", PStr (di_attempt i)); ("job_id", PStr (di_job i)); ("from_actor", PStr from_actor);
   ("to_agent", PStr to_agent); ("task", PStr task); ("status", PStr "pending"); ("created_at", PStr now)].

(** [state.setdefault("inbox", {}).setdefault(agent, []).append(item)] *)
Definition append_inbox (agent : string) (item : dict) (state : dict) : result dict :=
  match dlookup "inbox" state with
  | None => Ok (dset "inbox" (PDict [(agent, PList [PDict item])]) state)
  | Some (PDict inbox) =>
      inbox' ← append_rows agent [item] inbox;
      Ok (dset "inbox" (PDict inbox') state)
  | Some _ => Err AttributeError
  end.

(** [skill_context]: the normalised skill context, when the caller gives one. *)
Definition create_dispatch_records (state : dict) (i : dispatch_ids)
    (now from_actor to_agent task prompt pane_id : string) (skill_context : option pyval) (w : worktree)
    : result dict :=
  state ← append_rows "messages" [message_record i now from_actor to_agent task prompt skill_context w] state;
  state ← append_rows "attempts" [attempt_record i now to_agent] state;
  state ← append_rows "jobs" [job_record i now to_agent pane_id] state;
  append_inbox to_agent (inbox_record i now from_actor to_agent task) state.

(** ** Artifacts of a reply *)

(** Lower case, as far as a comparison with ASCII text can tell. *)
Definition lower_char (c : string) : string :=
  match c with
  | String a EmptyString =>
      let n := byte_of a in if ((65 <=? n) && (n <=? 90))%N then String (Ascii.ascii_of_N (n + 32)) "" else c
  | _ => if (ord c =? 8490)%N then "k" else c
  end.
Definition lower (s : string) : string := concat_str (lower_char <$> chars s).

(** Strip double quotes, single quotes and backquotes. *)
Definition is_quote (c : string) : bool := (ord c =? 34)%N || (ord c =? 39)%N || (ord c =? 96)%N.
Definition strip_quotes (s : string) : string :=
  concat_str (reverse (drop_while is_quote (reverse (drop_while is_quote (chars s))))).

Fixpoint continuation (lines : list string) : option string :=
  match lines with
  | [] => None
  | follow :: lines =>
      if String.eqb (strip follow) "" then continuation lines
      else if startswith " " follow || startswith (String (Ascii.ascii_of_nat 9) "") follow then
        let value := strip_quotes (strip follow) in
        if String.eqb value "" then None else Some value
      else None
  end.

Fixpoint structured_value (prefix : string) (lines : list string) : option string :=
  match lines with
  | [] => None
  | line :: rest =>
      let stripped := strip line in
      if startswith prefix (lower stripped) then
        let value := strip_quotes (strip (py_drop (length (chars prefix)) stripped)) in
        if String.eqb value "" then continuation rest else Some value
      else structured_value prefix rest
  end.
Definition _structured_reply_value (text key : string) : option string :=
  structured_value (key +:+ ":") (splitlines text).

(** [Path(path).suffix]: of the last component, from its last dot, when the dot
    is neither its first nor its last character. *)
Definition last_component (path : string) : list string :=
  foldl (fun acc (c : list string) => match c with [] => acc | _ => if bool_decide (c = ["."]) then acc else c end) []
    ((fix go cur cs := match cs with
       | [] => [cur]
       | c :: cs => if String.eqb c "/" then cur :: go [] cs else go (cur ++ [c]) cs
       end) [] (chars path)).
Definition suffix (path : string) : string :=
  let back := reverse (last_component path) in
  let ext := take_while_not_dot back in
  let before := drop (S (length ext)) back in
  match ext, before with
  | _ :: _, _ :: _ => "." +:+ concat_str (reverse ext)
  | _, _ => ""
  end.
Definition _artifact_kind (path : string) : string :=
  let s := lower (suffix path) in
  if String.eqb s ".md" || String.eqb s ".markdown" then "markdown"
  else if String.eqb s ".json" then "json"
  else if String.eqb s ".txt" || String.eqb s ".log" then "text"
  else if String.eqb s ".py" then "python" else "file".

Context {files : Files}.

Definition _artifact_digest (path : string) : pyval * pyval * string :=
  match read_bytes path with
  | FileMissing => (PNone, PNone, "file_missing")
  | ReadFailed => (PNone, PNone, "read_failed")
  | FileBytes data => (PStr (bytes_sha256 data), PInt (Z.of_nat (String.length data)), "recorded")
  end.

(** The new artifacts and the conflicts. *)
Definition _artifacts_from_reply (reply : dict) (text : string) (existing : list pyval) (artifact_id now : string)
    : list dict * list dict :=
  match _structured_reply_value text "full_output_path" with
  | None => ([], [])
  | Some path =>
      let message_id := dget "message_id" reply in
      let '(content_hash, byte_count, digest_status) := _artifact_digest path in
      match find_first (fun a => py_eq (dget "message_id" a) message_id && has_id "path" path a) (dicts_of existing) with
      | Some previous =>
          if py_eq (dget "content_hash" previous) content_hash then ([], [])
          else ([], [[("message_id", message_id); ("path", PStr path);
                      ("recorded_hash", dget "content_hash" previous); ("observed_hash", content_hash);
                      ("artifact_id", dget "artifact_id" previous)]])
      | None =>
          ([[("artifact_id", PStr artifact_id); ("message_id", message_id); ("attempt_id", dget "attempt_id" reply);
             ("job_id", dget "job_id" reply); ("reply_id", dget "reply_id" reply);
             ("from_agent", dget "from_agent" reply); ("path", PStr path); ("kind", PStr (_artifact_kind path));
             ("status", PStr "created"); ("content_hash", content_hash); ("byte_count", byte_count);
             ("digest_status", PStr digest_status); ("created_at", PStr now)]], [])
      end
  end.

(** ** Replies *)

Record reply_ids := { ri_reply : string; ri_artifact : string; ri_inbox : string }.
Record recorded := { rc_reply : dict; rc_artifacts : list dict; rc_conflicts : list dict; rc_verdict_invalid : bool }.

(** [parse_verdict_line] under [try]: only a [ValueError] is caught. *)
Definition reply_verdict {json : JsonLoads} (text : string) : result (option dict * bool) :=
  match parse_verdict_line text with
  | Ok v => Ok (v, false)
  | Err (ValueError _) => Ok (None, true)
  | Err e => Err e
  end.

Definition work_of (message_id agent : string) (d : dict) : bool :=
  has_id "message_id" message_id d && has_id "agent_id" agent d.

(** [if row: row["status"] = status] for the first row [p] holds of. *)
Definition set_status (p : dict -> bool) (status : string) (rows : list pyval) : result (list pyval) :=
  r ← update_row p (dset "status" (PStr status)) rows;
  Ok (match r with Some (rows', _) => rows' | None => rows end).

Definition record_reply {json : JsonLoads} (state : dict) (i : reply_ids) (now from_agent message_id text : string)
    : result (dict * recorded) :=
  messages ← state_list "messages" state;
  found ← first_row (has_id "message_id" message_id) messages;
  match found with
  | None => Err (KeyError message_id)
  | Some message =>
      '(verdict, invalid) ← reply_verdict text;
      attempts ← state_list "attempts" state;
      attempt ← first_row (work_of message_id from_agent) attempts;
      jobs ← state_list "jobs" state;
      job ← first_row (work_of message_id from_agent) jobs;
      let actor := match dlookup "from_actor" message with Some v => v | None => PStr "user" end in
      let reply :=
        [("reply_id", PStr (ri_reply i)); ("message_id", PStr message_id); ("attempt_id", opt_get "attempt_id" attempt);
         ("job_id", opt_get "job_id" job); ("from_agent", PStr from_agent); ("to_actor", actor); ("text", PStr text);
         ("created_at", PStr now)] ++ match verdict with Some v => [("verdict", PDict v)] | None => [] end in
      state ← append_rows "replies" [reply] state;
      existing ← table "artifacts" state;
      let '(artifacts, conflicts) := _artifacts_from_reply reply text existing (ri_artifact i) now in
      messages' ← set_status (has_id "message_id" message_id) "replied" messages;
      attempts' ← set_status (work_of message_id from_agent) "completed" attempts;
      jobs' ← set_status (work_of message_id from_agent) "completed" jobs;
      let state := dset "jobs" (PList jobs') (dset "attempts" (PList attempts') (dset "messages" (PList messages')
        (dset "artifacts" (PList (existing ++ (PDict <$> artifacts))) state))) in
      let to_actor := py_str actor in
      state ← (if String.eqb to_actor "user" then Ok state
               else append_inbox to_actor
                      [("inbox_id", PStr (ri_inbox i)); ("event_type", PStr "task_reply"); ("message_id", PStr message_id);
                       ("attempt_id", opt_get "attempt_id" attempt); ("job_id", opt_get "job_id" job);
                       ("reply_id", PStr (ri_reply i)); ("from_agent", PStr from_agent); ("to_agent", PStr to_actor);
                       ("task", match dlookup "task" message with Some v => v | None => PStr "" end);
                       ("status", PStr "pending"); ("created_at", PStr now)] state);
      Ok (state, {| rc_reply := reply; rc_artifacts := artifacts; rc_conflicts := conflicts;
                    rc_verdict_invalid := invalid |})
  end.

(** ** Leader actions *)

Definition _same_pending_leader_action (existing candidate : dict) : bool :=
  has_id "status" "pending" existing
  && forallb (fun key => py_eq (dget key existing) (dget key candidate))
       ["kind"; "plan_id"; "approval_id"; "agent_id"; "message_id"].

Definition _record_or_reuse_pending_leader_action (state : dict) (action : dict) : result (dict * dict) :=
  actions ← state_list "leader_actions" state;
  existing ← first_row (fun item => _same_pending_leader_action item action) actions;
  match existing with
  | Some e => Ok (state, e)
  | None => state' ← append_rows "leader_actions" [action] state; Ok (state', action)
  end.

Definition leader_action (id now kind : pyval) (plan_id approval_id agent_id message_id command reason : pyval) : dict :=
  [("action_id", id); ("kind", kind); ("status", PStr "pending"); ("requires_confirmation", PBool true);
   ("plan_id", plan_id); ("approval_id", approval_id); ("agent_id", agent_id); ("message_id", message_id);
   ("command", command); ("reason", reason); ("created_at", now)].

Definition _action_from_review (id now : string) (review : dict) : dict :=
  let get k := dget k review in
  let kind s := py_eq (get "next_action") (PStr s) in
  let text k := py_str (get k) in
  let command :=
    if kind "dispatch_approved" && truthy (get "approval_id") then
      PStr ("agentdeck approval dispatch --approval-id " +:+ text "approval_id")
    else if kind "wait_for_reply" && truthy (get "agent_id") && truthy (get "message_id") then
      PStr ("agentdeck capture-reply --agent " +:+ text "agent_id" +:+ " --message-id " +:+ text "message_id")
    else if kind "summarize" && truthy (get "plan_id") then
      PStr ("agentdeck leader summary --plan-id " +:+ text "plan_id")
    else if kind "wait_for_approval" && truthy (get "plan_id") then PStr "agentdeck approval list"
    else PNone in
  leader_action (PStr id) (PStr now) (get "next_action") (get "plan_id") (get "approval_id") (get "agent_id")
    (get "message_id") command (get "reason").

(** [suggest_leader_action(plan_id)]; without a plan the last one is taken. *)
Definition suggest_leader_action (state : dict) (id now : string) (plan : option string) : result (dict * dict) :=
  plan_id ← (match plan with
             | Some p => Ok p
             | None =>
                 plans ← state_list "plans" state;
                 match last plans with
                 | None => Err (KeyError "no plans")
                 | Some v =>
                     d ← as_dict v;
                     match dlookup "plan_id" d with Some p => Ok (py_str p) | None => Err (KeyError "plan_id") end
                 end
             end);
  status ← plan_status state plan_id;
  if py_eq (dget "approvals" (pv_counts status)) (PInt 0) then
    _record_or_reuse_pending_leader_action state
      (leader_action (PStr id) (PStr now) (PStr "create_approvals") (PStr plan_id) PNone PNone PNone
         (PStr ("agentdeck approval create-from-plan --plan-id " +:+ plan_id)) (PStr "plan has no approval records"))
  else
    '(review, _) ← leader_review state plan_id;
    _record_or_reuse_pending_leader_action state (_action_from_review id now review).

(** [apply_leader_action]: the only kind applied without an explicit command
    creates the approvals of a plan. *)
Definition apply_leader_action (state : dict) (action_id : string) (new_id : ids) (now : string)
    : result (dict * list dict) :=
  actions ← state_list "leader_actions" state;
  found ← first_row (has_id "action_id" action_id) actions;
  match found with
  | None => Err (KeyError action_id)
  | Some action =>
      _ ← raise_if (negb (has_id "status" "pending" action)) (ValueError ("leader action is not pending: " +:+ action_id));
      _ ← raise_if (negb (has_id "kind" "create_approvals" action))
            (PermissionError ("leader action requires explicit command: " +:+ action_id));
      '(state, approvals) ← _create_approvals_from_plan_state state (py_str (dget "plan_id" action)) new_id now;
      changed ← update_row (has_id "action_id" action_id)
                  (fun a => dset "applied_at" (PStr now) (dset "status" (PStr "applied") a)) actions;
      match changed with
      | Some (actions', _) => Ok (dset "leader_actions" (PList actions') state, approvals)
      | None => Err (KeyError action_id)
      end
  end.
End store.

(** ** Rows *)

Lemma as_dict_Ok v d : as_dict v = Ok d <-> v = PDict d.
Proof. destruct v; cbn; split; congruence. Qed.

Lemma mapR_as_dict l ds : mapR as_dict l = Ok ds <-> l = PDict <$> ds.
Proof.
  rewrite mapR_Ok. split.
  - induction 1 as [|v d l ds Hv _ IH]; [done|]. apply as_dict_Ok in Hv as ->. by rewrite fmap_cons, IH.
  - intros ->. induction ds; constructor; done.
Qed.

Lemma dicts_of_PDicts ds : dicts_of (PDict <$> ds) = ds.
Proof. induction ds as [|d ds IH]; [done|]. cbn. by f_equal. Qed.

Lemma rows_where_Ok p rows r :
  rows_where p rows = Ok r <-> exists ds, rows = PDict <$> ds /\ r = List.filter p ds.
Proof.
  unfold rows_where. rewrite bind_Ok. setoid_rewrite mapR_as_dict. split.
  - intros (ds & Hds & [= <-]). eauto.
  - intros (ds & Hds & ->). eauto.
Qed.

Lemma first_row_Some p rows d :
  first_row p rows = Ok (Some d) ->
  exists pre post, rows = (PDict <$> pre) ++ PDict d :: post /\ p d = true /\ Forall (fun x => p x = false) pre.
Proof.
  induction rows as [|v rows IH]; cbn; [done|]. rewrite bind_Ok. intros (x & ->%as_dict_Ok & Hx).
  destruct (p x) eqn:Hp; [injection Hx as ->; by exists [], rows|].
  destruct (IH Hx) as (pre & post & -> & Hd & Hpre). exists (x :: pre), post. split; [done|]. split; [done|].
  by constructor.
Qed.

Lemma first_row_None p rows :
  first_row p rows = Ok None -> exists ds, rows = PDict <$> ds /\ Forall (fun x => p x = false) ds.
Proof.
  induction rows as [|v rows IH]; cbn; [by exists []|]. rewrite bind_Ok. intros (x & ->%as_dict_Ok & Hx).
  destruct (p x) eqn:Hp; [done|]. destruct (IH Hx) as (ds & -> & Hds). exists (x :: ds). split; [done|]. by constructor.
Qed.

Lemma update_row_Some p f rows rows' d' :
  update_row p f rows = Ok (Some (rows', d')) ->
  exists pre d post, rows = (PDict <$> pre) ++ PDict d :: post /\ rows' = (PDict <$> pre) ++ PDict (f d) :: post
    /\ p d = true /\ Forall (fun x => p x = false) pre /\ d' = f d.
Proof.
  revert rows'. induction rows as [|v rows IH]; intros rows'; cbn; [done|]. rewrite bind_Ok.
  intros (x & ->%as_dict_Ok & Hx). destruct (p x) eqn:Hp; [injection Hx as <- <-; by exists [], x, rows|].
  apply bind_Ok in Hx as ([[rows1 d1]|] & H1 & [=]); subst.
  destruct (IH _ H1) as (pre & d & post & -> & -> & Hd & Hpre & ->).
  exists (x :: pre), d, post. split; [done|]. split; [done|]. split; [done|]. split; [by constructor|done].
Qed.

Lemma has_id_iff k id d : has_id k id d = true <-> dget k d = PStr id.
Proof. apply py_eq_str. Qed.

(** ** The review and its gate *)

Definition in_flight (step : dict) : bool := status_is "dispatched" step && truthy (dget "message_id" step).
Definition answered (replies : list (pyval * dict)) (step : dict) : bool :=
  bool_decide (is_Some (kget (dget "message_id" step) replies)).

Lemma review_fold replies steps w c w' c' :
  foldM (review_step replies) (w, c) steps = Ok (w', c') ->
  w' = w ++ List.filter (fun s => in_flight s && negb (answered replies s)) steps
  /\ length c' = length c + length (List.filter (fun s => in_flight s && answered replies s) steps).
Proof.
  revert w c. induction steps as [|s steps IH]; intros w c; cbn [foldM].
  - intros [= -> ->]. cbn. rewrite app_nil_r. split; [done|lia].
  - rewrite bind_Ok. intros ([w1 c1] & H1 & H2). apply IH in H2 as [-> Hc]. revert H1. unfold review_step.
    cbn [List.filter]. destruct (in_flight s) eqn:Hs.
    + unfold in_flight in Hs. apply andb_true_iff in Hs as [-> Ht]. rewrite Ht. cbn [negb orb andb].
      unfold keyed_get. destruct (hashable _); [|done]. cbn [mbind result_bind].
      destruct (answered replies s) eqn:Ha; unfold answered in Ha; destruct (kget _ replies) as [r|];
        try (apply bool_decide_eq_true in Ha as [? [=]]); try (apply bool_decide_eq_false in Ha; by destruct Ha);
        intros [= <- <-]; cbn [fst snd negb].
      * split; [done|]. rewrite Hc, length_app. cbn. lia.
      * by rewrite <- app_assoc.
    + assert (negb (status_is "dispatched" s) || negb (truthy (dget "message_id" s)) = true) as ->.
      { unfold in_flight in Hs. by destruct (status_is _ _), (truthy _). }
      cbn [andb]. by intros [= <- <-].
Qed.

(** ** Plan status *)

(** The status a step is shown with. *)
Definition step_status (by_step : list (pyval * dict)) (step : dict) : pyval :=
  match kget (dget "step" step) by_step with Some a => dget "status" a | None => PStr "not_created" end.

(** What an item of the status says of its step and of the step's approval. *)
Definition describes (by_step : list (pyval * dict)) (step item : dict) : Prop :=
  (forall k, k ∈ ["step"; "agent_id"; "role"; "task"; "review_group"; "review_group_member"] ->
     dget k item = dget k step)
  /\ dget "approval_status" item = step_status by_step step
  /\ (forall k, k ∈ ["approval_id"; "message_id"; "attempt_id"; "job_id"] ->
        dget k item = opt_get k (kget (dget "step" step) by_step)).

Definition count_of (by_step : list (pyval * dict)) (s : string) (steps : list dict) : Z :=
  Z.of_nat (length (List.filter (fun step => py_eq (step_status by_step step) (PStr s)) steps)).

Section status.
Context `{PyRepr}.

Lemma status_item_Ok deps by_step messages step status item :
  status_item deps by_step messages step = Ok (status, item) ->
  status = step_status by_step step /\ describes by_step step item.
Proof.
  unfold status_item, keyed_get, describes, step_status. destruct (hashable _); [|done].
  cbn [mbind result_bind]. rewrite bind_Ok. intros (n & _ & Hr).
  match type of Hr with Ok (?s, ?i) = _ => assert (status = s /\ item = i) as [-> ->] by (split; congruence) end.
  clear Hr. split; [done|].
  split; [|split; [done|]]; intros k Hk; repeat (apply elem_of_cons in Hk as [->|Hk]; [done|]);
    by apply not_elem_of_nil in Hk.
Qed.

Lemma count_status_Ok status counts counts' :
  count_status status counts = Ok counts' ->
  forall s n, dlookup s counts = Some (PInt n) ->
    dlookup s counts' = Some (PInt (n + if py_eq status (PStr s) then 1 else 0)).
Proof.
  unfold count_status. destruct (hashable status); [|done]. intros [= <-] s n Hs.
  destruct (py_eq status (PStr s)) eqn:Heq.
  - apply py_eq_str in Heq as ->. rewrite Hs. apply dlookup_dset_eq.
  - rewrite Z.add_0_r. destruct status as [| | | |x| | |]; try done.
    destruct (dlookup x counts) as [[]|] eqn:Hx; try done. rewrite dlookup_dset_ne; [done|].
    intros ->. cbn in Heq. by rewrite String.eqb_refl in Heq.
Qed.

Lemma status_fold deps by_step messages steps counts items counts' items' :
  foldM (status_step deps by_step messages) (counts, items) steps = Ok (counts', items') ->
  (exists new, items' = items ++ new /\ Forall2 (describes by_step) steps new)
  /\ forall s n, dlookup s counts = Some (PInt n) ->
       dlookup s counts' = Some (PInt (n + count_of by_step s steps)).
Proof.
  revert counts items. induction steps as [|step steps IH]; intros counts items; cbn [foldM].
  - intros [= <- <-]. split; [exists []; by rewrite app_nil_r|]. intros s n Hs. cbn. by rewrite Z.add_0_r.
  - rewrite bind_Ok. intros ([c1 i1] & H1 & H2). unfold status_step in H1.
    apply bind_Ok in H1 as ([status item] & [-> Hd]%status_item_Ok & (c2 & Hc & [= -> <-])%bind_Ok).
    apply IH in H2 as [(new & -> & Hnew) Hcount]. split.
    + exists (item :: new). rewrite <- app_assoc. split; [done|]. by constructor.
    + intros s n Hs. erewrite Hcount by (by eapply count_status_Ok). f_equal. f_equal.
      unfold count_of. cbn [List.filter]. destruct (py_eq _ _); cbn [length]; lia.
Qed.
End status.

(** The status of a plan has one item per step of the plan, in order, each
    with the step's own fields and with the status and identities of the last
    approval recorded for its number (or [not_created]); the counters count the
    items. *)
Lemma plan_status_spec `{PyRepr} state plan_id v :
  plan_status state plan_id = Ok v ->
  exists plan approvals by_step,
    plan_record state plan_id = Ok plan /\ approvals_by_step state plan_id = Ok (approvals, by_step)
    /\ Forall2 (describes by_step) (dicts_of (status_plan_steps plan)) (pv_steps v)
    /\ forall s, s ∈ ["pending"; "approved"; "rejected"; "dispatched"] ->
         dget s (pv_counts v) = PInt (count_of by_step s (dicts_of (status_plan_steps plan))).
Proof.
  unfold plan_status. intros (plan & Hp & ([approvals by_step] & Ha & (messages & _ & ([counts items] & Hf & [= <-])%bind_Ok)%bind_Ok)%bind_Ok)%bind_Ok.
  apply status_fold in Hf as [(new & -> & Hnew) Hcount]. exists plan, approvals, by_step.
  split; [done|]. split; [done|]. split; [done|]. cbn [pv_counts]. intros s Hs. unfold dget.
  rewrite (Hcount s 0%Z); [done|].
  repeat (apply elem_of_cons in Hs as [->|Hs]; [done|]). by apply not_elem_of_nil in Hs.
Qed.

(** ** Creating approvals *)

(** The approvals a plan's steps call for. *)
Definition due_approvals (plan_id : string) (new_id : nat -> string) (now : string) (steps : list pyval) : list dict :=
  imap (fun i step => pending_approval plan_id (new_id i) now step)
    (List.filter (fun step => truthy (dget "requires_approval" step)) (dicts_of steps)).

Lemma append_rows_Ok key rows state state' :
  append_rows key rows state = Ok state' ->
  exists l, table key state = Ok l /\ state' = dset key (PList (l ++ (PDict <$> rows))) state.
Proof. unfold append_rows. rewrite bind_Ok. intros (l & Hl & [= <-]). eauto. Qed.

Lemma state_list_dset key l state : state_list key (dset key (PList l) state) = Ok l.
Proof. unfold state_list. by rewrite dlookup_dset_eq. Qed.

Lemma state_list_dset_ne key key' v state : key <> key' -> state_list key (dset key' v state) = state_list key state.
Proof. intros Hne. unfold state_list. by rewrite dlookup_dset_ne. Qed.

Lemma dset_dset k v v' d : dset k v (dset k v' d) = dset k v d.
Proof.
  induction d as [|[k0 v0] d IH]; cbn; [by rewrite String.eqb_refl|].
  destruct (String.eqb k k0) eqn:Hk; cbn; rewrite Hk; [done|]. by f_equal.
Qed.

Lemma filter_app_all {A} (p : A -> bool) l k : Forall (fun x => p x = true) k -> List.filter p l = [] ->
  List.filter p (l ++ k) = k.
Proof.
  intros Hk Hl. rewrite List.filter_app, Hl. cbn. induction Hk as [|x k Hx _ IH]; [done|]. cbn. by rewrite Hx, IH.
Qed.

Lemma table_state_list key state l : table key state = Ok l -> state_list key state = Ok l.
Proof. unfold table, state_list. destruct (dlookup key state) as [[]|]; cbn; congruence. Qed.

Lemma due_approvals_ids plan_id new_id now steps :
  Forall (fun a => has_id "plan_id" plan_id a = true /\ has_id "status" "pending" a = true
                   /\ dget "message_id" a = PNone)
    (due_approvals plan_id new_id now steps).
Proof.
  unfold due_approvals. apply Forall_lookup. intros i a (step & _ & ->)%list_lookup_imap_Some.
  rewrite !has_id_iff. by split_and!.
Qed.

(** Creating the approvals of a plan either finds some and changes nothing
    of the table, or appends one pending approval per step that requires one, in
    order; either way a second call, whatever identities it would draw, returns
    the same approvals and leaves the same document. *)
Lemma create_approvals_once state plan_id new_id now state' r :
  _create_approvals_from_plan_state state plan_id new_id now = Ok (state', r) ->
  (exists rows ds, state_list "approvals" state = Ok rows /\ rows = PDict <$> ds
     /\ let existing := List.filter (has_id "plan_id" plan_id) ds in
        (existing <> [] -> state' = state /\ r = existing)
        /\ (existing = [] -> exists plan steps, plan_record state plan_id = Ok plan /\ py_iter (plan_steps plan) = Ok steps
             /\ r = due_approvals plan_id new_id now steps
             /\ state_list "approvals" state' = Ok (PDict <$> (ds ++ r))
             /\ forall key, key <> "approvals" -> dlookup key state' = dlookup key state))
  /\ forall new_id' now', r <> [] -> _create_approvals_from_plan_state state' plan_id new_id' now' = Ok (state', r).
Proof.
  unfold _create_approvals_from_plan_state.
  intros (plan & Hplan & (rows & Hrows & (existing & (ds & Hds & Hex)%rows_where_Ok & Hrest)%bind_Ok)%bind_Ok)%bind_Ok.
  assert (Hplan' : forall v, plan_record (dset "approvals" v state) plan_id = Ok plan).
  { intros v. rewrite <- Hplan. unfold plan_record. by rewrite state_list_dset_ne. }
  destruct existing as [|a existing].
  - apply bind_Ok in Hrest as (steps & Hsteps & (s' & Happ & [= <- <-])%bind_Ok).
    fold (due_approvals plan_id new_id now steps) in *. set (r := due_approvals plan_id new_id now steps) in *.
    apply append_rows_Ok in Happ as (l & Hl & ->).
    assert (Hl' : l = PDict <$> ds).
    { destruct (dlookup "approvals" state) as [v|] eqn:Hv.
      - apply table_state_list in Hl. congruence.
      - unfold table in Hl. rewrite dlookup_dset_eq in Hl. unfold state_list in Hrows. rewrite Hv in Hrows. congruence. }
    assert (Hst : forall v, dset "approvals" v (match dlookup "approvals" state with
        | Some _ => state | None => dset "approvals" (PList []) state end) = dset "approvals" v state).
    { intros v. destruct (dlookup "approvals" state); [done|]. by rewrite dset_dset. }
    rewrite Hst, Hl', <- fmap_app in *. split.
    + exists rows, ds. split; [done|]. split; [done|]. cbv zeta. rewrite <- Hex. split; [done|]. intros _.
      exists plan, steps. split; [done|]. split; [done|]. split; [done|]. split; [by rewrite state_list_dset|].
      intros key Hk. by rewrite dlookup_dset_ne.
    + intros new_id' now' Hne. rewrite Hplan'. cbn [mbind result_bind]. rewrite state_list_dset. cbn [mbind result_bind].
      rewrite (proj2 (rows_where_Ok _ _ r)).
      * cbn [mbind result_bind]. rewrite dlookup_dset_eq. by destruct r.
      * exists (ds ++ r). split; [done|]. symmetry. apply filter_app_all; [|done].
        eapply Forall_impl; [apply due_approvals_ids|]. by intros x (? & _).
  - assert (Hv : is_Some (dlookup "approvals" state)).
    { destruct (dlookup "approvals" state) eqn:Hv; [done|]. unfold state_list in Hrows. rewrite Hv in Hrows.
      injection Hrows as <-. symmetry in Hds. apply fmap_nil_inv in Hds. by subst ds. }
    destruct Hv as [v Hv]. rewrite Hv in Hrest. injection Hrest as <- <-. split.
    + exists rows, ds. split; [done|]. split; [done|]. cbv zeta. rewrite <- Hex. done.
    + intros new_id' now' _. rewrite Hplan. cbn [mbind result_bind]. rewrite Hrows. cbn [mbind result_bind].
      rewrite (proj2 (rows_where_Ok _ _ (a :: existing))) by eauto. cbn [mbind result_bind]. by rewrite Hv.
Qed.

(** ** Changing an approval *)

Lemma change_approval_Ok state id f state' a' :
  change_approval state id f = Ok (state', a') ->
  exists pre a post, state_list "approvals" state = Ok ((PDict <$> pre) ++ PDict a :: post)
    /\ has_id "approval_id" id a = true /\ Forall (fun x => has_id "approval_id" id x = false) pre
    /\ a' = f a /\ state' = dset "approvals" (PList ((PDict <$> pre) ++ PDict (f a) :: post)) state.
Proof.
  unfold change_approval. intros (rows & Hrows & ([[rows' d]|] & Hu & [=])%bind_Ok)%bind_Ok; subst.
  apply update_row_Some in Hu as (pre & a & post & -> & -> & Ha & Hpre & ->). exists pre, a, post. done.
Qed.

Lemma decided_get status now reason a k :
  k ∉ ["decided_at"; "status"; "reason"] -> dget k (decided status now reason a) = dget k a.
Proof.
  intros Hk. unfold decided. assert (Hne : k <> "decided_at" /\ k <> "status" /\ k <> "reason") by set_solver.
  destruct Hne as (? & ? & ?).
  destruct reason as [r|]; [destruct (String.eqb r "")|]; rewrite !dget_dset;
    repeat (rewrite (proj2 (String.eqb_neq _ _)) by done); done.
Qed.

Lemma decided_status status now reason a : dget "status" (decided status now reason a) = PStr status.
Proof. unfold decided. destruct reason as [r|]; [destruct (String.eqb r "")|]; by rewrite !dget_dset. Qed.

Lemma dispatched_get m att job now a k :
  k ∉ ["status"; "message_id"; "attempt_id"; "job_id"; "dispatched_at"] -> dget k (dispatched_as m att job now a) = dget k a.
Proof.
  intros Hk. unfold dispatched_as. rewrite !not_elem_of_cons in Hk. destruct Hk as (? & ? & ? & ? & ? & _).
  rewrite !dget_dset. by repeat (rewrite (proj2 (String.eqb_neq _ _)) by done).
Qed.

(** A decision or a dispatch mark changes the first approval with the
    identity and nothing else: the other rows and tables are untouched, and the
    row keeps its plan, step, agent, task and identity.  A decision sets the
    status whatever it was; a mark sets [dispatched] with the three identities. *)
Lemma approval_change_spec state id state' a' (decision : string * option string + string * string * string) now :
  match decision with
  | inl (status, reason) => decide_approval state id status reason now = Ok (state', a')
  | inr (m, att, job) => mark_approval_dispatched state id m att job now = Ok (state', a')
  end ->
  exists pre a post, state_list "approvals" state = Ok ((PDict <$> pre) ++ PDict a :: post)
    /\ dget "approval_id" a = PStr id /\ Forall (fun x => dget "approval_id" x <> PStr id) pre
    /\ state_list "approvals" state' = Ok ((PDict <$> pre) ++ PDict a' :: post)
    /\ (forall key, key <> "approvals" -> dlookup key state' = dlookup key state)
    /\ (forall k, k ∈ ["approval_id"; "plan_id"; "step"; "agent_id"; "role"; "task"; "risk"] -> dget k a' = dget k a)
    /\ match decision with
       | inl (status, _) => dget "status" a' = PStr status /\ dget "message_id" a' = dget "message_id" a
       | inr (m, att, job) => dget "status" a' = PStr "dispatched" /\ dget "message_id" a' = PStr m
                              /\ dget "attempt_id" a' = PStr att /\ dget "job_id" a' = PStr job
       end.
Proof.
  intros Hd.
  assert (Hc : exists f, change_approval state id f = Ok (state', a')
    /\ (forall a, (forall k, k ∈ ["approval_id"; "plan_id"; "step"; "agent_id"; "role"; "task"; "risk"] -> dget k (f a) = dget k a)
        /\ match decision with
           | inl (status, _) => dget "status" (f a) = PStr status /\ dget "message_id" (f a) = dget "message_id" a
           | inr (m, att, job) => dget "status" (f a) = PStr "dispatched" /\ dget "message_id" (f a) = PStr m
                              /\ dget "attempt_id" (f a) = PStr att /\ dget "job_id" (f a) = PStr job
           end)).
  { destruct decision as [[status reason]|[[m att] job]]; eexists; (split; [exact Hd|]); intros a; split.
    - intros k Hk. apply decided_get. set_solver.
    - split; [apply decided_status|]. apply decided_get. set_solver.
    - intros k Hk. apply dispatched_get. set_solver.
    - unfold dispatched_as. by rewrite !dget_dset. }
  destruct Hc as (f & Hc & Hf). apply change_approval_Ok in Hc as (pre & a & post & Hrows & Ha & Hpre & -> & ->).
  exists pre, a, post. split; [done|]. split; [by apply has_id_iff|]. split.
  { eapply Forall_impl; [exact Hpre|]. intros x Hx Heq. apply has_id_iff in Heq. congruence. }
  split; [by rewrite state_list_dset|]. split; [intros key Hk; by rewrite dlookup_dset_ne|]. apply Hf.
Qed.

(** ** Recording a reply *)

Lemma append_inbox_lookup agent item state state' key :
  append_inbox agent item state = Ok state' -> key <> "inbox" -> dlookup key state' = dlookup key state.
Proof.
  unfold append_inbox. intros Ha Hk. destruct (dlookup "inbox" state) as [[]|]; try done.
  - apply bind_Ok in Ha as (inbox & _ & [= <-]). by rewrite dlookup_dset_ne.
  - injection Ha as <-. by rewrite dlookup_dset_ne.
Qed.

(** What [reply_verdict] makes of a text: an invalid verdict is no verdict. *)
Lemma reply_verdict_Ok {json : JsonLoads} text v invalid :
  reply_verdict text = Ok (v, invalid) ->
  (invalid = false /\ parse_verdict_line text = Ok v)
  \/ (invalid = true /\ v = None /\ exists m, parse_verdict_line text = Err (ValueError m)).
Proof.
  unfold reply_verdict. destruct (parse_verdict_line text) as [v'|[]]; intros [= <- <-]; eauto.
Qed.

Definition reply_fields (i : reply_ids) (now from_agent message_id text : string) (r : dict) : Prop :=
  dget "reply_id" r = PStr (ri_reply i) /\ dget "message_id" r = PStr message_id
  /\ dget "from_agent" r = PStr from_agent /\ dget "text" r = PStr text /\ dget "created_at" r = PStr now.

Section replies.
Context `{PyRepr} {files : Files} {json : JsonLoads}.

Lemma record_reply_lookup state i now from_agent message_id text state' r key :
  record_reply state i now from_agent message_id text = Ok (state', r) ->
  key ∉ ["inbox"; "jobs"; "attempts"; "messages"; "artifacts"; "replies"] -> dlookup key state' = dlookup key state.
Proof.
  unfold record_reply. intros (messages & _ & (found & _ & Hr)%bind_Ok)%bind_Ok Hk.
  destruct found as [message|]; [|done].
  apply bind_Ok in Hr as ([verdict invalid] & _ & (attempts & _ & (attempt & _ & (jobs & _ & (job & _ & Hr)%bind_Ok)%bind_Ok)%bind_Ok)%bind_Ok).
  apply bind_Ok in Hr as (s1 & (rows & _ & ->)%append_rows_Ok & (existing & _ & Hr)%bind_Ok).
  destruct (_artifacts_from_reply _ text existing (ri_artifact i) now) as [artifacts conflicts].
  apply bind_Ok in Hr as (messages' & _ & (attempts' & _ & (jobs' & _ & (s2 & Hs2 & [= <- <-])%bind_Ok)%bind_Ok)%bind_Ok).
  rewrite !not_elem_of_cons in Hk. destruct Hk as (? & ? & ? & ? & ? & ? & _).
  destruct (String.eqb _ "user"); [injection Hs2 as <-|rewrite (append_inbox_lookup _ _ _ _ _ Hs2) by done];
    by rewrite !dlookup_dset_ne.
Qed.

(** Recording a reply needs the message to exist; it appends exactly one
    reply, whose verdict is the valid verdict line of the text if there is one
    (an invalid line leaves it out and does not stop the recording), marks the
    message replied, and touches neither the plans nor the approvals. *)
Lemma record_reply_spec state i now from_agent message_id text state' r :
  record_reply state i now from_agent message_id text = Ok (state', r) ->
  reply_fields i now from_agent message_id text (rc_reply r)
  /\ (exists rows, table "replies" state = Ok rows /\ state_list "replies" state' = Ok (rows ++ [PDict (rc_reply r)]))
  /\ (exists pre m post, state_list "messages" state = Ok ((PDict <$> pre) ++ PDict m :: post)
        /\ dget "message_id" m = PStr message_id
        /\ state_list "messages" state' = Ok ((PDict <$> pre) ++ PDict (dset "status" (PStr "replied") m) :: post))
  /\ dlookup "approvals" state' = dlookup "approvals" state /\ dlookup "plans" state' = dlookup "plans" state
  /\ match parse_verdict_line text with
     | Ok (Some v) => dget "verdict" (rc_reply r) = PDict v
     | _ => dget "verdict" (rc_reply r) = PNone
     end
  /\ (rc_verdict_invalid r = true <-> exists m, parse_verdict_line text = Err (ValueError m)).
Proof.
  intros Hrec. pose proof (record_reply_lookup _ _ _ _ _ _ _ _ "approvals" Hrec ltac:(not_in)) as Happrovals.
  pose proof (record_reply_lookup _ _ _ _ _ _ _ _ "plans" Hrec ltac:(not_in)) as Hplans.
  revert Hrec. unfold record_reply. intros (messages & Hm & (found & Hfound & Hr)%bind_Ok)%bind_Ok.
  destruct found as [message|]; [|done].
  apply bind_Ok in Hr as ([verdict invalid] & Hv & (attempts & _ & (attempt & _ & (jobs & _ & (job & _ & Hr)%bind_Ok)%bind_Ok)%bind_Ok)%bind_Ok).
  match type of Hr with context [append_rows "replies" [?x]] => set (reply := x) in * end.
  apply bind_Ok in Hr as (s1 & Hs1 & (existing & _ & Hr)%bind_Ok).
  destruct (_artifacts_from_reply reply text existing (ri_artifact i) now) as [artifacts conflicts].
  apply bind_Ok in Hr as (messages' & Hm' & (attempts' & _ & (jobs' & _ & (s2 & Hs2 & [= <- <-])%bind_Ok)%bind_Ok)%bind_Ok).
  cbn [rc_reply rc_verdict_invalid].
  set (s1' := dset "jobs" _ _) in Hs2.
  assert (Hkeep : forall key, key <> "inbox" -> dlookup key s2 = dlookup key s1').
  { intros key Hk. destruct (String.eqb _ "user"); [by injection Hs2 as <-|]. by eapply append_inbox_lookup. }
  apply append_rows_Ok in Hs1 as (rows & Hrows & ->).
  split; [by repeat split|]. split.
  { exists rows. split; [done|]. unfold state_list. rewrite Hkeep by done. unfold s1'.
    rewrite !dlookup_dset_ne by done. by rewrite dlookup_dset_eq. }
  split.
  { unfold set_status in Hm'. apply bind_Ok in Hm' as ([[rows' d]|] & Hu & [= <-]).
    - apply update_row_Some in Hu as (pre & m & post & -> & -> & Hid & _ & _). exists pre, m, post.
      split; [done|]. split; [by apply has_id_iff|]. unfold state_list. rewrite Hkeep by done. unfold s1'.
      rewrite !dlookup_dset_ne by done. by rewrite dlookup_dset_eq.
    - exfalso. apply first_row_Some in Hfound as (pre & post & -> & Hid & _). clear -Hu Hid.
      induction pre as [|x pre IH]; cbn in Hu; [by rewrite Hid in Hu|].
      destruct (has_id "message_id" message_id x); [done|]. apply bind_Ok in Hu as ([[]|] & Hu & [=]). auto. }
  split; [done|]. split; [done|].
  apply reply_verdict_Ok in Hv as [(-> & Hp)|(-> & -> & m & Hp)]; rewrite Hp.
  - split; [by destruct verdict|]. split; [done|]. by intros [? [=]].
  - split; [done|]. split; [by eauto|done].
Qed.
End replies.

(** ** A concrete project *)

Definition sample_plan : dict :=
  [("plan_id", PStr "p1");
   ("plan", PDict [("steps", PList
     [PDict [("step", PInt 1); ("agent_id", PStr "coder"); ("role", PStr "impl"); ("task", PStr "build");
             ("risk", PStr "low"); ("requires_approval", PBool true)];
      PDict [("step", PInt 2); ("agent_id", PStr "critic"); ("role", PStr "review"); ("task", PStr "check");
             ("risk", PStr "low"); ("requires_approval", PBool true)]])])].
Definition sample_approval (id : string) (step : Z) (agent status message : string) : dict :=
  [("approval_id", PStr id); ("plan_id", PStr "p1"); ("step", PInt step); ("agent_id", PStr agent);
   ("task", PStr "work"); ("status", PStr status);
   ("message_id", if String.eqb message "" then PNone else PStr message)].
Definition sample_state (approvals messages replies : list dict) : dict :=
  [("plans", PList [PDict sample_plan]); ("approvals", PList (PDict <$> approvals));
   ("messages", PList (PDict <$> messages)); ("replies", PList (PDict <$> replies));
   ("agents", PDict [("coder", PDict [("pane_id", PStr "%1"); ("status", PStr "running")]);
                     ("critic", PDict [("pane_id", PStr "%2"); ("status", PStr "running")])])].

Definition sample_repr : PyRepr := fun _ => "".
Definition sample_files : Files := {| read_bytes := fun _ => FileMissing; bytes_sha256 := fun _ => "" |}.
Definition sample_json : JsonLoads := fun _ => None.
#[local] Existing Instance sample_repr.
#[local] Existing Instance sample_files.
#[local] Existing Instance sample_json.

Definition sample_message (id agent : string) : dict :=
  [("message_id", PStr id); ("from_actor", PStr "leader"); ("to_agent", PStr agent); ("task", PStr "work");
   ("status", PStr "dispatched")].

Lemma plan_status_spec_witness :
  exists v, plan_status (sample_state [sample_approval "a1" 1 "coder" "dispatched" "m1"] [] []) "p1" = Ok v
    /\ length (pv_steps v) = 2.
Proof.
  destruct (plan_status (sample_state [sample_approval "a1" 1 "coder" "dispatched" "m1"] [] []) "p1") as [v|e] eqn:E;
    [|by vm_compute in E].
  exists v. split; [done|].
  destruct (plan_status_spec _ _ _ E) as (plan & approvals & by_step & Hp & _ & Hf & _).
  rewrite <- (Forall2_length _ _ _ Hf). vm_compute in Hp. injection Hp as <-. by vm_compute.
Defined.

Lemma create_approvals_once_witness :
  exists state' r, _create_approvals_from_plan_state (sample_state [] [] []) "p1" (fun i => "a" +:+ pretty i) "t" = Ok (state', r)
    /\ _create_approvals_from_plan_state state' "p1" (fun _ => "z") "u" = Ok (state', r).
Proof.
  destruct (_create_approvals_from_plan_state (sample_state [] [] []) "p1" (fun i => "a" +:+ pretty i) "t")
    as [[state' r]|e] eqn:E; [|by vm_compute in E].
  exists state', r. split; [done|]. apply (create_approvals_once _ _ _ _ _ _ E).
  vm_compute in E. injection E as _ <-. done.
Defined.

Lemma approval_change_spec_witness :
  exists state' a', decide_approval (sample_state [sample_approval "a1" 1 "coder" "pending" ""] [] []) "a1" "approved" None "t"
      = Ok (state', a')
    /\ dget "status" a' = PStr "approved".
Proof.
  destruct (decide_approval (sample_state [sample_approval "a1" 1 "coder" "pending" ""] [] []) "a1" "approved" None "t")
    as [[state' a']|e] eqn:E; [|by vm_compute in E].
  exists state', a'. split; [done|].
  destruct (approval_change_spec _ _ _ _ (inl ("approved", None)) "t" E) as (pre & a & post & _ & _ & _ & _ & _ & _ & [Hs _]).
  exact Hs.
Defined.

Lemma record_reply_spec_witness :
  exists state' r, record_reply (sample_state [] [sample_message "m1" "coder"] [])
      {| ri_reply := "r1"; ri_artifact := "x1"; ri_inbox := "i1" |} "t" "coder" "m1" "status: done" = Ok (state', r)
    /\ dget "message_id" (rc_reply r) = PStr "m1".
Proof.
  destruct (record_reply (sample_state [] [sample_message "m1" "coder"] [])
      {| ri_reply := "r1"; ri_artifact := "x1"; ri_inbox := "i1" |} "t" "coder" "m1" "status: done")
    as [[state' r]|e] eqn:E; [|by vm_compute in E].
  exists state', r. split; [done|]. destruct (record_reply_spec _ _ _ _ _ _ _ _ E) as [(_ & Hm & _) _]. exact Hm.
Defined.
