(* ===== verification/Conversation.v ===== *)
(** * Conversation histories ([conversation/models.py], [conversation/lifecycle.py])

    A conversation, its turns, its confirmation previews and the ownership of
    the Workers are entities with a state.  The store keeps only base records
    and an append-only list of transitions; [project_conversation_history]
    replays the list, refuses it when a transition is not allowed, and gives the
    state every entity is in. *)
From S2P Require Import Prelude PyStr PyVal ReviewVerdict Lease.

(** ** Entities and their edges ([conversation/models.py]) *)

Inductive entity := Conversation | Turn | Preview | Ownership.
#[export] Instance entity_eq_dec : EqDecision entity.
Proof. solve_decision. Defined.
#[export] Instance entity_countable : Countable entity.
Proof.
  refine (inj_countable' (fun e => match e with Conversation => 0 | Turn => 1 | Preview => 2 | Ownership => 3 end)
    (fun n => match n with 0 => Conversation | 1 => Turn | 2 => Preview | _ => Ownership end) _). by intros [].
Defined.

Definition entity_name (e : entity) : string :=
  match e with Conversation => "conversation" | Turn => "turn" | Preview => "preview" | Ownership => "ownership" end.

Definition CONVERSATION_EDGES : list (string * list string) :=
  [("created", ["ready"]); ("ready", ["busy"; "waiting_confirmation"; "closing"]);
   ("busy", ["ready"; "waiting_confirmation"; "closing"]); ("waiting_confirmation", ["ready"; "busy"; "closing"]);
   ("closing", ["closed"]); ("closed", [])].
Definition TURN_EDGES : list (string * list string) :=
  [("created", ["routing"]);
   ("routing", ["waiting_leader"; "presenting_preview"; "executing"; "completed"; "blocked"; "failed"; "cancelled"]);
   ("waiting_leader", ["presenting_preview"; "completed"; "blocked"; "failed"; "cancelled"; "ambiguous"]);
   ("presenting_preview", ["completed"; "failed"; "cancelled"]);
   ("executing", ["completed"; "blocked"; "failed"; "cancelled"; "ambiguous"]);
   ("completed", []); ("blocked", []); ("failed", []); ("cancelled", []); ("ambiguous", [])].
Definition PREVIEW_EDGES : list (string * list string) :=
  [("pending", ["consumed"; "expired"; "invalidated"]); ("consumed", []); ("expired", []); ("invalidated", [])].
Definition OWNERSHIP_EDGES : list (string * list string) :=
  [("agentdeck_owned", ["takeover_pending"]); ("takeover_pending", ["human_owned"; "agentdeck_owned"]);
   ("human_owned", ["return_pending"]); ("return_pending", ["agentdeck_owned"; "human_owned"])].

Definition ENTITY_EDGES (e : entity) : list (string * list string) :=
  match e with
  | Conversation => CONVERSATION_EDGES | Turn => TURN_EDGES | Preview => PREVIEW_EDGES | Ownership => OWNERSHIP_EDGES
  end.
Definition INITIAL_STATES (e : entity) : string :=
  match e with Conversation | Turn => "created" | Preview => "pending" | Ownership => "agentdeck_owned" end.
Definition TERMINAL_STATES (e : entity) : list string :=
  match e with
  | Conversation => ["closed"]
  | Turn => ["completed"; "blocked"; "failed"; "cancelled"; "ambiguous"]
  | Preview => ["consumed"; "expired"; "invalidated"]
  | Ownership => []
  end.

(** [ENTITY_EDGES[e][s]] *)
Definition edges_from (e : entity) (s : string) : option (list string) :=
  snd <$> find_first (fun kv => String.eqb kv.1 s) (ENTITY_EDGES e).

(** [entity_type in ENTITY_EDGES] *)
Definition entity_of (v : pyval) : result (option entity) :=
  if hashable v
  then Ok (match v with
           | PStr s => find_first (fun e => String.eqb (entity_name e) s) [Conversation; Turn; Preview; Ownership]
           | _ => None
           end)
  else Err (TypeError "unhashable type").

(** ** Building records *)

Definition _required_text (value : pyval) (fld : string) : result pyval :=
  match value with
  | PStr s => if String.eqb s "" then Err (ValueError (fld +:+ " must be a non-empty string")) else Ok value
  | _ => Err (ValueError (fld +:+ " must be a non-empty string"))
  end.

Definition build_conversation_record (conversation_id created_at : pyval) : result dict :=
  conversation_id ← _required_text conversation_id "conversation_id";
  created_at ← _required_text created_at "created_at";
  Ok [("conversation_id", conversation_id); ("created_at", created_at)].

Definition build_turn_record (turn_id conversation_id created_at : pyval) : result dict :=
  turn_id ← _required_text turn_id "turn_id";
  conversation_id ← _required_text conversation_id "conversation_id";
  created_at ← _required_text created_at "created_at";
  Ok [("turn_id", turn_id); ("conversation_id", conversation_id); ("created_at", created_at)].

Definition build_preview_binding_record (preview_id conversation_id turn_id preview_kind execution_digest expires_at created_at : pyval)
    : result dict :=
  _ ← (match turn_id with PNone => Ok PNone | _ => _required_text turn_id "turn_id" end);
  digest ← _required_text execution_digest "execution_digest";
  _ ← raise_if (negb (hex_id "" 64 (text_of digest))) (ValueError "execution_digest must be a lowercase sha256 digest");
  preview_id ← _required_text preview_id "preview_id";
  conversation_id ← _required_text conversation_id "conversation_id";
  preview_kind ← _required_text preview_kind "preview_kind";
  expires_at ← _required_text expires_at "expires_at";
  created_at ← _required_text created_at "created_at";
  Ok [("preview_id", preview_id); ("conversation_id", conversation_id); ("turn_id", turn_id); ("preview_kind", preview_kind);
      ("execution_digest", digest); ("expires_at", expires_at); ("created_at", created_at)].

Definition build_conversation_transition (transition_id conversation_id entity_type entity_id from_state to_state reason created_at : pyval)
    : result dict :=
  kind ← entity_of entity_type;
  _ ← raise_if (bool_decide (kind = None)) (ValueError "invalid conversation transition entity_type");
  _ ← (match from_state with PNone => Ok PNone | _ => _required_text from_state "from_state" end);
  transition_id ← _required_text transition_id "transition_id";
  conversation_id ← _required_text conversation_id "conversation_id";
  entity_id ← _required_text entity_id "entity_id";
  to_state ← _required_text to_state "to_state";
  reason ← _required_text reason "reason";
  created_at ← _required_text created_at "created_at";
  Ok [("transition_id", transition_id); ("conversation_id", conversation_id); ("entity_type", entity_type); ("entity_id", entity_id);
      ("from_state", from_state); ("to_state", to_state); ("reason", reason); ("created_at", created_at)].

(** ** Base records *)

Definition _RECORD_SPECS : list (string * (string * entity)) :=
  [("conversation_sessions", ("conversation_id", Conversation)); ("conversation_turns", ("turn_id", Turn));
   ("conversation_preview_bindings", ("preview_id", Preview))].

(** A [Sequence] that is no text. *)
Definition sequence (v : pyval) (e : exn) : result (list pyval) :=
  match v with PList l | PTuple l => Ok l | _ => Err e end.
Definition mapping (e : exn) (v : pyval) : result dict := match v with PDict d => Ok d | _ => Err e end.

Definition _records (base : dict) (key : string) : result (list dict) :=
  items ← sequence (match dlookup key base with Some v => v | None => PTuple [] end) (ValueError (key +:+ " must be a list"));
  mapR (mapping (ValueError (key +:+ " items must be records"))) items.

(** The identities of every kind, as pairs. *)
Definition identities : Type := gset (entity * string).

Definition in_identities (ids : identities) (e : entity) (v : pyval) : result bool :=
  if hashable v then Ok (match v with PStr s => bool_decide ((e, s) ∈ ids) | _ => false end)
  else Err (TypeError "unhashable type").

Definition add_identity (id_field : string) (e : entity) (ids : identities) (record : dict) : result identities :=
  match dget id_field record with
  | PStr s => if String.eqb s "" then Err (ValueError ("invalid " +:+ id_field))
              else if bool_decide ((e, s) ∈ ids) then Err (ValueError ("duplicate " +:+ id_field))
              else Ok ({[(e, s)]} ∪ ids)
  | _ => Err (ValueError ("invalid " +:+ id_field))
  end.

Section history.
Context {repr : PyRepr}.

Definition check_reference (ids : identities) (collection : string) (record : dict) : result unit :=
  let conversation_id := dget "conversation_id" record in
  let turn_id := dget "turn_id" record in
  known ← in_identities ids Conversation conversation_id;
  _ ← raise_if (negb known) (ValueError ("unknown conversation: " +:+ py_str conversation_id));
  if String.eqb collection "conversation_preview_bindings" && negb (match turn_id with PNone => true | _ => false end)
  then known ← in_identities ids Turn turn_id;
       raise_if (negb known) (ValueError ("unknown turn: " +:+ py_str turn_id))
  else Ok tt.

Definition _identity_sets (base : dict) : result identities :=
  ids ← foldM (fun ids spec => records ← _records base spec.1; foldM (add_identity spec.2.1 spec.2.2) ids records)
              (∅ : identities) _RECORD_SPECS;
  _ ← mapR (fun collection => records ← _records base collection; mapR (check_reference ids collection) records)
           ["conversation_turns"; "conversation_preview_bindings"];
  Ok ids.

(** ** Transitions *)

Definition _transition_records (transitions : pyval) : result (list dict) :=
  items ← sequence transitions (ValueError "conversation transitions must be a list");
  records ← mapR (mapping (ValueError "conversation transition items must be records")) items;
  _ ← raise_if (negb (forallb (fun r => match dget "transition_id" r with PStr s => negb (String.eqb s "") | _ => false end) records))
               (ValueError "invalid transition_id");
  _ ← raise_if (negb (bool_decide (NoDup (text_of ∘ dget "transition_id" <$> records)))) (ValueError "duplicate transition_id");
  Ok records.

(** The conversation every turn and every preview belongs to. *)
Definition record_conversations (base : dict) : result (gmap (entity * string) string) :=
  foldM (fun m spec =>
           match spec.2.2 with
           | Conversation => Ok m
           | e => records ← _records base spec.1;
                  Ok (foldl (fun m r => <[(e, py_str (dget spec.2.1 r)) := py_str (dget "conversation_id" r)]> m) m records)
           end) ∅ _RECORD_SPECS.

(** The state and the conversation of every entity so far.  The identities of
    ownership entities the code also collects are never read. *)
Record replay := Replay {
  rp_states : gmap (entity * string) string;
  rp_conversations : gmap (entity * string) string
}.

Definition check_edge (e : entity) (current : option string) (from_state to_state : pyval) : result unit :=
  let mismatch := ValueError (entity_name e +:+ " transition from_state does not match current state") in
  match current with
  | None =>
      _ ← raise_if (negb (match from_state with PNone => true | _ => false end)) mismatch;
      raise_if (negb (py_eq to_state (PStr (INITIAL_STATES e)))) (ValueError ("illegal initial " +:+ entity_name e +:+ " transition"))
  | Some s =>
      _ ← raise_if (in_strs s (TERMINAL_STATES e)) (ValueError ("terminal " +:+ entity_name e +:+ " cannot transition"));
      _ ← raise_if (negb (py_eq from_state (PStr s))) mismatch;
      match edges_from e s with
      | None => Err (KeyError s)
      | Some targets =>
          allowed ← in_str_set to_state targets;
          raise_if (negb allowed) (ValueError ("illegal " +:+ entity_name e +:+ " transition"))
      end
  end.

Definition replay_transition (ids : identities) (owners : gmap (entity * string) string) (acc : replay) (t : dict)
    : result replay :=
  kind ← entity_of (dget "entity_type" t);
  match kind with
  | None => Err (ValueError "invalid conversation transition entity_type")
  | Some e =>
      match dget "entity_id" t with
      | PStr id =>
          _ ← raise_if (String.eqb id "") (ValueError "invalid conversation transition entity_id");
          known ← in_identities ids Conversation (dget "conversation_id" t);
          _ ← raise_if (negb known) (ValueError ("unknown conversation: " +:+ py_str (dget "conversation_id" t)));
          let conversation := text_of (dget "conversation_id" t) in
          let reference := (e, id) in
          _ ← raise_if (negb (bool_decide (e = Ownership)) && negb (bool_decide (reference ∈ ids)))
                       (ValueError ("unknown " +:+ entity_name e +:+ ": " +:+ id));
          _ ← raise_if (negb (bool_decide (e = Ownership)) && negb (bool_decide (e = Conversation))
                        && negb (bool_decide (owners !! reference = Some conversation)))
                       (ValueError (entity_name e +:+ " belongs to another conversation"));
          let prior := default conversation (rp_conversations acc !! reference) in
          _ ← raise_if (negb (String.eqb prior conversation))
                       (ValueError "conversation transition identity changed conversation");
          _ ← check_edge e (rp_states acc !! reference) (dget "from_state" t) (dget "to_state" t);
          Ok (Replay (<[reference := py_str (dget "to_state" t)]> (rp_states acc))
                     (<[reference := prior]> (rp_conversations acc)))
      | _ => Err (ValueError "invalid conversation transition entity_id")
      end
  end.

(** ** The projection *)

Record projection := Projection {
  pj_states : gmap (entity * string) string;
  active_turn_by_conversation : gmap string string;
  pending_preview_by_conversation : gmap string string
}.

(** At most one entity of a conversation may be in such a state. *)
Definition one_per_conversation (e : entity) (id_field : string) (counts : string -> bool) (twice : exn)
    (states : gmap (entity * string) string) (acc : gmap string string) (record : dict) : result (gmap string string) :=
  let id := py_str (dget id_field record) in
  match states !! (e, id) with
  | Some s =>
      if counts s then
        let conversation := py_str (dget "conversation_id" record) in
        match acc !! conversation with Some _ => Err twice | None => Ok (<[conversation := id]> acc) end
      else Ok acc
  | None => Ok acc
  end.

Definition project_conversation_history (base : dict) (transitions : pyval) : result projection :=
  ids ← _identity_sets base;
  records ← _transition_records transitions;
  owners ← record_conversations base;
  final ← foldM (replay_transition ids owners) (Replay ∅ ∅) records;
  turns ← _records base "conversation_turns";
  active ← foldM (one_per_conversation Turn "turn_id" (fun s => negb (in_strs s (TERMINAL_STATES Turn)))
                    (ValueError "conversation may have only one active turn") (rp_states final)) ∅ turns;
  previews ← _records base "conversation_preview_bindings";
  pending ← foldM (one_per_conversation Preview "preview_id" (String.eqb "pending")
                    (ValueError "conversation may have only one pending preview") (rp_states final)) ∅ previews;
  Ok (Projection (rp_states final) active pending).

Definition validate_conversation_history (base : dict) (transitions : pyval) : result projection :=
  project_conversation_history base transitions.

(** The transitions are a list of records, as its type says. *)
Definition append_validated_transition (base : dict) (transitions : list dict) (candidate : dict) : result (list dict) :=
  let proposed := transitions ++ [candidate] in
  _ ← validate_conversation_history base (PList (PDict <$> proposed));
  Ok proposed.
End history.

(** ** Abstract specification

    An entity starts in the initial state of its kind and follows the edges. *)

Inductive entity_transition (e : entity) : option string -> string -> Prop :=
| entity_starts : entity_transition e None (INITIAL_STATES e)
| entity_moves s targets s' : edges_from e s = Some targets -> s' ∈ targets -> s ∉ TERMINAL_STATES e ->
    entity_transition e (Some s) s'.

Definition state_value (s : option string) : pyval := match s with Some s => PStr s | None => PNone end.

(** The transitions of an entity, as [(from_state, to_state)], lead it there. *)
Inductive entity_path (e : entity) : list (pyval * pyval) -> option string -> Prop :=
| path_start : entity_path e [] None
| path_move moves s s' : entity_path e moves s -> entity_transition e s s' ->
    entity_path e (moves ++ [(state_value s, PStr s')]) (Some s').

Definition concerns (e : entity) (id : string) (t : dict) : bool :=
  py_eq (dget "entity_type" t) (PStr (entity_name e)) && py_eq (dget "entity_id" t) (PStr id).
Definition moves_of (e : entity) (id : string) (records : list dict) : list (pyval * pyval) :=
  (fun t => (dget "from_state" t, dget "to_state" t)) <$> List.filter (concerns e id) records.

(** ** Laws *)

Lemma entity_of_Some v e : entity_of v = Ok (Some e) <-> v = PStr (entity_name e).
Proof.
  unfold entity_of. split; [|by intros ->; destruct e].
  destruct (hashable v); [|done]. intros [= H]. destruct v; try done. apply find_first_Some in H as [_ H%String.eqb_eq]. congruence.
Qed.

Lemma in_identities_true ids e v : in_identities ids e v = Ok true -> exists s, v = PStr s /\ (e, s) ∈ ids.
Proof.
  unfold in_identities. destruct (hashable v); [|done]. destruct v; try done. intros [= H%bool_decide_eq_true]. eauto.
Qed.

Lemma entity_name_inj e e' : entity_name e = entity_name e' -> e = e'.
Proof. by destruct e, e'. Qed.

Lemma concerns_spec e id t : concerns e id t = true <-> dget "entity_type" t = PStr (entity_name e) /\ dget "entity_id" t = PStr id.
Proof. unfold concerns. by rewrite andb_true_iff, !py_eq_str. Qed.

Lemma moves_snoc e id records t :
  moves_of e id (records ++ [t]) = moves_of e id records ++ if concerns e id t then [(dget "from_state" t, dget "to_state" t)] else [].
Proof. unfold moves_of. rewrite List.filter_app, fmap_app. cbn. by destruct (concerns e id t). Qed.

Section laws.
Context {repr : PyRepr}.

Lemma check_edge_Ok e s from_state to_state : check_edge e s from_state to_state = Ok tt ->
  exists s', from_state = state_value s /\ to_state = PStr s' /\ entity_transition e s s'.
Proof.
  unfold check_edge. destruct s as [s|].
  - intros ([] & Ht & ([] & Hf & H)%bind_Ok)%bind_Ok. unfold raise_if in Ht, Hf.
    destruct (in_strs s _) eqn:Hterm; [done|]. destruct (py_eq from_state _) eqn:Hfrom; [|done]. apply py_eq_str in Hfrom.
    destruct (edges_from e s) as [targets|] eqn:He; [|done]. apply bind_Ok in H as (allowed & Ha & H).
    unfold raise_if in H. destruct allowed; [|done]. apply in_str_set_Ok_true in Ha as (s' & -> & Hs').
    exists s'. split; [done|]. split; [done|]. econstructor; [done..|]. intros Hin%in_strs_spec. congruence.
  - intros ([] & Hf & H)%bind_Ok. unfold raise_if in Hf, H. destruct from_state; try done.
    destruct (py_eq to_state _) eqn:Hto; [|done]. apply py_eq_str in Hto. eexists. split; [done|]. split; [done|]. constructor.
Qed.

(** What a replayed transition did. *)
Lemma replay_transition_Ok ids owners acc t acc' : replay_transition ids owners acc t = Ok acc' ->
  exists e id c s, dget "entity_type" t = PStr (entity_name e) /\ dget "entity_id" t = PStr id
    /\ dget "conversation_id" t = PStr c /\ (Conversation, c) ∈ ids
    /\ (e <> Ownership -> (e, id) ∈ ids) /\ (e = Turn \/ e = Preview -> owners !! (e, id) = Some c)
    /\ default c (rp_conversations acc !! (e, id)) = c
    /\ dget "from_state" t = state_value (rp_states acc !! (e, id)) /\ dget "to_state" t = PStr s
    /\ entity_transition e (rp_states acc !! (e, id)) s
    /\ acc' = Replay (<[(e, id) := s]> (rp_states acc)) (<[(e, id) := c]> (rp_conversations acc)).
Proof.
  unfold replay_transition. intros ([e|] & He & H)%bind_Ok; [|done]. apply entity_of_Some in He.
  destruct (dget "entity_id" t) as [| | | |id| | |] eqn:Hid; try done. inv_ok.
  match goal with H : in_identities _ _ _ = Ok ?b, Hb : negb ?b = false |- _ =>
    apply negb_false_iff in Hb; rewrite Hb in H; apply in_identities_true in H as (c & Hc & Hin) end.
  rewrite Hc in *. cbn [text_of] in *. split_guards.
  match goal with H : check_edge _ _ _ _ = Ok _ |- _ => apply check_edge_Ok in H as (s & Hf & Ht & Hedge) end.
  rewrite Ht. exists e, id, c, s. split_and!; try done.
  - intros Hne. match goal with H : negb (bool_decide (e = Ownership)) && negb (bool_decide (_ ∈ ids)) = false |- _ => rename H into Hk end.
    rewrite bool_decide_false in Hk by done. cbn in Hk. by apply negb_false_iff, bool_decide_eq_true in Hk.
  - intros Hk. match goal with H : _ && negb (bool_decide (owners !! _ = _)) = false |- _ => rename H into Ho end.
    rewrite !bool_decide_false in Ho by (by destruct Hk; subst). cbn in Ho. by apply negb_false_iff, bool_decide_eq_true in Ho.
  - cbn [py_str]. congruence.
Qed.

(** The replayed part of a history. *)
Record replay_inv (records : list dict) (acc : replay) : Prop := {
  ri_path : forall e id, entity_path e (moves_of e id records) (rp_states acc !! (e, id));
  ri_home : forall e id t, t ∈ records -> concerns e id t = true ->
    exists c, rp_conversations acc !! (e, id) = Some c /\ dget "conversation_id" t = PStr c
}.

Lemma replay_step ids owners records acc t acc' : replay_inv records acc -> replay_transition ids owners acc t = Ok acc' ->
  replay_inv (records ++ [t]) acc'.
Proof.
  intros [Hpath Hhome] (e & id & c & s & He & Hid & Hc & _ & _ & _ & Hprior & Hf & Ht & Hedge & ->)%replay_transition_Ok.
  assert (Hsame : forall e' id', concerns e' id' t = true <-> (e', id') = (e, id)).
  { intros e' id'. rewrite concerns_spec, He, Hid. split; [|by intros [= -> ->]].
    intros [[= H%entity_name_inj] [= ->]]. congruence. }
  split; cbn.
  - intros e' id'. rewrite moves_snoc. destruct (decide ((e', id') = (e, id))) as [[= -> ->]|Hne].
    + rewrite lookup_insert_eq, (proj2 (Hsame e id) eq_refl), Hf, Ht. by apply path_move.
    + rewrite lookup_insert_ne by done. destruct (concerns e' id' t) eqn:Hk; [by apply Hsame in Hk|]. by rewrite app_nil_r.
  - intros e' id' t' [Hin|H%list_elem_of_singleton]%elem_of_app Hk.
    + destruct (Hhome _ _ _ Hin Hk) as (c' & Hc' & Ht'). exists c'. split; [|done].
      destruct (decide ((e', id') = (e, id))) as [[= -> ->]|Hne]; [|by rewrite lookup_insert_ne].
      rewrite lookup_insert_eq. rewrite Hc' in Hprior. cbn in Hprior. congruence.
    + subst t'. apply Hsame in Hk as [= -> ->]. exists c. by rewrite lookup_insert_eq.
Qed.

Lemma replay_history ids owners records final : foldM (replay_transition ids owners) (Replay ∅ ∅) records = Ok final ->
  replay_inv records final.
Proof.
  apply (foldM_ind replay_inv).
  - split; [intros; constructor|]. by intros e id t H%elem_of_nil.
  - intros. by eapply replay_step.
Qed.

(** The record is of that entity and conversation, and counts. *)
Definition counted (e : entity) (id_field : string) (counts : string -> bool) (states : gmap (entity * string) string)
    (c id : string) (r : dict) : Prop :=
  py_str (dget id_field r) = id /\ py_str (dget "conversation_id" r) = c
  /\ exists s, states !! (e, id) = Some s /\ counts s = true.

Lemma one_per_step e id_field counts twice states acc r acc' :
  one_per_conversation e id_field counts twice states acc r = Ok acc' ->
  forall c id, acc' !! c = Some id <-> acc !! c = Some id \/ counted e id_field counts states c id r.
Proof.
  unfold one_per_conversation, counted. intros H c id.
  destruct (states !! (e, py_str (dget id_field r))) as [s|] eqn:Es; [destruct (counts s) eqn:Ec|].
  - destruct (acc !! _) eqn:Ea; [done|]. injection H as <-. rewrite lookup_insert_Some. split.
    + intros [[<- <-]|[_ Hacc]]; [right|by left]. eauto.
    + intros [Hacc|(<- & <- & _)]; [|by left]. right. split; [|done]. intros <-. congruence.
  - injection H as <-. split; [by left|]. intros [|(<- & _ & s' & Hs & Hk)]; [done|]. congruence.
  - injection H as <-. split; [by left|]. intros [|(<- & _ & s' & Hs & Hk)]; [done|]. congruence.
Qed.

Lemma one_per_spec e id_field counts twice states l m :
  foldM (one_per_conversation e id_field counts twice states) ∅ l = Ok m ->
  forall c id, m !! c = Some id <-> exists r, r ∈ l /\ counted e id_field counts states c id r.
Proof.
  apply (foldM_ind (fun l m => forall c id, m !! c = Some id <-> exists r, r ∈ l /\ counted e id_field counts states c id r)).
  - intros c id. rewrite lookup_empty. split; [done|]. by intros (r & H%elem_of_nil & _).
  - intros pre r acc acc' IH H c id. rewrite (one_per_step _ _ _ _ _ _ _ _ H), IH.
    setoid_rewrite elem_of_app. setoid_rewrite list_elem_of_singleton. split.
    + intros [(r' & ? & ?)|?]; eauto.
    + intros (r' & [?| ->] & ?); eauto.
Qed.

(** C33: In an accepted history every entity starts in its initial state and
    follows its edges: its transitions, in order, are a path of its state
    machine to the state the projection gives it, so nothing leaves a terminal
    state; all of them name one conversation and no two transitions share an
    identity.  A conversation's active turn is exactly the one turn of it that
    is in no terminal state, its pending preview the one that is pending. *)
Theorem conversation_history_sound base transitions p : project_conversation_history base transitions = Ok p ->
  exists records turns previews, _transition_records transitions = Ok records
    /\ _records base "conversation_turns" = Ok turns /\ _records base "conversation_preview_bindings" = Ok previews
    /\ NoDup (text_of ∘ dget "transition_id" <$> records)
    /\ (forall e id, entity_path e (moves_of e id records) (pj_states p !! (e, id)))
    /\ (forall e id t t', t ∈ records -> t' ∈ records -> concerns e id t = true -> concerns e id t' = true ->
          dget "conversation_id" t = dget "conversation_id" t')
    /\ (forall c id, active_turn_by_conversation p !! c = Some id <->
          exists r, r ∈ turns /\ counted Turn "turn_id" (fun s => negb (in_strs s (TERMINAL_STATES Turn))) (pj_states p) c id r)
    /\ (forall c id, pending_preview_by_conversation p !! c = Some id <->
          exists r, r ∈ previews /\ counted Preview "preview_id" (String.eqb "pending") (pj_states p) c id r).
Proof.
  unfold project_conversation_history.
  intros (ids & _ & (records & Hr & (owners & _ & (final & Hf%replay_history & H)%bind_Ok)%bind_Ok)%bind_Ok)%bind_Ok.
  apply bind_Ok in H as (turns & Ht & (active & Ha & (previews & Hp & (pending & Hq & [= <-])%bind_Ok)%bind_Ok)%bind_Ok).
  pose proof (one_per_spec _ _ _ _ _ _ _ Ha) as Hact. pose proof (one_per_spec _ _ _ _ _ _ _ Hq) as Hpend. exists records, turns, previews. cbn. split_and!; try done.
  - unfold _transition_records in Hr. inv_ok. subst. by split_guards.
  - apply Hf.
  - intros e id t t' Hin Hin' Hk Hk'. destruct (ri_home _ _ Hf _ _ _ Hin Hk) as (c & Hc & ->).
    destruct (ri_home _ _ Hf _ _ _ Hin' Hk') as (c' & Hc' & ->). congruence.
Qed.

Lemma transition_records_list l records : _transition_records (PList (PDict <$> l)) = Ok records -> records = l.
Proof.
  unfold _transition_records. cbn [sequence]. intros H. inv_ok. subst.
  match goal with H : mapR _ (PDict <$> l) = Ok _ |- _ => apply mapR_Ok in H; rename H into Hl end.
  clear -Hl. revert records Hl. induction l as [|d l IH]; intros records; inversion 1; subst; [done|].
  cbn in *. f_equal; [congruence|by apply IH].
Qed.

(** An appended transition moves one entity one step, and nothing else. *)
Lemma append_moves_one base transitions candidate p l :
  validate_conversation_history base (PList (PDict <$> transitions)) = Ok p ->
  append_validated_transition base transitions candidate = Ok l ->
  l = transitions ++ [candidate]
  /\ exists p' e id s, validate_conversation_history base (PList (PDict <$> l)) = Ok p' /\ concerns e id candidate = true
     /\ entity_transition e (pj_states p !! (e, id)) s /\ pj_states p' = <[(e, id) := s]> (pj_states p).
Proof.
  unfold append_validated_transition, validate_conversation_history. intros Hp (p' & Hp' & [= <-])%bind_Ok. split; [done|].
  rewrite Hp'. exists p'. unfold project_conversation_history in Hp, Hp'.
  apply bind_Ok in Hp as (ids & Hids & (records & Hr & (owners & Ho & (final & Hf & H)%bind_Ok)%bind_Ok)%bind_Ok).
  apply bind_Ok in Hp' as (ids' & Hids' & (records' & Hr' & (owners' & Ho' & (final' & Hf' & H')%bind_Ok)%bind_Ok)%bind_Ok).
  assert (ids' = ids) as -> by congruence. assert (owners' = owners) as -> by congruence.
  apply transition_records_list in Hr as ->, Hr' as ->. rewrite foldM_app, Hf in Hf'. cbn in Hf'.
  apply bind_Ok in Hf' as (acc & Hs & [= <-]). apply replay_transition_Ok in Hs as (e & id & c & s & He & Hid & _ & _ & _ & _ & _ & _ & _ & Hedge & ->).
  inv_ok. subst. exists e, id, s. cbn. split; [done|]. by rewrite concerns_spec.
Qed.
End laws.

(** ** Witness *)

(** The witness prints nothing. *)
Definition no_text : PyRepr := fun _ => "".
#[local] Existing Instance no_text.

Definition sample_base : dict :=
  [("conversation_sessions", PList [PDict [("conversation_id", PStr "cnv_1")]]);
   ("conversation_turns", PList [PDict [("turn_id", PStr "ctn_1"); ("conversation_id", PStr "cnv_1")];
                                 PDict [("turn_id", PStr "ctn_2"); ("conversation_id", PStr "cnv_1")]])].
Definition sample_move (n : string) (e : entity) (id : string) (from to : pyval) : pyval :=
  PDict [("transition_id", PStr n); ("conversation_id", PStr "cnv_1"); ("entity_type", PStr (entity_name e));
         ("entity_id", PStr id); ("from_state", from); ("to_state", to)].
(** One turn ends before the next begins; a Worker is being taken over. *)
Definition sample_transitions : pyval :=
  PList [sample_move "t1" Turn "ctn_1" PNone (PStr "created"); sample_move "t2" Turn "ctn_1" (PStr "created") (PStr "routing");
         sample_move "t3" Turn "ctn_1" (PStr "routing") (PStr "completed"); sample_move "t4" Turn "ctn_2" PNone (PStr "created");
         sample_move "t5" Ownership "worker" PNone (PStr "agentdeck_owned");
         sample_move "t6" Ownership "worker" (PStr "agentdeck_owned") (PStr "takeover_pending")].

Lemma conversation_history_sound_witness : exists p records,
  project_conversation_history sample_base sample_transitions = Ok p
  /\ entity_path Ownership (moves_of Ownership "worker" records) (Some "takeover_pending")
  /\ active_turn_by_conversation p !! "cnv_1" = Some "ctn_2".
Proof.
  destruct (project_conversation_history sample_base sample_transitions) as [p|e] eqn:E; [|by vm_compute in E].
  assert (Hp : pj_states p !! (Ownership, "worker") = Some "takeover_pending" /\ active_turn_by_conversation p !! "cnv_1" = Some "ctn_2")
    by (vm_compute in E; injection E as <-; by vm_compute).
  destruct Hp as [Hs Ha].
  destruct (conversation_history_sound _ _ _ E) as (records & _ & _ & _ & _ & _ & _ & Hpath & _).
  exists p, records. split; [done|]. split; [|done]. rewrite <- Hs. apply Hpath.
Defined.
