(* ===== verification/Dispatch.v ===== *)
(** * Dispatching an approved step ([cli.py], [dispatch_receptive.py],
    [startup_trust.py])

    Whether a pane can receive a task, the branch a step's worktree starts from,
    the preview of a dispatch, and the dispatch itself.  The pane's text, the
    worktree command, [git rev-parse], the keystrokes and the wording of the
    prompt belong to a [send_world] given to each dispatch. *)
From S2P Require Import Prelude PyStr PyVal StepDag ReviewGroup ReviewIteration Store.

(** ** Can the pane receive a task? *)

(** The active selector: one of the two glyphs, white space, the digit 1 and a
    full stop. *)
Fixpoint one_follows (cs : list string) : bool :=
  match cs with
  | c :: cs' =>
      if String.eqb c "1" then match cs' with d :: _ => String.eqb d "." | [] => false end
      else if is_space c then one_follows cs' else false
  | [] => false
  end.
Fixpoint has_active_selector (cs : list string) : bool :=
  match cs with
  | c :: cs' => ((String.eqb c "›" || String.eqb c "❯") && one_follows cs') || has_active_selector cs'
  | [] => false
  end.

Definition _RECEPTIVE_TAIL_LINES : nat := 20.
Definition _TRUST_MARKERS : list string :=
  ["Do you trust the contents of this directory"; "Is this a project you created or one you trust"].

Inductive receptive_reason := DirectoryTrust | PendingBox.
Inductive receptive_state := Receptive | Blocked (why : receptive_reason) | Unverifiable.

Definition classify_pane_receptive (pane_text : option string) : receptive_state :=
  match pane_text with
  | None => Unverifiable
  | Some text =>
      let lines := splitlines text in
      let tail := drop (length lines - _RECEPTIVE_TAIL_LINES) lines in
      if negb (existsb (fun line => has_active_selector (chars line)) tail) then Receptive
      else
        let folded := join " " (py_split (join " " tail)) in
        if existsb (fun marker => contains marker folded) _TRUST_MARKERS then Blocked DirectoryTrust
        else Blocked PendingBox
  end.

Definition receptive_blocker_message (verdict : receptive_state) (agent_id pane_id : string) : option string :=
  match verdict with
  | Blocked DirectoryTrust =>
      Some ("agent pane is waiting on a directory trust prompt: " +:+ agent_id +:+ " (pane=" +:+ pane_id
            +:+ "); run `agentdeck agent trust --confirm`, then respawn it")
  | Blocked PendingBox =>
      Some ("agent pane is waiting on an authorization box: " +:+ agent_id +:+ " (pane=" +:+ pane_id
            +:+ "); answer it or grant a delegation before dispatching")
  | _ => None
  end.

(** An agent of the configuration. *)
Record agent := Agent { ag_id : string; ag_role : string; ag_transport : string }.

Definition transport_dispatch_blocker (a : agent) : option string :=
  if String.eqb (ag_transport a) "tmux" then None
  else Some ("agent is configured for the " +:+ ag_transport a +:+ " transport, which this dispatch path "
             +:+ "cannot drive: " +:+ ag_id a +:+ "; AgentDeck will not silently fall back to typing into its pane").

(** ** Startup trust *)

Inductive trust_state := Trusted | Untrusted | ProviderNotRecognized | TrustStateUnreadable.
Definition RECOGNIZED_TRUST_PROVIDERS : list string := ["codex"; "claude"].
Definition classify_startup_trust (provider : option string) (recorded : option bool) : trust_state :=
  let name := lower (strip (default "" provider)) in
  if negb (in_strs name RECOGNIZED_TRUST_PROVIDERS) then ProviderNotRecognized
  else match recorded with
       | None => TrustStateUnreadable
       | Some true => Trusted
       | Some false => Untrusted
       end.

Section dispatch.
Context `{PyRepr}.

(** ** The base of a step's worktree *)

(** [_plan_body_steps]: an unknown plan has no steps. *)
Definition _plan_body_steps (state : dict) (plan_id : string) : result (list pyval) :=
  match plan_status state plan_id with
  | Ok v => Ok (PDict <$> pv_steps v)
  | Err (KeyError _) => Ok []
  | Err e => Err e
  end.

Definition base_step (plan_id : pyval) (messages : list (string * dict)) (current_step : Z) (siblings : list Z)
    (best : option (Z * string)) (a : dict) : option (Z * string) :=
  if negb (py_eq (dget "plan_id" a) plan_id) then best
  else match step_int a with
  | Err _ => best
  | Ok approval_step =>
      if (current_step <=? approval_step)%Z || bool_decide (approval_step ∈ siblings) then best
      else
        let branch := opt_get "worktree_branch" (last_for (py_str (dget "message_id" a)) messages) in
        if truthy branch && match best with Some (s, _) => (s <? approval_step)%Z | None => true end
        then Some (approval_step, py_str branch) else best
  end.

(** The steps of the review group [current_step] belongs to. *)
Definition siblings_of (groups : gmap Z Z) (current_step : Z) : list Z :=
  match groups !! current_step with
  | Some g => fst <$> List.filter (fun ng => (ng.2 =? g)%Z) (map_to_list groups)
  | None => []
  end.

Definition _plan_base_worktree_branch (state : dict) (plan_id step : pyval) : result (option string) :=
  if negb (truthy plan_id) then Ok None
  else match py_int (py_or step (PInt 0)) with
  | Err _ => Ok None
  | Ok current_step =>
      steps ← _plan_body_steps state (py_str plan_id);
      let siblings := siblings_of (review_group_numbers steps) current_step in
      messages ← state_list "messages" state;
      let by_id := (fun m => (py_str (dget "message_id" m), m)) <$> dicts_of messages in
      approvals ← state_list "approvals" state;
      Ok (snd <$> foldl (base_step plan_id by_id current_step siblings) None (dicts_of approvals))
  end.

(** ** Rework steps get no review criteria *)

Definition _approval_is_rework_step (state : dict) (approval : dict) : result bool :=
  let plan_id := dget "plan_id" approval in
  if negb (truthy plan_id) then Ok false
  else
    plans ← state_list "plans" state;
    let plan := find_first (fun p => py_eq (dget "plan_id" p) plan_id) (dicts_of plans) in
    steps ← py_iter (match plan with Some p => plan_steps p | None => PList [] end);
    in_int_set (dget "step" approval) (rework_step_numbers steps).

(** ** Preview and dispatch *)

Definition _agent_by_id (agents : list agent) (id : string) : option agent :=
  find_first (fun a => String.eqb (ag_id a) id) agents.

(** [state.get("agents", {}).get(agent_id)] *)
Definition agent_binding (state : dict) (agent_id : string) : result (option dict) :=
  match dlookup "agents" state with
  | None => Ok None
  | Some (PDict agents) =>
      match dlookup agent_id agents with
      | None | Some PNone => Ok None
      | Some (PDict b) => Ok (Some b)
      | Some _ => Err AttributeError
      end
  | Some _ => Err AttributeError
  end.

(** [str(approval.get("agent_id", ""))] *)
Definition str_get (key : string) (d : dict) : string :=
  match dlookup key d with Some v => py_str v | None => "" end.

(** The blocker of [_approval_dispatch_preview_card]. *)
Definition preview_blocker (agents : list agent) (state : dict) (approval : dict) : result (option string) :=
  let agent_id := str_get "agent_id" approval in
  binding ← agent_binding state agent_id;
  let binding := default [] binding in
  let runtime_status := match dlookup "status" binding with Some v => py_str v | None => "configured" end in
  Ok (match _agent_by_id agents agent_id with
      | None => Some ("unknown agent: " +:+ agent_id)
      | Some _ =>
          if negb (truthy (dget "pane_id" binding)) then Some ("agent is not spawned: " +:+ agent_id)
          else if negb (String.eqb runtime_status "running")
          then Some ("agent runtime is " +:+ runtime_status +:+ ": " +:+ agent_id)
          else None
      end).

(** What a dispatch meets outside the store: the captured pane, the identities
    and clock readings it draws, the worktree made for a base branch ([Err] when
    the command raises), the commit of a branch, the prompt for the given review
    criteria with its skill context, and whether the keystrokes went out. *)
Record send_world := {
  sw_pane : option string; sw_ids : dispatch_ids; sw_now : string; sw_marked : string;
  sw_worktree : option string -> result (option (string * string)); sw_commit : option string -> pyval;
  sw_prompt : option (list pyval) -> string; sw_skill : pyval; sw_sent : bool
}.

(** Everything [_dispatch_approved_approval] settles before it writes: the agent,
    the pane, the task, the prompt and the worktree. *)
Definition prepare_dispatch (agents : list agent) (state : dict) (approval : dict) (w : send_world)
    : result (string * string * string * worktree) :=
  let agent_id := str_get "agent_id" approval in
  match _agent_by_id agents agent_id with
  | None => Err (ValueError ("unknown agent: " +:+ agent_id))
  | Some a =>
      binding ← agent_binding state agent_id;
      let pane := opt_get "pane_id" binding in
      _ ← raise_if (negb (truthy pane)) (RuntimeError ("agent is not spawned: " +:+ agent_id));
      let pane_id := py_str pane in
      _ ← (match receptive_blocker_message (classify_pane_receptive (sw_pane w)) agent_id pane_id with
           | Some m => Err (RuntimeError m) | None => Ok tt end);
      _ ← (match transport_dispatch_blocker a with Some m => Err (RuntimeError m) | None => Ok tt end);
      base_branch ← _plan_base_worktree_branch state (dget "plan_id" approval) (dget "step" approval);
      info ← sw_worktree w base_branch;
      criteria ← (if match base_branch with Some b => negb (String.eqb b "") | None => false end then
                    rework ← _approval_is_rework_step state approval;
                    if rework : bool then Ok None
                    else _plan_acceptance_criteria state (py_str (py_or (dget "plan_id" approval) (PStr "")))
                  else Ok None);
      Ok (pane_id, str_get "task" approval, sw_prompt w criteria,
          match info with
          | Some (path, branch) =>
              {| wt_path := PStr path; wt_branch := PStr branch;
                 wt_base_branch := match base_branch with Some b => PStr b | None => PNone end;
                 wt_base_commit := sw_commit w base_branch |}
          | None => no_worktree
          end)
  end.

(** The state it leaves, and the identity of the dispatched message or the
    exception; the records stay when sending or marking fails. *)
Definition _dispatch_approved_approval (agents : list agent) (state : dict) (approval : dict) (approval_id : string)
    (w : send_world) : dict * result string :=
  let i := sw_ids w in
  match prepare_dispatch agents state approval w with
  | Err e => (state, Err e)
  | Ok (pane_id, task, prompt, tree) =>
      match create_dispatch_records state i (sw_now w) "leader" (str_get "agent_id" approval) task prompt pane_id
              (Some (sw_skill w)) tree with
      | Err e => (state, Err e)
      | Ok state1 =>
          if negb (sw_sent w) then (state1, Err (RuntimeError "send_input"))
          else match mark_approval_dispatched state1 approval_id (di_message i) (di_attempt i) (di_job i)
                       (sw_marked w) with
               | Err e => (state1, Err e)
               | Ok (state2, _) => (state2, Ok (di_message i))
               end
      end
  end.
End dispatch.

(** ** What a dispatch does to the store *)

Lemma create_dispatch_records_lookup state i now from_actor to_agent task prompt pane skill tree state' key :
  create_dispatch_records state i now from_actor to_agent task prompt pane skill tree = Ok state' ->
  key ∉ ["messages"; "attempts"; "jobs"; "inbox"] -> dlookup key state' = dlookup key state.
Proof.
  unfold create_dispatch_records. intros (s1 & H1 & (s2 & H2 & (s3 & H3 & H4)%bind_Ok)%bind_Ok)%bind_Ok Hk.
  rewrite !not_elem_of_cons in Hk. destruct Hk as (? & ? & ? & ? & _).
  rewrite (append_inbox_lookup _ _ _ _ _ H4) by done.
  apply append_rows_Ok in H1 as (? & _ & ->), H2 as (? & _ & ->), H3 as (? & _ & ->). by rewrite !dlookup_dset_ne.
Qed.

(** A failed dispatch never marks an approval; a successful one leaves the plans
    and replies alone and marks exactly the first approval with the identity. *)
Lemma dispatch_effect `{PyRepr} agents state approval id w state' r :
  _dispatch_approved_approval agents state approval id w = (state', r) ->
  dlookup "plans" state' = dlookup "plans" state /\ dlookup "replies" state' = dlookup "replies" state
  /\ dlookup "agents" state' = dlookup "agents" state
  /\ match r with
     | Err _ => dlookup "approvals" state' = dlookup "approvals" state
     | Ok m => m = di_message (sw_ids w) /\ is_ok (prepare_dispatch agents state approval w) = true
         /\ exists pre a post a', state_list "approvals" state = Ok ((PDict <$> pre) ++ PDict a :: post)
           /\ dget "approval_id" a = PStr id /\ Forall (fun x => dget "approval_id" x <> PStr id) pre
           /\ dget "approval_id" a' = PStr id /\ dget "status" a' = PStr "dispatched" /\ dget "message_id" a' = PStr m
           /\ state_list "approvals" state' = Ok ((PDict <$> pre) ++ PDict a' :: post)
     end.
Proof.
  unfold _dispatch_approved_approval. destruct (prepare_dispatch agents state approval w) as [[[[pane task] prompt] tree]|e];
    [|by intros [= <- <-]].
  destruct (create_dispatch_records _ _ _ _ _ _ _ _ _ _) as [s1|e] eqn:Hc; [|by intros [= <- <-]].
  assert (Hkeep : forall key, key ∉ ["messages"; "attempts"; "jobs"; "inbox"] -> dlookup key s1 = dlookup key state).
  { intros key. by apply (create_dispatch_records_lookup _ _ _ _ _ _ _ _ _ _ _ _ Hc). }
  assert (Hn : "plans" ∉ ["messages"; "attempts"; "jobs"; "inbox"] /\ "replies" ∉ ["messages"; "attempts"; "jobs"; "inbox"]
    /\ "agents" ∉ ["messages"; "attempts"; "jobs"; "inbox"] /\ "approvals" ∉ ["messages"; "attempts"; "jobs"; "inbox"])
    by (split_and!; not_in).
  destruct Hn as (Hn1 & Hn2 & Hn3 & Hn4).
  destruct (sw_sent w); cbn [negb]; [|intros [= <- <-]; split_and!; by apply Hkeep].
  destruct (mark_approval_dispatched _ _ _ _ _ _) as [[s2 a']|e] eqn:Hm; [|intros [= <- <-]; split_and!; by apply Hkeep].
  intros [= <- <-]. unfold mark_approval_dispatched in Hm.
  apply change_approval_Ok in Hm as (pre & a & post & Hrows & Ha & Hpre & -> & ->).
  rewrite !dlookup_dset_ne by done. split; [by apply Hkeep|]. split; [by apply Hkeep|]. split; [by apply Hkeep|].
  split; [done|]. split; [done|].
  exists pre, a, post, (dispatched_as (di_message (sw_ids w)) (di_attempt (sw_ids w)) (di_job (sw_ids w)) (sw_marked w) a).
  apply has_id_iff in Ha. split; [unfold state_list in *; by rewrite <- Hkeep|]. split; [done|]. split.
  { eapply Forall_impl; [exact Hpre|]. intros x Hx Heq. apply has_id_iff in Heq. congruence. }
  split; [|split; [|split; [|by rewrite state_list_dset]]]; unfold dispatched_as; by rewrite !dget_dset.
Qed.

(** ** The base branch *)

(** The approval [a] offers [b], made at its step [s], as a base for
    [current_step]. *)
Definition offers `{PyRepr} (plan_id : pyval) (messages : list (string * dict)) (current_step : Z) (siblings : list Z)
    (a : dict) (s : Z) (b : string) : Prop :=
  py_eq (dget "plan_id" a) plan_id = true /\ step_int a = Ok s /\ (s < current_step)%Z /\ s ∉ siblings
  /\ let branch := opt_get "worktree_branch" (last_for (py_str (dget "message_id" a)) messages) in
     truthy branch = true /\ b = py_str branch.

Section base.
Context `{PyRepr}.
Variables (plan_id : pyval) (messages : list (string * dict)) (current_step : Z) (siblings : list Z).

Lemma base_step_cases best a :
  let offer := offers plan_id messages current_step siblings a in
  let best' := base_step plan_id messages current_step siblings best a in
  (best' = best /\ forall s b, offer s b -> exists s0 b0, best = Some (s0, b0) /\ (s <= s0)%Z)
  \/ (exists s b, best' = Some (s, b) /\ offer s b /\ forall s0 b0, best = Some (s0, b0) -> (s0 < s)%Z).
Proof.
  cbv zeta. unfold base_step, offers. destruct (py_eq (dget "plan_id" a) plan_id) eqn:Hp; cbn [negb];
    [|left; split; [done|by intros s b []]].
  destruct (step_int a) as [s|e] eqn:Hs; [|left; split; [done|by intros s b (_ & [=] & _)]].
  destruct ((current_step <=? s)%Z || bool_decide (s ∈ siblings)) eqn:Hout.
  { left. split; [done|]. intros s' b (_ & [= <-] & Hlt & Hsib & _). exfalso. apply orb_true_iff in Hout as [?|?]; split_guards;
      [lia|done]. }
  split_guards. set (branch := opt_get _ _). destruct (truthy branch) eqn:Ht; cbn [andb].
  - destruct best as [[s0 b0]|].
    + destruct (Z.ltb_spec s0 s).
      * right. exists s, (py_str branch). split; [done|]. split; [done|]. by intros ? ? [= <- <-].
      * left. split; [done|]. intros s' b (_ & [= <-] & _). by exists s0, b0.
    + right. exists s, (py_str branch). by repeat (split; [done|]).
  - left. split; [done|]. intros s' b (_ & _ & _ & _ & Hbr & _). congruence.
Qed.

Lemma base_fold approvals best :
  let r := foldl (base_step plan_id messages current_step siblings) best approvals in
  (forall s b, r = Some (s, b) -> best = Some (s, b)
     \/ exists a, a ∈ approvals /\ offers plan_id messages current_step siblings a s b)
  /\ (forall s0 b0, best = Some (s0, b0) -> exists s b, r = Some (s, b) /\ (s0 <= s)%Z)
  /\ (forall a s' b', a ∈ approvals -> offers plan_id messages current_step siblings a s' b' ->
        exists s b, r = Some (s, b) /\ (s' <= s)%Z).
Proof.
  cbv zeta. revert best. induction approvals as [|a approvals IH]; intros best; cbn [foldl].
  - split; [by left|]. split; [intros s0 b0 ->; eexists _, _; split; [done|lia]|]. by intros ? ? ? ?%not_elem_of_nil.
  - destruct (IH (base_step plan_id messages current_step siblings best a)) as (IH1 & IH2 & IH3).
    destruct (base_step_cases best a) as [[Hb Hno]|(s1 & b1 & Hb & Hoff & Hlt)]; rewrite Hb in IH1, IH2, IH3 |- *.
    + split; [intros s b Hr; destruct (IH1 _ _ Hr) as [|(x & Hx & Ho)]; [by left|right; exists x; split; [by right|done]]|].
      split; [done|]. intros x s' b' [->|Hx]%elem_of_cons Ho; [|by eauto].
      destruct (Hno _ _ Ho) as (s0 & b0 & Hbest & Hle). destruct (IH2 _ _ Hbest) as (s & b & Hr & Hle').
      exists s, b. split; [done|lia].
    + split.
      { intros s b Hr. right. destruct (IH1 _ _ Hr) as [[= -> ->]|(x & Hx & Ho)]; [exists a; split; [by left|done]|].
        exists x. split; [by right|done]. }
      destruct (IH2 _ _ eq_refl) as (s & b & Hr & Hle). split.
      { intros s0 b0 Hbest. specialize (Hlt _ _ Hbest). exists s, b. split; [done|lia]. }
      intros x s' b' [->|Hx]%elem_of_cons Ho; [|by eauto]. exists s, b. split; [done|].
      destruct Ho as (_ & Hs' & _), Hoff as (_ & Hs1 & _). assert (s' = s1) as -> by congruence. lia.
Qed.
End base.

Lemma siblings_spec groups current x :
  x ∈ siblings_of groups current <-> exists g, groups !! current = Some g /\ groups !! x = Some g.
Proof.
  unfold siblings_of. destruct (groups !! current) as [g|] eqn:Hg.
  - rewrite list_elem_of_fmap. split.
    + intros ([n g'] & -> & [Hin Heq]%list_elem_of_In%filter_In). apply Z.eqb_eq in Heq. cbn in *. subst g'.
      rewrite <- list_elem_of_In, elem_of_map_to_list in Hin. eauto.
    + intros (g' & [= <-] & Hx). exists (x, g). split; [done|]. apply list_elem_of_In, filter_In.
      rewrite <- list_elem_of_In, elem_of_map_to_list. split; [done|]. cbn. by apply Z.eqb_eq.
  - split; [by intros ?%not_elem_of_nil|]. by intros (g & ? & _).
Qed.

(** The branch a step's worktree starts from was made by an approval of the
    same plan at an earlier step that is not a member of the same review group
    (reviewers never see each other's work), and no such approval with a branch
    has a later step. *)
Lemma base_branch_independent `{PyRepr} state plan_id step b :
  _plan_base_worktree_branch state plan_id step = Ok (Some b) ->
  exists current steps messages approvals a s,
    py_int (py_or step (PInt 0)) = Ok current /\ _plan_body_steps state (py_str plan_id) = Ok steps
    /\ state_list "approvals" state = Ok approvals /\ PDict a ∈ approvals
    /\ let by_id := (fun m => (py_str (dget "message_id" m), m)) <$> dicts_of messages in
       let groups := review_group_numbers steps in
       let offer := offers plan_id by_id current (siblings_of groups current) in
       state_list "messages" state = Ok messages /\ offer a s b
       /\ ~ (exists g, groups !! current = Some g /\ groups !! s = Some g)
       /\ forall a' s' b', PDict a' ∈ approvals -> offer a' s' b' -> (s' <= s)%Z.
Proof.
  unfold _plan_base_worktree_branch. destruct (truthy plan_id); cbn [negb]; [|done].
  destruct (py_int (py_or step (PInt 0))) as [current|e]; [|done].
  intros (steps & Hsteps & (messages & Hm & (approvals & Hap & [= Hf])%bind_Ok)%bind_Ok)%bind_Ok.
  match type of Hf with snd <$> ?r = _ => destruct r as [[s b']|] eqn:Hr; [|done] end. injection Hf as ->.
  set (by_id := (fun m => (py_str (dget "message_id" m), m)) <$> dicts_of messages) in *.
  destruct (base_fold plan_id by_id current (siblings_of (review_group_numbers steps) current) (dicts_of approvals) None)
    as (H1 & _ & H3). rewrite Hr in H1, H3. destruct (H1 _ _ eq_refl) as [|(a & Ha & Ho)]; [done|].
  exists current, steps, messages, approvals, a, s. do 3 (split; [done|]). split; [by apply elem_of_dicts_of|].
  cbv zeta. fold by_id. split; [done|]. split; [done|]. split.
  - rewrite <- siblings_spec. by destruct Ho as (_ & _ & _ & ? & _).
  - intros a' s' b' Ha'%elem_of_dicts_of Ho'. destruct (H3 _ _ _ Ha' Ho') as (s1 & b1 & [= <- <-] & Hle). done.
Qed.

(** A dispatch into a pane a dialog owns, or for an agent configured for
    another transport, fails before it writes anything. *)
Lemma refused_dispatch_writes_nothing `{PyRepr} agents state approval id w a :
  _agent_by_id agents (str_get "agent_id" approval) = Some a ->
  (exists why, classify_pane_receptive (sw_pane w) = Blocked why) \/ ag_transport a <> "tmux" ->
  exists e, _dispatch_approved_approval agents state approval id w = (state, Err e).
Proof.
  intros Ha Hwhy. unfold _dispatch_approved_approval.
  assert (exists e, prepare_dispatch agents state approval w = Err e) as [e ->]; [|by exists e].
  unfold prepare_dispatch. rewrite Ha. destruct (agent_binding state _) as [binding|e]; [|by exists e].
  cbn [mbind result_bind]. unfold raise_if. destruct (negb _); [by eexists|]. cbn [mbind result_bind].
  destruct (receptive_blocker_message _ _ _) as [m|] eqn:Hm; [by eexists|]. cbn [mbind result_bind].
  destruct Hwhy as [[why Hb]|Ht].
  - rewrite Hb in Hm. by destruct why.
  - unfold transport_dispatch_blocker. rewrite (proj2 (String.eqb_neq _ _) Ht). cbn [mbind result_bind]. by eexists.
Qed.

(** ** A concrete project *)

Definition sample_agents : list agent := [Agent "coder" "impl" "tmux"; Agent "critic" "review" "tmux"].
Definition sample_send (id : string) : send_world :=
  {| sw_pane := Some "ready"; sw_now := "t1"; sw_marked := "t2";
     sw_ids := {| di_message := "m-" +:+ id; di_attempt := "at-" +:+ id; di_job := "j-" +:+ id; di_inbox := "i-" +:+ id |};
     sw_worktree := fun _ => Ok (Some ("/w", "b-" +:+ id)); sw_commit := fun _ => PNone;
     sw_prompt := fun _ => "do it"; sw_skill := PNone; sw_sent := true |}.

#[local] Existing Instance sample_repr.

Definition trust_screen : string := "Do you trust the contents of this directory?" +:+ LF +:+ "❯ 1. Yes".

Lemma refused_dispatch_writes_nothing_witness :
  exists e, _dispatch_approved_approval sample_agents (sample_state [] [] [])
    (sample_approval "a1" 1 "coder" "approved" "") "a1"
    {| sw_pane := Some trust_screen; sw_now := "t1"; sw_marked := "t2"; sw_ids := sw_ids (sample_send "a1");
       sw_worktree := fun _ => Ok None; sw_commit := fun _ => PNone; sw_prompt := fun _ => ""; sw_skill := PNone;
       sw_sent := true |} = (sample_state [] [] [], Err e).
Proof.
  apply (refused_dispatch_writes_nothing _ _ _ _ _ (Agent "coder" "impl" "tmux")); [by vm_compute|].
  left. exists DirectoryTrust. by vm_compute.
Defined.

Lemma base_branch_independent_witness :
  exists current s, (s < current)%Z
    /\ _plan_base_worktree_branch
         (sample_state [sample_approval "a1" 1 "coder" "dispatched" "m1"; sample_approval "a2" 2 "critic" "approved" ""]
            [[("message_id", PStr "m1"); ("worktree_branch", PStr "agentdeck/coder/m1")]] [])
         (PStr "p1") (PInt 2) = Ok (Some "agentdeck/coder/m1").
Proof.
  set (state := sample_state _ _ _).
  assert (Hb : _plan_base_worktree_branch state (PStr "p1") (PInt 2) = Ok (Some "agentdeck/coder/m1")) by (by vm_compute).
  destruct (base_branch_independent _ _ _ _ Hb) as (current & steps & messages & approvals & a & s & _ & _ & _ & _ & _ & Ho & _).
  destruct Ho as (_ & _ & Hlt & _). exists current, s. split; [exact Hlt|exact Hb].
Defined.
