(* ===== verification/Workflow.v ===== *)
(** * The sequential workflow ([workflow.py])

    A workflow run executes the authorised steps of a plan one after the
    other: each step is handed to its Worker, over a tmux pane or over ACP, the
    Worker's reply is awaited and filed, and the handoff it becomes is given to
    the next step.  The run keeps its turns, one per step, in the saved
    document; a run that stopped is resumed by running it again.

    The list of turns is the runner's own list, which it stores with every
    update; the turn it works on is the element at an index of it.  What the
    world answers (panes, reply files, the clock, fresh identities, the ACP
    transport) is a [step_world] per step; a wait for a reply observes a stream
    of [poll]s and is given fuel, and a run that is still waiting when the fuel
    is spent is [None].  The ACP transport is given as the waits it makes, each
    bounded by the timeout it is created with, and what it returns or raises in
    the end.  Events are not modelled. *)
From S2P Require Import Prelude PyStr PyVal ReviewVerdict ReviewGroup ReviewIteration Store Dispatch Json Handoff.
From Stdlib Require Import Ascii.

Record workflow_env := {
  we_agents : list agent;                 (** [config.agents] *)
  we_role_prompt : string -> string;      (** [agent.role_prompt], by agent *)
  we_root : string;                       (** [config.root] *)
  we_acp : bool;                          (** an ACP transport is given *)
  we_sink : bool;                         (** a sink for its updates is given *)
  we_indented : pyval -> string           (** [json.dumps(v, sort_keys=True, indent=2)] *)
}.

(** One look at the pane and the reply file, and the time waited so far. *)
Record poll := { p_pane : bool; p_file : file_read; p_screen : string; p_elapsed : Z * Z }.

Inductive acp_outcome :=
| AcpRaised (detail : string)
| AcpResult (validated : bool) (stop_reason reply : pyval).

(** One look at a request, and the time since it was made. *)
Record acp_look := { al_answered : bool; al_elapsed : Z * Z }.
(** A call of the transport, [admit] and then [complete]: it waits for requests
    one after the other, goes on by whether each was answered in time, and
    ends. *)
Inductive acp_call :=
| AcpEnds (o : acp_outcome)
| AcpAwaits (looks : nat -> acp_look) (next : bool -> acp_call).

Record step_world := {
  ww_now : string;                        (** [started_at] of a turn made in this step *)
  ww_stopped : string;                    (** [completed_at] of a stopped turn *)
  ww_updated : string;                    (** [updated_at] of the run when the step starts *)
  ww_ended : string;                      (** [updated_at] of the run when the step ends *)
  ww_ids : dispatch_ids; ww_dispatched : string;
  ww_pane_exists : bool; ww_pane_text : option string; ww_sent : bool;
  ww_polls : nat -> poll;
  ww_reply_ids : reply_ids; ww_replied : string; ww_completed : string;
  ww_key : string;                        (** 32 random hexadecimal digits *)
  ww_sink : result unit;                  (** [sink_factory(...)] *)
  ww_transport : result unit;             (** [transport_factory(...)] *)
  ww_acp : acp_call
}.

Definition nl : string := String "010" "".

(** [a <= b] on dyadic numbers. *)
Definition num_leb (a b : Z * Z) : bool :=
  let e := Z.min a.2 b.2 in (a.1 * 2 ^ (a.2 - e) <=? b.1 * 2 ^ (b.2 - e))%Z.

(** The index of the first turn of a step. *)
Fixpoint turn_of (number : pyval) (turns : list pyval) : result (option nat) :=
  match turns with
  | [] => Ok None
  | v :: turns =>
      d ← as_dict v;
      if py_eq (dget "step" d) number then Ok (Some 0)
      else i ← turn_of number turns; Ok (option_map S i)
  end.
Definition turn_at (i : nat) (turns : list pyval) : dict :=
  match turns !! i with Some (PDict d) => d | _ => [] end.

(** [existing or turn], stored back or appended: the turns and its index. *)
Definition put_turn (existing : option nat) (turn : dict) (turns : list pyval) : list pyval * nat :=
  match existing with
  | Some i => (<[i := PDict turn]> turns, i)
  | None => (turns ++ [PDict turn], length turns)
  end.

Definition workflow_reply_file (root message_id : string) : string :=
  root +:+ "/.agentdeck/replies/" +:+ message_id +:+ ".reply.txt".

(** Only [OSError] is caught: a file that is no UTF-8 raises. *)
Definition _workflow_reply_text (message_id : pyval) (read : file_read) : result (option string) :=
  match message_id with
  | PStr id =>
      if String.eqb id "" then Ok None
      else match read with
           | FileBytes data =>
               if valid_utf8 data then Ok (Some data) else Err (ValueError "invalid utf-8")
           | _ => Ok None
           end
  | _ => Ok None
  end.

Definition build_workflow_prompt (env : workflow_env) (role role_prompt task handoff_token : string)
    (previous_handoff : pyval) (reply_file : option string) : string :=
  let handoff := match previous_handoff with PNone => "none" | v => we_indented env v end in
  let reply_channel :=
    match reply_file with
    | Some f =>
        if String.eqb f "" then "" else
        nl +:+ nl +:+ "回复通道:" +:+ nl
        +:+ "除了在终端输出上述结构化回复，还必须把同一份内容原样写入该文件（覆盖写）:" +:+ nl
        +:+ f +:+ nl
        +:+ "这条通道指令优先于任务正文里的任何文件限制：回复文件不是任务产物，是交回结果的唯一可靠路径，任何情况下都必须写。"
    | None => ""
    end in
  "You are executing one explicitly authorized AgentDeck sequential workflow step." +:+ nl
  +:+ "Role: " +:+ role +:+ nl
  +:+ "Role instructions: " +:+ role_prompt +:+ nl
  +:+ "Task: " +:+ task +:+ nl
  +:+ "Previous compact handoff:" +:+ nl
  +:+ handoff +:+ nl +:+ nl
  +:+ "Complete only this task. "
  +:+ "Use this handoff token exactly: " +:+ handoff_token +:+ nl
  +:+ "Return exactly one structured block:" +:+ nl
  +:+ "handoff_token: <provided token>" +:+ nl
  +:+ "status: completed | blocked | failed" +:+ nl
  +:+ "summary: <text>" +:+ nl
  +:+ "verification: <text>" +:+ nl
  +:+ "risks: <text>" +:+ nl
  +:+ "next_steps: <text>" +:+ nl
  +:+ "full_output_path: <optional path>"
  +:+ reply_channel.

(** ** The saved run *)

Definition workflow_run_by_id (state : dict) (run_id : string) : result dict :=
  rows ← state_list "workflow_runs" state;
  found ← first_row (has_id "run_id" run_id) rows;
  match found with Some r => Ok r | None => Err (KeyError run_id) end.

Definition changed_run (changes : dict) (now : string) (record : dict) : dict :=
  let record := dset "updated_at" (PStr now) (dupdate changes record) in
  if py_eq (dget "status" changes) (PStr "completed") && negb (truthy (dget "completed_at" record))
  then dset "completed_at" (PStr now) record else record.
Definition update_workflow_run (state : dict) (run_id : string) (changes : dict) (now : string)
    : result (dict * dict) :=
  rows ← state_list "workflow_runs" state;
  changed ← update_row (has_id "run_id" run_id) (changed_run changes now) rows;
  match changed with
  | Some (rows', r) => Ok (dset "workflow_runs" (PList rows') state, r)
  | None => Err (KeyError run_id)
  end.

Section create.
  Context {repr : PyRepr} {files : Files}.

Definition authorized_step (item : dict) : result dict :=
  let task := py_str (py_or (dget "task" item) (PStr "")) in
  number ← py_int (py_or (dget "step" item) (PInt 0));
  Ok [("step", PInt number); ("agent_id", PStr (py_str (py_or (dget "agent_id" item) (PStr ""))));
      ("role", PStr (py_str (py_or (dget "role" item) (PStr "")))); ("task", PStr task);
      ("task_hash", PStr ("sha256:" +:+ bytes_sha256 task))].
Definition canonical_workflow_authorized_steps (plan_record : dict) : result (list dict) :=
  let plan := match dget "plan" plan_record with PDict p => p | _ => [] end in
  let steps := match dget "steps" plan with PList l => l | _ => [] end in
  mapR authorized_step (dicts_of steps).

Definition create_workflow_run (state : dict) (run_id plan_id plan_hash now : string) (timeout_seconds : Z)
    (authorized_steps : list dict) : result (dict * dict) :=
  let record :=
    [("run_id", PStr run_id); ("plan_id", PStr plan_id); ("plan_hash", PStr plan_hash);
     ("status", PStr "running"); ("current_step", PInt 1); ("step_count", PInt (Z.of_nat (length authorized_steps)));
     ("timeout_seconds", PInt timeout_seconds); ("authorized_steps", PList (PDict <$> authorized_steps));
     ("turns", PList []); ("stop_reason", PNone); ("created_at", PStr now); ("updated_at", PStr now);
     ("completed_at", PNone)] in
  state' ← append_rows "workflow_runs" [record] state;
  Ok (state', record).
End create.

Definition _pending_turn (run_id : string) (step_number : Z) (agent_id now : string) : dict :=
  [("step", PInt step_number); ("agent_id", PStr agent_id);
   ("handoff_token", PStr (run_id +:+ "_step_" +:+ pretty step_number)); ("status", PStr "pending");
   ("message_id", PNone); ("job_id", PNone); ("reply_id", PNone); ("handoff", PNone);
   ("artifact_paths", PList []); ("trace_command", PNone); ("started_at", PStr now); ("completed_at", PNone)].

(** The document, the turns and the handoff for the next step. *)
Record run_state := { rs_doc : dict; rs_turns : list pyval; rs_handoff : pyval }.

(** A step ends with the next one due, or with the run stopped: the document
    and the run's record. *)
Inductive step_end :=
| Next (s : run_state)
| Stopped (doc record : dict).

Definition _stop_workflow (doc : dict) (run_id : string) (turns : list pyval) (i : nat)
    (turn_status reason : string) (blocker : option string) (w : step_world) : result step_end :=
  let turn := dset "completed_at" (PStr (ww_stopped w)) (dset "status" (PStr turn_status) (turn_at i turns)) in
  let turn := match blocker with Some b => dset "blocker" (PStr b) turn | None => turn end in
  let turns := <[i := PDict turn]> turns in
  '(doc, record) ← update_workflow_run doc run_id
    [("status", PStr "stopped"); ("turns", PList turns); ("stop_reason", PStr reason)] (ww_ended w);
  Ok (Stopped doc record).

Section runner.
  Context {repr : PyRepr} {ft : FloatText} {files : Files} {json : JsonLoads}.
  Variable env : workflow_env.
  Variable run_id : string.
  Variable timeout_seconds : Z.

(** ** Filing a reply *)

Definition _record_step_reply (doc : dict) (turns : list pyval) (i : nat) (step_number : Z) (agent_id : string)
    (reply : dict) (w : step_world) : result (run_state) :=
  let turn := turn_at i turns in
  text ← _structured_reply_text reply;
  '(doc, recorded) ← record_reply doc (ww_reply_ids w) (ww_replied w) agent_id (py_str (dget "message_id" turn)) text;
  let artifact_paths := (fun a => py_str (dget "path" a)) <$> List.filter (fun a => truthy (dget "path" a)) (rc_artifacts recorded) in
  let reply_id := ri_reply (ww_reply_ids w) in
  handoff ← build_compact_handoff step_number agent_id reply reply_id artifact_paths;
  let turn :=
    dupdate [("status", dget "status" reply); ("reply_id", PStr reply_id); ("handoff", PDict handoff);
             ("artifact_paths", PList (PStr <$> artifact_paths));
             ("trace_command", PStr ("agentdeck trace --id " +:+ reply_id)); ("completed_at", PStr (ww_completed w))]
            (dpop "blocker" turn) in
  let turns := <[i := PDict turn]> turns in
  '(doc, _) ← update_workflow_run doc run_id [("turns", PList turns); ("current_step", PInt (step_number + 1))] (ww_ended w);
  Ok {| rs_doc := doc; rs_turns := turns; rs_handoff := PDict handoff |}.

(** After the reply is filed: on to the next step, or stop. *)
Definition after_reply (s : run_state) (i : nat) (reply : dict) (w : step_world) : result step_end :=
  if py_eq (dget "status" reply) (PStr "completed") then Ok (Next s)
  else _stop_workflow (rs_doc s) run_id (rs_turns s) i (py_str (dget "status" reply))
         (if py_eq (dget "status" reply) (PStr "blocked") then "worker_blocked" else "worker_failed") None w.

(** ** Waiting for a reply in a pane *)

Inductive wait_end :=
| PaneLost
| InvalidReply
| Replied (reply : dict)
| TimedOut.

Definition poll_once (token : string) (message_id : pyval) (p : poll) : result (option wait_end) :=
  if negb (p_pane p) then Ok (Some PaneLost)
  else
    output ← _workflow_reply_text message_id (p_file p);
    match parse_correlated_reply (default (p_screen p) output) token with
    | Err (ValueError _) => Ok (Some InvalidReply)
    | Err e => Err e
    | Ok (Some reply) => Ok (Some (Replied reply))
    | Ok None => Ok (if num_leb (timeout_seconds, 0%Z) (p_elapsed p) then Some TimedOut else None)
    end.

(** The [while True] loop from the [k]-th look on. *)
Fixpoint wait_for (token : string) (message_id : pyval) (polls : nat -> poll) (fuel k : nat)
    : option (result wait_end) :=
  match fuel with
  | O => None
  | S fuel =>
      match poll_once token message_id (polls k) with
      | Err e => Some (Err e)
      | Ok (Some r) => Some (Ok r)
      | Ok None => wait_for token message_id polls fuel (S k)
      end
  end.

Definition after_wait (doc : dict) (turns : list pyval) (i : nat) (step_number : Z) (agent_id : string)
    (w : step_world) (e : wait_end) : result step_end :=
  match e with
  | PaneLost => _stop_workflow doc run_id turns i "failed" "pane_lost" None w
  | InvalidReply => _stop_workflow doc run_id turns i "failed" "invalid_reply" None w
  | TimedOut => _stop_workflow doc run_id turns i "timed_out" "timed_out" None w
  | Replied reply =>
      s ← _record_step_reply doc turns i step_number agent_id reply w;
      after_reply s i reply w
  end.

(** ** A step over ACP *)

Definition agent_by_id (agent_id : string) : option agent :=
  last (List.filter (fun a => String.eqb (ag_id a) agent_id) (we_agents env)).

Definition step_role (step : dict) (a : agent) : string := py_str (py_or (dget "role" step) (PStr (ag_role a))).
Definition acp_token (w : step_world) : string := "dsp_" +:+ ww_key w.
Definition step_task (step : dict) : string := py_str (py_or (dget "task" step) (PStr "")).

(** A request is waited for until it is answered or its time is over. *)
Fixpoint await_request (looks : nat -> acp_look) (fuel k : nat) : option bool :=
  match fuel with
  | O => None
  | S fuel =>
      if al_answered (looks k) then Some true
      else if num_leb (timeout_seconds, 0%Z) (al_elapsed (looks k)) then Some false
      else await_request looks fuel (S k)
  end.
(** [asyncio.run(drive())] *)
Fixpoint drive_call (fuel : nat) (call : acp_call) : option acp_outcome :=
  match call with
  | AcpEnds o => Some o
  | AcpAwaits looks next =>
      match await_request looks fuel 0 with
      | None => None
      | Some answered => drive_call fuel (next answered)
      end
  end.

(** The task is recorded and the transport created; an exception of a factory
    leaves the run. *)
Definition open_acp_step (s : run_state) (existing : option nat) (step : dict) (step_number : Z) (a : agent)
    (w : step_world) : result (dict * list pyval * nat) :=
  let prompt := build_workflow_prompt env (step_role step a) (we_role_prompt env (ag_id a)) (step_task step)
                  (acp_token w) (rs_handoff s) None in
  doc ← create_dispatch_records (rs_doc s) (ww_ids w) (ww_dispatched w) "leader" (ag_id a) (step_task step) prompt
          ("acp:" +:+ ag_id a) None no_worktree;
  let turn :=
    dupdate [("handoff_token", PStr (acp_token w)); ("status", PStr "dispatched"); ("message_id", PStr (di_message (ww_ids w)));
             ("job_id", PStr (di_job (ww_ids w)));
             ("trace_command", PStr ("agentdeck trace --id " +:+ di_message (ww_ids w)))]
            (match existing with
             | Some i => turn_at i (rs_turns s)
             | None => _pending_turn run_id step_number (ag_id a) (ww_now w)
             end) in
  let '(turns, i) := put_turn existing turn (rs_turns s) in
  '(doc, _) ← update_workflow_run doc run_id
    [("status", PStr "running"); ("current_step", PInt step_number); ("turns", PList turns); ("stop_reason", PNone)]
    (ww_updated w);
  _ ← (if we_sink env then ww_sink w else Ok tt);
  _ ← ww_transport w;
  Ok (doc, turns, i).

Definition close_acp_step (doc : dict) (turns : list pyval) (i : nat) (step_number : Z) (a : agent) (w : step_world)
    (o : acp_outcome) : result step_end :=
  let token := acp_token w in
  match o with
  | AcpRaised detail =>
      _stop_workflow doc run_id turns i "failed" "transport_failed"
        (Some ("ACP worker transport failed: " +:+ ag_id a +:+ " (" +:+ detail +:+ ")")) w
  | AcpResult validated stop_reason reply =>
      match validated && py_eq stop_reason (PStr "end_turn"), reply with
      | true, PDict reply =>
          match validate_correlated_workflow_reply (PDict reply) (PStr token) with
          | Err (ValueError m) =>
              _stop_workflow doc run_id turns i "failed" "invalid_reply"
                (Some ("ACP reply is not correlated: " +:+ ag_id a +:+ " (" +:+ m +:+ ")")) w
          | Err e => Err e
          | Ok _ =>
              s ← _record_step_reply doc turns i step_number (ag_id a) reply w;
              after_reply s i reply w
          end
      | _, _ =>
          _stop_workflow doc run_id turns i "failed" "invalid_reply"
            (Some ("ACP turn did not end with a validated reply: " +:+ ag_id a +:+ " (stop_reason="
                   +:+ py_repr stop_reason +:+ ")")) w
      end
  end.

Definition _drive_acp_step (fuel : nat) (s : run_state) (existing : option nat) (step : dict) (step_number : Z) (a : agent)
    (w : step_world) : option (result step_end) :=
  match open_acp_step s existing step step_number a w with
  | Err e => Some (Err e)
  | Ok (doc, turns, i) =>
      match drive_call fuel (ww_acp w) with
      | None => None
      | Some o => Some (close_acp_step doc turns i step_number a w o)
      end
  end.

(** ** A step in a pane *)

(** A dispatch made, or the turn of an earlier one taken up: the document, the
    turns, the index of the step's turn and its token; or the step's end. *)
Inductive before_wait :=
| Waiting (doc : dict) (turns : list pyval) (i : nat) (token : string)
| Ended (e : step_end).

Definition stop_undispatched (s : run_state) (existing : option nat) (step_number : Z) (agent_id : string)
    (status reason : string) (blocker : option string) (w : step_world) : result step_end :=
  let turn := match existing with
              | Some i => turn_at i (rs_turns s)
              | None => _pending_turn run_id step_number agent_id (ww_now w)
              end in
  let '(turns, i) := put_turn existing turn (rs_turns s) in
  _stop_workflow (rs_doc s) run_id turns i status reason blocker w.

Definition dispatch_turn (step_number : Z) (agent_id token : string) (w : step_world) : dict :=
  [("step", PInt step_number); ("agent_id", PStr agent_id); ("handoff_token", PStr token);
   ("status", PStr "dispatched"); ("message_id", PStr (di_message (ww_ids w))); ("job_id", PStr (di_job (ww_ids w)));
   ("reply_id", PNone); ("handoff", PNone); ("artifact_paths", PList []);
   ("trace_command", PStr ("agentdeck trace --id " +:+ di_message (ww_ids w))); ("started_at", PStr (ww_now w));
   ("completed_at", PNone)].

Definition dispatch_step (s : run_state) (existing : option nat) (step : dict) (step_number : Z) (a : agent)
    (pane_id : string) (w : step_world) : result before_wait :=
  let token := run_id +:+ "_step_" +:+ pretty step_number in
  let prompt := build_workflow_prompt env (step_role step a) (we_role_prompt env (ag_id a)) (step_task step) token
                  (rs_handoff s) (Some (workflow_reply_file (we_root env) (di_message (ww_ids w)))) in
  doc ← create_dispatch_records (rs_doc s) (ww_ids w) (ww_dispatched w) "leader" (ag_id a) (step_task step) prompt
          pane_id None no_worktree;
  let '(turns, i) := put_turn existing (dispatch_turn step_number (ag_id a) token w) (rs_turns s) in
  '(doc, _) ← update_workflow_run doc run_id
    [("status", PStr "running"); ("current_step", PInt step_number); ("turns", PList turns); ("stop_reason", PNone)]
    (ww_updated w);
  if ww_sent w then Ok (Waiting doc turns i token)
  else e ← _stop_workflow doc run_id turns i "failed" "pane_lost" None w; Ok (Ended e).

(** The binding of a running pane. *)
Definition live_pane (binding : option dict) : option string :=
  let b := default [] binding in
  if negb (match b with [] => true | _ => false end) && py_eq (dget "status" b) (PStr "running")
     && truthy (dget "pane_id" b)
  then Some (py_str (dget "pane_id" b)) else None.

Definition drive_tmux_step (s : run_state) (existing : option nat) (step : dict) (step_number : Z) (agent_id : string)
    (a : option agent) (w : step_world) : result before_wait :=
  binding ← agent_binding (rs_doc s) agent_id;
  match a, live_pane binding with
  | Some a, Some pane_id =>
      if negb (ww_pane_exists w) then
        e ← stop_undispatched s existing step_number agent_id "failed" "pane_lost" None w; Ok (Ended e)
      else
        let undelivered := match existing with
                           | Some i => bool_decide (dget "message_id" (turn_at i (rs_turns s)) = PNone)
                           | None => true
                           end in
        if undelivered then
          match receptive_blocker_message (classify_pane_receptive (ww_pane_text w)) agent_id pane_id with
          | Some blocker =>
              e ← stop_undispatched s existing step_number agent_id "pending" "pane_not_receptive" (Some blocker) w;
              Ok (Ended e)
          | None => dispatch_step s existing step step_number a pane_id w
          end
        else
          let i := default 0 existing in
          Ok (Waiting (rs_doc s) (rs_turns s) i (py_str (py_or (dget "handoff_token" (turn_at i (rs_turns s))) (PStr ""))))
  | _, _ =>
      e ← stop_undispatched s existing step_number agent_id "failed" "agent_unavailable" None w; Ok (Ended e)
  end.

(** ** The run *)

(** What a step starts with: its number, the index of its turn, its agent. *)
Record step_start := { ss_number : Z; ss_existing : option nat; ss_agent_id : string; ss_agent : option agent }.

Definition start_of (step : dict) (s : run_state) : result step_start :=
  number ← step_int step;
  existing ← turn_of (PInt number) (rs_turns s);
  let agent_id := py_str (py_or (dget "agent_id" step) (PStr "")) in
  Ok {| ss_number := number; ss_existing := existing; ss_agent_id := agent_id; ss_agent := agent_by_id agent_id |}.

Definition completed_turn (existing : option nat) (turns : list pyval) : option dict :=
  match existing with
  | Some i => if py_eq (dget "status" (turn_at i turns)) (PStr "completed") then Some (turn_at i turns) else None
  | None => None
  end.

Definition take_handoff (turn : dict) (s : run_state) : run_state :=
  match dget "handoff" turn with
  | PDict h => {| rs_doc := rs_doc s; rs_turns := rs_turns s; rs_handoff := PDict h |}
  | _ => s
  end.

Definition unsupported (a : agent) : string :=
  "agent is configured for the " +:+ ag_transport a +:+ " transport, which the sequential workflow runner cannot drive yet: "
  +:+ ag_id a +:+ "; AgentDeck will not silently fall back to typing into its pane".

Definition in_pane (fuel : nat) (w : step_world) (s : run_state) (st : step_start) (step : dict)
    : option (result step_end) :=
  match drive_tmux_step s (ss_existing st) step (ss_number st) (ss_agent_id st) (ss_agent st) w with
  | Err e => Some (Err e)
  | Ok (Ended e) => Some (Ok e)
  | Ok (Waiting doc turns i token) =>
      match wait_for token (dget "message_id" (turn_at i turns)) (ww_polls w) fuel 0 with
      | None => None
      | Some r => Some (e ← r; after_wait doc turns i (ss_number st) (ss_agent_id st) w e)
      end
  end.

Definition run_step (fuel : nat) (w : step_world) (s : run_state) (step : pyval) : option (result step_end) :=
  match (step ← as_dict step; st ← start_of step s; Ok (step, st)) with
  | Err e => Some (Err e)
  | Ok (step, st) =>
      let existing := ss_existing st in
      match completed_turn existing (rs_turns s) with
      | Some turn => Some (Ok (Next (take_handoff turn s)))
      | None =>
          match ss_agent st with
          | Some a =>
              if String.eqb (ag_transport a) "acp" && we_acp env
              then _drive_acp_step fuel s existing step (ss_number st) a w
              else if negb (String.eqb (ag_transport a) "tmux")
              then Some (stop_undispatched s existing (ss_number st) (ss_agent_id st) "pending" "transport_unsupported"
                           (Some (unsupported a)) w)
              else in_pane fuel w s st step
          | None => in_pane fuel w s st step
          end
      end
  end.

(** The [for step in steps] loop; the [k]-th step of the run has the [k]-th
    world. *)
Fixpoint run_steps (fuel : nat) (worlds : nat -> step_world) (k : nat) (s : run_state) (steps : list pyval)
    : option (result step_end) :=
  match steps with
  | [] => Some (Ok (Next s))
  | step :: steps =>
      match run_step fuel (worlds k) s step with
      | None => None
      | Some (Err e) => Some (Err e)
      | Some (Ok (Next s)) => run_steps fuel worlds (S k) s steps
      | Some (Ok e) => Some (Ok e)
      end
  end.

(** The handoff of the last completed turn. *)
Fixpoint last_handoff (turns : list pyval) : result pyval :=
  match turns with
  | [] => Ok PNone
  | v :: turns =>
      d ← as_dict v;
      match py_eq (dget "status" d) (PStr "completed"), dget "handoff" d with
      | true, PDict h => Ok (PDict h)
      | _, _ => last_handoff turns
      end
  end.
End runner.

Section run.
  Context {repr : PyRepr} {ft : FloatText} {files : Files} {json : JsonLoads}.

Definition listed (v : pyval) : result (list pyval) := py_iter (py_or v (PList [])).

(** [run_sequential_workflow]: the document and the run's record. *)
Definition run_sequential_workflow (env : workflow_env) (doc : dict) (run_id ended : string) (worlds : nat -> step_world)
    (fuel : nat) : option (result (dict * dict)) :=
  match (record ← workflow_run_by_id doc run_id;
         steps ← listed (dget "authorized_steps" record);
         turns ← listed (dget "turns" record);
         timeout ← py_int (py_or (dget "timeout_seconds" record) (PInt 0));
         handoff ← last_handoff (reverse turns);
         Ok (steps, timeout, {| rs_doc := doc; rs_turns := turns; rs_handoff := handoff |})) with
  | Err e => Some (Err e)
  | Ok (steps, timeout, s) =>
      match run_steps env run_id timeout fuel worlds 0 s steps with
      | None => None
      | Some (Err e) => Some (Err e)
      | Some (Ok (Stopped doc record)) => Some (Ok (doc, record))
      | Some (Ok (Next s)) =>
          Some (update_workflow_run (rs_doc s) run_id
                  [("status", PStr "completed"); ("current_step", PInt (Z.of_nat (length steps) + 1));
                   ("turns", PList (rs_turns s)); ("stop_reason", PNone)] ended)
      end
  end.
End run.

(** ** Turns of a step *)

(** [d] is the turn of step [n]. *)
Definition has_turn (n : Z) (d : dict) (turns : list pyval) : Prop :=
  exists i, turn_of (PInt n) turns = Ok (Some i) /\ turn_at i turns = d.

Lemma turn_of_cons number d turns :
  turn_of number (PDict d :: turns)
  = if py_eq (dget "step" d) number then Ok (Some 0) else i ← turn_of number turns; Ok (option_map S i).
Proof. done. Qed.

Lemma turn_of_Some number turns i : turn_of number turns = Ok (Some i) ->
  exists d, turns !! i = Some (PDict d) /\ py_eq (dget "step" d) number = true.
Proof.
  revert i; induction turns as [|v turns IH]; intros i; [done|]. cbn [turn_of].
  destruct v; try done. cbn [as_dict mbind result_bind]. destruct (py_eq (dget "step" d) number) eqn:E.
  - intros [= <-]. by exists d.
  - intros (j & Hj & [= Hi])%bind_Ok. destruct j as [j|]; [|done]. injection Hi as <-. cbn. by apply IH.
Qed.

Lemma py_eq_int_inj v n m : py_eq v (PInt n) = true -> py_eq v (PInt m) = true -> n = m.
Proof.
  assert (Hn : forall a, num_eqb a (n, 0%Z) = true -> num_eqb a (m, 0%Z) = true -> n = m).
  { intros [a e]. unfold num_eqb. cbn [fst snd]. rewrite !Z.eqb_eq. intros -> H.
    assert (0 < 2 ^ (0 - Z.min e 0))%Z by (apply Z.pow_pos_nonneg; lia). nia. }
  destruct v; cbn; try done; apply Hn.
Qed.

(** Storing a turn of step [n] over its turn, or at the end when it has none,
    makes it the turn of step [n] and leaves the turns of the other steps. *)
Lemma put_turn_other n m existing turn turns d : turn_of (PInt n) turns = Ok existing ->
  py_eq (dget "step" turn) (PInt n) = true -> m <> n -> has_turn m d turns ->
  has_turn m d (put_turn existing turn turns).1.
Proof.
  intros He Ht Hne (j & Hj & Hd).
  assert (Htm : py_eq (dget "step" turn) (PInt m) = false).
  { destruct (py_eq (dget "step" turn) (PInt m)) eqn:E; [|done]. exfalso. apply Hne.
    by apply (py_eq_int_inj _ _ _ E Ht). }
  destruct existing as [i|]; cbn [put_turn fst].
  - exists j. revert i j Hj Hd He. induction turns as [|v turns IH]; intros i j Hj Hd He; [done|].
    cbn [turn_of] in Hj, He. destruct v as [| | | | | | |e]; try done. cbn [as_dict mbind result_bind] in *.
    destruct i as [|i].
    + destruct (py_eq (dget "step" e) (PInt n)) eqn:En.
      2:{ apply bind_Ok in He as (o & _ & [= Ho]). by destruct o. }
      destruct (py_eq (dget "step" e) (PInt m)) eqn:Em; [exfalso; apply Hne; by apply (py_eq_int_inj _ _ _ Em En)|].
      apply bind_Ok in Hj as (o & Hj & [= Ho]). destruct o as [k|]; [|done]. injection Ho as <-.
      change (<[0:=PDict turn]> (PDict e :: turns)) with (PDict turn :: turns). rewrite turn_of_cons, Htm, Hj. done.
    + destruct (py_eq (dget "step" e) (PInt n)) eqn:En; [done|].
      apply bind_Ok in He as (o & He & [= Ho]). destruct o as [k|]; [|done]. injection Ho as ->.
      change (<[S i:=PDict turn]> (PDict e :: turns)) with (PDict e :: <[i:=PDict turn]> turns).
      rewrite turn_of_cons. destruct (py_eq (dget "step" e) (PInt m)) eqn:Em.
      * injection Hj as <-. done.
      * apply bind_Ok in Hj as (o & Hj & [= Ho]). destruct o as [k|]; [|done]. injection Ho as <-.
        destruct (IH i k Hj Hd He) as [H1 H2]. rewrite H1. done.
  - exists j. clear He. revert j Hj Hd. induction turns as [|v turns IH]; intros j Hj Hd; [done|].
    cbn [turn_of] in Hj. destruct v as [| | | | | | |e]; try done. cbn [as_dict mbind result_bind app] in *.
    rewrite turn_of_cons. destruct (py_eq (dget "step" e) (PInt m)) eqn:Em.
    + injection Hj as <-. done.
    + apply bind_Ok in Hj as (o & Hj & [= Ho]). destruct o as [k|]; [|done]. injection Ho as <-.
      destruct (IH k Hj Hd) as [H1 H2]. rewrite H1. done.
Qed.

Lemma put_turn_here n existing turn turns : turn_of (PInt n) turns = Ok existing ->
  py_eq (dget "step" turn) (PInt n) = true ->
  turn_of (PInt n) (put_turn existing turn turns).1 = Ok (Some (put_turn existing turn turns).2)
  /\ turn_at (put_turn existing turn turns).2 (put_turn existing turn turns).1 = turn.
Proof.
  intros He Ht. destruct existing as [i|]; cbn [put_turn fst snd].
  - revert i He. induction turns as [|v turns IH]; intros i He; [done|]. cbn [turn_of] in He.
    destruct v as [| | | | | | |e]; try done. cbn [as_dict mbind result_bind] in *.
    destruct (py_eq (dget "step" e) (PInt n)) eqn:En.
    + injection He as <-.
      change (<[0:=PDict turn]> (PDict e :: turns)) with (PDict turn :: turns). by rewrite turn_of_cons, Ht.
    + apply bind_Ok in He as (o & He & [= Ho]). destruct o as [k|]; [|done]. injection Ho as <-.
      change (<[S k:=PDict turn]> (PDict e :: turns)) with (PDict e :: <[k:=PDict turn]> turns).
      rewrite turn_of_cons, En. destruct (IH k He) as [H1 H2]. rewrite H1. done.
  - revert He. induction turns as [|v turns IH]; intros He; [cbn [app]; by rewrite turn_of_cons, Ht|].
    cbn [turn_of] in He. destruct v as [| | | | | | |e]; try done. cbn [as_dict mbind result_bind app length] in *.
    rewrite turn_of_cons. destruct (py_eq (dget "step" e) (PInt n)) eqn:En; [done|].
    apply bind_Ok in He as (o & He & [= Ho]). destruct o; [done|]. destruct (IH He) as [H1 H2]. rewrite H1. done.
Qed.

(** ** Steps of a run *)

Lemma dget_dupdate_cons k kv items d :
  dget k (dupdate (kv :: items) d) = dget k (dupdate items (dset kv.1 kv.2 d)).
Proof. done. Qed.

Lemma dget_dupdate_absent k items d : Forall (fun kv => kv.1 <> k) items -> dget k (dupdate items d) = dget k d.
Proof.
  intros H. revert d. induction H as [|kv items Hne _ IH]; intros d; [done|].
  rewrite dget_dupdate_cons, IH, dget_dset. by rewrite (proj2 (String.eqb_neq _ _)).
Qed.

Lemma dget_dpop k k' d : k <> k' -> dget k (dpop k' d) = dget k d.
Proof.
  intros Hne. unfold dget, dpop. induction d as [|[k0 v] d IH]; [done|]. cbn [List.filter fst].
  destruct (String.eqb_spec k' k0) as [->|]; cbn [negb dlookup].
  - rewrite (proj2 (String.eqb_neq _ _) Hne). exact IH.
  - destruct (String.eqb k k0); [done|exact IH].
Qed.

(** Replace a result by the term it is, without simplifying the term. *)
Ltac ok_subst H := cbv beta zeta in H; match type of H with Ok ?x = Ok ?y => assert (y = x) as -> by congruence; clear H end.

Ltac absent := repeat (apply Forall_cons; split; [cbn [fst]; discriminate|]); apply Forall_nil_2.

Lemma update_row_changed p f rows rows' r : update_row p f rows = Ok (Some (rows', r)) -> exists d, r = f d /\ p d = true.
Proof.
  revert rows'; induction rows as [|v rows IH]; intros rows'; [done|]. cbn [update_row].
  intros (d & _ & H)%bind_Ok. destruct (p d) eqn:E; [injection H as _ <-; by exists d|].
  apply bind_Ok in H as ([[x y]|] & Hr & [= Hx]). inversion Hx; subst. by eapply IH.
Qed.

(** What a run's record says after an update. *)
Lemma update_workflow_run_Ok doc run_id changes now doc' r : update_workflow_run doc run_id changes now = Ok (doc', r) ->
  exists rows, doc' = dset "workflow_runs" (PList rows) doc
  /\ exists old, r = changed_run changes now old /\ dget "run_id" old = PStr run_id.
Proof.
  unfold update_workflow_run. intros (rows & _ & ([[rows' r']|] & Hu & H)%bind_Ok)%bind_Ok; [|done].
  injection H as <- <-. exists rows'. split; [done|]. apply update_row_changed in Hu as (d & -> & Hd).
  exists d. split; [done|]. by apply py_eq_str.
Qed.

Lemma changed_run_get changes now old k : k <> "updated_at" -> k <> "completed_at" ->
  dget k (changed_run changes now old) = dget k (dupdate changes old).
Proof.
  intros H1 H2. unfold changed_run. destruct (_ && _); rewrite ?dget_dset;
    rewrite ?(proj2 (String.eqb_neq _ _) H2), ?(proj2 (String.eqb_neq _ _) H1); done.
Qed.

Section steps.
  Context {repr : PyRepr} {ft : FloatText} {files : Files} {json : JsonLoads}.
  Variable env : workflow_env.
  Variable run_id : string.
  Variable timeout_seconds : Z.

(** A stopped run says so, with its reason. *)
Definition stopped_record (r : dict) : Prop :=
  dget "status" r = PStr "stopped" /\ exists reason, dget "stop_reason" r = PStr reason /\ reason <> "".

Lemma stop_workflow_Ok doc turns i status reason blocker w e : reason <> "" ->
  _stop_workflow doc run_id turns i status reason blocker w = Ok e ->
  exists doc' r, e = Stopped doc' r /\ stopped_record r.
Proof.
  unfold _stop_workflow. intros Hne ([doc' r] & Hu & [= <-])%bind_Ok. exists doc', r. split; [done|].
  apply update_workflow_run_Ok in Hu as (rows & _ & old & -> & _). split.
  - rewrite changed_run_get by done. unfold dupdate. cbn [foldl fst snd]. by rewrite !dget_dset.
  - exists reason. split; [|done]. rewrite changed_run_get by done. unfold dupdate. cbn [foldl fst snd].
    by rewrite !dget_dset.
Qed.

(** The turns after a step that goes on, against the turns before it: step [n]
    is completed, with its handoff, and no other step's turn is touched. *)
Definition advanced (n : Z) (turns turns' : list pyval) : Prop :=
  (exists d, has_turn n d turns' /\ dget "status" d = PStr "completed")
  /\ forall m d, m <> n -> has_turn m d turns -> has_turn m d turns'.

Lemma record_step_reply_Ok doc turns i n agent_id reply w s : turn_of (PInt n) turns = Ok (Some i) ->
  _record_step_reply run_id doc turns i n agent_id reply w = Ok s ->
  (exists d, has_turn n d (rs_turns s) /\ dget "status" d = dget "status" reply)
  /\ (forall m d, m <> n -> has_turn m d turns -> has_turn m d (rs_turns s)).
Proof.
  intros Hi. unfold _record_step_reply.
  intros (text & _ & ([doc1 rc] & _ & (h & _ & ([doc2 r] & _ & Hs)%bind_Ok)%bind_Ok)%bind_Ok)%bind_Ok.
  ok_subst Hs.
  cbn [rs_turns]. set (turn := dupdate _ (dpop _ _)).
  assert (Hstep : py_eq (dget "step" turn) (PInt n) = true).
  { unfold turn. rewrite dget_dupdate_absent by absent. rewrite dget_dpop by done.
    destruct (turn_of_Some _ _ _ Hi) as (d & Hd & Hs). unfold turn_at. by rewrite Hd. }
  split.
  - exists turn. split.
    + destruct (put_turn_here n (Some i) turn turns Hi Hstep) as [H1 H2]. by exists i.
    + unfold turn, dupdate. cbn [foldl fst snd]. by rewrite !dget_dset.
  - intros m d Hne Hm. by apply (put_turn_other n m (Some i) turn turns d).
Qed.

Lemma after_reply_Next s i reply w s' : after_reply run_id s i reply w = Ok (Next s') ->
  s' = s /\ dget "status" reply = PStr "completed".
Proof.
  unfold after_reply. destruct (py_eq _ _) eqn:E; [intros [= <-]; split; [done|by apply py_eq_str]|].
  intros H. apply stop_workflow_Ok in H as (doc' & r & [=] & _). case_match; done.
Qed.

(** Step [n] has its turn at index [i]; no other step's turn was touched. *)
Definition opened (n : Z) (turns turns' : list pyval) (i : nat) : Prop :=
  turn_of (PInt n) turns' = Ok (Some i) /\ forall m d, m <> n -> has_turn m d turns -> has_turn m d turns'.

Lemma put_turn_opened n existing turn turns turns' i : turn_of (PInt n) turns = Ok existing ->
  py_eq (dget "step" turn) (PInt n) = true -> put_turn existing turn turns = (turns', i) -> opened n turns turns' i.
Proof.
  intros He Ht Hp. destruct (put_turn_here n existing turn turns He Ht) as [H1 _].
  pose proof (fun m d => put_turn_other n m existing turn turns d He Ht) as H2. rewrite Hp in H1, H2. by split.
Qed.

Definition ends_well (n : Z) (turns : list pyval) (e : step_end) : Prop :=
  match e with Next s => advanced n turns (rs_turns s) | Stopped _ r => stopped_record r end.

Lemma stop_ends_well n turns0 doc turns i status reason blocker w e : reason <> "" ->
  _stop_workflow doc run_id turns i status reason blocker w = Ok e -> ends_well n turns0 e.
Proof. intros Hne (doc' & r & -> & Hr)%stop_workflow_Ok; done. Qed.

Lemma filed_ends_well doc n turns turns' i agent_id reply w e : opened n turns turns' i ->
  (s ← _record_step_reply run_id doc turns' i n agent_id reply w; after_reply run_id s i reply w) = Ok e ->
  ends_well n turns e.
Proof.
  intros [Hi Ho] (s & Hs & He)%bind_Ok. destruct e as [s'|doc' r].
  - apply after_reply_Next in He as [-> Hst]. destruct (record_step_reply_Ok _ _ _ _ _ _ _ _ Hi Hs) as [(d & Hd & Hsd) Hm].
    split; [exists d; split; [done|congruence]|auto].
  - unfold after_reply in He. destruct (py_eq _ _); [done|].
    eapply stop_ends_well; [|exact He]. case_match; done.
Qed.

Lemma step_field_dupdate items turn v : Forall (fun kv => kv.1 <> "step") items ->
  dget "step" turn = v -> dget "step" (dupdate items turn) = v.
Proof. intros Hi <-. by apply dget_dupdate_absent. Qed.

Lemma existing_step n existing turns turn : turn_of (PInt n) turns = Ok existing ->
  py_eq (dget "step" turn) (PInt n) = true ->
  py_eq (dget "step" (match existing with Some i => turn_at i turns | None => turn end)) (PInt n) = true.
Proof.
  intros He Ht. destruct existing as [i|]; [|done]. destruct (turn_of_Some _ _ _ He) as (d & Hd & Hs).
  unfold turn_at. by rewrite Hd.
Qed.

Lemma stop_undispatched_ends n s existing agent_id status reason blocker w e : reason <> "" ->
  stop_undispatched run_id s existing n agent_id status reason blocker w = Ok e -> ends_well n (rs_turns s) e.
Proof. unfold stop_undispatched. intros Hne. destruct (put_turn _ _ _) as [turns i]. by apply stop_ends_well. Qed.

Lemma drive_acp_step_ends fuel n s existing step a w e : turn_of (PInt n) (rs_turns s) = Ok existing ->
  _drive_acp_step env run_id timeout_seconds fuel s existing step n a w = Some (Ok e) -> ends_well n (rs_turns s) e.
Proof.
  intros He. unfold _drive_acp_step. destruct (open_acp_step _ _ _ _ _ _ _ _) as [[[doc1 turns] i]|] eqn:Ho; [|done].
  destruct (drive_call _ _ _) as [o|]; [|done]. intros [= H]. unfold open_acp_step in Ho. apply bind_Ok in Ho as (doc & _ & Ho).
  destruct (put_turn _ _ _) as [turns' i'] eqn:Hp. apply put_turn_opened with (n := n) in Hp; [|done|].
  2:{ rewrite dget_dupdate_absent by absent. apply existing_step; [done|apply num_eqb_refl]. }
  apply bind_Ok in Ho as ([doc' r] & _ & Ho). do 2 apply bind_Ok in Ho as (? & _ & Ho). injection Ho as -> -> ->.
  unfold close_acp_step in H.
  destruct o as [detail|validated stop_reason reply]; [by eapply stop_ends_well; [|exact H]|].
  destruct (validated && _); [|by eapply stop_ends_well; [|exact H]].
  destruct reply; try (by eapply stop_ends_well; [|exact H]).
  destruct (validate_correlated_workflow_reply _ _) as [v|[]]; try done; [|by eapply stop_ends_well; [|exact H]].
  by eapply filed_ends_well.
Qed.

Lemma drive_tmux_step_ends n s existing step agent_id a w b : turn_of (PInt n) (rs_turns s) = Ok existing ->
  drive_tmux_step env run_id s existing step n agent_id a w = Ok b ->
  match b with Waiting doc turns i token => opened n (rs_turns s) turns i | Ended e => ends_well n (rs_turns s) e end.
Proof.
  intros He. unfold drive_tmux_step. intros (binding & _ & H)%bind_Ok.
  assert (Hstop : forall status reason blocker, reason <> "" ->
    (e ← stop_undispatched run_id s existing n agent_id status reason blocker w; Ok (Ended e)) = Ok b ->
    match b with Waiting doc turns i token => opened n (rs_turns s) turns i | Ended e => ends_well n (rs_turns s) e end).
  { intros status reason blocker Hne (e & Hs & [= <-])%bind_Ok. by eapply stop_undispatched_ends. }
  destruct a as [a|]; [|by eapply Hstop; [|exact H]]. destruct (live_pane binding) as [pane|]; [|by eapply Hstop; [|exact H]].
  destruct (negb (ww_pane_exists w)); [by eapply Hstop; [|exact H]|].
  match type of H with context [if ?u then _ else _] => destruct u eqn:Hu end.
  - destruct (receptive_blocker_message _ _ _); [by eapply Hstop; [|exact H]|].
    unfold dispatch_step in H. apply bind_Ok in H as (doc & _ & H).
    destruct (put_turn _ _ _) as [turns i] eqn:Hp. apply put_turn_opened with (n := n) in Hp; [|done|].
    2:{ change (dget "step" _) with (PInt n). cbn. apply num_eqb_refl. }
    apply bind_Ok in H as ([doc' r] & _ & H). destruct (ww_sent w); [by injection H as <-|].
    apply bind_Ok in H as (e & Hs & [= <-]). by eapply stop_ends_well; [|exact Hs].
  - destruct existing as [i|]; [|done]. injection H as <-. split; [done|auto].
Qed.

Lemma take_handoff_turns turn s : rs_turns (take_handoff turn s) = rs_turns s.
Proof. unfold take_handoff. by destruct (dget "handoff" turn). Qed.

Lemma run_step_ends fuel w s step e : run_step env run_id timeout_seconds fuel w s step = Some (Ok e) ->
  exists d n, step = PDict d /\ step_int d = Ok n /\ ends_well n (rs_turns s) e.
Proof.
  unfold run_step. destruct step as [| | | | | | |d]; try done. cbn [as_dict mbind result_bind].
  destruct (start_of env d s) as [st|] eqn:Est; [|done]. cbn [mbind result_bind].
  apply bind_Ok in Est as (n & Hn & (existing & He & Hst)%bind_Ok). ok_subst Hst. cbn [ss_number ss_existing ss_agent ss_agent_id].
  intros H. exists d, n. split_and!; try done.
  destruct (completed_turn existing (rs_turns s)) as [turn|] eqn:Ec.
  { unfold completed_turn in Ec. destruct existing as [i|]; [|done]. destruct (py_eq _ _) eqn:E; [|done].
    injection Ec as <-. apply py_eq_str in E. injection H as <-. cbn [ends_well].
    rewrite take_handoff_turns. split; [|by intros m d' _]. exists (turn_at i (rs_turns s)). split; [by exists i|done]. }
  assert (Hpane : forall st, ss_number st = n -> ss_existing st = existing ->
    in_pane env run_id timeout_seconds fuel w s st d = Some (Ok e) -> ends_well n (rs_turns s) e).
  { intros st Hnum Hex Hp. unfold in_pane in Hp. rewrite Hnum, Hex in Hp.
    destruct (drive_tmux_step _ _ _ _ _ _ _ _ _) as [b|] eqn:Hb; [|done]. apply drive_tmux_step_ends in Hb; [|done].
    destruct b as [doc turns i token|e']; [|by injection Hp as <-].
    destruct (wait_for _ _ _ _ _ _) as [r|]; [|done]. injection Hp as Hp. apply bind_Ok in Hp as (we & _ & Hp).
    destruct we; cbn [after_wait] in Hp; try (by eapply stop_ends_well; [|exact Hp]). by eapply filed_ends_well. }
  destruct (agent_by_id env _) as [a|]; [|by eapply Hpane; [| |exact H]].
  destruct (String.eqb (ag_transport a) "acp" && we_acp env).
  { by eapply drive_acp_step_ends. }
  destruct (negb (String.eqb (ag_transport a) "tmux")); [|by eapply Hpane; [| |exact H]].
  injection H as H. by eapply stop_undispatched_ends; [|exact H].
Qed.
End steps.

(** ** Messages *)

Definition id_of_message (v : pyval) : pyval := match v with PDict d => dget "message_id" d | _ => PNone end.
(** The identities of the messages sent, in order. *)
Definition message_ids (doc : dict) : list pyval :=
  match state_list "messages" doc with Ok rows => id_of_message <$> rows | Err _ => [] end.

Lemma message_ids_dset k v doc : k <> "messages" -> message_ids (dset k v doc) = message_ids doc.
Proof. intros Hk. unfold message_ids, state_list. by rewrite dlookup_dset_ne. Qed.

Lemma append_rows_dset key rows doc doc' : append_rows key rows doc = Ok doc' -> exists v, doc' = dset key v doc.
Proof. unfold append_rows. intros (l & _ & H)%bind_Ok. injection H as <-. by eexists. Qed.

Lemma append_inbox_dset to item doc doc' : append_inbox to item doc = Ok doc' -> exists v, doc' = dset "inbox" v doc.
Proof.
  unfold append_inbox. destruct (dlookup "inbox" doc) as [[]|]; try done.
  - intros (i & _ & H)%bind_Ok. injection H as <-. by eexists.
  - intros H. injection H as <-. by eexists.
Qed.

Lemma update_run_messages doc run_id changes now doc' r :
  update_workflow_run doc run_id changes now = Ok (doc', r) -> message_ids doc' = message_ids doc.
Proof. intros (rows & -> & _)%update_workflow_run_Ok. by apply message_ids_dset. Qed.

Lemma create_dispatch_messages doc i now from to task prompt pane ctx wt doc' :
  create_dispatch_records doc i now from to task prompt pane ctx wt = Ok doc' ->
  message_ids doc' = message_ids doc ++ [PStr (di_message i)].
Proof.
  unfold create_dispatch_records.
  intros (d1 & H1 & (d2 & [v2 ->]%append_rows_dset & (d3 & [v3 ->]%append_rows_dset & [v4 ->]%append_inbox_dset)%bind_Ok)%bind_Ok)%bind_Ok.
  rewrite !message_ids_dset by done. unfold append_rows in H1. apply bind_Ok in H1 as (l & Hl & H1).
  assert (d1 = dset "messages" (PList (l ++ (PDict <$> [message_record i now from to task prompt ctx wt]))) doc)
    as -> by congruence.
  unfold message_ids, state_list. rewrite dlookup_dset_eq. cbn [py_iter]. rewrite fmap_app.
  unfold table in Hl. destruct (dlookup "messages" doc) as [[]|]; try done; injection Hl as <-; done.
Qed.

Lemma set_status_ids p status rows rows' : set_status p status rows = Ok rows' ->
  id_of_message <$> rows' = id_of_message <$> rows.
Proof.
  unfold set_status. intros (r & Hr & H)%bind_Ok.
  assert (Hu : forall rows x d, update_row p (dset "status" (PStr status)) rows = Ok (Some (x, d)) ->
    id_of_message <$> x = id_of_message <$> rows).
  { clear. induction rows as [|v rows IH]; intros x d; [done|]. cbn [update_row].
    destruct v as [| | | | | | |e]; try done. cbn [as_dict mbind result_bind]. destruct (p e).
    - intros H. assert (x = PDict (dset "status" (PStr status) e) :: rows) as -> by congruence.
      cbn [fmap list_fmap id_of_message]. by rewrite dget_dset.
    - intros ([[y f]|] & Hr & H)%bind_Ok; [|done]. injection H as <- <-. cbn. by rewrite (IH _ _ Hr). }
  destruct r as [[x d]|]; injection H as <-; [by eapply Hu|done].
Qed.

Lemma record_reply_messages {repr : PyRepr} {files : Files} {json : JsonLoads} doc i now from message_id text doc' rc :
  record_reply doc i now from message_id text = Ok (doc', rc) -> message_ids doc' = message_ids doc.
Proof.
  unfold record_reply. intros (messages & Hm & (found & _ & H)%bind_Ok)%bind_Ok.
  destruct found as [message|]; [|done].
  apply bind_Ok in H as ([v invalid] & _ & (attempts & _ & (attempt & _ & (jobs & _ & (job & _ & H)%bind_Ok)%bind_Ok)%bind_Ok)%bind_Ok).
  apply bind_Ok in H as (d1 & [w1 ->]%append_rows_dset & (existing & _ & H)%bind_Ok).
  destruct (_artifacts_from_reply _ _ _ _ _) as [artifacts conflicts].
  apply bind_Ok in H as (m' & Hm' & (a' & _ & (j' & _ & (d2 & H2 & H)%bind_Ok)%bind_Ok)%bind_Ok).
  assert (Hd2 : message_ids d2 = message_ids doc).
  { match type of H2 with (if ?b then Ok ?x else _) = _ =>
      assert (message_ids d2 = message_ids x) as ->;
      [destruct b; [congruence|]; apply append_inbox_dset in H2 as [v2 ->]; by apply message_ids_dset|] end.
    rewrite !message_ids_dset by done. unfold message_ids at 1, state_list. rewrite dlookup_dset_eq. cbn [py_iter].
    apply set_status_ids in Hm'. rewrite Hm'. unfold message_ids. by rewrite Hm. }
  congruence.
Qed.

Definition end_doc (e : step_end) : dict := match e with Next s => rs_doc s | Stopped doc _ => doc end.

Section messages.
  Context {repr : PyRepr} {ft : FloatText} {files : Files} {json : JsonLoads}.
  Variable env : workflow_env.
  Variable run_id : string.
  Variable timeout_seconds : Z.

Lemma stop_messages doc turns i status reason blocker w e :
  _stop_workflow doc run_id turns i status reason blocker w = Ok e -> message_ids (end_doc e) = message_ids doc.
Proof.
  unfold _stop_workflow. intros ([doc' r] & Hu & [= <-])%bind_Ok. cbn [end_doc]. by eapply update_run_messages.
Qed.

Lemma stop_undispatched_messages s existing n agent_id status reason blocker w e :
  stop_undispatched run_id s existing n agent_id status reason blocker w = Ok e ->
  message_ids (end_doc e) = message_ids (rs_doc s).
Proof. unfold stop_undispatched. destruct (put_turn _ _ _). apply stop_messages. Qed.

Lemma filed_messages doc turns i n agent_id reply w e :
  (s ← _record_step_reply run_id doc turns i n agent_id reply w; after_reply run_id s i reply w) = Ok e ->
  message_ids (end_doc e) = message_ids doc.
Proof.
  intros (s & Hs & He)%bind_Ok. assert (message_ids (rs_doc s) = message_ids doc) as <-.
  { unfold _record_step_reply in Hs.
    apply bind_Ok in Hs as (text & _ & ([doc1 rc] & Hr & (h & _ & ([doc2 r] & Hu & H)%bind_Ok)%bind_Ok)%bind_Ok).
    ok_subst H. cbn [rs_doc]. by rewrite (update_run_messages _ _ _ _ _ _ Hu), (record_reply_messages _ _ _ _ _ _ _ _ Hr). }
  unfold after_reply in He. destruct (py_eq _ _); [by injection He as <-|]. by eapply stop_messages.
Qed.

(** The messages of the document after a wait begins or a step ends: one more
    when the step's task is sent now. *)
Definition sent (w : step_world) (doc doc' : dict) : Prop :=
  message_ids doc' = message_ids doc ++ [PStr (di_message (ww_ids w))].

Lemma drive_acp_messages fuel s existing step n a w e :
  _drive_acp_step env run_id timeout_seconds fuel s existing step n a w = Some (Ok e) -> sent w (rs_doc s) (end_doc e).
Proof.
  unfold _drive_acp_step, sent. destruct (open_acp_step _ _ _ _ _ _ _ _) as [[[doc1 turns] i]|] eqn:Ho; [|done].
  destruct (drive_call _ _ _) as [o|]; [|done]. intros [= H]. unfold open_acp_step in Ho.
  apply bind_Ok in Ho as (doc & Hd%create_dispatch_messages & Ho). rewrite <- Hd. clear Hd.
  destruct (put_turn _ _ _) as [turns' i']. apply bind_Ok in Ho as ([doc' r] & Hu%update_run_messages & Ho).
  rewrite <- Hu. clear Hu. do 2 apply bind_Ok in Ho as (? & _ & Ho). injection Ho as -> -> ->. unfold close_acp_step in H.
  destruct o as [detail|validated stop_reason reply]; [by eapply stop_messages|].
  destruct (validated && _); [|by eapply stop_messages]. destruct reply; try (by eapply stop_messages).
  destruct (validate_correlated_workflow_reply _ _) as [v|[]]; try done; [|by eapply stop_messages].
  by eapply filed_messages.
Qed.

Lemma drive_tmux_messages s existing step n agent_id a w b :
  drive_tmux_step env run_id s existing step n agent_id a w = Ok b ->
  let doc' := match b with Waiting doc _ _ _ => doc | Ended e => end_doc e end in
  message_ids doc' = message_ids (rs_doc s)
  \/ sent w (rs_doc s) doc'
     /\ match existing with Some i => dget "message_id" (turn_at i (rs_turns s)) = PNone | None => True end.
Proof.
  unfold drive_tmux_step. intros (binding & _ & H)%bind_Ok.
  assert (Hstop : forall status reason blocker,
    (e ← stop_undispatched run_id s existing n agent_id status reason blocker w; Ok (Ended e)) = Ok b ->
    message_ids (match b with Waiting doc _ _ _ => doc | Ended e => end_doc e end) = message_ids (rs_doc s)).
  { intros status reason blocker (e & Hs & [= <-])%bind_Ok. by eapply stop_undispatched_messages. }
  destruct a as [a|]; [|left; by eapply Hstop]. destruct (live_pane binding) as [pane|]; [|left; by eapply Hstop].
  destruct (negb (ww_pane_exists w)); [left; by eapply Hstop|].
  match type of H with context [if ?u then _ else _] => destruct u eqn:Hu end; [|left; by injection H as <-].
  destruct (receptive_blocker_message _ _ _); [left; by eapply Hstop|]. right. split.
  - unfold dispatch_step in H. apply bind_Ok in H as (doc & Hd%create_dispatch_messages & H). unfold sent. rewrite <- Hd.
    destruct (put_turn _ _ _) as [turns i]. apply bind_Ok in H as ([doc' r] & Hup%update_run_messages & H).
    rewrite <- Hup. destruct (ww_sent w); [by injection H as <-|].
    apply bind_Ok in H as (e & Hs & [= <-]). by eapply stop_messages.
  - destruct existing; [|done]. by apply bool_decide_eq_true in Hu.
Qed.

(** The task of step [n] may be sent: the step is not completed, and either no
    task was sent for it, or its Worker is driven over ACP. *)
Definition sendable (s : run_state) (step : dict) (n : Z) : Prop :=
  forall t, has_turn n t (rs_turns s) -> dget "status" t <> PStr "completed"
    /\ (dget "message_id" t = PNone
        \/ exists a, agent_by_id env (py_str (py_or (dget "agent_id" step) (PStr ""))) = Some a /\ ag_transport a = "acp").

Lemma run_step_messages fuel w s step e : run_step env run_id timeout_seconds fuel w s step = Some (Ok e) ->
  message_ids (end_doc e) = message_ids (rs_doc s)
  \/ sent w (rs_doc s) (end_doc e) /\ exists d n, step = PDict d /\ step_int d = Ok n /\ sendable s d n.
Proof.
  unfold run_step. destruct step as [| | | | | | |d]; try done. cbn [as_dict mbind result_bind].
  destruct (start_of env d s) as [st|] eqn:Est; [|done]. cbn [mbind result_bind].
  apply bind_Ok in Est as (n & Hn & (existing & He & Hst)%bind_Ok). ok_subst Hst. cbn [ss_number ss_existing ss_agent ss_agent_id].
  intros H. set (aid := py_str (py_or (dget "agent_id" d) (PStr ""))) in *.
  destruct (completed_turn existing (rs_turns s)) as [turn|] eqn:Ec.
  { injection H as <-. left. cbn [end_doc]. unfold take_handoff. by destruct (dget "handoff" turn). }
  assert (Hopen : forall t, has_turn n t (rs_turns s) -> dget "status" t <> PStr "completed"
                       /\ exists i, existing = Some i /\ turn_at i (rs_turns s) = t).
  { intros t (i & Hi & <-). rewrite He in Hi. injection Hi as ->. split; [|by exists i].
    intros Hc. unfold completed_turn in Ec. by rewrite Hc in Ec. }
  assert (Hpane : forall st, ss_existing st = existing ->
    in_pane env run_id timeout_seconds fuel w s st d = Some (Ok e) ->
    message_ids (end_doc e) = message_ids (rs_doc s)
    \/ sent w (rs_doc s) (end_doc e) /\ sendable s d n).
  { intros st Hex Hp. unfold in_pane in Hp. rewrite Hex in Hp.
    destruct (drive_tmux_step _ _ _ _ _ _ _ _ _) as [b|] eqn:Hb; [|done]. apply drive_tmux_messages in Hb.
    assert (Hend : message_ids (end_doc e) = message_ids (match b with Waiting doc _ _ _ => doc | Ended e => end_doc e end)).
    { destruct b as [doc turns i token|e']; [|by injection Hp as <-].
      destruct (wait_for _ _ _ _ _ _) as [r|]; [|done]. injection Hp as Hp. apply bind_Ok in Hp as (we & _ & Hp).
      destruct we; cbn [after_wait] in Hp; try (by eapply stop_messages). by eapply filed_messages. }
    unfold sent in *. rewrite Hend. destruct Hb as [Hb|[Hb Hx]]; [by left|]. right. split; [done|].
    intros t Ht. destruct (Hopen t Ht) as [Hc (i & -> & <-)]. split; [done|by left]. }
  assert (Hpane' : forall st, ss_existing st = existing ->
    in_pane env run_id timeout_seconds fuel w s st d = Some (Ok e) ->
    message_ids (end_doc e) = message_ids (rs_doc s)
    \/ sent w (rs_doc s) (end_doc e) /\ exists d' n', PDict d = PDict d' /\ step_int d' = Ok n' /\ sendable s d' n').
  { intros st Hex [Hp|[Hp Hs]]%Hpane; [by left| |done]. right. split; [done|]. by exists d, n. }
  destruct (agent_by_id env aid) as [a|] eqn:Ha; [|by eapply Hpane'; [|exact H]].
  destruct (String.eqb (ag_transport a) "acp" && we_acp env) eqn:Eacp.
  - right. split; [by eapply drive_acp_messages|]. exists d, n. split_and!; try done.
    intros t Ht. split; [by apply Hopen|right]. split_guards. by exists a.
  - destruct (negb (String.eqb (ag_transport a) "tmux")); [|by eapply Hpane'; [|exact H]].
    injection H as H. left. by eapply stop_undispatched_messages.
Qed.

(** A step of a run sends at most one task, and sends none for a step
    whose turn is completed, nor, in a pane, for a step whose task was sent
    before: resuming a run never repeats a task that was delivered. *)
Lemma delivered_task_not_resent fuel w s step e :
  run_step env run_id timeout_seconds fuel w s step = Some (Ok e) ->
  (message_ids (end_doc e) = message_ids (rs_doc s)
   \/ message_ids (end_doc e) = message_ids (rs_doc s) ++ [PStr (di_message (ww_ids w))])
  /\ (forall d n t, step = PDict d -> step_int d = Ok n -> has_turn n t (rs_turns s) ->
      dget "status" t = PStr "completed"
      \/ dget "message_id" t <> PNone
         /\ (forall a, agent_by_id env (py_str (py_or (dget "agent_id" d) (PStr ""))) = Some a -> ag_transport a <> "acp") ->
      message_ids (end_doc e) = message_ids (rs_doc s)).
Proof.
  intros H. apply run_step_messages in H as [H|(H & d & n & -> & Hn & Hs)]; [split; [by left|done]|].
  split; [by right|]. intros d' n' t [= <-] Hn' Ht Hbad. assert (n' = n) as -> by congruence.
  destruct (Hs t Ht) as [Hc Hm]. destruct Hbad as [?|[Hne Hacp]]; [done|].
  destruct Hm as [?|(a & Ha & Htr)]; [done|]. by apply Hacp in Htr.
Qed.
End messages.

(** ** Whole runs *)

(** The clock of every wait of a call reaches the timeout within the looks. *)
Fixpoint call_in_time (timeout : Z) (looks : nat) (call : acp_call) : Prop :=
  match call with
  | AcpEnds _ => True
  | AcpAwaits seen next =>
      (exists n, n < looks /\ num_leb (timeout, 0%Z) (al_elapsed (seen n)) = true) /\ forall b, call_in_time timeout looks (next b)
  end.
(** So do the clocks of all waits of a step. *)
Definition in_time (timeout : Z) (looks : nat) (w : step_world) : Prop :=
  (exists n, n < looks /\ num_leb (timeout, 0%Z) (p_elapsed (ww_polls w n)) = true) /\ call_in_time timeout looks (ww_acp w).

Section runs.
  Context {repr : PyRepr} {ft : FloatText} {files : Files} {json : JsonLoads}.
  Variable env : workflow_env.
  Variable run_id : string.

Lemma poll_past_timeout timeout token message_id p : num_leb (timeout, 0%Z) (p_elapsed p) = true ->
  poll_once timeout token message_id p <> Ok None.
Proof.
  intros Ht. unfold poll_once. destruct (negb (p_pane p)); [done|].
  destruct (_workflow_reply_text message_id (p_file p)) as [output|]; [|done]. cbn [mbind result_bind].
  destruct (parse_correlated_reply _ token) as [[reply|]|[]]; try done. by rewrite Ht.
Qed.

(** A wait ends at the first look past the timeout, or before. *)
Lemma wait_for_ends timeout token message_id polls n : num_leb (timeout, 0%Z) (p_elapsed (polls n)) = true ->
  forall fuel k, k <= n -> n < k + fuel -> is_Some (wait_for timeout token message_id polls fuel k).
Proof.
  intros Ht fuel. induction fuel as [|fuel IH]; intros k Hk Hn; [lia|]. cbn [wait_for].
  destruct (poll_once timeout token message_id (polls k)) as [[r|]|e] eqn:Hp; [by eexists| |by eexists].
  destruct (Nat.eq_dec k n) as [->|Hne]; [by apply poll_past_timeout in Hp|]. apply IH; lia.
Qed.

(** A request ends at the first look past the timeout, or before. *)
Lemma await_request_ends timeout looks n : num_leb (timeout, 0%Z) (al_elapsed (looks n)) = true ->
  forall fuel k, k <= n -> n < k + fuel -> is_Some (await_request timeout looks fuel k).
Proof.
  intros Ht fuel. induction fuel as [|fuel IH]; intros k Hk Hn; [lia|]. cbn [await_request].
  destruct (al_answered (looks k)); [by eexists|]. destruct (num_leb _ (al_elapsed (looks k))) eqn:E; [by eexists|].
  destruct (Nat.eq_dec k n) as [->|Hne]; [congruence|]. apply IH; lia.
Qed.
Lemma drive_call_ends timeout fuel call : call_in_time timeout fuel call -> is_Some (drive_call timeout fuel call).
Proof.
  induction call as [o|looks next IH]; [by eexists|]. intros [(n & Hn & Ht) Hnext]. cbn [drive_call].
  destruct (await_request_ends timeout looks n Ht fuel 0) as [b ->]; [lia|lia|]. by apply IH.
Qed.

Lemma run_step_total timeout fuel w s step : in_time timeout fuel w -> is_Some (run_step env run_id timeout fuel w s step).
Proof.
  intros [(n & Hn & Ht) Hcall]. assert (Hpane : forall st d, is_Some (in_pane env run_id timeout fuel w s st d)).
  { intros st d. unfold in_pane. destruct (drive_tmux_step _ _ _ _ _ _ _ _ _) as [[]|]; [|by eexists..].
    match goal with |- context [wait_for ?a ?b ?c ?p ?f 0] => destruct (wait_for_ends a b c p n Ht f 0) as [r ->] end;
      [lia|lia|by eexists]. }
  unfold run_step. destruct (_ ≫= _) as [[d st]|]; [|by eexists].
  destruct (completed_turn _ _); [by eexists|]. destruct (ss_agent st) as [a|]; [|apply Hpane].
  destruct (_ && _); [|destruct (negb _); [by eexists|apply Hpane]].
  unfold _drive_acp_step. destruct (open_acp_step _ _ _ _ _ _ _ _) as [[[doc turns] i]|]; [|by eexists].
  destruct (drive_call_ends _ _ _ Hcall) as [o ->]. by eexists.
Qed.

Lemma run_steps_total timeout fuel worlds steps : forall k s, (forall j, k <= j -> j < k + length steps -> in_time timeout fuel (worlds j)) ->
  is_Some (run_steps env run_id timeout fuel worlds k s steps).
Proof.
  induction steps as [|step steps IH]; intros k s Hf; [by eexists|]. cbn [run_steps].
  destruct (run_step_total timeout fuel (worlds k) s step) as [r ->]; [apply Hf; cbn; lia|].
  destruct r as [[s'|doc r]|e]; [|by eexists..]. apply IH. intros j H1 H2. apply Hf; cbn; lia.
Qed.

(** C28: A run ends.  Every wait for a Worker, in a pane or for a request of the
    ACP transport, is bounded by the timeout saved with the run: when the clock
    of each wait reaches that timeout within some number of looks, that many
    looks at each are enough for the run to return, be it completed, stopped or
    failed, even if no Worker ever answers. *)
Theorem workflow_run_ends doc ended worlds looks :
  (forall record steps timeout, workflow_run_by_id doc run_id = Ok record -> listed (dget "authorized_steps" record) = Ok steps ->
     py_int (py_or (dget "timeout_seconds" record) (PInt 0)) = Ok timeout ->
     forall k, k < length steps -> in_time timeout looks (worlds k)) ->
  is_Some (run_sequential_workflow env doc run_id ended worlds looks).
Proof.
  intros Hc. unfold run_sequential_workflow. destruct (workflow_run_by_id doc run_id) as [record|]; [|by eexists].
  cbn [mbind result_bind]. destruct (listed (dget "authorized_steps" record)) as [steps|] eqn:Hs; [|by eexists].
  cbn [mbind result_bind]. destruct (listed (dget "turns" record)) as [turns|]; [|by eexists].
  cbn [mbind result_bind]. destruct (py_int _) as [timeout|] eqn:Ht; [|by eexists].
  cbn [mbind result_bind]. destruct (last_handoff _) as [handoff|]; [|by eexists]. cbn [mbind result_bind].
  match goal with |- context [run_steps env run_id timeout looks worlds 0 ?s steps] =>
    destruct (run_steps_total timeout looks worlds steps 0 s) as [r ->] end.
  - intros j _ Hj. by apply (Hc record steps timeout).
  - destruct r as [[]|]; by eexists.
Qed.

(** Every step passed is completed at the end. *)
Lemma run_steps_Next timeout fuel worlds steps : forall k s s',
  run_steps env run_id timeout fuel worlds k s steps = Some (Ok (Next s')) ->
  (forall n t, has_turn n t (rs_turns s) -> dget "status" t = PStr "completed" ->
     exists t', has_turn n t' (rs_turns s') /\ dget "status" t' = PStr "completed")
  /\ forall step, step ∈ steps -> exists d n t, step = PDict d /\ step_int d = Ok n
       /\ has_turn n t (rs_turns s') /\ dget "status" t = PStr "completed".
Proof.
  induction steps as [|step steps IH]; intros k s s' H.
  - injection H as <-. split; [eauto|]. by intros step ?%not_elem_of_nil.
  - cbn [run_steps] in H. destruct (run_step _ _ _ _ _ _ _) as [[e|]|] eqn:E; try done.
    destruct e as [s1|]; [|done]. apply run_step_ends in E as (d & n & -> & Hn & (t & Ht & Hts) & Hother).
    destruct (IH _ _ _ H) as [Hkeep Hall]. split.
    + intros m u Hu Hus. destruct (Z.eq_dec m n) as [->|Hne]; [by eapply Hkeep|]. eapply Hkeep; [|done]. by apply Hother.
    + intros x [->|Hx]%elem_of_cons; [|by apply Hall]. destruct (Hkeep n t Ht Hts) as (t' & Ht' & Hs').
      by exists d, n, t'.
Qed.

Lemma run_steps_Stopped timeout fuel worlds steps : forall k s doc r,
  run_steps env run_id timeout fuel worlds k s steps = Some (Ok (Stopped doc r)) -> stopped_record r.
Proof.
  induction steps as [|step steps IH]; intros k s doc r H; [done|].
  cbn [run_steps] in H. destruct (run_step _ _ _ _ _ _ _) as [[e|]|] eqn:E; try done.
  destruct e as [s1|doc' r']; [by eapply IH|]. injection H as <- <-. by apply run_step_ends in E as (d & n & _ & _ & ?).
Qed.

(** C29: A run that returns is stopped, with a reason, or completed; and it is
    completed only if every authorised step has a completed turn in the record
    it returns. *)
Theorem workflow_completed_means_every_step doc ended worlds fuel doc' r :
  run_sequential_workflow env doc run_id ended worlds fuel = Some (Ok (doc', r)) ->
  stopped_record r
  \/ dget "status" r = PStr "completed"
     /\ exists record steps turns, workflow_run_by_id doc run_id = Ok record
        /\ listed (dget "authorized_steps" record) = Ok steps /\ dget "turns" r = PList turns
        /\ forall step, step ∈ steps -> exists d n t, step = PDict d /\ step_int d = Ok n
             /\ has_turn n t turns /\ dget "status" t = PStr "completed".
Proof.
  unfold run_sequential_workflow. intros H.
  destruct (workflow_run_by_id doc run_id) as [record|] eqn:Hr; [|done]. cbn [mbind result_bind] in H.
  destruct (listed (dget "authorized_steps" record)) as [steps|] eqn:Hs; [|done]. cbn [mbind result_bind] in H.
  destruct (listed (dget "turns" record)) as [turns|]; [|done]. cbn [mbind result_bind] in H.
  destruct (py_int _) as [timeout|]; [|done]. cbn [mbind result_bind] in H.
  destruct (last_handoff _) as [handoff|]; [|done]. cbn [mbind result_bind] in H.
  destruct (run_steps _ _ _ _ _ _ _ _) as [[[s'|doc1 r1]|]|] eqn:E; try done.
  - right. injection H as (rows & _ & old & -> & _)%update_workflow_run_Ok.
    rewrite !changed_run_get by done. unfold dupdate. cbn [foldl fst snd]. rewrite !dget_dset. split; [done|].
    exists record, steps, (rs_turns s'). split_and!; try done. by eapply run_steps_Next.
  - left. injection H as <- <-. by eapply run_steps_Stopped.
Qed.
End runs.

(** ** Witnesses *)

#[local] Existing Instance sample_repr.
#[local] Existing Instance sample_files.
#[local] Existing Instance sample_json.
#[local] Existing Instance sample_float_text.

Definition sample_env : workflow_env :=
  {| we_agents := [Agent "coder" "impl" "tmux"; Agent "critic" "review" "acp"]; we_role_prompt := fun _ => "be good";
     we_root := "/p"; we_acp := true; we_sink := true; we_indented := fun _ => "{}" |}.

Definition answer (token : string) : string :=
  join nl ["hello"; "• handoff_token: " +:+ token; "status: completed"; "summary:"; "  it works"; "verification: ran";
           "risks: none"; "next_steps: none"].

Definition sample_world (k : nat) : step_world :=
  let id p := p +:+ pretty k in
  {| ww_now := "t0"; ww_stopped := "t1"; ww_updated := "t2"; ww_ended := "t3";
     ww_ids := {| di_message := id "m"; di_attempt := id "a"; di_job := id "j"; di_inbox := id "i" |};
     ww_dispatched := "t4"; ww_pane_exists := true; ww_pane_text := None; ww_sent := true;
     ww_polls := fun n => {| p_pane := true;
                             p_file := match n with 0 => FileMissing | _ => FileBytes (answer "run_step_1") end;
                             p_screen := "thinking"; p_elapsed := (Z.of_nat n, 0%Z) |};
     ww_reply_ids := {| ri_reply := id "r"; ri_artifact := id "x"; ri_inbox := id "n" |};
     ww_replied := "t5"; ww_completed := "t6"; ww_key := "0123456789abcdef0123456789abcdef";
     ww_sink := Ok tt; ww_transport := Ok tt;
     ww_acp := AcpAwaits (fun n => {| al_answered := negb (n =? 0); al_elapsed := (Z.of_nat n, 0%Z) |}) (fun answered =>
       if answered : bool then AcpEnds (AcpResult true (PStr "end_turn")
       (PDict [("handoff_token", PStr "dsp_0123456789abcdef0123456789abcdef"); ("status", PStr "completed");
               ("summary", PStr "fine"); ("verification", PStr "read"); ("risks", PStr "none"); ("next_steps", PStr "none")]))
       else AcpEnds (AcpRaised "WorkerCompletionStageError at prompt")) |}.
(** No Worker ever answers. *)
Definition silent_world (k : nat) : step_world :=
  let w := sample_world k in
  {| ww_now := ww_now w; ww_stopped := ww_stopped w; ww_updated := ww_updated w; ww_ended := ww_ended w; ww_ids := ww_ids w;
     ww_dispatched := ww_dispatched w; ww_pane_exists := true; ww_pane_text := None; ww_sent := true;
     ww_polls := fun n => {| p_pane := true; p_file := FileMissing; p_screen := "thinking"; p_elapsed := (Z.of_nat n, 0%Z) |};
     ww_reply_ids := ww_reply_ids w; ww_replied := ww_replied w; ww_completed := ww_completed w; ww_key := ww_key w;
     ww_sink := Ok tt; ww_transport := Ok tt;
     ww_acp := AcpAwaits (fun n => {| al_answered := false; al_elapsed := (Z.of_nat n, 0%Z) |})
                 (fun _ => AcpEnds (AcpRaised "WorkerCompletionStageError at prompt")) |}.

Definition sample_steps : list dict :=
  [[("step", PInt 1); ("agent_id", PStr "coder"); ("role", PStr "impl"); ("task", PStr "write")];
   [("step", PInt 2); ("agent_id", PStr "critic"); ("role", PStr "review"); ("task", PStr "read")]].
Definition workflow_doc : dict :=
  match create_workflow_run [("agents", PDict [("coder", PDict [("status", PStr "running"); ("pane_id", PStr "%1")])])]
          "run" "p1" "sha256:0" "t" 60 sample_steps with Ok (d, _) => d | Err _ => [] end.
Definition sample_run : option (result (dict * dict)) :=
  run_sequential_workflow sample_env workflow_doc "run" "t9" sample_world 3.

Lemma silent_in_time k : in_time 60 61 (silent_world k).
Proof.
  split; [exists 60; split; [by apply Nat.ltb_lt|by vm_compute]|]. split; [exists 60; split; [by apply Nat.ltb_lt|by vm_compute]|done].
Qed.

Theorem workflow_run_ends_witness : exists doc r,
  run_sequential_workflow sample_env workflow_doc "run" "t9" silent_world 61 = Some (Ok (doc, r)) /\ dget "stop_reason" r = PStr "timed_out".
Proof.
  destruct (workflow_run_ends sample_env "run" workflow_doc "t9" silent_world 61) as [o Ho].
  - intros record steps timeout Hr _ Ht k _.
    assert (timeout = 60%Z) as ->; [|exact (silent_in_time k)].
    assert (E : match workflow_run_by_id workflow_doc "run" with Ok r => py_int (py_or (dget "timeout_seconds" r) (PInt 0)) | Err e => Err e end = Ok 60%Z)
      by (vm_compute; reflexivity).
    rewrite Hr, Ht in E. by injection E.
  - assert (E : match run_sequential_workflow sample_env workflow_doc "run" "t9" silent_world 61 with
                | Some (Ok p) => dget "stop_reason" p.2 | _ => PNone end = PStr "timed_out") by (vm_compute; reflexivity).
    rewrite Ho in *. destruct o as [[doc r]|e]; [|discriminate E]. exists doc, r. split; [reflexivity|exact E].
Defined.

Theorem workflow_completed_means_every_step_witness : exists doc' r,
  sample_run = Some (Ok (doc', r)) /\ dget "status" r = PStr "completed"
  /\ message_ids doc' = [PStr "m0"; PStr "m1"]
  /\ exists record steps turns, workflow_run_by_id workflow_doc "run" = Ok record
     /\ listed (dget "authorized_steps" record) = Ok steps /\ dget "turns" r = PList turns
     /\ forall step, step ∈ steps -> exists d n t, step = PDict d /\ step_int d = Ok n
          /\ has_turn n t turns /\ dget "status" t = PStr "completed".
Proof.
  destruct sample_run as [[[doc' r]|e]|] eqn:E; [|by vm_compute in E..].
  exists doc', r. split; [done|].
  assert (Hs : match sample_run with Some (Ok (d, r)) => (dget "status" r, message_ids d) | _ => (PNone, []) end
               = (PStr "completed", [PStr "m0"; PStr "m1"])) by (vm_compute; reflexivity).
  rewrite E in Hs. injection Hs as Hst Hids. split; [done|]. split; [done|].
  destruct (workflow_completed_means_every_step sample_env "run" workflow_doc "t9" sample_world 3 doc' r E)
    as [[H _]|[_ H]]; [congruence|exact H].
Defined.

(** The same run taken up after its first task was sent and not answered. *)
Definition resumed_turns : list pyval := [PDict (dispatch_turn 1 "coder" "run_step_1" (sample_world 0))].
Definition resumed : run_state :=
  {| rs_doc := dset "messages" (PList [PDict [("message_id", PStr "m0")]]) workflow_doc;
     rs_turns := resumed_turns; rs_handoff := PNone |}.

Theorem delivered_task_not_resent_witness : exists e,
  run_step sample_env "run" 60 3 (sample_world 5) resumed (PDict (hd [] sample_steps)) = Some (Ok e)
  /\ message_ids (end_doc e) = message_ids (rs_doc resumed).
Proof.
  destruct (run_step sample_env "run" 60 3 (sample_world 5) resumed (PDict (hd [] sample_steps)))
    as [[e|x]|] eqn:E; [|by vm_compute in E..].
  exists e. split; [done|].
  apply (proj2 (delivered_task_not_resent sample_env "run" 60 3 (sample_world 5) resumed
                  (PDict (hd [] sample_steps)) e E) (hd [] sample_steps) 1%Z
                  (dispatch_turn 1 "coder" "run_step_1" (sample_world 0))); try reflexivity.
  - exists 0. split; reflexivity.
  - right. split; [done|]. intros a Ha. vm_compute in Ha. by injection Ha as <-.
Defined.
