(* ===== verification/Attempt.v ===== *)
(** * Mission attempts: records and admission history ([state.py])

    A Mission attempt is the record of one try of one step by one Worker.  It is
    prepared, claimed for admission, submitted to the Worker's transport, and
    ends; every claim, release, submission, ambiguity and early stop also leaves
    an event.  This file holds the validation of an attempt record, the checks
    across attempts, the identity of a dispatch, the event journal and outbox,
    and the validator of the admission history
    ([_validate_mission_admission_claim_history]) with what it guarantees: the
    events of one attempt are a path of an abstract admission protocol that ends
    in the state the attempt records.

    The text of instants is [LeaseEnv]'s.  A journal line nested beyond the
    interpreter's recursion limit is read as malformed; the code would raise
    [RecursionError], and writes no such line. *)
From S2P Require Import Prelude PyStr PyVal ReviewGroup Json Protocol Lease Store.

(** ** Attempt records *)

Definition _MISSION_ATTEMPT_FIELDS : list string :=
  ["attempt_id"; "mission_id"; "step_id"; "agent_id"; "configured_transport"; "dispatch_key";
   "admission_claim_id"; "snapshot_hash"; "state"; "created_at"; "updated_at"; "receipt_summary"; "blocker";
   "terminal_reason"].
Definition _SEMANTIC_MISSION_ATTEMPT_FIELDS : list string := _MISSION_ATTEMPT_FIELDS ++ ["semantic_step_hash"].
Definition _MISSION_ATTEMPT_STATES : list string :=
  ["prepared"; "admitting"; "submitted"; "running"; "completed"; "succeeded"; "failed"; "cancelled"; "interrupted";
   "ambiguous"].
Definition _MISSION_ATTEMPT_ACTIVE_STATES : list string := ["prepared"; "admitting"; "submitted"; "running"].
Definition TRANSPORTS : list string := ["acp"; "tmux"].

(** [re.fullmatch] of the identities; [type(v) is str and ...] *)
Definition attempt_id_form : string -> bool := hex_id "mat_" 12.
Definition dispatch_key_form : string -> bool := hex_id "dsp_" 32.
Definition claim_id_form : string -> bool := hex_id "adm_" 12.
Definition content_hash_form : string -> bool := hex_id "sha256:" 64.
Definition step_id_form (s : string) : bool :=
  match drop_prefix "step_" s with
  | Some (String c r) => in_range 49 57 c && all_ascii is_digit r
  | _ => false
  end.
Definition is_form (form : string -> bool) (v : pyval) : bool := match v with PStr s => form s | _ => false end.
Definition nonempty (s : string) : bool := negb (String.eqb s "").
Definition is_canonical_mission_id (v : pyval) : bool := is_form (hex_id "mis_" 12) v.

Definition is_none (v : pyval) : bool := match v with PNone => true | _ => false end.
Definition state_is (s : string) (d : dict) : bool := py_eq (dget "state" d) (PStr s).
Definition state_in (l : list string) (d : dict) : bool := existsb (fun s => state_is s d) l.

Section records.
Context {env : LeaseEnv}.

Definition aware_instant (v : pyval) (e : exn) : result Z :=
  match v with
  | PStr s => match fromisoformat s with Some t => Ok t | None => Err e end
  | _ => Err e
  end.

(** [receipt_summary], [blocker], [terminal_reason] *)
Definition optional_text (v : pyval) : bool := is_none v || is_form nonempty v.

Definition pre_dispatch_stopped (d : dict) : bool :=
  state_in ["cancelled"; "interrupted"] d && is_none (dget "admission_claim_id" d) && is_none (dget "receipt_summary" d).

Definition _validate_mission_attempt_record (value : pyval) : result dict :=
  let bad := ValueError "mission attempt state invalid" in
  match value with
  | PDict d =>
      _ ← raise_if (negb (keys_are _MISSION_ATTEMPT_FIELDS d || keys_are _SEMANTIC_MISSION_ATTEMPT_FIELDS d)) bad;
      _ ← raise_if (negb (is_form attempt_id_form (dget "attempt_id" d))
                    || negb (is_canonical_mission_id (dget "mission_id" d))
                    || negb (is_form step_id_form (dget "step_id" d))
                    || negb (is_form nonempty (dget "agent_id" d))) bad;
      transport ← in_str_set (dget "configured_transport" d) TRANSPORTS;
      _ ← raise_if (negb transport
                    || negb (is_form dispatch_key_form (dget "dispatch_key" d))
                    || negb (is_none (dget "admission_claim_id" d)
                             || is_form claim_id_form (dget "admission_claim_id" d))
                    || negb (is_form content_hash_form (dget "snapshot_hash" d))) bad;
      known ← in_str_set (dget "state" d) _MISSION_ATTEMPT_STATES;
      _ ← raise_if (negb known
                    || dmem "semantic_step_hash" d && negb (is_form content_hash_form (dget "semantic_step_hash" d)))
                   bad;
      created ← aware_instant (dget "created_at" d) bad;
      updated ← aware_instant (dget "updated_at" d) bad;
      _ ← raise_if ((updated <? created)%Z
                    || state_is "prepared" d && negb (updated =? created)%Z
                    || state_is "prepared" d && negb (is_none (dget "admission_claim_id" d))
                    || negb (state_is "prepared" d) && negb (pre_dispatch_stopped d)
                       && is_none (dget "admission_claim_id" d)
                    || negb (forallb (fun f => optional_text (dget f d)) ["receipt_summary"; "blocker"; "terminal_reason"])
                    || state_in ["submitted"; "running"; "completed"; "succeeded"; "failed"; "cancelled";
                                 "interrupted"; "ambiguous"] d
                       && is_none (dget "receipt_summary" d) && negb (pre_dispatch_stopped d)) bad;
      Ok d
  | _ => Err bad
  end.
End records.

(** Validated fields are texts. *)
Definition field (k : string) (d : dict) : string := text_of (dget k d).
Definition claim_of (d : dict) : option string :=
  match dget "admission_claim_id" d with PStr s => Some s | _ => None end.

(** One attempt of one dispatch. *)
Definition lineage_of (d : dict) : string * string := (field "attempt_id" d, field "dispatch_key" d).

Definition _require_unique_mission_attempt_lineage (attempts : list dict) : result unit :=
  _ ← raise_if (negb (bool_decide (NoDup (field "attempt_id" <$> attempts))))
               (ValueError "duplicate mission attempt identity");
  _ ← raise_if (negb (bool_decide (NoDup (field "dispatch_key" <$> attempts))))
               (ValueError "duplicate mission attempt dispatch key");
  _ ← raise_if (negb (bool_decide (NoDup (omap claim_of attempts))))
               (ValueError "duplicate mission admission claim identity");
  raise_if (negb (bool_decide (NoDup (field "mission_id" <$> List.filter (state_in _MISSION_ATTEMPT_ACTIVE_STATES) attempts))))
           (ValueError "multiple active Mission attempts").

(** ** Snapshot hashes and dispatch keys *)

Definition _EXECUTION_SNAPSHOT_MAX_BYTES : nat := N.to_nat 262144.
Definition _EXECUTION_SNAPSHOT_MAX_DEPTH : nat := 32.

Definition snapshot_string (depth : nat) (s : string) : result unit :=
  _ ← raise_if (Nat.ltb _EXECUTION_SNAPSHOT_MAX_DEPTH depth) (ValueError "execution snapshot nesting is invalid");
  raise_if (negb (all_ascii (fun c => negb (Ascii.eqb c Ascii.zero)) s)) (ValueError "execution snapshot string is invalid").

Fixpoint _validate_snapshot_json (depth : nat) (v : pyval) {struct v} : result unit :=
  _ ← raise_if (Nat.ltb _EXECUTION_SNAPSHOT_MAX_DEPTH depth) (ValueError "execution snapshot nesting is invalid");
  match v with
  | PNone => Ok tt
  | PBool _ | PFloat _ _ | PTuple _ => Err (ValueError "execution snapshot value is invalid")
  | PInt z => raise_if (negb ((- 2 ^ 63 <=? z) && (z <? 2 ^ 63))%Z) (ValueError "execution snapshot integer is invalid")
  | PStr s => snapshot_string depth s
  | PList l => _ ← mapR (_validate_snapshot_json (S depth)) l; Ok tt
  | PDict d =>
      _ ← mapR (fun kv => _ ← raise_if (String.eqb kv.1 "") (ValueError "execution snapshot key is invalid");
                          _ ← snapshot_string (S depth) kv.1;
                          _validate_snapshot_json (S depth) kv.2) d;
      Ok tt
  end.

Section hashes.
Context {env : LeaseEnv} {ft : FloatText}.

Definition _canonical_snapshot_bytes (value : pyval) : result string :=
  _ ← _validate_snapshot_json 0 value;
  match json_dumps_sorted value with
  | Err _ => Err (ValueError "execution snapshot encoding is invalid")
  | Ok encoded =>
      _ ← raise_if (Nat.ltb _EXECUTION_SNAPSHOT_MAX_BYTES (String.length encoded))
                   (ValueError "execution snapshot is too large");
      Ok encoded
  end.
Definition canonical_snapshot_hash (value : pyval) : result string :=
  encoded ← _canonical_snapshot_bytes value; Ok ("sha256:" +:+ sha256_hex encoded).

Definition derive_attempt_dispatch_key (mission_id step_id agent_id configured_transport snapshot_hash : pyval)
    (attempt_ordinal : Z) : result string :=
  let invalid := ValueError "attempt identity invalid" in
  _ ← raise_if (negb (is_canonical_mission_id mission_id) || negb (is_form step_id_form step_id)
                || negb (is_form nonempty agent_id)) invalid;
  transport ← in_str_set configured_transport TRANSPORTS;
  _ ← raise_if (negb transport || negb (is_form content_hash_form snapshot_hash) || (attempt_ordinal <? 1)%Z) invalid;
  digest ← canonical_snapshot_hash
    (PDict [("mission_id", mission_id); ("step_id", step_id); ("agent_id", agent_id);
            ("configured_transport", configured_transport); ("snapshot_hash", snapshot_hash);
            ("attempt_ordinal", PInt attempt_ordinal)]);
  Ok ("dsp_" +:+ String.substring 0 32 (default digest (drop_prefix "sha256:" digest))).
End hashes.

(** ** Event journal and outbox *)

Section journal.
Context {env : LeaseEnv} {ft : FloatText} {lim : RecursionLimits}.

(** The lines of the journal that are not blank. *)
Definition journal_lines (source : string) : list string := List.filter (fun l => negb (blank l)) (splitlines source).

Definition _strict_event_journal_ids (source : option string) (malformed_error duplicate_error : string)
    : result (list string) :=
  match source with
  | None => Ok []
  | Some source =>
      let malformed := ValueError malformed_error in
      _ ← raise_if (negb (valid_utf8 source)) malformed;
      ids ← mapR (fun line =>
                    match json_loads_with (fun pairs => PDict <$> _object_without_duplicates pairs) scanner_depth line with
                    | None => Err malformed
                    | Some item =>
                        match validate_daemon_event_record item with
                        | Err (LeaseError _) | Err (ValueError _) => Err malformed
                        | r => r
                        end
                    end) (journal_lines source);
      _ ← raise_if (negb (bool_decide (NoDup ids))) (ValueError duplicate_error);
      Ok ids
  end.

Definition _strict_protocol_journal_event_ids (source : option string) : result (list string) :=
  _strict_event_journal_ids source "protocol event journal is malformed" "duplicate protocol event identity".

Definition _validated_protocol_event_outbox_ids (value : pyval) : result (list string) :=
  match value with
  | PList l =>
      ids ← mapR (fun item => match validate_daemon_event_record item with
                              | Err (LeaseError _) => Err (ValueError "protocol event outbox is invalid")
                              | r => r
                              end) l;
      _ ← raise_if (negb (bool_decide (NoDup ids))) (ValueError "duplicate protocol event identity");
      Ok ids
  | _ => Err (ValueError "protocol event outbox is invalid")
  end.

(** [json.loads(line)]: a repeated key keeps its last value. *)
Definition json_loads_last (line : string) : result pyval :=
  match json_loads_with (fun pairs => Some (PDict (dupdate pairs []))) scanner_depth line with
  | Some v => Ok v
  | None => Err (ValueError "JSONDecodeError")
  end.

Definition journal_records (source : option string) : result (list dict) :=
  match source with
  | None => Ok []
  | Some source => mapR (fun line => v ← json_loads_last line; as_dict v) (journal_lines source)
  end.

(** A pending event is dropped when the journal already holds it; under the
    same identity the two must be the same document. *)
Definition pending_record (journal : list dict) (record : pyval) : result (list pyval) :=
  match record with
  | PDict d =>
      match head (List.filter (fun j => py_eq (dget "event_id" j) (dget "event_id" d)) (reverse journal)) with
      | None => Ok [record]
      | Some durable =>
          durable_canonical ← json_dumps_sorted (PDict durable);
          pending_canonical ← json_dumps_sorted record;
          _ ← raise_if (negb (String.eqb durable_canonical pending_canonical))
                       (ValueError "protocol event replay conflict");
          Ok []
      end
  | _ => Ok []
  end.
End journal.

(** ** The admission history *)

Inductive stage := SClaimed | SReleased | SSubmitted | SAmbiguous.
#[export] Instance stage_eq_dec : EqDecision stage.
Proof. solve_decision. Defined.

(** The event types of [_MISSION_CLAIM_EVENT_FIELDS] and their payload fields. *)
Inductive claim_kind := KClaimed | KReleased | KSubmitted | KAmbiguous.
#[export] Instance claim_kind_eq_dec : EqDecision claim_kind.
Proof. solve_decision. Defined.
Definition claim_kind_of (event_type : string) : option claim_kind :=
  if String.eqb event_type "mission_attempt_admission_claimed" then Some KClaimed
  else if String.eqb event_type "mission_attempt_admission_released" then Some KReleased
  else if String.eqb event_type "mission_attempt_submitted" then Some KSubmitted
  else if String.eqb event_type "mission_attempt_ambiguous" then Some KAmbiguous
  else None.
Definition _MISSION_CLAIM_EVENT_FIELDS (k : claim_kind) : list string :=
  ["attempt_id"; "mission_id"; "step_id"; "dispatch_key"; "admission_claim_id"]
  ++ match k with
     | KClaimed | KReleased => []
     | KSubmitted => ["reason"]
     | KAmbiguous => ["reason"; "expected_dispatch_key"; "observed_dispatch_key"]
     end.
Definition PRE_DISPATCH_STOPPED : string := "mission_attempt_pre_dispatch_stopped".
Definition _PRE_DISPATCH_STOP_EVENT_FIELDS : list string :=
  ["attempt_id"; "mission_id"; "step_id"; "dispatch_key"; "state"; "reason"].

Definition _ACP_COMPLETION_STAGES : list string := ["prompt"; "update"; "parse"; "finish"; "cleanup"].
Definition acp_reason (stage : string) : string := "acp_completion_" +:+ stage +:+ "_outcome_unknown".
Definition _acp_completion_ambiguity_reason (stage : pyval) : result string :=
  match stage with
  | PStr s => if in_strs s _ACP_COMPLETION_STAGES then Ok (acp_reason s)
              else Err (ValueError "ACP completion stage is invalid")
  | _ => Err (ValueError "ACP completion stage is invalid")
  end.
Definition _is_acp_completion_ambiguity_reason (reason : pyval) : bool :=
  is_form (fun r => in_strs r (acp_reason <$> _ACP_COMPLETION_STAGES)) reason.

(** The local dictionaries of [_validate_mission_admission_claim_history]. *)
Record history := History {
  h_lineage : gmap string (string * string);
  h_stages : gmap string stage;
  h_claims : gmap (string * string) (list string);
  h_closed : gset (string * string);
  h_stops : gmap (string * string) string
}.
Definition no_history : history := History ∅ ∅ ∅ ∅ ∅.

Definition history_invalid : exn := ValueError "mission admission claim history is invalid".

(** [attempt_by_lineage.get(key)]: the last attempt of the lineage. *)
Definition attempt_at (key : string * string) (attempts : list dict) : option dict :=
  head (List.filter (fun a => bool_decide (lineage_of a = key)) (reverse attempts)).

Definition claims_of (h : history) (key : string * string) : list string := default [] (h_claims h !! key).
(** [not claims or stages.get(claims[-1]) == "released"] *)
Definition last_released (h : history) (key : string * string) : bool :=
  match last (claims_of h key) with
  | None => true
  | Some c => bool_decide (h_stages h !! c = Some SReleased)
  end.

Definition stop_event (attempts : list dict) (h : history) (payload : dict) : result history :=
  let attempt_id := dget "attempt_id" payload in
  let dispatch_key := dget "dispatch_key" payload in
  _ ← raise_if (negb (hashable attempt_id && hashable dispatch_key)) (TypeError "unhashable type");
  match attempt_id, dispatch_key with
  | PStr a, PStr k =>
      match attempt_at (a, k) attempts with
      | None => Err history_invalid
      | Some attempt =>
          _ ← raise_if (negb (py_eq (dget "mission_id" payload) (dget "mission_id" attempt))
                        || negb (py_eq (dget "step_id" payload) (dget "step_id" attempt))) history_invalid;
          known ← in_str_set (dget "state" payload) ["cancelled"; "interrupted"];
          _ ← raise_if (negb known || negb (is_form nonempty (dget "reason" payload))
                        || bool_decide (is_Some (h_stops h !! (a, k))) || bool_decide ((a, k) ∈ h_closed h)
                        || negb (last_released h (a, k))) history_invalid;
          Ok (History (h_lineage h) (h_stages h) (h_claims h) (h_closed h)
                (<[(a, k) := text_of (dget "state" payload)]> (h_stops h)))
      end
  | _, _ => Err history_invalid
  end.

(** The conditions an ambiguity event has to meet, in the order of the code. *)
Definition ambiguous_ok (prior : option stage) (dispatch_key : string) (payload : dict) : result bool :=
  let reason := dget "reason" payload in
  let observed := dget "observed_dispatch_key" payload in
  let unknown := py_eq reason (PStr "admission_outcome_unknown") in
  let acp := _is_acp_completion_ambiguity_reason reason in
  let allowed := if unknown then [SClaimed] else if acp then [SSubmitted] else [SClaimed; SSubmitted] in
  if negb (bool_decide (is_Some prior /\ default SReleased prior ∈ allowed)) then Ok false
  else
    kept ← in_str_set reason ["receipt_persistence_unknown"; "force_daemon_stop_outcome_unknown"];
    Ok (negb (kept && negb (is_form dispatch_key_form observed)
              || unknown && negb (is_none observed)
              || acp && negb (py_eq observed (PStr dispatch_key))
              || negb (kept || unknown) && negb acp
              || negb (py_eq (dget "expected_dispatch_key" payload) (PStr dispatch_key)))).

(** The stage an event takes its claim to. *)
Definition next_stage (h : history) (key : string * string) (claim : string) (kind : claim_kind) (payload : dict)
    : result stage :=
  let prior := h_stages h !! claim in
  match kind with
  | KClaimed =>
      _ ← raise_if (bool_decide (is_Some prior) || bool_decide (key ∈ h_closed h) || negb (last_released h key))
                   history_invalid;
      Ok SClaimed
  | KReleased => _ ← raise_if (negb (bool_decide (prior = Some SClaimed))) history_invalid; Ok SReleased
  | KSubmitted =>
      _ ← raise_if (negb (bool_decide (prior = Some SClaimed)) || negb (is_none (dget "reason" payload)))
                   history_invalid;
      Ok SSubmitted
  | KAmbiguous =>
      ok ← ambiguous_ok prior key.2 payload;
      _ ← raise_if (negb ok) history_invalid;
      Ok SAmbiguous
  end.

Definition closes (s : stage) : bool := match s with SSubmitted | SAmbiguous => true | _ => false end.
Definition record_stage (h : history) (key : string * string) (claim : string) (kind : claim_kind) (s : stage)
    : history :=
  History (<[claim := key]> (h_lineage h)) (<[claim := s]> (h_stages h))
    (match kind with KClaimed => <[key := claims_of h key ++ [claim]]> (h_claims h) | _ => h_claims h end)
    (if closes s then {[key]} ∪ h_closed h else h_closed h) (h_stops h).

Definition claim_event (attempts : list dict) (h : history) (kind : claim_kind) (payload : dict) : result history :=
  match dget "attempt_id" payload, dget "step_id" payload, dget "dispatch_key" payload, dget "admission_claim_id" payload with
  | PStr a, PStr step_id, PStr k, PStr claim =>
      _ ← raise_if (negb (attempt_id_form a) || negb (is_canonical_mission_id (dget "mission_id" payload))
                    || negb (step_id_form step_id) || negb (dispatch_key_form k) || negb (claim_id_form claim))
                   history_invalid;
      match attempt_at (a, k) attempts with
      | None => Err history_invalid
      | Some persisted =>
          _ ← raise_if (negb (py_eq (dget "mission_id" persisted) (dget "mission_id" payload))
                        || negb (py_eq (dget "step_id" persisted) (PStr step_id))
                        || bool_decide (is_Some (h_stops h !! (a, k)))
                        || match h_lineage h !! claim with Some l => negb (bool_decide (l = (a, k))) | None => false end)
                       history_invalid;
          s ← next_stage h (a, k) claim kind payload;
          Ok (record_stage h (a, k) claim kind s)
      end
  | _, _, _, _ => Err history_invalid
  end.

Section validator.
Context {env : LeaseEnv}.

Definition history_step (attempts : list dict) (h : history) (record : pyval) : result history :=
  match record with
  | PDict r =>
      match validate_daemon_event_record record with
      | Err (LeaseError _) => Err history_invalid
      | Err e => Err e
      | Ok _ =>
          let event_type := text_of (dget "event_type" r) in
          if String.eqb event_type PRE_DISPATCH_STOPPED then
            match dget "payload" r with
            | PDict p => if keys_are _PRE_DISPATCH_STOP_EVENT_FIELDS p then stop_event attempts h p else Err history_invalid
            | _ => Err history_invalid
            end
          else match claim_kind_of event_type with
               | None => Ok h
               | Some kind =>
                   match dget "payload" r with
                   | PDict p => if keys_are (_MISSION_CLAIM_EVENT_FIELDS kind) p then claim_event attempts h kind p
                                else Err history_invalid
                   | _ => Err history_invalid
                   end
               end
      end
  | _ => Err history_invalid
  end.

(** The stage the recorded claim of an attempt must be at. *)
Definition expected_stage (attempt : dict) : option stage :=
  if state_is "admitting" attempt then Some SClaimed
  else if state_is "ambiguous" attempt then Some SAmbiguous
  else if state_is "prepared" attempt then None else Some SSubmitted.

Definition check_attempt (h : history) (attempt : dict) : result unit :=
  let key := lineage_of attempt in
  match claim_of attempt with
  | None =>
      if state_in ["cancelled"; "interrupted"] attempt
      then raise_if (negb (bool_decide (h_stops h !! key = Some (field "state" attempt)))
                     || bool_decide (key ∈ h_closed h) || negb (last_released h key)) history_invalid
      else raise_if (negb (state_is "prepared" attempt) || bool_decide (key ∈ h_closed h)
                     || bool_decide (is_Some (h_stops h !! key)) || negb (last_released h key)) history_invalid
  | Some claim =>
      raise_if (negb (bool_decide (h_lineage h !! claim = Some key))
                || negb (bool_decide (last (claims_of h key) = Some claim))
                || match expected_stage attempt with
                   | Some s => negb (bool_decide (h_stages h !! claim = Some s))
                   | None => false
                   end) history_invalid
  end.

Definition _validate_mission_admission_claim_history (records : list pyval) (attempts : list dict) : result history :=
  h ← foldM (history_step attempts) no_history records;
  _ ← mapR (check_attempt h) attempts;
  Ok h.
End validator.

(** [StateStore._protocol_admission_claim_history]: the history of the journal
    and the outbox together. *)
Definition recorded_events `{FloatText, RecursionLimits} (source : option string) (outbox : pyval)
    : result (list pyval) :=
  journal ← journal_records source;
  pending ← match outbox with PList l => mapR (pending_record journal) l | _ => Ok [] end;
  Ok ((PDict <$> journal) ++ concat pending).

Definition _protocol_admission_claim_history `{LeaseEnv, FloatText, RecursionLimits}
    (source : option string) (outbox : pyval) (attempts : list dict) : result history :=
  _ ← _validated_protocol_event_outbox_ids outbox;
  _ ← _strict_protocol_journal_event_ids source;
  records ← recorded_events source outbox;
  _validate_mission_admission_claim_history records attempts.

(** ** Abstract specification

    The admission protocol of one attempt, as its events see it. *)

Inductive phase := Ready | Claimed (c : string) | Submitted (c : string) | Ambiguous (c : string) | Stopped (s : string).
Inductive admission_event :=
| EClaim (c : string) | ERelease (c : string) | ESubmit (c : string) | EAmbiguous (c : string) | EStop (s : string).

Inductive admission_step : phase -> admission_event -> phase -> Prop :=
| step_claim c : admission_step Ready (EClaim c) (Claimed c)
| step_release c : admission_step (Claimed c) (ERelease c) Ready
| step_submit c : admission_step (Claimed c) (ESubmit c) (Submitted c)
| step_lost c : admission_step (Claimed c) (EAmbiguous c) (Ambiguous c)
| step_lost_later c : admission_step (Submitted c) (EAmbiguous c) (Ambiguous c)
| step_stop s : admission_step Ready (EStop s) (Stopped s).

Inductive admission_path : phase -> list admission_event -> phase -> Prop :=
| path_nil p : admission_path p [] p
| path_snoc p es q e r : admission_path p es q -> admission_step q e r -> admission_path p (es ++ [e]) r.

(** What a record says about an attempt. *)
Definition event_of (key : string * string) (record : pyval) : option admission_event :=
  match record with
  | PDict r =>
      match dget "payload" r with
      | PDict p =>
          if py_eq (dget "attempt_id" p) (PStr key.1) && py_eq (dget "dispatch_key" p) (PStr key.2) then
            if String.eqb (text_of (dget "event_type" r)) PRE_DISPATCH_STOPPED then Some (EStop (text_of (dget "state" p)))
            else match claim_kind_of (text_of (dget "event_type" r)) with
                 | Some KClaimed => Some (EClaim (text_of (dget "admission_claim_id" p)))
                 | Some KReleased => Some (ERelease (text_of (dget "admission_claim_id" p)))
                 | Some KSubmitted => Some (ESubmit (text_of (dget "admission_claim_id" p)))
                 | Some KAmbiguous => Some (EAmbiguous (text_of (dget "admission_claim_id" p)))
                 | None => None
                 end
          else None
      | _ => None
      end
  | _ => None
  end.
Definition events_of (key : string * string) (records : list pyval) : list admission_event := omap (event_of key) records.

Definition claimed_in (es : list admission_event) : list string :=
  omap (fun e => match e with EClaim c => Some c | _ => None end) es.
Definition submitted_in (es : list admission_event) : list string :=
  omap (fun e => match e with ESubmit c => Some c | _ => None end) es.

(** The phase an attempt's own record says it is in. *)
Definition phase_of (attempt : dict) : phase :=
  match claim_of attempt with
  | None => if state_is "prepared" attempt then Ready else Stopped (field "state" attempt)
  | Some c => if state_is "admitting" attempt then Claimed c
              else if state_is "ambiguous" attempt then Ambiguous c else Submitted c
  end.

(** The phase the validator's dictionaries record. *)
Definition phase_in (h : history) (key : string * string) : phase :=
  match h_stops h !! key with
  | Some s => Stopped s
  | None => match last (claims_of h key) with
            | None => Ready
            | Some c => match h_stages h !! c with
                        | Some SClaimed => Claimed c
                        | Some SSubmitted => Submitted c
                        | Some SAmbiguous => Ambiguous c
                        | _ => Ready
                        end
            end
  end.

(** ** The validator's invariant *)

Record history_inv (records : list pyval) (h : history) : Prop := {
  hi_path : forall key, admission_path Ready (events_of key records) (phase_in h key);
  hi_known : forall key c, c ∈ claims_of h key -> h_lineage h !! c = Some key /\ is_Some (h_stages h !! c);
  hi_owned : forall c, is_Some (h_stages h !! c) -> exists key, h_lineage h !! c = Some key /\ c ∈ claims_of h key;
  hi_released : forall key cs c, claims_of h key = cs ++ [c] -> Forall (fun c' => h_stages h !! c' = Some SReleased) cs;
  hi_closed : forall key c s, last (claims_of h key) = Some c -> h_stages h !! c = Some s -> closes s = true ->
                key ∈ h_closed h;
  hi_stopped : forall key, is_Some (h_stops h !! key) -> last_released h key = true;
  hi_claims : forall key, claims_of h key = claimed_in (events_of key records);
  hi_NoDup : forall key, NoDup (claims_of h key)
}.

Lemma history_inv_init : history_inv [] no_history.
Proof.
  split; cbn; unfold claims_of; cbn; intros *; rewrite ?lookup_empty; cbn.
  - constructor.
  - intros H. by apply elem_of_nil in H.
  - by intros [].
  - intros H. by destruct cs.
  - done.
  - by intros [].
  - done.
  - constructor.
Qed.

(** *** What the validator's steps check *)

Lemma next_stage_Ok h key c kind p s : next_stage h key c kind p = Ok s ->
  match kind with
  | KClaimed => h_stages h !! c = None /\ key ∉ h_closed h /\ last_released h key = true /\ s = SClaimed
  | KReleased => h_stages h !! c = Some SClaimed /\ s = SReleased
  | KSubmitted => h_stages h !! c = Some SClaimed /\ s = SSubmitted
  | KAmbiguous => (h_stages h !! c = Some SClaimed \/ h_stages h !! c = Some SSubmitted) /\ s = SAmbiguous
  end.
Proof.
  unfold next_stage. destruct kind; intros H; inv_ok; split_guards.
  - match goal with H : ~ is_Some _ |- _ => apply eq_None_not_Some in H end. done.
  - done.
  - done.
  - split; [|done]. unfold ambiguous_ok in Hr. case_bool_decide as Hin; [|cbn in Hr; congruence].
    destruct Hin as [[s Hs] Hin]. rewrite Hs in Hin |- *. cbn in Hin.
    repeat case_match; set_solver.
Qed.

Lemma claim_event_Ok attempts h kind p h' : claim_event attempts h kind p = Ok h' ->
  exists a k c s, dget "attempt_id" p = PStr a /\ dget "dispatch_key" p = PStr k
    /\ dget "admission_claim_id" p = PStr c /\ h_stops h !! (a, k) = None
    /\ (forall l, h_lineage h !! c = Some l -> l = (a, k))
    /\ next_stage h (a, k) c kind p = Ok s /\ h' = record_stage h (a, k) c kind s.
Proof.
  unfold claim_event.
  destruct (dget "attempt_id" p) as [| | | |a| | |]; try done.
  destruct (dget "step_id" p) as [| | | |si| | |]; try done.
  destruct (dget "dispatch_key" p) as [| | | |k| | |]; try done.
  destruct (dget "admission_claim_id" p) as [| | | |c| | |]; try done.
  intros ([] & _ & H)%bind_Ok. destruct (attempt_at (a, k) attempts); [|done].
  inv_ok. split_guards. eexists a, k, c, _. split_and!; try done.
  - by apply eq_None_not_Some.
  - intros key' Hl. rewrite Hl in *. by split_guards.
Qed.

Lemma stop_event_Ok attempts h p h' : stop_event attempts h p = Ok h' ->
  exists a k s, dget "attempt_id" p = PStr a /\ dget "dispatch_key" p = PStr k /\ dget "state" p = PStr s
    /\ h_stops h !! (a, k) = None /\ (a, k) ∉ h_closed h /\ last_released h (a, k) = true
    /\ h' = History (h_lineage h) (h_stages h) (h_claims h) (h_closed h) (<[(a, k) := s]> (h_stops h)).
Proof.
  unfold stop_event. intros ([] & _ & H)%bind_Ok.
  destruct (dget "attempt_id" p) as [| | | |a| | |]; try done.
  destruct (dget "dispatch_key" p) as [| | | |k| | |]; try done.
  destruct (attempt_at (a, k) attempts); [|done].
  apply bind_Ok in H as ([] & _ & (known & Hknown & H)%bind_Ok). inv_ok. split_guards.
  unfold in_str_set in Hknown. destruct (hashable _); [|done]. injection Hknown as <-.
  destruct (dget "state" p) as [| | | |s| | |]; try done.
  exists a, k, s. split_and!; try done. by apply eq_None_not_Some.
Qed.

(** *** Preservation *)

Section preservation.
Context (records : list pyval) (h : history) (Hinv : history_inv records h).

Lemma claim_is_last key c s : h_lineage h !! c = Some key -> h_stages h !! c = Some s -> s <> SReleased ->
  last (claims_of h key) = Some c.
Proof.
  intros Hl Hs Hne. destruct (hi_owned _ _ Hinv c) as (key' & Hl' & Hc); [by eexists|].
  assert (key' = key) as -> by congruence.
  destruct (last (claims_of h key)) as [x|] eqn:El; [|apply last_None in El; rewrite El in Hc; by apply elem_of_nil in Hc].
  apply last_Some in El as [l E]. rewrite E in Hc.
  apply elem_of_app in Hc as [Hc|Hc%list_elem_of_singleton]; [|by subst].
  pose proof (hi_released _ _ Hinv _ _ _ E) as Hall. rewrite Forall_forall in Hall. specialize (Hall c Hc). congruence.
Qed.

Lemma not_closed_open key c : last (claims_of h key) = Some c -> key ∉ h_closed h ->
  h_stages h !! c = Some SClaimed \/ h_stages h !! c = Some SReleased.
Proof.
  intros Hl Hn. destruct (hi_known _ _ Hinv key c) as [_ [s Hs]].
  { by apply last_Some_elem_of. }
  pose proof (hi_closed _ _ Hinv _ _ _ Hl Hs). destruct s; cbn in *; naive_solver.
Qed.

Lemma released_ready key : h_stops h !! key = None -> last_released h key = true -> phase_in h key = Ready.
Proof.
  unfold phase_in, last_released. intros ->. destruct (last _) as [c|]; [|done]. intros H%bool_decide_eq_true.
  by rewrite H.
Qed.
End preservation.

Definition kind_event (kind : claim_kind) (c : string) : admission_event :=
  match kind with
  | KClaimed => EClaim c | KReleased => ERelease c | KSubmitted => ESubmit c | KAmbiguous => EAmbiguous c
  end.

Lemma keyed_payload a k (key : string * string) :
  py_eq (PStr a) (PStr key.1) && py_eq (PStr k) (PStr key.2) = bool_decide (key = (a, k)).
Proof.
  destruct key as [a' k']. cbn [fst snd]. apply eq_bool_prop_intro.
  rewrite andb_True, !Is_true_true, bool_decide_eq_true, !py_eq_str. split; [intros [[= <-] [= <-]]|intros [= <- <-]]; done.
Qed.

Lemma event_of_claim r p a k c kind key :
  dget "payload" r = PDict p -> dget "attempt_id" p = PStr a -> dget "dispatch_key" p = PStr k ->
  dget "admission_claim_id" p = PStr c -> String.eqb (text_of (dget "event_type" r)) PRE_DISPATCH_STOPPED = false ->
  claim_kind_of (text_of (dget "event_type" r)) = Some kind ->
  event_of key (PDict r) = if bool_decide (key = (a, k)) then Some (kind_event kind c) else None.
Proof.
  intros Hp Ha Hk Hc Hs Hkind. unfold event_of. rewrite Hp, Ha, Hk, keyed_payload, Hs, Hkind, Hc.
  by destruct (bool_decide _), kind.
Qed.

Lemma event_of_stop r p a k s key :
  dget "payload" r = PDict p -> dget "attempt_id" p = PStr a -> dget "dispatch_key" p = PStr k ->
  dget "state" p = PStr s -> String.eqb (text_of (dget "event_type" r)) PRE_DISPATCH_STOPPED = true ->
  event_of key (PDict r) = if bool_decide (key = (a, k)) then Some (EStop s) else None.
Proof.
  intros Hp Ha Hk Hst Hs. unfold event_of. rewrite Hp, Ha, Hk, keyed_payload, Hs, Hst.
  by destruct (bool_decide _).
Qed.

Lemma events_snoc key records r :
  events_of key (records ++ [r]) = events_of key records ++ match event_of key r with Some e => [e] | None => [] end.
Proof. unfold events_of. rewrite omap_app. cbn. by destruct (event_of key r). Qed.

Lemma claimed_snoc key key' records e r :
  (forall key', event_of key' r = if bool_decide (key' = key) then Some e else None) ->
  claimed_in (events_of key' (records ++ [r]))
  = claimed_in (events_of key' records) ++ if bool_decide (key' = key) then claimed_in [e] else [].
Proof. intros He. rewrite events_snoc, He. unfold claimed_in. rewrite omap_app. by case_bool_decide. Qed.

Lemma path_event key records r e p q :
  (forall key', event_of key' r = if bool_decide (key' = key) then Some e else None) ->
  admission_step p e q -> admission_path Ready (events_of key records) p ->
  admission_path Ready (events_of key (records ++ [r])) q.
Proof. intros He Hs Hp. rewrite events_snoc, He, bool_decide_true by done. by eapply path_snoc. Qed.

Lemma path_no_event key key' records r e p :
  (forall key', event_of key' r = if bool_decide (key' = key) then Some e else None) -> key' <> key ->
  admission_path Ready (events_of key' records) p -> admission_path Ready (events_of key' (records ++ [r])) p.
Proof. intros He Hne. by rewrite events_snoc, He, bool_decide_false, app_nil_r. Qed.

Section one_event.
Context (records : list pyval) (h : history) (Hinv : history_inv records h).
Context (r : pyval) (key : string * string).

Lemma stop_inv s :
  (forall key', event_of key' r = if bool_decide (key' = key) then Some (EStop s) else None) ->
  h_stops h !! key = None -> last_released h key = true ->
  history_inv (records ++ [r]) (History (h_lineage h) (h_stages h) (h_claims h) (h_closed h) (<[key := s]> (h_stops h))).
Proof.
  intros He Hns Hlr. destruct Hinv. split; try done.
  - intros key'. destruct (decide (key' = key)) as [->|Hne].
    + replace (phase_in _ key) with (Stopped s) by (unfold phase_in; cbn; by rewrite lookup_insert_eq).
      eapply path_event; [done|constructor|]. pose proof (hi_path0 key) as Hp. by rewrite (released_ready h key) in Hp.
    + eapply path_no_event; [done..|].
      replace (phase_in _ key') with (phase_in h key'); [apply hi_path0|].
      unfold phase_in. cbn. by rewrite lookup_insert_ne by done.
  - intros key'. cbn. destruct (decide (key' = key)) as [->|Hne]; [done|].
    rewrite lookup_insert_ne by done. apply hi_stopped0.
  - intros key'. rewrite (claimed_snoc key _ _ (EStop s)) by done. cbn. rewrite <- hi_claims0. case_bool_decide; by rewrite app_nil_r.
Qed.

(** A claim that is already known moves to another stage. *)
Lemma move_inv kind c s0 s : kind <> KClaimed ->
  (forall key', event_of key' r = if bool_decide (key' = key) then Some (kind_event kind c) else None) ->
  h_stops h !! key = None -> (forall l, h_lineage h !! c = Some l -> l = key) ->
  h_stages h !! c = Some s0 -> s0 <> SReleased ->
  admission_step (phase_in h key) (kind_event kind c) (phase_in (record_stage h key c kind s) key) ->
  history_inv (records ++ [r]) (record_stage h key c kind s).
Proof.
  intros Hk He Hns Hown Hs0 Hne Hstep.
  destruct (hi_owned _ _ Hinv c) as (key0 & Hl & Hc); [by eexists|]. specialize (Hown _ Hl) as ->.
  pose proof (claim_is_last _ _ Hinv _ _ _ Hl Hs0 Hne) as Hlast.
  assert (Hclaims : forall key', claims_of (record_stage h key c kind s) key' = claims_of h key') by (by destruct kind).
  assert (Hother : forall key' c', key' <> key -> c' ∈ claims_of h key' -> h_stages (record_stage h key c kind s) !! c' = h_stages h !! c').
  { intros key' c' Hd Hc'. destruct (hi_known _ _ Hinv _ _ Hc') as [Hl' _]. cbn. apply lookup_insert_ne.
    intros ->. congruence. }
  destruct Hinv. split.
  - intros key'. destruct (decide (key' = key)) as [->|Hd]; [by eapply path_event|].
    eapply path_no_event; [done..|]. replace (phase_in _ key') with (phase_in h key'); [apply hi_path0|].
    unfold phase_in. rewrite Hclaims. cbn [h_stops record_stage]. destruct (h_stops h !! key'); [done|].
    destruct (last (claims_of h key')) as [c'|] eqn:E; [|done].
    by rewrite (Hother key' c') by (try done; by apply last_Some_elem_of).
  - intros key' c'. rewrite Hclaims. intros Hc'. destruct (hi_known0 _ _ Hc') as [Hl' Hs']. cbn.
    destruct (decide (c' = c)) as [->|Hd].
    + rewrite !lookup_insert_eq. split; [congruence|by eexists].
    + by rewrite !lookup_insert_ne by done.
  - intros c'. cbn. destruct (decide (c' = c)) as [->|Hd].
    + intros _. exists key. rewrite lookup_insert_eq. by rewrite Hclaims.
    + rewrite !lookup_insert_ne by done. setoid_rewrite Hclaims. apply hi_owned0.
  - intros key' cs x. rewrite Hclaims. intros E. pose proof (hi_released0 _ _ _ E) as Hall. rewrite Forall_forall in Hall |- *.
    intros c' Hc'. cbn. destruct (decide (c' = c)) as [->|Hd]; [|rewrite lookup_insert_ne by done; by apply Hall].
    specialize (Hall c Hc'). congruence.
  - intros key' x s' E Hs' Hcl. rewrite Hclaims in E. cbn in *.
    destruct (decide (x = c)) as [->|Hd].
    + rewrite lookup_insert_eq in Hs'. injection Hs' as <-. rewrite Hcl.
      assert (key' = key) as ->; [|set_solver].
      destruct (hi_known0 key' c) as [Hl' _]; [by apply last_Some_elem_of|congruence].
    + rewrite lookup_insert_ne in Hs' by done. pose proof (hi_closed0 _ _ _ E Hs' Hcl). destruct (closes s); set_solver.
  - intros key'. cbn. intros Hst. pose proof (hi_stopped0 _ Hst) as Hr. unfold last_released in *. rewrite Hclaims.
    destruct (last (claims_of h key')) as [x|] eqn:E; [|done]. rewrite (Hother key' x); [done| |by apply last_Some_elem_of].
    intros ->. by rewrite Hns in Hst; destruct Hst.
  - intros key'. rewrite Hclaims, (claimed_snoc key _ _ (kind_event kind c)) by done.
    rewrite hi_claims0. destruct kind; [done|..]; cbn; case_bool_decide; by rewrite app_nil_r.
  - intros key'. by rewrite Hclaims.
Qed.

(** A new claim. *)
Lemma claim_inv c :
  (forall key', event_of key' r = if bool_decide (key' = key) then Some (EClaim c) else None) ->
  h_stops h !! key = None -> h_stages h !! c = None -> key ∉ h_closed h -> last_released h key = true ->
  history_inv (records ++ [r]) (record_stage h key c KClaimed SClaimed).
Proof.
  intros He Hns Hnew Hnc Hlr. set (h' := record_stage h key c KClaimed SClaimed).
  assert (Hfresh : forall key', c ∉ claims_of h key').
  { intros key' Hc. destruct (hi_known _ _ Hinv _ _ Hc) as [_ [s Hs]]. congruence. }
  assert (Hkey : claims_of h' key = claims_of h key ++ [c]).
  { unfold claims_of at 1. cbn. by rewrite lookup_insert_eq. }
  assert (Hother : forall key', key' <> key -> claims_of h' key' = claims_of h key').
  { intros key' Hd. unfold claims_of. cbn. by rewrite lookup_insert_ne. }
  assert (Hst : forall key' c', c' ∈ claims_of h key' -> h_stages h' !! c' = h_stages h !! c').
  { intros key' c' Hc'. cbn. apply lookup_insert_ne. intros ->. by apply Hfresh in Hc'. }
  destruct Hinv. split.
  - intros key'. destruct (decide (key' = key)) as [->|Hd].
    + replace (phase_in h' key) with (Claimed c).
      2:{ unfold phase_in. rewrite Hkey, last_snoc. cbn. by rewrite Hns, lookup_insert_eq. }
      eapply path_event; [done|constructor|]. pose proof (hi_path0 key) as Hp. by rewrite (released_ready h key) in Hp.
    + eapply path_no_event; [done..|]. replace (phase_in h' key') with (phase_in h key'); [apply hi_path0|].
      unfold phase_in. rewrite Hother by done. cbn [h_stops h' record_stage]. destruct (h_stops h !! key'); [done|].
      destruct (last (claims_of h key')) as [c'|] eqn:E; [|done]. by rewrite (Hst key' c') by (by apply last_Some_elem_of).
  - intros key' c' Hc'. destruct (decide (c' = c)) as [->|Hd].
    + cbn. rewrite !lookup_insert_eq. split; [|by eexists].
      destruct (decide (key' = key)) as [->|Hd]; [done|]. rewrite Hother in Hc' by done. by apply Hfresh in Hc'.
    + cbn. rewrite !lookup_insert_ne by done. apply hi_known0.
      destruct (decide (key' = key)) as [->|Hd']; [|by rewrite Hother in Hc'].
      rewrite Hkey in Hc'. set_solver.
  - intros c'. cbn. destruct (decide (c' = c)) as [->|Hd].
    + intros _. exists key. rewrite lookup_insert_eq, Hkey. set_solver.
    + rewrite !lookup_insert_ne by done. intros Hs. destruct (hi_owned0 _ Hs) as (key' & Hl & Hc'). exists key'. split; [done|].
      destruct (decide (key' = key)) as [->|Hd']; [rewrite Hkey; set_solver|by rewrite Hother].
  - intros key' cs x E. rewrite Forall_forall. intros c' Hc'.
    assert (Hin : c' ∈ claims_of h key').
    { destruct (decide (key' = key)) as [->|Hd]; [|rewrite Hother in E by done; rewrite E; set_solver].
      rewrite Hkey in E. apply app_inj_tail in E as [-> _]. done. }
    rewrite (Hst _ _ Hin). destruct (decide (key' = key)) as [->|Hd].
    + rewrite Hkey in E. apply app_inj_tail in E as [<- <-].
      unfold last_released in Hlr. destruct (last (claims_of h key)) as [y|] eqn:Ey; [|apply last_None in Ey; rewrite Ey in Hin; by apply elem_of_nil in Hin].
      apply last_Some in Ey as [l El]. pose proof (hi_released0 _ _ _ El) as Hall. rewrite Forall_forall in Hall.
      rewrite El in Hin. apply elem_of_app in Hin as [Hin|Hin%list_elem_of_singleton]; [by apply Hall|subst]. by apply bool_decide_eq_true in Hlr.
    + rewrite Hother in E by done. pose proof (hi_released0 _ _ _ E) as Hall. rewrite Forall_forall in Hall. by apply Hall.
  - intros key' x s E Hs Hcl. destruct (decide (x = c)) as [->|Hd].
    + cbn in Hs. rewrite lookup_insert_eq in Hs. by injection Hs as <-.
    + cbn in Hs. rewrite lookup_insert_ne in Hs by done.
      destruct (decide (key' = key)) as [->|Hd']; [rewrite Hkey, last_snoc in E; congruence|].
      rewrite Hother in E by done. by eapply hi_closed0.
  - intros key' Hs. cbn in Hs. destruct (decide (key' = key)) as [->|Hd]; [by rewrite Hns in Hs; destruct Hs|].
    pose proof (hi_stopped0 _ Hs) as Hr. unfold last_released in *. rewrite Hother by done.
    destruct (last (claims_of h key')) as [x|] eqn:E; [|done]. by rewrite (Hst key' x) by (by apply last_Some_elem_of).
  - intros key'. rewrite (claimed_snoc key _ _ (EClaim c)) by done. rewrite <- hi_claims0.
    case_bool_decide; subst; [done|]. by rewrite Hother, app_nil_r.
  - intros key'. destruct (decide (key' = key)) as [->|Hd]; [|by rewrite Hother].
    rewrite Hkey. apply NoDup_app. split; [done|]. split; [set_solver|apply NoDup_singleton].
Qed.
End one_event.

Section history.
Context {env : LeaseEnv}.

(** Moving the open claim of an attempt is a step of the protocol. *)
Lemma record_stage_step records h key c kind p s : history_inv records h -> kind <> KClaimed ->
  h_stops h !! key = None -> (forall l, h_lineage h !! c = Some l -> l = key) -> next_stage h key c kind p = Ok s ->
  admission_step (phase_in h key) (kind_event kind c) (phase_in (record_stage h key c kind s) key)
  /\ exists s0, h_stages h !! c = Some s0 /\ s0 <> SReleased.
Proof.
  intros Hinv Hk Hns Hown Hn. apply next_stage_Ok in Hn.
  assert (exists s0, h_stages h !! c = Some s0 /\ s0 <> SReleased) as (s0 & Hs0 & Hne).
  { destruct kind; [done|naive_solver..]. }
  split; [|by exists s0].
  destruct (hi_owned _ _ Hinv c) as (key0 & Hl & Hc); [by eexists|]. specialize (Hown _ Hl) as ->.
  pose proof (claim_is_last _ _ Hinv _ _ _ Hl Hs0 Hne) as Hlast.
  assert (Hlast' : last (claims_of (record_stage h key c kind s) key) = Some c) by (by destruct kind).
  unfold phase_in. rewrite Hlast, Hlast'. cbn [h_stops record_stage h_stages]. rewrite Hns, lookup_insert_eq.
  destruct kind; [done|..].
  - destruct Hn as [-> ->]. constructor.
  - destruct Hn as [-> ->]. constructor.
  - destruct Hn as [[-> | ->] ->]; constructor.
Qed.

Lemma history_step_inv records attempts h r h' : history_inv records h -> history_step attempts h r = Ok h' ->
  history_inv (records ++ [r]) h'.
Proof.
  intros Hinv H. unfold history_step in H. destruct r as [| | | | | | |r]; try done.
  destruct (validate_daemon_event_record _) as [id|[]]; try done.
  destruct (String.eqb _ PRE_DISPATCH_STOPPED) eqn:Hstop.
  - destruct (dget "payload" r) as [| | | | | | |p] eqn:Hp; try done. destruct (keys_are _ p); [|done].
    apply stop_event_Ok in H as (a & k & s & Ha & Hk & Hs & Hns & Hnc & Hlr & ->).
    apply stop_inv; [done| |done..]. intros key'. by eapply event_of_stop.
  - destruct (claim_kind_of _) as [kind|] eqn:Hkind.
    2:{ injection H as <-. assert (forall key, event_of key (PDict r) = None) as He.
        { intros key. unfold event_of. rewrite Hstop, Hkind. destruct (dget "payload" r); [done..|]. by destruct (_ && _). }
        destruct Hinv. split; try done; intros key; rewrite events_snoc, He, app_nil_r; done. }
    destruct (dget "payload" r) as [| | | | | | |p] eqn:Hp; try done. destruct (keys_are _ p); [|done].
    apply claim_event_Ok in H as (a & k & c & s & Ha & Hk & Hc & Hns & Hown & Hn & ->).
    assert (He : forall key', event_of key' (PDict r) = if bool_decide (key' = (a, k)) then Some (kind_event kind c) else None).
    { intros key'. by eapply event_of_claim. }
    destruct (decide (kind = KClaimed)) as [->|Hk'].
    + apply next_stage_Ok in Hn as (Hnew & Hnc & Hlr & ->). by apply claim_inv.
    + destruct (record_stage_step _ _ _ _ _ _ _ Hinv Hk' Hns Hown Hn) as [Hst (s0 & Hs0 & Hne)].
      by eapply move_inv.
Qed.

Lemma history_of_inv attempts records h : foldM (history_step attempts) no_history records = Ok h ->
  history_inv records h.
Proof.
  revert h. induction records as [|r records IH] using rev_ind; intros h H.
  - injection H as <-. apply history_inv_init.
  - rewrite foldM_app in H. apply bind_Ok in H as (h0 & H0 & H1). cbn in H1. apply bind_Ok in H1 as (h1 & H1 & [= <-]).
    eapply history_step_inv; [|done]. by apply IH.
Qed.
End history.

(** *** The history and the attempts *)

(** From the start, an attempt is submitted at most once, and after that its
    events can only say that its outcome is unknown. *)
Lemma admission_path_from p es q : admission_path p es q -> p = Ready ->
  match q with
  | Ready | Claimed _ => submitted_in es = []
  | Submitted c => submitted_in es = [c]
  | Ambiguous c => submitted_in es = [] \/ submitted_in es = [c]
  | Stopped _ => submitted_in es = []
  end.
Proof.
  induction 1 as [|p es q e r _ IH Hs]; intros ->; [done|]. specialize (IH eq_refl).
  unfold submitted_in in *. rewrite omap_app. inversion Hs; subst; cbn in *; rewrite ?app_nil_r; try done.
  - by rewrite IH.
  - by left.
  - by right.
Qed.

Section soundness.
Context {env : LeaseEnv}.

Lemma validate_attempt_Ok v d : _validate_mission_attempt_record v = Ok d ->
  v = PDict d /\ (state_is "prepared" d = true -> dget "admission_claim_id" d = PNone).
Proof.
  unfold _validate_mission_attempt_record. destruct v; try done. intros H. inv_ok. split; [done|].
  intros Hp. rewrite Hp in *. split_guards.
  match goal with H : _ && negb (is_none (dget "admission_claim_id" _)) = false |- _ => rename H into Hn end.
  cbn in Hn. apply negb_false_iff in Hn. by destruct (dget "admission_claim_id" _).
Qed.

Lemma check_attempt_phase records h a : history_inv records h ->
  (state_is "prepared" a = true -> claim_of a = None) -> check_attempt h a = Ok tt ->
  phase_in h (lineage_of a) = phase_of a.
Proof.
  intros Hinv Hprep. unfold check_attempt, phase_of. destruct (claim_of a) as [c|] eqn:Hc.
  - unfold raise_if. destruct (_ || _) eqn:Hg; [done|]. intros _. split_guards.
    match goal with H : match expected_stage a with _ => _ end = false |- _ => rename H into Hexp end.
    assert (state_is "prepared" a = false) as Hnp by (destruct (state_is "prepared" a); naive_solver).
    unfold expected_stage in Hexp. rewrite Hnp in Hexp.
    assert (exists s, h_stages h !! c = Some s /\ s <> SReleased /\
      s = if state_is "admitting" a then SClaimed else if state_is "ambiguous" a then SAmbiguous else SSubmitted)
      as (s & Hs & Hne & Hseq).
    { destruct (state_is "admitting" a), (state_is "ambiguous" a); split_guards; eexists; (split; [done|]); done. }
    unfold phase_in. destruct (h_stops h !! lineage_of a) as [t|] eqn:Ht.
    + assert (last_released h (lineage_of a) = true) as Hr by (eapply hi_stopped; [done|by eexists]).
      unfold last_released in Hr. match goal with H : last _ = _ |- _ => rewrite H in Hr end. by split_guards; congruence.
    + match goal with H : last _ = _ |- _ => rewrite H end. rewrite Hs, Hseq.
      by destruct (state_is "admitting" a), (state_is "ambiguous" a).
  - destruct (state_in ["cancelled"; "interrupted"] a) eqn:Hst; intros H; inv_ok; split_guards.
    + assert (state_is "prepared" a = false) as ->.
      { unfold state_in, state_is in *. cbn in Hst. destruct (dget "state" a) as [| | | |t| | |]; try discriminate Hst; try reflexivity.
        destruct (py_eq (PStr t) (PStr "prepared")) eqn:E; [|done]. apply py_eq_str in E. by rewrite E in Hst. }
      unfold phase_in. match goal with H : h_stops h !! _ = _ |- _ => by rewrite H end.
    + match goal with H : state_is "prepared" a = true |- _ => rewrite H end.
      match goal with H : ~ is_Some _ |- _ => apply eq_None_not_Some in H end. by apply released_ready.
Qed.

Lemma history_paths rows records attempts h a :
  mapR _validate_mission_attempt_record rows = Ok attempts ->
  _validate_mission_admission_claim_history records attempts = Ok h -> a ∈ attempts ->
  history_inv records h /\ admission_path Ready (events_of (lineage_of a) records) (phase_of a).
Proof.
  intros Hrows (h' & Hh & (us & Hck & [= ->])%bind_Ok)%bind_Ok Ha. apply history_of_inv in Hh as Hinv. split; [done|].
  apply list_elem_of_lookup in Ha as [i Hi]. apply mapR_Ok in Hrows, Hck.
  destruct (Forall2_lookup_r _ _ _ _ _ Hrows Hi) as (v & _ & Hv).
  destruct (Forall2_lookup_l _ _ _ _ _ Hck Hi) as ([] & _ & Hok).
  apply validate_attempt_Ok in Hv as [_ Hp].
  assert (state_is "prepared" a = true -> claim_of a = None) as Hp' by (unfold claim_of; intros H; by rewrite (Hp H)).
  rewrite <- (check_attempt_phase _ _ _ Hinv Hp' Hok). by apply (hi_path _ _ Hinv).
Qed.

(** A claim belongs to one attempt and is made once; an attempt is submitted
    at most once. *)
Lemma history_claims records attempts h : _validate_mission_admission_claim_history records attempts = Ok h ->
  (forall key key' c, c ∈ claimed_in (events_of key records) -> c ∈ claimed_in (events_of key' records) -> key = key')
  /\ (forall key, NoDup (claimed_in (events_of key records)))
  /\ (forall key, length (submitted_in (events_of key records)) <= 1).
Proof.
  intros (h' & Hh%history_of_inv & _)%bind_Ok. split_and!.
  - intros key key' c. rewrite <- !(hi_claims _ _ Hh). intros H1 H2.
    apply (hi_known _ _ Hh) in H1 as [H1 _]. apply (hi_known _ _ Hh) in H2 as [H2 _]. congruence.
  - intros key. rewrite <- (hi_claims _ _ Hh). by eapply hi_NoDup.
  - intros key. pose proof (admission_path_from _ _ _ (hi_path _ _ Hh key) eq_refl) as H.
    destruct (phase_in h' key); try (rewrite H; cbn; lia). destruct H as [-> | ->]; cbn; lia.
Qed.

(** C27: What the validator of the admission history accepts.  The events of
    each attempt are a path of the admission protocol, from ready to the phase
    its own record is in; a claim belongs to one attempt and is made once; and
    no attempt is submitted to its Worker more than once. *)
Theorem admission_history_sound rows records attempts h :
  mapR _validate_mission_attempt_record rows = Ok attempts ->
  _validate_mission_admission_claim_history records attempts = Ok h ->
  (forall a, a ∈ attempts -> admission_path Ready (events_of (lineage_of a) records) (phase_of a))
  /\ (forall key key' c, c ∈ claimed_in (events_of key records) -> c ∈ claimed_in (events_of key' records) -> key = key')
  /\ (forall key, NoDup (claimed_in (events_of key records)))
  /\ (forall key, length (submitted_in (events_of key records)) <= 1).
Proof.
  intros Hrows Hh. split; [intros a Ha; by eapply history_paths|by eapply history_claims].
Qed.
End soundness.

(** ** Witnesses *)

#[local] Existing Instance sample_env.

Definition instant_text (t : Z) : string := isoformat t.
Definition sample_attempt (state : string) (claim : pyval) : dict :=
  [("attempt_id", PStr "mat_0123456789ab"); ("mission_id", PStr "mis_0123456789ab"); ("step_id", PStr "step_1");
   ("agent_id", PStr "codex"); ("configured_transport", PStr "acp"); ("dispatch_key", PStr ("dsp_" +:+ hex_a));
   ("admission_claim_id", claim); ("snapshot_hash", PStr ("sha256:" +:+ hex_a +:+ hex_b)); ("state", PStr state);
   ("created_at", PStr (instant_text 1000)); ("updated_at", PStr (instant_text 1000)); ("receipt_summary", PNone);
   ("blocker", PNone); ("terminal_reason", PNone)].
Definition sample_claim_event (event claim kind : string) : pyval :=
  PDict [("event_id", PStr event); ("event_type", PStr ("mission_attempt_admission_" +:+ kind));
         ("created_at", PStr (instant_text 1000));
         ("payload", PDict [("attempt_id", PStr "mat_0123456789ab"); ("mission_id", PStr "mis_0123456789ab");
                            ("step_id", PStr "step_1"); ("dispatch_key", PStr ("dsp_" +:+ hex_a));
                            ("admission_claim_id", PStr claim)])].

(** Claimed, released and claimed again. *)
Definition sample_records : list pyval :=
  [sample_claim_event "evt_1" "adm_00000000000a" "claimed"; sample_claim_event "evt_2" "adm_00000000000a" "released";
   sample_claim_event "evt_3" "adm_00000000000b" "claimed"].
Definition claimed_attempt : dict := sample_attempt "admitting" (PStr "adm_00000000000b").

Lemma admission_history_sound_witness :
  admission_path Ready (events_of (lineage_of claimed_attempt) sample_records) (Claimed "adm_00000000000b").
Proof.
  destruct (mapR _validate_mission_attempt_record [PDict claimed_attempt]) as [attempts|e] eqn:Hr; [|by vm_compute in Hr].
  assert (attempts = [claimed_attempt]) as -> by (vm_compute in Hr; by injection Hr as <-).
  destruct (_validate_mission_admission_claim_history sample_records [claimed_attempt]) as [h|e] eqn:Hh; [|by vm_compute in Hh].
  pose proof (proj1 (admission_history_sound _ _ _ _ Hr Hh) claimed_attempt) as H.
  change (phase_of claimed_attempt) with (Claimed "adm_00000000000b") in H. apply H. by left.
Defined.
