(* ===== verification/AgentProtocol.v ===== *)
(** * The agent protocol ledger ([runtime/protocol.py], [state.py])

    Sessions with Worker agents, the turns of a session, the updates of a turn
    and the permissions asked in it.  Records are written once and keep their
    first state; what happens to a session, turn or permission afterwards is a
    list of transitions, validated as a whole whenever it is read.  Every record
    is saved together with its event, which waits in the outbox of the saved
    document until the event journal has it.

    The journal is the list of the events it holds.  An operation's effect on
    the disk is the sequence of its writes: a crash, or an [OSError] the code
    ends the operation at, keeps a prefix of them. *)
From S2P Require Import Prelude PyStr PyVal ReviewGroup Json Lease Store Attempt.

(** ** Vocabulary *)

Definition AGENT_SESSION_STATES : list string :=
  ["created"; "connecting"; "ready"; "busy"; "reconnecting"; "disconnected"; "stopped"; "failed"].
Definition TURN_STATES : list string :=
  ["created"; "submitted"; "streaming"; "waiting_permission"; "completed"; "blocked"; "failed"; "ambiguous"].
Definition TURN_KINDS : list string := ["prompt"; "load_replay"].
Definition UPDATE_KINDS : list string :=
  ["progress"; "text"; "tool_call"; "tool_result"; "permission_request"; "artifact"; "completion"; "error"].
Definition PERMISSION_STATES : list string := ["pending"; "approved"; "denied"; "expired"].
Definition TRANSPORT_KINDS : list string := ["acp"; "acp-adapter"; "tmux"; "api"].
Definition PROTOCOL_TRANSITION_DETAILS_MAX_BYTES : nat := 4096.
Definition PROTOCOL_TRANSITION_REASON_MAX_LENGTH : Z := 128.
Definition PROTOCOL_TRANSITION_FIELDS : list string :=
  ["transition_id"; "entity_type"; "entity_id"; "from_state"; "to_state"; "reason"; "details"; "created_at"].

(** [PROTOCOL_ENTITY_TYPES] *)
Inductive protocol_entity := SessionE | TurnE | PermissionE.
#[export] Instance protocol_entity_eq_dec : EqDecision protocol_entity.
Proof. solve_decision. Defined.
#[export] Instance protocol_entity_countable : Countable protocol_entity.
Proof.
  apply (inj_countable' (fun e => match e with SessionE => 0 | TurnE => 1 | PermissionE => 2 end)
                        (fun n => match n with 0 => SessionE | 1 => TurnE | _ => PermissionE end)).
  by intros [].
Defined.

Definition entity_type (e : protocol_entity) : string :=
  match e with SessionE => "session" | TurnE => "turn" | PermissionE => "permission" end.
Definition entity_types : list protocol_entity := [SessionE; TurnE; PermissionE].
Definition entity_of_type (v : pyval) : option protocol_entity :=
  find_first (fun e => py_eq v (PStr (entity_type e))) entity_types.

Definition SESSION_TRANSITION_EDGES : list (string * string) :=
  [("created", "connecting"); ("created", "ready"); ("created", "failed");
   ("connecting", "ready"); ("connecting", "disconnected"); ("connecting", "failed");
   ("ready", "busy"); ("ready", "disconnected"); ("ready", "stopped"); ("ready", "failed");
   ("busy", "ready"); ("busy", "disconnected"); ("busy", "stopped"); ("busy", "failed");
   ("disconnected", "reconnecting"); ("disconnected", "stopped");
   ("reconnecting", "ready"); ("reconnecting", "disconnected"); ("reconnecting", "failed")].
Definition TURN_TRANSITION_EDGES : list (string * string) :=
  [("created", "submitted"); ("created", "streaming"); ("created", "completed"); ("created", "ambiguous");
   ("submitted", "streaming"); ("submitted", "waiting_permission"); ("submitted", "completed");
   ("submitted", "blocked"); ("submitted", "failed"); ("submitted", "ambiguous");
   ("streaming", "waiting_permission"); ("streaming", "completed"); ("streaming", "blocked");
   ("streaming", "failed"); ("streaming", "ambiguous");
   ("waiting_permission", "streaming"); ("waiting_permission", "blocked"); ("waiting_permission", "failed");
   ("waiting_permission", "ambiguous")].
Definition PERMISSION_TRANSITION_EDGES : list (string * string) :=
  [("pending", "approved"); ("pending", "denied"); ("pending", "expired")].
Definition PROTOCOL_TRANSITION_EDGES (e : protocol_entity) : list (string * string) :=
  match e with
  | SessionE => SESSION_TRANSITION_EDGES | TurnE => TURN_TRANSITION_EDGES | PermissionE => PERMISSION_TRANSITION_EDGES
  end.
Definition id_prefix (e : protocol_entity) : string :=
  match e with SessionE => "ags_" | TurnE => "trn_" | PermissionE => "prm_" end.

(** The collection of a kind, its identity and state fields, its vocabulary. *)
Definition entity_collection (e : protocol_entity) : string :=
  match e with SessionE => "agent_sessions" | TurnE => "protocol_turns" | PermissionE => "permission_requests" end.
Definition identity_field (e : protocol_entity) : string :=
  match e with SessionE => "session_id" | TurnE => "turn_id" | PermissionE => "permission_id" end.
Definition state_field (e : protocol_entity) : string := match e with PermissionE => "status" | _ => "state" end.
Definition vocabulary (e : protocol_entity) : list string :=
  match e with SessionE => AGENT_SESSION_STATES | TurnE => TURN_STATES | PermissionE => PERMISSION_STATES end.
Definition duplicate_error (e : protocol_entity) : exn :=
  ValueError match e with
             | SessionE => "duplicate agent session identity"
             | TurnE => "duplicate protocol turn identity"
             | PermissionE => "duplicate permission request identity"
             end.

(** ** Records *)

Definition _required_string (name : string) (value : pyval) : result string :=
  let bad := Err (ValueError (name +:+ " must be a non-empty string")) in
  match value with PStr s => if blank s then bad else Ok s | _ => bad end.

(** [[a-z0-9]+] *)
Definition is_token_char (c : Ascii.ascii) : bool := is_digit c || in_range 97 122 c.
Definition token_form (prefix s : string) : bool :=
  match drop_prefix prefix s with Some r => nonempty r && all_ascii is_token_char r | None => false end.
Definition _record_id (name : string) (value : pyval) (prefix : string) : result string :=
  s ← _required_string name value;
  _ ← raise_if (negb (token_form prefix s))
               (ValueError (name +:+ " must match " +:+ prefix +:+ "<lowercase alphanumeric token>"));
  Ok s.

Fixpoint _clone_json_value (value : pyval) : result pyval :=
  match value with
  | PTuple _ => Err (TypeError "payload must contain only JSON-safe values")
  | PFloat m e => if float_finite m e then Ok value else Err (ValueError "payload numbers must be finite")
  | PList l => PList <$> mapR _clone_json_value l
  | PDict d => PDict <$> mapR (fun kv => pair kv.1 <$> _clone_json_value kv.2) d
  | _ => Ok value
  end.

(** [type(v) is str and v in vocabulary] *)
Definition listed_str (v : pyval) (l : list string) : bool := is_form (fun s => in_strs s l) v.

Record TransportCapabilities := {
  structured_sessions : bool; streaming_updates : bool; structured_tools : bool; permission_requests : bool;
  resume_session : bool; observable_terminal : bool
}.
Definition tmux_fallback : TransportCapabilities := Build_TransportCapabilities false false false false false true.
Definition capabilities_summary (c : TransportCapabilities) : dict :=
  [("structured_sessions", PBool (structured_sessions c)); ("streaming_updates", PBool (streaming_updates c));
   ("structured_tools", PBool (structured_tools c)); ("permission_requests", PBool (permission_requests c));
   ("resume_session", PBool (resume_session c)); ("observable_terminal", PBool (observable_terminal c))].

(** [id] and [now] are what [new_id] and [utc_now] return. *)
Definition build_agent_session (id now : string) (agent_id provider transport native_session_id workspace : pyval)
    (capabilities : TransportCapabilities) : result dict :=
  agent ← _required_string "agent_id" agent_id;
  prov ← _required_string "provider" provider;
  _ ← raise_if (negb (listed_str transport TRANSPORT_KINDS)) (ValueError "transport must be one of TRANSPORT_KINDS");
  space ← _required_string "workspace" workspace;
  _ ← raise_if (negb (is_none native_session_id) && negb (is_form (fun s => negb (blank s)) native_session_id))
               (ValueError "native_session_id must be None or a non-empty string");
  Ok [("session_id", PStr id); ("agent_id", PStr agent); ("provider", PStr prov); ("transport", transport);
      ("native_session_id", native_session_id); ("workspace", PStr space);
      ("capabilities", PDict (capabilities_summary capabilities)); ("state", PStr "created"); ("created_at", PStr now);
      ("updated_at", PStr now); ("observation_bindings", PList [])].

Definition build_turn (id now : string) (session_id message_id kind : pyval) : result dict :=
  session ← _record_id "session_id" session_id "ags_";
  message ← _required_string "message_id" message_id;
  _ ← raise_if (negb (listed_str kind TURN_KINDS)) (ValueError "kind must be one of TURN_KINDS");
  Ok [("turn_id", PStr id); ("session_id", PStr session); ("message_id", PStr message); ("kind", kind);
      ("state", PStr "created"); ("created_at", PStr now); ("updated_at", PStr now)].

Definition build_transport_update (id now : string) (session_id turn_id sequence kind payload : pyval) : result dict :=
  session ← _record_id "session_id" session_id "ags_";
  turn ← _record_id "turn_id" turn_id "trn_";
  _ ← raise_if (negb (match sequence with PInt z => (0 <=? z)%Z | _ => false end))
               (ValueError "sequence must be a non-negative integer");
  _ ← raise_if (negb (listed_str kind UPDATE_KINDS)) (ValueError "kind must be one of UPDATE_KINDS");
  _ ← raise_if (negb (is_dict payload)) (TypeError "payload must be a dict");
  clone ← _clone_json_value payload;
  Ok [("update_id", PStr id); ("session_id", PStr session); ("turn_id", PStr turn); ("sequence", sequence);
      ("kind", kind); ("payload", clone); ("created_at", PStr now)].

Definition build_permission_request (id now : string) (session_id turn_id tool_name target risk : pyval) : result dict :=
  session ← _record_id "session_id" session_id "ags_";
  turn ← _record_id "turn_id" turn_id "trn_";
  tool ← _required_string "tool_name" tool_name;
  tgt ← _required_string "target" target;
  rsk ← _required_string "risk" risk;
  Ok [("permission_id", PStr id); ("session_id", PStr session); ("turn_id", PStr turn); ("tool_name", PStr tool);
      ("target", PStr tgt); ("risk", PStr rsk); ("status", PStr "pending"); ("decision", PNone);
      ("created_at", PStr now); ("updated_at", PStr now)].

(** ** Stored records *)

Definition _PROTOCOL_TURN_FIELDS : list string :=
  ["turn_id"; "session_id"; "message_id"; "kind"; "state"; "created_at"; "updated_at"].
Definition _AGENT_SESSION_FIELDS : list string :=
  ["session_id"; "agent_id"; "provider"; "transport"; "native_session_id"; "workspace"; "capabilities"; "state";
   "created_at"; "updated_at"; "observation_bindings"].
Definition _PERMISSION_RECORD_FIELDS : list string :=
  ["permission_id"; "session_id"; "turn_id"; "tool_name"; "target"; "risk"; "status"; "decision"; "created_at";
   "updated_at"].
Definition _TRANSPORT_CAPABILITY_FIELDS : list string :=
  ["structured_sessions"; "streaming_updates"; "structured_tools"; "permission_requests"; "resume_session";
   "observable_terminal"].

Definition is_prose (v : pyval) : bool := is_form (fun s => negb (blank s)) v.

Section stored.
Context {env : LeaseEnv}.

Definition _validated_aware_record_times (value : dict) (bad : exn) : result unit :=
  created_at ← aware_instant (dget "created_at" value) bad;
  updated_at ← aware_instant (dget "updated_at" value) bad;
  raise_if (updated_at <? created_at)%Z bad.

Definition _validate_protocol_turn_record (value : pyval) : result dict :=
  let bad := ValueError "protocol turn record is invalid" in
  match value with
  | PDict d =>
      _ ← raise_if (negb (keys_are _PROTOCOL_TURN_FIELDS d)) bad;
      _ ← raise_if (negb (is_form (token_form "trn_") (dget "turn_id" d))
                    || negb (is_form (token_form "ags_") (dget "session_id" d))
                    || negb (is_prose (dget "message_id" d))) bad;
      kind ← in_str_set (dget "kind" d) TURN_KINDS;
      _ ← raise_if (negb kind || negb (in_list (dget "state" d) (PStr <$> TURN_STATES))) bad;
      _ ← _validated_aware_record_times d bad;
      Ok d
  | _ => Err bad
  end.

Definition _validate_agent_session_record (value : pyval) : result dict :=
  let bad := ValueError "agent session record is invalid" in
  match value with
  | PDict d =>
      _ ← raise_if (negb (keys_are _AGENT_SESSION_FIELDS d)) bad;
      match dget "capabilities" d, dget "observation_bindings" d with
      | PDict caps, PList bindings =>
          _ ← raise_if (negb (is_form (token_form "ags_") (dget "session_id" d))
                        || negb (forallb (fun k => is_prose (dget k d)) ["agent_id"; "provider"; "workspace"])
                        || negb (in_list (dget "transport" d) (PStr <$> TRANSPORT_KINDS))
                        || negb (is_none (dget "native_session_id" d) || is_prose (dget "native_session_id" d))
                        || negb (keys_are _TRANSPORT_CAPABILITY_FIELDS caps)
                        || negb (forallb (fun kv => match kv.2 with PBool _ => true | _ => false end) caps)
                        || negb (in_list (dget "state" d) (PStr <$> AGENT_SESSION_STATES))
                        || negb (forallb is_dict bindings)) bad;
          _ ← _validated_aware_record_times d bad;
          Ok d
      | _, _ => Err bad
      end
  | _ => Err bad
  end.

Definition _validate_permission_record (value : pyval) : result dict :=
  let bad := ValueError "permission record is invalid" in
  match value with
  | PDict d =>
      _ ← raise_if (negb (keys_are _PERMISSION_RECORD_FIELDS d)) bad;
      _ ← raise_if (negb (is_form (token_form "prm_") (dget "permission_id" d))
                    || negb (is_form (token_form "ags_") (dget "session_id" d))
                    || negb (is_form (token_form "trn_") (dget "turn_id" d))
                    || negb (forallb (fun k => is_prose (dget k d)) ["tool_name"; "target"; "risk"])
                    || negb (py_eq (dget "status" d) (PStr "pending")) || negb (is_none (dget "decision" d))) bad;
      _ ← _validated_aware_record_times d bad;
      Ok d
  | _ => Err bad
  end.
End stored.

(** ** Transitions *)

Definition validate_transition_edge (kind from_state to_state : pyval) : result protocol_entity :=
  match entity_of_type kind with
  | None => Err (ValueError "entity_type must be one of PROTOCOL_ENTITY_TYPES")
  | Some e =>
      match from_state, to_state with
      | PStr a, PStr b =>
          if existsb (fun edge => String.eqb a edge.1 && String.eqb b edge.2) (PROTOCOL_TRANSITION_EDGES e) then Ok e
          else Err (ValueError ("invalid protocol state transition: " +:+ a +:+ " -> " +:+ b))
      | _, _ => Err (ValueError "invalid protocol state transition")
      end
  end.

Section transitions.
Context {ft : FloatText}.

Definition _validated_transition_metadata (reason details : pyval) : result pyval :=
  _ ← (match reason with
       | PNone => Ok tt
       | PStr s =>
           _ ← raise_if (blank s) (ValueError "reason must be null or a non-empty string");
           raise_if (PROTOCOL_TRANSITION_REASON_MAX_LENGTH <? py_len s)%Z (ValueError "reason must be at most 128 characters")
       | _ => Err (ValueError "reason must be null or a non-empty string")
       end);
  _ ← raise_if (negb (is_dict details)) (TypeError "details must be a dict");
  cloned ← _clone_json_value details;
  encoded ← json_dumps_sorted cloned;
  _ ← raise_if (Nat.ltb PROTOCOL_TRANSITION_DETAILS_MAX_BYTES (String.length encoded))
               (ValueError "details must be at most 4096 bytes");
  Ok cloned.

(** The kind is returned for the caller, which reads it from the record. *)
Definition validate_protocol_transition_record (record : pyval) : result protocol_entity :=
  match record with
  | PDict d =>
      _ ← raise_if (negb (keys_are PROTOCOL_TRANSITION_FIELDS d)) (ValueError "protocol transition fields must match exactly");
      _ ← _record_id "transition_id" (dget "transition_id" d) "pst_";
      e ← validate_transition_edge (dget "entity_type" d) (dget "from_state" d) (dget "to_state" d);
      _ ← _record_id "entity_id" (dget "entity_id" d) (id_prefix e);
      _ ← _validated_transition_metadata (dget "reason" d) (dget "details" d);
      _ ← _required_string "created_at" (dget "created_at" d);
      Ok e
  | _ => Err (TypeError "protocol transition must be a dict")
  end.

Definition build_protocol_transition (id now : string) (kind entity_id from_state to_state reason details : pyval)
    : result dict :=
  e ← validate_transition_edge kind from_state to_state;
  entity ← _record_id "entity_id" entity_id (id_prefix e);
  cloned ← _validated_transition_metadata reason details;
  Ok [("transition_id", PStr id); ("entity_type", kind); ("entity_id", PStr entity); ("from_state", from_state);
      ("to_state", to_state); ("reason", reason); ("details", cloned); ("created_at", PStr now)].
End transitions.

(** ** Reading the ledger *)

(** [state.setdefault(k, [])] *)
Definition rows_of (k : string) (doc : dict) : pyval := match dlookup k doc with Some v => v | None => PList [] end.
Definition ensure (k : string) (doc : dict) : dict := if dmem k doc then doc else dset k (PList []) doc.

(** [len(l) != len(set(l))] *)
Fixpoint repeats (l : list pyval) : bool :=
  match l with [] => false | x :: l => in_list x l || repeats l end.
Definition distinct_values (l : list pyval) (e : exn) : result unit :=
  _ ← raise_if (negb (forallb hashable l)) (TypeError "unhashable type");
  raise_if (repeats l) e.

Definition _unique_protocol_record (records : pyval) (key : string) (value : pyval) (duplicate : exn) : result dict :=
  items ← py_iter records;
  match List.filter (fun d => py_eq (dget key d) value) (dicts_of items) with
  | [d] => Ok d
  | [] => Err (KeyError (text_of value))
  | _ => Err duplicate
  end.

Definition LEDGER_TABLES : list string :=
  ["agent_sessions"; "protocol_turns"; "transport_updates"; "permission_requests"; "protocol_state_transitions";
   "protocol_event_outbox"].
Definition IDENTITIES : list (string * string * exn) :=
  [("agent_sessions", "session_id", ValueError "duplicate agent session identity");
   ("protocol_turns", "turn_id", ValueError "duplicate protocol turn identity");
   ("transport_updates", "update_id", ValueError "duplicate transport update identity");
   ("permission_requests", "permission_id", ValueError "duplicate permission request identity");
   ("protocol_state_transitions", "transition_id", ValueError "duplicate protocol transition identity")].

(** The document with its missing tables. *)
Definition _validate_protocol_identities (doc : dict) : result dict :=
  let doc := foldl (fun d k => ensure k d) doc LEDGER_TABLES in
  ids ← mapR (fun spec => items ← py_iter (rows_of spec.1.1 doc); Ok ((dget spec.1.2) <$> dicts_of items, spec.2)) IDENTITIES;
  _ ← mapR (fun p => distinct_values p.1 p.2) ids;
  Ok doc.

(** [{item[k]: item ... if isinstance(item[k], str)}] *)
Definition str_identities (k : string) (l : list dict) : list string :=
  omap (fun d => match dget k d with PStr s => Some s | _ => None end) l.
Definition last_with (k : string) (v : pyval) (l : list dict) : result (option dict) :=
  if hashable v then Ok (match v with
                         | PStr s => last (List.filter (fun d => py_eq (dget k d) (PStr s)) l)
                         | _ => None
                         end)
  else Err (TypeError "unhashable type").

Definition check_lineage (sessions : list string) (turns : list dict) (label : string) (item : dict) : result unit :=
  known ← in_str_set (dget "session_id" item) sessions;
  _ ← raise_if (negb known) (ValueError (label +:+ " session reference missing"));
  turn ← last_with "turn_id" (dget "turn_id" item) turns;
  match turn with
  | None => Err (ValueError (label +:+ " turn reference missing"))
  | Some t => raise_if (negb (py_eq (dget "session_id" item) (dget "session_id" t))) (ValueError (label +:+ " session mismatch"))
  end.

Definition _validate_protocol_lineage (doc : dict) : result unit :=
  session_rows ← py_iter (rows_of "agent_sessions" doc);
  turn_rows ← py_iter (rows_of "protocol_turns" doc);
  let sessions := str_identities "session_id" (dicts_of session_rows) in
  let turns := dicts_of turn_rows in
  _ ← mapR (fun t => known ← in_str_set (dget "session_id" t) sessions;
                     raise_if (negb known) (ValueError "protocol turn session reference missing")) turns;
  _ ← mapR (fun p => rows ← py_iter (rows_of p.1 doc); mapR (check_lineage sessions turns p.2) (dicts_of rows))
           [("transport_updates", "transport update"); ("permission_requests", "permission request")];
  Ok tt.

(** ** Histories *)

Definition reference : Type := protocol_entity * string.

(** One record of a collection: the first state of its entity. *)
Definition index_record (e : protocol_entity) (acc : gmap reference string) (record : pyval)
    : result (gmap reference string) :=
  match record with
  | PDict d =>
      match dget (identity_field e) d with
      | PStr id =>
          _ ← raise_if (String.eqb id "") (ValueError ("invalid " +:+ identity_field e));
          _ ← raise_if (bool_decide (is_Some (acc !! (e, id)))) (duplicate_error e);
          match dget (state_field e) d with
          | PStr s => if in_strs s (vocabulary e) then Ok (<[(e, id) := s]> acc)
                      else Err (ValueError "invalid protocol base state")
          | _ => Err (ValueError "invalid protocol base state")
          end
      | _ => Err (ValueError ("invalid " +:+ identity_field e))
      end
  | _ => Err (TypeError (entity_collection e +:+ " items must be objects"))
  end.
Definition index_collection (doc : dict) (acc : gmap reference string) (e : protocol_entity)
    : result (gmap reference string) :=
  match rows_of (entity_collection e) doc with
  | PList records => foldM (index_record e) acc records
  | _ => Err (TypeError (entity_collection e +:+ " must be a list"))
  end.
Definition base_states (doc : dict) : result (gmap reference string) := foldM (index_collection doc) ∅ entity_types.

Section history.
Context {ft : FloatText}.

Definition replay_one (bases : gmap reference string) (states : gmap reference string) (item : pyval)
    : result (gmap reference string) :=
  e ← validate_protocol_transition_record item;
  match item with
  | PDict d =>
      let key := (e, text_of (dget "entity_id" d)) in
      current ← match states !! key, bases !! key with
                | Some s, _ | None, Some s => Ok s
                | None, None => Err (KeyError key.2)
                end;
      _ ← raise_if (negb (py_eq (dget "from_state" d) (PStr current))) (ValueError "stale protocol transition from_state");
      Ok (<[key := text_of (dget "to_state" d)]> states)
  | _ => Err (TypeError "protocol transition must be a dict")
  end.

(** The current state of every entity that has moved. *)
Definition _validate_protocol_transition_history (doc : dict) : result (gmap reference string) :=
  match rows_of "protocol_state_transitions" doc with
  | PList transitions => bases ← base_states doc; foldM (replay_one bases) ∅ transitions
  | _ => Err (TypeError "protocol_state_transitions must be a list")
  end.

Definition _protocol_transition_entity (doc : dict) (e : protocol_entity) (entity_id : pyval) : result dict :=
  _unique_protocol_record (rows_of (entity_collection e) doc) (identity_field e) entity_id (duplicate_error e).

Definition derive_step (e : protocol_entity) (entity_id : pyval) (current : string) (item : dict) : result string :=
  if py_eq (dget "entity_type" item) (PStr (entity_type e)) && py_eq (dget "entity_id" item) entity_id then
    _ ← raise_if (negb (py_eq (dget "from_state" item) (PStr current))) (ValueError "stale protocol transition from_state");
    _ ← validate_transition_edge (PStr (entity_type e)) (dget "from_state" item) (dget "to_state" item);
    Ok (text_of (dget "to_state" item))
  else Ok current.
Definition _derived_protocol_state (doc : dict) (e : protocol_entity) (entity_id : pyval) (base : dict) : result string :=
  match dget (state_field e) base with
  | PStr s => items ← py_iter (rows_of "protocol_state_transitions" doc); foldM (derive_step e entity_id) s (dicts_of items)
  | _ => Err (ValueError "invalid protocol base state")
  end.

Definition _validated_protocol_turn (doc : dict) (session_id turn_id : pyval) : result (dict * dict) :=
  doc ← _validate_protocol_identities doc;
  _ ← _unique_protocol_record (rows_of "agent_sessions" doc) "session_id" session_id (duplicate_error SessionE);
  turn ← _unique_protocol_record (rows_of "protocol_turns" doc) "turn_id" turn_id (duplicate_error TurnE);
  _ ← raise_if (negb (py_eq (dget "session_id" turn) session_id)) (ValueError "protocol turn session mismatch");
  Ok (doc, turn).
End history.

(** ** Writes to the disk *)

Record disk := Disk { d_doc : dict; d_journal : list dict }.
Inductive write := SaveDoc (doc : dict) | AppendEvent (event : dict).
Definition apply_write (d : disk) (x : write) : disk :=
  match x with
  | SaveDoc doc => Disk doc (d_journal d)
  | AppendEvent event => Disk (d_doc d) (d_journal d ++ [event])
  end.
Definition apply_writes (d : disk) (ws : list write) : disk := foldl apply_write d ws.

(** What an operation writes, and how it ends when every write succeeds. *)
Definition io (A : Type) : Type := list write * result A.
Definition io_ret {A} (r : result A) : io A := ([], r).
Definition io_bind {A B} (m : io A) (f : A -> io B) : io B :=
  match m.2 with
  | Ok a => (m.1 ++ (f a).1, (f a).2)
  | Err e => (m.1, Err e)
  end.
Definition io_write (x : write) : io unit := ([x], Ok tt).
Notation "'let*' x := m 'in' k" := (io_bind m (fun x => k)) (at level 200, x pattern, k at level 200).

(** [EventRecord] of the fields of a row: the payload has a default. *)
Definition event_record (item : pyval) : result dict :=
  let bad := Err (TypeError "EventRecord arguments") in
  match item with
  | PDict d =>
      if has_keys ["event_id"; "event_type"; "created_at"] d
         && only_keys ["event_id"; "event_type"; "created_at"; "payload"] d
      then Ok [("event_id", dget "event_id" d); ("event_type", dget "event_type" d); ("created_at", dget "created_at" d);
               ("payload", match dlookup "payload" d with Some p => p | None => PDict [] end)]
      else bad
  | _ => bad
  end.

(** [_protocol_event_ids] *)
Definition _protocol_event_ids (journal : list dict) : list pyval :=
  List.filter is_str (dget "event_id" <$> journal).

Fixpoint flush_items (existing : list pyval) (items : list pyval) : io unit :=
  match items with
  | [] => io_ret (Ok tt)
  | item :: items =>
      let id := match item with PDict d => dget "event_id" d | _ => PNone end in
      let* known := io_ret (if hashable id then Ok (in_list id existing) else Err (TypeError "unhashable type")) in
      if known : bool then flush_items existing items
      else let* event := io_ret (event_record item) in
           let* _ := io_write (AppendEvent event) in
           flush_items (dget "event_id" event :: existing) items
  end.

(** The events of the outbox the journal does not hold yet go to the journal;
    then the emptied outbox is saved. *)
Definition _flush_protocol_event_outbox_locked (journal : list dict) (doc : dict) : io dict :=
  let outbox := rows_of "protocol_event_outbox" doc in
  if negb (truthy outbox) then io_ret (Ok (ensure "protocol_event_outbox" doc))
  else
    let* items := io_ret (py_iter outbox) in
    let* _ := flush_items (_protocol_event_ids journal) items in
    let doc := dset "protocol_event_outbox" (PList []) doc in
    let* _ := io_write (SaveDoc doc) in
    io_ret (Ok doc).

Definition flush_protocol_event_outbox (d : disk) : io dict := _flush_protocol_event_outbox_locked (d_journal d) (d_doc d).

Definition append_row (k : string) (row : dict) (doc : dict) : result dict :=
  match rows_of k doc with PList l => Ok (dset k (PList (l ++ [PDict row])) doc) | _ => Err AttributeError end.

(** An [OSError] of the append ends the operation normally, the event still in
    the outbox; one of the second save too. *)
Definition _save_protocol_record (doc : dict) (collection : string) (record event : dict) : io dict :=
  let* doc := io_ret (append_row collection record doc) in
  let* doc := io_ret (append_row "protocol_event_outbox" event doc) in
  let* _ := io_write (SaveDoc doc) in
  let* _ := io_write (AppendEvent event) in
  let* rest := io_ret (match rows_of "protocol_event_outbox" doc with
                       | PList items => filterR (fun item => d ← as_dict item;
                                                             Ok (negb (py_eq (dget "event_id" d) (dget "event_id" event)))) items
                       | _ => Err AttributeError
                       end) in
  let* _ := io_write (SaveDoc (dset "protocol_event_outbox" (PList rest) doc)) in
  io_ret (Ok record).

(** ** The operations *)

(** What [new_id] and [utc_now] return: for the record, then for the event. *)
Record stamps := Stamps { st_id : string; st_now : string; st_event : string; st_event_now : string }.
Definition stamped_event (st : stamps) (event_type : string) (payload : dict) : dict :=
  [("event_id", PStr (st_event st)); ("event_type", PStr event_type); ("created_at", PStr (st_event_now st));
   ("payload", PDict payload)].
Definition pick (ks : list string) (d : dict) : dict := (fun k => (k, dget k d)) <$> ks.

(** No row has the new identity; every row examined has a [get]. *)
Fixpoint fresh_identity (k : string) (id : pyval) (e : exn) (rows : list pyval) : result unit :=
  match rows with
  | [] => Ok tt
  | row :: rows => d ← as_dict row; _ ← raise_if (py_eq (dget k d) id) e; fresh_identity k id e rows
  end.

(** The tail of every recording operation. *)
Definition record_new (d : disk) (doc : dict) (collection id_field : string) (dup : exn) (record event : dict) : io dict :=
  let* rows := io_ret (py_iter (rows_of collection doc)) in
  let* _ := io_ret (fresh_identity id_field (dget id_field record) dup rows) in
  let* doc := _flush_protocol_event_outbox_locked (d_journal d) doc in
  _save_protocol_record doc collection record event.

Section operations.
Context {ft : FloatText}.

Definition record_agent_session (d : disk) (st : stamps)
    (agent_id provider transport native_session_id workspace : pyval) (capabilities : TransportCapabilities) : io dict :=
  let* doc := io_ret (_validate_protocol_identities (d_doc d)) in
  let* record := io_ret (build_agent_session (st_id st) (st_now st) agent_id provider transport native_session_id
                           workspace capabilities) in
  record_new d doc "agent_sessions" "session_id" (duplicate_error SessionE) record
    (stamped_event st "agent_session_recorded" (pick ["session_id"; "agent_id"; "transport"] record)).

Definition record_protocol_turn (d : disk) (st : stamps) (session_id message_id kind : pyval) : io dict :=
  let* doc := io_ret (_validate_protocol_identities (d_doc d)) in
  let* _ := io_ret (_unique_protocol_record (rows_of "agent_sessions" doc) "session_id" session_id (duplicate_error SessionE)) in
  let* record := io_ret (build_turn (st_id st) (st_now st) session_id message_id kind) in
  record_new d doc "protocol_turns" "turn_id" (duplicate_error TurnE) record
    (stamped_event st "protocol_turn_recorded" (pick ["turn_id"; "session_id"; "message_id"] record)).

Definition record_protocol_transition (d : disk) (st : stamps)
    (kind entity_id from_state to_state reason details : pyval) : io dict :=
  let* doc := io_ret (_validate_protocol_identities (d_doc d)) in
  let* states := io_ret (_validate_protocol_transition_history doc) in
  let* record := io_ret (build_protocol_transition (st_id st) (st_now st) kind entity_id from_state to_state reason details) in
  let* e := io_ret (validate_transition_edge kind from_state to_state) in
  let* entity := io_ret (_protocol_transition_entity doc e entity_id) in
  let current := match states !! (e, text_of entity_id) with Some s => PStr s | None => dget (state_field e) entity end in
  let* _ := io_ret (raise_if (negb (py_eq from_state current))
                             (ValueError ("stale protocol transition from_state: expected " +:+ text_of current))) in
  record_new d doc "protocol_state_transitions" "transition_id" (ValueError "duplicate protocol transition identity") record
    (stamped_event st "protocol_state_transition_recorded"
       (pick ["transition_id"; "entity_type"; "entity_id"; "from_state"; "to_state"; "reason"] record)).

Definition record_transport_update (d : disk) (st : stamps) (session_id turn_id sequence kind payload : pyval) : io dict :=
  let* (doc, _) := io_ret (_validated_protocol_turn (d_doc d) session_id turn_id) in
  let* updates := io_ret (py_iter (rows_of "transport_updates" doc)) in
  let* _ := io_ret (raise_if (existsb (fun u => py_eq (dget "turn_id" u) turn_id && py_eq (dget "sequence" u) sequence)
                                      (dicts_of updates))
                             (ValueError "duplicate transport update sequence")) in
  let* record := io_ret (build_transport_update (st_id st) (st_now st) session_id turn_id sequence kind payload) in
  record_new d doc "transport_updates" "update_id" (ValueError "duplicate transport update identity") record
    (stamped_event st "transport_update_recorded" (pick ["update_id"; "session_id"; "turn_id"; "sequence"; "kind"] record)).

Definition record_permission_request (d : disk) (st : stamps) (session_id turn_id tool_name target risk : pyval) : io dict :=
  let* (doc, _) := io_ret (_validated_protocol_turn (d_doc d) session_id turn_id) in
  let* record := io_ret (build_permission_request (st_id st) (st_now st) session_id turn_id tool_name target risk) in
  record_new d doc "permission_requests" "permission_id" (duplicate_error PermissionE) record
    (stamped_event st "permission_request_recorded" (pick ["permission_id"; "session_id"; "turn_id"; "tool_name"; "risk"] record)).
End operations.

(** ** Laws *)

Lemma entity_of_type_Some v e : entity_of_type v = Some e <-> v = PStr (entity_type e).
Proof.
  unfold entity_of_type, entity_types, find_first. cbn [List.filter].
  destruct (py_eq v (PStr (entity_type SessionE))) eqn:Hs; [apply py_eq_str in Hs as ->; cbn; destruct e; naive_solver|].
  destruct (py_eq v (PStr (entity_type TurnE))) eqn:Ht; [apply py_eq_str in Ht as ->; cbn; destruct e; naive_solver|].
  destruct (py_eq v (PStr (entity_type PermissionE))) eqn:Hp; [apply py_eq_str in Hp as ->; cbn; destruct e; naive_solver|].
  split; [done|]. intros ->. cbn in Hs, Ht, Hp. by destruct e.
Qed.

(** *** Histories *)

(** What a list of transitions does to one entity: the edges it takes. *)
Definition concerns (r : reference) (item : pyval) : bool :=
  match item with
  | PDict d => py_eq (dget "entity_type" d) (PStr (entity_type r.1)) && py_eq (dget "entity_id" d) (PStr r.2)
  | _ => false
  end.
Definition moves (r : reference) (items : list pyval) : list (string * string) :=
  (fun item => match item with
               | PDict d => (text_of (dget "from_state" d), text_of (dget "to_state" d))
               | _ => ("", "")
               end) <$> List.filter (concerns r) items.

(** A walk over the edges of a kind of entity. *)
Inductive walk (e : protocol_entity) : string -> list (string * string) -> string -> Prop :=
| walk_nil s : walk e s [] s
| walk_snoc s l a b : walk e s l a -> (a, b) ∈ PROTOCOL_TRANSITION_EDGES e -> walk e s (l ++ [(a, b)]) b.

Lemma validate_edge_Ok k f t e : validate_transition_edge k f t = Ok e ->
  k = PStr (entity_type e) /\ exists a b, f = PStr a /\ t = PStr b /\ (a, b) ∈ PROTOCOL_TRANSITION_EDGES e.
Proof.
  unfold validate_transition_edge. destruct (entity_of_type k) as [e'|] eqn:He; [|done].
  apply entity_of_type_Some in He as ->. destruct f as [| | | |a| | |]; try done. destruct t as [| | | |b| | |]; try done.
  destruct (existsb _ _) eqn:Hx; [|done]. intros [= <-]. split; [done|]. exists a, b. split_and!; [done..|].
  apply existsb_exists in Hx as ([a' b'] & Hin%list_elem_of_In & Heq). cbn in Heq. split_guards.
  repeat match goal with H : String.eqb _ _ = true |- _ => apply String.eqb_eq in H end. by subst.
Qed.

Section laws.
Context {ft : FloatText}.

Lemma validate_record_Ok item e : validate_protocol_transition_record item = Ok e ->
  exists d a b, item = PDict d /\ dget "entity_type" d = PStr (entity_type e) /\ is_str (dget "entity_id" d) = true
  /\ dget "from_state" d = PStr a /\ dget "to_state" d = PStr b /\ (a, b) ∈ PROTOCOL_TRANSITION_EDGES e.
Proof.
  destruct item as [| | | | | | |d]; try done. unfold validate_protocol_transition_record. intros H.
  apply bind_Ok in H as ([] & _ & H). apply bind_Ok in H as (? & _ & H). apply bind_Ok in H as (e' & He & H).
  apply bind_Ok in H as (id & Hid & H). apply bind_Ok in H as (? & _ & H). apply bind_Ok in H as (? & _ & [= ->]).
  apply validate_edge_Ok in He as (Hk & a & b & Hf & Ht & Hin). exists d, a, b. split_and!; try done.
  unfold _record_id, _required_string in Hid. by destruct (dget "entity_id" d).
Qed.

Lemma replay_one_Ok bases states item states' : replay_one bases states item = Ok states' ->
  exists r a b, states' = <[r := b]> states /\ (a, b) ∈ PROTOCOL_TRANSITION_EDGES r.1
  /\ (states !! r = Some a \/ states !! r = None /\ bases !! r = Some a)
  /\ (forall r', concerns r' item = bool_decide (r' = r))
  /\ moves r [item] = [(a, b)].
Proof.
  unfold replay_one. intros H. apply bind_Ok in H as (e & He & H).
  destruct (validate_record_Ok _ _ He) as (d & a & b & -> & Hk & Hid & Hf & Ht & Hin).
  destruct (dget "entity_id" d) as [| | | |id| | |] eqn:Hi; try done. cbn [text_of] in H.
  apply bind_Ok in H as (cur & Hc & H). apply bind_Ok in H as ([] & Hg & [= <-]).
  rewrite Hf, Ht in *. unfold raise_if in Hg. destruct (negb _) eqn:Hn; [done|]. apply negb_false_iff in Hn.
  cbn in Hn. apply String.eqb_eq in Hn as <-.
  assert (Hcon : forall r', concerns r' (PDict d) = bool_decide (r' = (e, id))).
  { intros [e' id']. cbn [concerns fst snd]. rewrite Hk, Hi. cbn [py_eq num_of].
    apply eq_true_iff_eq. rewrite andb_true_iff, bool_decide_eq_true, !String.eqb_eq.
    split; [|by intros [= -> ->]]. intros [Hee ->]. f_equal. by destruct e, e'. }
  exists (e, id), a, b. split_and!; try done.
  - cbn in Hc. destruct (states !! (e, id)) as [s|]; [left; congruence|right].
    destruct (bases !! (e, id)) as [s|]; [split; congruence|done].
  - unfold moves. cbn [List.filter]. rewrite Hcon, bool_decide_eq_true_2 by done. cbn. by rewrite Hf, Ht.
Qed.

Lemma moves_app r l k : moves r (l ++ k) = moves r l ++ moves r k.
Proof. unfold moves. by rewrite List.filter_app, fmap_app. Qed.

(** What the validator has established of the transitions read so far. *)
Definition follows_edges (bases : gmap reference string) (items : list pyval) (states : gmap reference string) : Prop :=
  forall r, match states !! r with
            | Some s => exists s0, bases !! r = Some s0 /\ walk r.1 s0 (moves r items) s
            | None => moves r items = []
            end.

Lemma replay_follows_edges bases items states : foldM (replay_one bases) ∅ items = Ok states -> follows_edges bases items states.
Proof.
  apply (foldM_ind (fun pre st => follows_edges bases pre st)); [by intros r; rewrite lookup_empty|].
  intros pre item st st' IH Hstep r. destruct (replay_one_Ok _ _ _ _ Hstep) as (r0 & a & b & -> & Hin & Hcur & Hcon & Hm).
  rewrite moves_app. destruct (decide (r = r0)) as [->|Hne].
  - rewrite lookup_insert_eq, Hm. specialize (IH r0). destruct Hcur as [Hs|[Hs Hb]]; rewrite Hs in IH.
    + destruct IH as (s0 & Hb & Hw). exists s0. split; [done|]. by constructor.
    + exists a. split; [done|]. rewrite IH. apply (walk_snoc _ _ []); [constructor|done].
  - rewrite lookup_insert_ne by done. assert (moves r [item] = []) as ->.
    { unfold moves. cbn [List.filter]. by rewrite Hcon, bool_decide_eq_false_2. }
    rewrite app_nil_r. apply IH.
Qed.

(** The base states are states of the kind. *)
Lemma index_record_known e acc row acc' : index_record e acc row = Ok acc' ->
  (forall r s, acc !! r = Some s -> s ∈ vocabulary r.1) -> forall r s, acc' !! r = Some s -> s ∈ vocabulary r.1.
Proof.
  unfold index_record. intros H Hacc r s. destruct row as [| | | | | | |d]; try done.
  destruct (dget (identity_field e) d) as [| | | |id| | |]; try done. inv_ok.
  destruct (dget (state_field e) d) as [| | | |s0| | |]; try done. destruct (in_strs s0 (vocabulary e)) eqn:Hin; [|done].
  injection H as <-. rewrite lookup_insert_Some. intros [[<- <-]|[_ Hr]]; [by apply in_strs_spec|by eauto].
Qed.
Lemma base_states_known doc bases : base_states doc = Ok bases -> forall r s, bases !! r = Some s -> s ∈ vocabulary r.1.
Proof.
  unfold base_states. apply (foldM_ind (fun _ m => forall r s, m !! r = Some s -> s ∈ vocabulary r.1)); [by intros r s; rewrite lookup_empty|].
  intros _ e acc acc' IH H. unfold index_collection in H. destruct (rows_of _ _); try done.
  revert H. apply (foldM_ind (fun _ m => forall r s, m !! r = Some s -> s ∈ vocabulary r.1)); [done|].
  intros _ row m m' Hm Hrow. by eapply index_record_known.
Qed.
End laws.

(** *** Writes, all along *)

Lemma io_bind_Ok {A B} (m : io A) (f : A -> io B) ws b : io_bind m f = (ws, Ok b) ->
  exists ws1 a ws2, m = (ws1, Ok a) /\ f a = (ws2, Ok b) /\ ws = ws1 ++ ws2.
Proof.
  unfold io_bind. destruct m as [ws1 [a|e]]; cbn; [|done]. destruct (f a) as [ws2 r] eqn:E. cbn. intros [= <- ->].
  exists ws1, a, ws2. by rewrite E.
Qed.
Lemma io_ret_Ok {A} (r : result A) ws a : io_ret r = (ws, Ok a) -> ws = [] /\ r = Ok a.
Proof. by intros [= <- ->]. Qed.

Lemma io_bind_ret {A B} (a : A) (f : A -> io B) : io_bind (io_ret (Ok a)) f = f a.
Proof. unfold io_bind, io_ret. cbn. by destruct (f a). Qed.

(** The predicate holds before the writes, after them, and wherever they stop. *)
Fixpoint all_along (P : disk -> Prop) (d : disk) (ws : list write) : Prop :=
  P d /\ match ws with [] => True | x :: ws => all_along P (apply_write d x) ws end.

Lemma all_along_here P d ws : all_along P d ws -> P d.
Proof. destruct ws; by intros []. Qed.
Lemma all_along_app P d ws ws' : all_along P d (ws ++ ws') <-> all_along P d ws /\ all_along P (apply_writes d ws) ws'.
Proof.
  revert d; induction ws as [|x ws IH]; intros d; cbn [app all_along].
  - split; [|by intros [_ ?]]. intros H. split; [|done]. split; [by eapply all_along_here|done].
  - rewrite IH. change (apply_writes d (x :: ws)) with (apply_writes (apply_write d x) ws). tauto.
Qed.
Lemma all_along_take P d ws n : all_along P d ws -> P (apply_writes d (take n ws)).
Proof.
  intros H. rewrite <- (take_drop n ws) in H. apply all_along_app in H as [_ H]. by eapply all_along_here.
Qed.
Lemma all_along_mono (P Q : disk -> Prop) ws : (forall x, P x -> Q x) -> forall d, all_along P d ws -> all_along Q d ws.
Proof. intros H. induction ws as [|x ws IH]; intros d [Hd Hw]; (split; [by apply H|]); [done|by apply IH]. Qed.
Lemma apply_writes_app d ws ws' : apply_writes d (ws ++ ws') = apply_writes (apply_writes d ws) ws'.
Proof. apply foldl_app. Qed.

(** A computation that writes nothing before it goes on. *)
Lemma all_along_ret {A B} P d (r : result A) (f : A -> io B) :
  P d -> (forall a, r = Ok a -> all_along P d (f a).1) -> all_along P d (io_bind (io_ret r) f).1.
Proof. intros Hd H. unfold io_bind, io_ret. cbn. destruct r as [a|e]; cbn; [by apply H|done]. Qed.
Lemma all_along_bind {A B} P d (m : io A) (f : A -> io B) :
  all_along P d m.1 -> (forall a, m.2 = Ok a -> all_along P (apply_writes d m.1) (f a).1) -> all_along P d (io_bind m f).1.
Proof.
  intros Hm H. unfold io_bind. destruct m as [ws [a|e]]; cbn in *; [|done]. apply all_along_app; auto.
Qed.
Lemma all_along_write {B} P d x (f : unit -> io B) :
  P d -> all_along P (apply_write d x) (f tt).1 -> all_along P d (io_bind (io_write x) f).1.
Proof. intros Hd H. apply all_along_bind; [split; [done|]; split; [by eapply all_along_here|done]|by intros []]. Qed.

(** *** The outbox *)

Definition id_of (e : dict) : pyval := dget "event_id" e.
Definition outbox (doc : dict) : pyval := rows_of "protocol_event_outbox" doc.
Definition event_ok (e : dict) : Prop := is_str (id_of e) = true /\ exists e', event_record (PDict e) = Ok e'.

(** The outbox holds events and every event is in the journal once. *)
Definition ledger_ok (d : disk) : Prop :=
  (exists es, outbox (d_doc d) = PList (PDict <$> es) /\ Forall event_ok es)
  /\ Forall (fun e => is_str (id_of e) = true) (d_journal d) /\ NoDup (id_of <$> d_journal d).

(** The event is in the journal or waits for it. *)
Definition held (d : disk) (id : pyval) : Prop :=
  id ∈ id_of <$> d_journal d \/ exists e, PDict e ∈ match outbox (d_doc d) with PList l => l | _ => [] end /\ id_of e = id.

Lemma recorded_event_id e e' : event_record (PDict e) = Ok e' -> id_of e' = id_of e.
Proof. unfold event_record. case_match; [|done]. by intros [= <-]. Qed.

Lemma in_list_is_str v l : is_str v = true -> in_list v l = true <-> v ∈ l.
Proof.
  destruct v as [| | | |s| | |]; try done. intros _. unfold in_list. rewrite existsb_elem. split.
  - intros (x & Hx & Heq). apply py_eq_str_l in Heq as ->. done.
  - intros Hx. exists (PStr s). split; [done|]. cbn. apply String.eqb_refl.
Qed.

Lemma flush_items_spec items : forall existing, Forall event_ok items ->
  exists es, flush_items existing (PDict <$> items) = (AppendEvent <$> es, Ok tt)
  /\ Forall (fun e => is_str (id_of e) = true) es /\ NoDup (id_of <$> es)
  /\ (forall id, id ∈ id_of <$> es -> id ∉ existing)
  /\ (forall e, e ∈ items -> id_of e ∈ existing \/ id_of e ∈ id_of <$> es)
  /\ (forall id, id ∈ id_of <$> es -> id ∈ id_of <$> items).
Proof.
  induction items as [|e items IH]; intros existing Hok; cbn [fmap list_fmap flush_items].
  { exists []. split_and!; [done|done|constructor|by intros id ?%elem_of_nil|by intros e ?%elem_of_nil|done]. }
  apply Forall_cons in Hok as [[Hstr [e' He]] Hok]. fold (id_of e).
  assert (hashable (id_of e) = true) as -> by (by destruct (id_of e)). cbn [io_bind io_ret fst snd app].
  destruct (in_list (id_of e) existing) eqn:Hin.
  - destruct (IH existing Hok) as (es & -> & H1 & H2 & H3 & H4 & H5). exists es. split_and!; try done.
    + intros x [->|Hx]%elem_of_cons; [left; by apply in_list_is_str|by apply H4].
    + intros id Hx%H5. by right.
  - rewrite He. cbn [io_bind io_write io_ret fst snd app]. pose proof (recorded_event_id _ _ He) as Hid. fold (id_of e').
    rewrite Hid. destruct (IH (id_of e :: existing) Hok) as (es & -> & H1 & H2 & H3 & H4 & H5). exists (e' :: es). cbn [fst snd].
    assert (id_of e ∉ existing) as Hnew by (rewrite <- in_list_is_str by done; congruence).
    split_and!.
    + done.
    + constructor; [by rewrite Hid|done].
    + cbn [fmap list_fmap]. constructor; [|done]. rewrite Hid. intros Hx%H3. apply Hx. by left.
    + intros id. cbn [fmap list_fmap]. rewrite Hid. intros [->|Hx%H3]%elem_of_cons; [done|]. by rewrite elem_of_cons in Hx; intuition.
    + intros x [->|Hx%H4]%elem_of_cons; cbn [fmap list_fmap]; rewrite Hid, ?elem_of_cons in *; intuition.
    + intros id. cbn [fmap list_fmap]. rewrite Hid, !elem_of_cons. intros [->|Hx%H5]; auto.
Qed.

Lemma rows_of_dset k k' v doc : rows_of k (dset k' v doc) = if String.eqb k k' then v else rows_of k doc.
Proof.
  unfold rows_of. destruct (String.eqb_spec k k') as [->|Hne]; [by rewrite dlookup_dset_eq|by rewrite dlookup_dset_ne].
Qed.
Lemma rows_of_ensure k k' doc : rows_of k (ensure k' doc) = rows_of k doc.
Proof.
  unfold ensure. destruct (dmem k' doc) eqn:Hm; [done|]. rewrite rows_of_dset.
  destruct (String.eqb_spec k k') as [->|]; [|done]. unfold rows_of.
  assert (dlookup k' doc = None) as ->; [|done]. apply dlookup_None. rewrite <- dmem_spec. by rewrite Hm.
Qed.
#[local] Opaque ensure.

(** Nothing is lost: what was held is held. *)
Definition safe (d0 d : disk) : Prop := ledger_ok d /\ forall id, held d0 id -> held d id.

Lemma safe_refl d : ledger_ok d -> safe d d.
Proof. by split. Qed.

Lemma appends_apply es : forall d, apply_writes d (AppendEvent <$> es) = Disk (d_doc d) (d_journal d ++ es).
Proof.
  induction es as [|e es IH]; intros d; cbn; [by rewrite app_nil_r; destruct d|].
  change (foldl apply_write ?x ?l) with (apply_writes x l). rewrite IH. cbn. by rewrite <- app_assoc.
Qed.
Lemma appends_along P es : forall d, (forall n, P (Disk (d_doc d) (d_journal d ++ take n es))) ->
  all_along P d (AppendEvent <$> es).
Proof.
  induction es as [|e es IH]; intros d H; cbn [fmap list_fmap all_along].
  - split; [|done]. specialize (H 0). rewrite take_0, app_nil_r in H. by destruct d.
  - split; [specialize (H 0); rewrite take_0, app_nil_r in H; by destruct d|].
    apply IH. intros n. specialize (H (S n)). cbn in *. by rewrite <- app_assoc.
Qed.

Lemma event_ids_all journal : Forall (fun e => is_str (id_of e) = true) journal ->
  _protocol_event_ids journal = id_of <$> journal.
Proof.
  unfold _protocol_event_ids. change (fmap (dget "event_id") journal) with (id_of <$> journal).
  induction 1 as [|e l He Hl IH]; cbn; [done|]. by rewrite He, IH.
Qed.

(** Appending new events, in part, to the journal. *)
Lemma appends_safe d es : ledger_ok d -> Forall (fun e => is_str (id_of e) = true) es -> NoDup (id_of <$> es) ->
  (forall id, id ∈ id_of <$> es -> id ∉ id_of <$> d_journal d) ->
  forall n, safe d (Disk (d_doc d) (d_journal d ++ take n es)).
Proof.
  intros (Ho & Hs & Hn) Hes Hnd Hnew n. split.
  - split_and!; [done| |]; cbn [d_journal].
    + apply Forall_app. split; [done|]. by apply Forall_take.
    + rewrite fmap_app. apply NoDup_app. split_and!; [done| |].
      * intros id Hid Hid'. apply (Hnew id); [|done]. rewrite fmap_take in Hid'. by apply elem_of_take in Hid' as (i & ?%list_elem_of_lookup_2 & _).
      * rewrite fmap_take. rewrite <- (take_drop n (id_of <$> es)) in Hnd. by apply NoDup_app in Hnd as [? _].
  - intros id [Hid|Hid]; [left|by right]. cbn. rewrite fmap_app. apply elem_of_app. by left.
Qed.

(** The flush: every event held is in the journal, once, and the outbox is empty. *)
Lemma flush_spec d doc : ledger_ok d -> outbox doc = outbox (d_doc d) ->
  exists ws doc', _flush_protocol_event_outbox_locked (d_journal d) doc = (ws, Ok doc')
  /\ all_along (safe d) d ws /\ outbox doc' = PList [] /\ outbox (d_doc (apply_writes d ws)) = PList []
  /\ (forall k, k <> "protocol_event_outbox" -> rows_of k doc' = rows_of k doc)
  /\ (forall id, held d id <-> id ∈ id_of <$> d_journal (apply_writes d ws)).
Proof.
  intros Hok Hbox. pose proof Hok as ((es & Hes & Hev) & Hs & Hn).
  unfold _flush_protocol_event_outbox_locked. fold (outbox doc). rewrite Hbox, Hes.
  destruct es as [|e0 es0].
  { cbn [fmap list_fmap truthy negb]. exists [], (ensure "protocol_event_outbox" doc). split; [done|].
    split; [split; [by apply safe_refl|done]|]. split; [unfold outbox in *; by rewrite rows_of_ensure, Hbox, Hes|].
    split; [done|]. split; [intros k _; apply rows_of_ensure|].
    intros id. unfold held. cbn. rewrite Hes. cbn. split; [|by left]. intros [?|(e & ?%elem_of_nil & _)]; done. }
  set (es := e0 :: es0) in *. assert (truthy (PList (PDict <$> es)) = true) as -> by done.
  cbn [negb io_ret io_bind py_iter fst snd app].
  destruct (flush_items_spec es (_protocol_event_ids (d_journal d)) Hev) as (new & -> & H1 & H2 & H3 & H4 & H5).
  rewrite event_ids_all in H3, H4 by done.
  assert (Hheld : forall id, held d id <-> id ∈ id_of <$> d_journal d ++ new).
  { intros id. unfold held. rewrite Hes, fmap_app, elem_of_app. split; (intros [Hid|Hid]; [by left|]).
    - destruct Hid as (e & He & <-). apply list_elem_of_fmap in He as (e' & [= ->] & He). by apply H4.
    - right. apply H5, list_elem_of_fmap in Hid as (e & -> & He). exists e. split; [|done]. by apply list_elem_of_fmap_2. }
  pose proof (appends_safe d new Hok H1 H2 H3) as Hsafe.
  cbn [io_write io_bind io_ret fst snd app]. eexists _, _. split; [reflexivity|].
  rewrite apply_writes_app, appends_apply. cbn [apply_writes foldl apply_write d_doc d_journal].
  split_and!.
  - apply all_along_app. split; [by apply appends_along|]. rewrite appends_apply. cbn [app apply_write d_doc d_journal].
    specialize (Hsafe (length new)). rewrite take_ge in Hsafe by done. split; [done|]. split; [|done].
    destruct Hsafe as [(_ & Hs' & Hn') _]. split.
    + split; [|by split]. exists []. split; [|done]. unfold outbox. cbn [apply_write d_doc]. by rewrite rows_of_dset.
    + intros id Hid%Hheld. by left.
  - unfold outbox. by rewrite rows_of_dset.
  - unfold outbox. by rewrite rows_of_dset.
  - intros k Hk. rewrite rows_of_dset. destruct (String.eqb_spec k "protocol_event_outbox"); done.
  - done.
Qed.

(** Saving a record with its event, the outbox empty before. *)
Lemma save_spec d0 d doc collection record event : safe d0 d -> event_ok event -> id_of event ∉ id_of <$> d_journal d ->
  (forall id, held d0 id -> id ∈ id_of <$> d_journal d) -> outbox doc = PList [] -> collection <> "protocol_event_outbox" ->
  let m := _save_protocol_record doc collection record event in
  all_along (safe d0) d m.1
  /\ forall r, m.2 = Ok r ->
       r = record /\ d_journal (apply_writes d m.1) = d_journal d ++ [event]
       /\ outbox (d_doc (apply_writes d m.1)) = PList []
       /\ exists rows, rows_of collection doc = PList rows
          /\ forall k, k <> "protocol_event_outbox" ->
             rows_of k (d_doc (apply_writes d m.1))
             = if String.eqb k collection then PList (rows ++ [PDict record]) else rows_of k doc.
Proof.
  intros Hsd Hev Hnew Hin Hbox Hcoll. pose proof Hsd as [Hok Hsafe]. cbn zeta. unfold _save_protocol_record.
  destruct (append_row collection record doc) as [doc1|e] eqn:Ha; [|by (cbn; split; [split|])].
  unfold append_row in Ha. destruct (rows_of collection doc) as [| | | | |rows| |] eqn:Hrows; try done. injection Ha as <-.
  cbn [io_ret io_bind io_write fst snd app]. set (doc1 := dset collection _ doc).
  assert (Hb : rows_of "protocol_event_outbox" doc1 = PList []).
  { unfold outbox, doc1 in *. rewrite rows_of_dset. by destruct (String.eqb_spec "protocol_event_outbox" collection). }
  assert (append_row "protocol_event_outbox" event doc1
          = Ok (dset "protocol_event_outbox" (PList [PDict event]) doc1)) as -> by (unfold append_row; by rewrite Hb).
  set (doc2 := dset "protocol_event_outbox" _ doc1). cbn [io_ret io_bind io_write fst snd app].
  assert (rows_of "protocol_event_outbox" doc2 = PList [PDict event]) as -> by (unfold doc2; by rewrite rows_of_dset).
  pose proof Hev as [Hstr [e' He']]. pose proof Hok as (_ & Hs & Hn).
  assert (Hself : py_eq (dget "event_id" event) (dget "event_id" event) = true).
  { fold (id_of event). destruct (id_of event); try done. cbn. apply String.eqb_refl. }
  cbn [filterR as_dict mbind result_bind]. rewrite Hself. cbn [negb mbind result_bind io_ret io_bind io_write fst snd app].
  assert (Hj : forall doc' box, outbox doc' = PList (PDict <$> box) -> Forall event_ok box ->
                 safe d0 (Disk doc' (d_journal d ++ [event]))).
  { intros doc' box Hd Hbx. split.
    - split; [by exists box|]. split; cbn [d_journal]; [by apply Forall_app; split; [|constructor]|].
      rewrite fmap_app. apply NoDup_app. split_and!; [done| |by apply NoDup_singleton].
      intros id Hid ->%list_elem_of_singleton. done.
    - intros id Hid. left. cbn. rewrite fmap_app. apply elem_of_app. left. by apply Hin. }
  split.
  - cbn [all_along apply_write d_doc d_journal]. split; [done|]. split.
    { split; [|intros id Hid; left; by apply Hin]. split; [|by split]. exists [event]. split; [|by constructor].
      unfold outbox. cbn [d_doc]. unfold doc2. by rewrite rows_of_dset. }
    split; [apply (Hj _ [event]); [unfold outbox, doc2; by rewrite rows_of_dset|by constructor]|].
    split; [|done]. apply (Hj _ []); [unfold outbox; by rewrite rows_of_dset|done].
  - intros r [= <-]. cbn [apply_writes foldl apply_write d_doc d_journal].
    split; [done|]. split; [done|]. split; [unfold outbox; by rewrite rows_of_dset|]. exists rows. split; [done|].
    intros k Hk. unfold doc2, doc1. rewrite !rows_of_dset. destruct (String.eqb_spec k "protocol_event_outbox"); done.
Qed.

(** The tail of a recording operation, cut anywhere, loses nothing and delivers
    no event twice; run to its end it leaves no event waiting. *)
Lemma record_new_spec d doc collection id_field dup record event : ledger_ok d -> outbox doc = outbox (d_doc d) ->
  event_ok event -> ~ held d (id_of event) -> collection <> "protocol_event_outbox" ->
  let m := record_new d doc collection id_field dup record event in
  all_along (safe d) d m.1
  /\ forall r, m.2 = Ok r ->
       r = record /\ (forall id, id ∈ id_of <$> d_journal (apply_writes d m.1) <-> held d id \/ id = id_of event)
       /\ outbox (d_doc (apply_writes d m.1)) = PList []
       /\ exists rows, rows_of collection doc = PList rows
          /\ fresh_identity id_field (dget id_field record) dup rows = Ok tt
          /\ forall k, k <> "protocol_event_outbox" ->
             rows_of k (d_doc (apply_writes d m.1))
             = if String.eqb k collection then PList (rows ++ [PDict record]) else rows_of k doc.
Proof.
  intros Hok Hbox Hev Hnew Hcoll. cbn zeta. unfold record_new.
  destruct (py_iter (rows_of collection doc)) as [rows|e] eqn:Hit; [|cbn; split; [|done]; split; [by apply safe_refl|done]].
  cbn [io_ret io_bind fst snd app].
  destruct (fresh_identity _ _ _ _) as [[]|e] eqn:Hf; [|cbn; split; [|done]; split; [by apply safe_refl|done]].
  cbn [io_ret io_bind fst snd app].
  destruct (flush_spec d doc Hok Hbox) as (ws & doc' & -> & Hal & Ho & _ & Hrows & Hheld).
  cbn [io_bind fst snd]. set (d1 := apply_writes d ws).
  assert (Hs1 : safe d d1) by (specialize (all_along_take _ _ _ (length ws) Hal); by rewrite take_ge).
  destruct (save_spec d d1 doc' collection record event) as [Ha Hr]; try done.
  { intros Hid. apply Hnew. by apply Hheld. }
  { intros id Hid. by apply Hheld. }
  split; [apply all_along_app; by split|]. intros r Hr'. destruct (Hr r Hr') as (-> & Hj & Hob & rws & Hrw & Hk).
  rewrite apply_writes_app. fold d1. split; [done|]. split.
  { intros id. rewrite Hj, fmap_app, elem_of_app, (Hheld id). change (id_of <$> [event]) with [id_of event].
    by rewrite list_elem_of_singleton. }
  split; [done|]. exists rws. rewrite Hrows in Hrw by done. rewrite Hrw in Hit. injection Hit as <-.
  split_and!; try done. intros k Hk'. rewrite Hk by done. destruct (String.eqb k collection); [done|]. by apply Hrows.
Qed.

(** *** The operations *)

Inductive ledger_op :=
| OpSession (agent_id provider transport native_session_id workspace : pyval) (capabilities : TransportCapabilities)
| OpTurn (session_id message_id kind : pyval)
| OpTransition (kind entity_id from_state to_state reason details : pyval)
| OpUpdate (session_id turn_id sequence kind payload : pyval)
| OpPermission (session_id turn_id tool_name target risk : pyval).

Definition run_ledger_op `{FloatText} (d : disk) (st : stamps) (op : ledger_op) : io dict :=
  match op with
  | OpSession a p t n w c => record_agent_session d st a p t n w c
  | OpTurn s m k => record_protocol_turn d st s m k
  | OpTransition k i f t r x => record_protocol_transition d st k i f t r x
  | OpUpdate s t n k p => record_transport_update d st s t n k p
  | OpPermission s t n x r => record_permission_request d st s t n x r
  end.

Lemma identities_rows doc doc' k : _validate_protocol_identities doc = Ok doc' -> rows_of k doc' = rows_of k doc.
Proof.
  unfold _validate_protocol_identities. intros H. apply bind_Ok in H as (ids & _ & H). apply bind_Ok in H as (us & _ & [= <-]).
  unfold LEDGER_TABLES. cbn [foldl]. by rewrite !rows_of_ensure.
Qed.

Lemma stamped_event_ok st ty p : event_ok (stamped_event st ty p).
Proof. split; [done|]. by eexists. Qed.

Section operation_laws.
Context {ft : FloatText}.

(** The table that an operation records in. *)
Definition op_collection (op : ledger_op) : string :=
  match op with
  | OpSession _ _ _ _ _ _ => "agent_sessions"
  | OpTurn _ _ _ => "protocol_turns"
  | OpTransition _ _ _ _ _ _ => "protocol_state_transitions"
  | OpUpdate _ _ _ _ _ => "transport_updates"
  | OpPermission _ _ _ _ _ => "permission_requests"
  end.

(** An operation fails before it writes, or ends in [record_new]. *)
Definition records_into (d : disk) (st : stamps) (collection : string) (m : io dict) : Prop :=
  (exists e, m = ([], Err e))
  \/ exists doc id_field dup record ty p,
       m = record_new d doc collection id_field dup record (stamped_event st ty p)
       /\ (forall k, rows_of k doc = rows_of k (d_doc d)) /\ collection <> "protocol_event_outbox".

Lemma records_into_ret {A} d st coll (r : result A) (f : A -> io dict) :
  (forall a, r = Ok a -> records_into d st coll (f a)) -> records_into d st coll (io_bind (io_ret r) f).
Proof.
  intros H. destruct r as [a|e]; [|left; by exists e]. specialize (H a eq_refl).
  unfold io_bind, io_ret. cbn. by destruct (f a).
Qed.

Lemma validated_turn_rows doc s t p k : _validated_protocol_turn doc s t = Ok p -> rows_of k p.1 = rows_of k doc.
Proof. unfold _validated_protocol_turn. intros H. inv_ok. by apply identities_rows. Qed.

(** The rows of a table. *)
Definition table_size (k : string) (doc : dict) : nat := match rows_of k doc with PList l => length l | _ => 0 end.

Lemma flush_items_appends items : forall existing, exists es, (flush_items existing items).1 = AppendEvent <$> es.
Proof.
  induction items as [|item items IH]; intros existing; cbn [flush_items]; [by exists []|].
  set (id := match item with PDict d => _ | _ => _ end). clearbody id. unfold io_bind, io_write, io_ret. cbn [fst snd app].
  destruct (if hashable id then _ else _) as [known|e]; [|by exists []]. destruct known; [apply IH|].
  destruct (event_record item) as [event|e]; [|by exists []]. cbn [fst snd app].
  destruct (IH (dget "event_id" event :: existing)) as [es Hes]. exists (event :: es). by rewrite Hes.
Qed.

(** The flush leaves the tables of records. *)
Lemma flush_keeps d doc : (forall k, rows_of k doc = rows_of k (d_doc d)) ->
  all_along (fun x => forall k, k <> "protocol_event_outbox" -> rows_of k (d_doc x) = rows_of k (d_doc d)) d
    (_flush_protocol_event_outbox_locked (d_journal d) doc).1.
Proof.
  intros Hr. unfold _flush_protocol_event_outbox_locked. destruct (truthy _); cbn [negb]; [|by split].
  unfold io_bind at 1, io_ret at 1. cbn [fst snd]. destruct (py_iter _) as [items|e]; [|by split]. cbn [app].
  destruct (flush_items_appends items (_protocol_event_ids (d_journal d))) as [es Hes]. unfold io_bind at 1. rewrite Hes.
  destruct (flush_items _ items).2; [|by apply appends_along]. unfold io_bind, io_write, io_ret. cbn [fst snd app].
  apply all_along_app. split; [by apply appends_along|]. rewrite appends_apply. cbn [all_along apply_write d_doc]. split; [done|]. split; [|done].
  intros k Hk%String.eqb_neq. by rewrite rows_of_dset, Hk.
Qed.

(** No record without its event: as soon as the row is on the disk, the event is
    held. *)
Lemma record_new_accepts d doc collection id_field dup record event : ledger_ok d -> (forall k, rows_of k doc = rows_of k (d_doc d)) ->
  collection <> "protocol_event_outbox" ->
  all_along (fun x => table_size collection (d_doc d) < table_size collection (d_doc x) -> held x (id_of event)) d
    (record_new d doc collection id_field dup record event).1.
Proof.
  intros Hok Hr Hc. unfold record_new. destruct (py_iter _) as [rows|e]; [|by split; [intros H; lia|]].
  cbn [io_ret io_bind fst snd app]. destruct (fresh_identity _ _ _ _) as [[]|e]; [|by split; [intros H; lia|]].
  cbn [io_ret io_bind fst snd app].
  assert (Hf : forall x, (forall k, k <> "protocol_event_outbox" -> rows_of k (d_doc x) = rows_of k (d_doc d)) ->
            table_size collection (d_doc d) < table_size collection (d_doc x) -> held x (id_of event)).
  { intros x Hx Hlt. unfold table_size in Hlt. rewrite (Hx collection) in Hlt by done. lia. }
  pose proof (flush_keeps d doc Hr) as Hk. destruct (flush_spec d doc Hok (Hr _)) as (ws & doc' & E & _ & Ho & _ & Hrows & _).
  rewrite E in *. cbn [io_bind fst snd] in *. apply all_along_app. split; [exact (all_along_mono _ _ ws Hf d Hk)|].
  set (d1 := apply_writes d ws). assert (Hd1 : forall k, k <> "protocol_event_outbox" -> rows_of k (d_doc d1) = rows_of k (d_doc d)).
  { specialize (all_along_take _ _ _ (length ws) Hk); by rewrite take_ge. }
  clear Hk E. unfold _save_protocol_record. destruct (append_row collection record doc') as [doc1|e] eqn:Ha; [|split; [by apply Hf|done]].
  cbn [io_ret io_bind io_write fst snd app].
  assert (Hb : rows_of "protocol_event_outbox" doc1 = PList []).
  { unfold append_row in Ha. destruct (rows_of collection doc') as [| | | | |l| |]; try done. injection Ha as <-. unfold outbox in Ho.
    rewrite rows_of_dset. by destruct (String.eqb_spec "protocol_event_outbox" collection). }
  unfold append_row at 1. rewrite Hb. cbn [app]. set (doc2 := dset "protocol_event_outbox" _ doc1).
  assert (Hb2 : rows_of "protocol_event_outbox" doc2 = PList [PDict event]) by (unfold doc2; by rewrite rows_of_dset).
  cbn [io_ret io_bind io_write fst snd app]. rewrite Hb2. split; [by apply Hf|].
  assert (Hout : forall j, held (Disk doc2 j) (id_of event)).
  { intros j. right. exists event. split; [|done]. unfold outbox. cbn [d_doc]. rewrite Hb2. left. }
  assert (Hj : forall x, held (Disk x (d_journal d1 ++ [event])) (id_of event)).
  { intros x. left. cbn [d_journal]. rewrite fmap_app. apply elem_of_app. right. left. }
  destruct (filterR _ _) as [rest|e]; cbn [all_along apply_write io_ret io_bind io_write fst snd app d_doc d_journal];
    repeat (split; [by intros _|]); done.
Qed.

#[local] Opaque record_new.
Lemma ledger_op_records d st op : records_into d st (op_collection op) (run_ledger_op d st op).
Proof.
  destruct op; cbn [run_ledger_op op_collection];
    unfold record_agent_session, record_protocol_turn, record_protocol_transition, record_transport_update,
      record_permission_request;
    repeat first [apply records_into_ret; intros ? ? | match goal with p : (dict * dict)%type |- _ => destruct p end];
    right; do 6 eexists; (split; [reflexivity|]); (split; [|done]); intros k;
    match goal with
    | H : _validate_protocol_identities _ = Ok _ |- _ => by apply identities_rows
    | H : _validated_protocol_turn _ _ _ = Ok _ |- _ => by apply (validated_turn_rows _ _ _ _ k) in H
    end.
Qed.

Lemma ledger_op_safe d st op : ledger_ok d -> ~ held d (PStr (st_event st)) -> all_along (safe d) d (run_ledger_op d st op).1.
Proof.
  intros Hok Hnew. destruct (ledger_op_records d st op) as [(e & ->)|(doc & f & dup & record & ty & p & -> & Hr & Hc)].
  - split; [by apply safe_refl|done].
  - apply record_new_spec; try done; [|apply stamped_event_ok]. apply Hr.
Qed.

(** The operation, cut after some writes, accepted its event: its record is on
    the disk, or it ended normally. *)
Definition accepts (d : disk) (st : stamps) (op : ledger_op) (n : nat) : bool :=
  let m := run_ledger_op d st op in
  (table_size (op_collection op) (d_doc d) <? table_size (op_collection op) (d_doc (apply_writes d (take n m.1))))
  || (length m.1 <=? n) && is_ok m.2.

Lemma accepted_held d st op n : ledger_ok d -> ~ held d (PStr (st_event st)) -> accepts d st op n = true ->
  held (apply_writes d (take n (run_ledger_op d st op).1)) (PStr (st_event st)).
Proof.
  intros Hok Hnew. unfold accepts.
  destruct (ledger_op_records d st op) as [(e & ->)|(doc & f & dup & record & ty & p & E & Hr & Hc)].
  { cbn [fst snd is_ok length]. rewrite take_nil, andb_false_r, orb_false_r. by intros ?%Nat.ltb_lt%Nat.lt_irrefl. }
  rewrite E. intros [Hlt%Nat.ltb_lt|[Hn%Nat.leb_le Hres]%andb_true_iff]%orb_true_iff.
  - revert Hlt. exact (all_along_take _ _ _ n (record_new_accepts d doc (op_collection op) f dup record (stamped_event st ty p) Hok Hr Hc)).
  - rewrite take_ge by done.
    destruct (record_new_spec d doc (op_collection op) f dup record (stamped_event st ty p)) as [_ Hend]; try done; [apply Hr|apply stamped_event_ok|].
    destruct (record_new _ _ _ _ _ _ _) as [ws [r|e]]; [|done]. destruct (Hend r eq_refl) as (_ & Hids & _). left. apply Hids. by right.
Qed.

(** Operations one after the other, each cut anywhere by a crash, with the
    events they accepted. *)
Inductive ledger_run : disk -> list pyval -> disk -> Prop :=
| run_here d : ledger_run d [] d
| run_op d st op n accepted d' : ~ held d (PStr (st_event st)) ->
    ledger_run (apply_writes d (take n (run_ledger_op d st op).1)) accepted d' ->
    ledger_run d ((if accepts d st op n then [PStr (st_event st)] else []) ++ accepted) d'
| run_flush d n accepted d' :
    ledger_run (apply_writes d (take n (flush_protocol_event_outbox d).1)) accepted d' -> ledger_run d accepted d'.

(** C24: However recording operations are cut by crashes, no event is lost or
    written twice.  An operation accepts its event as soon as its record is on
    the disk, and when it ends normally.  The next complete flush succeeds; then
    the outbox is empty and the journal holds, each once, every event held when
    the run began and every event that was accepted during it. *)
Theorem events_reach_journal_once d accepted d' : ledger_ok d -> ledger_run d accepted d' ->
  let m := flush_protocol_event_outbox d' in
  let final := apply_writes d' m.1 in
  is_ok m.2 = true /\ NoDup (id_of <$> d_journal final) /\ outbox (d_doc final) = PList []
  /\ forall id, held d id \/ id ∈ accepted -> id ∈ id_of <$> d_journal final.
Proof.
  intros Hok Hrun. cbn zeta.
  assert (Hsafe : ledger_ok d' /\ forall id, held d id \/ id ∈ accepted -> held d' id).
  { induction Hrun as [d|d st op n accepted d' Hnew _ IH|d n accepted d' _ IH].
    - split; [done|]. by intros id [?|?%elem_of_nil].
    - destruct (all_along_take _ _ _ n (ledger_op_safe d st op Hok Hnew)) as [Hok1 H1].
      destruct (IH Hok1) as [Hok2 H2]. split; [done|]. intros id [Hid|[Hid|Hid]%elem_of_app]; [by apply H2; left; apply H1| |by apply H2; right].
      apply H2. left. destruct (accepts d st op n) eqn:Ha; [|by apply elem_of_nil in Hid]. apply list_elem_of_singleton in Hid as ->.
      by apply accepted_held.
    - destruct (flush_spec d (d_doc d) Hok eq_refl) as (ws & doc' & E & Hal & _). unfold flush_protocol_event_outbox in *.
      rewrite E in IH. destruct (all_along_take _ _ _ n Hal) as [Hok1 H1]. destruct (IH Hok1) as [Hok2 H2]. split; [done|].
      intros id [Hid|Hid]; apply H2; auto. }
  destruct Hsafe as [Hok' Hheld]. unfold flush_protocol_event_outbox.
  destruct (flush_spec d' (d_doc d') Hok' eq_refl) as (ws & doc' & -> & Hal & _ & Ho & _ & Hh). cbn [fst snd].
  destruct (all_along_take _ _ _ (length ws) Hal) as [(_ & _ & Hn) _]. rewrite take_ge in Hn by done.
  split_and!; try done. intros id Hid. by apply Hh, Hheld.
Qed.

(** *** Transition histories *)

Lemma walk_last e s l t : walk e s l t -> l <> [] -> exists a, (a, t) ∈ PROTOCOL_TRANSITION_EDGES e.
Proof. intros [|s' l' a b _ Hin] Hl; [done|by exists a]. Qed.

Lemma permission_walk s l t : walk PermissionE s l t -> length l <= 1.
Proof.
  intros [|s' l' a b Hw Hin]; [cbn; lia|]. destruct l' as [|x l']; [cbn; lia|].
  destruct (walk_last _ _ _ _ Hw) as (c & Hc); [done|]. apply list_elem_of_In in Hin, Hc.
  cbn [In PROTOCOL_TRANSITION_EDGES PERMISSION_TRANSITION_EDGES] in Hin, Hc. intuition congruence.
Qed.

(** C25: In a ledger the validator accepts, the transitions of every session, turn
    and permission form one walk over the edges of its kind, from the state of its
    record to the state the validator reports; a permission is decided at most
    once. *)
Theorem protocol_history_sound doc states : _validate_protocol_transition_history doc = Ok states ->
  exists items bases, rows_of "protocol_state_transitions" doc = PList items /\ base_states doc = Ok bases
  /\ forall r,
       match states !! r with
       | Some s => exists s0, bases !! r = Some s0 /\ s0 ∈ vocabulary r.1 /\ walk r.1 s0 (moves r items) s
       | None => moves r items = []
       end
       /\ (r.1 = PermissionE -> length (moves r items) <= 1).
Proof.
  unfold _validate_protocol_transition_history. destruct (rows_of _ doc) as [| | | | |items| |]; try done.
  intros (bases & Hb & H)%bind_Ok. exists items, bases. split_and!; [done..|]. intros r.
  pose proof (replay_follows_edges _ _ _ H r) as Hr. pose proof (base_states_known _ _ Hb r) as Hk.
  destruct (states !! r) as [s|]; [|by split; [|rewrite Hr; cbn; lia]].
  destruct Hr as (s0 & Hs0 & Hw). split; [by exists s0; auto|].
  intros Hp. rewrite Hp in Hw. by eapply permission_walk.
Qed.

Lemma index_rows e acc rows m : foldM (index_record e) acc rows = Ok m ->
  (forall r s, acc !! r = Some s -> m !! r = Some s)
  /\ forall d id, PDict d ∈ rows -> dget (identity_field e) d = PStr id ->
       exists s, dget (state_field e) d = PStr s /\ m !! (e, id) = Some s.
Proof.
  apply (foldM_ind (fun pre m => (forall r s, acc !! r = Some s -> m !! r = Some s)
    /\ forall d id, PDict d ∈ pre -> dget (identity_field e) d = PStr id ->
       exists s, dget (state_field e) d = PStr s /\ m !! (e, id) = Some s)); [split; [done|by intros d id ?%elem_of_nil]|].
  intros pre row m1 m2 [Ha Hp] H. unfold index_record in H. destruct row as [| | | | | | |d]; try done.
  destruct (dget (identity_field e) d) as [| | | |id| | |] eqn:Hid; try done.
  apply bind_Ok in H as ([] & _ & H). apply bind_Ok in H as ([] & Hf & H). unfold raise_if in Hf.
  destruct (bool_decide _) eqn:Hn; [done|]. apply bool_decide_eq_false in Hn. apply eq_None_not_Some in Hn.
  destruct (dget (state_field e) d) as [| | | |s0| | |] eqn:Hst; try done. destruct (in_strs s0 _); [|done].
  injection H as <-. split.
  - intros r s Hr. rewrite lookup_insert_ne; [by apply Ha|]. intros <-. exact (eq_None_ne_Some_1 _ _ Hn (Ha _ _ Hr)).
  - intros d' id' [Hd|[= ->]%list_elem_of_singleton]%elem_of_app Hid'.
    + destruct (Hp _ _ Hd Hid') as (s & Hs & Hm). exists s. split; [done|]. rewrite lookup_insert_ne; [done|].
      intros [= <-]. exact (eq_None_ne_Some_1 _ _ Hn Hm).
    + rewrite Hid in Hid'. injection Hid' as <-. exists s0. by rewrite lookup_insert_eq.
Qed.

Lemma base_states_entity doc bases e d id rows : base_states doc = Ok bases -> rows_of (entity_collection e) doc = PList rows ->
  PDict d ∈ rows -> dget (identity_field e) d = PStr id -> exists s, dget (state_field e) d = PStr s /\ bases !! (e, id) = Some s.
Proof.
  unfold base_states, entity_types. cbn [foldM]. unfold index_collection. intros H Hr Hd Hid.
  apply bind_Ok in H as (m1 & H1 & H). apply bind_Ok in H as (m2 & H2 & H). apply bind_Ok in H as (m3 & H3 & [= ->]).
  destruct (rows_of (entity_collection SessionE) doc) eqn:E1; try done. apply index_rows in H1 as [_ H1].
  destruct (rows_of (entity_collection TurnE) doc) eqn:E2; try done. apply index_rows in H2 as [H2' H2].
  destruct (rows_of (entity_collection PermissionE) doc) eqn:E3; try done. apply index_rows in H3 as [H3' H3].
  destruct e.
  - rewrite Hr in E1. injection E1 as ->. destruct (H1 _ _ Hd Hid) as (s & Hs & Hm). exists s. auto.
  - rewrite Hr in E2. injection E2 as ->. destruct (H2 _ _ Hd Hid) as (s & Hs & Hm). exists s. auto.
  - rewrite Hr in E3. injection E3 as ->. by apply H3.
Qed.

Lemma base_states_list doc bases e : base_states doc = Ok bases -> exists rows, rows_of (entity_collection e) doc = PList rows.
Proof.
  unfold base_states, entity_types. cbn [foldM]. unfold index_collection. intros H.
  apply bind_Ok in H as (m1 & H1 & H). apply bind_Ok in H as (m2 & H2 & H). apply bind_Ok in H as (m3 & H3 & _).
  destruct e; [destruct (rows_of (entity_collection SessionE) doc)|destruct (rows_of (entity_collection TurnE) doc)
              |destruct (rows_of (entity_collection PermissionE) doc)]; try done; eauto.
Qed.

Lemma entity_base_state doc bases e id entity a : base_states doc = Ok bases ->
  _protocol_transition_entity doc e (PStr id) = Ok entity -> dget (state_field e) entity = PStr a ->
  bases !! (e, id) = Some a.
Proof.
  intros Hbs Hent Ha. unfold _protocol_transition_entity, _unique_protocol_record in Hent.
  apply bind_Ok in Hent as (items & Hit & Hone). destruct (base_states_list _ _ e Hbs) as (ents & Hents).
  rewrite Hents in Hit. injection Hit as <-. destruct (List.filter _ _) as [|x [|]] eqn:Hfl; try done. injection Hone as ->.
  assert (Hx : entity ∈ [entity]) by (by left). rewrite <- Hfl in Hx. apply list_elem_of_In, filter_In in Hx as [Hx Heq].
  apply list_elem_of_In, elem_of_dicts_of in Hx. apply py_eq_str in Heq.
  destruct (base_states_entity _ _ _ _ _ _ Hbs Hents Hx Heq) as (s & Hs & Hb'). congruence.
Qed.

Lemma base_states_ext doc doc' : (forall k, k ∈ entity_collection <$> entity_types -> rows_of k doc' = rows_of k doc) ->
  base_states doc' = base_states doc.
Proof.
  intros H. unfold base_states, entity_types in *. cbn [foldM]. unfold index_collection.
  rewrite !H; [done|cbn; rewrite !elem_of_cons; tauto..].
Qed.

(** A clone equals its original. *)
Lemma clone_same v : forall c, _clone_json_value v = Ok c -> c = v.
Proof.
  induction v as [|b|z|m e|s|l IH|l IH|d IH] using pyval_ind'; cbn [_clone_json_value]; intros c H; try congruence.
  - destruct (float_finite m e); congruence.
  - destruct (mapR _clone_json_value l) as [l'|] eqn:Hl; [|done]. injection H as <-. f_equal. apply mapR_Ok in Hl.
    revert IH. induction Hl as [|x y l l' Hx _ IHl]; [done|]. intros [Hh Ht]%Forall_cons. f_equal; auto.
  - destruct (mapR _ d) as [d'|] eqn:Hl; [|done]. injection H as <-. f_equal. apply mapR_Ok in Hl.
    revert IH. induction Hl as [|[k x] y d d' Hx _ IHl]; [done|]. intros [Hh Ht]%Forall_cons. f_equal; [|auto].
    cbn in Hx. destruct (_clone_json_value x) as [x'|] eqn:Hc; [|done]. cbn in Hx. injection Hx as <-. f_equal. by apply Hh.
Qed.

Lemma required_ok name s : blank s = false -> _required_string name (PStr s) = Ok s.
Proof. unfold _required_string. by intros ->. Qed.
Lemma record_id_ok name s p : blank s = false -> token_form p s = true -> _record_id name (PStr s) p = Ok s.
Proof. intros Hb Ht. unfold _record_id. rewrite required_ok by done. cbn [mbind result_bind]. by rewrite Ht. Qed.

Lemma build_transition_valid id now k i f t r x record : build_protocol_transition id now k i f t r x = Ok record ->
  token_form "pst_" id = true -> blank id = false -> blank now = false ->
  exists e, validate_protocol_transition_record (PDict record) = Ok e /\ validate_transition_edge k f t = Ok e
    /\ record = [("transition_id", PStr id); ("entity_type", k); ("entity_id", i); ("from_state", f); ("to_state", t);
                 ("reason", r); ("details", x); ("created_at", PStr now)].
Proof.
  unfold build_protocol_transition. intros H Hid Hb Hn. apply bind_Ok in H as (e & He & H). apply bind_Ok in H as (ent & Hent & H).
  apply bind_Ok in H as (c & Hc & [= <-]). exists e.
  assert (i = PStr ent) as ->.
  { unfold _record_id, _required_string in Hent. destruct i; try done. destruct (blank s); [done|]. by inv_ok. }
  assert (c = x) as ->.
  { unfold _validated_transition_metadata in Hc. apply bind_Ok in Hc as (? & _ & Hc). apply bind_Ok in Hc as (? & _ & Hc).
    apply bind_Ok in Hc as (c' & Hx & Hc). apply bind_Ok in Hc as (? & _ & Hc). apply bind_Ok in Hc as (? & _ & [= <-]).
    by apply clone_same. }
  split; [|by split]. unfold validate_protocol_transition_record.
  change (keys_are PROTOCOL_TRANSITION_FIELDS _) with true. cbv beta iota delta [negb raise_if]. cbn [mbind result_bind].
  change (dget "transition_id" _) with (PStr id). rewrite record_id_ok by done. cbn [mbind result_bind].
  change (validate_transition_edge (dget _ _) (dget _ _) (dget _ _)) with (validate_transition_edge k f t).
  rewrite He. cbn [mbind result_bind]. change (_record_id "entity_id" (dget _ _)) with (_record_id "entity_id" (PStr ent)).
  rewrite Hent. cbn [mbind result_bind].
  change (_validated_transition_metadata (dget _ _) (dget _ _)) with (_validated_transition_metadata r x).
  rewrite Hc. cbn [mbind result_bind]. change (dget "created_at" _) with (PStr now). by rewrite required_ok.
Qed.

Lemma pst_not_blank s : token_form "pst_" s = true -> blank s = false.
Proof.
  unfold token_form. destruct (drop_prefix "pst_" s) as [r|] eqn:Hd; [|done]. apply drop_prefix_spec in Hd as ->. intros _.
  unfold blank. change ("pst_" +:+ r) with ("p" +:+ ("s" +:+ ("t" +:+ ("_" +:+ r)))).
  cbn [chars String.append]. destruct (chars r) as [|c cs]; [done|]. by destruct (starts_cont c).
Qed.

Lemma replay_one_record bases states record e d : validate_protocol_transition_record (PDict d) = Ok e -> record = PDict d ->
  forall id a b, dget "entity_id" d = PStr id -> dget "from_state" d = PStr a -> dget "to_state" d = PStr b ->
  (states !! (e, id) = Some a \/ states !! (e, id) = None /\ bases !! (e, id) = Some a) ->
  replay_one bases states record = Ok (<[(e, id) := b]> states).
Proof.
  intros He -> id a b Hid Hf Ht Hcur. unfold replay_one. rewrite He, Hid, Hf, Ht. cbn [mbind result_bind text_of].
  destruct Hcur as [->|[-> ->]]; cbn [mbind result_bind]; rewrite (proj2 (py_eq_str (PStr a) a) eq_refl); done.
Qed.

(** A transition is recorded only along an edge from the entity's current
    state; once written, the ledger's history is valid again and gives the entity
    the new state and every other entity its old one. *)
Lemma record_transition_extends_history d st kind entity_id from_state to_state reason details record :
  ledger_ok d -> ~ held d (PStr (st_event st)) -> token_form "pst_" (st_id st) = true -> blank (st_now st) = false ->
  let m := record_protocol_transition d st kind entity_id from_state to_state reason details in
  m.2 = Ok record ->
  exists e id a b states,
    kind = PStr (entity_type e) /\ entity_id = PStr id /\ from_state = PStr a /\ to_state = PStr b
    /\ (a, b) ∈ PROTOCOL_TRANSITION_EDGES e
    /\ _validate_protocol_transition_history (d_doc d) = Ok states
    /\ _validate_protocol_transition_history (d_doc (apply_writes d m.1)) = Ok (<[(e, id) := b]> states)
    /\ (states !! (e, id) = Some a
        \/ states !! (e, id) = None /\ exists bases, base_states (d_doc d) = Ok bases /\ bases !! (e, id) = Some a).
Proof.
  intros Hok Hnew Hst Hnow. cbn zeta. unfold record_protocol_transition.
  destruct (_validate_protocol_identities (d_doc d)) as [doc|] eqn:Hdoc; [rewrite io_bind_ret|done].
  destruct (_validate_protocol_transition_history doc) as [states|] eqn:Hh; [rewrite io_bind_ret|done].
  destruct (build_protocol_transition _ _ _ _ _ _ _ _) as [rc|] eqn:Hb; [rewrite io_bind_ret|done].
  destruct (build_transition_valid _ _ _ _ _ _ _ _ _ Hb Hst (pst_not_blank _ Hst) Hnow) as (e & Hv & He & Hrc).
  rewrite He, io_bind_ret. destruct (validate_edge_Ok _ _ _ _ He) as (-> & a & b & -> & -> & Hin).
  destruct (_protocol_transition_entity doc e entity_id) as [entity|] eqn:Hent; [rewrite io_bind_ret|done].
  destruct (validate_record_Ok _ _ Hv) as (d0 & a0 & b0 & [= <-] & _ & Hid & _). rewrite Hrc in Hid.
  change (dget "entity_id" _) with entity_id in Hid. destruct entity_id as [| | | |id| | |]; try done. cbn [text_of].
  set (current := match states !! (e, id) with Some s => PStr s | None => dget (state_field e) entity end).
  destruct (py_eq (PStr a) current) eqn:Hcur; [|done]. apply py_eq_str_l in Hcur.
  change (io_ret (raise_if (negb true) _)) with (io_ret (Ok tt)). rewrite io_bind_ret. set (event := stamped_event st _ _).
  assert (Hrows : forall k, rows_of k doc = rows_of k (d_doc d)) by (intros k; by apply identities_rows).
  destruct (record_new_spec d doc "protocol_state_transitions" "transition_id"
              (ValueError "duplicate protocol transition identity") rc event) as [_ Hend];
    try done; [apply Hrows|apply stamped_event_ok|].
  intros Hm. destruct (Hend _ Hm) as (-> & _ & _ & rows & Hrw & _ & Hfin). clear Hend Hm.
  set (final := d_doc (apply_writes d _)) in *. unfold _validate_protocol_transition_history in Hh |- *.
  rewrite <- (Hrows "protocol_state_transitions"), Hfin by done. rewrite Hrw in Hh |- *. rewrite String.eqb_refl.
  assert (Hbase : base_states final = base_states doc).
  { apply base_states_ext. intros k Hk. rewrite Hfin by (intros ->; by apply (bool_decide_eq_true_2 _) in Hk).
    destruct (String.eqb_spec k "protocol_state_transitions") as [->|]; [by apply (bool_decide_eq_true_2 _) in Hk|done]. }
  rewrite Hbase, <- (base_states_ext (d_doc d) doc) by (intros; apply Hrows).
  apply bind_Ok in Hh as (bases & Hbs & Hf). rewrite Hbs. cbn [mbind result_bind].
  assert (Hcase : states !! (e, id) = Some a \/ states !! (e, id) = None /\ bases !! (e, id) = Some a).
  { unfold current in Hcur. destruct (states !! (e, id)) as [s|]; [left; congruence|right]. split; [done|].
    by eapply entity_base_state. }
  exists e, id, a, b, states. split_and!; try done.
  - rewrite foldM_app, Hf. cbn [mbind result_bind foldM].
    rewrite (replay_one_record bases states _ e rc Hv eq_refl id a b); [done|by rewrite Hrc..|done].
  - destruct Hcase as [?|[??]]; [by left|right]. split; [done|]. by exists bases.
Qed.
End operation_laws.

(** ** Witnesses *)

#[local] Existing Instance sample_float_text.

(** A session and a turn; the turn's event still waits, the session's is in the
    journal. *)
Definition sample_event (id ty : string) : dict :=
  [("event_id", PStr id); ("event_type", PStr ty); ("created_at", PStr "t"); ("payload", PDict [])].
Definition sample_ledger : dict :=
  [("agent_sessions", PList [PDict [("session_id", PStr "ags_a"); ("state", PStr "ready")]]);
   ("protocol_turns", PList [PDict [("turn_id", PStr "trn_a"); ("session_id", PStr "ags_a"); ("state", PStr "created")]]);
   ("protocol_event_outbox", PList [PDict (sample_event "evt_2" "protocol_turn_recorded")])].
Definition sample_disk : disk := Disk sample_ledger [sample_event "evt_1" "agent_session_recorded"].
Definition sample_stamps : stamps := Stamps "pst_a" "t" "evt_3" "t".

Lemma sample_ledger_ok : ledger_ok sample_disk.
Proof.
  split; [|split; [by constructor|by apply NoDup_singleton]].
  exists [sample_event "evt_2" "protocol_turn_recorded"]. split; [done|]. constructor; [|done]. split; [done|by eexists].
Qed.
Lemma sample_not_held : ~ held sample_disk (PStr "evt_3").
Proof.
  intros [H|(e & H & He)].
  - by apply list_elem_of_singleton in H.
  - apply list_elem_of_singleton in H as [= ->]. done.
Qed.

Definition sample_transition : ledger_op :=
  OpTransition (PStr "turn") (PStr "trn_a") (PStr "created") (PStr "submitted") PNone (PDict []).

(** Crashed after the record was saved, with its event in the outbox. *)
Lemma events_reach_journal_once_witness : exists d',
  ledger_run sample_disk [PStr "evt_3"] d'
  /\ d_journal d' = d_journal sample_disk ++ [sample_event "evt_2" "protocol_turn_recorded"]
  /\ let final := apply_writes d' (flush_protocol_event_outbox d').1 in
     NoDup (id_of <$> d_journal final) /\ length (d_journal final) = 3 /\ PStr "evt_3" ∈ id_of <$> d_journal final.
Proof.
  eexists. assert (Hacc : accepts sample_disk sample_stamps sample_transition 3 = true) by (by vm_compute).
  assert (Hrun : ledger_run sample_disk [PStr "evt_3"] (apply_writes sample_disk (take 3 (run_ledger_op sample_disk sample_stamps sample_transition).1))).
  { pose proof (run_op sample_disk sample_stamps sample_transition 3 [] _ sample_not_held (run_here _)) as R. rewrite Hacc in R. exact R. }
  split; [exact Hrun|]. split; [by vm_compute|].
  destruct (events_reach_journal_once _ _ _ sample_ledger_ok Hrun) as (_ & Hn & _ & Hids). split; [exact Hn|]. split; [by vm_compute|].
  apply Hids. right. by left.
Defined.

Lemma protocol_history_sound_witness : exists doc states,
  _validate_protocol_transition_history doc = Ok states /\ states !! (TurnE, "trn_a") = Some "submitted"
  /\ exists items, moves (TurnE, "trn_a") items = [("created", "submitted")].
Proof.
  set (doc := d_doc (apply_writes sample_disk (run_ledger_op sample_disk sample_stamps sample_transition).1)).
  assert (H : is_ok (_validate_protocol_transition_history doc) = true) by by vm_compute.
  apply is_ok_exists in H as (states & E). exists doc, states. split; [exact E|].
  assert (Hs : states !! (TurnE, "trn_a") = Some "submitted").
  { assert (match _validate_protocol_transition_history doc with Ok s => s !! (TurnE, "trn_a") | _ => None end = Some "submitted")
      as H by by vm_compute. rewrite E in H. exact H. }
  split; [exact Hs|]. destruct (protocol_history_sound _ _ E) as (items & bases & Hit & _). exists items.
  assert (items = match rows_of "protocol_state_transitions" doc with PList l => l | _ => [] end) as -> by (by rewrite Hit).
  by vm_compute.
Defined.

Lemma record_transition_extends_history_witness : exists states,
  _validate_protocol_transition_history
    (d_doc (apply_writes sample_disk (run_ledger_op sample_disk sample_stamps sample_transition).1)) = Ok states
  /\ states !! (TurnE, "trn_a") = Some "submitted".
Proof.
  assert (H : exists record, (run_ledger_op sample_disk sample_stamps sample_transition).2 = Ok record) by (eexists; by vm_compute).
  destruct H as [record H].
  destruct (record_transition_extends_history sample_disk sample_stamps _ _ _ _ _ _ record sample_ledger_ok sample_not_held
              ltac:(by vm_compute) ltac:(by vm_compute) H) as (e & id & a & b & states & Hk & Hi & Ha & Hb & _ & _ & Hh & _).
  injection Hi as <-. injection Hb as <-. clear - Hk Hh. assert (e = TurnE) as -> by (destruct e; [discriminate Hk|reflexivity|discriminate Hk]). eexists. split; [exact Hh|].
  apply lookup_insert_eq.
Defined.
