(* ===== verification/Governance.v ===== *)
(** * Governance gates and previews ([daemon/governance.py], [conversation/bindings.py])

    A governed action (pause, resume or cancel a Mission, hand a Worker over,
    reroute a step, decide a permission, force the daemon to stop) needs a
    preview: a record of the action, the controller generation and the digest of
    the facts it was shown for, valid until it expires.  Confirming the action
    consumes the preview, and only if action, generation and facts are still
    the same.  The other gates say whether an effect lies inside a Mission's
    frozen scope, the permission policy and AgentDeck's ownership of the Worker.

    [now] is [None] for a naive [datetime].  A document nested beyond the
    interpreter's recursion limit is refused; the code would raise
    [RecursionError]. *)
From S2P Require Import Prelude PyStr PyVal Json Protocol Lease Attempt.
From Stdlib Require Import Ascii.

Definition binding_error {A} (msg : string) : result A := Err (PreviewBindingError msg).
Definition governance_error {A} (msg : string) : result A := Err (GovernanceError msg).

(** [s.replace("Z", "+00:00")] *)
Fixpoint replace_Z (s : string) : string :=
  match s with
  | EmptyString => EmptyString
  | String c r => if Ascii.eqb c "Z"%char then "+00:00" +:+ replace_Z r else String c (replace_Z r)
  end.
Definition is_ascii (s : string) : bool := all_ascii (fun c => (byte_of c <? 128)%N) s.

(** ** Preview bindings ([conversation/bindings.py]) *)

Section bindings.
Context {env : LeaseEnv} {ft : FloatText}.

Definition execution_digest (facts : pyval) : result string :=
  let bad := Err (ValueError "execution facts must be canonical JSON") in
  match facts with
  | PDict _ => match json_dumps_sorted facts with Ok payload => Ok (sha256_hex payload) | Err _ => bad end
  | _ => bad
  end.

(** [t.astimezone(timezone.utc)] *)
Definition to_utc (t : Z) : result Z := if representable t then Ok t else Err OverflowError.

Definition _timestamp (value : pyval) (fld : string) : result Z :=
  let bad := PreviewBindingError ("preview " +:+ fld +:+ " invalid") in
  match value with
  | PStr s =>
      _ ← raise_if (String.eqb s "") bad;
      match fromisoformat (replace_Z s) with Some t => to_utc t | None => Err bad end
  | _ => Err bad
  end.

Definition validate_preview_execution (binding : pyval) (current_facts : pyval) (now : option Z) : result dict :=
  match binding, now with
  | PDict b, Some t =>
      _ ← raise_if (negb (py_eq (dget "state" b) (PStr "pending"))) (PreviewBindingError "preview is not pending");
      expires ← _timestamp (dget "expires_at" b) "expires_at";
      current ← to_utc t;
      _ ← raise_if (expires <=? current)%Z (PreviewBindingError "preview expired");
      match dget "execution_digest" b with
      | PStr expected =>
          _ ← raise_if (negb (py_len expected =? 64)%Z) (PreviewBindingError "preview execution_digest invalid");
          match execution_digest current_facts with
          | Err e => if value_error e then binding_error "preview execution facts invalid" else Err e
          | Ok actual =>
              (* hmac.compare_digest *)
              _ ← raise_if (negb (is_ascii expected && is_ascii actual))
                           (TypeError "comparing strings with non-ASCII characters is not supported");
              _ ← raise_if (negb (String.eqb expected actual)) (PreviewBindingError "preview state drift");
              Ok b
          end
      | _ => binding_error "preview execution_digest invalid"
      end
  | PDict _, None => Err (ValueError "now must be timezone-aware")
  | _, _ => binding_error "preview binding invalid"
  end.

Definition utc_text (now : option Z) : result string :=
  match now with Some t => isoformat <$> to_utc t | None => Err (ValueError "now must be timezone-aware") end.

Definition consume_preview_binding (binding current_facts : pyval) (now : option Z) : result dict :=
  consumed ← validate_preview_execution binding current_facts now;
  text ← utc_text now;
  Ok (dset "consumed_at" (PStr text) (dset "state" (PStr "consumed") consumed)).
End bindings.

(** ** Canonical facts and gates *)

Definition _ACTIONS : list string :=
  ["takeover"; "return_control"; "reroute"; "permission_decision"; "mission_pause"; "mission_resume"; "mission_cancel";
   "force_daemon_stop"].
Definition _EFFECT_FIELDS : list string := ["mission_id"; "step_id"; "agent_id"; "action_class"; "transport"; "target"].
Definition _PREVIEW_FIELDS : list string :=
  ["action"; "generation"; "execution_digest"; "previewed_at"; "expires_at"; "state"].
Definition _REROUTE_RECORD_FIELDS : list string :=
  ["mission_id"; "step_id"; "agent_id"; "snapshot_hash"; "mission_status"; "current_step"; "ownership"; "attempt_state";
   "from_transport"; "to_transport"; "preview_id"; "generation"; "created_at"].

Record GateResult := { allowed : bool; gate : option string; blocker : option string }.
Definition allow : GateResult := {| allowed := true; gate := None; blocker := None |}.
Definition block (g b : string) : GateResult := {| allowed := false; gate := Some g; blocker := Some b |}.

Section gates.
Context {ft : FloatText} {lim : RecursionLimits}.

Definition _canonical (value : pyval) (label : string) : result dict :=
  let bad := governance_error (label +:+ " are invalid") in
  match value with
  | PDict _ =>
      match json_dumps_sorted value with
      | Err _ => bad
      | Ok encoded =>
          _ ← raise_if (65536 <? Z.of_nat (String.length encoded))%Z (GovernanceError (label +:+ " are invalid"));
          match json_loads_last encoded with Ok (PDict d) => Ok d | _ => bad end
      end
  | _ => bad
  end.

(** [except GovernanceError as exc: return GateResult.block(gate, str(exc))] *)
Definition with_canonical (g : string) (value : pyval) (label : string) (k : dict -> GateResult) : GateResult :=
  match _canonical value label with Ok d => k d | Err _ => block g (label +:+ " are invalid") end.

Definition str_items (l : list pyval) : option (list string) :=
  mapM (fun v => match v with PStr s => if String.eqb s "" then None else Some s | _ => None end) l.
Definition _string_list (value : pyval) : option (list string) :=
  match value with
  | PList l => items ← str_items l; if bool_decide (NoDup items) then Some items else None
  | _ => None
  end.

Definition listed (v : pyval) (l : list string) : bool := existsb (fun s => py_eq v (PStr s)) l.
Definition same_field (k : string) (a b : dict) : bool := py_eq (dget k a) (dget k b).

(** The frozen step an effect is about. *)
Definition in_step (current : dict) (item : pyval) : bool :=
  match item with
  | PDict s => same_field "step_id" s current && same_field "agent_id" s current && same_field "transport" s current
  | _ => false
  end.

Definition frozen_scope_gate (effect snapshot : pyval) : GateResult :=
  with_canonical "frozen_scope" effect "effect" (fun current =>
  with_canonical "frozen_scope" snapshot "frozen scope" (fun frozen =>
  if negb (keys_are _EFFECT_FIELDS current) then block "frozen_scope" "effect fields are invalid"
  else
    match dget "steps" frozen, _string_list (dget "allowed_action_classes" frozen),
          _string_list (dget "allowed_targets" frozen) with
    | PList steps, Some actions, Some targets =>
        if negb (same_field "mission_id" frozen current)
        then block "frozen_scope" "frozen Mission scope is invalid"
        else match List.filter (in_step current) steps with
             | [_] =>
                 if negb (listed (dget "action_class" current) actions)
                 then block "frozen_scope" "effect action class is outside frozen scope"
                 else if negb (listed (dget "target" current) targets)
                 then block "frozen_scope" "effect target is outside frozen scope"
                 else allow
             | _ => block "frozen_scope" "effect is outside frozen Worker scope"
             end
    | _, _, _ => block "frozen_scope" "frozen Mission scope is invalid"
    end)).

Definition permission_policy_gate (effect policy : pyval) : GateResult :=
  with_canonical "permission_policy" effect "effect" (fun current =>
  with_canonical "permission_policy" policy "permission policy" (fun current_policy =>
  match _string_list (dget "allowed_action_classes" current_policy) with
  | None => block "permission_policy" "permission policy is invalid"
  | Some actions =>
      if negb (listed (dget "action_class" current) actions)
      then block "permission_policy" "action class is not permitted"
      else if negb (py_eq (dget "permission_state" current_policy) (PStr "approved"))
      then block "permission_policy" "permission is not approved"
      else allow
  end)).

(** [v is True] *)
Definition is_true (v : pyval) : bool := match v with PBool b => b | _ => false end.

Definition runtime_ownership_gate (effect runtime : pyval) : GateResult :=
  with_canonical "runtime_ownership" effect "effect" (fun current =>
  with_canonical "runtime_ownership" runtime "runtime ownership" (fun current_runtime =>
  if negb (py_eq (dget "owner" current_runtime) (PStr "agentdeck_owned"))
  then block "runtime_ownership" "Worker is not AgentDeck-owned"
  else if negb (is_true (dget "ready" current_runtime))
  then block "runtime_ownership" "Worker runtime is not ready"
  else if negb (py_eq (dget "effective_transport" current_runtime) (dget "transport" current))
  then block "runtime_ownership" "Worker transport ownership drift"
  else allow)).

Definition authorize_effect (effect snapshot policy runtime : pyval) : GateResult :=
  default allow (find_first (fun d => negb (allowed d))
    [frozen_scope_gate effect snapshot; permission_policy_gate effect policy; runtime_ownership_gate effect runtime]).

Definition owned (s : string) (d : dict) : bool := py_eq (dget "ownership" d) (PStr s).

(** The reroute branch of [governance_transition_gate]. *)
Definition reroute_gate (current : dict) : result GateResult :=
  if negb (owned "agentdeck_owned" current) then Ok (block "runtime_ownership" "Worker is not AgentDeck-owned")
  else if negb (py_eq (dget "attempt_state" current) (PStr "none"))
  then Ok (block "frozen_scope" "reroute cannot modify a frozen attempt")
  else
    from_known ← in_str_set (dget "from_transport" current) TRANSPORTS;
    to_known ← (if from_known : bool then in_str_set (dget "to_transport" current) TRANSPORTS else Ok false);
    Ok (if negb from_known || negb to_known || py_eq (dget "from_transport" current) (dget "to_transport" current)
        then block "frozen_scope" "reroute transport is invalid" else allow).

Definition governance_transition_gate (action : string) (facts : pyval) : result GateResult :=
  let label := "governance transition facts" in
  match _canonical facts label with
  | Err _ => Ok (block "runtime_ownership" (label +:+ " are invalid"))
  | Ok current =>
      if String.eqb action "prompt" then
        Ok (if owned "agentdeck_owned" current then allow else block "runtime_ownership" "Worker is human-owned")
      else if String.eqb action "takeover" then
        Ok (if negb (owned "agentdeck_owned" current) then block "runtime_ownership" "Worker is not AgentDeck-owned"
            else if negb (is_true (dget "safe_boundary" current))
            then block "runtime_ownership" "takeover requires a safe boundary" else allow)
      else if String.eqb action "return_control" then
        Ok (if negb (owned "human_owned" current) then block "runtime_ownership" "Worker is not human-owned"
            else if negb (is_true (dget "reconciled" current))
            then block "runtime_ownership" "return requires reconciliation" else allow)
      else if String.eqb action "reroute" then reroute_gate current
      else Ok (block "frozen_scope" "governance transition is unsupported")
  end.
End gates.

(** ** Previews *)

(** [float(ttl_seconds)] of a finite positive number, as in [Lease._ttl]. *)
Definition preview_ttl (v : pyval) : result (Z * Z) :=
  let bad := GovernanceError "governance preview TTL is invalid" in
  match v with
  | PInt z =>
      let '(m, e) := to_double (Z.abs z) 0 in
      if (1024 <=? Z.log2 m + e)%Z then Err OverflowError
      else if (z <=? 0)%Z then Err bad else Ok (m, e)
  | PFloat m e => if (m <=? 0)%Z then Err bad else Ok (m, e)
  | _ => Err bad
  end.

Definition is_generation (v : pyval) : bool := match v with PInt g => (1 <=? g)%Z | _ => false end.

Section previews.
Context {env : LeaseEnv} {ft : FloatText} {lim : RecursionLimits}.

Definition build_governance_preview (action : string) (facts : dict) (generation : pyval) (now : option Z)
    (ttl_seconds : pyval) : result dict :=
  _ ← raise_if (negb (in_strs action _ACTIONS)) (GovernanceError "governance action is invalid");
  _ ← raise_if (negb (is_generation generation)) (GovernanceError "governance generation is invalid");
  match now with
  | None => governance_error "governance time is invalid"
  | Some t =>
      ttl ← preview_ttl ttl_seconds;
      current ← _canonical (PDict facts) "governance facts";
      previewed_at ← to_utc t;
      digest ← execution_digest (PDict current);
      expires ← to_utc (previewed_at + timedelta_us ttl)%Z;
      Ok [("action", PStr action); ("generation", generation); ("execution_digest", PStr digest);
          ("previewed_at", PStr (isoformat previewed_at)); ("expires_at", PStr (isoformat expires));
          ("state", PStr "pending")]
  end.

(** The fields a stored preview must have, and no others. *)
Definition expected_fields (preview : dict) : list string :=
  _PREVIEW_FIELDS
  ++ (if dmem "preview_id" preview then ["preview_id"] else [])
  ++ (if py_eq (dget "state" preview) (PStr "consumed") then ["consumed_at"] else [])
  ++ (if dmem "controller_lineage" preview then ["controller_lineage"] else []).

Definition preview_binding (preview : dict) : dict :=
  [("execution_digest", dget "execution_digest" preview); ("expires_at", dget "expires_at" preview);
   ("state", dget "state" preview)]
  ++ (if dmem "consumed_at" preview then [("consumed_at", dget "consumed_at" preview)] else []).

Definition consume_governance_preview (preview : dict) (action : string) (facts generation : pyval) (now : option Z)
    : result dict :=
  _ ← raise_if (negb (keys_are (expected_fields preview) preview)) (PreviewBindingError "preview fields are invalid");
  _ ← raise_if (negb (is_form is_sha256 (dget "execution_digest" preview)))
               (PreviewBindingError "preview execution_digest invalid");
  _ ← raise_if (negb (py_eq (dget "action" preview) (PStr action))) (PreviewBindingError "preview action drift");
  _ ← raise_if (negb (py_eq (dget "generation" preview) generation)) (PreviewBindingError "preview generation drift");
  consumed ← consume_preview_binding (PDict (preview_binding preview)) facts now;
  Ok (dset "consumed_at" (dget "consumed_at" consumed) (dset "state" (dget "state" consumed) preview)).
End previews.

(** ** Forced stop and rerouted steps *)

Definition SETTLED_STATES : list string := ["succeeded"; "completed"; "failed"; "cancelled"; "interrupted"; "ambiguous"].

(** One attempt: its identity, and how the forced stop classifies it. *)
Definition classify_attempt (seen : list string) (item : pyval) : result (string * option string) :=
  let invalid := GovernanceError "force-stop attempt facts are invalid" in
  match item with
  | PDict a =>
      match dget "attempt_id" a with
      | PStr id =>
          _ ← raise_if (String.eqb id "" || in_strs id seen) invalid;
          settled ← in_str_set (dget "state" a) SETTLED_STATES;
          if settled : bool then Ok (id, None)
          else if state_is "prepared" a && is_none (dget "receipt_summary" a) then Ok (id, Some "interrupted")
          else active ← in_str_set (dget "state" a) ["admitting"; "submitted"; "running"];
               if active : bool then Ok (id, Some "ambiguous")
               else governance_error "force-stop attempt state is invalid"
      | _ => Err invalid
      end
  | _ => Err invalid
  end.

Fixpoint classify_attempts (seen : list string) (attempts : list pyval) : result (list (string * string)) :=
  match attempts with
  | [] => Ok []
  | item :: attempts =>
      '(id, target) ← classify_attempt seen item;
      rest ← classify_attempts (id :: seen) attempts;
      Ok (match target with Some t => (id, t) :: rest | None => rest end)
  end.
Definition classify_force_stop_attempts (attempts : list pyval) : result (list (string * string)) :=
  classify_attempts [] attempts.

Section reroutes.
Context {env : LeaseEnv}.

(** The checks of the one reroute record of a step. *)
Definition check_reroute (item : dict) (agent_id frozen_transport : string) : result unit :=
  let invalid := GovernanceError "transport reroute lineage is invalid" in
  _ ← raise_if (negb (keys_are _REROUTE_RECORD_FIELDS item) || negb (py_eq (dget "agent_id" item) (PStr agent_id))
                || negb (py_eq (dget "from_transport" item) (PStr frozen_transport))) invalid;
  known ← in_str_set (dget "to_transport" item) TRANSPORTS;
  _ ← raise_if (negb known || py_eq (dget "to_transport" item) (PStr frozen_transport)
                || negb (is_form content_hash_form (dget "snapshot_hash" item))) invalid;
  status ← in_str_set (dget "mission_status" item) ["pending_confirmation"; "preparing"; "running"; "stopped"];
  _ ← raise_if (negb status
                || negb (match dget "current_step" item with PInt z => (0 <=? z)%Z | _ => false end)
                || negb (owned "agentdeck_owned" item)
                || negb (py_eq (dget "attempt_state" item) (PStr "none"))
                || negb (is_form nonempty (dget "preview_id" item))
                || negb (is_generation (dget "generation" item))) invalid;
  _ ← aware_instant (dget "created_at" item) invalid;
  Ok tt.

Definition effective_transport_for_step (state : dict) (mission_id step_id agent_id frozen_transport : string)
    : result string :=
  _ ← raise_if (negb (in_strs frozen_transport TRANSPORTS)) (GovernanceError "frozen transport is invalid");
  match (match dlookup "mission_transport_reroutes" state with Some v => v | None => PList [] end) with
  | PList records =>
      _ ← raise_if (negb (forallb is_dict records)) (GovernanceError "transport reroute state is invalid");
      match List.filter (fun r => py_eq (dget "mission_id" r) (PStr mission_id) && py_eq (dget "step_id" r) (PStr step_id))
                        (dicts_of records) with
      | [] => Ok frozen_transport
      | [item] => _ ← check_reroute item agent_id frozen_transport; Ok (text_of (dget "to_transport" item))
      | _ => governance_error "transport reroute lineage is ambiguous"
      end
  | _ => governance_error "transport reroute state is invalid"
  end.
End reroutes.

(** ** Laws *)

Section gate_laws.
Context {ft : FloatText} {lim : RecursionLimits}.

(** What a Mission's frozen scope, the permission policy and the runtime must
    say for an effect to be authorised. *)
Record in_frozen_scope (current frozen : dict) : Prop := {
  fs_fields : keys_are _EFFECT_FIELDS current = true;
  fs_mission : same_field "mission_id" frozen current = true;
  fs_step : exists steps step, dget "steps" frozen = PList steps /\ List.filter (in_step current) steps = [step];
  fs_action : exists actions, _string_list (dget "allowed_action_classes" frozen) = Some actions
                              /\ listed (dget "action_class" current) actions = true;
  fs_target : exists targets, _string_list (dget "allowed_targets" frozen) = Some targets
                              /\ listed (dget "target" current) targets = true
}.
Record permitted (current policy : dict) : Prop := {
  pp_action : exists actions, _string_list (dget "allowed_action_classes" policy) = Some actions
                              /\ listed (dget "action_class" current) actions = true;
  pp_state : dget "permission_state" policy = PStr "approved"
}.
Record runs_for_us (current runtime : dict) : Prop := {
  ro_owner : dget "owner" runtime = PStr "agentdeck_owned";
  ro_ready : dget "ready" runtime = PBool true;
  ro_transport : py_eq (dget "effective_transport" runtime) (dget "transport" current) = true
}.

Lemma with_canonical_allowed g v label k : allowed (with_canonical g v label k) = true <->
  exists d, _canonical v label = Ok d /\ allowed (k d) = true.
Proof. unfold with_canonical. destruct (_canonical v label) as [d|e]; naive_solver. Qed.

Lemma frozen_scope_allowed effect snapshot : allowed (frozen_scope_gate effect snapshot) = true <->
  exists current frozen, _canonical effect "effect" = Ok current /\ _canonical snapshot "frozen scope" = Ok frozen
  /\ in_frozen_scope current frozen.
Proof.
  unfold frozen_scope_gate. rewrite with_canonical_allowed. apply exist_proper; intros cur. 
  rewrite with_canonical_allowed. split.
  - intros (Hc & fr & Hf & H). exists fr. split_and!; [done..|]. destruct (keys_are _ cur) eqn:Hk; [|done]. cbn in H.
    destruct (dget "steps" fr) as [| | | | |steps| |] eqn:Hs; try done.
    destruct (_string_list (dget "allowed_action_classes" fr)) as [acts|] eqn:Ha; [|done].
    destruct (_string_list (dget "allowed_targets" fr)) as [tgts|] eqn:Ht; [|done].
    destruct (same_field "mission_id" fr cur) eqn:Hm; [|done]. cbn in H.
    destruct (List.filter _ steps) as [|step [|]] eqn:Hfl; try done.
    destruct (listed (dget "action_class" cur) acts) eqn:Hla; [|done]. cbn in H.
    destruct (listed (dget "target" cur) tgts) eqn:Hlt; [|done]. split; eauto.
  - intros (fr & Hc & Hf & [Hk Hm (steps & step & Hs & Hfl) (acts & Ha & Hla) (tgts & Ht & Hlt)]). split; [done|].
    exists fr. split; [done|]. by rewrite Hk, Hs, Ha, Ht, Hm, Hfl, Hla, Hlt.
Qed.

Lemma permission_policy_allowed effect policy : allowed (permission_policy_gate effect policy) = true <->
  exists current pol, _canonical effect "effect" = Ok current /\ _canonical policy "permission policy" = Ok pol
  /\ permitted current pol.
Proof.
  unfold permission_policy_gate. rewrite with_canonical_allowed. apply exist_proper; intros cur.
  rewrite with_canonical_allowed. split.
  - intros (Hc & pol & Hf & H). exists pol. split_and!; [done..|].
    destruct (_string_list _) as [acts|] eqn:Ha; [|done]. destruct (listed _ acts) eqn:Hla; [|done]. cbn in H.
    destruct (py_eq (dget "permission_state" pol) _) eqn:Hp; [|done]. split; [eauto|by apply py_eq_str].
  - intros (pol & Hc & Hf & [(acts & Ha & Hla) Hp]). split; [done|]. exists pol. split; [done|]. by rewrite Ha, Hla, Hp.
Qed.

Lemma runtime_ownership_allowed effect runtime : allowed (runtime_ownership_gate effect runtime) = true <->
  exists current rt, _canonical effect "effect" = Ok current /\ _canonical runtime "runtime ownership" = Ok rt
  /\ runs_for_us current rt.
Proof.
  unfold runtime_ownership_gate. rewrite with_canonical_allowed. apply exist_proper; intros cur.
  rewrite with_canonical_allowed. split.
  - intros (Hc & rt & Hf & H). exists rt. split_and!; [done..|].
    destruct (py_eq (dget "owner" rt) _) eqn:Ho; [|done]. destruct (is_true (dget "ready" rt)) eqn:Hr; [|done]. cbn in H.
    destruct (py_eq (dget "effective_transport" rt) _) eqn:Ht; [|done]. split; [by apply py_eq_str| |done].
    destruct (dget "ready" rt) as [|[]| | | | | |]; done.
  - intros (rt & Hc & Hf & [Ho Hr Ht]). split; [done|]. exists rt. split; [done|]. by rewrite Ho, Hr, Ht.
Qed.

(** An effect is authorised exactly when it lies in the frozen scope of the
    Mission, its class is permitted and the permission approved, and AgentDeck owns
    the ready Worker on the effect's transport: each gate on its own canonical
    document, so nothing else any of them holds can grant anything. *)
Theorem authorize_effect_spec effect snapshot policy runtime :
  allowed (authorize_effect effect snapshot policy runtime) = true <->
  exists current frozen pol rt,
    _canonical effect "effect" = Ok current /\ _canonical snapshot "frozen scope" = Ok frozen
    /\ _canonical policy "permission policy" = Ok pol /\ _canonical runtime "runtime ownership" = Ok rt
    /\ in_frozen_scope current frozen /\ permitted current pol /\ runs_for_us current rt.
Proof.
  assert (allowed (authorize_effect effect snapshot policy runtime) = true
          <-> allowed (frozen_scope_gate effect snapshot) = true /\ allowed (permission_policy_gate effect policy) = true
              /\ allowed (runtime_ownership_gate effect runtime) = true) as ->.
  { unfold authorize_effect, find_first. cbn [List.filter].
    set (f := frozen_scope_gate _ _). set (p := permission_policy_gate _ _). set (r := runtime_ownership_gate _ _).
    destruct (allowed f) eqn:H1, (allowed p) eqn:H2, (allowed r) eqn:H3; cbn; rewrite ?H1, ?H2, ?H3; naive_solver. }
  rewrite frozen_scope_allowed, permission_policy_allowed, runtime_ownership_allowed. split.
  - intros ((cur & fr & Hc & Hf & H1) & (cur' & pol & Hc' & Hp & H2) & (cur'' & rt & Hc'' & Hr & H3)).
    exists cur, fr, pol, rt. split_and!; try done; congruence.
  - intros (cur & fr & pol & rt & Hc & Hf & Hp & Hr & H1 & H2 & H3). split_and!; eauto 7.
Qed.
End gate_laws.

(** *** Previews *)

Lemma ascii_chars s : is_ascii s = true ->
  length (chars s) = String.length s /\ (forall c cs, chars s = c :: cs -> starts_cont c = false).
Proof.
  unfold is_ascii. induction s as [|a r IH]; cbn; [done|]. rewrite andb_true_iff. intros [Ha Hr].
  destruct (IH Hr) as [Hl Hc]. apply N.ltb_lt in Ha.
  assert (is_cont a = false) as Hn by (unfold is_cont; destruct (N.leb_spec 128 (byte_of a)); [lia|done]).
  destruct (chars r) as [|c cs] eqn:E; cbn in *; [split; [lia|]|rewrite (Hc c cs) by done; cbn; split; [lia|]];
    intros c' cs' [= <- <-]; done.
Qed.

Lemma hex_is_ascii s : all_ascii is_lower_hex s = true -> is_ascii s = true.
Proof.
  unfold is_ascii. induction s as [|a r IH]; cbn; [done|]. rewrite !andb_true_iff. intros [Ha Hr]. split; [|by apply IH].
  unfold is_lower_hex in Ha. apply N.ltb_lt. repeat (apply orb_true_iff in Ha as [Ha|Ha]; [|]); 
    apply andb_true_iff in Ha as [_ Ha%N.leb_le]; lia.
Qed.

Section preview_laws.
Context {env : LeaseEnv} {laws : LeaseEnvLaws} {ft : FloatText} {ftlaws : FloatTextLaws} {lim : RecursionLimits}.

(** What the confirmation of an action needs of the preview it names. *)
Record preview_authorises (p : dict) (action : string) (facts generation : pyval) (t : Z) : Prop := {
  pa_fields : keys_are (expected_fields p) p = true;
  pa_pending : dget "state" p = PStr "pending";
  pa_action : dget "action" p = PStr action;
  pa_generation : py_eq (dget "generation" p) generation = true;
  pa_now : representable t = true;
  pa_unexpired : exists s e, dget "expires_at" p = PStr s /\ s <> "" /\ fromisoformat (replace_Z s) = Some e
                             /\ representable e = true /\ (t < e)%Z;
  pa_facts : exists text, json_dumps_sorted facts = Ok text /\ is_dict facts = true
                          /\ dget "execution_digest" p = PStr (sha256_hex text)
}.

Definition consumed_at (t : Z) (p : dict) : dict :=
  dset "consumed_at" (PStr (isoformat t)) (dset "state" (PStr "consumed") p).

Lemma execution_digest_Ok facts h : execution_digest facts = Ok h ->
  exists text, json_dumps_sorted facts = Ok text /\ is_dict facts = true /\ h = sha256_hex text.
Proof.
  unfold execution_digest. destruct facts; try done. destruct (json_dumps_sorted _) as [text|]; [|done].
  intros [= <-]. by exists text.
Qed.

Lemma binding_fields p : dget "execution_digest" (preview_binding p) = dget "execution_digest" p
  /\ dget "expires_at" (preview_binding p) = dget "expires_at" p /\ dget "state" (preview_binding p) = dget "state" p.
Proof. done. Qed.

Lemma consume_Ok p action facts generation now p' :
  consume_governance_preview p action facts generation now = Ok p' ->
  exists t, now = Some t /\ preview_authorises p action facts generation t /\ p' = consumed_at t p.
Proof.
  unfold consume_governance_preview, consume_preview_binding, validate_preview_execution, _timestamp. intros H.
  destruct (binding_fields p) as (E1 & E2 & E3). rewrite E1, E2, E3 in H.
  apply bind_Ok in H as ([] & H1 & H). apply bind_Ok in H as ([] & H2 & H). apply bind_Ok in H as ([] & H3 & H).
  apply bind_Ok in H as ([] & H4 & H). apply bind_Ok in H as (c & Hc & [= <-]). destruct now as [t|]; [|by inv_ok].
  apply bind_Ok in Hc as (b & Hb & Hc). apply bind_Ok in Hc as (text & Ht & [= <-]).
  apply bind_Ok in Hb as ([] & H5 & Hb). apply bind_Ok in Hb as (e & He & Hb). apply bind_Ok in Hb as (cur & Hcur & Hb).
  apply bind_Ok in Hb as ([] & H6 & Hb).
  unfold to_utc in Hcur. destruct (representable t) eqn:Hrt; [|done]. injection Hcur as <-.
  unfold utc_text, to_utc in Ht. rewrite Hrt in Ht. injection Ht as <-.
  destruct (dget "expires_at" p) as [| | | |s| | |] eqn:Hexp; try done. apply bind_Ok in He as ([] & H7 & He).
  destruct (fromisoformat (replace_Z s)) as [e'|] eqn:Hf; [|done]. unfold to_utc in He.
  destruct (representable e') eqn:Hre; [|done]. injection He as ->.
  destruct (dget "execution_digest" p) as [| | | |dg| | |] eqn:Hd; try done. apply bind_Ok in Hb as ([] & H8 & Hb).
  destruct (execution_digest facts) as [actual|er] eqn:Hx; [|by destruct (value_error er)].
  apply bind_Ok in Hb as ([] & H9 & Hb). apply bind_Ok in Hb as ([] & H10 & [= <-]).
  apply raise_if_Ok in H1, H2, H3, H4, H5, H6, H7, H8, H9, H10.
  apply negb_false_iff in H1, H2, H3, H4, H5, H8, H9, H10.
  apply execution_digest_Ok in Hx as (txt & Htxt & Hdict & ->).
  exists t. split; [done|]. split; [split; try done|].
  - by apply py_eq_str.
  - by apply py_eq_str.
  - exists s, e. apply String.eqb_neq in H7. apply Z.leb_gt in H6. done.
  - exists txt. apply String.eqb_eq in H10. by subst.
  - by rewrite !dget_dset.
Qed.

Lemma consume_authorised p action facts generation t : preview_authorises p action facts generation t ->
  consume_governance_preview p action facts generation (Some t) = Ok (consumed_at t p).
Proof.
  intros [Hf Hs Ha Hg Hn (s & e & He & Hne & Hp & Hr & Hlt) (text & Ht & Hd & Hdg)].
  destruct (sha256_hex_form text) as [Hlen Hhex]. pose proof (hex_is_ascii _ Hhex) as Hascii.
  unfold consume_governance_preview, consume_preview_binding, validate_preview_execution, _timestamp.
  destruct (binding_fields p) as (E1 & E2 & E3). rewrite E1, E2, E3, Hf, Hs, Ha, Hg, Hdg, He.
  rewrite !(proj2 (py_eq_str _ _) eq_refl). cbn [negb raise_if mbind result_bind].
  assert (is_form is_sha256 (PStr (sha256_hex text)) = true) as ->.
  { unfold is_sha256, hex_id. cbn. rewrite Hhex. by rewrite Hlen. }
  cbn [negb raise_if mbind result_bind]. apply String.eqb_neq in Hne. rewrite Hne, Hp. unfold to_utc. rewrite Hr, Hn.
  cbn [negb raise_if mbind result_bind]. apply Z.leb_gt in Hlt. rewrite Hlt. cbn [negb raise_if mbind result_bind].
  unfold py_len. rewrite (proj1 (ascii_chars _ Hascii)), Hlen. change (Z.of_nat 64 =? 64)%Z with true. cbn [negb raise_if mbind result_bind].
  unfold execution_digest. destruct facts; try done. rewrite Ht. cbn [negb raise_if mbind result_bind].
  rewrite Hascii, String.eqb_refl. cbn [andb negb raise_if mbind result_bind]. unfold utc_text, to_utc. rewrite Hn.
  cbn [fmap result_fmap mbind result_bind]. by rewrite !dget_dset.
Qed.

(** A consumed preview authorises nothing. *)
Lemma consumed_refused t p action facts generation now p' :
  consume_governance_preview (consumed_at t p) action facts generation now <> Ok p'.
Proof.
  intros (t' & _ & [_ Hs] & _)%consume_Ok. unfold consumed_at in Hs. by rewrite !dget_dset in Hs.
Qed.

(** What a new preview is. *)
Lemma preview_built action facts generation now ttl p : build_governance_preview action facts generation now ttl = Ok p ->
  exists t d ttl' text,
    now = Some t /\ representable t = true /\ preview_ttl ttl = Ok ttl' /\ representable (t + timedelta_us ttl')%Z = true
    /\ action ∈ _ACTIONS /\ is_generation generation = true
    /\ _canonical (PDict facts) "governance facts" = Ok d /\ json_dumps_sorted (PDict d) = Ok text
    /\ p = [("action", PStr action); ("generation", generation); ("execution_digest", PStr (sha256_hex text));
            ("previewed_at", PStr (isoformat t)); ("expires_at", PStr (isoformat (t + timedelta_us ttl')%Z));
            ("state", PStr "pending")].
Proof.
  unfold build_governance_preview. intros H. apply bind_Ok in H as ([] & H1 & H). apply bind_Ok in H as ([] & H2 & H).
  destruct now as [t|]; [|done]. apply bind_Ok in H as (ttl' & H3 & H). apply bind_Ok in H as (d & H4 & H).
  apply bind_Ok in H as (t' & H5 & H). apply bind_Ok in H as (h & H6 & H). apply bind_Ok in H as (x & H7 & [= <-]).
  unfold to_utc in H5, H7. destruct (representable t) eqn:Hr; [|done]. injection H5 as <-.
  destruct (representable (t + timedelta_us ttl')) eqn:Hx; [|done]. injection H7 as <-.
  apply execution_digest_Ok in H6 as (text & Ht & _ & ->). apply raise_if_Ok in H1, H2. apply negb_false_iff in H1, H2.
  apply in_strs_spec in H1. by exists t, d, ttl', text.
Qed.

Lemma dupdate_append d : forall acc, NoDup (dkeys acc ++ dkeys d) -> dupdate d acc = acc ++ d.
Proof.
  induction d as [|[k v] d IH]; intros acc Hn; [by rewrite app_nil_r|].
  change (dupdate ((k, v) :: d) acc) with (dupdate d (dset k v acc)).
  assert (Hk : k ∉ dkeys acc).
  { apply NoDup_app in Hn as (_ & Hn & _). intros Hk. apply (Hn k Hk). by left. }
  assert (dset k v acc = acc ++ [(k, v)]) as ->.
  { clear IH Hn. induction acc as [|[k' v'] acc IHa]; [done|]. cbn in Hk |- *. rewrite elem_of_cons in Hk.
    destruct (String.eqb_spec k k'); [tauto|]. f_equal. apply IHa. tauto. }
  rewrite IH; [by rewrite <- app_assoc|]. unfold dkeys in *. rewrite fmap_app, <- app_assoc. done.
Qed.

(** Canonical facts are the facts with their keys sorted. *)
Lemma canonical_sorted facts label d : _canonical facts label = Ok d -> json_ok facts = true -> nest facts <= scanner_depth ->
  sort_val facts = PDict d.
Proof.
  unfold _canonical. destruct facts as [| | | | | | |f]; try done. destruct (json_dumps_sorted _) as [text|] eqn:Ht; [|done].
  intros H Hok Hn. apply bind_Ok in H as ([] & _ & H). unfold json_loads_last in H.
  rewrite (loads_dumps (fun pairs => Some (PDict (dupdate pairs [])))
             (fun d' Hd' => f_equal (fun x => Some (PDict x)) (dupdate_append d' [] Hd')) scanner_depth _ _ Hok Hn Ht) in H.
  cbn [sort_val] in H |- *. by injection H as <-.
Qed.

(** The facts a preview is built for, printed and read back, have their digest. *)
Lemma canonical_dumps facts label d : _canonical facts label = Ok d -> json_ok facts = true -> nest facts <= scanner_depth ->
  json_dumps_sorted (PDict d) = json_dumps_sorted facts.
Proof. intros Hc Hok Hn. by rewrite <- (canonical_sorted _ _ _ Hc Hok Hn), dumps_sort_val. Qed.

(** C23: A preview authorises its action, for its generation, on facts with its
    digest, until it expires, and nothing else; the preview that is left when it
    is consumed authorises nothing. *)
Theorem preview_authorises_its_action action facts generation now ttl p : (forall t, replace_Z (isoformat t) = isoformat t) ->
  (forall t, isoformat t <> "") ->
  json_ok (PDict facts) = true -> nest (PDict facts) <= scanner_depth ->
  build_governance_preview action facts generation now ttl = Ok p ->
  exists t ttl' text, now = Some t /\ preview_ttl ttl = Ok ttl' /\ json_dumps_sorted (PDict facts) = Ok text
  /\ forall action' facts' generation' t', representable t' = true ->
       ((exists p', consume_governance_preview p action' facts' generation' (Some t') = Ok p')
        <-> action' = action /\ py_eq generation generation' = true /\ (t' < t + timedelta_us ttl')%Z
            /\ exists text', is_dict facts' = true /\ json_dumps_sorted facts' = Ok text' /\ sha256_hex text' = sha256_hex text)
       /\ forall p' action2 facts2 generation2 now2 p2,
            consume_governance_preview p action' facts' generation' (Some t') = Ok p' ->
            consume_governance_preview p' action2 facts2 generation2 now2 <> Ok p2.
Proof.
  intros HZ Hne Hok Hn Hb. destruct (preview_built _ _ _ _ _ _ Hb) as (t & d & ttl' & text & -> & Hr & Httl & Hx & _ & _ & Hc & Ht & ->).
  exists t, ttl', text. rewrite (canonical_dumps _ _ _ Hc Hok Hn) in Ht. split_and!; [done..|]. intros a' f' g' t' Hr'. split.
  - split.
    + intros (p' & (t1 & [= <-] & [_ _ Ha Hg _ (s & e & He & _ & Hp & _ & Hlt) (text' & Ht' & Hd & Hdg)] & _)%consume_Ok).
      injection Ha as <-. injection He as <-. rewrite HZ, isoformat_parse in Hp by done. injection Hp as <-.
      injection Hdg as Hdg. split_and!; try done. by exists text'.
    + intros (-> & Hg & Hlt & text' & Hd & Ht' & Hs). eexists. apply consume_authorised. split; try done.
      * eexists _, _. split; [reflexivity|]. split; [apply Hne|]. rewrite HZ, isoformat_parse by done. done.
      * exists text'. split_and!; try done. by rewrite Hs.
  - intros p' a2 f2 g2 n2 p2 (t1 & _ & _ & ->)%consume_Ok. apply consumed_refused.
Qed.
End preview_laws.

(** ** Witnesses *)

#[local] Existing Instance sample_env.
#[local] Existing Instance sample_laws.
#[local] Existing Instance sample_float_text.
#[local] Existing Instance sample_float_laws.
#[local] Existing Instance sample_limits.

Lemma replace_Z_bits p : replace_Z (write_bits p) = write_bits p.
Proof. induction p; cbn; by rewrite ?IHp. Qed.

Definition sample_facts : dict := [("mission_id", PStr "mis_0123456789ab"); ("mission_status", PStr "running"); ("attempts", PList [])].

Lemma preview_authorises_its_action_witness : exists p p',
  build_governance_preview "mission_pause" sample_facts (PInt 1) (Some 0%Z) (PInt 60) = Ok p
  /\ consume_governance_preview p "mission_pause" (PDict sample_facts) (PInt 1) (Some 59000000%Z) = Ok p'
  /\ forall p2, consume_governance_preview p "mission_resume" (PDict sample_facts) (PInt 1) (Some 59000000%Z) <> Ok p2.
Proof.
  assert (exists p, build_governance_preview "mission_pause" sample_facts (PInt 1) (Some 0%Z) (PInt 60) = Ok p) as [p Hp]
    by (eexists; vm_compute; reflexivity).
  destruct (preview_authorises_its_action "mission_pause" sample_facts (PInt 1) (Some 0%Z) (PInt 60) p) as
    (t & ttl & text & [= <-] & Httl & Ht & H).
  - intros t. apply replace_Z_bits.
  - intros t. cbn. by destruct (Z.to_pos (t + 1)).
  - done.
  - apply Nat.leb_le. by vm_compute.
  - exact Hp.
  - injection Httl as <-.
    destruct (H "mission_pause" (PDict sample_facts) (PInt 1) 59000000%Z ltac:(done)) as [[_ [p' Hc]] _].
    { split_and!; [done..|]. by exists text. }
    exists p, p'. split_and!; [done..|]. intros p2 Hc2.
    destruct (H "mission_resume" (PDict sample_facts) (PInt 1) 59000000%Z ltac:(done)) as [[[Ha _] _] _]; [by exists p2|done].
Defined.
