(* ===== verification/Snapshot.v ===== *)
(** * Frozen execution snapshots ([validate_execution_snapshot] of [state.py])

    What a Mission was confirmed to do: its steps, its Workers, the approval
    policy and the limits, each part under its own hash and the whole under the
    execution hash that every attempt carries. *)
From S2P Require Import Prelude PyStr PyVal ReviewVerdict Lease Json Attempt.

Definition MISSION_SCHEMA_VERSION : string := "mission/v1".
Definition SEMANTIC_AUTHORITY_SCHEMA_VERSION : string := "mission-semantic-authority/v1".

Definition _EXECUTION_SNAPSHOT_FIELDS : list string :=
  ["mission"; "workers"; "policy"; "limits"; "mission_hash"; "policy_hash"; "execution_hash"].
Definition legacy_mission_fields : list string :=
  ["mission_id"; "schema_version"; "plan_id"; "plan_hash"; "goal_hash"; "summary_hash"; "steps"; "project_scope_hash";
   "action_classes"; "skill_provenance"; "memory_provenance"; "declared_tests_hash"; "acceptance_criteria_hash"].
Definition snapshot_step_fields : list string := ["step_id"; "position"; "agent_id"; "role"; "task_hash"].
Definition snapshot_worker_fields : list string :=
  ["agent_id"; "role"; "provider"; "workspace_mode"; "configured_transport"; "capability_provenance"; "runtime_identity_hash"].

Definition is_hash (v : pyval) : bool := is_form content_hash_form v.
Definition hash_or_none (v : pyval) : bool := is_none v || is_hash v.
Definition is_text (v : pyval) : bool := is_form nonempty v.
Definition plan_id_form : string -> bool := hex_id "pln_" 12.

(** [type(v) is int and v >= minimum] *)
Definition int_from (minimum : Z) (v : pyval) : bool := match v with PInt z => (minimum <=? z)%Z | _ => false end.
(** [type(v) is list] *)
Definition list_or (e : exn) (v : pyval) : result (list pyval) := match v with PList l => Ok l | _ => Err e end.
Definition dict_or (e : exn) (v : pyval) : result dict := match v with PDict d => Ok d | _ => Err e end.

Definition mission_invalid : exn := ValueError "execution snapshot mission is invalid".
Definition workers_invalid : exn := ValueError "execution snapshot workers are invalid".
Definition policy_invalid : exn := ValueError "execution snapshot policy is invalid".
Definition limits_invalid : exn := ValueError "execution snapshot limits are invalid".

(** ** The parts *)

Definition check_snapshot_mission (semantic : bool) (mission : dict) : result unit :=
  let fields := legacy_mission_fields ++ if semantic then ["semantic_authority_schema_version"; "semantic_authority_hash"] else [] in
  _ ← raise_if (negb (keys_are fields mission) || negb (is_canonical_mission_id (dget "mission_id" mission))
                || negb (py_eq (dget "schema_version" mission) (PStr MISSION_SCHEMA_VERSION))
                || negb (is_form plan_id_form (dget "plan_id" mission))) mission_invalid;
  _ ← raise_if (negb (forallb (fun f => is_hash (dget f mission)) ["plan_hash"; "goal_hash"; "summary_hash"; "project_scope_hash"]))
               mission_invalid;
  _ ← raise_if (semantic && (negb (py_eq (dget "semantic_authority_schema_version" mission) (PStr SEMANTIC_AUTHORITY_SCHEMA_VERSION))
                             || negb (is_hash (dget "semantic_authority_hash" mission)))) mission_invalid;
  _ ← raise_if (negb (forallb (fun f => hash_or_none (dget f mission)) ["declared_tests_hash"; "acceptance_criteria_hash"]))
               mission_invalid;
  raise_if (negb (py_eq (dget "action_classes" mission) (PList [PStr "worker_task"; PStr "declared_local_verification"])))
           mission_invalid.

(** Step [position] of the snapshot; the agent that is to do it. *)
Definition check_step (semantic : bool) (position : nat) (step : pyval) : result string :=
  match step with
  | PDict d =>
      let fields := snapshot_step_fields ++ if semantic then ["semantic_step_hash"] else [] in
      _ ← raise_if (negb (keys_are fields d) || negb (py_eq (dget "step_id" d) (PStr ("step_" +:+ pretty position)))
                    || negb (match dget "position" d with PInt z => (z =? Z.of_nat position)%Z | _ => false end)
                    || negb (is_text (dget "agent_id" d)) || negb (is_text (dget "role" d)) || negb (is_hash (dget "task_hash" d))
                    || semantic && negb (is_hash (dget "semantic_step_hash" d))) mission_invalid;
      Ok (field "agent_id" d)
  | _ => Err mission_invalid
  end.
Fixpoint check_steps (semantic : bool) (position : nat) (steps : list pyval) : result (list string) :=
  match steps with
  | [] => Ok []
  | step :: steps => agent ← check_step semantic position step; agents ← check_steps semantic (S position) steps; Ok (agent :: agents)
  end.

Definition check_worker (worker : pyval) : result string :=
  match worker with
  | PDict d =>
      _ ← raise_if (negb (keys_are snapshot_worker_fields d)
                    || negb (forallb (fun f => is_text (dget f d)) ["agent_id"; "role"; "provider"; "workspace_mode"]))
                   workers_invalid;
      known ← in_str_set (dget "configured_transport" d) TRANSPORTS;
      _ ← raise_if (negb known || negb (is_hash (dget "runtime_identity_hash" d))) workers_invalid;
      match dget "capability_provenance" d with
      | PDict p =>
          _ ← raise_if (negb (keys_are ["source"; "transport"; "adapter_configuration"] p)
                        || negb (py_eq (dget "source" p) (PStr "project_config"))
                        || negb (py_eq (dget "transport" p) (dget "configured_transport" d))) workers_invalid;
          known ← in_str_set (dget "adapter_configuration" p) ["present"; "not_applicable"];
          _ ← raise_if (negb known || py_eq (dget "configured_transport" d) (PStr "acp")
                                      && negb (py_eq (dget "adapter_configuration" p) (PStr "present"))) workers_invalid;
          Ok (field "agent_id" d)
      | _ => Err workers_invalid
      end
  | _ => Err workers_invalid
  end.

Definition check_policy (policy : dict) : result unit :=
  _ ← raise_if (negb (keys_are ["approval_mode"; "autonomous_allowed_agents"; "autonomous_max_approvals"; "policy_source"] policy))
               policy_invalid;
  known ← in_str_set (dget "approval_mode" policy) ["confirm"; "approve"; "auto_approve"; "autonomous"];
  _ ← raise_if (negb known) policy_invalid;
  agents ← list_or policy_invalid (dget "autonomous_allowed_agents" policy);
  raise_if (negb (forallb is_text agents) || negb (int_from 0 (dget "autonomous_max_approvals" policy))
            || negb (py_eq (dget "policy_source" policy) (PStr "project_config"))) policy_invalid.

Definition check_limits (steps : list pyval) (limits : dict) : result unit :=
  let count := PInt (Z.of_nat (length steps)) in
  raise_if (negb (keys_are ["step_count"; "timeout_seconds"; "retry_limit"; "worker_budget"] limits)
            || negb (forallb (fun f => int_from f.2 (dget f.1 limits))
                       [("step_count", 1%Z); ("timeout_seconds", 1%Z); ("retry_limit", 0%Z); ("worker_budget", 1%Z)])
            || negb (py_eq (dget "step_count" limits) count) || negb (py_eq (dget "worker_budget" limits) count)) limits_invalid.

Definition check_skill (item : pyval) : result unit :=
  match item with
  | PDict d =>
      _ ← raise_if (negb (keys_are ["agent_id"; "name_hash"; "content_hash"; "source_kind"] d) || negb (is_text (dget "agent_id" d)))
                   mission_invalid;
      known ← in_str_set (dget "source_kind" d) ["builtin"; "project"; "external"];
      raise_if (negb known || negb (is_hash (dget "name_hash" d)) || negb (is_hash (dget "content_hash" d))) mission_invalid
  | _ => Err mission_invalid
  end.

(** The scopes seen so far; each occurs once. *)
Definition check_memory (seen : list string) (item : pyval) : result (list string) :=
  match item with
  | PDict d =>
      _ ← raise_if (negb (keys_are ["scope"; "content_hash"; "line_count"; "byte_count"] d)) mission_invalid;
      known ← in_str_set (dget "scope" d) ["project"; "global"];
      _ ← raise_if (negb known || in_strs (field "scope" d) seen || negb (is_hash (dget "content_hash" d))
                    || negb (int_from 0 (dget "line_count" d)) || negb (int_from 0 (dget "byte_count" d))) mission_invalid;
      Ok (field "scope" d :: seen)
  | _ => Err mission_invalid
  end.

Section snapshot.
Context {env : LeaseEnv} {ft : FloatText}.

Definition hash_matches (stored body : pyval) (e : exn) : result unit :=
  hash ← canonical_snapshot_hash body; raise_if (negb (py_eq stored (PStr hash))) e.

Definition snapshot_body (d : dict) : pyval :=
  PDict ((fun k => (k, dget k d)) <$> ["mission"; "workers"; "policy"; "limits"; "mission_hash"; "policy_hash"]).

Definition validate_execution_snapshot (value : pyval) : result dict :=
  d ← dict_or (ValueError "execution snapshot fields are invalid") value;
  _ ← raise_if (negb (keys_are _EXECUTION_SNAPSHOT_FIELDS d)) (ValueError "execution snapshot fields are invalid");
  _ ← _canonical_snapshot_bytes value;
  mission ← dict_or (ValueError "execution snapshot mission is invalid") (dget "mission" d);
  policy ← dict_or (ValueError "execution snapshot policy is invalid") (dget "policy" d);
  limits ← dict_or (ValueError "execution snapshot limits is invalid") (dget "limits" d);
  workers ← list_or workers_invalid (dget "workers" d);
  _ ← raise_if (Nat.ltb (length workers) 2) workers_invalid;
  let semantic := dmem "semantic_authority_schema_version" mission in
  _ ← check_snapshot_mission semantic mission;
  steps ← list_or mission_invalid (dget "steps" mission);
  _ ← raise_if (match steps with [] => true | _ => false end) mission_invalid;
  step_agents ← check_steps semantic 1 steps;
  worker_ids ← mapR check_worker workers;
  _ ← raise_if (negb (bool_decide (NoDup worker_ids)) || negb (forallb (fun a => in_strs a worker_ids) step_agents)) workers_invalid;
  _ ← check_policy policy;
  _ ← check_limits steps limits;
  skills ← list_or mission_invalid (dget "skill_provenance" mission);
  _ ← mapR check_skill skills;
  memory ← list_or mission_invalid (dget "memory_provenance" mission);
  _ ← foldM check_memory [] memory;
  _ ← hash_matches (dget "mission_hash" d) (PDict mission) (ValueError "execution snapshot mission hash is invalid");
  _ ← hash_matches (dget "policy_hash" d) (PDict policy) (ValueError "execution snapshot policy hash is invalid");
  _ ← hash_matches (dget "execution_hash" d) (snapshot_body d) (ValueError "execution snapshot execution hash is invalid");
  Ok d.
End snapshot.

(** ** Laws *)

Section laws.
Context {env : LeaseEnv} {ft : FloatText}.

Lemma canonical_hash_Ok v h : canonical_snapshot_hash v = Ok h ->
  exists t, json_dumps_sorted v = Ok t /\ h = "sha256:" +:+ sha256_hex t.
Proof.
  unfold canonical_snapshot_hash, _canonical_snapshot_bytes. intros (t & H & [= <-])%bind_Ok.
  apply bind_Ok in H as ([] & _ & H). destruct (json_dumps_sorted v) as [t'|]; [|done]. inv_ok. subst. by exists t.
Qed.

(** What an accepted snapshot promises its clients. *)
Record snapshot_ok (d : dict) (mission : dict) (steps workers : list pyval) (agents ids : list string) : Prop := {
  so_mission : dget "mission" d = PDict mission;
  so_actions : dget "action_classes" mission = PList [PStr "worker_task"; PStr "declared_local_verification"];
  so_workers : dget "workers" d = PList workers;
  so_steps : dget "steps" mission = PList steps;
  so_agents : check_steps (dmem "semantic_authority_schema_version" mission) 1 steps = Ok agents;
  so_ids : mapR check_worker workers = Ok ids;
  so_distinct : NoDup ids;
  so_known : agents ⊆ ids;
  so_hash : exists t, json_dumps_sorted (snapshot_body d) = Ok t /\ dget "execution_hash" d = PStr ("sha256:" +:+ sha256_hex t)
}.

Lemma py_eq_two v a b : py_eq v (PList [PStr a; PStr b]) = true -> v = PList [PStr a; PStr b].
Proof.
  destruct v as [| | | | |l| |]; try done. cbn [py_eq]. intros H. destruct l as [|x [|y [|z l]]]; cbn in H; try done.
  all: repeat (apply andb_true_iff in H as [? H]); try done.
  f_equal. f_equal; [by apply py_eq_str|]. f_equal. by apply py_eq_str.
Qed.

Lemma validate_snapshot_Ok v d : validate_execution_snapshot v = Ok d ->
  v = PDict d /\ exists mission steps workers agents ids, snapshot_ok d mission steps workers agents ids.
Proof.
  unfold validate_execution_snapshot. intros (d' & Hv & H)%bind_Ok. destruct v; try done. injection Hv as ->. inv_ok. subst.
  repeat match goal with
  | H : dict_or _ ?x = Ok _ |- _ => let E := fresh "E" in destruct x eqn:E; try done; injection H as ->
  | H : list_or _ ?x = Ok _ |- _ => let E := fresh "E" in destruct x eqn:E; try done; injection H as ->
  end.
  split; [done|]. do 5 eexists. split_guards.
  match goal with H : hash_matches (dget "execution_hash" _) _ _ = Ok _ |- _ => unfold hash_matches in H; rename H into Hh end.
  inv_ok. split_guards.
  match goal with H : canonical_snapshot_hash (snapshot_body _) = Ok _ |- _ => apply canonical_hash_Ok in H as (t & Ht & ->) end.
  match goal with H : check_snapshot_mission _ _ = Ok _ |- _ => unfold check_snapshot_mission in H end.
  inv_ok. split_guards.
  split; try done.
  - by apply py_eq_two.
  - match goal with H : forallb (fun a => in_strs a _) _ = true |- _ => intros x Hx; rewrite forallb_elem in H; by apply in_strs_spec, H end.
  - exists t. split; [done|]. by apply py_eq_str.
Qed.

(** The steps are numbered from one and each is done by a Worker of the snapshot. *)
Lemma check_steps_nth semantic n steps agents : check_steps semantic n steps = Ok agents ->
  forall i step, steps !! i = Some step -> exists d a, step = PDict d /\ agents !! i = Some a
    /\ dget "step_id" d = PStr ("step_" +:+ pretty (n + i)) /\ dget "position" d = PInt (Z.of_nat (n + i)) /\ dget "agent_id" d = PStr a.
Proof.
  revert n agents. induction steps as [|step steps IH]; intros n agents; [done|]. cbn [check_steps].
  intros (a & Ha & (rest & Hr & [= <-])%bind_Ok)%bind_Ok [|i] x Hx.
  - injection Hx as <-. unfold check_step in Ha. destruct step; try done. inv_ok. subst. split_guards.
    exists d, (field "agent_id" d). rewrite Nat.add_0_r. split; [done|]. split; [done|].
    split; [by apply py_eq_str|]. split.
    + destruct (dget "position" d); try done. f_equal. by apply Z.eqb_eq.
    + unfold field, is_text in *. by destruct (dget "agent_id" d).
  - rewrite <- Nat.add_succ_comm. cbn. by apply (IH _ _ Hr).
Qed.

(** Two accepted snapshots with one execution hash are the same document, up to
    the order of keys, unless two texts have one SHA-256. *)
Lemma execution_hash_identifies_snapshot {laws : FloatTextLaws} v w d d' :
  validate_execution_snapshot v = Ok d -> validate_execution_snapshot w = Ok d' ->
  json_ok (snapshot_body d) = true -> json_ok (snapshot_body d') = true ->
  dget "execution_hash" d = dget "execution_hash" d' ->
  sort_val (snapshot_body d) = sort_val (snapshot_body d')
  \/ exists t t', t <> t' /\ sha256_hex t = sha256_hex t'.
Proof.
  intros (_ & m & st & wk & ag & ids & H)%validate_snapshot_Ok (_ & m' & st' & wk' & ag' & ids' & H')%validate_snapshot_Ok Hok Hok' He.
  destruct (so_hash _ _ _ _ _ _ H) as (t & Ht & Hh), (so_hash _ _ _ _ _ _ H') as (t' & Ht' & Hh').
  rewrite Hh, Hh' in He. injection He as He. destruct (String.eqb_spec t t') as [->|Hne]; [left|right; by exists t, t'].
  set (n := Nat.max (nest (snapshot_body d)) (nest (snapshot_body d'))).
  pose proof (loads_dumps (fun d => Some (PDict d)) (fun d _ => eq_refl) n _ _ Hok ltac:(lia) Ht) as E.
  pose proof (loads_dumps (fun d => Some (PDict d)) (fun d _ => eq_refl) n _ _ Hok' ltac:(lia) Ht') as E'. congruence.
Qed.
End laws.
