(* ===== verification/AttemptStore.v ===== *)
(** * Mission attempts: the operations of the store ([state.py])

    Claiming and releasing the admission of an attempt, recording that it was
    submitted or that its outcome is unknown, stopping it before its dispatch,
    and recording its result with the Worker's handoff.  Every operation reads
    the saved document and the event journal under the store's lock, validates
    both, changes one attempt, appends its events to the outbox and saves.

    What the lock, the clock and [uuid4] give an operation is a [store_world]:
    the journal as it is read, the texts of the instants, the new identities. *)
From S2P Require Import Prelude PyStr PyVal ReviewGroup Json Protocol Handoff Lease Store Attempt.

Record store_world := StoreWorld {
  sw_journal : option string;
  sw_now : string; sw_claim : string; sw_event : string;
  sw_result_time : string; sw_result_event : string;
  sw_reply : string; sw_reply_time : string; sw_reply_event : string
}.

Section operations.
Context {env : LeaseEnv} {ft : FloatText} {lim : RecursionLimits} {repr : PyRepr}.
Variable w : store_world.

(** ** Reading the attempts *)

Definition attempts_table (doc : dict) : pyval := match dlookup "mission_attempts" doc with Some v => v | None => PList [] end.
Definition event_outbox (doc : dict) : pyval :=
  match dlookup "protocol_event_outbox" doc with Some v => v | None => PList [] end.

(** The rows, validated one by one and together. *)
Definition load_attempts (doc : dict) : result (list pyval * list dict) :=
  match attempts_table doc with
  | PList rows =>
      validated ← mapR _validate_mission_attempt_record rows;
      _ ← _require_unique_mission_attempt_lineage validated;
      Ok (rows, validated)
  | _ => Err (ValueError "mission attempt state invalid")
  end.

Definition attempts_with (attempt_id : pyval) (attempts : list dict) : list dict :=
  List.filter (fun a => py_eq (dget "attempt_id" a) attempt_id) attempts.
Definition one_attempt (attempt_id : pyval) (attempts : list dict) : result dict :=
  match attempts_with attempt_id attempts with
  | [a] => Ok a
  | [] => Err (KeyError (text_of attempt_id))
  | _ => Err (ValueError "duplicate mission attempt identity")
  end.

Definition mission_attempt_by_id (doc : dict) (attempt_id : pyval) : result dict :=
  _ ← raise_if (negb (is_form attempt_id_form attempt_id)) (ValueError "mission attempt identity invalid");
  match attempts_table doc with
  | PList rows => validated ← mapR _validate_mission_attempt_record rows; one_attempt attempt_id validated
  | _ => Err (ValueError "mission attempt state invalid")
  end.

(** ** Writing one attempt and its events *)

Definition event_doc (id event_type now : string) (payload : dict) : pyval :=
  PDict [("event_id", PStr id); ("event_type", PStr event_type); ("created_at", PStr now); ("payload", PDict payload)].

Definition event_identity (event : pyval) : result string :=
  match validate_daemon_event_record event with
  | Err (LeaseError _) => Err (ValueError "protocol event record is invalid")
  | r => r
  end.

(** The new event has an identity of its own. *)
Definition check_new_event (outbox event : pyval) : result unit :=
  outbox_ids ← _validated_protocol_event_outbox_ids outbox;
  journal_ids ← _strict_protocol_journal_event_ids (sw_journal w);
  id ← event_identity event;
  raise_if (in_strs id outbox_ids || in_strs id journal_ids) (ValueError "duplicate protocol event identity").

Definition _append_recovery_audit_locked (outbox event : pyval) : result (list pyval) :=
  id ← event_identity event;
  outbox_ids ← _validated_protocol_event_outbox_ids outbox;
  _ ← raise_if (in_strs id outbox_ids) (ValueError "duplicate protocol event identity");
  journal_ids ← _strict_protocol_journal_event_ids (sw_journal w);
  _ ← raise_if (in_strs id journal_ids) (ValueError "duplicate protocol event identity");
  match outbox with PList l => Ok (l ++ [event]) | _ => Err AttributeError end.

Definition replace_attempt (attempt_id : pyval) (candidate : dict) (attempts : list dict) : list dict :=
  (fun a => if py_eq (dget "attempt_id" a) attempt_id then candidate else a) <$> attempts.

(** [attempts[index] = candidate] at the first row with the identity. *)
Fixpoint replace_row (attempt_id : pyval) (candidate : dict) (rows : list pyval) : list pyval :=
  match rows with
  | [] => []
  | PDict d :: rows => if py_eq (dget "attempt_id" d) attempt_id then PDict candidate :: rows
                       else PDict d :: replace_row attempt_id candidate rows
  | v :: rows => v :: replace_row attempt_id candidate rows
  end.

Definition saved (rows events : list pyval) (doc : dict) : dict :=
  dset "protocol_event_outbox" (PList events) (dset "mission_attempts" (PList rows) doc).

(** The history of the document with the candidate and its event in place is
    valid; then both are saved. *)
Definition commit_attempt (doc : dict) (attempt_id : pyval) (candidate : dict) (event : pyval) : result dict :=
  '(rows, validated) ← load_attempts doc;
  match event_outbox doc with
  | PList outbox =>
      _ ← _protocol_admission_claim_history (sw_journal w) (PList (outbox ++ [event]))
            (replace_attempt attempt_id candidate validated);
      Ok (saved (replace_row attempt_id candidate rows) (outbox ++ [event]) doc)
  | _ => Err (ValueError "protocol event outbox is invalid")
  end.

(** ** Claim and release of the admission *)

Definition _transition_mission_attempt_admission (doc : dict) (attempt_id dispatch_key : pyval)
    (target_state : string) (expected_claim_id : pyval) : result (dict * dict) :=
  let invalid := ValueError "mission attempt admission transition is invalid" in
  let claiming := String.eqb target_state "admitting" in
  _ ← raise_if (negb (is_form attempt_id_form attempt_id) || negb (is_form dispatch_key_form dispatch_key)
                || negb (in_strs target_state ["admitting"; "prepared"])
                || negb (is_none expected_claim_id || is_form claim_id_form expected_claim_id)
                || claiming && negb (is_none expected_claim_id)
                || String.eqb target_state "prepared" && is_none expected_claim_id) invalid;
  '(_, validated) ← load_attempts doc;
  history ← _protocol_admission_claim_history (sw_journal w) (event_outbox doc) validated;
  persisted ← one_attempt attempt_id validated;
  _ ← raise_if (negb (py_eq (dget "dispatch_key" persisted) dispatch_key))
               (ValueError "mission attempt admission lineage drift");
  _ ← raise_if (String.eqb target_state "prepared" && negb (py_eq (dget "admission_claim_id" persisted) expected_claim_id))
               (ValueError "mission attempt admission claim drift");
  _ ← raise_if (negb (state_is (if claiming then "prepared" else "admitting") persisted)) invalid;
  _ ← raise_if (claiming && (in_strs (sw_claim w) (omap claim_of validated)
                             || bool_decide (is_Some (h_lineage history !! sw_claim w))))
               (ValueError "duplicate mission admission claim identity");
  candidate ← _validate_mission_attempt_record
    (PDict (dupdate [("state", PStr target_state);
                     ("updated_at", if claiming then PStr (sw_now w) else dget "created_at" persisted);
                     ("admission_claim_id", if claiming then PStr (sw_claim w) else PNone)] persisted));
  let event := event_doc (sw_event w) ("mission_attempt_admission_" +:+ if claiming then "claimed" else "released") (sw_now w)
    [("attempt_id", attempt_id); ("mission_id", dget "mission_id" candidate); ("step_id", dget "step_id" candidate);
     ("dispatch_key", dispatch_key);
     ("admission_claim_id", if claiming then dget "admission_claim_id" candidate else expected_claim_id)] in
  _ ← check_new_event (event_outbox doc) event;
  doc' ← commit_attempt doc attempt_id candidate event;
  Ok (doc', candidate).

Definition claim_mission_attempt_admission (doc : dict) (attempt_id dispatch_key : pyval) : result (dict * dict) :=
  _transition_mission_attempt_admission doc attempt_id dispatch_key "admitting" PNone.

Definition release_mission_attempt_admission (doc : dict) (attempt_id dispatch_key expected_claim_id : pyval)
    : result (dict * dict) :=
  _transition_mission_attempt_admission doc attempt_id dispatch_key "prepared" expected_claim_id.

(** ** Stop before the dispatch *)

Definition interrupt_prepared_mission_attempt (doc : dict) (attempt_id dispatch_key : pyval)
    (target_state : string) (reason : pyval) : result (dict * dict) :=
  let invalid := ValueError "mission attempt pre-dispatch stop is invalid" in
  _ ← raise_if (negb (is_form attempt_id_form attempt_id) || negb (is_form dispatch_key_form dispatch_key)
                || negb (in_strs target_state ["cancelled"; "interrupted"])
                || negb (is_form (fun r => negb (blank r)) reason)) invalid;
  '(_, attempts) ← load_attempts doc;
  _ ← _protocol_admission_claim_history (sw_journal w) (event_outbox doc) attempts;
  persisted ← match attempts_with attempt_id attempts with
              | [a] => Ok a
              | _ => Err (KeyError (text_of attempt_id))
              end;
  _ ← raise_if (negb (py_eq (dget "dispatch_key" persisted) dispatch_key) || negb (state_is "prepared" persisted)
                || negb (is_none (dget "admission_claim_id" persisted))
                || negb (is_none (dget "receipt_summary" persisted))) invalid;
  candidate ← _validate_mission_attempt_record
    (PDict (dupdate [("state", PStr target_state); ("updated_at", PStr (sw_now w)); ("terminal_reason", reason)] persisted));
  let event := event_doc (sw_event w) PRE_DISPATCH_STOPPED (sw_now w)
    [("attempt_id", attempt_id); ("mission_id", dget "mission_id" candidate); ("step_id", dget "step_id" candidate);
     ("dispatch_key", dispatch_key); ("state", PStr target_state); ("reason", reason)] in
  doc' ← commit_attempt doc attempt_id candidate event;
  Ok (doc', candidate).

(** ** Submission and unknown outcomes *)

Definition receipt_evidence_ok (target_state : string) (dispatch_key observed reason : pyval) (receipt_summary : pyval)
    : result unit :=
  let ambiguous := String.eqb target_state "ambiguous" in
  let acp := _is_acp_completion_ambiguity_reason reason in
  _ ← raise_if (negb (in_strs target_state ["submitted"; "ambiguous"]))
               (ValueError "mission attempt receipt transition is invalid");
  named ← (if ambiguous then in_str_set reason ["receipt_persistence_unknown"; "admission_outcome_unknown"] else Ok true);
  _ ← raise_if (ambiguous && negb named && negb acp) (ValueError "mission attempt ambiguity reason is invalid");
  _ ← raise_if (String.eqb target_state "submitted" && (negb (is_none reason) || negb (py_eq observed dispatch_key)))
               (ValueError "mission attempt receipt evidence is invalid");
  _ ← raise_if (ambiguous && py_eq reason (PStr "receipt_persistence_unknown") && is_none observed)
               (ValueError "mission attempt receipt ambiguity evidence is invalid");
  _ ← raise_if (ambiguous && py_eq reason (PStr "admission_outcome_unknown")
                && (negb (is_none observed) || negb (py_eq receipt_summary (PStr "admission outcome unknown"))))
               (ValueError "mission attempt admission ambiguity evidence is invalid");
  raise_if (ambiguous && acp && negb (py_eq observed dispatch_key))
           (ValueError "mission attempt completion ambiguity evidence is invalid").

(** The states an attempt can be in when the transition is recorded. *)
Definition receipt_sources (target_state : string) (reason : pyval) : list string :=
  if String.eqb target_state "submitted" || py_eq reason (PStr "admission_outcome_unknown") then ["admitting"]
  else if _is_acp_completion_ambiguity_reason reason then ["submitted"]
  else ["admitting"; "submitted"].

Definition _transition_mission_attempt_receipt (doc : dict)
    (attempt_id dispatch_key expected_claim_id observed receipt_summary : pyval) (target_state : string) (reason : pyval)
    : result (dict * dict) :=
  let ambiguous := String.eqb target_state "ambiguous" in
  let acp := _is_acp_completion_ambiguity_reason reason in
  _ ← raise_if (negb (is_form attempt_id_form attempt_id) || negb (is_form dispatch_key_form dispatch_key)
                || negb (is_form nonempty receipt_summary) || negb (is_form claim_id_form expected_claim_id)
                || negb (is_none observed || is_form dispatch_key_form observed))
               (ValueError "mission attempt receipt is invalid");
  _ ← receipt_evidence_ok target_state dispatch_key observed reason receipt_summary;
  '(_, validated) ← load_attempts doc;
  _ ← _protocol_admission_claim_history (sw_journal w) (event_outbox doc) validated;
  persisted ← one_attempt attempt_id validated;
  _ ← raise_if (acp && negb (py_eq (dget "configured_transport" persisted) (PStr "acp")))
               (ValueError "ACP completion authority invalid");
  _ ← raise_if (negb (py_eq (dget "dispatch_key" persisted) dispatch_key))
               (ValueError "mission attempt receipt lineage drift");
  _ ← raise_if (negb (py_eq (dget "admission_claim_id" persisted) expected_claim_id))
               (ValueError "mission attempt admission claim drift");
  if state_is target_state persisted then
    let expected_reason := if ambiguous then reason else PNone in
    if py_eq (dget "receipt_summary" persisted) receipt_summary && py_eq (dget "blocker" persisted) expected_reason
       && py_eq (dget "terminal_reason" persisted) expected_reason
    then Ok (doc, persisted)
    else Err (ValueError "mission attempt receipt conflict")
  else
    _ ← raise_if (negb (state_in (receipt_sources target_state reason) persisted))
                 (ValueError "mission attempt receipt transition is invalid");
    _ ← raise_if (ambiguous && state_is "submitted" persisted
                  && negb (py_eq (dget "receipt_summary" persisted) receipt_summary))
                 (ValueError "mission attempt receipt conflict");
    let ended := if ambiguous then reason else PNone in
    candidate ← _validate_mission_attempt_record
      (PDict (dupdate [("state", PStr target_state); ("updated_at", PStr (sw_now w)); ("receipt_summary", receipt_summary);
                       ("blocker", ended); ("terminal_reason", ended)] persisted));
    let event := event_doc (sw_event w) ("mission_attempt_" +:+ target_state) (sw_now w)
      ([("attempt_id", attempt_id); ("mission_id", dget "mission_id" candidate); ("step_id", dget "step_id" candidate);
        ("dispatch_key", dispatch_key); ("admission_claim_id", expected_claim_id); ("reason", reason)]
       ++ if ambiguous then [("expected_dispatch_key", dispatch_key); ("observed_dispatch_key", observed)] else []) in
    _ ← check_new_event (event_outbox doc) event;
    doc' ← commit_attempt doc attempt_id candidate event;
    Ok (doc', candidate).

Definition record_mission_attempt_submitted (doc : dict) (attempt_id dispatch_key expected_claim_id receipt_summary : pyval)
    : result (dict * dict) :=
  _transition_mission_attempt_receipt doc attempt_id dispatch_key expected_claim_id dispatch_key receipt_summary
    "submitted" PNone.

Definition mark_acp_mission_attempt_completion_ambiguous (doc : dict)
    (attempt_id dispatch_key expected_claim_id receipt_summary completion_stage : pyval) : result (dict * dict) :=
  reason ← _acp_completion_ambiguity_reason completion_stage;
  _transition_mission_attempt_receipt doc attempt_id dispatch_key expected_claim_id dispatch_key receipt_summary
    "ambiguous" (PStr reason).

Definition mark_mission_attempt_ambiguous (doc : dict)
    (attempt_id dispatch_key expected_claim_id observed receipt_summary reason : pyval) : result (dict * dict) :=
  _ ← raise_if (negb (py_eq reason (PStr "receipt_persistence_unknown")))
               (ValueError "mission attempt receipt ambiguity reason is invalid");
  _transition_mission_attempt_receipt doc attempt_id dispatch_key expected_claim_id observed receipt_summary
    "ambiguous" reason.

Definition mark_mission_attempt_admission_ambiguous (doc : dict) (attempt_id dispatch_key expected_claim_id reason : pyval)
    : result (dict * dict) :=
  _ ← raise_if (negb (py_eq reason (PStr "admission_outcome_unknown")))
               (ValueError "mission attempt admission ambiguity reason is invalid");
  _transition_mission_attempt_receipt doc attempt_id dispatch_key expected_claim_id PNone
    (PStr "admission outcome unknown") "ambiguous" reason.

(** ** Results *)

(** [validate_mission_reply_evidence_record] of [daemon/recovery.py] *)
Definition REPLY_EVIDENCE_FIELDS : list string :=
  ["mission_id"; "attempt_id"; "reply_id"; "dispatch_key"; "state"; "canonical_handoff"].
Definition validate_mission_reply_evidence_record (value : pyval) : result dict :=
  let invalid := ValueError "durable recovery reply evidence is invalid" in
  match value with
  | PDict d =>
      _ ← raise_if (negb (keys_are REPLY_EVIDENCE_FIELDS d || keys_are (REPLY_EVIDENCE_FIELDS ++ ["semantic_step_hash"]) d)
                    || negb (is_canonical_mission_id (dget "mission_id" d))
                    || negb (is_form attempt_id_form (dget "attempt_id" d))
                    || negb (is_form (hex_id "mrp_" 12) (dget "reply_id" d))
                    || negb (is_form dispatch_key_form (dget "dispatch_key" d))) invalid;
      known ← in_str_set (dget "state" d) ["received"; "validated"; "invalid"];
      _ ← raise_if (negb known || dmem "semantic_step_hash" d
                                  && negb (is_form content_hash_form (dget "semantic_step_hash" d))) invalid;
      match validate_canonical_handoff (dget "canonical_handoff" d) (dget "dispatch_key" d) with
      | Ok h => Ok (dset "canonical_handoff" (PDict (compact h)) d)
      | Err (TypeError _) | Err (ValueError _) => Err invalid
      | Err e => Err e
      end
  | _ => Err invalid
  end.

(** [{"semantic_step_hash": ...}] when the record has one. *)
Definition semantic_hash_of (d : dict) : dict :=
  if dmem "semantic_step_hash" d then [("semantic_step_hash", dget "semantic_step_hash" d)] else [].

Definition with_result (succeeded : bool) (summary : string) (attempt : dict) : pyval :=
  let ended := if succeeded then PNone else PStr "worker_failed" in
  PDict (dupdate [("state", PStr (if succeeded then "succeeded" else "failed")); ("updated_at", PStr (sw_now w));
                  ("receipt_summary", PStr summary); ("terminal_reason", ended); ("blocker", ended)] attempt).

Definition result_event (candidate : dict) (attempt_id dispatch_key : pyval) : pyval :=
  event_doc (sw_result_event w) "mission_attempt_result_recorded" (sw_result_time w)
    ([("mission_id", dget "mission_id" candidate); ("attempt_id", attempt_id); ("dispatch_key", dispatch_key);
      ("state", dget "state" candidate)] ++ semantic_hash_of candidate).

(** The handoff given with a result; without one the attempt has not succeeded. *)
Definition checked_handoff (invalid : exn) (canonical_handoff dispatch_key : pyval) (succeeded : bool)
    : result (option dict) :=
  match canonical_handoff with
  | PNone => _ ← raise_if succeeded invalid; Ok None
  | _ =>
      h ← validate_canonical_handoff canonical_handoff dispatch_key;
      _ ← raise_if (negb (Bool.eqb succeeded (String.eqb (Handoff.status h) "completed"))) invalid;
      Ok (Some (compact h))
  end.

Definition reply_doc (candidate : dict) (attempt_id dispatch_key : pyval) (canonical : dict) : pyval :=
  PDict ([("mission_id", dget "mission_id" candidate); ("attempt_id", attempt_id); ("reply_id", PStr (sw_reply w));
          ("dispatch_key", dispatch_key); ("state", PStr "received"); ("canonical_handoff", PDict canonical)]
         ++ semantic_hash_of candidate).

Definition reply_event (candidate reply : dict) (attempt_id : pyval) : result pyval :=
  hash ← canonical_snapshot_hash (dget "canonical_handoff" reply);
  Ok (event_doc (sw_reply_event w) "mission_reply_evidence_recorded" (sw_reply_time w)
        ([("attempt_id", attempt_id); ("mission_id", dget "mission_id" candidate); ("reply_id", dget "reply_id" reply);
          ("state", dget "state" reply); ("canonical_handoff_hash", PStr hash)] ++ semantic_hash_of reply)).

(** Was this very result recorded before? *)
Definition same_result (persisted : dict) (replies : list dict) (dispatch_key : pyval) (succeeded : bool)
    (summary : string) (canonical : option dict) : bool :=
  let ended := if succeeded then PNone else PStr "worker_failed" in
  state_is (if succeeded then "succeeded" else "failed") persisted
  && py_eq (dget "receipt_summary" persisted) (PStr summary)
  && py_eq (dget "terminal_reason" persisted) ended && py_eq (dget "blocker" persisted) ended
  && match canonical, replies with
     | Some c, [r] => py_eq (dget "dispatch_key" r) dispatch_key && state_in ["received"; "validated"] r
                      && py_eq (dget "canonical_handoff" r) (PDict c)
     | Some _, _ => false
     | None, _ => match replies with [] => true | _ => false end
     end.

(** [for item in table] for a table of the document, which holds no tuple. *)
Definition iter_table (v : pyval) : result (list pyval) :=
  match v with PTuple _ => Err (TypeError "not JSON") | _ => py_iter v end.

Definition replies_table (doc : dict) : pyval :=
  match dlookup "mission_worker_replies" doc with Some v => v | None => PList [] end.

(** The candidate, its reply and their events, saved together. *)
Definition save_result (doc : dict) (rows : list pyval) (candidate : dict) (attempt_id dispatch_key : pyval)
    (canonical : option dict) : result dict :=
  reply ← match canonical with
          | None => Ok None
          | Some c => Some <$> validate_mission_reply_evidence_record (reply_doc candidate attempt_id dispatch_key c)
          end;
  events ← _append_recovery_audit_locked (event_outbox doc) (result_event candidate attempt_id dispatch_key);
  let doc' := dset "mission_attempts" (PList (replace_row attempt_id candidate rows)) doc in
  match reply with
  | None => Ok (dset "protocol_event_outbox" (PList events) (dset "mission_worker_replies" (replies_table doc) doc'))
  | Some r =>
      replies ← match replies_table doc with PList l => Ok (l ++ [PDict r]) | _ => Err AttributeError end;
      event ← reply_event candidate r attempt_id;
      events ← _append_recovery_audit_locked (PList events) event;
      Ok (dset "protocol_event_outbox" (PList events) (dset "mission_worker_replies" (PList replies) doc'))
  end.

Definition record_acp_mission_attempt_completion (doc : dict)
    (attempt_id dispatch_key expected_claim_id : pyval) (receipt_summary : string) (succeeded : bool) (summary : string)
    (canonical_handoff : pyval) : result (dict * dict) :=
  let invalid := ValueError "ACP mission attempt completion is invalid" in
  _ ← raise_if (negb (is_form attempt_id_form attempt_id) || negb (is_form dispatch_key_form dispatch_key)
                || negb (is_form claim_id_form expected_claim_id) || negb (nonempty receipt_summary)
                || negb (nonempty summary)) invalid;
  canonical ← checked_handoff invalid canonical_handoff dispatch_key succeeded;
  '(rows, attempts) ← load_attempts doc;
  _ ← _protocol_admission_claim_history (sw_journal w) (event_outbox doc) attempts;
  persisted ← match attempts_with attempt_id attempts with
              | [a] => if py_eq (dget "dispatch_key" a) dispatch_key
                          && py_eq (dget "admission_claim_id" a) expected_claim_id
                          && py_eq (dget "configured_transport" a) (PStr "acp")
                       then Ok a else Err (ValueError "ACP mission attempt completion authority invalid")
              | _ => Err (ValueError "ACP mission attempt completion authority invalid")
              end;
  match replies_table doc with
  | PList replies =>
      validated ← mapR validate_mission_reply_evidence_record replies;
      let attempt_replies := List.filter (fun r => py_eq (dget "attempt_id" r) attempt_id) validated in
      let expected_summary := receipt_summary +:+ "; result: " +:+ summary in
      if negb (state_is "submitted" persisted) then
        if same_result persisted attempt_replies dispatch_key succeeded expected_summary canonical
        then Ok (doc, persisted)
        else Err (ValueError "ACP mission attempt completion conflict")
      else
        _ ← raise_if (negb (py_eq (dget "receipt_summary" persisted) (PStr receipt_summary)))
                     (ValueError "ACP mission attempt completion conflict");
        candidate ← _validate_mission_attempt_record (with_result succeeded expected_summary persisted);
        _ ← raise_if (match attempt_replies with [] => false | _ => true end)
                     (ValueError "duplicate durable recovery reply evidence");
        doc' ← save_result doc rows candidate attempt_id dispatch_key canonical;
        Ok (doc', candidate)
  | _ => Err (ValueError "mission reply evidence state invalid")
  end.

Definition record_tmux_mission_attempt_completion (doc : dict)
    (attempt_id dispatch_key : pyval) (succeeded : bool) (summary : string) (canonical_handoff : pyval)
    : result (dict * dict) :=
  let invalid := ValueError "tmux mission attempt completion is invalid" in
  _ ← raise_if (negb (is_form attempt_id_form attempt_id) || negb (is_form dispatch_key_form dispatch_key)
                || negb (nonempty summary)) invalid;
  canonical ← checked_handoff invalid canonical_handoff dispatch_key succeeded;
  rows ← iter_table (attempts_table doc);
  attempts ← mapR _validate_mission_attempt_record rows;
  _ ← _require_unique_mission_attempt_lineage attempts;
  _ ← _protocol_admission_claim_history (sw_journal w) (event_outbox doc) attempts;
  persisted ← match attempts_with attempt_id attempts with
              | [a] => if py_eq (dget "dispatch_key" a) dispatch_key && py_eq (dget "configured_transport" a) (PStr "tmux")
                       then Ok a else Err (ValueError "tmux mission attempt completion authority invalid")
              | _ => Err (ValueError "tmux mission attempt completion authority invalid")
              end;
  replies ← iter_table (replies_table doc);
  validated ← mapR validate_mission_reply_evidence_record replies;
  let attempt_replies := List.filter (fun r => py_eq (dget "attempt_id" r) attempt_id) validated in
  if negb (state_is "submitted" persisted) then
    if same_result persisted attempt_replies dispatch_key succeeded summary canonical
    then Ok (doc, persisted)
    else Err (ValueError "tmux mission attempt completion conflict")
  else
    _ ← raise_if (match attempt_replies with [] => false | _ => true end)
                 (ValueError "duplicate durable recovery reply evidence");
    candidate ← _validate_mission_attempt_record (with_result succeeded summary persisted);
    doc' ← save_result doc rows candidate attempt_id dispatch_key canonical;
    Ok (doc', candidate).

Definition record_mission_attempt_result (doc : dict) (attempt_id dispatch_key : pyval) (succeeded : bool)
    (summary : string) : result (dict * dict) :=
  _ ← raise_if (negb (nonempty summary)) (ValueError "mission attempt result invalid");
  rows ← iter_table (attempts_table doc);
  attempts ← mapR _validate_mission_attempt_record rows;
  persisted ← match attempts_with attempt_id attempts with
              | [a] => if py_eq (dget "dispatch_key" a) dispatch_key && state_in ["submitted"; "running"] a
                       then Ok a else Err (ValueError "mission attempt result authority invalid")
              | _ => Err (ValueError "mission attempt result authority invalid")
              end;
  candidate ← _validate_mission_attempt_record (with_result succeeded summary persisted);
  events ← _append_recovery_audit_locked (event_outbox doc) (result_event candidate attempt_id dispatch_key);
  Ok (saved (replace_row attempt_id candidate rows) events doc, candidate).
End operations.

(** ** Laws *)

Lemma fmap_replaced {A} (f : dict -> A) pre a c post : f c = f a -> f <$> (pre ++ c :: post) = f <$> (pre ++ a :: post).
Proof. intros E. by rewrite !fmap_app, !fmap_cons, E. Qed.

Section reading.
Context {env : LeaseEnv}.

Lemma validate_rows rows attempts : mapR _validate_mission_attempt_record rows = Ok attempts -> rows = PDict <$> attempts.
Proof.
  intros H%mapR_Ok. induction H as [|v d rows ds Hv _ IH]; [done|].
  apply validate_attempt_Ok in Hv as [-> _]. by rewrite IH.
Qed.

Lemma validate_PDict d d' : _validate_mission_attempt_record (PDict d) = Ok d' -> d' = d.
Proof. intros [[= ->] _]%validate_attempt_Ok. done. Qed.

Lemma load_attempts_Ok doc rows attempts : load_attempts doc = Ok (rows, attempts) ->
  attempts_table doc = PList rows /\ rows = PDict <$> attempts
  /\ mapR _validate_mission_attempt_record rows = Ok attempts /\ _require_unique_mission_attempt_lineage attempts = Ok tt.
Proof.
  unfold load_attempts. destruct (attempts_table doc) as [| | | | |l| |]; try done.
  intros H. apply bind_Ok in H as (v & Hv & ([] & Hu & [= <- <-])%bind_Ok).
  split_and!; try done. by apply validate_rows.
Qed.

Lemma unique_iff attempts : _require_unique_mission_attempt_lineage attempts = Ok tt <->
  NoDup (field "attempt_id" <$> attempts) /\ NoDup (field "dispatch_key" <$> attempts) /\ NoDup (omap claim_of attempts)
  /\ NoDup (field "mission_id" <$> List.filter (state_in _MISSION_ATTEMPT_ACTIVE_STATES) attempts).
Proof.
  unfold _require_unique_mission_attempt_lineage, raise_if. cbn [mbind result_bind].
  repeat case_bool_decide; cbn; naive_solver.
Qed.

Lemma attempts_with_one id attempts a : attempts_with id attempts = [a] ->
  exists pre post, attempts = pre ++ a :: post /\ py_eq (dget "attempt_id" a) id = true
    /\ Forall (fun x => py_eq (dget "attempt_id" x) id = false) (pre ++ post).
Proof.
  unfold attempts_with. induction attempts as [|x attempts IH]; [done|]. cbn. destruct (py_eq (dget "attempt_id" x) id) eqn:E.
  - intros H. injection H as -> Hn. exists [], attempts. split_and!; [done..|].
    apply Forall_forall. intros y Hy. destruct (py_eq (dget "attempt_id" y) id) eqn:Ey; [|done].
    assert (y ∈ List.filter (fun a => py_eq (dget "attempt_id" a) id) attempts) as Hin
      by (apply list_elem_of_In, filter_In; split; [by apply list_elem_of_In|done]).
    rewrite Hn in Hin. by apply elem_of_nil in Hin.
  - intros (pre & post & -> & Ha & Hall)%IH. exists (x :: pre), post. split_and!; [done..|by constructor].
Qed.

Lemma one_attempt_Ok id attempts a : one_attempt id attempts = Ok a -> attempts_with id attempts = [a].
Proof. unfold one_attempt. destruct (attempts_with id attempts) as [|x [|]]; congruence. Qed.

Lemma replace_attempt_here id c pre a post : py_eq (dget "attempt_id" a) id = true ->
  Forall (fun x => py_eq (dget "attempt_id" x) id = false) (pre ++ post) ->
  replace_attempt id c (pre ++ a :: post) = pre ++ c :: post.
Proof.
  intros Ha [Hpre Hpost]%Forall_app. unfold replace_attempt. rewrite fmap_app, fmap_cons, Ha. f_equal; [|f_equal].
  - induction Hpre as [|x pre Hx _ IH]; [done|]. by rewrite fmap_cons, Hx, IH.
  - induction Hpost as [|x post Hx _ IH]; [done|]. by rewrite fmap_cons, Hx, IH.
Qed.

Lemma replace_row_here id c pre a post : py_eq (dget "attempt_id" a) id = true ->
  Forall (fun x => py_eq (dget "attempt_id" x) id = false) (pre ++ post) ->
  replace_row id c (PDict <$> (pre ++ a :: post)) = PDict <$> (pre ++ c :: post).
Proof.
  intros Ha [Hpre _]%Forall_app. induction Hpre as [|x pre Hx _ IH]; cbn; [by rewrite Ha|].
  rewrite Hx. f_equal. apply IH.
Qed.

(** Replacing one attempt keeps the checks across attempts. *)
Lemma unique_replaced pre a c post :
  _require_unique_mission_attempt_lineage (pre ++ a :: post) = Ok tt ->
  field "attempt_id" c = field "attempt_id" a -> field "dispatch_key" c = field "dispatch_key" a ->
  field "mission_id" c = field "mission_id" a ->
  (forall x, claim_of c = Some x -> claim_of a = Some x \/ x ∉ omap claim_of (pre ++ a :: post)) ->
  (state_in _MISSION_ATTEMPT_ACTIVE_STATES c = true -> state_in _MISSION_ATTEMPT_ACTIVE_STATES a = true) ->
  _require_unique_mission_attempt_lineage (pre ++ c :: post) = Ok tt.
Proof.
  rewrite !unique_iff. intros (Hi & Hk & Hc & Hm) Ei Ek Em Hclaim Hact.
  rewrite (fmap_replaced _ _ a c), (fmap_replaced (field "dispatch_key") _ a c) by done. split_and!; [done..| |].
  - rewrite omap_app in *. cbn in *.
    assert (NoDup (omap claim_of pre ++ omap claim_of post)) as Hpp.
    { destruct (claim_of a); [|done]. rewrite <- Permutation_middle in Hc. by apply NoDup_cons in Hc as [_ ?]. }
    destruct (claim_of c) as [x|] eqn:Ec; [|done]. rewrite <- Permutation_middle. apply NoDup_cons. split; [|done].
    destruct (Hclaim x eq_refl) as [Ea|Hn].
    + rewrite Ea in Hc. rewrite <- Permutation_middle in Hc. by apply NoDup_cons in Hc as [? _].
    + destruct (claim_of a); set_solver.
  - rewrite List.filter_app in *. cbn [List.filter] in *. rewrite fmap_app in *.
    destruct (state_in _ c) eqn:Ec.
    + rewrite (Hact eq_refl) in Hm. by rewrite fmap_cons, Em in *.
    + destruct (state_in _ a); [|done]. rewrite fmap_cons in Hm. rewrite <- Permutation_middle in Hm.
      by apply NoDup_cons in Hm as [_ ?].
Qed.
End reading.

(** *** Histories of a document *)

(** The document's attempts and recorded events, valid together. *)
Definition coherent `{LeaseEnv, FloatText, RecursionLimits} (journal : option string) (doc : dict)
    (attempts : list dict) (records : list pyval) : Prop :=
  (exists rows, load_attempts doc = Ok (rows, attempts))
  /\ recorded_events journal (event_outbox doc) = Ok records
  /\ exists h, _protocol_admission_claim_history journal (event_outbox doc) attempts = Ok h.

Lemma admission_step_fun p e q q' : admission_step p e q -> admission_step p e q' -> q = q'.
Proof. by inversion 1; inversion 1. Qed.

Lemma path_snoc_inv p es e q : admission_path p (es ++ [e]) q -> exists r, admission_path p es r /\ admission_step r e q.
Proof.
  remember (es ++ [e]) as l eqn:E. destruct 1 as [|p es' q e' r Hp Hs]; [by destruct es|].
  apply app_inj_tail in E as [<- <-]. by exists q.
Qed.

Lemma path_fun p es q q' : admission_path p es q -> admission_path p es q' -> q = q'.
Proof.
  intros H. revert q'. induction H as [|p es q e r _ IH Hs]; intros q' H'.
  - inversion H' as [|? es ? e ? ? ? E]; [done|]. by destruct es.
  - apply path_snoc_inv in H' as (q0 & Hq & Hs'). specialize (IH _ Hq) as <-. by eapply admission_step_fun.
Qed.

Section histories.
Context {env : LeaseEnv} {ft : FloatText} {lim : RecursionLimits}.

Lemma recorded_snoc src outbox event records' :
  recorded_events src (PList (outbox ++ [event])) = Ok records' ->
  exists records extra, recorded_events src (PList outbox) = Ok records /\ records' = records ++ extra
    /\ (extra = [] \/ extra = [event]).
Proof.
  unfold recorded_events. intros (journal & -> & (pending & Hp & [= <-])%bind_Ok)%bind_Ok. cbn [mbind result_bind].
  apply mapR_Ok, Forall2_app_inv_l in Hp as (ps & qs & Hps & Hqs & ->).
  inversion Hqs as [|? q ? ? Hq Hnil]; subst. inversion Hnil; subst. apply mapR_Ok in Hps. rewrite Hps. cbn [mbind result_bind].
  eexists _, q. split; [done|]. rewrite concat_app. cbn. rewrite app_nil_r. split; [by rewrite app_assoc|].
  unfold pending_record in Hq. destruct event; try (injection Hq as <-; by left).
  destruct (head _); [|injection Hq as <-; by right]. inv_ok. by left.
Qed.

Lemma protocol_history_Ok src outbox attempts h : _protocol_admission_claim_history src outbox attempts = Ok h ->
  exists l records, outbox = PList l /\ is_ok (_validated_protocol_event_outbox_ids outbox) = true
    /\ is_ok (_strict_protocol_journal_event_ids src) = true /\ recorded_events src outbox = Ok records
    /\ _validate_mission_admission_claim_history records attempts = Ok h.
Proof.
  unfold _protocol_admission_claim_history.
  intros (ids & Hids & (js & Hjs & (records & Hr & Hv)%bind_Ok)%bind_Ok)%bind_Ok.
  destruct outbox as [| | | | |l| |]; try done. exists l, records. by rewrite Hids, Hjs.
Qed.

(** What a document's history says of its attempts. *)
Lemma coherent_path journal doc attempts records a : coherent journal doc attempts records -> a ∈ attempts ->
  admission_path Ready (events_of (lineage_of a) records) (phase_of a).
Proof.
  intros ((rows & Hl) & Hr & (h & Hh)) Ha. apply load_attempts_Ok in Hl as (_ & _ & Hv & _).
  apply protocol_history_Ok in Hh as (l & records' & _ & _ & _ & Hr' & Hh). assert (records' = records) as -> by congruence.
  by apply (history_paths _ _ _ _ _ Hv Hh).
Qed.
End histories.

(** *** One attempt changes *)

(** What stays of an attempt whatever happens to it. *)
Definition attempt_identity (d : dict) : list pyval :=
  (fun f => dget f d) <$> ["attempt_id"; "mission_id"; "step_id"; "agent_id"; "configured_transport"; "dispatch_key";
                            "snapshot_hash"; "created_at"].

(** One attempt of the document, under way before, was replaced; document and
    history are valid. *)
Record replaced `{LeaseEnv, FloatText, RecursionLimits} (w : store_world) (doc doc' : dict) (a a' : dict)
    (records records' : list pyval) (pre post : list dict) : Prop := {
  rp_before : coherent (sw_journal w) doc (pre ++ a :: post) records;
  rp_after : coherent (sw_journal w) doc' (pre ++ a' :: post) records';
  rp_identity : attempt_identity a' = attempt_identity a;
  rp_active : state_in _MISSION_ATTEMPT_ACTIVE_STATES a = true
}.

(** The change is a step of the admission protocol, and the event recorded
    with it says so. *)
Definition protocol_step (a a' : dict) (records records' : list pyval) (e : admission_event) : Prop :=
  admission_step (phase_of a) e (phase_of a')
  /\ forall key, events_of key records' = events_of key records ++ if bool_decide (key = lineage_of a) then [e] else [].

Lemma identity_fields a a' : attempt_identity a' = attempt_identity a ->
  field "attempt_id" a' = field "attempt_id" a /\ field "dispatch_key" a' = field "dispatch_key" a
  /\ field "mission_id" a' = field "mission_id" a.
Proof. unfold attempt_identity, field. cbn [fmap list_fmap]. intros [=]. split_and!; congruence. Qed.

Lemma identity_lineage a a' : attempt_identity a' = attempt_identity a -> lineage_of a' = lineage_of a.
Proof. intros (H1 & H2 & _)%identity_fields. unfold lineage_of. by rewrite H1, H2. Qed.

Section committing.
Context {env : LeaseEnv} {ft : FloatText} {lim : RecursionLimits}.
Variable w : store_world.

Lemma event_outbox_saved rows events doc : event_outbox (saved rows events doc) = PList events.
Proof. unfold event_outbox, saved. by rewrite dlookup_dset_eq. Qed.
Lemma attempts_saved rows events doc : attempts_table (saved rows events doc) = PList rows.
Proof. unfold attempts_table, saved. by rewrite dlookup_dset_ne, dlookup_dset_eq by done. Qed.

Lemma load_replaced doc doc' rows pre a c post :
  load_attempts doc = Ok (rows, pre ++ a :: post) -> attempts_table doc' = PList (PDict <$> (pre ++ c :: post)) ->
  _validate_mission_attempt_record (PDict c) = Ok c -> attempt_identity c = attempt_identity a ->
  (forall x, claim_of c = Some x -> claim_of a = Some x \/ x ∉ omap claim_of (pre ++ a :: post)) ->
  (state_in _MISSION_ATTEMPT_ACTIVE_STATES c = true -> state_in _MISSION_ATTEMPT_ACTIVE_STATES a = true) ->
  load_attempts doc' = Ok (PDict <$> (pre ++ c :: post), pre ++ c :: post).
Proof.
  intros Hl Ht Hc Hid Hclaim Hact. apply load_attempts_Ok in Hl as (_ & -> & Hv & Hu). unfold load_attempts. rewrite Ht.
  assert (mapR _validate_mission_attempt_record (PDict <$> (pre ++ c :: post)) = Ok (pre ++ c :: post)) as ->.
  { apply mapR_Ok. apply mapR_Ok in Hv. rewrite fmap_app, fmap_cons in *.
    apply Forall2_app_inv in Hv as [H1 H2]; [|by rewrite length_fmap]. inversion H2; subst.
    apply Forall2_app; [done|]. by constructor. }
  cbn [mbind result_bind].
  apply identity_fields in Hid as (Hi & Hk & Hm). by rewrite (unique_replaced pre a c post Hu).
Qed.

Lemma commit_replaces doc id c event doc' rows attempts a :
  load_attempts doc = Ok (rows, attempts) -> attempts_with id attempts = [a] ->
  is_ok (_protocol_admission_claim_history (sw_journal w) (event_outbox doc) attempts) = true ->
  commit_attempt w doc id c event = Ok doc' ->
  _validate_mission_attempt_record (PDict c) = Ok c -> attempt_identity c = attempt_identity a ->
  (forall x, claim_of c = Some x -> claim_of a = Some x \/ x ∉ omap claim_of attempts) ->
  state_in _MISSION_ATTEMPT_ACTIVE_STATES a = true ->
  exists pre post records records', replaced w doc doc' a c records records' pre post
    /\ (records' = records \/ records' = records ++ [event]).
Proof.
  intros Hl (pre & post & -> & Ha & Hothers)%attempts_with_one Hh Hcommit Hc Hid Hclaim Hact.
  unfold commit_attempt in Hcommit. rewrite Hl in Hcommit. cbn [mbind result_bind] in Hcommit.
  apply is_ok_exists in Hh as (h & Hh).
  pose proof Hh as (l & records & Ho & _ & _ & Hr & _)%protocol_history_Ok. rewrite Ho in *.
  apply bind_Ok in Hcommit as (h' & Hh' & [= <-]).
  rewrite (replace_attempt_here _ _ _ _ _ Ha Hothers) in Hh'.
  pose proof Hl as (_ & Hrows & _ & _)%load_attempts_Ok. rewrite Hrows, (replace_row_here _ _ _ _ _ Ha Hothers).
  pose proof Hh' as (l' & records' & _ & _ & _ & Hr' & _)%protocol_history_Ok.
  pose proof Hr' as (records0 & extra & Hr0 & -> & Hextra)%recorded_snoc. assert (records0 = records) as -> by congruence.
  exists pre, post, records, (records ++ extra).
  split; [|destruct Hextra as [-> | ->]; [left; by rewrite app_nil_r|by right]].
  split; [split_and!; rewrite ?Ho; eauto| |done|done].
  split_and!; [|by rewrite event_outbox_saved|rewrite event_outbox_saved; eauto].
  eexists. eapply load_replaced; [done|apply attempts_saved|done..].
Qed.

(** When the phase changes, the event was recorded and the change is its step. *)
Lemma replaced_steps doc doc' a c records records' pre post event e :
  replaced w doc doc' a c records records' pre post -> records' = records \/ records' = records ++ [event] ->
  (forall key, event_of key event = if bool_decide (key = lineage_of a) then Some e else None) ->
  phase_of c <> phase_of a -> protocol_step a c records records' e.
Proof.
  intros [Hb Hafter Hid _] Hrec He Hne.
  assert (Hin : forall x, x ∈ pre ++ x :: post) by set_solver.
  pose proof (coherent_path _ _ _ _ _ Hb (Hin a)) as Hp.
  pose proof (coherent_path _ _ _ _ _ Hafter (Hin c)) as Hq. rewrite (identity_lineage _ _ Hid) in Hq.
  destruct Hrec as [-> | ->]; [by destruct Hne; eapply path_fun|].
  split.
  - rewrite events_snoc, He, bool_decide_true in Hq by done. apply path_snoc_inv in Hq as (r & Hr & Hs).
    by rewrite (path_fun _ _ _ _ Hp Hr).
  - intros key. rewrite events_snoc, He. by case_bool_decide.
Qed.
End committing.

(** *** The operations are steps of the protocol *)

Lemma is_form_PStr f v : is_form f v = true -> exists s, v = PStr s /\ f s = true.
Proof. destruct v; try done. eauto. Qed.

(** The arguments of an operation, once they passed its first check. *)
Ltac forms :=
  repeat match goal with
  | H : is_form _ ?v = true |- _ =>
      let s := fresh "s" in apply is_form_PStr in H as (s & -> & _)
  end.
Ltac active := unfold state_in, state_is in *; cbn [existsb _MISSION_ATTEMPT_ACTIVE_STATES] in *;
  repeat match goal with H : py_eq (dget "state" _) (PStr _) = true |- _ => apply py_eq_str in H; rewrite H in * end; done.

Lemma event_lineage a i k : dget "attempt_id" a = PStr i -> dget "dispatch_key" a = PStr k -> lineage_of a = (i, k).
Proof. unfold lineage_of, field. by intros -> ->. Qed.

Lemma claim_of_Some d c : dget "admission_claim_id" d = PStr c -> claim_of d = Some c.
Proof. unfold claim_of. by intros ->. Qed.

(** The fields of an attempt [c] after an update with literal keys. *)
Ltac updated c := unfold c, attempt_identity; cbn [fmap list_fmap]; rewrite !dget_dupdate; reflexivity.

Lemma phase_admitting d c : dget "state" d = PStr "admitting" -> dget "admission_claim_id" d = PStr c -> phase_of d = Claimed c.
Proof. unfold phase_of, claim_of, state_is. by intros -> ->. Qed.
Lemma phase_ready d : dget "state" d = PStr "prepared" -> dget "admission_claim_id" d = PNone -> phase_of d = Ready.
Proof. unfold phase_of, claim_of, state_is. by intros -> ->. Qed.

Lemma event_of_doc id ty now p a k c kind key :
  dget "attempt_id" p = PStr a -> dget "dispatch_key" p = PStr k -> dget "admission_claim_id" p = PStr c ->
  String.eqb ty PRE_DISPATCH_STOPPED = false -> claim_kind_of ty = Some kind ->
  event_of key (event_doc id ty now p) = if bool_decide (key = (a, k)) then Some (kind_event kind c) else None.
Proof. intros. by eapply event_of_claim. Qed.

Section steps.
Context {env : LeaseEnv} {ft : FloatText} {lim : RecursionLimits} {repr : PyRepr}.
Variable w : store_world.

Lemma loaded_claim doc rows attempts a id : load_attempts doc = Ok (rows, attempts) -> attempts_with id attempts = [a] ->
  state_is "prepared" a = true -> dget "admission_claim_id" a = PNone.
Proof.
  intros (_ & _ & Hv & _)%load_attempts_Ok (pre & post & -> & _)%attempts_with_one. apply mapR_Ok in Hv.
  assert (a ∈ pre ++ a :: post) as [i Hi]%list_elem_of_lookup by set_solver.
  destruct (Forall2_lookup_r _ _ _ _ _ Hv Hi) as (v & _ & [_ Hp]%validate_attempt_Ok). done.
Qed.

Lemma found_attempt id attempts a i : attempts_with id attempts = [a] -> id = PStr i -> dget "attempt_id" a = PStr i.
Proof. intros (pre & post & _ & H & _)%attempts_with_one ->. by apply py_eq_str. Qed.

(** What a change of an attempt with its event comes to. *)
Definition steps_by (doc doc' a' : dict) (attempt_id : pyval) (e : admission_event) : Prop :=
  exists pre a post records records', replaced w doc doc' a a' records records' pre post
    /\ dget "attempt_id" a = attempt_id /\ protocol_step a a' records records' e.

Lemma change_steps doc rows attempts a i k c event e doc' :
  load_attempts doc = Ok (rows, attempts) -> attempts_with (PStr i) attempts = [a] -> dget "dispatch_key" a = PStr k ->
  is_ok (_protocol_admission_claim_history (sw_journal w) (event_outbox doc) attempts) = true ->
  commit_attempt w doc (PStr i) c event = Ok doc' ->
  _validate_mission_attempt_record (PDict c) = Ok c -> attempt_identity c = attempt_identity a ->
  (forall x, claim_of c = Some x -> claim_of a = Some x \/ x ∉ omap claim_of attempts) ->
  state_in _MISSION_ATTEMPT_ACTIVE_STATES a = true ->
  (forall key, event_of key event = if bool_decide (key = (i, k)) then Some e else None) ->
  phase_of c <> phase_of a -> steps_by doc doc' c (PStr i) e.
Proof.
  intros Hl Ha Hk Hh Hd Hc Hid Hclaim Hact He Hne. pose proof (found_attempt _ _ _ _ Ha eq_refl) as Hi.
  destruct (commit_replaces _ _ _ _ _ _ _ _ _ Hl Ha Hh Hd Hc Hid Hclaim Hact) as (pre & post & records & records' & Hrep & Hrec).
  exists pre, a, post, records, records'. split; [done|]. split; [done|]. eapply replaced_steps; [done..| |done].
  by rewrite (event_lineage _ _ _ Hi Hk).
Qed.

Lemma claim_steps doc id key doc' c : claim_mission_attempt_admission w doc id key = Ok (doc', c) ->
  steps_by doc doc' c id (EClaim (sw_claim w)) /\ dget "state" c = PStr "admitting".
Proof.
  unfold claim_mission_attempt_admission, _transition_mission_attempt_admission. cbn [String.eqb Ascii.eqb Bool.eqb].
  intros ([] & Hf & ([rows attempts] & Hl & (h & Hh & (a & Ha%one_attempt_Ok & H)%bind_Ok)%bind_Ok)%bind_Ok)%bind_Ok.
  apply bind_Ok in H as ([] & Hk & ([] & _ & ([] & Hst & ([] & Hnew & (c' & Hc & ([] & _ & (d & Hd & [= -> ->])%bind_Ok)%bind_Ok)%bind_Ok)%bind_Ok)%bind_Ok)%bind_Ok).
  inv_ok. cbn [andb] in *. split_guards. forms.
  match goal with H : py_eq (dget "dispatch_key" a) _ = true |- _ => apply py_eq_str in H; rename H into Hkey end.
  match goal with H : state_is "prepared" a = true |- _ => rename H into Hprep end.
  match goal with H : in_strs (sw_claim w) _ = false |- _ => rename H into Hfresh end.
  pose proof (loaded_claim _ _ _ _ _ Hl Ha Hprep) as Hnone. pose proof Hc as ->%validate_PDict.
  set (c := dupdate _ a) in *.
  assert (Hs : dget "state" c = PStr "admitting") by updated c.
  assert (Hcl : dget "admission_claim_id" c = PStr (sw_claim w)) by updated c.
  split; [|done]. eapply change_steps; [done|done|done|by rewrite Hh|done|done| | | | |].
  - updated c.
  - rewrite (claim_of_Some _ _ Hcl). intros x [= <-]. right. intros Hin. by apply in_strs_spec in Hin; congruence.
  - active.
  - intros key. by apply (event_of_doc _ _ _ _ _ _ _ KClaimed).
  - rewrite (phase_admitting _ _ Hs Hcl), (phase_ready a); [done|by apply py_eq_str|].
    done.
Qed.

Lemma release_steps doc id key claim doc' c : release_mission_attempt_admission w doc id key claim = Ok (doc', c) ->
  exists cl, claim = PStr cl /\ steps_by doc doc' c id (ERelease cl) /\ dget "state" c = PStr "prepared".
Proof.
  unfold release_mission_attempt_admission, _transition_mission_attempt_admission. cbn [String.eqb Ascii.eqb Bool.eqb].
  intros ([] & Hf & ([rows attempts] & Hl & (h & Hh & (a & Ha%one_attempt_Ok & H)%bind_Ok)%bind_Ok)%bind_Ok)%bind_Ok.
  apply bind_Ok in H as ([] & Hk & ([] & Hcl & ([] & Hst & ([] & _ & (c' & Hc & ([] & _ & (d & Hd & [= -> ->])%bind_Ok)%bind_Ok)%bind_Ok)%bind_Ok)%bind_Ok)%bind_Ok).
  inv_ok. cbn [andb] in *. split_guards. cbn [in_strs existsb orb] in *. forms.
  match goal with H : is_none claim || _ = true |- _ => rename H into Hform end.
  match goal with H : is_none claim = false |- _ => rewrite H in Hform; rename H into Hsome end. cbn [orb] in Hform. forms.
  match goal with H : py_eq (dget "dispatch_key" a) _ = true |- _ => apply py_eq_str in H; rename H into Hkey end.
  match goal with H : py_eq (dget "admission_claim_id" a) _ = true |- _ => apply py_eq_str in H; rename H into Hcl end.
  match goal with H : state_is "admitting" a = true |- _ => rename H into Hadm end.
  pose proof Hc as ->%validate_PDict. set (c := dupdate _ a) in *. eexists. split; [done|].
  assert (Hs : dget "state" c = PStr "prepared") by updated c.
  assert (Hn : dget "admission_claim_id" c = PNone) by updated c.
  split; [|done]. eapply change_steps; [done|done|done|by rewrite Hh|done|done| | | | |].
  - updated c.
  - unfold claim_of. by rewrite Hn.
  - active.
  - intros key. by apply (event_of_doc _ _ _ _ _ _ _ KReleased).
  - rewrite (phase_ready _ Hs Hn). apply py_eq_str in Hadm. by rewrite (phase_admitting _ _ Hadm Hcl).
Qed.

Lemma interrupt_steps doc id key target reason doc' c :
  interrupt_prepared_mission_attempt w doc id key target reason = Ok (doc', c) ->
  steps_by doc doc' c id (EStop target) /\ dget "state" c = PStr target.
Proof.
  unfold interrupt_prepared_mission_attempt.
  intros ([] & Hf & ([rows attempts] & Hl & (h & Hh & (a & Ha & H)%bind_Ok)%bind_Ok)%bind_Ok)%bind_Ok.
  apply bind_Ok in H as ([] & Hk & (c' & Hc & (d & Hd & [= -> ->])%bind_Ok)%bind_Ok).
  assert (attempts_with id attempts = [a]) as Ha' by (destruct (attempts_with id attempts) as [|x []]; congruence).
  inv_ok. split_guards. forms.
  match goal with H : in_strs target _ = true |- _ => apply in_strs_spec in H; rename H into Htarget end.
  match goal with H : py_eq (dget "dispatch_key" a) _ = true |- _ => apply py_eq_str in H; rename H into Hkey end.
  match goal with H : state_is "prepared" a = true |- _ => rename H into Hprep end.
  match goal with H : is_none (dget "receipt_summary" a) = true |- _ => clear H end.
  pose proof (loaded_claim _ _ _ _ _ Hl Ha' Hprep) as Hnone. pose proof Hc as ->%validate_PDict.
  set (c := dupdate _ a) in *.
  assert (Hs : dget "state" c = PStr target) by updated c.
  assert (Hn : dget "admission_claim_id" c = PNone) by (rewrite <- Hnone; updated c).
  assert (Hph : phase_of c = Stopped target).
  { unfold phase_of, claim_of, state_is, field. rewrite Hn, Hs. repeat (apply elem_of_cons in Htarget as [->|Htarget]; [done|]).
    by apply elem_of_nil in Htarget. }
  split; [|done]. eapply change_steps; [done|done|done|by rewrite Hh|done|done| | | | |].
  - updated c.
  - unfold claim_of. by rewrite Hn.
  - active.
  - intros key. unfold event_doc. by eapply event_of_stop.
  - apply py_eq_str in Hprep. by rewrite Hph, (phase_ready _ Hprep Hnone).
Qed.

Definition receipt_event (target claim : string) : admission_event :=
  if String.eqb target "ambiguous" then EAmbiguous claim else ESubmit claim.

Lemma receipt_evidence_target target key observed reason receipt :
  receipt_evidence_ok target key observed reason receipt = Ok tt -> target = "submitted" \/ target = "ambiguous".
Proof.
  unfold receipt_evidence_ok. intros ([] & H & _)%bind_Ok. inv_ok. split_guards.
  match goal with H : in_strs target _ = true |- _ => apply in_strs_spec in H end.
  repeat match goal with H : target ∈ _ :: _ |- _ => apply elem_of_cons in H as [->|H]; [by auto|] end.
  match goal with H : target ∈ [] |- _ => by apply elem_of_nil in H end.
Qed.

Lemma receipt_phases a c target reason claim : target = "submitted" \/ target = "ambiguous" ->
  state_in (receipt_sources target reason) a = true -> dget "admission_claim_id" a = PStr claim ->
  dget "state" c = PStr target -> dget "admission_claim_id" c = PStr claim -> state_is target a = false ->
  phase_of c <> phase_of a /\ phase_of c = (if String.eqb target "ambiguous" then Ambiguous claim else Submitted claim)
  /\ state_in ["admitting"; "submitted"] a = true.
Proof.
  intros Ht Hsrc Ha Hs Hc Hne.
  assert (Hin : state_in ["admitting"; "submitted"] a = true).
  { unfold receipt_sources in Hsrc. destruct (_ || _); [|destruct (_is_acp_completion_ambiguity_reason reason)];
      unfold state_in in *; cbn [existsb] in *; rewrite ?orb_false_r in *; [by rewrite Hsrc|by rewrite Hsrc, orb_true_r|done]. }
  split; [|split; [|done]].
  - unfold state_in in Hin. cbn [existsb] in Hin. rewrite orb_false_r in Hin. unfold state_is in *.
    unfold phase_of, claim_of, state_is. rewrite Ha, Hc, Hs.
    apply orb_true_iff in Hin as [Hin%py_eq_str|Hin%py_eq_str]; rewrite Hin in *; destruct Ht as [-> | ->]; cbn; done.
  - unfold phase_of, claim_of, state_is. rewrite Hs, Hc. by destruct Ht as [-> | ->].
Qed.

Lemma receipt_steps doc id key claim observed receipt target reason doc' c :
  _transition_mission_attempt_receipt w doc id key claim observed receipt target reason = Ok (doc', c) ->
  doc' = doc \/ exists cl, claim = PStr cl /\ steps_by doc doc' c id (receipt_event target cl) /\ dget "state" c = PStr target.
Proof.
  unfold _transition_mission_attempt_receipt.
  intros ([] & Hf & ([] & Hev%receipt_evidence_target & ([rows attempts] & Hl & (h & Hh & (a & Ha%one_attempt_Ok & H)%bind_Ok)%bind_Ok)%bind_Ok)%bind_Ok)%bind_Ok.
  apply bind_Ok in H as ([] & _ & ([] & Hk & ([] & Hcl & H)%bind_Ok)%bind_Ok).
  destruct (state_is target a) eqn:Hst.
  { destruct (_ && _); [|done]. injection H as <- <-. by left. }
  right. apply bind_Ok in H as ([] & Hsrc & ([] & _ & (c' & Hc & ([] & _ & (d & Hd & [= -> ->])%bind_Ok)%bind_Ok)%bind_Ok)%bind_Ok).
  inv_ok. split_guards.
  match goal with H : is_none observed || _ = true |- _ => clear H end. forms.
  match goal with H : py_eq (dget "dispatch_key" a) _ = true |- _ => apply py_eq_str in H; rename H into Hkey end.
  match goal with H : py_eq (dget "admission_claim_id" a) _ = true |- _ => apply py_eq_str in H; rename H into Hacl end.
  match goal with H : state_in (receipt_sources _ _) a = true |- _ => rename H into Hfrom end.
  pose proof Hc as ->%validate_PDict. set (c := dupdate _ a) in *. eexists. split; [done|].
  assert (Hs : dget "state" c = PStr target) by updated c.
  assert (Hccl : dget "admission_claim_id" c = dget "admission_claim_id" a) by updated c. rewrite Hacl in Hccl.
  destruct (receipt_phases _ _ _ _ _ Hev Hfrom Hacl Hs Hccl Hst) as (Hne & Hph & Hin).
  split; [|done]. eapply change_steps; [done|done|done|by rewrite Hh|done|done| | | | |done].
  - updated c.
  - rewrite (claim_of_Some _ _ Hccl), (claim_of_Some _ _ Hacl). by left.
  - unfold state_in in *. cbn [existsb _MISSION_ATTEMPT_ACTIVE_STATES] in *.
    apply orb_true_iff in Hin as [-> | Hin]; [by rewrite orb_true_r|]. rewrite orb_false_r in Hin. by rewrite Hin, !orb_true_r.
  - intros key. unfold receipt_event. destruct Hev as [-> | ->].
    + by apply (event_of_doc _ _ _ _ _ _ _ KSubmitted).
    + by apply (event_of_doc _ _ _ _ _ _ _ KAmbiguous).
Qed.

(** The attempt an operation on a receipt returns is in the document it leaves. *)
Lemma receipt_returns doc id key claim observed receipt target reason doc' c :
  _transition_mission_attempt_receipt w doc id key claim observed receipt target reason = Ok (doc', c) ->
  (exists i k cl, id = PStr i /\ key = PStr k /\ claim = PStr cl /\ dget "attempt_id" c = PStr i
     /\ dget "dispatch_key" c = PStr k /\ dget "admission_claim_id" c = PStr cl /\ dget "state" c = PStr target)
  /\ (doc' = doc -> exists rows attempts, load_attempts doc = Ok (rows, attempts) /\ c ∈ attempts).
Proof.
  unfold _transition_mission_attempt_receipt. intros ([] & Hf & ([] & _ & ([rows attempts] & Hl & (h & Hh & (a & Ha%one_attempt_Ok & H)%bind_Ok)%bind_Ok)%bind_Ok)%bind_Ok)%bind_Ok.
  apply bind_Ok in H as ([] & _ & ([] & Hk & ([] & Hcl & H)%bind_Ok)%bind_Ok). inv_ok. split_guards.
  match goal with H : is_none observed || _ = true |- _ => clear H end. forms.
  match goal with H : py_eq (dget "dispatch_key" a) _ = true |- _ => apply py_eq_str in H; rename H into Hkey end.
  match goal with H : py_eq (dget "admission_claim_id" a) _ = true |- _ => apply py_eq_str in H; rename H into Hacl end.
  pose proof (found_attempt _ _ _ _ Ha eq_refl) as Hid.
  assert (Hin : a ∈ attempts) by (apply attempts_with_one in Ha as (pre & post & -> & _); set_solver).
  destruct (state_is target a) eqn:Hst.
  - destruct (_ && _); [|done]. injection H as <- <-. apply py_eq_str in Hst. split; [by eexists _, _, _|]. eauto.
  - apply bind_Ok in H as ([] & _ & ([] & _ & (c' & Hc & ([] & _ & (d & Hd & [= -> ->])%bind_Ok)%bind_Ok)%bind_Ok)%bind_Ok).
    pose proof Hc as ->%validate_PDict. set (c := dupdate _ a) in *. split.
    + assert (dget "attempt_id" c = dget "attempt_id" a /\ dget "dispatch_key" c = dget "dispatch_key" a
              /\ dget "admission_claim_id" c = dget "admission_claim_id" a /\ dget "state" c = PStr target) as (-> & -> & -> & ->).
      { split_and!; updated c. }
      by eexists _, _, _.
    + intros ->. unfold commit_attempt in Hd. rewrite Hl in Hd. cbn [mbind result_bind] in Hd.
      destruct (event_outbox doc) as [| | | | |l| |] eqn:Ho; try done. apply bind_Ok in Hd as (h' & _ & [= Hd]).
      apply (f_equal event_outbox) in Hd. rewrite event_outbox_saved, Ho in Hd. injection Hd as Hd.
      apply (f_equal length) in Hd. rewrite length_app in Hd. cbn in Hd. lia.
Qed.

(** After a submission was recorded the document holds the attempt, submitted. *)
Lemma submitted_attempt doc id key claim receipt doc' c attempts' records' :
  record_mission_attempt_submitted w doc id key claim receipt = Ok (doc', c) ->
  coherent (sw_journal w) doc' attempts' records' ->
  c ∈ attempts' /\ exists i k cl, id = PStr i /\ key = PStr k /\ claim = PStr cl /\ lineage_of c = (i, k) /\ phase_of c = Submitted cl.
Proof.
  intros H ((rows' & Hl') & _). unfold record_mission_attempt_submitted in H.
  pose proof (receipt_returns _ _ _ _ _ _ _ _ _ _ H) as [(i & k & cl & -> & -> & -> & Hid & Hkey & Hcl & Hst) Hsame]. split.
  - apply receipt_steps in H as [->|(cl' & _ & (pre & a & post & r & r' & [_ ((rows & Hl) & _) _] & _) & _)].
    + destruct (Hsame eq_refl) as (rows & attempts & Hl & Hin). by assert (attempts' = attempts) as -> by congruence.
    + assert (attempts' = pre ++ c :: post) as -> by congruence. set_solver.
  - exists i, k, cl. split_and!; try done; [by apply event_lineage|]. unfold phase_of, claim_of, state_is. by rewrite Hst, Hcl.
Qed.
End steps.

(** *** Audit events and results *)

(** An event that is not about admission. *)
Definition plain_event (event : pyval) : bool :=
  match event with
  | PDict r => let ty := text_of (dget "event_type" r) in
               negb (String.eqb ty PRE_DISPATCH_STOPPED) && bool_decide (claim_kind_of ty = None)
  | _ => false
  end.

Section audits.
Context {env : LeaseEnv} {ft : FloatText} {lim : RecursionLimits}.

Lemma strict_object_go (d : dict) acc r :
  foldl (fun (acc : option dict) kv => d ← acc; if dmem kv.1 d then None else Some (dset kv.1 kv.2 d)) (Some acc) d = Some r ->
  foldl (fun d kv => dset kv.1 kv.2 d) acc d = r.
Proof.
  revert acc. induction d as [|kv d IH]; intros acc; cbn; [by intros [=]|].
  destruct (dmem kv.1 acc); [|apply IH]. intros H. exfalso. clear IH. by induction d.
Qed.

(** What the strict reading of a line accepts, the plain reading reads. *)
Lemma strict_line_read line v :
  json_loads_with (fun pairs => PDict <$> _object_without_duplicates pairs) scanner_depth line = Some v ->
  json_loads_last line = Ok v.
Proof.
  unfold json_loads_last. intros H. erewrite loads_hook_mono; [done| |done].
  intros d x Hd. cbn in Hd. unfold _object_without_duplicates in Hd.
  destruct (foldl _ _ d) as [r|] eqn:E; [|done]. apply strict_object_go in E. unfold dupdate. rewrite E. exact Hd.
Qed.

Lemma event_record_id v id : validate_daemon_event_record v = Ok id -> exists d, v = PDict d /\ dget "event_id" d = PStr id.
Proof.
  unfold validate_daemon_event_record. destruct v as [| | | | | | |d]; try done. destruct (keys_are _ d); [|done]. cbn [negb].
  destruct (dget "event_id" d) as [| | | |i| | |] eqn:E; try done.
  destruct (dget "event_type" d); try done. destruct (dget "payload" d); try done.
  destruct (_ || _); [done|]. destruct (_ ≫= _) as [|[]]; try done. intros [= <-]. by exists d.
Qed.

Lemma journal_ids_records src ids journal : _strict_protocol_journal_event_ids src = Ok ids -> journal_records src = Ok journal ->
  forall j, j ∈ journal -> exists id, dget "event_id" j = PStr id /\ id ∈ ids.
Proof.
  unfold _strict_protocol_journal_event_ids, _strict_event_journal_ids, journal_records. destruct src as [src|].
  2:{ intros _ [= <-] j Hj. by apply elem_of_nil in Hj. }
  intros ([] & _ & (ids' & Hids & ([] & _ & [= ->])%bind_Ok)%bind_Ok)%bind_Ok Hj j Hin.
  apply mapR_Ok in Hids, Hj. apply list_elem_of_lookup in Hin as [n Hn].
  destruct (Forall2_lookup_r _ _ _ _ _ Hj Hn) as (line & Hline & Hread).
  destruct (Forall2_lookup_l _ _ _ _ _ Hids Hline) as (id & Hid & Hstrict). exists id.
  split; [|by eapply list_elem_of_lookup_2].
  destruct (json_loads_with _ _ line) as [v|] eqn:E; [|done]. apply strict_line_read in E. rewrite E in Hread. cbn in Hread.
  destruct (validate_daemon_event_record v) as [i|[]] eqn:Ev; try done. injection Hstrict as <-.
  apply event_record_id in Ev as (d & -> & Hd). injection Hread as <-. done.
Qed.

Record valid_history (src : option string) (outbox attempts : _) (records : list pyval) (h : history) : Prop := {
  vh_outbox : is_ok (_validated_protocol_event_outbox_ids (PList outbox)) = true;
  vh_journal : is_ok (_strict_protocol_journal_event_ids src) = true;
  vh_records : recorded_events src (PList outbox) = Ok records;
  vh_history : _validate_mission_admission_claim_history records attempts = Ok h
}.

Lemma valid_history_iff src outbox attempts h :
  _protocol_admission_claim_history src (PList outbox) attempts = Ok h <-> exists records, valid_history src outbox attempts records h.
Proof.
  split.
  - intros (l & records & [= <-] & H1 & H2 & H3 & H4)%protocol_history_Ok. by exists records.
  - intros (records & [Ho Hj Hr Hh]). unfold _protocol_admission_claim_history.
    apply is_ok_exists in Ho as [ids ->], Hj as [js ->]. by rewrite Hr.
Qed.

(** An audit event is recorded after everything else, under a new identity. *)
Lemma audit_history w outbox event events attempts records h :
  valid_history (sw_journal w) outbox attempts records h -> plain_event event = true ->
  _append_recovery_audit_locked w (PList outbox) event = Ok events ->
  events = outbox ++ [event] /\ valid_history (sw_journal w) events attempts (records ++ [event]) h.
Proof.
  intros [Ho Hj Hr Hh] Hplain. unfold _append_recovery_audit_locked.
  intros (id & Hid & (ids & Hids & ([] & Hnew & (js & Hjs & ([] & Hnewj & [= <-])%bind_Ok)%bind_Ok)%bind_Ok)%bind_Ok)%bind_Ok.
  inv_ok. split; [done|]. unfold event_identity in Hid.
  assert (Hev : validate_daemon_event_record event = Ok id) by (by destruct (validate_daemon_event_record event) as [|[]]).
  split; [|done| |].
  - cbn in Hids |- *. apply bind_Ok in Hids as (ids' & Hids & ([] & Hnd & [= ->])%bind_Ok).
    assert (mapR (fun item => match validate_daemon_event_record item with
                              | Err (LeaseError _) => Err (ValueError "protocol event outbox is invalid") | r => r end)
              (outbox ++ [event]) = Ok (ids ++ [id])) as ->.
    { apply mapR_Ok, Forall2_app; [by apply mapR_Ok|]. constructor; [by rewrite Hev|constructor]. }
    cbn [mbind result_bind]. rewrite bool_decide_true; [done|]. inv_ok. split_guards. apply NoDup_app.
    split; [done|]. split; [|apply NoDup_singleton]. intros x Hx ->%list_elem_of_singleton.
    apply in_strs_spec in Hx. congruence.
  - unfold recorded_events in Hr |- *. destruct (journal_records (sw_journal w)) as [journal|] eqn:Ej; [|done].
    cbn [mbind result_bind] in Hr |- *. apply bind_Ok in Hr as (pending & Hp & [= <-]).
    assert (pending_record journal event = Ok [event]) as Hpe.
    { apply event_record_id in Hev as (d & -> & Hd). cbn [pending_record].
      destruct (head _) as [j|] eqn:E; [|done]. apply head_Some in E as (l & E).
      assert (j ∈ List.filter (fun j => py_eq (dget "event_id" j) (dget "event_id" d)) (reverse journal)) as Hin
        by (rewrite E; by left).
      apply list_elem_of_In, filter_In in Hin as [Hin Heq]. apply list_elem_of_In in Hin. rewrite elem_of_reverse in Hin.
      destruct (journal_ids_records _ _ _ Hjs Ej j Hin) as (i & Hi & Hmem). rewrite Hi, Hd in Heq.
      apply py_eq_str in Heq as [= ->]. apply in_strs_spec in Hmem. congruence. }
    assert (mapR (pending_record journal) (outbox ++ [event]) = Ok (pending ++ [[event]])) as ->.
    { apply mapR_Ok, Forall2_app; [by apply mapR_Ok|]. by repeat constructor. }
    cbn [mbind result_bind]. by rewrite concat_app, app_assoc.
  - unfold _validate_mission_admission_claim_history in *. apply bind_Ok in Hh as (h' & Hf & Hc).
    rewrite foldM_app, Hf. cbn [mbind result_bind foldM]. unfold history_step.
    destruct event as [| | | | | | |r]; try done. rewrite Hev. unfold plain_event in Hplain. cbv zeta in *. split_guards.
    match goal with H1 : _ <> PRE_DISPATCH_STOPPED, H2 : claim_kind_of _ = None |- _ => rewrite (proj2 (String.eqb_neq _ _) H1), H2 end.
    cbn [mbind result_bind]. done.
Qed.
End audits.

(** *** A result settles a submitted attempt *)

Section results.
Context {env : LeaseEnv} {ft : FloatText} {lim : RecursionLimits} {repr : PyRepr}.

Lemma attempt_at_replaced key pre a c post : attempt_identity c = attempt_identity a ->
  attempt_at key (pre ++ c :: post) = attempt_at key (pre ++ a :: post)
  \/ attempt_at key (pre ++ c :: post) = Some c /\ attempt_at key (pre ++ a :: post) = Some a.
Proof.
  intros Hid. unfold attempt_at. rewrite !reverse_app, !reverse_cons, <- !app_assoc, !List.filter_app. cbn [List.filter app].
  rewrite (identity_lineage _ _ Hid).
  destruct (List.filter _ (reverse post)) as [|x l]; [|by left]. cbn [app].
  case_bool_decide; [by right|by left].
Qed.

Lemma history_step_replaced pre a c post h r : attempt_identity c = attempt_identity a ->
  history_step (pre ++ c :: post) h r = history_step (pre ++ a :: post) h r.
Proof.
  intros Hid.
  assert (Hf : dget "mission_id" c = dget "mission_id" a /\ dget "step_id" c = dget "step_id" a).
  { unfold attempt_identity in Hid. cbn [fmap list_fmap] in Hid. injection Hid. intros. split; congruence. }
  destruct Hf as [Hm Hs].
  assert (Hstop : forall p, stop_event (pre ++ c :: post) h p = stop_event (pre ++ a :: post) h p).
  { intros p. unfold stop_event. destruct (dget "attempt_id" p) as [| | | |i| | |]; try done.
    destruct (dget "dispatch_key" p) as [| | | |k| | |]; try done.
    destruct (attempt_at_replaced (i, k) pre a c post Hid) as [-> | [-> ->]]; [done|]. by rewrite Hm, Hs. }
  assert (Hclaim : forall kind p, claim_event (pre ++ c :: post) h kind p = claim_event (pre ++ a :: post) h kind p).
  { intros kind p. unfold claim_event. destruct (dget "attempt_id" p) as [| | | |i| | |]; try done.
    destruct (dget "step_id" p); try done. destruct (dget "dispatch_key" p) as [| | | |k| | |]; try done.
    destruct (dget "admission_claim_id" p); try done.
    destruct (attempt_at_replaced (i, k) pre a c post Hid) as [-> | [-> ->]]; [done|]. by rewrite Hm, Hs. }
  unfold history_step. destruct r as [| | | | | | |r]; try done. destruct (validate_daemon_event_record _) as [|[]]; try done.
  destruct (String.eqb _ _); [destruct (dget "payload" r); try done; by rewrite Hstop|].
  destruct (claim_kind_of _); [|done]. destruct (dget "payload" r); try done. by rewrite Hclaim.
Qed.

Lemma foldM_ext {A B} (f g : B -> A -> result B) acc l : (forall b x, f b x = g b x) -> foldM f acc l = foldM g acc l.
Proof. intros H. revert acc. induction l as [|x l IH]; intros acc; [done|]. cbn. rewrite H. by destruct (g acc x); cbn. Qed.

(** The submitted attempt and its settled successor satisfy the same check. *)
Lemma check_settled h a c : state_in ["submitted"; "running"] a = true -> state_in ["succeeded"; "failed"] c = true ->
  claim_of c = claim_of a -> lineage_of c = lineage_of a -> check_attempt h a = Ok tt ->
  check_attempt h c = Ok tt /\ phase_of c = phase_of a /\ exists cl, phase_of a = Submitted cl.
Proof.
  intros Ha Hc Hcl Hlin Hck.
  assert (Hsa : dget "state" a = PStr "submitted" \/ dget "state" a = PStr "running").
  { unfold state_in, state_is in Ha. cbn [existsb] in Ha. rewrite orb_false_r in Ha.
    by apply orb_true_iff in Ha as [H%py_eq_str|H%py_eq_str]; auto. }
  assert (Hsc : dget "state" c = PStr "succeeded" \/ dget "state" c = PStr "failed").
  { unfold state_in, state_is in Hc. cbn [existsb] in Hc. rewrite orb_false_r in Hc.
    by apply orb_true_iff in Hc as [H%py_eq_str|H%py_eq_str]; auto. }
  unfold check_attempt, phase_of, expected_stage, state_in, state_is in *. rewrite Hcl, Hlin.
  destruct (claim_of a) as [cl|].
  - split_and!; [|by destruct Hsa as [-> | ->], Hsc as [-> | ->]|exists cl; by destruct Hsa as [-> | ->]].
    by destruct Hsa as [E | E], Hsc as [E' | E']; rewrite E, ?E' in *.
  - exfalso. by destruct Hsa as [E | E]; rewrite E in Hck.
Qed.

Lemma settled_history records pre a c post h :
  attempt_identity c = attempt_identity a -> claim_of c = claim_of a ->
  state_in ["submitted"; "running"] a = true -> state_in ["succeeded"; "failed"] c = true ->
  _validate_mission_admission_claim_history records (pre ++ a :: post) = Ok h ->
  _validate_mission_admission_claim_history records (pre ++ c :: post) = Ok h
  /\ phase_of c = phase_of a /\ exists cl, phase_of a = Submitted cl.
Proof.
  intros Hid Hcl Ha Hc (h' & Hf & (us & Hck & [= ->])%bind_Ok)%bind_Ok. pose proof (identity_lineage _ _ Hid) as Hlin.
  apply mapR_Ok in Hck. apply Forall2_app_inv_l in Hck as (us1 & us2 & H1 & H2 & ->).
  inversion H2 as [|? [] ? ? Hca Hrest]; subst.
  destruct (check_settled h a c Ha Hc Hcl Hlin Hca) as (Hcc & Hph & Hsub). split; [|done].
  unfold _validate_mission_admission_claim_history.
  rewrite (foldM_ext _ (history_step (pre ++ a :: post))) by (intros; by apply history_step_replaced). rewrite Hf.
  cbn [mbind result_bind].
  assert (mapR (check_attempt h) (pre ++ c :: post) = Ok (us1 ++ tt :: l')) as ->; [|done].
  apply mapR_Ok, Forall2_app; [done|by constructor].
Qed.

Lemma table_rows v rows attempts : iter_table v = Ok rows -> mapR _validate_mission_attempt_record rows = Ok attempts ->
  attempts <> [] -> v = PList rows.
Proof.
  intros Hi Hv%validate_rows Hne. destruct v as [| | | |s|l|l|d]; try done; cbn in Hi.
  - injection Hi as <-. destruct attempts; [done|]. by destruct (chars s).
  - by injection Hi as <-.
  - injection Hi as <-. destruct attempts; [done|]. by destruct d.
Qed.

Lemma with_result_fields w succeeded summary a c :
  _validate_mission_attempt_record (with_result w succeeded summary a) = Ok c ->
  _validate_mission_attempt_record (PDict c) = Ok c /\ attempt_identity c = attempt_identity a /\ claim_of c = claim_of a
  /\ state_in ["succeeded"; "failed"] c = true.
Proof.
  intros H. unfold with_result in H. cbv zeta in H. pose proof H as ->%validate_PDict. set (c := dupdate _ a) in *.
  split_and!; [done|updated c| |].
  - unfold claim_of. assert (dget "admission_claim_id" c = dget "admission_claim_id" a) as -> by updated c. done.
  - unfold state_in, state_is. assert (dget "state" c = PStr (if succeeded then "succeeded" else "failed")) as -> by updated c.
    by destruct succeeded.
Qed.

Definition settles (w : store_world) (doc doc' a' : dict) (id : pyval) : Prop :=
  exists pre a post records records', replaced w doc doc' a a' records records' pre post
    /\ dget "attempt_id" a = id /\ (exists cl, phase_of a = Submitted cl /\ phase_of a' = Submitted cl)
    /\ (forall key, events_of key records' = events_of key records) /\ state_in ["succeeded"; "failed"] a' = true.

Lemma plain_no_events key records event : plain_event event = true -> events_of key (records ++ [event]) = events_of key records.
Proof.
  intros H. rewrite events_snoc. destruct event as [| | | | | | |r]; try done. unfold plain_event in H. cbv zeta in H. split_guards.
  unfold event_of. match goal with H1 : _ <> PRE_DISPATCH_STOPPED, H2 : claim_kind_of _ = None |- _ =>
    rewrite (proj2 (String.eqb_neq _ _) H1), H2 end.
  destruct (dget "payload" r); rewrite ?app_nil_r; try done. by destruct (_ && _); rewrite app_nil_r.
Qed.

Lemma in_flight_active a : state_in ["submitted"; "running"] a = true -> state_in _MISSION_ATTEMPT_ACTIVE_STATES a = true.
Proof. unfold state_in. cbn [existsb _MISSION_ATTEMPT_ACTIVE_STATES]. rewrite !orb_true_iff. tauto. Qed.

(** An attempt that was submitted is settled by a write that records plain
    events after the ones there are. *)
Lemma settle doc rows attempts a i c doc' outbox events records records' h w :
  load_attempts doc = Ok (rows, attempts) -> attempts_with (PStr i) attempts = [a] -> event_outbox doc = PList outbox ->
  valid_history (sw_journal w) outbox attempts records h ->
  state_in ["submitted"; "running"] a = true ->
  _validate_mission_attempt_record (PDict c) = Ok c -> attempt_identity c = attempt_identity a -> claim_of c = claim_of a ->
  state_in ["succeeded"; "failed"] c = true ->
  attempts_table doc' = PList (replace_row (PStr i) c rows) -> event_outbox doc' = PList events ->
  (forall key, events_of key records' = events_of key records) ->
  (forall attempts', valid_history (sw_journal w) outbox attempts' records h -> valid_history (sw_journal w) events attempts' records' h) ->
  settles w doc doc' c (PStr i).
Proof.
  intros Hl Hw Ho Hh Ha Hc Hid Hcl Hst Ht Ho' Hev Hext.
  pose proof (found_attempt _ _ _ _ Hw eq_refl) as Hi.
  apply attempts_with_one in Hw as (pre & post & -> & Hai & Hothers).
  destruct (settled_history records pre a c post h Hid Hcl Ha Hst (vh_history _ _ _ _ _ Hh)) as (Hh' & Hph & cl & Hcls).
  pose proof Hl as (_ & Hrows & _ & _)%load_attempts_Ok. rewrite Hrows, (replace_row_here _ _ _ _ _ Hai Hothers) in Ht.
  exists pre, a, post, records, records'. split; [split; [| |done|by apply in_flight_active]|].
  - split; [by exists rows|]. rewrite Ho. split; [apply Hh|]. exists h. apply valid_history_iff. by exists records.
  - split; [eexists; eapply load_replaced; [done..| |]|].
    + intros x Hx. left. congruence.
    + intros Hact. exfalso. unfold state_in, state_is in *. cbn [existsb _MISSION_ATTEMPT_ACTIVE_STATES] in *.
      rewrite orb_false_r in Hst. apply orb_true_iff in Hst as [E%py_eq_str|E%py_eq_str]; by rewrite E in Hact.
    + rewrite Ho'. assert (valid_history (sw_journal w) events (pre ++ c :: post) records' h) as Hv by (apply Hext; by destruct Hh).
      split; [apply Hv|]. exists h. apply valid_history_iff. by exists records'.
  - split; [done|]. split; [exists cl; split; congruence|done].
Qed.

Lemma audited w outbox event events records h : plain_event event = true ->
  _append_recovery_audit_locked w (PList outbox) event = Ok events ->
  (forall key, events_of key (records ++ [event]) = events_of key records)
  /\ (forall attempts, valid_history (sw_journal w) outbox attempts records h ->
       valid_history (sw_journal w) events attempts (records ++ [event]) h)
  /\ exists l, events = l ++ [event].
Proof.
  intros Hp Ha. split_and!; [intros; by apply plain_no_events| |].
  - intros attempts Hv. by apply (audit_history _ _ _ _ _ _ _ Hv Hp Ha).
  - unfold _append_recovery_audit_locked in Ha. inv_ok. by eexists.
Qed.

Lemma saved_tables rows events replies doc :
  let doc' := dset "protocol_event_outbox" (PList events)
                (dset "mission_worker_replies" replies (dset "mission_attempts" (PList rows) doc)) in
  attempts_table doc' = PList rows /\ event_outbox doc' = PList events.
Proof.
  cbv zeta. unfold attempts_table, event_outbox. by rewrite !dlookup_dset_ne, !dlookup_dset_eq by done.
Qed.

Lemma save_result_settles w doc rows attempts a i c key canonical doc' outbox records h :
  load_attempts doc = Ok (rows, attempts) -> attempts_with (PStr i) attempts = [a] -> event_outbox doc = PList outbox ->
  valid_history (sw_journal w) outbox attempts records h -> state_in ["submitted"; "running"] a = true ->
  _validate_mission_attempt_record (PDict c) = Ok c -> attempt_identity c = attempt_identity a -> claim_of c = claim_of a ->
  state_in ["succeeded"; "failed"] c = true ->
  save_result w doc rows c (PStr i) key canonical = Ok doc' -> settles w doc doc' c (PStr i).
Proof.
  intros Hl Hw Ho Hh Ha Hc Hid Hcl Hst H. unfold save_result in H. rewrite Ho in H.
  apply bind_Ok in H as (reply & _ & (events & He & H)%bind_Ok).
  destruct (audited _ _ _ _ records h (eq_refl : plain_event (result_event w c (PStr i) key) = true) He) as (Hev & Hext & _).
  destruct reply as [r|].
  - apply bind_Ok in H as (replies & _ & (event & Hevent & (events' & He' & [= <-])%bind_Ok)%bind_Ok).
    assert (plain_event event = true) as Hplain by (unfold reply_event in Hevent; by inv_ok).
    destruct (audited _ _ _ _ (records ++ [result_event w c (PStr i) key]) h Hplain He') as (Hev' & Hext' & _).
    eapply settle; [done..|apply saved_tables|apply saved_tables| |].
    + intros k. etrans; [apply Hev'|apply Hev].
    + intros attempts' Hv. by apply Hext', Hext.
  - injection H as <-. eapply settle; [done..|apply saved_tables|apply saved_tables|apply Hev|apply Hext].
Qed.

Lemma submitted_in_flight a : state_is "submitted" a = true -> state_in ["submitted"; "running"] a = true.
Proof. unfold state_in. cbn [existsb]. by intros ->. Qed.

Lemma history_valid src outbox attempts h : _protocol_admission_claim_history src outbox attempts = Ok h ->
  exists l records, outbox = PList l /\ valid_history src l attempts records h.
Proof.
  intros H. pose proof H as (l & records & -> & _)%protocol_history_Ok. apply valid_history_iff in H as [records' H]. by exists l, records'.
Qed.

Lemma acp_completion_settles w doc id key claim receipt succeeded summary handoff doc' c :
  record_acp_mission_attempt_completion w doc id key claim receipt succeeded summary handoff = Ok (doc', c) ->
  doc' = doc \/ settles w doc doc' c id.
Proof.
  unfold record_acp_mission_attempt_completion.
  intros ([] & Hf & (canonical & _ & ([rows attempts] & Hl & (h & Hh & (a & Ha & H)%bind_Ok)%bind_Ok)%bind_Ok)%bind_Ok)%bind_Ok.
  assert (attempts_with id attempts = [a]) as Ha'.
  { destruct (attempts_with id attempts) as [|x []]; try done. destruct (_ && _); congruence. }
  destruct (replies_table doc) as [| | | | |replies| |]; try done. apply bind_Ok in H as (validated & _ & H). cbv zeta in H.
  destruct (state_is "submitted" a) eqn:Hst; cbn [negb] in H.
  2:{ destruct (same_result _ _ _ _ _ _); [|done]. injection H as <- <-. by left. }
  right. apply bind_Ok in H as ([] & _ & (c' & Hc & ([] & _ & (d & Hd & [= -> ->])%bind_Ok)%bind_Ok)%bind_Ok).
  apply with_result_fields in Hc as (Hv & Hid & Hcl & Hcs). apply history_valid in Hh as (l & records & Ho & Hval).
  inv_ok. split_guards. forms. eapply save_result_settles; try done. by apply submitted_in_flight.
Qed.

Lemma tmux_completion_settles w doc id key succeeded summary handoff doc' c :
  record_tmux_mission_attempt_completion w doc id key succeeded summary handoff = Ok (doc', c) ->
  doc' = doc \/ settles w doc doc' c id.
Proof.
  unfold record_tmux_mission_attempt_completion.
  intros ([] & Hf & (canonical & _ & (rows & Hrows & (attempts & Hv & ([] & Hu & (h & Hh & (a & Ha & H)%bind_Ok)%bind_Ok)%bind_Ok)%bind_Ok)%bind_Ok)%bind_Ok)%bind_Ok.
  assert (attempts_with id attempts = [a]) as Ha'.
  { destruct (attempts_with id attempts) as [|x []]; try done. destruct (_ && _); congruence. }
  apply bind_Ok in H as (replies & _ & (validated & _ & H)%bind_Ok). cbv zeta in H.
  destruct (state_is "submitted" a) eqn:Hst; cbn [negb] in H.
  2:{ destruct (same_result _ _ _ _ _ _); [|done]. injection H as <- <-. by left. }
  right. apply bind_Ok in H as ([] & _ & (c' & Hc & (d & Hd & [= -> ->])%bind_Ok)%bind_Ok).
  apply with_result_fields in Hc as (Hvc & Hid & Hcl & Hcs). apply history_valid in Hh as (l & records & Ho & Hval).
  assert (Hl : load_attempts doc = Ok (rows, attempts)).
  { unfold load_attempts. rewrite (table_rows _ _ _ Hrows Hv), Hv; [cbn [mbind result_bind]; by rewrite Hu|].
    intros ->. done. }
  inv_ok. split_guards. forms. eapply save_result_settles; try done. by apply submitted_in_flight.
Qed.

Lemma result_settles w doc attempts records id key succeeded summary doc' c : coherent (sw_journal w) doc attempts records ->
  record_mission_attempt_result w doc id key succeeded summary = Ok (doc', c) -> settles w doc doc' c id.
Proof.
  intros ((rows & Hl) & Hr & (h & Hh)). unfold record_mission_attempt_result.
  intros ([] & _ & (rows' & Hrows & (attempts' & Hv & (a & Ha & (c' & Hc & (events & He & [= <- ->])%bind_Ok)%bind_Ok)%bind_Ok)%bind_Ok)%bind_Ok)%bind_Ok.
  assert (attempts_with id attempts' = [a] /\ state_in ["submitted"; "running"] a = true) as [Ha' Hst].
  { destruct (attempts_with id attempts') as [|x []]; try done. destruct (_ && _) eqn:E; [|done]. split_guards. split; congruence. }
  pose proof Hl as (Ht & -> & Hv' & _)%load_attempts_Ok. rewrite Ht in Hrows. injection Hrows as <-.
  assert (attempts' = attempts) as -> by congruence.
  apply with_result_fields in Hc as (Hvc & Hid & Hcl & Hcs). apply history_valid in Hh as (l & records' & Ho & Hval).
  assert (exists i, id = PStr i) as [i ->].
  { apply attempts_with_one in Ha' as (pre & post & -> & Hai & _).
    apply mapR_Ok in Hv. assert (a ∈ pre ++ a :: post) as [n Hn]%list_elem_of_lookup by set_solver.
    destruct (Forall2_lookup_r _ _ _ _ _ Hv Hn) as (v & _ & Hva). pose proof Hva as [-> _]%validate_attempt_Ok.
    unfold _validate_mission_attempt_record in Hva. inv_ok. split_guards.
    match goal with H : is_form attempt_id_form _ = true |- _ => apply is_form_PStr in H as (i & Hi & _) end.
    rewrite Hi in Hai. apply py_eq_str_l in Hai. by eexists. }
  rewrite Ho in He.
  destruct (audited _ _ _ _ records' h (eq_refl : plain_event (result_event w c (PStr i) key) = true) He) as (Hev & Hext & _).
  eapply settle; [done..|apply attempts_saved|apply event_outbox_saved|apply Hev|apply Hext].
Qed.
End results.

(** ** The store refines the admission protocol *)

Inductive attempt_op :=
| OpClaim (id key : pyval)
| OpRelease (id key claim : pyval)
| OpInterrupt (id key : pyval) (target : string) (reason : pyval)
| OpSubmitted (id key claim receipt : pyval)
| OpReceiptUnknown (id key claim observed receipt reason : pyval)
| OpAdmissionUnknown (id key claim reason : pyval)
| OpAcpUnknown (id key claim receipt stage : pyval)
| OpAcpResult (id key claim : pyval) (receipt : string) (succeeded : bool) (summary : string) (handoff : pyval)
| OpTmuxResult (id key : pyval) (succeeded : bool) (summary : string) (handoff : pyval)
| OpResult (id key : pyval) (succeeded : bool) (summary : string).

Definition run_attempt_op `{LeaseEnv, FloatText, RecursionLimits, PyRepr} (w : store_world) (doc : dict) (op : attempt_op)
    : result (dict * dict) :=
  match op with
  | OpClaim id key => claim_mission_attempt_admission w doc id key
  | OpRelease id key claim => release_mission_attempt_admission w doc id key claim
  | OpInterrupt id key target reason => interrupt_prepared_mission_attempt w doc id key target reason
  | OpSubmitted id key claim receipt => record_mission_attempt_submitted w doc id key claim receipt
  | OpReceiptUnknown id key claim observed receipt reason =>
      mark_mission_attempt_ambiguous w doc id key claim observed receipt reason
  | OpAdmissionUnknown id key claim reason => mark_mission_attempt_admission_ambiguous w doc id key claim reason
  | OpAcpUnknown id key claim receipt stage => mark_acp_mission_attempt_completion_ambiguous w doc id key claim receipt stage
  | OpAcpResult id key claim receipt succeeded summary handoff =>
      record_acp_mission_attempt_completion w doc id key claim receipt succeeded summary handoff
  | OpTmuxResult id key succeeded summary handoff =>
      record_tmux_mission_attempt_completion w doc id key succeeded summary handoff
  | OpResult id key succeeded summary => record_mission_attempt_result w doc id key succeeded summary
  end.

Section refinement.
Context {env : LeaseEnv} {ft : FloatText} {lim : RecursionLimits} {repr : PyRepr}.
Variable w : store_world.

(** Nothing changed, or one attempt took a step of the protocol, or one
    submitted attempt was settled. *)
Lemma attempt_op_cases doc attempts records op doc' c : coherent (sw_journal w) doc attempts records ->
  run_attempt_op w doc op = Ok (doc', c) ->
  doc' = doc \/ (exists id e, steps_by w doc doc' c id e) \/ exists id, settles w doc doc' c id.
Proof.
  intros Hco H. destruct op; cbn [run_attempt_op] in H.
  - right; left. apply claim_steps in H as [H _]. eauto.
  - right; left. apply release_steps in H as (cl & _ & H & _). eauto.
  - right; left. apply interrupt_steps in H as [H _]. eauto.
  - apply receipt_steps in H as [H|(cl & _ & H & _)]; eauto.
  - apply bind_Ok in H as ([] & _ & [H|(cl & _ & H & _)]%receipt_steps); eauto.
  - apply bind_Ok in H as ([] & _ & [H|(cl & _ & H & _)]%receipt_steps); eauto.
  - apply bind_Ok in H as (r & _ & [H|(cl & _ & H & _)]%receipt_steps); eauto.
  - apply acp_completion_settles in H as [H|H]; eauto.
  - apply tmux_completion_settles in H as [H|H]; eauto.
  - right; right. eapply result_settles in H; eauto.
Qed.

Lemma coherent_same journal doc attempts attempts' records records' :
  coherent journal doc attempts records -> coherent journal doc attempts' records' -> attempts' = attempts /\ records' = records.
Proof. intros ((? & Hl) & Hr & _) ((? & Hl') & Hr' & _). split; congruence. Qed.

(** C26: The operations of the store implement the admission protocol.  On a
    document whose attempts agree with their recorded history, an operation
    that succeeds leaves such a document: it changed nothing, or exactly one
    attempt, which was under way and whose identity stays; it took one step of the protocol
    and exactly that event of it was recorded, or it was submitted and is now
    settled, with nothing recorded about its admission. *)
Theorem attempt_operations_refine doc attempts records op doc' c :
  coherent (sw_journal w) doc attempts records -> run_attempt_op w doc op = Ok (doc', c) ->
  doc' = doc
  \/ exists pre a post records', attempts = pre ++ a :: post /\ coherent (sw_journal w) doc' (pre ++ c :: post) records'
     /\ attempt_identity c = attempt_identity a /\ state_in _MISSION_ATTEMPT_ACTIVE_STATES a = true
     /\ ((exists e, protocol_step a c records records' e)
         \/ (exists cl, phase_of a = Submitted cl /\ phase_of c = Submitted cl)
            /\ state_in ["succeeded"; "failed"] c = true
            /\ forall key, events_of key records' = events_of key records).
Proof.
  intros Hco H. destruct (attempt_op_cases _ _ _ _ _ _ Hco H) as [->|[(id & e & Hs)|(id & Hs)]]; [by left|right..].
  - destruct Hs as (pre & a & post & records0 & records' & [Hb Ha Hid Hon] & _ & Hstep).
    destruct (coherent_same _ _ _ _ _ _ Hb Hco) as [-> ->]. exists pre, a, post, records'. eauto 10.
  - destruct Hs as (pre & a & post & records0 & records' & [Hb Ha Hid Hon] & _ & Hph & Hev & Hst).
    destruct (coherent_same _ _ _ _ _ _ Hb Hco) as [-> ->]. exists pre, a, post, records'. eauto 10.
Qed.
End refinement.

(** *** What clients rely on *)

(** The recorded events of every attempt only grew. *)
Definition grows (records records' : list pyval) : Prop :=
  forall key, exists es, events_of key records' = events_of key records ++ es.

Lemma grows_refl records : grows records records.
Proof. intros key. exists []. by rewrite app_nil_r. Qed.

Lemma grows_elem records records' key e : grows records records' -> e ∈ events_of key records -> e ∈ events_of key records'.
Proof. intros H Hin. destruct (H key) as [es ->]. apply elem_of_app. by left. Qed.

Section clients.
Context {env : LeaseEnv} {ft : FloatText} {lim : RecursionLimits} {repr : PyRepr}.

Lemma attempt_op_grows w doc attempts records op doc' c : coherent (sw_journal w) doc attempts records ->
  run_attempt_op w doc op = Ok (doc', c) ->
  exists attempts' records', coherent (sw_journal w) doc' attempts' records' /\ grows records records'.
Proof.
  intros Hco H. destruct (attempt_op_cases _ _ _ _ _ _ _ Hco H) as [->|[(id & e & Hs)|(id & Hs)]].
  - exists attempts, records. split; [done|apply grows_refl].
  - destruct Hs as (pre & a & post & records0 & records' & [Hb Ha _ _] & _ & [_ Hev]).
    destruct (coherent_same _ _ _ _ _ _ Hb Hco) as [-> ->]. eexists _, records'. split; [done|]. intros key. by eexists.
  - destruct Hs as (pre & a & post & records0 & records' & [Hb Ha _ _] & _ & _ & Hev & _).
    destruct (coherent_same _ _ _ _ _ _ Hb Hco) as [-> ->]. eexists _, records'. split; [done|].
    intros key. exists []. by rewrite Hev, app_nil_r.
Qed.

(** A claim is recorded for its attempt, and for nothing else. *)
Lemma claim_recorded w doc attempts records id key doc' c : coherent (sw_journal w) doc attempts records ->
  claim_mission_attempt_admission w doc id key = Ok (doc', c) ->
  exists attempts' records' cl, coherent (sw_journal w) doc' attempts' records' /\ dget "admission_claim_id" c = PStr cl
    /\ forall key', events_of key' records' = events_of key' records ++ if bool_decide (key' = lineage_of c) then [EClaim cl] else [].
Proof.
  intros Hco [(pre & a & post & records0 & records' & [Hb Ha Hid _] & _ & [Hstep Hev]) _]%claim_steps.
  destruct (coherent_same _ _ _ _ _ _ Hb Hco) as [-> ->]. exists (pre ++ c :: post), records', (sw_claim w). split; [done|].
  rewrite (identity_lineage _ _ Hid). split; [|done].
  assert (Hph : phase_of c = Claimed (sw_claim w)) by (remember (phase_of c); by inversion Hstep).
  unfold phase_of, claim_of in Hph. destruct (dget "admission_claim_id" c); try (by repeat case_match).
  destruct (state_is "admitting" c); [congruence|]. by destruct (state_is "ambiguous" c).
Qed.

(** A submission is recorded, now or when it was first reported. *)
Lemma submission_recorded w doc attempts records id key claim receipt doc' c : coherent (sw_journal w) doc attempts records ->
  record_mission_attempt_submitted w doc id key claim receipt = Ok (doc', c) ->
  exists attempts' records', coherent (sw_journal w) doc' attempts' records' /\ grows records records'
    /\ ESubmit (text_of claim) ∈ events_of (text_of id, text_of key) records'.
Proof.
  intros Hco H. destruct (attempt_op_grows _ _ _ _ (OpSubmitted id key claim receipt) _ _ Hco H) as (attempts' & records' & Hco' & Hg).
  exists attempts', records'. split; [done|]. split; [done|].
  destruct (submitted_attempt _ _ _ _ _ _ _ _ _ _ H Hco') as (Ha & i & k & cl & -> & -> & -> & Hlin & Hph).
  pose proof (coherent_path _ _ _ _ _ Hco' Ha) as Hp. rewrite Hlin, Hph in Hp.
  apply admission_path_from in Hp; [|done]. cbn [text_of].
  assert (cl ∈ submitted_in (events_of (i, k) records')) as Hin by (rewrite Hp; by left).
  unfold submitted_in in Hin. apply list_elem_of_omap in Hin as ([] & Hin & [= <-]). done.
Qed.
End clients.

(** ** Witnesses *)

#[local] Existing Instance sample_env.
#[local] Existing Instance sample_limits.
#[local] Existing Instance sample_float_text.
#[local] Existing Instance sample_repr.

Definition sample_world (n : nat) : store_world :=
  let event k := ("evt_0000000000" +:+ pretty n +:+ k)%string in
  StoreWorld None (instant_text (1000 + Z.of_nat n)) "adm_00000000000a" (event "1") (instant_text 2000) (event "2")
    "mrp_00000000000b" (instant_text 2001) (event "3").

Definition prepared_attempt : dict := sample_attempt "prepared" PNone.
Definition prepared_doc : dict := [("mission_attempts", PList [PDict prepared_attempt])].

Lemma prepared_coherent n : coherent (sw_journal (sample_world n)) prepared_doc [prepared_attempt] [].
Proof. split; [eexists; vm_compute; reflexivity|]. split; [done|]. eexists. vm_compute. reflexivity. Qed.

Definition claim_prepared : attempt_op := OpClaim (PStr "mat_0123456789ab") (PStr ("dsp_" +:+ hex_a)).

Lemma attempt_operations_refine_witness : exists doc' c records',
  run_attempt_op (sample_world 1) prepared_doc claim_prepared = Ok (doc', c)
  /\ coherent (sw_journal (sample_world 1)) doc' [c] records' /\ phase_of c = Claimed "adm_00000000000a".
Proof.
  destruct (run_attempt_op (sample_world 1) prepared_doc claim_prepared) as [[doc' c]|e] eqn:E; [|by vm_compute in E].
  assert (Hd : doc' <> prepared_doc /\ phase_of c = Claimed "adm_00000000000a").
  { vm_compute in E. injection E as <- <-. split; [by intros [=]|by vm_compute]. }
  destruct Hd as [Hd Hph].
  destruct (attempt_operations_refine _ _ _ _ _ _ _ (prepared_coherent 1) E) as [->|(pre & a & post & records' & Heq & Hco & _)];
    [done|].
  destruct pre as [|x [|]]; try done. injection Heq as <- <-. exists doc', c, records'. done.
Defined.
