(* ===== verification/GovernanceStore.v ===== *)
(** * Governed operations of the store ([state.py])

    Recording a preview and spending it: every governed operation reads the saved
    document under the store's lock, recomputes the facts it is about, compares
    them with the facts it was given, consumes the preview that names it, changes
    the document and saves it with an audit event.

    [gov_world] is what the lock, the clock and [uuid4] give an operation: the
    journal as it is read, the identity and time of every event it creates, in
    order, and the identities of the records it adds.  [load] returns a document;
    a [dict] that is not one of its tables is not modelled. *)
From S2P Require Import Prelude PyStr PyVal ReviewGroup Json Protocol Lease Store Conversation Attempt AttemptStore.
From S2P Require Import AgentProtocol Governance.

Record gov_world := GovWorld {
  gw_store : store_world;
  gw_event : nat -> string * string;
  gw_preview : string;
  gw_transitions : nat -> string;
  gw_protocol : string * string;
  gw_baseline : string;
  gw_decision : string
}.

(** ** Missions *)

(** [MISSION_STATUSES] and [MISSION_STATUS_TRANSITIONS] of [mission.py] *)
Definition MISSION_STATUS_TRANSITIONS : list (string * list string) :=
  [("pending_confirmation", ["preparing"; "stopped"]); ("preparing", ["running"; "stopped"]);
   ("running", ["completed"; "stopped"; "interrupted"]); ("completed", []); ("stopped", ["preparing"; "running"]);
   ("interrupted", ["preparing"; "running"])].
Definition mission_statuses : list string := MISSION_STATUS_TRANSITIONS.*1.
Definition mission_status_transition_allowed (current : pyval) (target : string) : bool :=
  match current with
  | PStr c =>
      match find_first (fun e => String.eqb e.1 c) MISSION_STATUS_TRANSITIONS with
      | Some (_, targets) => in_strs target mission_statuses && (String.eqb c target || in_strs target targets)
      | None => false
      end
  | _ => false
  end.

(** ** Rows *)

Definition is_row (k id : string) (d : dict) : bool := py_eq (dget k d) (PStr id).
Definition rows_with (k id : string) (rows : list pyval) : list dict := List.filter (is_row k id) (dicts_of rows).

(** The first dictionary of the table that satisfies [p], replaced. *)
Fixpoint replace_first (p : dict -> bool) (new : dict) (rows : list pyval) : list pyval :=
  match rows with
  | [] => []
  | PDict d :: rows => if p d then PDict new :: rows else PDict d :: replace_first p new rows
  | v :: rows => v :: replace_first p new rows
  end.

Definition as_rows (v : pyval) (e : exn) : result (list pyval) := match v with PList l => Ok l | _ => Err e end.
Definition drift : exn := PreviewBindingError "preview state drift".

(** [item.get("state") not in {...settled...}] over some rows. *)
Definition unsettled (rows : list dict) : result (list dict) :=
  filterR (fun a => settled ← in_str_set (dget "state" a) SETTLED_STATES; Ok (negb settled)) rows.
Definition pick_fields (ks : list string) (d : dict) : pyval := PDict ((fun k => (k, dget k d)) <$> ks).

Section store.
Context {env : LeaseEnv} {ft : FloatText} {lim : RecursionLimits} {repr : PyRepr}.
Variable w : gov_world.

Definition audit (n : nat) (event_type : string) (payload : dict) (doc : dict) : result dict :=
  events ← _append_recovery_audit_locked (gw_store w) (event_outbox doc)
             (event_doc (gw_event w n).1 event_type (gw_event w n).2 payload);
  Ok (dset "protocol_event_outbox" (PList events) doc).

Definition find_preview (previews : list pyval) (preview_id : string) : result dict :=
  match rows_with "preview_id" preview_id previews with
  | [p] => Ok p
  | _ => Err (KeyError preview_id)
  end.

(** The table with the preview consumed. *)
Definition with_consumed (previews : list pyval) (preview_id : string) (consumed : dict) (doc : dict) : dict :=
  dset "governance_previews" (PList (replace_first (is_row "preview_id" preview_id) consumed previews)) doc.

(** ** Recording a preview *)

(** The controller that asks for a preview, and the lineage kept of it. *)
Definition controller_lineage (authority : option dict) (generation : pyval) : result dict :=
  match authority with
  | None => Ok []
  | Some a =>
      match dget "lease_id" a, dget "client_id" a, dget "daemon_instance_id" a with
      | PStr lease_id, PStr client_id, PStr instance =>
          _ ← raise_if (negb (py_eq (dget "generation" a) generation)) (ValueError "governance controller authority is invalid");
          Ok [("controller_lineage",
               PDict [("client_id", PStr client_id); ("daemon_instance_id", PStr instance); ("generation", generation);
                      ("lease_id_hash", PStr (sha256_hex lease_id))])]
      | _, _, _ => Err (ValueError "governance controller authority is invalid")
      end
  end.

Definition check_controller (doc : dict) (authority : option dict) (generation : pyval) (now : option Z) : result unit :=
  match authority with
  | None => Ok tt
  | Some a =>
      let drifted := ValueError "governance controller authority drift" in
      match dget "controller_lease" doc, dget "daemon_runtime" doc with
      | PDict current, PDict runtime =>
          raise_if (negb (same_field "lease_id" current a) || negb (same_field "client_id" current a)
                    || negb (py_eq (dget "generation" current) generation)
                    || negb (py_eq (dget "instance_id" runtime) (dget "daemon_instance_id" a))
                    || negb (controller_lease_is_active (PDict current) now)) drifted
      | _, _ => Err drifted
      end
  end.

Definition preview_rows (doc : dict) : result (list pyval) :=
  let bad := ValueError "governance preview state is invalid" in
  rows ← as_rows (rows_of "governance_previews" doc) bad;
  _ ← raise_if (negb (forallb is_dict rows)) bad;
  Ok rows.

Definition record_governance_preview (doc : dict) (action : string) (facts : dict) (generation : pyval) (now : option Z)
    (ttl_seconds : pyval) (controller_authority : option dict) : result (dict * dict) :=
  built ← build_governance_preview action facts generation now ttl_seconds;
  lineage ← controller_lineage controller_authority generation;
  let candidate := ("preview_id", PStr (gw_preview w)) :: built ++ lineage in
  _ ← check_controller doc controller_authority generation now;
  previews ← preview_rows doc;
  _ ← raise_if (existsb (is_row "preview_id" (gw_preview w)) (dicts_of previews))
               (ValueError "duplicate governance preview identity");
  doc' ← audit 0 "governance_preview_recorded"
           [("preview_id", PStr (gw_preview w)); ("action", PStr action); ("generation", generation);
            ("execution_digest", dget "execution_digest" candidate)]
           (dset "governance_previews" (PList (previews ++ [PDict candidate])) doc);
  Ok (doc', candidate).

(** [StateStore.consume_governance_preview] *)
Definition spend_governance_preview (doc : dict) (preview_id : string) (action : string) (facts : dict)
    (generation : pyval) (now : option Z) : result (dict * dict) :=
  previews ← preview_rows doc;
  current ← find_preview previews preview_id;
  consumed ← Governance.consume_governance_preview current action (PDict facts) generation now;
  doc' ← audit 0 "governance_preview_consumed"
           [("preview_id", PStr preview_id); ("action", PStr action); ("generation", generation);
            ("execution_digest", dget "execution_digest" consumed)]
           (with_consumed previews preview_id consumed doc);
  Ok (doc', consumed).

(** ** Pausing, resuming and cancelling a Mission *)

Definition mission_facts (mission_id : string) (mission : dict) (active : list dict) : dict :=
  [("mission_id", PStr mission_id); ("status", dget "status" mission); ("current_step", dget "current_step" mission);
   ("snapshot_hash", dget "snapshot_hash" mission);
   ("active_attempts", PList (pick_fields ["attempt_id"; "state"; "dispatch_key"] <$> active))].

(** The tables a Mission operation reads. *)
Definition mission_tables (doc : dict) (e : exn) : result (list pyval * list pyval * list pyval) :=
  match rows_of "missions" doc, rows_of "mission_attempts" doc, rows_of "governance_previews" doc with
  | PList missions, PList attempts, PList previews => Ok (missions, attempts, previews)
  | _, _, _ => Err e
  end.
(** The one Mission with the identity, if it has the status. *)
Definition one_mission (missions : list pyval) (mission_id status : string) (e : exn) : result dict :=
  match rows_with "mission_id" mission_id missions with
  | [m] => if py_eq (dget "status" m) (PStr status) then Ok m else Err e
  | _ => Err e
  end.
Definition with_mission (missions : list pyval) (mission_id : string) (mission : dict) (status : string)
    (stop_reason : pyval) (at_ : string) (doc : dict) : dict :=
  dset "missions"
    (PList (replace_first (is_row "mission_id" mission_id)
              (dupdate [("status", PStr status); ("stop_reason", stop_reason); ("updated_at", PStr at_)] mission) missions))
    doc.
Definition ensure_all (ks : list string) (doc : dict) : dict := foldl (fun d k => ensure k d) doc ks.

Definition pause_mission_with_governance_preview (doc : dict) (mission_id preview_id : string) (facts : dict)
    (generation : pyval) (now : option Z) : result (dict * dict) :=
  '(missions, attempts, previews) ← mission_tables doc (ValueError "Mission pause state is invalid");
  mission ← one_mission missions mission_id "running" (ValueError "Mission pause target is invalid");
  active ← unsettled (rows_with "mission_id" mission_id attempts);
  _ ← raise_if (match active with [] => false | _ => true end) (ValueError "Mission pause requires an idle boundary");
  let current_facts := mission_facts mission_id mission active in
  _ ← raise_if (negb (py_eq (PDict facts) (PDict current_facts))) drift;
  preview ← find_preview previews preview_id;
  consumed ← Governance.consume_governance_preview preview "mission_pause" (PDict current_facts) generation now;
  _ ← raise_if (negb (mission_status_transition_allowed (PStr "running") "stopped"))
               (ValueError "Mission pause transition is invalid");
  updated_at ← utc_text now;
  doc' ← audit 0 "mission_paused"
           [("mission_id", PStr mission_id); ("preview_id", PStr preview_id); ("generation", generation);
            ("execution_digest", dget "execution_digest" consumed)]
           (with_consumed previews preview_id consumed
              (with_mission missions mission_id mission "stopped" (PStr "human_pause") updated_at
                 (ensure_all ["missions"; "mission_attempts"; "governance_previews"] doc)));
  Ok (doc', [("accepted", PBool true); ("state", PStr "stopped"); ("mission_id", PStr mission_id);
             ("preview_id", PStr preview_id)]).

(** A release or an expiry of the lease with the hash, among the events. *)
Definition lease_ends (lease_id_hash client_id : string) (generation : pyval) (record : dict) : result (option string) :=
  match dget "payload" record with
  | PDict payload =>
      terminal ← in_str_set (dget "event_type" record) ["controller_lease_released"; "controller_lease_expired"];
      match dget "lease_id" payload with
      | PStr id =>
          Ok (if terminal && String.eqb (sha256_hex id) lease_id_hash
                 && py_eq (dget "generation" payload) generation && py_eq (dget "client_id" payload) (PStr client_id)
              then drop_prefix "controller_lease_" (text_of (dget "event_type" record)) else None)
      | _ => Ok None
      end
  | _ => Ok None
  end.

Definition daemon_records (doc : dict) : result (list dict) :=
  let outbox := rows_of "daemon_event_outbox" doc in
  _ ← validate_daemon_event_outbox outbox;
  records ← match sw_journal (gw_store w) with
            | None => Ok []
            | Some source =>
                _ ← raise_if (negb (valid_utf8 source)) (ValueError "UnicodeDecodeError");
                mapR (fun line => v ← json_loads_last line; _ ← validate_daemon_event_record v; as_dict v) (journal_lines source)
            end;
  pending ← match outbox with PList l => Ok (dicts_of l) | _ => Err (TypeError "not iterable") end;
  Ok (records ++ List.filter (fun p => negb (existsb (fun r => py_eq (dget "event_id" p) (dget "event_id" r)) records)) pending).

Definition _controller_lease_terminal_state_locked (doc : dict) (lease_id_hash generation client_id : pyval)
    : result (option string) :=
  match lease_id_hash, generation, client_id with
  | PStr hash, PInt _, PStr client =>
      records ← daemon_records doc;
      ends ← mapR (lease_ends hash client generation) records;
      let states := omap id ends in
      Ok (match states with
          | [] => None
          | s :: _ => if forallb (String.eqb s) states then Some s else None
          end)
  | _, _, _ => Err (ValueError "controller lineage identity is invalid")
  end.

(** [lineage.get("generation", 0) + 1]; the generation of a recorded lineage is an
    integer. *)
Definition next_generation (lineage : dict) : result pyval :=
  match (match dlookup "generation" lineage with Some g => g | None => PInt 0 end) with
  | PInt g => Ok (PInt (g + 1))
  | PBool b => Ok (PInt (if b then 2 else 1))
  | _ => Err (TypeError "unsupported operand")
  end.

(** The next controller, of the same client and daemon, confirms what the one
    that released its lease was shown. *)
Definition _validate_mission_controller_lineage_locked (doc preview current_authority : dict) (now : option Z) : result unit :=
  let drifted := ValueError "Mission governance controller lineage drift" in
  match dget "controller_lineage" preview, dget "controller_lease" doc, dget "daemon_runtime" doc with
  | PDict lineage, PDict current, PDict runtime =>
      _ ← raise_if (negb (same_field "lease_id" current_authority current)
                    || negb (same_field "client_id" current_authority current)
                    || negb (same_field "generation" current_authority current)
                    || negb (controller_lease_is_active (PDict current) now)
                    || negb (py_eq (dget "instance_id" runtime) (dget "daemon_instance_id" lineage))
                    || negb (same_field "daemon_instance_id" current_authority lineage)
                    || negb (same_field "client_id" current lineage)) drifted;
      next ← next_generation lineage;
      _ ← raise_if (negb (py_eq (dget "generation" current) next)) drifted;
      terminal ← _controller_lease_terminal_state_locked doc (dget "lease_id_hash" lineage) (dget "generation" lineage)
                   (dget "client_id" lineage);
      raise_if (negb (bool_decide (terminal = Some "released")))
               (ValueError "Mission governance predecessor was not released")
  | _, _, _ => Err drifted
  end.

(** Source, target, stop reason and event of the two actions. *)
Definition mission_action (action : string) : option (string * string * pyval * string) :=
  if String.eqb action "mission_resume" then Some ("stopped", "running", PNone, "mission_resumed")
  else if String.eqb action "mission_cancel" then Some ("running", "interrupted", PStr "human_cancel", "mission_cancelled")
  else None.

(** [int(preview_record["generation"])] under another controller, else the caller's. *)
Definition bound_generation (preview : dict) (authority : option dict) (generation : pyval) : result pyval :=
  match authority with
  | None => Ok generation
  | Some _ => match dlookup "generation" preview with Some g => PInt <$> py_int g | None => Err (KeyError "generation") end
  end.

Definition transition_mission_with_governance_preview (doc : dict) (action mission_id preview_id : string) (facts : dict)
    (generation : pyval) (now : option Z) (current_authority : option dict) : result (dict * dict) :=
  match mission_action action with
  | None => Err (ValueError "Mission governance action is invalid")
  | Some (source, target, stop_reason, event_type) =>
      '(missions, attempts, previews) ← mission_tables doc (ValueError "Mission governance state is invalid");
      mission ← one_mission missions mission_id source (ValueError "Mission governance target is invalid");
      active ← filterR (fun a => in_str_set (dget "state" a) _MISSION_ATTEMPT_ACTIVE_STATES)
                       (rows_with "mission_id" mission_id attempts);
      _ ← raise_if (match active with [] => false | _ => true end) (ValueError "Mission governance requires an idle boundary");
      let current_facts := mission_facts mission_id mission [] in
      _ ← raise_if (negb (py_eq (PDict facts) (PDict current_facts))) drift;
      preview ← find_preview previews preview_id;
      _ ← match current_authority with
          | None => Ok tt
          | Some a => _validate_mission_controller_lineage_locked doc preview a now
          end;
      bound ← bound_generation preview current_authority generation;
      consumed ← Governance.consume_governance_preview preview action (PDict current_facts) bound now;
      _ ← raise_if (negb (mission_status_transition_allowed (PStr source) target))
                   (ValueError "Mission governance transition is invalid");
      updated_at ← utc_text now;
      doc' ← audit 0 event_type
               [("mission_id", PStr mission_id); ("preview_id", PStr preview_id); ("generation", generation);
                ("execution_digest", dget "execution_digest" consumed)]
               (with_consumed previews preview_id consumed
                  (with_mission missions mission_id mission target stop_reason updated_at
                     (ensure_all ["missions"; "mission_attempts"; "governance_previews"] doc)));
      Ok (doc', [("accepted", PBool true); ("mission_id", PStr mission_id); ("state", PStr target);
                 ("preview_id", PStr preview_id)])
  end.

(** ** Forced stop *)

Definition ENDED_MISSIONS : list string := ["completed"; "stopped"; "interrupted"].
Definition open_missions (missions : list pyval) : result (list dict) :=
  filterR (fun m => ended ← in_str_set (dget "status" m) ENDED_MISSIONS; Ok (negb ended)) (dicts_of missions).
Definition force_stop_facts (missions attempts : list dict) : dict :=
  [("missions", PList (pick_fields ["mission_id"; "status"; "current_step"; "snapshot_hash"] <$> missions));
   ("attempts", PList (pick_fields ["attempt_id"; "mission_id"; "state"; "dispatch_key"; "admission_claim_id";
                                     "receipt_summary"] <$> attempts))].

Definition target_of (classified : list (string * string)) (attempt : dict) : option string :=
  snd <$> find_first (fun p => py_eq (dget "attempt_id" attempt) (PStr p.1)) classified.

Definition force_reason (target : string) : string :=
  if String.eqb target "interrupted" then "force_daemon_stop_before_dispatch" else "force_daemon_stop_outcome_unknown".
Definition forced (attempt : dict) (target at_ : string) : dict :=
  dupdate [("state", PStr target); ("updated_at", PStr at_);
           ("receipt_summary", match dget "receipt_summary" attempt with
                               | PNone => if String.eqb target "interrupted" then PNone else PStr "admission outcome unknown"
                               | r => r
                               end);
           ("blocker", PStr (force_reason target)); ("terminal_reason", PStr (force_reason target))] attempt.

(** The audit event of an attempt whose outcome is unknown. *)
Definition forced_event (attempt : dict) : dict :=
  [("attempt_id", dget "attempt_id" attempt); ("mission_id", dget "mission_id" attempt); ("step_id", dget "step_id" attempt);
   ("dispatch_key", dget "dispatch_key" attempt); ("admission_claim_id", dget "admission_claim_id" attempt);
   ("reason", PStr "force_daemon_stop_outcome_unknown"); ("expected_dispatch_key", dget "dispatch_key" attempt);
   ("observed_dispatch_key", dget "dispatch_key" attempt)].

(** The attempts after the stop, the document with their events, and how many
    events there were. *)
Fixpoint force_attempts (n : nat) (classified : list (string * string)) (at_ : string) (attempts : list dict) (doc : dict)
    : result (list dict * dict * nat) :=
  match attempts with
  | [] => Ok ([], doc, n)
  | attempt :: attempts =>
      match target_of classified attempt with
      | None => '(rest, doc, n) ← force_attempts n classified at_ attempts doc; Ok (attempt :: rest, doc, n)
      | Some target =>
          candidate ← _validate_mission_attempt_record (PDict (forced attempt target at_));
          let ambiguous := String.eqb target "ambiguous" in
          doc ← (if ambiguous then audit n "mission_attempt_ambiguous" (forced_event attempt) doc else Ok doc);
          '(rest, doc, n) ← force_attempts (if ambiguous then S n else n) classified at_ attempts doc;
          Ok (candidate :: rest, doc, n)
      end
  end.

Definition force_mission (at_ : string) (row : pyval) : result pyval :=
  match row with
  | PDict m =>
      ended ← in_str_set (dget "status" m) ENDED_MISSIONS;
      if ended : bool then Ok row
      else
        _ ← raise_if (negb (py_eq (dget "status" m) (PStr "preparing"))
                      && negb (mission_status_transition_allowed (dget "status" m) "interrupted"))
                     (ValueError "force-stop Mission transition is invalid");
        Ok (PDict (dupdate [("status", PStr "interrupted"); ("stop_reason", PStr "force_daemon_stop"); ("updated_at", PStr at_)] m))
  | row => Ok row
  end.

Definition count_target (t : string) (classified : list (string * string)) : pyval :=
  PInt (Z.of_nat (length (List.filter (fun p => String.eqb p.2 t) classified))).

Definition force_stop_with_governance_preview (doc : dict) (preview_id : string) (facts : dict) (generation : pyval)
    (now : option Z) : result (dict * dict) :=
  '(missions, attempts_raw, previews) ← mission_tables doc (ValueError "force-stop state is invalid");
  attempts ← mapR _validate_mission_attempt_record attempts_raw;
  _ ← _require_unique_mission_attempt_lineage attempts;
  open ← open_missions missions;
  active ← unsettled attempts;
  let current_facts := force_stop_facts open active in
  _ ← raise_if (negb (py_eq (PDict facts) (PDict current_facts))) drift;
  preview ← find_preview previews preview_id;
  consumed ← Governance.consume_governance_preview preview "force_daemon_stop" (PDict current_facts) generation now;
  classified ← classify_force_stop_attempts (PDict <$> attempts);
  timestamp ← utc_text now;
  '(next_attempts, doc', n) ← force_attempts 0 classified timestamp attempts
                                (ensure_all ["missions"; "mission_attempts"; "governance_previews"] doc);
  missions' ← mapR (force_mission timestamp) missions;
  doc'' ← audit n "daemon_force_stopped"
            [("preview_id", PStr preview_id); ("generation", generation);
             ("interrupted_count", count_target "interrupted" classified);
             ("ambiguous_count", count_target "ambiguous" classified)]
            (with_consumed previews preview_id consumed
               (dset "mission_attempts" (PList (PDict <$> next_attempts)) (dset "missions" (PList missions') doc')));
  Ok (doc'', [("accepted", PBool true); ("state", PStr "stopping"); ("preview_id", PStr preview_id);
              ("attempts", PDict ((fun p => (p.1, PStr p.2)) <$> classified))]).

(** ** Rerouting a step *)

Definition iter_rows (k : string) (doc : dict) : result (list pyval) := iter_table (rows_of k doc).
Definition CONVERSATION_TABLES : list string :=
  ["conversation_sessions"; "conversation_turns"; "conversation_preview_bindings"].
Definition conversation_base (doc : dict) : dict := (fun k => (k, rows_of k doc)) <$> CONVERSATION_TABLES.
Definition ownership_of (p : projection) (agent_id : string) : string :=
  default "agentdeck_owned" (pj_states p !! (Ownership, agent_id)).

(** The frozen transport of the step's Worker. *)
Definition frozen_step_transport (mission : dict) (step_id agent_id : string) : result pyval :=
  let snapshot := match dget "execution_snapshot" mission with PDict s => s | _ => [] end in
  let frozen := match dget "mission" snapshot with PDict m => m | _ => [] end in
  match dget "steps" frozen, dget "workers" snapshot with
  | PList steps, PList workers =>
      match List.filter (is_row "agent_id" agent_id) (rows_with "step_id" step_id steps), rows_with "agent_id" agent_id workers with
      | [_], [worker] => Ok (dget "configured_transport" worker)
      | _, _ => Err (ValueError "reroute frozen scope is invalid")
      end
  | _, _ => Err (ValueError "reroute snapshot is invalid")
  end.

Definition reroute_facts (mission_id step_id agent_id : string) (mission : dict) (ownership : string)
    (from_transport : pyval) (to_transport : string) : dict :=
  [("mission_id", PStr mission_id); ("step_id", PStr step_id); ("agent_id", PStr agent_id);
   ("snapshot_hash", dget "snapshot_hash" mission); ("mission_status", dget "status" mission);
   ("current_step", dget "current_step" mission); ("ownership", PStr ownership); ("attempt_state", PStr "none");
   ("from_transport", from_transport); ("to_transport", PStr to_transport)].

Definition record_transport_reroute_with_governance_preview (doc : dict)
    (mission_id step_id agent_id to_transport preview_id : string) (facts : dict) (generation : pyval) (now : option Z)
    : result (dict * dict) :=
  missions ← iter_rows "missions" doc;
  mission ← match rows_with "mission_id" mission_id missions with
            | [m] => Ok m
            | _ => Err (ValueError "reroute Mission is invalid")
            end;
  from_transport ← frozen_step_transport mission step_id agent_id;
  known ← in_str_set from_transport TRANSPORTS;
  _ ← raise_if (negb known || negb (in_strs to_transport TRANSPORTS) || py_eq from_transport (PStr to_transport))
               (ValueError "reroute transport is invalid");
  attempts ← iter_rows "mission_attempts" doc;
  _ ← raise_if (match List.filter (is_row "step_id" step_id) (rows_with "mission_id" mission_id attempts) with
                | [] => false | _ => true
                end) (ValueError "reroute cannot modify a frozen attempt");
  projection ← validate_conversation_history (conversation_base doc) (rows_of "conversation_state_transitions" doc);
  let ownership := ownership_of projection agent_id in
  _ ← raise_if (negb (String.eqb ownership "agentdeck_owned")) (ValueError "reroute Worker is not AgentDeck-owned");
  let current_facts := reroute_facts mission_id step_id agent_id mission ownership from_transport to_transport in
  _ ← raise_if (negb (py_eq (PDict facts) (PDict current_facts))) drift;
  let bad := ValueError "reroute state is invalid" in
  reroutes ← as_rows (rows_of "mission_transport_reroutes" doc) bad;
  _ ← raise_if (negb (forallb is_dict reroutes)) bad;
  _ ← raise_if (existsb (fun r => is_row "mission_id" mission_id r && is_row "step_id" step_id r) (dicts_of reroutes))
               (ValueError "reroute already exists");
  previews ← iter_rows "governance_previews" doc;
  preview ← find_preview previews preview_id;
  consumed ← Governance.consume_governance_preview preview "reroute" (PDict current_facts) generation now;
  created_at ← utc_text now;
  let record := current_facts ++ [("preview_id", PStr preview_id); ("generation", generation); ("created_at", PStr created_at)] in
  doc' ← audit 0 "mission_transport_rerouted"
           [("mission_id", PStr mission_id); ("step_id", PStr step_id); ("agent_id", PStr agent_id);
            ("from_transport", from_transport); ("to_transport", PStr to_transport); ("preview_id", PStr preview_id);
            ("generation", generation)]
           (with_consumed previews preview_id consumed
              (dset "mission_transport_reroutes" (PList (reroutes ++ [PDict record]))
                 (ensure_all (["missions"; "mission_attempts"] ++ CONVERSATION_TABLES
                              ++ ["conversation_state_transitions"; "mission_transport_reroutes"; "governance_previews"]) doc)));
  Ok (doc', [("accepted", PBool true); ("mission_id", PStr mission_id); ("step_id", PStr step_id);
             ("effective_transport", PStr to_transport); ("preview_id", PStr preview_id)]).

(** ** Deciding a permission *)

Definition permission_facts (mission_id attempt_id permission_id : string) (permission : dict) (decision : string) : dict :=
  [("mission_id", PStr mission_id); ("attempt_id", PStr attempt_id); ("permission_id", PStr permission_id);
   ("session_id", dget "session_id" permission); ("turn_id", dget "turn_id" permission);
   ("tool_name", dget "tool_name" permission); ("target", dget "target" permission); ("risk", dget "risk" permission);
   ("state", PStr "pending"); ("decision", PStr decision)].

(** The Mission and the attempt the permission is bound to. *)
Definition permission_binding (doc : dict) (permission_id : string) : result (string * string) :=
  let bad := ValueError "permission decision binding is invalid" in
  rows ← iter_rows "mission_permission_bindings" doc;
  match rows_with "permission_id" permission_id rows with
  | [b] => match dget "mission_id" b, dget "attempt_id" b with
           | PStr m, PStr a => Ok (m, a)
           | _, _ => Err bad
           end
  | _ => Err bad
  end.

Definition decide_permission_with_governance_preview (doc : dict) (permission_id decision preview_id : string) (facts : dict)
    (generation : pyval) (now : option Z) : result (dict * dict) :=
  _ ← raise_if (negb (in_strs decision ["approved"; "denied"])) (ValueError "permission decision is invalid");
  doc ← _validate_protocol_identities doc;
  current_states ← _validate_protocol_transition_history doc;
  permissions ← iter_rows "permission_requests" doc;
  permission ← match rows_with "permission_id" permission_id permissions with
               | [p] => _validate_permission_record (PDict p)
               | _ => Err (KeyError permission_id)
               end;
  _ ← raise_if (negb (String.eqb (default "pending" (current_states !! (PermissionE, permission_id))) "pending"))
               (ValueError "permission decision is terminal");
  '(mission_id, attempt_id) ← permission_binding doc permission_id;
  let current_facts := permission_facts mission_id attempt_id permission_id permission decision in
  _ ← raise_if (negb (py_eq (PDict facts) (PDict current_facts))) drift;
  previews ← as_rows (rows_of "governance_previews" doc) (ValueError "governance preview state is invalid");
  preview ← find_preview previews preview_id;
  consumed ← Governance.consume_governance_preview preview "permission_decision" (PDict current_facts) generation now;
  transition ← build_protocol_transition (gw_protocol w).1 (gw_protocol w).2 (PStr "permission") (PStr permission_id)
                 (PStr "pending") (PStr decision) (PStr "human_exact_confirmation")
                 (PDict [("preview_id", PStr preview_id); ("generation", generation)]);
  doc ← append_row "protocol_state_transitions" transition doc;
  _ ← _validate_protocol_transition_history doc;
  event ← as_dict (event_doc (gw_event w 0).1 "permission_decision_recorded" (gw_event w 0).2
                     [("permission_id", PStr permission_id); ("decision", PStr decision); ("preview_id", PStr preview_id);
                      ("generation", generation)]);
  doc ← append_row "protocol_event_outbox" event (with_consumed previews preview_id consumed doc);
  doc' ← audit 1 "governance_preview_consumed"
           [("preview_id", PStr preview_id); ("action", PStr "permission_decision"); ("generation", generation);
            ("execution_digest", dget "execution_digest" consumed)] doc;
  Ok (doc', [("accepted", PBool true); ("permission_id", PStr permission_id); ("state", PStr decision);
             ("preview_id", PStr preview_id)]).

(** ** Handing a Worker over and back *)

Definition worker_action (action : string) : option (string * string * string) :=
  if String.eqb action "takeover" then Some ("agentdeck_owned", "takeover_pending", "human_owned")
  else if String.eqb action "return_control" then Some ("human_owned", "return_pending", "agentdeck_owned")
  else None.

(** [_conversation_collections]: the five tables are lists. *)
Definition _conversation_collections (doc : dict) : result dict :=
  let ks := CONVERSATION_TABLES ++ ["conversation_state_transitions"; "conversation_event_outbox"] in
  _ ← mapR (fun k => raise_if (negb (is_list (rows_of k doc))) (TypeError (k +:+ " must be a list"))) ks;
  Ok (ensure_all ks doc).

Definition last_conversation (doc : dict) : result string :=
  match rows_of "conversation_sessions" doc with
  | PList sessions =>
      match last sessions with
      | None => Err (ValueError "Worker ownership conversation is missing")
      | Some v => d ← as_dict v;
                  match dget "conversation_id" d with
                  | PStr s => Ok s
                  | _ => Err (ValueError "Worker ownership conversation is invalid")
                  end
      end
  | _ => Err (TypeError "conversation_sessions must be a list")
  end.

(** [sorted(...)] of texts *)
Definition sorted_texts (l : list string) : pyval := PList (PStr <$> (sort_keys ((fun s => (s, tt)) <$> l)).*1).

(** [item.get("session_id") in session_ids] *)
Definition in_sessions (sessions : list pyval) (v : pyval) : result bool :=
  if hashable v then Ok (in_list v sessions) else Err (TypeError "unhashable type").

(** The identities of an entity kind of the Worker's sessions whose current
    state is one the condition keeps. *)
Definition live_ids (e : protocol_entity) (sessions : list pyval) (states : gmap reference string)
    (keeps : pyval -> result bool) (doc : dict) : result (list string) :=
  rows ← iter_rows (entity_collection e) doc;
  live ← filterR (fun d => mine ← in_sessions sessions (dget "session_id" d);
                           if mine : bool
                           then keeps (match states !! (e, text_of (dget (identity_field e) d)) with
                                       | Some s => PStr s
                                       | None => dget (state_field e) d
                                       end)
                           else Ok false) (dicts_of rows);
  Ok (map (fun d => py_str (dget (identity_field e) d)) live).

Record worker_activity := WorkerActivity {
  active_turn_ids : list string; pending_permission_ids : list string; active_attempt_ids : list string
}.
Definition is_idle (a : worker_activity) : bool :=
  match active_turn_ids a, pending_permission_ids a, active_attempt_ids a with [], [], [] => true | _, _, _ => false end.

Definition SETTLED_TURNS : list string := ["completed"; "blocked"; "failed"; "cancelled"; "ambiguous"].
Definition activity_of (agent_id : string) (states : gmap reference string) (doc : dict) : result worker_activity :=
  session_rows ← iter_rows "agent_sessions" doc;
  let sessions := dget "session_id" <$> rows_with "agent_id" agent_id session_rows in
  _ ← raise_if (negb (forallb hashable sessions)) (TypeError "unhashable type");
  turns ← live_ids TurnE sessions states (fun s => settled ← in_str_set s SETTLED_TURNS; Ok (negb settled)) doc;
  permissions ← live_ids PermissionE sessions states (fun s => Ok (py_eq s (PStr "pending"))) doc;
  attempt_rows ← iter_rows "mission_attempts" doc;
  attempts ← filterR (fun a => in_str_set (dget "state" a) _MISSION_ATTEMPT_ACTIVE_STATES) (rows_with "agent_id" agent_id attempt_rows);
  attempt_ids ← mapR (fun a => match dlookup "attempt_id" a with Some v => Ok (py_str v) | None => Err (KeyError "attempt_id") end)
                     attempts;
  Ok (WorkerActivity turns permissions attempt_ids).

Definition RECONCILIATION_FIELDS : list string :=
  ["runtime_transport"; "runtime_evidence_digest"; "session_digest"; "artifact_digest"; "worktree_digest"; "worktree_manifest"].
Definition ownership_facts (agent_id conversation_id ownership : string) (act : worker_activity) (facts : dict) : dict :=
  [("agent_id", PStr agent_id); ("conversation_id", PStr conversation_id); ("ownership", PStr ownership);
   ("safe_boundary", PBool (is_idle act)); ("reconciled", dget "reconciled" facts);
   ("active_turn_ids", sorted_texts (active_turn_ids act));
   ("pending_permission_ids", sorted_texts (pending_permission_ids act));
   ("active_attempt_ids", sorted_texts (active_attempt_ids act)); ("baseline_id", dget "baseline_id" facts);
   ("reconciliation", dget "reconciliation" facts); ("changed_paths", dget "changed_paths" facts);
   ("reported_changes", dget "reported_changes" facts)].

Definition active_baseline (agent_id : string) (d : dict) : bool :=
  is_row "agent_id" agent_id d && is_row "state" "active" d.

(** A takeover starts from no baseline; a return names the active one. *)
Definition check_baseline (action : string) (active : list dict) (facts : dict) : result unit :=
  if String.eqb action "takeover"
  then raise_if (negb (match active with [] => true | _ => false end) || negb (is_none (dget "baseline_id" facts)))
                (ValueError "Worker reconciliation baseline conflicts")
  else match active with
       | [b] => raise_if (negb (py_eq (dget "baseline_id" facts) (dget "baseline_id" b))
                          || negb (is_true (dget "reconciled" facts)))
                         (ValueError "Worker reconciliation baseline is invalid")
       | _ => Err (ValueError "Worker reconciliation baseline is invalid")
       end.

(** The transitions of the handover, the first for a Worker without history. *)
Definition ownership_transitions (initialized : bool) (conversation_id agent_id source pending target action at_ : string)
    : result (list dict) :=
  let build := fun i from to reason =>
    build_conversation_transition (PStr (gw_transitions w i)) (PStr conversation_id) (PStr "ownership") (PStr agent_id)
      from (PStr to) (PStr reason) (PStr at_) in
  first ← (if initialized then Ok [] else t ← build 0 PNone "agentdeck_owned" "ownership_initialized"; Ok [t]);
  t1 ← build 1 (PStr source) pending (action +:+ "_confirmed");
  t2 ← build 2 (PStr pending) target (action +:+ "_completed");
  Ok (first ++ [t1; t2]).

(** A decision about the baseline that was left ambiguous is resolved. *)
Definition resolve_decision (agent_id : string) (baseline_id : pyval) (at_ : string) (row : pyval) : pyval :=
  match row with
  | PDict d =>
      if is_row "agent_id" agent_id d && py_eq (dget "baseline_id" d) baseline_id && is_row "status" "ambiguous" d
      then PDict (dset "resolved_at" (PStr at_) (dset "status" (PStr "resolved") d)) else row
  | _ => row
  end.

Definition new_baseline (agent_id : string) (generation : pyval) (at_ : string) (reconciliation : dict) : dict :=
  dupdate reconciliation
    [("baseline_id", PStr (gw_baseline w)); ("agent_id", PStr agent_id); ("generation", generation); ("state", PStr "active");
     ("created_at", PStr at_)].

(** The document with the baselines of the handover. *)
Definition with_baselines (action agent_id : string) (generation : pyval) (at_ : string) (facts reconciliation : dict)
    (baselines : list pyval) (active : list dict) (doc : dict) : result dict :=
  if String.eqb action "takeover" then
    append_row "worker_takeover_baselines" (new_baseline agent_id generation at_ reconciliation) doc
  else
    let settle b := dset "reported_changes" (dget "reported_changes" facts)
                      (dset "reconciled_at" (PStr at_) (dset "state" (PStr "reconciled") b)) in
    let rows := match active with b :: _ => replace_first (active_baseline agent_id) (settle b) baselines | [] => baselines end in
    let doc := dset "worker_takeover_baselines" (PList rows) doc in
    decisions ← iter_rows "worker_reconciliation_decisions" doc;
    Ok (dset "worker_reconciliation_decisions" (PList (resolve_decision agent_id (dget "baseline_id" facts) at_ <$> decisions)) doc).

Definition change_worker_ownership_with_governance_preview (doc : dict) (action agent_id preview_id : string) (facts : dict)
    (generation : pyval) (now : option Z) : result (dict * dict) :=
  match worker_action action with
  | None => Err (ValueError "Worker ownership action is invalid")
  | Some (source, pending, target) =>
      doc ← _conversation_collections doc;
      projection ← validate_conversation_history (conversation_base doc) (rows_of "conversation_state_transitions" doc);
      let initialized := bool_decide (is_Some (pj_states projection !! (Ownership, agent_id))) in
      let ownership := ownership_of projection agent_id in
      _ ← raise_if (negb (String.eqb ownership source)) (ValueError "Worker ownership source is invalid");
      conversation_id ← last_conversation doc;
      doc ← _validate_protocol_identities doc;
      states ← _validate_protocol_transition_history doc;
      act ← activity_of agent_id states doc;
      let current_facts := ownership_facts agent_id conversation_id ownership act facts in
      reconciliation ← match dget "reconciliation" facts with
                       | PDict r => if keys_are RECONCILIATION_FIELDS r then Ok r
                                    else Err (ValueError "Worker reconciliation facts are invalid")
                       | _ => Err (ValueError "Worker reconciliation facts are invalid")
                       end;
      baselines ← iter_rows "worker_takeover_baselines" doc;
      let active := List.filter (active_baseline agent_id) (dicts_of baselines) in
      _ ← check_baseline action active facts;
      _ ← raise_if (negb (py_eq (PDict facts) (PDict current_facts))) drift;
      previews ← iter_rows "governance_previews" doc;
      preview ← find_preview previews preview_id;
      consumed ← Governance.consume_governance_preview preview action (PDict current_facts) generation now;
      created_at ← utc_text now;
      transitions ← ownership_transitions initialized conversation_id agent_id source pending target action created_at;
      doc ← append_rows "conversation_state_transitions" transitions doc;
      _ ← validate_conversation_history (conversation_base doc) (rows_of "conversation_state_transitions" doc);
      doc ← with_baselines action agent_id generation created_at current_facts reconciliation baselines active
              (with_consumed previews preview_id consumed doc);
      event ← as_dict (event_doc (gw_event w 0).1 "worker_ownership_changed" (gw_event w 0).2
                         [("agent_id", PStr agent_id); ("from_state", PStr source); ("to_state", PStr target);
                          ("preview_id", PStr preview_id); ("generation", generation)]);
      doc ← append_row "conversation_event_outbox" event doc;
      doc' ← audit 1 "worker_ownership_governed"
               [("agent_id", PStr agent_id); ("action", PStr action); ("preview_id", PStr preview_id); ("generation", generation)] doc;
      Ok (doc', [("accepted", PBool true); ("agent_id", PStr agent_id); ("ownership", PStr target); ("preview_id", PStr preview_id);
                 ("baseline_id", if String.eqb action "takeover" then PStr (gw_baseline w) else dget "baseline_id" facts)])
  end.

(** ** Reconciliation that could not be settled *)

Definition same_decision (agent_id : string) (baseline_id generation : pyval) (blocker evidence_hash : string) (d : dict) : bool :=
  is_row "agent_id" agent_id d && py_eq (dget "baseline_id" d) baseline_id && py_eq (dget "generation" d) generation
  && is_row "blocker" blocker d && is_row "evidence_hash" evidence_hash d && is_row "status" "ambiguous" d.

(** A decision recorded before is returned, and nothing is saved. *)
Definition record_worker_reconciliation_ambiguity (doc : dict) (agent_id generation blocker evidence : pyval) (now : option Z)
    : result (dict * dict) :=
  let invalid := ValueError "Worker reconciliation ambiguity is invalid" in
  match agent_id, blocker, evidence with
  | PStr agent, PStr why, PDict _ =>
      _ ← raise_if (String.eqb agent "" || negb (is_generation generation) || blank why
                    || Nat.ltb 512 (String.length why)) invalid;
      evidence_hash ← canonical_snapshot_hash evidence;
      baselines ← iter_rows "worker_takeover_baselines" doc;
      baseline ← match List.filter (active_baseline agent) (dicts_of baselines) with
                 | [b] => if py_eq (dget "generation" b) generation then Ok b
                          else Err (ValueError "Worker reconciliation baseline is invalid")
                 | _ => Err (ValueError "Worker reconciliation baseline is invalid")
                 end;
      let bad := ValueError "Worker reconciliation decisions are invalid" in
      decisions ← as_rows (rows_of "worker_reconciliation_decisions" doc) bad;
      _ ← raise_if (negb (forallb is_dict decisions)) bad;
      match List.filter (same_decision agent (dget "baseline_id" baseline) generation why evidence_hash) (dicts_of decisions) with
      | [d] => Ok (doc, d)
      | _ :: _ => Err bad
      | [] =>
          created_at ← utc_text now;
          let record := [("decision_id", PStr (gw_decision w)); ("agent_id", agent_id); ("baseline_id", dget "baseline_id" baseline);
                         ("generation", generation); ("status", PStr "ambiguous"); ("blocker", blocker);
                         ("evidence_hash", PStr evidence_hash); ("created_at", PStr created_at)] in
          let payload := pick ["decision_id"; "agent_id"; "baseline_id"; "generation"; "blocker"; "evidence_hash"] record in
          event ← as_dict (event_doc (gw_event w 0).1 "worker_reconciliation_ambiguous" (gw_event w 0).2 payload);
          doc ← append_row "conversation_event_outbox" event
                  (dset "worker_reconciliation_decisions" (PList (decisions ++ [PDict record]))
                     (ensure "worker_takeover_baselines" doc));
          doc' ← audit 1 "worker_reconciliation_ambiguous" payload doc;
          Ok (doc', record)
      end
  | _, _, _ => Err invalid
  end.
End store.

(** ** Laws *)

(** *** Tables *)

Lemma rows_with_cons k id v rows :
  rows_with k id (v :: rows) = match v with
                               | PDict d => if is_row k id d then d :: rows_with k id rows else rows_with k id rows
                               | _ => rows_with k id rows
                               end.
Proof. unfold rows_with. rewrite dicts_of_cons. by destruct v. Qed.

Lemma rows_with_app k id l l' : rows_with k id (l ++ l') = rows_with k id l ++ rows_with k id l'.
Proof. induction l as [|v l IH]; [done|]. cbn [app]. rewrite !rows_with_cons, IH. destruct v; try done. by case_match. Qed.

Lemma is_row_PStr k id d : is_row k id d = true <-> dget k d = PStr id.
Proof. apply py_eq_str. Qed.

Lemma replace_other k id id' new rows : id <> id' -> is_row k id' new = true ->
  rows_with k id (replace_first (is_row k id') new rows) = rows_with k id rows.
Proof.
  intros Hne Hnew. induction rows as [|v rows IH]; [done|]. destruct v as [| | | | | | |d]; cbn [replace_first]; try done.
  assert (Ho : forall d', is_row k id' d' = true -> is_row k id d' = false).
  { intros d' H%is_row_PStr. unfold is_row. rewrite H. cbn. by apply String.eqb_neq. }
  destruct (is_row k id' d) eqn:Hd; rewrite !rows_with_cons; [by rewrite !Ho|]. by rewrite IH.
Qed.

Lemma replace_same k id new rows p : is_row k id new = true -> rows_with k id rows = [p] ->
  rows_with k id (replace_first (is_row k id) new rows) = [new].
Proof.
  intros Hnew. induction rows as [|v rows IH]; [done|]. rewrite rows_with_cons.
  destruct v as [| | | | | | |d]; cbn [replace_first]; try (rewrite rows_with_cons; apply IH).
  destruct (is_row k id d) eqn:Hd; rewrite rows_with_cons; [|by rewrite Hd]. rewrite Hnew. intros H. by injection H as -> ->.
Qed.

Lemma rows_ensure_all k ks doc : rows_of k (ensure_all ks doc) = rows_of k doc.
Proof. unfold ensure_all. revert doc; induction ks as [|k' ks IH]; intros doc; cbn [foldl]; [done|]. by rewrite IH, rows_of_ensure. Qed.

Lemma rows_append_row k k' row doc doc' : append_row k' row doc = Ok doc' -> k <> k' -> rows_of k doc' = rows_of k doc.
Proof.
  unfold append_row. destruct (rows_of k' doc); try done. intros [= <-] Hne. rewrite rows_of_dset.
  by destruct (String.eqb_spec k k').
Qed.
Lemma rows_append_rows k k' rows doc doc' : append_rows k' rows doc = Ok doc' -> k <> k' -> rows_of k doc' = rows_of k doc.
Proof.
  unfold append_rows. intros (l & _ & [= <-])%bind_Ok Hne. rewrite rows_of_dset. by destruct (String.eqb_spec k k').
Qed.

Section store_laws.
Context {env : LeaseEnv} {ft : FloatText} {lim : RecursionLimits} {repr : PyRepr}.

Lemma rows_audit w n ty p doc doc' k : audit w n ty p doc = Ok doc' -> k <> "protocol_event_outbox" ->
  rows_of k doc' = rows_of k doc.
Proof.
  unfold audit. intros (events & _ & [= <-])%bind_Ok Hne. rewrite rows_of_dset.
  by destruct (String.eqb_spec k "protocol_event_outbox").
Qed.

Lemma rows_force_attempts w k c at_ attempts : k <> "protocol_event_outbox" -> forall n doc rest doc' n',
  force_attempts w n c at_ attempts doc = Ok (rest, doc', n') -> rows_of k doc' = rows_of k doc.
Proof.
  intros Hk. induction attempts as [|a attempts IH]; intros n doc rest doc' n'; cbn [force_attempts]; [by intros [= _ <- _]|].
  destruct (target_of c a) as [t|].
  - intros (cand & _ & H)%bind_Ok. apply bind_Ok in H as (doc1 & H1 & H). apply bind_Ok in H as ([[r d2] n2] & H2 & [= _ <- _]).
    rewrite (IH _ _ _ _ _ H2). destruct (String.eqb t "ambiguous"); [by apply (rows_audit _ _ _ _ _ _ k) in H1|by injection H1 as <-].
  - intros ([[r d2] n2] & H2 & [= _ <- _])%bind_Ok. by apply IH in H2.
Qed.

Lemma with_consumed_rows k previews id c doc :
  rows_of k (with_consumed previews id c doc)
  = if String.eqb k "governance_previews" then PList (replace_first (is_row "preview_id" id) c previews) else rows_of k doc.
Proof. unfold with_consumed. apply rows_of_dset. Qed.

Lemma find_preview_Ok previews id p : find_preview previews id = Ok p <-> rows_with "preview_id" id previews = [p].
Proof. unfold find_preview. destruct (rows_with _ _ _) as [|q [|]]; naive_solver. Qed.

(** Rows were found, so the table is a list. *)
Lemma iter_rows_list k doc rows id p : iter_rows k doc = Ok rows -> rows_with "preview_id" id rows = [p] ->
  rows_of k doc = PList rows.
Proof.
  unfold iter_rows, iter_table. assert (Hs : forall l, rows_with "preview_id" id (PStr <$> l) = []).
  { induction l as [|s l IH]; [done|]. cbn [fmap list_fmap]. by rewrite rows_with_cons. }
  destruct (rows_of k doc); cbn [py_iter]; try done; intros [= <-]; rewrite ?Hs; done.
Qed.

(** *** The governed operations *)

Inductive gov_op :=
| OpRecord (action : string) (facts : dict) (generation : pyval) (now : option Z) (ttl : pyval) (authority : option dict)
| OpSpend (preview_id action : string) (facts : dict) (generation : pyval) (now : option Z)
| OpPause (mission_id preview_id : string) (facts : dict) (generation : pyval) (now : option Z)
| OpMission (action mission_id preview_id : string) (facts : dict) (generation : pyval) (now : option Z) (authority : option dict)
| OpForceStop (preview_id : string) (facts : dict) (generation : pyval) (now : option Z)
| OpReroute (mission_id step_id agent_id to_transport preview_id : string) (facts : dict) (generation : pyval) (now : option Z)
| OpDecide (permission_id decision preview_id : string) (facts : dict) (generation : pyval) (now : option Z)
| OpOwnership (action agent_id preview_id : string) (facts : dict) (generation : pyval) (now : option Z)
| OpAmbiguity (agent_id generation blocker evidence : pyval) (now : option Z).

Definition run_gov_op (w : gov_world) (doc : dict) (op : gov_op) : result (dict * dict) :=
  match op with
  | OpRecord a f g n t c => record_governance_preview w doc a f g n t c
  | OpSpend i a f g n => spend_governance_preview w doc i a f g n
  | OpPause m i f g n => pause_mission_with_governance_preview w doc m i f g n
  | OpMission a m i f g n c => transition_mission_with_governance_preview w doc a m i f g n c
  | OpForceStop i f g n => force_stop_with_governance_preview w doc i f g n
  | OpReroute m s a t i f g n => record_transport_reroute_with_governance_preview w doc m s a t i f g n
  | OpDecide p d i f g n => decide_permission_with_governance_preview w doc p d i f g n
  | OpOwnership a x i f g n => change_worker_ownership_with_governance_preview w doc a x i f g n
  | OpAmbiguity a g b e n => record_worker_reconciliation_ambiguity w doc a g b e n
  end.

(** The preview an operation spends, and the action it spends it for. *)
Definition op_authority (op : gov_op) : option (string * string) :=
  match op with
  | OpRecord _ _ _ _ _ _ | OpAmbiguity _ _ _ _ _ => None
  | OpSpend i a _ _ _ => Some (i, a)
  | OpPause _ i _ _ _ => Some (i, "mission_pause")
  | OpMission a _ i _ _ _ _ => Some (i, a)
  | OpForceStop i _ _ _ => Some (i, "force_daemon_stop")
  | OpReroute _ _ _ _ i _ _ _ => Some (i, "reroute")
  | OpDecide _ _ i _ _ _ => Some (i, "permission_decision")
  | OpOwnership a _ i _ _ _ => Some (i, a)
  end.

(** The facts, the generation and the time that the caller passes. *)
Definition op_facts (op : gov_op) : dict :=
  match op with
  | OpRecord _ f _ _ _ _ | OpSpend _ _ f _ _ | OpPause _ _ f _ _ | OpMission _ _ _ f _ _ _ | OpForceStop _ f _ _
  | OpReroute _ _ _ _ _ f _ _ | OpDecide _ _ _ f _ _ | OpOwnership _ _ _ f _ _ => f
  | OpAmbiguity _ _ _ _ _ => []
  end.
Definition op_generation (op : gov_op) : pyval :=
  match op with
  | OpRecord _ _ g _ _ _ | OpSpend _ _ _ g _ | OpPause _ _ _ g _ | OpMission _ _ _ _ g _ _ | OpForceStop _ _ g _
  | OpReroute _ _ _ _ _ _ g _ | OpDecide _ _ _ _ g _ | OpOwnership _ _ _ _ g _ | OpAmbiguity _ g _ _ _ => g
  end.
Definition op_now (op : gov_op) : option Z :=
  match op with
  | OpRecord _ _ _ n _ _ | OpSpend _ _ _ _ n | OpPause _ _ _ _ n | OpMission _ _ _ _ _ n _ | OpForceStop _ _ _ n
  | OpReroute _ _ _ _ _ _ _ n | OpDecide _ _ _ _ _ n | OpOwnership _ _ _ _ _ n | OpAmbiguity _ _ _ _ n => n
  end.

(** *** Spending a preview *)

(** The facts of the document that the operation is about. *)
Definition mission_found (doc : dict) (mission_id : string) (facts : dict) : Prop :=
  exists missions mission, rows_of "missions" doc = PList missions /\ rows_with "mission_id" mission_id missions = [mission]
    /\ facts = mission_facts mission_id mission [].
Definition stop_found (doc facts : dict) : Prop :=
  exists missions attempts, rows_of "missions" doc = PList missions /\ rows_of "mission_attempts" doc = PList (PDict <$> attempts)
    /\ facts = force_stop_facts (List.filter (fun m => negb (existsb (fun s => is_row "status" s m) ENDED_MISSIONS)) (dicts_of missions))
                                (List.filter (fun a => negb (existsb (fun s => is_row "state" s a) SETTLED_STATES)) attempts).
Definition reroute_found (doc : dict) (mission_id step_id agent_id to_transport : string) (facts : dict) : Prop :=
  exists missions mission from projection, iter_rows "missions" doc = Ok missions /\ rows_with "mission_id" mission_id missions = [mission]
    /\ frozen_step_transport mission step_id agent_id = Ok from
    /\ validate_conversation_history (conversation_base doc) (rows_of "conversation_state_transitions" doc) = Ok projection
    /\ ownership_of projection agent_id = "agentdeck_owned"
    /\ facts = reroute_facts mission_id step_id agent_id mission "agentdeck_owned" from to_transport.
Definition permission_found (doc : dict) (permission_id decision : string) (facts : dict) : Prop :=
  exists permissions row permission mission_id attempt_id, iter_rows "permission_requests" doc = Ok permissions
    /\ rows_with "permission_id" permission_id permissions = [row] /\ _validate_permission_record (PDict row) = Ok permission
    /\ permission_binding doc permission_id = Ok (mission_id, attempt_id)
    /\ facts = permission_facts mission_id attempt_id permission_id permission decision.
(** The protocol tables are read after they were validated. *)
Definition worker_found (doc : dict) (action agent_id : string) (given facts : dict) : Prop :=
  exists source pending target projection conversation_id doc' states act, worker_action action = Some (source, pending, target)
    /\ validate_conversation_history (conversation_base doc) (rows_of "conversation_state_transitions" doc) = Ok projection
    /\ ownership_of projection agent_id = source /\ last_conversation doc = Ok conversation_id
    /\ (forall k, rows_of k doc' = rows_of k doc) /\ _validate_protocol_transition_history doc' = Ok states
    /\ activity_of agent_id states doc' = Ok act
    /\ facts = ownership_facts agent_id conversation_id source act given.

(** The facts that authorise the operation: those of the document, which the
    caller passed; a preview that is spent on its own is checked by its caller. *)
Definition facts_found (doc : dict) (op : gov_op) (facts : dict) : Prop :=
  let passed := py_eq (PDict (op_facts op)) (PDict facts) = true in
  match op with
  | OpSpend _ _ f _ _ => facts = f
  | OpPause m _ _ _ _ | OpMission _ m _ _ _ _ _ => mission_found doc m facts /\ passed
  | OpForceStop _ _ _ _ => stop_found doc facts /\ passed
  | OpReroute m s a t _ _ _ _ => reroute_found doc m s a t facts /\ passed
  | OpDecide p d _ _ _ _ => permission_found doc p d facts /\ passed
  | OpOwnership a x _ f _ _ => worker_found doc a x f facts /\ passed
  | OpRecord _ _ _ _ _ _ | OpAmbiguity _ _ _ _ _ => False
  end.

(** The caller holds the lease of the generation after the one that asked for
    the preview, of the same client and daemon, and that one was released. *)
Definition follows (w : gov_world) (doc preview caller : dict) (now : option Z) : Prop :=
  exists lineage lease runtime next, dget "controller_lineage" preview = PDict lineage
    /\ dget "controller_lease" doc = PDict lease /\ dget "daemon_runtime" doc = PDict runtime
    /\ same_field "lease_id" caller lease = true /\ same_field "client_id" caller lease = true
    /\ same_field "generation" caller lease = true /\ controller_lease_is_active (PDict lease) now = true
    /\ py_eq (dget "instance_id" runtime) (dget "daemon_instance_id" lineage) = true
    /\ same_field "daemon_instance_id" caller lineage = true /\ same_field "client_id" lease lineage = true
    /\ next_generation lineage = Ok next /\ py_eq (dget "generation" lease) next = true
    /\ _controller_lease_terminal_state_locked w doc (dget "lease_id_hash" lineage) (dget "generation" lineage) (dget "client_id" lineage)
       = Ok (Some "released").
(** The generation that the preview is bound to: the caller's, or its
    predecessor's. *)
Definition bound_to (w : gov_world) (doc : dict) (op : gov_op) (preview : dict) (generation : pyval) : Prop :=
  match op with
  | OpMission _ _ _ _ _ now (Some caller) =>
      follows w doc preview caller now
      /\ exists g z, dlookup "generation" preview = Some g /\ py_int g = Ok z /\ generation = PInt z
  | _ => generation = op_generation op
  end.

(** The one preview with the identity, which authorised the action on these
    facts, is consumed; the other previews are left as they were. *)
Definition consumes (doc doc' : dict) (preview_id action : string) (facts : dict) (generation : pyval) (now : option Z) (p : dict) : Prop :=
  exists previews t,
    rows_of "governance_previews" doc = PList previews /\ rows_with "preview_id" preview_id previews = [p]
    /\ now = Some t /\ preview_authorises p action (PDict facts) generation t
    /\ rows_of "governance_previews" doc'
       = PList (replace_first (is_row "preview_id" preview_id) (consumed_at t p) previews).
Definition spends (w : gov_world) (doc : dict) (op : gov_op) (doc' : dict) (preview_id action : string) : Prop :=
  exists p facts generation, consumes doc doc' preview_id action facts generation (op_now op) p
    /\ facts_found doc op facts /\ bound_to w doc op p generation.

Lemma consumes_intro doc doc' previews p c id action facts generation now :
  rows_of "governance_previews" doc = PList previews -> find_preview previews id = Ok p ->
  Governance.consume_governance_preview p action (PDict facts) generation now = Ok c ->
  rows_of "governance_previews" doc' = PList (replace_first (is_row "preview_id" id) c previews) ->
  consumes doc doc' id action facts generation now p.
Proof.
  intros Hp Hf%find_preview_Ok (t & -> & Ha & ->)%consume_Ok Hr. by exists previews, t.
Qed.

Lemma in_str_set_py v ks b : in_str_set v ks = Ok b -> existsb (fun s => py_eq v (PStr s)) ks = b.
Proof.
  unfold in_str_set. destruct (hashable v); [|done]. intros [= <-]. destruct v as [| | | |x| | |]; by induction ks.
Qed.
Lemma kept_rows k ks l r : filterR (fun d => b ← in_str_set (dget k d) ks; Ok (negb b)) l = Ok r ->
  r = List.filter (fun d => negb (existsb (fun s => is_row k s d) ks)) l.
Proof.
  revert r; induction l as [|d l IH]; intros r; cbn [filterR List.filter]; [by intros [= <-]|].
  intros (b & (b' & Hb%in_str_set_py & [= <-])%bind_Ok & (r' & Hr & [= <-])%bind_Ok)%bind_Ok. unfold is_row at 1. rewrite Hb, (IH _ Hr).
  by destruct b'.
Qed.

Lemma one_mission_Ok missions id status e m : one_mission missions id status e = Ok m ->
  rows_with "mission_id" id missions = [m] /\ dget "status" m = PStr status.
Proof.
  unfold one_mission. destruct (rows_with _ _ _) as [|m' [|]]; try done. destruct (py_eq _ _) eqn:Hs; [|done].
  intros [= ->]. by apply py_eq_str in Hs.
Qed.

Lemma mission_tables_Ok doc e m a p : mission_tables doc e = Ok (m, a, p) ->
  rows_of "missions" doc = PList m /\ rows_of "mission_attempts" doc = PList a /\ rows_of "governance_previews" doc = PList p.
Proof.
  unfold mission_tables. destruct (rows_of "missions" doc), (rows_of "mission_attempts" doc), (rows_of "governance_previews" doc);
    try done. by intros [= -> -> ->].
Qed.
Lemma preview_rows_Ok doc rows : preview_rows doc = Ok rows -> rows_of "governance_previews" doc = PList rows /\ forallb is_dict rows = true.
Proof.
  unfold preview_rows, as_rows. destruct (rows_of "governance_previews" doc); try done. cbn [mbind result_bind].
  intros ([] & Hg & [= <-])%bind_Ok. apply raise_if_Ok, negb_false_iff in Hg. done.
Qed.

#[local] Opaque _append_recovery_audit_locked build_governance_preview Governance.consume_governance_preview
  validate_conversation_history _validate_protocol_transition_history _validate_mission_attempt_record ensure ensure_all.

(** The table of previews after a chain of writes to other tables. *)
Ltac preview_table :=
  repeat first [rewrite with_consumed_rows | rewrite rows_of_dset | rewrite rows_ensure_all | rewrite rows_of_ensure];
  try reflexivity.

Lemma pause_spends w doc mission_id id facts generation now r :
  pause_mission_with_governance_preview w doc mission_id id facts generation now = Ok r ->
  spends w doc (OpPause mission_id id facts generation now) r.1 id "mission_pause".
Proof.
  unfold pause_mission_with_governance_preview. intros ([[m a] p] & Ht & H)%bind_Ok.
  apply bind_Ok in H as (mission & Hm & H). apply bind_Ok in H as (active & _ & H). apply bind_Ok in H as ([] & Hidle & H).
  apply bind_Ok in H as ([] & Hdrift & H). apply bind_Ok in H as (pv & Hf & H). apply bind_Ok in H as (c & Hc & H).
  apply bind_Ok in H as ([] & _ & H). apply bind_Ok in H as (at_ & _ & H). apply bind_Ok in H as (doc' & Hd & [= <-]).
  apply mission_tables_Ok in Ht as (Hms & _ & Hp). apply one_mission_Ok in Hm as [Hm _]. apply raise_if_Ok in Hidle, Hdrift.
  apply negb_false_iff in Hdrift. destruct active; [|done].
  exists pv, (mission_facts mission_id mission []), generation. split; [|split; [split; [by exists m, mission|done]|done]].
  eapply consumes_intro; try done. cbn [fst]. rewrite (rows_audit _ _ _ _ _ _ "governance_previews" Hd) by done. preview_table.
Qed.

Lemma lineage_follows w doc p a now : _validate_mission_controller_lineage_locked w doc p a now = Ok tt -> follows w doc p a now.
Proof.
  unfold _validate_mission_controller_lineage_locked. destruct (dget "controller_lineage" p) as [| | | | | | |lineage] eqn:El; try done.
  destruct (dget "controller_lease" doc) as [| | | | | | |lease] eqn:Ec; try done.
  destruct (dget "daemon_runtime" doc) as [| | | | | | |runtime] eqn:Er; try done.
  intros ([] & H1 & H)%bind_Ok. apply bind_Ok in H as (next & Hn & H). apply bind_Ok in H as ([] & H2 & H).
  apply bind_Ok in H as (terminal & Ht & H). apply raise_if_Ok in H1, H2, H. apply negb_false_iff in H2, H.
  apply bool_decide_eq_true in H as ->. rewrite !orb_false_iff, !negb_false_iff in H1. destruct_and?.
  exists lineage, lease, runtime, next. by split_and!.
Qed.

Lemma mission_spends w doc action mission_id id facts generation now authority r :
  transition_mission_with_governance_preview w doc action mission_id id facts generation now authority = Ok r ->
  spends w doc (OpMission action mission_id id facts generation now authority) r.1 id action.
Proof.
  unfold transition_mission_with_governance_preview. destruct (mission_action action) as [[[[src tgt] sr] et]|]; [|done].
  intros ([[m a] p] & Ht & H)%bind_Ok. apply bind_Ok in H as (mission & Hm & H). apply bind_Ok in H as (active & _ & H).
  apply bind_Ok in H as ([] & _ & H). apply bind_Ok in H as ([] & Hdrift & H). apply bind_Ok in H as (pv & Hf & H).
  apply bind_Ok in H as ([] & Hl & H). apply bind_Ok in H as (g & Hg & H). apply bind_Ok in H as (c & Hc & H).
  apply bind_Ok in H as ([] & _ & H). apply bind_Ok in H as (at_ & _ & H). apply bind_Ok in H as (doc' & Hd & [= <-]).
  apply mission_tables_Ok in Ht as (Hms & _ & Hp). apply one_mission_Ok in Hm as [Hm _]. apply raise_if_Ok, negb_false_iff in Hdrift.
  exists pv, (mission_facts mission_id mission []), g. split; [|split; [split; [by exists m, mission|done]|]].
  - eapply consumes_intro; try done. cbn [fst]. rewrite (rows_audit _ _ _ _ _ _ "governance_previews" Hd) by done. preview_table.
  - unfold bound_to, bound_generation in *. destruct authority as [caller|]; [|by injection Hg as <-].
    split; [by apply lineage_follows|]. destruct (dlookup "generation" pv) as [x|]; [|done]. destruct (py_int x) as [z|] eqn:Ez; [|done].
    injection Hg as <-. by exists x, z.
Qed.

Lemma force_stop_spends w doc id facts generation now r :
  force_stop_with_governance_preview w doc id facts generation now = Ok r ->
  spends w doc (OpForceStop id facts generation now) r.1 id "force_daemon_stop".
Proof.
  unfold force_stop_with_governance_preview. intros ([[m a] p] & Ht & H)%bind_Ok.
  apply bind_Ok in H as (attempts & Hv & H). apply bind_Ok in H as ([] & _ & H). apply bind_Ok in H as (open & Ho & H).
  apply bind_Ok in H as (active & Hact & H). apply bind_Ok in H as ([] & Hdrift & H). apply bind_Ok in H as (pv & Hf & H).
  apply bind_Ok in H as (c & Hc & H). apply bind_Ok in H as (cl & _ & H). apply bind_Ok in H as (at_ & _ & H).
  apply bind_Ok in H as ([[next d1] n] & _ & H). apply bind_Ok in H as (ms & _ & H). apply bind_Ok in H as (doc' & Hd & [= <-]).
  apply mission_tables_Ok in Ht as (Hms & Hats & Hp). apply kept_rows in Ho as ->. apply kept_rows in Hact as ->.
  apply raise_if_Ok, negb_false_iff in Hdrift. apply validate_rows in Hv as ->.
  eexists pv, _, generation. split; [|split; [split; [by exists m, attempts|done]|done]].
  eapply consumes_intro; try done. cbn [fst]. rewrite (rows_audit _ _ _ _ _ _ "governance_previews" Hd) by done. preview_table.
Qed.

Lemma reroute_spends w doc mission_id step_id agent_id to_transport id facts generation now r :
  record_transport_reroute_with_governance_preview w doc mission_id step_id agent_id to_transport id facts generation now = Ok r ->
  spends w doc (OpReroute mission_id step_id agent_id to_transport id facts generation now) r.1 id "reroute".
Proof.
  unfold record_transport_reroute_with_governance_preview. intros (ms & Hms & H)%bind_Ok. apply bind_Ok in H as (mission & Hm & H).
  apply bind_Ok in H as (from & Hfrom & H). apply bind_Ok in H as (kn & _ & H). apply bind_Ok in H as ([] & _ & H).
  apply bind_Ok in H as (attempts & _ & H). apply bind_Ok in H as ([] & _ & H). apply bind_Ok in H as (proj & Hproj & H).
  apply bind_Ok in H as ([] & Hown & H). apply bind_Ok in H as ([] & Hdrift & H). apply bind_Ok in H as (rr & _ & H).
  apply bind_Ok in H as ([] & _ & H). apply bind_Ok in H as ([] & _ & H). apply bind_Ok in H as (p & Hp & H).
  apply bind_Ok in H as (pv & Hf & H). apply bind_Ok in H as (c & Hc & H). apply bind_Ok in H as (at_ & _ & H).
  apply bind_Ok in H as (doc' & Hd & [= <-]). pose proof (proj1 (find_preview_Ok _ _ _) Hf) as Hr.
  apply raise_if_Ok, negb_false_iff in Hown, Hdrift. apply String.eqb_eq in Hown. rewrite Hown in Hdrift, Hc.
  destruct (rows_with _ _ ms) as [|m [|]] eqn:Erow; try done. injection Hm as ->.
  eexists pv, _, generation. split; [|split; [split; [by exists ms, mission, from, proj|done]|done]].
  eapply consumes_intro; [by eapply iter_rows_list|done..|]. cbn [fst].
  rewrite (rows_audit _ _ _ _ _ _ "governance_previews" Hd) by done. preview_table.
Qed.

Lemma permission_spends w doc permission_id decision id facts generation now r :
  decide_permission_with_governance_preview w doc permission_id decision id facts generation now = Ok r ->
  spends w doc (OpDecide permission_id decision id facts generation now) r.1 id "permission_decision".
Proof.
  unfold decide_permission_with_governance_preview. intros ([] & _ & H)%bind_Ok. apply bind_Ok in H as (d1 & Hd1 & H).
  apply bind_Ok in H as (st & _ & H). apply bind_Ok in H as (ps & Hps & H). apply bind_Ok in H as (perm & Hperm & H).
  apply bind_Ok in H as ([] & _ & H). apply bind_Ok in H as ([m a] & Hb & H). apply bind_Ok in H as ([] & Hdrift & H).
  apply bind_Ok in H as (p & Hp & H). apply bind_Ok in H as (pv & Hf & H). apply bind_Ok in H as (c & Hc & H).
  apply bind_Ok in H as (tr & _ & H). apply bind_Ok in H as (d2 & Hd2 & H). apply bind_Ok in H as (st' & _ & H).
  apply bind_Ok in H as (ev & _ & H). apply bind_Ok in H as (d3 & Hd3 & H). apply bind_Ok in H as (doc' & Hd & [= <-]).
  pose proof (fun k => identities_rows _ _ k Hd1) as E1. apply raise_if_Ok, negb_false_iff in Hdrift.
  unfold permission_binding, iter_rows in Hps, Hb. rewrite E1 in Hps, Hb. destruct (rows_with _ _ ps) as [|row [|]] eqn:Erow; try done.
  eexists pv, _, generation. split; [|split; [split; [by exists ps, row, perm, m, a|done]|done]].
  eapply consumes_intro; [|done..|].
  - rewrite <- E1. unfold as_rows in Hp. destruct (rows_of "governance_previews" d1); try done. by injection Hp as ->.
  - cbn [fst]. rewrite (rows_audit _ _ _ _ _ _ "governance_previews" Hd) by done.
    rewrite (rows_append_row "governance_previews" _ _ _ _ Hd3) by done. preview_table.
Qed.

Lemma collections_rows doc doc' k : _conversation_collections doc = Ok doc' -> rows_of k doc' = rows_of k doc.
Proof. unfold _conversation_collections. intros (us & _ & [= <-])%bind_Ok. apply rows_ensure_all. Qed.

Lemma baselines_rows w action agent g at_ facts rc baselines active doc doc' :
  with_baselines w action agent g at_ facts rc baselines active doc = Ok doc' ->
  rows_of "governance_previews" doc' = rows_of "governance_previews" doc.
Proof.
  unfold with_baselines. destruct (String.eqb action "takeover"); [by intros H; eapply rows_append_row|].
  intros (ds & _ & [= <-])%bind_Ok. preview_table.
Qed.

Lemma same_base doc doc' : (forall k, rows_of k doc' = rows_of k doc) -> conversation_base doc' = conversation_base doc.
Proof. intros E. unfold conversation_base. apply list_fmap_ext. intros i k _. by rewrite E. Qed.

Lemma ownership_spends w doc action agent_id id facts generation now r :
  change_worker_ownership_with_governance_preview w doc action agent_id id facts generation now = Ok r ->
  spends w doc (OpOwnership action agent_id id facts generation now) r.1 id action.
Proof.
  unfold change_worker_ownership_with_governance_preview. destruct (worker_action action) as [[[src pend] tgt]|] eqn:Ea; [|done].
  intros (d1 & Hd1 & H)%bind_Ok. apply bind_Ok in H as (proj & Hproj & H). apply bind_Ok in H as ([] & Hown & H).
  apply bind_Ok in H as (cid & Hcid & H). apply bind_Ok in H as (d2 & Hd2 & H). apply bind_Ok in H as (st & Hst & H).
  apply bind_Ok in H as (act & Hact & H). apply bind_Ok in H as (rc & _ & H). apply bind_Ok in H as (bs & _ & H).
  apply bind_Ok in H as ([] & _ & H). apply bind_Ok in H as ([] & Hdrift & H). apply bind_Ok in H as (p & Hp & H).
  apply bind_Ok in H as (pv & Hf & H). apply bind_Ok in H as (c & Hc & H). apply bind_Ok in H as (at_ & _ & H).
  apply bind_Ok in H as (trs & _ & H). apply bind_Ok in H as (d3 & Hd3 & H). apply bind_Ok in H as (pj & _ & H).
  apply bind_Ok in H as (d4 & Hd4 & H). apply bind_Ok in H as (ev & _ & H). apply bind_Ok in H as (d5 & Hd5 & H).
  apply bind_Ok in H as (doc' & Hd & [= <-]). pose proof (proj1 (find_preview_Ok _ _ _) Hf) as Hr.
  pose proof (fun k => collections_rows _ _ k Hd1) as E1.
  assert (E : forall k, rows_of k d2 = rows_of k doc) by (intros k; rewrite (identities_rows _ _ _ Hd2); apply E1).
  apply raise_if_Ok, negb_false_iff in Hown, Hdrift. apply String.eqb_eq in Hown. rewrite Hown in Hdrift, Hc.
  rewrite (same_base _ _ E1), E1 in Hproj. unfold last_conversation in Hcid. rewrite E1 in Hcid.
  eexists pv, _, generation. split; [|split; [split; [by exists src, pend, tgt, proj, cid, d2, st, act|done]|done]].
  eapply consumes_intro; [rewrite <- E; by eapply iter_rows_list|done..|]. cbn [fst].
  rewrite (rows_audit _ _ _ _ _ _ "governance_previews" Hd) by done.
  rewrite (rows_append_row "governance_previews" _ _ _ _ Hd5) by done. rewrite (baselines_rows _ _ _ _ _ _ _ _ _ _ _ Hd4).
  preview_table.
Qed.

Lemma spend_spends w doc id action facts generation now r :
  spend_governance_preview w doc id action facts generation now = Ok r -> spends w doc (OpSpend id action facts generation now) r.1 id action.
Proof.
  unfold spend_governance_preview. intros (p & Hp & H)%bind_Ok. apply bind_Ok in H as (pv & Hf & H).
  apply bind_Ok in H as (c & Hc & H). apply bind_Ok in H as (doc' & Hd & [= <-]). apply preview_rows_Ok in Hp as [Hp _].
  exists pv, facts, generation. split; [|done].
  eapply consumes_intro; try done. cbn [fst]. rewrite (rows_audit _ _ _ _ _ _ "governance_previews" Hd) by done. preview_table.
Qed.

Lemma gov_op_spends w doc op r id action : run_gov_op w doc op = Ok r -> op_authority op = Some (id, action) ->
  spends w doc op r.1 id action.
Proof.
  destruct op; cbn [run_gov_op op_authority]; intros H Ho; try discriminate Ho; injection Ho as -> <-.
  - by eapply spend_spends.
  - by eapply pause_spends.
  - by eapply mission_spends.
  - by eapply force_stop_spends.
  - by eapply reroute_spends.
  - by eapply permission_spends.
  - by eapply ownership_spends.
Qed.

(** The other operations add at most one preview, with a new identity. *)
Lemma gov_op_records w doc op r : run_gov_op w doc op = Ok r -> op_authority op = None ->
  rows_of "governance_previews" r.1 = rows_of "governance_previews" doc
  \/ exists previews c, rows_of "governance_previews" doc = PList previews
     /\ rows_of "governance_previews" r.1 = PList (previews ++ [PDict c])
     /\ dget "preview_id" c = PStr (gw_preview w) /\ rows_with "preview_id" (gw_preview w) previews = [].
Proof.
  destruct op; cbn [run_gov_op op_authority]; intros H Ho; try discriminate Ho.
  - unfold record_governance_preview in H. apply bind_Ok in H as (b & _ & H). apply bind_Ok in H as (l & _ & H).
    apply bind_Ok in H as ([] & _ & H). apply bind_Ok in H as (p & Hp & H). apply bind_Ok in H as ([] & Hg & H).
    apply bind_Ok in H as (doc' & Hd & [= <-]). apply preview_rows_Ok in Hp as [Hp _]. right. eexists p, _. cbn [fst].
    rewrite (rows_audit _ _ _ _ _ _ "governance_previews" Hd) by done. split; [done|].
    split; [rewrite rows_of_dset; reflexivity|]. split; [done|].
    apply raise_if_Ok in Hg. unfold rows_with.
    destruct (List.filter (is_row "preview_id" (gw_preview w)) (dicts_of p)) as [|d l'] eqn:Hfl; [done|].
    assert (Hin : In d (d :: l')) by by left. rewrite <- Hfl in Hin. apply filter_In in Hin as [Hin Hd'].
    assert (existsb (is_row "preview_id" (gw_preview w)) (dicts_of p) = true) by (apply existsb_exists; eauto). congruence.
  - left. unfold record_worker_reconciliation_ambiguity in H. destruct agent_id; try done. destruct blocker; try done.
    destruct evidence; try done. apply bind_Ok in H as ([] & _ & H). apply bind_Ok in H as (h & _ & H).
    apply bind_Ok in H as (bs & _ & H). apply bind_Ok in H as (b & _ & H). apply bind_Ok in H as (ds & _ & H).
    apply bind_Ok in H as ([] & _ & H). destruct (List.filter _ _) as [|x [|]]; [|by injection H as <-|done].
    apply bind_Ok in H as (at_ & _ & H). apply bind_Ok in H as (ev & _ & H). apply bind_Ok in H as (d1 & Hd1 & H).
    apply bind_Ok in H as (doc' & Hd & [= <-]). cbn [fst]. rewrite (rows_audit _ _ _ _ _ _ "governance_previews" Hd) by done.
    rewrite (rows_append_row "governance_previews" _ _ _ _ Hd1) by done. preview_table.
Qed.

(** The preview is spent. *)
Definition spent_in (doc : dict) (id : string) : Prop :=
  exists previews p, rows_of "governance_previews" doc = PList previews /\ rows_with "preview_id" id previews = [p]
                     /\ dget "state" p = PStr "consumed".

Lemma consumed_row t p id : is_row "preview_id" id p = true -> is_row "preview_id" id (consumed_at t p) = true.
Proof. unfold is_row, consumed_at. by rewrite !dget_dset. Qed.

Lemma rows_with_row k id rows p : p ∈ rows_with k id rows -> is_row k id p = true.
Proof. unfold rows_with. by intros [_ ?]%list_elem_of_In%filter_In. Qed.

Lemma spends_spent w doc op doc' id action : spends w doc op doc' id action -> spent_in doc' id.
Proof.
  intros (p & facts & g & (previews & t & Hp & Hr & _ & _ & Hp') & _). exists (replace_first (is_row "preview_id" id) (consumed_at t p) previews).
  exists (consumed_at t p). split; [done|]. split.
  - apply (replace_same _ _ _ _ p); [|done]. apply consumed_row, (rows_with_row _ _ previews). rewrite Hr. by left.
  - unfold consumed_at. by rewrite !dget_dset.
Qed.

Lemma spent_stays w doc op r id : run_gov_op w doc op = Ok r -> spent_in doc id ->
  spent_in r.1 id /\ forall id' action, op_authority op = Some (id', action) -> id' <> id.
Proof.
  intros H (previews & p & Hp & Hr & Hs). destruct (op_authority op) as [[id0 a]|] eqn:Ho.
  - destruct (gov_op_spends _ _ _ _ _ _ H Ho) as (p' & facts & g & (previews' & t & Hp' & Hr' & _ & Ha & Hnew) & _).
    rewrite Hp in Hp'. injection Hp' as <-.
    assert (Hne : id0 <> id).
    { intros ->. rewrite Hr in Hr'. injection Hr' as <-. destruct Ha as [_ Hpend]. congruence. }
    split; [|by intros id' action [= -> _]]. eexists _, p. split; [exact Hnew|]. split; [|done].
    rewrite replace_other; [done|by intros ->|]. apply consumed_row, (rows_with_row _ _ previews). rewrite Hr'. by left.
  - split; [|done]. destruct (gov_op_records _ _ _ _ H Ho) as [E|(previews' & c & Hp' & Hnew & Hid & Hno)].
    + exists previews, p. by rewrite E.
    + rewrite Hp in Hp'. injection Hp' as <-. eexists _, p. split; [exact Hnew|]. split; [|done].
      rewrite rows_with_app, Hr, rows_with_cons. unfold is_row. rewrite Hid. cbn.
      destruct (String.eqb_spec (gw_preview w) id) as [<-|]; [congruence|done].
Qed.

(** A history of operations that succeeded, with the previews they spent. *)
Inductive gov_run : dict -> list (string * string) -> dict -> Prop :=
| gr_end doc : gov_run doc [] doc
| gr_step w doc op r spent doc' : run_gov_op w doc op = Ok r -> gov_run r.1 spent doc' ->
    gov_run doc (option_list (op_authority op) ++ spent) doc'.

Lemma run_spends_unspent doc spent doc' : gov_run doc spent doc' -> forall id, id ∈ spent.*1 -> ~ spent_in doc id.
Proof.
  induction 1 as [doc|w doc op r spent doc' H Hrun IH]; [by intros id ?%elem_of_nil|]. intros id Hid Hs.
  destruct (spent_stays _ _ _ _ _ H Hs) as [Hs' Hne]. rewrite fmap_app in Hid. apply elem_of_app in Hid as [Hid|Hid].
  - destruct (op_authority op) as [[i a]|]; [|by apply elem_of_nil in Hid]. apply list_elem_of_singleton in Hid as ->.
    by apply (Hne i a).
  - by apply (IH id).
Qed.


(** *** Missions *)

(** The Mission an operation moves, with its edge. *)
Definition mission_edge (op : gov_op) : option (string * string * string * pyval) :=
  match op with
  | OpPause m _ _ _ _ => Some (m, "running", "stopped", PStr "human_pause")
  | OpMission a m _ _ _ _ _ =>
      match mission_action a with Some (source, target, reason, _) => Some (m, source, target, reason) | None => None end
  | _ => None
  end.

Lemma settled_or_active s : in_str_set s SETTLED_STATES = Ok true -> in_str_set s _MISSION_ATTEMPT_ACTIVE_STATES = Ok false.
Proof.
  unfold in_str_set. destruct (hashable s); [|done]. destruct s as [| | | |x| | |]; try done. intros [= H]. f_equal.
  change (in_strs x SETTLED_STATES = true) in H. apply in_strs_spec in H. destruct (in_strs x _MISSION_ATTEMPT_ACTIVE_STATES) eqn:Ha; [|done]. apply in_strs_spec in Ha.
  apply list_elem_of_In in H, Ha. cbn [In SETTLED_STATES _MISSION_ATTEMPT_ACTIVE_STATES] in H, Ha. intuition congruence.
Qed.

Lemma filterR_nil {A} (f : A -> result bool) l : filterR f l = Ok [] -> Forall (fun x => f x = Ok false) l.
Proof.
  induction l as [|x l IH]; cbn [filterR]; [constructor|]. intros (b & Hb & (r & Hr & H)%bind_Ok)%bind_Ok.
  destruct b; [done|]. injection H as ->. constructor; auto.
Qed.

(** One Mission of the document moved along an allowed edge, with no attempt of
    it active; every other Mission stayed. *)
Definition mission_moved (doc doc' : dict) (mission_id source target : string) (reason : pyval) : Prop :=
  exists missions attempts mission at_,
    rows_of "missions" doc = PList missions /\ rows_of "mission_attempts" doc = PList attempts
    /\ rows_with "mission_id" mission_id missions = [mission] /\ dget "status" mission = PStr source
    /\ mission_status_transition_allowed (PStr source) target = true
    /\ Forall (fun a => in_str_set (dget "state" a) _MISSION_ATTEMPT_ACTIVE_STATES = Ok false) (rows_with "mission_id" mission_id attempts)
    /\ let moved := dupdate [("status", PStr target); ("stop_reason", reason); ("updated_at", PStr at_)] mission in
       rows_of "missions" doc' = PList (replace_first (is_row "mission_id" mission_id) moved missions)
       /\ dget "status" moved = PStr target
       /\ forall id, id <> mission_id -> rows_with "mission_id" id (replace_first (is_row "mission_id" mission_id) moved missions)
                                         = rows_with "mission_id" id missions.

Lemma updated_mission mission_id m at_ s x missions : rows_with "mission_id" mission_id missions = [m] ->
  let moved := dupdate [("status", PStr s); ("stop_reason", x); ("updated_at", PStr at_)] m in
  dget "status" moved = PStr s /\ forall id, id <> mission_id ->
    rows_with "mission_id" id (replace_first (is_row "mission_id" mission_id) moved missions) = rows_with "mission_id" id missions.
Proof.
  intros Hm. cbn zeta. unfold dupdate. cbn [foldl fst snd]. split; [by rewrite !dget_dset|].
  intros id Hid. apply replace_other; [done|]. unfold is_row. rewrite !dget_dset. cbn.
  apply (rows_with_row _ _ missions). rewrite Hm. by left.
Qed.

Lemma pause_moves w doc mission_id id facts generation now r :
  pause_mission_with_governance_preview w doc mission_id id facts generation now = Ok r ->
  mission_moved doc r.1 mission_id "running" "stopped" (PStr "human_pause").
Proof.
  unfold pause_mission_with_governance_preview. intros ([[m a] p] & Ht & H)%bind_Ok.
  apply bind_Ok in H as (mission & Hm & H). apply bind_Ok in H as (active & Hact & H).
  apply bind_Ok in H as ([] & Hidle & H). apply bind_Ok in H as ([] & _ & H). apply bind_Ok in H as (pv & _ & H).
  apply bind_Ok in H as (c & _ & H). apply bind_Ok in H as ([] & _ & H). apply bind_Ok in H as (at_ & _ & H).
  apply bind_Ok in H as (doc' & Hd & [= <-]). apply mission_tables_Ok in Ht as (Hms & Has & _).
  apply one_mission_Ok in Hm as [Hm Hst]. exists m, a, mission, at_. pose proof (updated_mission _ _ at_ "stopped" (PStr "human_pause") _ Hm) as [H1 H2].
  destruct active; [|done]. apply filterR_nil in Hact. split_and!; try done.
  - eapply Forall_impl; [exact Hact|]. intros x (b & Hb & [= Hn])%bind_Ok. destruct b; [|done]. by apply settled_or_active.
  - cbn [fst]. split; [|by split]. rewrite (rows_audit _ _ _ _ _ _ "missions" Hd) by done. unfold with_mission. preview_table.
Qed.

Lemma action_moves w doc action mission_id id facts generation now authority source target reason event r :
  transition_mission_with_governance_preview w doc action mission_id id facts generation now authority = Ok r ->
  mission_action action = Some (source, target, reason, event) -> mission_moved doc r.1 mission_id source target reason.
Proof.
  unfold transition_mission_with_governance_preview. intros H Ha. rewrite Ha in H.
  apply bind_Ok in H as ([[m a] p] & Ht & H). apply bind_Ok in H as (mission & Hm & H). apply bind_Ok in H as (active & Hact & H).
  apply bind_Ok in H as ([] & Hidle & H). apply bind_Ok in H as ([] & _ & H). apply bind_Ok in H as (pv & _ & H).
  apply bind_Ok in H as ([] & _ & H). apply bind_Ok in H as (g & _ & H). apply bind_Ok in H as (c & _ & H).
  apply bind_Ok in H as ([] & Htr & H). apply bind_Ok in H as (at_ & _ & H). apply bind_Ok in H as (doc' & Hd & [= <-]).
  apply mission_tables_Ok in Ht as (Hms & Has & _). apply one_mission_Ok in Hm as [Hm Hst].
  apply raise_if_Ok, negb_false_iff in Htr. destruct active; [|done]. apply filterR_nil in Hact.
  exists m, a, mission, at_. pose proof (updated_mission _ _ at_ target reason _ Hm) as [H1 H2]. split_and!; try done.
  cbn [fst]. split; [|by split]. rewrite (rows_audit _ _ _ _ _ _ "missions" Hd) by done. unfold with_mission. preview_table.
Qed.

(** C20: A pause, resume or cancellation that succeeds moves exactly one Mission,
    along an allowed status transition from the status the action starts from,
    and only while none of its attempts is active; every other Mission stays. *)
Theorem mission_moves_at_idle_boundary w doc op r mission_id source target reason :
  run_gov_op w doc op = Ok r -> mission_edge op = Some (mission_id, source, target, reason) ->
  mission_moved doc r.1 mission_id source target reason.
Proof.
  destruct op; cbn [run_gov_op mission_edge]; intros H Hop; try discriminate Hop.
  - injection Hop as -> <- <- <-. by eapply pause_moves.
  - destruct (mission_action action) as [[[[src tgt] sr] et]|] eqn:Ha; [|done]. injection Hop as -> <- <- <-.
    by eapply action_moves.
Qed.

(** *** Forced stop and the admission history *)

Lemma classify_attempt_id seen a id t : classify_attempt seen (PDict a) = Ok (id, t) ->
  dget "attempt_id" a = PStr id /\ in_strs id seen = false
  /\ (state_is "prepared" a = true -> t = Some "interrupted")
  /\ (t = Some "ambiguous" -> state_is "prepared" a = false).
Proof.
  unfold classify_attempt. destruct (dget "attempt_id" a) as [| | | |s| | |]; try done.
  intros ([] & Hg & H)%bind_Ok. apply raise_if_Ok, orb_false_iff in Hg as [_ Hseen]. apply bind_Ok in H as (st & Hst & H).
  assert (Hps : state_is "prepared" a = true -> st = false).
  { intros Hp. apply py_eq_str in Hp. rewrite Hp in Hst. by injection Hst as <-. }
  destruct st; [injection H as <- <-; split_and!; try done; intros Hp; by apply Hps in Hp|].
  destruct (state_is "prepared" a && is_none _) eqn:Hp; [by injection H as <- <-|].
  apply bind_Ok in H as (act & Hact & H). destruct act; [|done]. injection H as <- <-.
  assert (Hn : state_is "prepared" a = false).
  { destruct (state_is "prepared" a) eqn:E; [|done]. apply py_eq_str in E. by rewrite E in Hact. }
  split_and!; try done. by rewrite Hn.
Qed.

Lemma classify_seen attempts : forall seen l, classify_attempts seen (PDict <$> attempts) = Ok l ->
  (forall p, p ∈ l -> in_strs p.1 seen = false)
  /\ forall a, a ∈ attempts -> exists id, dget "attempt_id" a = PStr id /\ in_strs id seen = false.
Proof.
  induction attempts as [|a attempts IH]; intros seen l; cbn [fmap list_fmap classify_attempts].
  { intros [= <-]. split; intros x ?%elem_of_nil; done. }
  intros ([id t] & Hc & (rest & Hr & [= <-])%bind_Ok)%bind_Ok. apply classify_attempt_id in Hc as (Hid & Hs & _ & _).
  destruct (IH _ _ Hr) as [Hl Ha].
  assert (Hcons : forall s, in_strs s (id :: seen) = false -> in_strs s seen = false) by (intros s [_ H]%orb_false_iff; done).
  split.
  - intros p Hp. assert (p ∈ (id, default "" t) :: rest) as [->|Hin]%elem_of_cons; [|done|by apply Hcons, Hl].
    destruct t; [done|by right].
  - intros x [->|Hx]%elem_of_cons; [by exists id|]. destruct (Ha x Hx) as (i & Hi & Hn). exists i. split; [done|by apply Hcons].
Qed.

(** How the forced stop classifies an attempt; a prepared one is interrupted. *)
Lemma target_spec attempts : forall seen l, classify_attempts seen (PDict <$> attempts) = Ok l -> forall a, a ∈ attempts ->
  (state_is "prepared" a = true -> target_of l a = Some "interrupted")
  /\ (target_of l a = Some "ambiguous" -> state_is "prepared" a = false).
Proof.
  induction attempts as [|a attempts IH]; intros seen l; cbn [fmap list_fmap classify_attempts]; [by intros _ a ?%elem_of_nil|].
  intros ([id t] & Hc & (rest & Hr & [= <-])%bind_Ok)%bind_Ok x Hx.
  apply classify_attempt_id in Hc as (Hid & _ & Hp & Ham). destruct (classify_seen _ _ _ Hr) as [Hl Hrest].
  assert (Hself : forall tt k, target_of ((id, tt) :: k) a = Some tt).
  { intros tt k. unfold target_of, find_first. cbn [List.filter fst]. by rewrite Hid, (proj2 (py_eq_str _ _) eq_refl). }
  assert (Hmiss : target_of rest a = None).
  { unfold target_of. destruct (find_first _ rest) as [p|] eqn:Hf; [|done]. apply find_first_Some in Hf as [Hin Hpe].
    rewrite Hid in Hpe. apply py_eq_str in Hpe. injection Hpe as Hpe. specialize (Hl p Hin).
    rewrite <- Hpe in Hl. cbn in Hl. by rewrite String.eqb_refl in Hl. }
  apply elem_of_cons in Hx as [->|Hx].
  - split; [intros H; rewrite (Hp H); apply Hself|]. destruct t as [t|]; [|by rewrite Hmiss]. rewrite Hself. apply Ham.
  - destruct (Hrest x Hx) as (i & Hi & Hn). assert (target_of (match t with Some t => (id, t) :: rest | None => rest end) x = target_of rest x) as ->.
    { destruct t as [t|]; [|done]. unfold target_of, find_first. cbn [List.filter fst]. rewrite Hi. cbn [py_eq num_of].
      destruct (String.eqb_spec i id) as [->|]; [|done]. cbn in Hn. by rewrite String.eqb_refl in Hn. }
    by eapply IH.
Qed.

Lemma forced_attempt w c at_ attempts : forall n doc rest doc' n', force_attempts w n c at_ attempts doc = Ok (rest, doc', n') ->
  forall a t, a ∈ attempts -> target_of c a = Some t -> forced a t at_ ∈ rest.
Proof.
  induction attempts as [|x attempts IH]; intros n doc rest doc' n'; cbn [force_attempts]; [by intros _ a t ?%elem_of_nil|].
  intros H a t Ha Ht. destruct (target_of c x) as [tx|] eqn:Hx.
  - apply bind_Ok in H as (cand & Hc & H). apply bind_Ok in H as (d1 & _ & H). apply bind_Ok in H as ([[r d2] n2] & H2 & [= <- _ _]).
    apply validate_attempt_Ok in Hc as [[= <-] _]. apply elem_of_cons in Ha as [->|Ha]; [|right; by eapply IH].
    rewrite Hx in Ht. injection Ht as ->. by left.
  - apply bind_Ok in H as ([[r d2] n2] & H2 & [= <- _ _]). apply elem_of_cons in Ha as [->|Ha]; [congruence|].
    right. by eapply IH.
Qed.

#[local] Transparent _append_recovery_audit_locked.
(** An audit event that does not concern an attempt leaves its history. *)
Lemma audit_quiet w n ty p doc doc' key records' : audit w n ty p doc = Ok doc' ->
  event_of key (event_doc (gw_event w n).1 ty (gw_event w n).2 p) = None ->
  recorded_events (sw_journal (gw_store w)) (event_outbox doc') = Ok records' ->
  exists records, recorded_events (sw_journal (gw_store w)) (event_outbox doc) = Ok records
                  /\ events_of key records' = events_of key records.
Proof.
  unfold audit. intros (events & He & [= <-])%bind_Ok Hq. unfold _append_recovery_audit_locked in He.
  apply bind_Ok in He as (i & _ & He). apply bind_Ok in He as (ids & Hids & He). apply bind_Ok in He as ([] & _ & He).
  apply bind_Ok in He as (js & _ & He). apply bind_Ok in He as ([] & _ & He).
  destruct (event_outbox doc) as [| | | | |l| |] eqn:Hbox; try done. injection He as <-.
  assert (event_outbox (dset "protocol_event_outbox" (PList (l ++ [event_doc (gw_event w n).1 ty (gw_event w n).2 p])) doc)
          = PList (l ++ [event_doc (gw_event w n).1 ty (gw_event w n).2 p])) as -> by (unfold event_outbox; by rewrite dlookup_dset_eq).
  intros (records & extra & Hr & -> & Hx)%recorded_snoc. exists records. split; [done|].
  unfold events_of. rewrite omap_app. destruct Hx as [->| ->]; cbn [omap list_omap]; [by rewrite app_nil_r|].
  rewrite Hq. by rewrite app_nil_r.
Qed.

Lemma force_attempts_quiet w c at_ key attempts :
  (forall b, b ∈ attempts -> target_of c b = Some "ambiguous" -> dget "attempt_id" b <> PStr key.1) ->
  forall n doc rest doc' n' records', force_attempts w n c at_ attempts doc = Ok (rest, doc', n') ->
  recorded_events (sw_journal (gw_store w)) (event_outbox doc') = Ok records' ->
  exists records, recorded_events (sw_journal (gw_store w)) (event_outbox doc) = Ok records
                  /\ events_of key records' = events_of key records.
Proof.
  induction attempts as [|x attempts IH]; intros Hq n doc rest doc' n' records'; cbn [force_attempts].
  { intros [= _ <- _]. by exists records'. }
  specialize (IH ltac:(intros b Hb; apply Hq; by right)). destruct (target_of c x) as [t|] eqn:Hx.
  - intros (cand & _ & H)%bind_Ok Hr. apply bind_Ok in H as (d1 & H1 & H). apply bind_Ok in H as ([[r d2] n2] & H2 & [= _ <- _]).
    destruct (IH _ _ _ _ _ _ H2 Hr) as (r1 & Hr1 & E). rewrite E. destruct (String.eqb_spec t "ambiguous") as [->|Ht].
    + eapply audit_quiet; [exact H1| |exact Hr1]. specialize (Hq x ltac:(by left) Hx). cbn.
      destruct (py_eq (dget "attempt_id" x) (PStr key.1)) eqn:E1; [|done]. by apply py_eq_str in E1.
    + injection H1 as <-. by exists r1.
  - intros ([[r d2] n2] & H2 & [= _ <- _])%bind_Ok Hr. by eapply IH.
Qed.

Lemma forced_interrupted a at_ : dget "admission_claim_id" a = PNone ->
  lineage_of (forced a "interrupted" at_) = lineage_of a /\ phase_of (forced a "interrupted" at_) = Stopped "interrupted".
Proof.
  intros Hc. unfold forced, lineage_of, phase_of, claim_of, state_is, field, dupdate. cbn [foldl fst snd].
  rewrite !dget_dset. cbn. by rewrite Hc.
Qed.

Lemma NoDup_fmap_same {A B} (f : A -> B) l x y : NoDup (f <$> l) -> x ∈ l -> y ∈ l -> f x = f y -> x = y.
Proof.
  intros Hn [i Hi]%list_elem_of_lookup_1 [j Hj]%list_elem_of_lookup_1 Hf.
  assert (i = j) as -> by (eapply (NoDup_lookup (f <$> l)); [done|rewrite list_lookup_fmap, Hi; reflexivity|]; rewrite list_lookup_fmap, Hj, Hf; reflexivity).
  congruence.
Qed.

(** What a forced stop does to the attempts and to the outbox. *)
Lemma force_stop_attempts w doc attempts preview_id facts generation now r :
  attempts_table doc = PList (PDict <$> attempts) -> mapR _validate_mission_attempt_record (PDict <$> attempts) = Ok attempts ->
  force_stop_with_governance_preview w doc preview_id facts generation now = Ok r ->
  exists classified at_ next d0 d1 n d2 payload,
    classify_force_stop_attempts (PDict <$> attempts) = Ok classified
    /\ event_outbox d0 = event_outbox doc /\ force_attempts w 0 classified at_ attempts d0 = Ok (next, d1, n)
    /\ event_outbox d2 = event_outbox d1 /\ audit w n "daemon_force_stopped" payload d2 = Ok r.1
    /\ dget "attempt_id" payload = PNone /\ attempts_table r.1 = PList (PDict <$> next).
Proof.
  intros Htab Hval Hf. unfold force_stop_with_governance_preview in Hf. apply bind_Ok in Hf as ([[m at0] p] & Ht & Hf).
  apply mission_tables_Ok in Ht as (_ & Hat & _). change (rows_of "mission_attempts" doc) with (attempts_table doc) in Hat.
  rewrite Htab in Hat. injection Hat as <-. apply bind_Ok in Hf as (attempts0 & Hv & Hf). rewrite Hval in Hv. injection Hv as <-.
  apply bind_Ok in Hf as ([] & _ & Hf). apply bind_Ok in Hf as (op & _ & Hf). apply bind_Ok in Hf as (act & _ & Hf).
  apply bind_Ok in Hf as ([] & _ & Hf). apply bind_Ok in Hf as (pv & _ & Hf). apply bind_Ok in Hf as (c & _ & Hf).
  apply bind_Ok in Hf as (cl & Hcl & Hf). apply bind_Ok in Hf as (at_ & _ & Hf).
  apply bind_Ok in Hf as ([[next d1] n] & Hforce & Hf). apply bind_Ok in Hf as (ms & _ & Hf).
  apply bind_Ok in Hf as (d3 & Hd & [= <-]). cbn [fst]. eexists cl, at_, next, _, d1, n, _, _.
  split; [done|]. split; [|split; [exact Hforce|]]; [apply rows_ensure_all|]. split; [|split; [exact Hd|split; [done|]]].
  - change (rows_of "protocol_event_outbox" (with_consumed p preview_id c
              (dset "mission_attempts" (PList (PDict <$> next)) (dset "missions" (PList ms) d1)))
            = rows_of "protocol_event_outbox" d1). preview_table.
  - change (rows_of "mission_attempts" d3 = PList (PDict <$> next)).
    rewrite (rows_audit _ _ _ _ _ _ "mission_attempts" Hd) by done. preview_table.
Qed.

(** C21: A forced stop that finds a prepared attempt leaves a document whose
    admission history its own validator rejects: the attempt is interrupted but
    no event says that it was stopped before its dispatch. *)
Theorem force_stop_of_prepared_attempt_breaks_history w doc attempts records preview_id facts generation now r a :
  coherent (sw_journal (gw_store w)) doc attempts records -> a ∈ attempts -> state_is "prepared" a = true ->
  force_stop_with_governance_preview w doc preview_id facts generation now = Ok r ->
  forall attempts' records', ~ coherent (sw_journal (gw_store w)) r.1 attempts' records'.
Proof.
  intros Hcoh Ha Hprep Hf attempts' records' Hcoh'. pose proof (coherent_path _ _ _ _ a Hcoh Ha) as Hpath.
  destruct Hcoh as ((rows & Hload) & Hrec & _). apply load_attempts_Ok in Hload as (Htab & -> & Hval & [Huniq _]%unique_iff).
  destruct (force_stop_attempts _ _ _ _ _ _ _ _ Htab Hval Hf) as (cl & at_ & next & d0 & d1 & n & d2 & pl & Hcl & H0 & Hforce & H2 & Hd & Hpl & Hnext).
  pose proof (target_spec _ _ _ Hcl) as Htarget. apply mapR_Ok in Hval.
  destruct (list_elem_of_lookup_1 _ _ Ha) as [i Hi]. destruct (Forall2_lookup_r _ _ _ _ _ Hval Hi) as (v & _ & Hva).
  apply validate_attempt_Ok in Hva as [_ Hclaim]. destruct (forced_interrupted a at_ (Hclaim Hprep)) as [Hlin Hph].
  pose proof (forced_attempt _ _ _ _ _ _ _ _ _ Hforce a _ Ha (proj1 (Htarget a Ha) Hprep)) as Hin.
  assert (Hin' : forced a "interrupted" at_ ∈ attempts').
  { destruct Hcoh' as ((rows' & Hl') & _ & _). apply load_attempts_Ok in Hl' as (Ht' & -> & _ & _). rewrite Hnext in Ht'.
    injection Ht' as Heq. assert (Inj (=) (=) PDict) by (by intros ?? [=]). by apply (inj (fmap PDict)) in Heq as <-. }
  pose proof (coherent_path _ _ _ _ _ Hcoh' Hin') as Hpath'. rewrite Hlin, Hph in Hpath'. destruct Hcoh' as (_ & Hrec' & _).
  destruct (audit_quiet _ _ _ _ _ _ (lineage_of a) records' Hd) as (r1 & Hr1 & E1); [by cbn; rewrite Hpl|exact Hrec'|].
  rewrite H2 in Hr1. eapply force_attempts_quiet with (key := lineage_of a) in Hforce as (r0 & Hr0 & E0); [|
    |exact Hr1].
  - rewrite H0, Hrec in Hr0. injection Hr0 as <-. rewrite E1, E0 in Hpath'.
    unfold phase_of, claim_of in Hpath. rewrite Hprep, (Hclaim Hprep) in Hpath. discriminate (path_fun _ _ _ _ Hpath Hpath').
  - intros b Hb Hamb Heq. apply Htarget in Hamb; [|done].
    assert (b = a) as -> by (apply (NoDup_fmap_same _ _ _ _ Huniq Hb Ha); unfold field at 1; by rewrite Heq).
    congruence.
Qed.

(** A Mission that waits for its confirmation makes every forced stop fail. *)
Lemma force_stop_needs_confirmed_missions w doc preview_id facts generation now missions m :
  rows_of "missions" doc = PList missions -> PDict m ∈ missions -> dget "status" m = PStr "pending_confirmation" ->
  is_ok (force_stop_with_governance_preview w doc preview_id facts generation now) = false.
Proof.
  intros Hm Hin Hst. destruct (force_stop_with_governance_preview _ _ _ _ _ _) as [r|] eqn:Hf; [|done]. exfalso.
  unfold force_stop_with_governance_preview in Hf. apply bind_Ok in Hf as ([[m0 at0] p] & Ht & Hf).
  apply mission_tables_Ok in Ht as (Hm' & _ & _). rewrite Hm in Hm'. injection Hm' as <-.
  apply bind_Ok in Hf as (attempts0 & Hv & Hf).
  apply bind_Ok in Hf as ([] & _ & Hf). apply bind_Ok in Hf as (op & _ & Hf). apply bind_Ok in Hf as (act & _ & Hf).
  apply bind_Ok in Hf as ([] & _ & Hf). apply bind_Ok in Hf as (pv & _ & Hf). apply bind_Ok in Hf as (c & _ & Hf).
  apply bind_Ok in Hf as (cl & Hcl & Hf). apply bind_Ok in Hf as (at_ & _ & Hf).
  apply bind_Ok in Hf as ([[next d1] n] & _ & Hf). apply bind_Ok in Hf as (ms & Hms & _). apply mapR_Ok in Hms.
  apply list_elem_of_lookup_1 in Hin as [i Hi]. destruct (Forall2_lookup_l _ _ _ _ _ Hms Hi) as (y & _ & Hy).
  cbn in Hy. rewrite Hst in Hy. cbn in Hy. done.
Qed.

(** *** Reroutes *)

(** The Mission statuses a stored reroute may carry. *)
Definition REROUTED_STATUSES : list string := ["pending_confirmation"; "preparing"; "running"; "stopped"].

Lemma reroute_recorded w doc mission_id step_id agent_id to_transport id facts generation now r :
  record_transport_reroute_with_governance_preview w doc mission_id step_id agent_id to_transport id facts generation now = Ok r ->
  exists missions mission from reroutes t,
    rows_of "missions" doc = missions /\ frozen_step_transport mission step_id agent_id = Ok (PStr from)
    /\ (exists ms, iter_rows "missions" doc = Ok ms /\ rows_with "mission_id" mission_id ms = [mission])
    /\ from ∈ TRANSPORTS /\ to_transport ∈ TRANSPORTS /\ from <> to_transport
    /\ rows_of "mission_transport_reroutes" doc = PList reroutes /\ forallb is_dict reroutes = true
    /\ List.filter (fun r => is_row "mission_id" mission_id r && is_row "step_id" step_id r) (dicts_of reroutes) = []
    /\ now = Some t /\ representable t = true
    /\ rows_of "mission_transport_reroutes" r.1
       = PList (reroutes ++ [PDict (reroute_facts mission_id step_id agent_id mission "agentdeck_owned" (PStr from) to_transport
                                    ++ [("preview_id", PStr id); ("generation", generation); ("created_at", PStr (isoformat t))])]).
Proof.
  unfold record_transport_reroute_with_governance_preview. intros (ms & Hms & H)%bind_Ok. apply bind_Ok in H as (mission & Hm & H).
  apply bind_Ok in H as (from & Hfrom & H). apply bind_Ok in H as (kn & Hkn & H). apply bind_Ok in H as ([] & Hg & H).
  apply bind_Ok in H as (attempts & _ & H). apply bind_Ok in H as ([] & _ & H). apply bind_Ok in H as (proj & _ & H).
  apply bind_Ok in H as ([] & Hown & H). apply bind_Ok in H as ([] & _ & H). apply bind_Ok in H as (rr & Hrr & H).
  apply bind_Ok in H as ([] & Hdicts & H). apply bind_Ok in H as ([] & Hnew & H). apply bind_Ok in H as (p & Hp & H).
  apply bind_Ok in H as (pv & Hf & H). apply bind_Ok in H as (c & Hc & H). apply bind_Ok in H as (at_ & Hat & H).
  apply bind_Ok in H as (doc' & Hd & [= <-]). apply raise_if_Ok in Hg, Hown, Hdicts, Hnew.
  apply negb_false_iff in Hown, Hdicts. apply String.eqb_eq in Hown. rewrite Hown in Hd.
  apply orb_false_iff in Hg as [[Hk Ht%negb_false_iff]%orb_false_iff Hne]. apply negb_false_iff in Hk. subst kn.
  assert (exists f, from = PStr f) as [f ->].
  { unfold in_str_set in Hkn. destruct (hashable from); [|done]. destruct from; try done. by eexists. }
  injection Hkn as Hfr. destruct now as [t|]; [|done].
  unfold utc_text, to_utc in Hat. destruct (representable t) eqn:Hrt; [|done]. injection Hat as <-.
  exists (rows_of "missions" doc), mission, f, rr, t. unfold as_rows in Hrr.
  destruct (rows_of "mission_transport_reroutes" doc) as [| | | | |rr'| |] eqn:Hrows; try done. injection Hrr as ->.
  destruct (rows_with _ _ ms) as [|m' [|]] eqn:Hmm; try done. injection Hm as ->.
  split_and!; try done.
  - by exists ms.
  - by apply in_strs_spec.
  - by apply in_strs_spec.
  - intros ->. cbn in Hne. by rewrite String.eqb_refl in Hne.
  - destruct (List.filter _ (dicts_of rr)) as [|d l'] eqn:Hfl; [done|].
    assert (Hin : In d (d :: l')) by by left. rewrite <- Hfl in Hin. apply filter_In in Hin as [Hin Hd'].
    assert (existsb (fun r => is_row "mission_id" mission_id r && is_row "step_id" step_id r) (dicts_of rr) = true)
      by (apply existsb_exists; eauto). congruence.
  - cbn [fst]. rewrite (rows_audit _ _ _ _ _ _ "mission_transport_reroutes" Hd) by done. preview_table.
Qed.

(** The stored record, checked when the transport is asked for. *)
Lemma check_recorded {laws : LeaseEnvLaws} mission_id step_id agent_id mission from to_transport id generation t status :
  from ∈ TRANSPORTS -> to_transport ∈ TRANSPORTS -> from <> to_transport -> representable t = true -> id <> "" ->
  is_generation generation = true -> is_form content_hash_form (dget "snapshot_hash" mission) = true ->
  (exists z, dget "current_step" mission = PInt z /\ (0 <= z)%Z) -> dget "status" mission = PStr status ->
  check_reroute (reroute_facts mission_id step_id agent_id mission "agentdeck_owned" (PStr from) to_transport
                 ++ [("preview_id", PStr id); ("generation", generation); ("created_at", PStr (isoformat t))]) agent_id from
  = if in_strs status REROUTED_STATUSES then Ok tt else Err (GovernanceError "transport reroute lineage is invalid").
Proof.
  intros Hf Ht Hne Hrt Hid Hg Hhash (z & Hz & Hz0) Hst. set (record := _ ++ _). unfold check_reroute.
  assert (keys_are _REROUTE_RECORD_FIELDS record = true) as -> by done.
  assert (dget "agent_id" record = PStr agent_id) as -> by done.
  assert (dget "from_transport" record = PStr from) as -> by done.
  assert (dget "to_transport" record = PStr to_transport) as -> by done.
  assert (dget "snapshot_hash" record = dget "snapshot_hash" mission) as -> by done.
  assert (dget "mission_status" record = PStr status) as -> by done.
  assert (dget "current_step" record = PInt z) as -> by done.
  assert (owned "agentdeck_owned" record = true) as -> by done.
  assert (dget "attempt_state" record = PStr "none") as -> by done.
  assert (dget "preview_id" record = PStr id) as -> by done.
  assert (dget "generation" record = generation) as -> by done.
  assert (dget "created_at" record = PStr (isoformat t)) as -> by done.
  rewrite !(proj2 (py_eq_str _ _) eq_refl), !in_str_set_str, (proj2 (in_strs_spec to_transport _) Ht), Hhash, Hg.
  assert (py_eq (PStr to_transport) (PStr from) = false) as -> by (cbn; by apply String.eqb_neq; intros ->).
  assert (is_form nonempty (PStr id) = true) as -> by (cbn; unfold nonempty; by apply String.eqb_neq in Hid as ->).
  apply Z.leb_le in Hz0. rewrite Hz0. unfold aware_instant. rewrite isoformat_parse by done.
  cbn [negb orb raise_if mbind result_bind]. fold REROUTED_STATUSES. by destruct (in_strs status REROUTED_STATUSES).
Qed.

(** C22: A reroute that was recorded is the transport of the step's next attempt,
    unless the Mission was completed or interrupted when it was recorded: the
    operation accepts it then too, but the record it saves is refused whenever
    the transport is asked for. *)
Theorem reroute_takes_effect {laws : LeaseEnvLaws} w doc mission_id step_id agent_id to_transport id facts generation now r :
  record_transport_reroute_with_governance_preview w doc mission_id step_id agent_id to_transport id facts generation now = Ok r ->
  id <> "" -> is_generation generation = true ->
  exists mission from,
    (exists missions, iter_rows "missions" doc = Ok missions /\ rows_with "mission_id" mission_id missions = [mission])
    /\ frozen_step_transport mission step_id agent_id = Ok (PStr from)
    /\ (is_form content_hash_form (dget "snapshot_hash" mission) = true ->
        (exists z, dget "current_step" mission = PInt z /\ (0 <= z)%Z) ->
        forall status, dget "status" mission = PStr status ->
        effective_transport_for_step r.1 mission_id step_id agent_id from
        = if in_strs status REROUTED_STATUSES then Ok to_transport
          else Err (GovernanceError "transport reroute lineage is invalid")).
Proof.
  intros H Hid Hgen. destruct (reroute_recorded _ _ _ _ _ _ _ _ _ _ _ H)
    as (missions & mission & from & rr & t & _ & Hfrom & Hmission & Hf & Ht & Hne & _ & Hdicts & Hnone & _ & Hrt & Hnew).
  exists mission, from. do 2 (split; [done|]). intros Hhash (z & Hz & Hz0) status Hst. unfold effective_transport_for_step.
  rewrite (proj2 (in_strs_spec _ _) Hf). cbn [negb raise_if mbind result_bind].
  change (match dlookup "mission_transport_reroutes" r.1 with Some v => v | None => PList [] end)
    with (rows_of "mission_transport_reroutes" r.1). rewrite Hnew.
  assert (forallb is_dict (rr ++ [PDict (reroute_facts mission_id step_id agent_id mission "agentdeck_owned" (PStr from) to_transport
    ++ [("preview_id", PStr id); ("generation", generation); ("created_at", PStr (isoformat t))])]) = true) as ->
    by (rewrite forallb_app, Hdicts; done).
  cbn [negb raise_if mbind result_bind]. unfold dicts_of in *. rewrite omap_app, List.filter_app.
  unfold is_row in Hnone. rewrite Hnone. set (record := reroute_facts _ _ _ _ _ _ _ ++ _).
  cbn [omap list_omap app List.filter].
  assert (py_eq (dget "mission_id" record) (PStr mission_id) && py_eq (dget "step_id" record) (PStr step_id) = true) as ->
    by (cbn; by rewrite !String.eqb_refl).
  assert (Hcheck : check_reroute record agent_id from = if in_strs status REROUTED_STATUSES then Ok tt
                   else Err (GovernanceError "transport reroute lineage is invalid"))
    by (eapply check_recorded; eauto).
  rewrite Hcheck. by destruct (in_strs status REROUTED_STATUSES).
Qed.
End store_laws.

(** ** Witnesses *)

#[local] Existing Instance sample_env.
#[local] Existing Instance sample_laws.
#[local] Existing Instance sample_float_text.
#[local] Existing Instance sample_limits.
#[local] Existing Instance no_text.

Definition sample_gov (n : nat) : gov_world :=
  GovWorld (sample_world n) (fun i => ("evt_" +:+ pretty (n * 100 + i), instant_text 5)) ("gov_" +:+ pretty n)
    (fun i => "cst_" +:+ pretty (n * 100 + i)) ("pst_" +:+ pretty n, instant_text 5) ("wob_" +:+ pretty n) ("wrd_" +:+ pretty n).

Definition sample_mission (status : string) : dict :=
  [("mission_id", PStr "mis_0123456789ab"); ("status", PStr status); ("current_step", PInt 0);
   ("snapshot_hash", PStr ("sha256:" +:+ sample_digest))].
Definition sample_doc (status : string) (attempts : list dict) : dict :=
  [("missions", PList [PDict (sample_mission status)]); ("mission_attempts", PList (PDict <$> attempts))].
Definition pause_facts : dict := mission_facts "mis_0123456789ab" (sample_mission "running") [].
Definition after (r : result (dict * dict)) : dict := match r with Ok r => r.1 | Err _ => [] end.

Definition doc0 : dict := sample_doc "running" [].
Definition op1 : gov_op := OpRecord "mission_pause" pause_facts (PInt 1) (Some 10%Z) (PInt 60) None.
Definition doc1 : dict := after (run_gov_op (sample_gov 1) doc0 op1).
Definition op2 : gov_op := OpPause "mis_0123456789ab" "gov_1" pause_facts (PInt 1) (Some 20%Z).
Definition doc2 : dict := after (run_gov_op (sample_gov 2) doc1 op2).
Lemma ok_of {A} (r : result A) : is_ok r = true -> exists x, r = Ok x.
Proof. apply is_ok_exists. Qed.

Lemma op1_runs : exists r, run_gov_op (sample_gov 1) doc0 op1 = Ok r.
Proof. apply ok_of. by vm_compute. Qed.
Lemma op2_runs : exists r, run_gov_op (sample_gov 2) doc1 op2 = Ok r.
Proof. apply ok_of. by vm_compute. Qed.

Lemma sample_gov_run : gov_run doc0 [("gov_1", "mission_pause")] doc2.
Proof.
  assert (forall n d op, (exists r, run_gov_op (sample_gov n) d op = Ok r) ->
            run_gov_op (sample_gov n) d op = Ok (after (run_gov_op (sample_gov n) d op), (match run_gov_op (sample_gov n) d op with Ok r => r.2 | Err _ => [] end))) as Hrun.
  { intros n d op [[d' v] E]. rewrite E. done. }
  pose proof (Hrun _ _ _ op1_runs) as H1. pose proof (Hrun _ _ _ op2_runs) as H2.
  apply (gr_step _ _ op1 _ [("gov_1", "mission_pause")] doc2 H1). cbn [fst].
  apply (gr_step _ _ op2 _ [] doc2 H2). constructor.
Qed.


Lemma mission_moves_at_idle_boundary_witness :
  exists r, run_gov_op (sample_gov 2) doc1 op2 = Ok r
    /\ mission_moved doc1 r.1 "mis_0123456789ab" "running" "stopped" (PStr "human_pause").
Proof.
  destruct op2_runs as [r H]. exists r. split; [exact H|].
  apply (mission_moves_at_idle_boundary (sample_gov 2) doc1 op2 r); [exact H|reflexivity].
Defined.

(** A running Mission with an attempt whose task was not sent. *)
Definition stop_facts : dict := force_stop_facts [sample_mission "running"] [prepared_attempt].
Definition stop_doc0 : dict := sample_doc "running" [prepared_attempt].
Definition stop_doc : dict :=
  after (run_gov_op (sample_gov 1) stop_doc0 (OpRecord "force_daemon_stop" stop_facts (PInt 1) (Some 2000%Z) (PInt 60) None)).

Definition stop_records : list pyval := match recorded_events None (event_outbox stop_doc) with Ok l => l | Err _ => [] end.

Lemma stop_doc_coherent : coherent (sw_journal (gw_store (sample_gov 2))) stop_doc [prepared_attempt] stop_records.
Proof. split; [eexists; vm_compute; reflexivity|]. split; [by vm_compute|]. eexists. vm_compute. reflexivity. Qed.

Lemma force_stop_of_prepared_attempt_breaks_history_witness : exists r,
  force_stop_with_governance_preview (sample_gov 2) stop_doc "gov_1" stop_facts (PInt 1) (Some 3000%Z) = Ok r
  /\ forall attempts records, ~ coherent (sw_journal (gw_store (sample_gov 2))) r.1 attempts records.
Proof.
  assert (exists r, force_stop_with_governance_preview (sample_gov 2) stop_doc "gov_1" stop_facts (PInt 1) (Some 3000%Z) = Ok r)
    as [r H] by (apply ok_of; by vm_compute).
  exists r. split; [exact H|]. intros attempts records.
  apply (force_stop_of_prepared_attempt_breaks_history (sample_gov 2) stop_doc [prepared_attempt] stop_records "gov_1" stop_facts
           (PInt 1) (Some 3000%Z) r prepared_attempt); [exact stop_doc_coherent|by left|reflexivity|exact H].
Defined.

(** A running Mission whose step was frozen on tmux. *)
Definition frozen_mission : dict :=
  sample_mission "running"
  ++ [("execution_snapshot",
       PDict [("mission", PDict [("steps", PList [PDict [("step_id", PStr "step_1"); ("agent_id", PStr "codex")]])]);
              ("workers", PList [PDict [("agent_id", PStr "codex"); ("configured_transport", PStr "tmux")]])])].
Definition reroute_doc0 : dict := [("missions", PList [PDict frozen_mission])].
Definition reroute_sample : dict :=
  reroute_facts "mis_0123456789ab" "step_1" "codex" frozen_mission "agentdeck_owned" (PStr "tmux") "acp".
Definition reroute_doc : dict :=
  after (run_gov_op (sample_gov 1) reroute_doc0 (OpRecord "reroute" reroute_sample (PInt 1) (Some 10%Z) (PInt 60) None)).

Lemma reroute_takes_effect_witness : exists r,
  record_transport_reroute_with_governance_preview (sample_gov 2) reroute_doc "mis_0123456789ab" "step_1" "codex" "acp" "gov_1"
    reroute_sample (PInt 1) (Some 20%Z) = Ok r
  /\ effective_transport_for_step r.1 "mis_0123456789ab" "step_1" "codex" "tmux" = Ok "acp".
Proof.
  assert (exists r, record_transport_reroute_with_governance_preview (sample_gov 2) reroute_doc "mis_0123456789ab" "step_1" "codex"
                      "acp" "gov_1" reroute_sample (PInt 1) (Some 20%Z) = Ok r) as [r H] by (apply ok_of; by vm_compute).
  exists r. split; [exact H|].
  destruct (reroute_takes_effect (sample_gov 2) reroute_doc "mis_0123456789ab" "step_1" "codex" "acp" "gov_1"
           reroute_sample (PInt 1) (Some 20%Z) r H ltac:(done) eq_refl) as (mission & from & (ms & Hms & Hm) & Hfrom & Hr).
  injection Hms as <-. injection Hm as <-. injection Hfrom as <-.
  apply (fun Hz => Hr eq_refl Hz "running" eq_refl). exists 0%Z. split; [reflexivity|apply Z.le_refl].
Defined.
