(* ===== verification/Coordinator.v ===== *)
(** * The Worker coordinator ([daemon/service.py])

    [DaemonWorkerCoordinator.launch] claims the admission of an attempt, asks
    the Worker's transport to admit it, records that it was submitted, waits for
    the transport to complete it and records the result.  Admission and
    completion run beside everything else the daemon does; what they return is
    handed to a callback, one callback at a time.

    A coordinator is the store's document with its journal, the transport calls
    in flight and the calls made so far.  Its steps are a launch, the return of
    an admission, the return of a completion, and a step of anybody else who
    shares the store: that one may change the document as it likes as long as
    the recorded admission events only grow.  What a transport returns, whether
    the recovery callback raises and whether the service runs are arguments. *)
From S2P Require Import Prelude PyStr PyVal ReviewGroup Json Protocol Handoff Lease Store Attempt AttemptStore.

(** ** What a transport returns *)

(** [SubmittedReceipt] of [daemon/supervisor.py] *)
Record SubmittedReceipt := Receipt { receipt_id : string; receipt_key : string; receipt_summary : string }.
Definition new_receipt (id key summary : pyval) : result SubmittedReceipt :=
  match id, key, summary with
  | PStr i, PStr k, PStr s =>
      if nonempty i && dispatch_key_form k && nonempty s then Ok (Receipt i k s)
      else Err (ValueError "invalid Worker admission receipt")
  | _, _, _ => Err (ValueError "invalid Worker admission receipt")
  end.

(** [TransportResult]; its fields are as the transport built them. *)
Record TransportResult := {
  tr_stop_reason : pyval; tr_validated : pyval; tr_reply : pyval;
  tr_artifacts : list CanonicalArtifact; tr_trace_ids : list pyval
}.

(** [(True, value)] or [(False, exception)]; [None] is a value of another class. *)
Inductive admission_outcome := AdmitReturned (r : option SubmittedReceipt) | AdmitRaised.
(** An exception may carry the stage at which the completion failed. *)
Inductive completion_outcome := CompleteReturned (r : option TransportResult) | CompleteRaised (stage : option pyval).

Section coordinator.
Context {env : LeaseEnv} {ft : FloatText} {lim : RecursionLimits} {repr : PyRepr}.

Definition _canonical_transport_result (result : option TransportResult) (dispatch_key transport : pyval) : option dict :=
  match result with
  | None => None
  | Some r =>
      if negb (truthy (tr_validated r)) then None
      else if py_eq transport (PStr "acp") && negb (py_eq (tr_stop_reason r) (PStr "end_turn")) then None
      else if py_eq transport (PStr "tmux") && negb (py_eq (tr_stop_reason r) (PStr "structured_reply")) then None
      else match build_canonical_handoff (tr_reply r) (PList (artifact_doc <$> tr_artifacts r))
                   (PList (tr_trace_ids r)) dispatch_key (PBool true) with
           | Ok h => Some (compact h)
           | Err _ => None
           end
  end.

(** [str(result.reply.get("summary") or "Worker completed")] *)
Definition reply_summary (r : TransportResult) : string :=
  py_str (py_or (match tr_reply r with PDict d => dget "summary" d | _ => PNone end) (PStr "Worker completed")).

(** ** The callbacks *)

Record launch_world := {
  lw_first : store_world; lw_second : store_world; lw_third : store_world;
  lw_transport : bool;  (** the transport could be built *)
  lw_refresh : bool;    (** the recovery callback returned *)
  lw_started : bool     (** the service accepts Worker I/O *)
}.

(** The attempt that was claimed, or submitted under a receipt. *)
Inductive job := Admitting (claimed : dict) | Completing (claimed submitted : dict) (receipt : SubmittedReceipt).

(** [d[k]] *)
Definition subscript (k : string) (d : dict) : result pyval :=
  match dlookup k d with Some v => Ok v | None => Err (KeyError k) end.

(** What a callback leaves: the document and the call it started, if any.  When
    it raises after it saved (the recovery callback, a service that has
    stopped), it has started none. *)
Definition after : Type := dict * option job.

Definition launch (lw : launch_world) (doc attempt : dict) : result after :=
  _ ← raise_if (negb (py_eq (dget "state" attempt) (PStr "prepared"))) (ServiceError "Worker attempt must be prepared");
  _ ← raise_if (negb (lw_transport lw)) (RuntimeError "Worker transport");
  attempt_id ← subscript "attempt_id" attempt;
  dispatch_key ← subscript "dispatch_key" attempt;
  '(doc', claimed) ← claim_mission_attempt_admission (lw_first lw) doc attempt_id dispatch_key;
  Ok (doc', if lw_refresh lw && lw_started lw then Some (Admitting claimed) else None).

Definition receipt_unknown (w : store_world) (doc claimed : dict) (r : SubmittedReceipt) : result (dict * dict) :=
  mark_mission_attempt_ambiguous w doc (dget "attempt_id" claimed) (dget "dispatch_key" claimed)
    (dget "admission_claim_id" claimed) (PStr (receipt_key r)) (PStr (receipt_summary r)) (PStr "receipt_persistence_unknown").

Definition admission_completed (lw : launch_world) (doc claimed : dict) (outcome : admission_outcome) : result after :=
  match outcome with
  | AdmitReturned (Some r) =>
      if negb (py_eq (PStr (receipt_key r)) (dget "dispatch_key" claimed)) then
        '(doc', _) ← receipt_unknown (lw_first lw) doc claimed r; Ok (doc', None)
      else match record_mission_attempt_submitted (lw_first lw) doc (dget "attempt_id" claimed) (dget "dispatch_key" claimed)
                   (dget "admission_claim_id" claimed) (PStr (receipt_summary r)) with
           | Ok (doc', submitted) =>
               Ok (doc', if lw_refresh lw && lw_started lw then Some (Completing claimed submitted r) else None)
           | Err _ => '(doc', _) ← receipt_unknown (lw_second lw) doc claimed r; Ok (doc', None)
           end
  | _ =>
      '(doc', _) ← mark_mission_attempt_admission_ambiguous (lw_first lw) doc (dget "attempt_id" claimed)
                     (dget "dispatch_key" claimed) (dget "admission_claim_id" claimed) (PStr "admission_outcome_unknown");
      Ok (doc', None)
  end.

Definition acp_unknown (w : store_world) (doc claimed : dict) (r : SubmittedReceipt) (stage : pyval) : result (dict * dict) :=
  mark_acp_mission_attempt_completion_ambiguous w doc (dget "attempt_id" claimed) (dget "dispatch_key" claimed)
    (dget "admission_claim_id" claimed) (PStr (receipt_summary r)) stage.

(** [getattr(exc, "completion_stage", "prompt")], a known stage or [prompt] *)
Definition failed_stage (stage : option pyval) : result pyval :=
  let stage := default (PStr "prompt") stage in
  known ← in_str_set stage _ACP_COMPLETION_STAGES;
  Ok (if known : bool then stage else PStr "prompt").

Definition acp_completion_completed (lw : launch_world) (doc claimed : dict) (r : SubmittedReceipt)
    (outcome : completion_outcome) : result dict :=
  match outcome with
  | CompleteRaised stage => stage ← failed_stage stage; fst <$> acp_unknown (lw_first lw) doc claimed r stage
  | CompleteReturned result =>
      match _canonical_transport_result result (PStr (py_str (dget "dispatch_key" claimed))) (PStr "acp"), result with
      | Some canonical, Some tr =>
          match record_acp_mission_attempt_completion (lw_first lw) doc (dget "attempt_id" claimed) (dget "dispatch_key" claimed)
                  (dget "admission_claim_id" claimed) (receipt_summary r)
                  (py_eq (dget "status" canonical) (PStr "completed")) (reply_summary tr) (PDict canonical) with
          | Ok (doc', _) => Ok doc'
          | Err _ =>
              match acp_unknown (lw_second lw) doc claimed r (PStr "cleanup") with
              | Ok (doc', _) => Ok doc'
              | Err _ => Err (RuntimeError "ACP completion persistence outcome is unknown")
              end
          end
      | _, _ => fst <$> acp_unknown (lw_first lw) doc claimed r (PStr "parse")
      end
  end.

Definition tmux_completion_completed (lw : launch_world) (doc claimed : dict) (outcome : completion_outcome)
    : result dict :=
  let result := match outcome with CompleteReturned r => r | CompleteRaised _ => None end in
  let canonical := _canonical_transport_result result (PStr (py_str (dget "dispatch_key" claimed)))
                     (PStr (py_str (dget "configured_transport" claimed))) in
  let succeeded := match canonical with Some c => py_eq (dget "status" c) (PStr "completed") | None => false end in
  let summary := match canonical, result with Some _, Some tr => reply_summary tr | _, _ => "Worker transport failed" end in
  fst <$> record_tmux_mission_attempt_completion (lw_first lw) doc (dget "attempt_id" claimed) (dget "dispatch_key" claimed)
            succeeded summary (match canonical with Some c => PDict c | None => PNone end).

Definition completion_completed (lw : launch_world) (doc claimed : dict) (r : SubmittedReceipt) (outcome : completion_outcome)
    : result dict :=
  if py_eq (dget "configured_transport" claimed) (PStr "acp")
  then acp_completion_completed lw doc claimed r outcome
  else tmux_completion_completed lw doc claimed outcome.

(** ** Steps *)

Inductive transport_call := CallAdmit (key : string * string) (claim : string) | CallComplete (key : string * string) (claim : string).

Record coordinator := Coordinator {
  co_journal : option string; co_doc : dict; co_jobs : list job; co_calls : list transport_call
}.

Definition call_of (j : job) : transport_call :=
  match j with
  | Admitting claimed => CallAdmit (lineage_of claimed) (field "admission_claim_id" claimed)
  | Completing claimed _ _ => CallComplete (lineage_of claimed) (field "admission_claim_id" claimed)
  end.
Definition started_jobs (j : option job) : list job := match j with Some j => [j] | None => [] end.

Inductive coordinator_step : coordinator -> coordinator -> Prop :=
| co_launch lw attempt journal doc doc' jobs calls j : sw_journal (lw_first lw) = journal ->
    launch lw doc attempt = Ok (doc', j) ->
    coordinator_step (Coordinator journal doc jobs calls)
      (Coordinator journal doc' (jobs ++ started_jobs j) (calls ++ (call_of <$> started_jobs j)))
| co_admission lw journal doc doc' claimed outcome before later calls j :
    sw_journal (lw_first lw) = journal -> sw_journal (lw_second lw) = journal ->
    admission_completed lw doc claimed outcome = Ok (doc', j) ->
    coordinator_step (Coordinator journal doc (before ++ Admitting claimed :: later) calls)
      (Coordinator journal doc' (before ++ later ++ started_jobs j) (calls ++ (call_of <$> started_jobs j)))
| co_completion lw journal doc doc' claimed submitted r outcome before later calls :
    sw_journal (lw_first lw) = journal -> sw_journal (lw_second lw) = journal ->
    completion_completed lw doc claimed r outcome = Ok doc' ->
    coordinator_step (Coordinator journal doc (before ++ Completing claimed submitted r :: later) calls)
      (Coordinator journal doc' (before ++ later) calls)
| co_failed journal doc before j later calls :  (** a callback raised before it saved *)
    coordinator_step (Coordinator journal doc (before ++ j :: later) calls) (Coordinator journal doc (before ++ later) calls)
| co_elsewhere journal journal' doc doc' attempts attempts' records records' jobs calls :
    coherent journal doc attempts records -> coherent journal' doc' attempts' records' -> grows records records' ->
    coordinator_step (Coordinator journal doc jobs calls) (Coordinator journal' doc' jobs calls).

(** ** Laws *)

Definition admitted_claims (calls : list transport_call) : list string :=
  omap (fun c => match c with CallAdmit _ cl => Some cl | _ => None end) calls.
Definition completed_claims (calls : list transport_call) : list string :=
  omap (fun c => match c with CallComplete _ cl => Some cl | _ => None end) calls.
(** The claims whose admission has not returned. *)
Definition admitting_claims (jobs : list job) : list string :=
  omap (fun j => match j with Admitting c => Some (field "admission_claim_id" c) | _ => None end) jobs.

Record coordinator_inv (s : coordinator) (attempts : list dict) (records : list pyval) : Prop := {
  ci_coherent : coherent (co_journal s) (co_doc s) attempts records;
  ci_admitted : forall key cl, CallAdmit key cl ∈ co_calls s -> EClaim cl ∈ events_of key records;
  ci_completed : forall key cl, CallComplete key cl ∈ co_calls s -> ESubmit cl ∈ events_of key records;
  ci_jobs : forall c, Admitting c ∈ co_jobs s -> CallAdmit (lineage_of c) (field "admission_claim_id" c) ∈ co_calls s;
  ci_once : NoDup (admitted_claims (co_calls s));
  ci_complete_once : NoDup (admitting_claims (co_jobs s) ++ completed_claims (co_calls s))
}.

Lemma admission_grows lw doc attempts records claimed outcome doc' j :
  sw_journal (lw_second lw) = sw_journal (lw_first lw) -> coherent (sw_journal (lw_first lw)) doc attempts records ->
  admission_completed lw doc claimed outcome = Ok (doc', j) ->
  exists attempts' records', coherent (sw_journal (lw_first lw)) doc' attempts' records' /\ grows records records'
    /\ forall j', j = Some j' -> exists submitted r, j' = Completing claimed submitted r
         /\ ESubmit (field "admission_claim_id" claimed) ∈ events_of (lineage_of claimed) records'.
Proof.
  intros Hj Hco. unfold admission_completed. destruct outcome as [[r|]|].
  - destruct (negb _); [|destruct (record_mission_attempt_submitted _ _ _ _ _ _) as [[d submitted]|] eqn:E].
    + intros ([d c] & H & [= <- <-])%bind_Ok.
      destruct (attempt_op_grows _ _ _ _ (OpReceiptUnknown _ _ _ _ _ _) _ _ Hco H) as (attempts' & records' & ? & ?); by exists attempts', records'.
    + intros [= <- <-]. destruct (submission_recorded _ _ _ _ _ _ _ _ _ _ Hco E) as (attempts' & records' & ? & ? & Hsub).
      exists attempts', records'. split_and!; [done..|]. intros j' Hj'. destruct (_ && _); [|done]. injection Hj' as <-. eauto.
    + rewrite <- Hj in Hco |- *. intros ([d c] & H & [= <- <-])%bind_Ok.
      destruct (attempt_op_grows _ _ _ _ (OpReceiptUnknown _ _ _ _ _ _) _ _ Hco H) as (attempts' & records' & ? & ?); by exists attempts', records'.
  - intros ([d c] & H & [= <- <-])%bind_Ok.
    destruct (attempt_op_grows _ _ _ _ (OpAdmissionUnknown _ _ _ _) _ _ Hco H) as (attempts' & records' & ? & ?); by exists attempts', records'.
  - intros ([d c] & H & [= <- <-])%bind_Ok.
    destruct (attempt_op_grows _ _ _ _ (OpAdmissionUnknown _ _ _ _) _ _ Hco H) as (attempts' & records' & ? & ?); by exists attempts', records'.
Qed.

Lemma fmap_fst_Ok {A B} (m : result (A * B)) x : fst <$> m = Ok x -> exists y, m = Ok (x, y).
Proof. destruct m as [[a b]|]; [|done]. intros [= <-]. by exists b. Qed.

Lemma acp_unknown_grows w doc attempts records claimed r stage doc' : coherent (sw_journal w) doc attempts records ->
  fst <$> acp_unknown w doc claimed r stage = Ok doc' ->
  exists attempts' records', coherent (sw_journal w) doc' attempts' records' /\ grows records records'.
Proof. intros Hco (c & H)%fmap_fst_Ok. by apply (attempt_op_grows _ _ _ _ (OpAcpUnknown _ _ _ _ _) _ _ Hco H). Qed.

Lemma completion_grows lw doc attempts records claimed r outcome doc' :
  sw_journal (lw_second lw) = sw_journal (lw_first lw) -> coherent (sw_journal (lw_first lw)) doc attempts records ->
  completion_completed lw doc claimed r outcome = Ok doc' ->
  exists attempts' records', coherent (sw_journal (lw_first lw)) doc' attempts' records' /\ grows records records'.
Proof.
  intros Hj Hco. unfold completion_completed. destruct (py_eq _ _).
  - unfold acp_completion_completed. destruct outcome as [result|stage].
    + destruct (_canonical_transport_result _ _ _) as [canonical|]; [|by eapply acp_unknown_grows].
      destruct result as [tr|]; [|by eapply acp_unknown_grows].
      destruct (record_acp_mission_attempt_completion _ _ _ _ _ _ _ _) as [[d c]|] eqn:E.
      * intros [= <-]. by apply (attempt_op_grows _ _ _ _ (OpAcpResult _ _ _ _ _ _ _) _ _ Hco E).
      * destruct (acp_unknown _ _ _ _ _) as [[d c]|] eqn:Eu; [|done]. intros [= <-]. rewrite <- Hj in Hco |- *.
        by apply (attempt_op_grows _ _ _ _ (OpAcpUnknown _ _ _ _ _) _ _ Hco Eu).
    + intros (st & _ & H)%bind_Ok. by eapply acp_unknown_grows.
  - unfold tmux_completion_completed. intros (c & H)%fmap_fst_Ok.
    by apply (attempt_op_grows _ _ _ _ (OpTmuxResult _ _ _ _ _) _ _ Hco H).
Qed.

Lemma path_submit_claimed p es q c : admission_path p es q -> p = Ready ->
  (ESubmit c ∈ es -> EClaim c ∈ es) /\ (q = Claimed c -> EClaim c ∈ es).
Proof.
  induction 1 as [|p es q e r _ IH Hs]; intros ->.
  - split; [|done]. intros H. by apply elem_of_nil in H.
  - destruct (IH eq_refl) as [IH1 IH2]. split.
    + intros [H|H%list_elem_of_singleton]%elem_of_app; [apply elem_of_app; left; by apply IH1|]. subst e.
      inversion Hs; subst. apply elem_of_app; left. by apply IH2.
    + intros ->. inversion Hs; subst. apply elem_of_app; right. by left.
Qed.

Lemma submit_claimed journal doc attempts records key c : coherent journal doc attempts records ->
  ESubmit c ∈ events_of key records -> EClaim c ∈ events_of key records.
Proof.
  intros (_ & Hr & (h & Hh)). apply protocol_history_Ok in Hh as (l & records' & _ & _ & _ & Hr' & Hv).
  assert (records' = records) as -> by congruence. apply bind_Ok in Hv as (h' & Hf%history_of_inv & _).
  apply (path_submit_claimed _ _ _ _ (hi_path _ _ Hf key) eq_refl).
Qed.

Lemma claimed_elem c es : c ∈ claimed_in es <-> EClaim c ∈ es.
Proof.
  unfold claimed_in. rewrite list_elem_of_omap. split.
  - intros ([] & H & [= <-]). done.
  - intros H. by exists (EClaim c).
Qed.

(** A claim that was just recorded was never recorded before. *)
Lemma new_claim_fresh journal doc attempts records records' key key' c : coherent journal doc attempts records' ->
  (forall k, events_of k records' = events_of k records ++ if bool_decide (k = key) then [EClaim c] else []) ->
  EClaim c ∉ events_of key' records.
Proof.
  intros (_ & Hr & (h & Hh)) Hev Hin. apply protocol_history_Ok in Hh as (l & records0 & _ & _ & _ & Hr' & Hv).
  assert (records0 = records') as -> by congruence. destruct (history_claims _ _ _ Hv) as (Hone & Hnd & _).
  assert (key' = key) as ->.
  { apply (Hone _ _ c); apply claimed_elem; rewrite Hev, elem_of_app; [by left|]. right. rewrite bool_decide_true by done. by left. }
  specialize (Hnd key). rewrite Hev, bool_decide_true in Hnd by done. unfold claimed_in in Hnd. rewrite omap_app in Hnd.
  apply NoDup_app in Hnd as (_ & Hd & _). apply (Hd c); [by apply claimed_elem|]. by left.
Qed.

(** *** The invariant *)

Lemma elem_admitted key c calls : CallAdmit key c ∈ calls -> c ∈ admitted_claims calls.
Proof. intros H. apply list_elem_of_omap. by exists (CallAdmit key c). Qed.

Lemma elem_admitted_inv c calls : c ∈ admitted_claims calls -> exists key, CallAdmit key c ∈ calls.
Proof. intros ([] & H & [= <-])%list_elem_of_omap. eauto. Qed.
Lemma elem_completed_inv c calls : c ∈ completed_claims calls -> exists key, CallComplete key c ∈ calls.
Proof. intros ([] & H & [= <-])%list_elem_of_omap. eauto. Qed.
Lemma elem_admitting_inv c jobs : c ∈ admitting_claims jobs -> exists d, Admitting d ∈ jobs /\ field "admission_claim_id" d = c.
Proof. intros ([] & H & [= <-])%list_elem_of_omap. eauto. Qed.

Lemma Permutation_NoDup_iff {A} (l k : list A) : k ≡ₚ l -> NoDup l -> NoDup k.
Proof. by intros ->. Qed.

(** Whoever shares the store lets the history grow; jobs may end. *)
Lemma inv_weaken journal doc jobs calls attempts records journal' doc' attempts' records' jobs' :
  coordinator_inv (Coordinator journal doc jobs calls) attempts records ->
  coherent journal' doc' attempts' records' -> grows records records' -> sublist jobs' jobs ->
  coordinator_inv (Coordinator journal' doc' jobs' calls) attempts' records'.
Proof.
  intros [Hco Hadm Hcomp Hjobs Honce Hconce] Hco' Hg Hsub. split; cbn in *; try done.
  - intros key cl H. eapply grows_elem; [done|by apply Hadm].
  - intros key cl H. eapply grows_elem; [done|by apply Hcomp].
  - intros c H. apply Hjobs. by eapply elem_of_sublist.
  - eapply sublist_NoDup; [done|]. apply sublist_app; [|done].
    clear -Hsub. induction Hsub as [|j ? ? _ IH|j ? ? _ IH]; cbn; [constructor| |]; destruct j; cbn; try done; by constructor.
Qed.

Lemma inv_launch lw attempt doc doc' jobs calls j attempts records :
  coordinator_inv (Coordinator (sw_journal (lw_first lw)) doc jobs calls) attempts records ->
  launch lw doc attempt = Ok (doc', j) ->
  exists attempts' records', coordinator_inv
    (Coordinator (sw_journal (lw_first lw)) doc' (jobs ++ started_jobs j) (calls ++ (call_of <$> started_jobs j))) attempts' records'.
Proof.
  intros Hinv. unfold launch.
  intros ([] & _ & ([] & _ & (id & _ & (key & _ & ([d claimed] & H & [= <- <-])%bind_Ok)%bind_Ok)%bind_Ok)%bind_Ok)%bind_Ok.
  destruct (claim_recorded _ _ _ _ _ _ _ _ (ci_coherent _ _ _ Hinv) H) as (attempts' & records' & cl & Hco & Hcl & Hev).
  assert (Hg : grows records records') by (intros k; rewrite Hev; by eexists).
  exists attempts', records'. destruct (lw_refresh lw && lw_started lw).
  2:{ cbn. rewrite !app_nil_r. by eapply inv_weaken. }
  pose proof (fun key' => new_claim_fresh _ _ _ _ _ _ key' _ Hco Hev) as Hfresh.
  destruct Hinv as [Hco0 Hadm Hcomp Hjobs Honce Hconce]. cbn in *.
  assert (Hna : cl ∉ admitted_claims calls) by (intros [k Hk]%elem_admitted_inv; by apply (Hfresh k), Hadm).
  assert (Hfield : field "admission_claim_id" claimed = cl) by (unfold field; by rewrite Hcl).
  split; cbn; rewrite ?Hfield; [done|..].
  - intros k c [H'|H'%list_elem_of_singleton]%elem_of_app; [eapply grows_elem; [done|by apply Hadm]|].
    injection H' as -> ->. rewrite Hev, bool_decide_true by done. apply elem_of_app; right. by left.
  - intros k c [H'|H'%list_elem_of_singleton]%elem_of_app; [eapply grows_elem; [done|by apply Hcomp]|done].
  - intros c [H'|H'%list_elem_of_singleton]%elem_of_app; apply elem_of_app; [left; by apply Hjobs|right].
    injection H' as ->. rewrite Hfield. by left.
  - unfold admitted_claims. rewrite omap_app. apply NoDup_app. split; [done|]. split; [|apply NoDup_singleton].
    intros x Hx ->%list_elem_of_singleton. done.
  - unfold admitting_claims, completed_claims. rewrite !omap_app. cbn. rewrite Hfield, app_nil_r.
    rewrite <- app_assoc. cbn. rewrite <- Permutation_middle. apply NoDup_cons. split; [|done].
    intros [(d' & Hd & Hd')%elem_admitting_inv|(k & Hk)%elem_completed_inv]%elem_of_app.
    + apply Hna. rewrite <- Hd'. eapply elem_admitted, Hjobs, Hd.
    + apply (Hfresh k). eapply submit_claimed; [apply Hco0|by apply Hcomp].
Qed.

Lemma inv_admission lw claimed outcome doc doc' before later calls j attempts records :
  sw_journal (lw_second lw) = sw_journal (lw_first lw) ->
  coordinator_inv (Coordinator (sw_journal (lw_first lw)) doc (before ++ Admitting claimed :: later) calls) attempts records ->
  admission_completed lw doc claimed outcome = Ok (doc', j) ->
  exists attempts' records', coordinator_inv
    (Coordinator (sw_journal (lw_first lw)) doc' (before ++ later ++ started_jobs j) (calls ++ (call_of <$> started_jobs j)))
    attempts' records'.
Proof.
  intros Hj Hinv H.
  destruct (admission_grows _ _ _ _ _ _ _ _ Hj (ci_coherent _ _ _ Hinv) H) as (attempts' & records' & Hco & Hg & Hstart).
  exists attempts', records'. destruct j as [j|]; cbn [started_jobs fmap list_fmap].
  2:{ rewrite !app_nil_r. eapply inv_weaken; [done..|]. apply sublist_app; [done|by constructor]. }
  destruct (Hstart j eq_refl) as (submitted & r & -> & Hsub). clear Hstart H.
  destruct Hinv as [Hco0 Hadm Hcomp Hjobs Honce Hconce]. cbn in *. split; cbn; [done|..].
  - intros k c [H'|H'%list_elem_of_singleton]%elem_of_app; [eapply grows_elem; [done|by apply Hadm]|done].
  - intros k c [H'|H'%list_elem_of_singleton]%elem_of_app; [eapply grows_elem; [done|by apply Hcomp]|].
    injection H' as -> ->. done.
  - intros c Hc. apply elem_of_app. left. apply Hjobs. rewrite !elem_of_app, elem_of_cons in *.
    destruct Hc as [Hc|[Hc|[Hc|Hc]]]; [by left|by right; right|done|by apply elem_of_nil in Hc].
  - unfold admitted_claims. rewrite omap_app. cbn. by rewrite app_nil_r.
  - unfold admitting_claims, completed_claims in *. rewrite !omap_app in *. cbn in *. rewrite app_nil_r.
    revert Hconce. apply Permutation_NoDup_iff. rewrite (Permutation_app_comm _ [_]). cbn.
    by rewrite <- !Permutation_middle.
Qed.

Lemma inv_step s s' attempts records : coordinator_inv s attempts records -> coordinator_step s s' ->
  exists attempts' records', coordinator_inv s' attempts' records'.
Proof.
  intros Hinv Hs. destruct Hs.
  - subst. by eapply inv_launch.
  - subst. by eapply inv_admission.
  - subst. destruct (completion_grows _ _ _ _ _ _ _ _ H0 (ci_coherent _ _ _ Hinv) H1) as (attempts' & records' & Hco & Hg).
    exists attempts', records'. eapply inv_weaken; [done..|]. apply sublist_app; [done|by constructor].
  - exists attempts, records. eapply inv_weaken; [done|apply Hinv|apply grows_refl|]. apply sublist_app; [done|by constructor].
  - destruct (coherent_same _ _ _ _ _ _ H (ci_coherent _ _ _ Hinv)) as [-> ->].
    exists attempts', records'. by eapply inv_weaken.
Qed.

(** ** Admission fences *)

Inductive coordinator_steps (s : coordinator) : coordinator -> Prop :=
| cos_nil : coordinator_steps s s
| cos_snoc s' s'' : coordinator_steps s s' -> coordinator_step s' s'' -> coordinator_steps s s''.

(** The admission calls made for one attempt. *)
Definition admissions (key : string * string) (calls : list transport_call) : list string :=
  omap (fun c => match c with CallAdmit k cl => if bool_decide (k = key) then Some cl else None | _ => None end) calls.
Definition completions (key : string * string) (calls : list transport_call) : list string :=
  omap (fun c => match c with CallComplete k cl => if bool_decide (k = key) then Some cl else None | _ => None end) calls.
Definition releases (es : list admission_event) : nat :=
  length (List.filter (fun e => match e with ERelease _ => true | _ => false end) es).

Lemma path_claims_bounded p es q : admission_path p es q -> p = Ready ->
  length (claimed_in es) <= match q with Ready | Stopped _ => releases es | _ => S (releases es) end.
Proof.
  unfold claimed_in, releases. induction 1 as [|p es q e r _ IH Hs]; intros ->; [done|]. specialize (IH eq_refl).
  rewrite omap_app, length_app, List.filter_app, length_app. inversion Hs; subst; cbn in *; lia.
Qed.

Lemma inv_steps s s' attempts records : coordinator_inv s attempts records -> coordinator_steps s s' ->
  exists attempts' records', coordinator_inv s' attempts' records'.
Proof.
  intros Hinv. induction 1 as [|s' s'' _ (attempts' & records' & IH) Hs]; [by eexists _, _|]. by eapply inv_step.
Qed.

Lemma admissions_sublist key calls : sublist (admissions key calls) (admitted_claims calls).
Proof.
  unfold admissions, admitted_claims. induction calls as [|[k cl|k cl] calls IH]; cbn; [done| |done].
  case_bool_decide; by constructor.
Qed.
Lemma completions_sublist key calls : sublist (completions key calls) (completed_claims calls).
Proof.
  unfold completions, completed_claims. induction calls as [|[k cl|k cl] calls IH]; cbn; [done|done|].
  case_bool_decide; by constructor.
Qed.

(** C4: However the launches, the returns of the transports and the steps of
    everybody else who shares the store are interleaved, no claim is admitted
    to a transport twice and none is completed twice.  An attempt is admitted
    at most once more than its admission was released, and each such call is
    backed by a recorded claim; it is completed at most once, and only after a
    recorded submission. *)
Theorem attempt_admitted_once journal doc attempts records s : coherent journal doc attempts records ->
  coordinator_steps (Coordinator journal doc [] []) s ->
  NoDup (admitted_claims (co_calls s)) /\ NoDup (completed_claims (co_calls s))
  /\ exists attempts' records', coherent (co_journal s) (co_doc s) attempts' records'
     /\ forall key,
          (forall cl, cl ∈ admissions key (co_calls s) -> EClaim cl ∈ events_of key records')
          /\ length (admissions key (co_calls s)) <= S (releases (events_of key records'))
          /\ (forall cl, cl ∈ completions key (co_calls s) -> ESubmit cl ∈ events_of key records')
          /\ length (completions key (co_calls s)) <= 1.
Proof.
  intros Hco Hs. assert (coordinator_inv (Coordinator journal doc [] []) attempts records) as Hinv.
  { split; cbn; try done; try (intros * H; by apply elem_of_nil in H); constructor. }
  destruct (inv_steps _ _ _ _ Hinv Hs) as (attempts' & records' & [Hco' Hadm Hcomp Hjobs Honce Hconce]).
  apply NoDup_app in Hconce as (_ & _ & Hcnd). split; [done|]. split; [done|]. exists attempts', records'. split; [done|].
  intros key.
  assert (Ha : forall cl, cl ∈ admissions key (co_calls s) -> EClaim cl ∈ events_of key records').
  { intros cl ([k c|] & Hin & Hc)%list_elem_of_omap; [|done]. case_bool_decide; [|done]. injection Hc as <-. subst k. by apply Hadm. }
  assert (Hc : forall cl, cl ∈ completions key (co_calls s) -> ESubmit cl ∈ events_of key records').
  { intros cl ([|k c] & Hin & Hc)%list_elem_of_omap; [done|]. case_bool_decide; [|done]. injection Hc as <-. subst k. by apply Hcomp. }
  pose proof Hco' as (_ & Hr & (h & Hh)). apply protocol_history_Ok in Hh as (l & records0 & _ & _ & _ & Hr' & Hv).
  assert (records0 = records') as -> by congruence. pose proof (history_claims _ _ _ Hv) as (_ & _ & Hsub).
  apply bind_Ok in Hv as (h' & Hf%history_of_inv & _).
  split_and!; [done| |done|].
  - etrans; [apply (submseteq_length _ (claimed_in (events_of key records')))|].
    + apply NoDup_submseteq; [apply (sublist_NoDup _ _ Honce), admissions_sublist|]. intros x Hx. by apply claimed_elem, Ha.
    + pose proof (path_claims_bounded _ _ _ (hi_path _ _ Hf key) eq_refl). destruct (phase_in h' key); lia.
  - etrans; [apply (submseteq_length _ (submitted_in (events_of key records')))|apply Hsub].
    apply NoDup_submseteq; [apply (sublist_NoDup _ _ Hcnd), completions_sublist|].
    intros x Hx. apply list_elem_of_omap. exists (ESubmit x). split; [by apply Hc|done].
Qed.
End coordinator.

(** ** Witness *)

#[local] Existing Instance sample_env.
#[local] Existing Instance sample_limits.
#[local] Existing Instance sample_float_text.
#[local] Existing Instance sample_repr.

Definition sample_launch : launch_world :=
  {| lw_first := sample_world 1; lw_second := sample_world 2; lw_third := sample_world 3;
     lw_transport := true; lw_refresh := true; lw_started := true |}.
Definition sample_outcome : admission_outcome := AdmitReturned (Some (Receipt "r1" ("dsp_" +:+ hex_a) "sent")).

(** The launch of a prepared attempt, and the return of its admission. *)
Lemma attempt_admitted_once_witness : exists s,
  coordinator_steps (Coordinator None prepared_doc [] []) s
  /\ admissions (lineage_of prepared_attempt) (co_calls s) = ["adm_00000000000a"] /\ NoDup (admitted_claims (co_calls s)).
Proof.
  destruct (launch sample_launch prepared_doc prepared_attempt) as [[doc1 j]|e] eqn:E; [|by vm_compute in E].
  assert (Hj : exists c, j = Some (Admitting c) /\ admissions (lineage_of prepared_attempt) (call_of <$> [Admitting c]) = ["adm_00000000000a"]).
  { vm_compute in E. injection E as <- <-. eexists. split; [done|by vm_compute]. }
  destruct Hj as (c & -> & Hc).
  assert (Hs : coordinator_steps (Coordinator None prepared_doc [] []) (Coordinator None doc1 [Admitting c] (call_of <$> [Admitting c]))).
  { eapply cos_snoc; [constructor|]. by apply (co_launch sample_launch prepared_attempt None prepared_doc doc1 [] [] (Some (Admitting c))). }
  eexists. split; [exact Hs|]. split; [exact Hc|].
  apply (attempt_admitted_once None prepared_doc [prepared_attempt] [] _ (prepared_coherent 1) Hs).
Defined.
