(* ===== verification/Supervisor.v ===== *)
(** * The Worker attempt supervisor ([daemon/supervisor.py])

    [WorkerAttemptSupervisor.execute] takes one prepared attempt through its
    dispatch: it reads the durable record, claims the admission, asks the
    Worker's transport to admit the attempt, has the submission recorded, waits
    for the completion and normalises the result.  Everything it does to the
    world goes through callbacks; after each of them that matters it reads the
    record back, and it halts for good when it cannot tell what is recorded.

    The callbacks are requests, answered by an instance of [Callbacks].  What
    the supervisor may rely on is the class [AttemptAuthority]; it is proved of
    the state store, shared with anybody else whose steps let the recorded
    history grow.  An [async] callback is one step: what others do while it is
    awaited is part of its answer. *)
From S2P Require Import Prelude PyStr PyVal ReviewVerdict ReviewGroup Json Protocol Handoff Scheduler Lease Store Attempt AttemptStore Coordinator.

(** ** Requests *)

(** The three ways [_capture_admission] reports a transport: it guarantees that
    nothing happened, it raised something else, it returned ([None] is a value
    that is no receipt). *)
Inductive admission := AdmissionRejected | AdmissionUnknown | AdmissionReturned (r : option SubmittedReceipt).

(** Other callbacks are captured by [_capture_callback]: [None] is an exception. *)
Inductive request : Type -> Type :=
| AuthorizeAttempt (a : dict) : request (option pyval)
| ClaimAdmission (a : dict) : request (option pyval)
| ReleaseAdmission (a : dict) : request (option pyval)
| PersistSubmitted (a : dict) (r : SubmittedReceipt) : request (option pyval)
| MarkAttemptAmbiguous (a : dict) (r : SubmittedReceipt) (reason : string) : request (option pyval)
| MarkAdmissionAmbiguous (a : dict) (reason : string) : request (option pyval)
| AdmitTransport (acp : bool) (a : dict) : request admission
| CompleteTransport (acp : bool) (a : dict) (r : SubmittedReceipt) : request (option (option TransportResult)).

Class Callbacks (S : Type) := answer : forall {A}, request A -> S -> S * A.

(** [self._halted], the world behind the callbacks, the transport calls made. *)
Record supervisor (S : Type) := Supervisor { halted : bool; world : S; asked : list transport_call }.
Arguments Supervisor {S} _ _ _.
Arguments halted {S} _.
Arguments world {S} _.
Arguments asked {S} _.

Definition call_made {A} (r : request A) : list transport_call :=
  match r with
  | AdmitTransport _ a => [CallAdmit (lineage_of a) (field "admission_claim_id" a)]
  | CompleteTransport _ a _ => [CallComplete (lineage_of a) (field "admission_claim_id" a)]
  | _ => []
  end.

Definition run (S A : Type) : Type := supervisor S -> result A * supervisor S.
#[export] Instance run_ret S : MRet (run S) := fun A a s => (Ok a, s).
#[export] Instance run_bind S : MBind (run S) := fun A B f m s =>
  match m s with (Ok a, s') => f a s' | (Err e, s') => (Err e, s') end.

(** ** Records and routes *)

Record WorkerRoute := {
  wr_agent_id : pyval; wr_configured_transport : pyval; wr_effective_transport : pyval;
  wr_ready : pyval; wr_ownership : pyval; wr_automation_allowed : pyval
}.

Definition _ATTEMPT_AUTHORITY_FIELDS : list string :=
  ["attempt_id"; "mission_id"; "step_id"; "agent_id"; "configured_transport"; "dispatch_key"; "snapshot_hash"; "created_at"].
Definition _REPLY_ALLOWLIST : list string :=
  ["handoff_token"; "status"; "summary"; "verification"; "risks"; "next_steps"].

Definition _same_attempt_authority (left right : dict) : bool :=
  forallb (fun f => py_eq (dget f left) (dget f right)) _ATTEMPT_AUTHORITY_FIELDS.

(** The empty dictionary the code returns for a record that is not valid is [None]. *)
Definition _validated_attempt `{LeaseEnv} (value : pyval) : result (option dict) :=
  match _validate_mission_attempt_record value with
  | Ok d => Ok (Some d)
  | Err e => if type_or_value e then Ok None else Err e
  end.

Definition is_bool (v : pyval) : bool := match v with PBool _ => true | _ => false end.

(** [route] is [None] when it is no [WorkerRoute]. *)
Definition _validate_route (attempt : dict) (route : option WorkerRoute) : option string :=
  match route with
  | None => Some "Worker route must be a WorkerRoute"
  | Some r =>
      let text_eq v k := match v with PStr _ => py_eq v (dget k attempt) | _ => false end in
      if negb (text_eq (wr_agent_id r) "agent_id") || negb (text_eq (wr_configured_transport r) "configured_transport")
         || negb (text_eq (wr_effective_transport r) "configured_transport") then Some "Worker transport drift"
      else if negb (py_eq (wr_ownership r) (PStr "agentdeck_owned")) then Some "Worker ownership is not AgentDeck"
      else if negb (is_bool (wr_ready r)) || negb (is_bool (wr_automation_allowed r)) then Some "Worker route facts are invalid"
      else if negb (truthy (wr_ready r)) then Some "Worker transport is not ready"
      else if negb (truthy (wr_automation_allowed r)) then Some "Worker automation is blocked"
      else None
  end.

(** ** Results *)

Definition _project_reply_allowlist (reply : pyval) : option dict :=
  match reply with
  | PDict d => if forallb (fun f => is_form nonempty (dget f d)) _REPLY_ALLOWLIST
               then Some ((fun f => (f, dget f d)) <$> _REPLY_ALLOWLIST) else None
  | _ => None
  end.

(** The artifacts of a [TransportResult] are [ArtifactEvidence]. *)
Definition artifact_ok (a : CanonicalArtifact) : bool :=
  nonempty (path a) && match content_hash a with Some h => is_content_hash h | None => false end.

Definition _project_result (result : option TransportResult)
    : option (TransportResult * dict * list pyval * list pyval) :=
  match result with
  | None => None
  | Some r =>
      if negb (is_form nonempty (tr_stop_reason r)) || negb (is_bool (tr_validated r))
         || negb (forallb (is_form nonempty) (tr_trace_ids r))
         || negb (bool_decide (NoDup (text_of <$> tr_trace_ids r))) then None
      else reply ← _project_reply_allowlist (tr_reply r);
           if forallb artifact_ok (tr_artifacts r)
           then Some (r, reply, artifact_doc <$> tr_artifacts r, tr_trace_ids r) else None
  end.

(** [runtime/acp_mapping.py] *)
Definition STOP_REASON_TO_TURN_STATE : list (string * (string * string)) :=
  [("end_turn", ("completed", "end_turn")); ("max_tokens", ("blocked", "max_tokens"));
   ("max_turn_requests", ("blocked", "max_turn_requests")); ("refusal", ("blocked", "refusal"));
   ("cancelled", ("failed", "cancelled"))].
Definition map_stop_reason (stop_reason : pyval) : result (string * string) :=
  match stop_reason with
  | PStr s =>
      if String.eqb s "" then Err (ValueError "stop_reason must be a non-empty string")
      else Ok (default ("failed", "unknown_stop_reason")
                 (snd <$> find_first (fun kv => String.eqb kv.1 s) STOP_REASON_TO_TURN_STATE))
  | _ => Err (ValueError "stop_reason must be a non-empty string")
  end.

Section supervisor.
Context {env : LeaseEnv} {repr : PyRepr} {S : Type} `{!Callbacks S}.

(** ** Steps of a run *)

Definition lift {A} (r : result A) : run S A := fun s => (r, s).
Definition fail {A} (msg : string) : run S A := lift (Err (WorkerAttemptError msg)).
Definition ask {A} (r : request A) : run S A := fun s =>
  let '(w, a) := answer r (world s) in (Ok a, Supervisor (halted s) w (asked s ++ call_made r)).
Definition _halt : run S unit := fun s => (Ok tt, Supervisor true (world s) (asked s)).
Definition halt_with {A} (msg : string) : run S A := _ ← _halt; fail msg.

Definition _current_attempt (baseline : dict) : run S (option dict) :=
  raw ← ask (AuthorizeAttempt baseline);
  lift (match raw with Some v => _validated_attempt v | None => Ok None end).

(** The durable record says that the attempt is ambiguous, for this reason. *)
Definition recorded_ambiguous (baseline claimed : dict) (summary reason : string) : run S bool :=
  current ← _current_attempt baseline;
  mret (match current with
        | Some d => _same_attempt_authority baseline d && state_is "ambiguous" d
                    && py_eq (dget "admission_claim_id" d) (dget "admission_claim_id" claimed)
                    && py_eq (dget "receipt_summary" d) (PStr summary)
                    && py_eq (dget "blocker" d) (PStr reason) && py_eq (dget "terminal_reason" d) (PStr reason)
        | None => false
        end).

Definition _durably_mark_unknown (baseline claimed : dict) (r : SubmittedReceipt) : run S bool :=
  marked ← ask (MarkAttemptAmbiguous claimed r "receipt_persistence_unknown");
  match marked with
  | None => mret false
  | Some _ => recorded_ambiguous baseline claimed (receipt_summary r) "receipt_persistence_unknown"
  end.

Definition _durably_mark_admission_unknown (baseline claimed : dict) : run S bool :=
  marked ← ask (MarkAdmissionAmbiguous claimed "admission_outcome_unknown");
  match marked with
  | None => mret false
  | Some _ => recorded_ambiguous baseline claimed "admission outcome unknown" "admission_outcome_unknown"
  end.

Definition _durably_release_admission (baseline claimed : dict) : run S bool :=
  released ← ask (ReleaseAdmission claimed);
  match released with
  | None => mret false
  | Some _ => prepared ← _current_attempt baseline;
              mret (match prepared with Some d => py_eq (PDict d) (PDict baseline) | None => false end)
  end.

(** ** Execution *)

Definition checked_attempt (attempt_record : pyval) (route : option WorkerRoute) : result dict :=
  baseline ← _validated_attempt attempt_record;
  match baseline with
  | None => Err (WorkerAttemptError "Worker attempt record is invalid")
  | Some baseline =>
      _ ← raise_if (negb (state_is "prepared" baseline)) (WorkerAttemptError "Worker attempt must be prepared");
      match _validate_route baseline route with Some e => Err (WorkerAttemptError e) | None => Ok baseline end
  end.

Definition check_authority (baseline : dict) : run S unit :=
  current ← _current_attempt baseline;
  match current with
  | None => fail "Worker attempt authority check failed"
  | Some d =>
      if negb (_same_attempt_authority baseline d) then fail "Worker attempt authority drift"
      else if state_in ["admitting"; "submitted"; "running"] d then fail "Worker attempt is already submitted"
      else if negb (state_is "prepared" d) || negb (py_eq (PDict d) (PDict baseline))
           then fail "Worker attempt authority drift" else mret tt
  end.

(** The claim as it was returned and as it is recorded. *)
Definition claimed_attempt (baseline : dict) : run S dict :=
  raw ← ask (ClaimAdmission baseline);
  claimed ← lift (match raw with Some v => _validated_attempt v | None => Ok None end);
  match claimed with
  | None => fail "Worker admission claim failed"
  | Some claimed =>
      if _same_attempt_authority baseline claimed && state_is "admitting" claimed
         && match dget "admission_claim_id" claimed with PStr _ => true | _ => false end
         && is_none (dget "receipt_summary" claimed) && is_none (dget "blocker" claimed)
         && is_none (dget "terminal_reason" claimed)
      then durable ← _current_attempt baseline;
           match durable with
           | Some d => if py_eq (PDict d) (PDict claimed) then mret d else fail "Worker admission claim failed"
           | None => fail "Worker admission claim failed"
           end
      else fail "Worker admission claim failed"
  end.

Definition label_of (acp : bool) : string := if acp then "ACP" else "tmux".

Definition admission_unknown (acp : bool) (baseline claimed : dict) : run S SubmittedReceipt :=
  marked ← _durably_mark_admission_unknown baseline claimed;
  if marked : bool then fail (label_of acp +:+ " Worker admission outcome is unknown")
  else halt_with "Worker ambiguity persistence failed".

Definition receipt_unknown_as (msg : string) {A} (baseline claimed : dict) (r : SubmittedReceipt) : run S A :=
  marked ← _durably_mark_unknown baseline claimed r;
  if marked : bool then fail msg else halt_with "Worker ambiguity persistence failed".

Definition admitted_receipt (acp : bool) (baseline claimed : dict) : run S SubmittedReceipt :=
  outcome ← ask (AdmitTransport acp claimed);
  match outcome with
  | AdmissionRejected =>
      released ← _durably_release_admission baseline claimed;
      if released : bool then fail (label_of acp +:+ " Worker rejected admission")
      else halt_with "Worker admission claim release failed"
  | AdmissionUnknown | AdmissionReturned None => admission_unknown acp baseline claimed
  | AdmissionReturned (Some r) =>
      if py_eq (PStr (receipt_key r)) (dget "dispatch_key" baseline) then mret r
      else receipt_unknown_as "Worker admission receipt lineage drift" baseline claimed r
  end.

Definition submitted_attempt (baseline claimed : dict) (r : SubmittedReceipt) : run S dict :=
  saved ← ask (PersistSubmitted claimed r);
  submitted ← _current_attempt baseline;
  let not_recorded := receipt_unknown_as "Worker submitted receipt persistence failed" baseline claimed r in
  match submitted with
  | None => not_recorded
  | Some d =>
      if _same_attempt_authority baseline d && state_is "submitted" d
         && py_eq (dget "receipt_summary" d) (PStr (receipt_summary r))
      then if negb (py_eq (dget "admission_claim_id" d) (dget "admission_claim_id" claimed))
           then halt_with "Worker submitted receipt claim drift"
           else match saved with Some _ => mret d | None => not_recorded end
      else not_recorded
  end.

(** What the transport returned, as a canonical handoff of the attempt. *)
Definition canonical_result (acp : bool) (dispatch_key : pyval) (returned : option TransportResult) : result CanonicalHandoff :=
  let invalid := WorkerAttemptError (label_of acp +:+ " Worker result is invalid") in
  match _project_result returned with
  | None => Err invalid
  | Some (r, reply, artifacts, trace_ids) =>
      _ ← (if acp then
             turn ← match map_stop_reason (tr_stop_reason r) with
                    | Ok (turn, _) => Ok turn
                    | Err e => if value_error e then Ok "invalid" else Err e
                    end;
             _ ← raise_if (String.eqb turn "invalid") (WorkerAttemptError "ACP Worker stop reason is invalid");
             raise_if (negb (String.eqb turn "completed")) (WorkerAttemptError "ACP Worker did not complete")
           else raise_if (negb (py_eq (tr_stop_reason r) (PStr "structured_reply")) || negb (truthy (tr_validated r)))
                         (WorkerAttemptError "tmux Worker reply is not validated"));
      _ ← raise_if (negb (truthy (tr_validated r))) (WorkerAttemptError (label_of acp +:+ " Worker result is not validated"));
      match build_canonical_handoff (PDict reply) (PList artifacts) (PList trace_ids) dispatch_key (PBool true) with
      | Ok h => Ok h
      | Err e => Err (if type_or_value e then invalid else e)
      end
  end.

Definition completed_handoff (acp : bool) (baseline submitted : dict) (r : SubmittedReceipt) : run S CanonicalHandoff :=
  outcome ← ask (CompleteTransport acp submitted r);
  match outcome with
  | None => fail (label_of acp +:+ " Worker failed")
  | Some result => lift (canonical_result acp (dget "dispatch_key" baseline) result)
  end.

Definition execute (attempt_record : pyval) (route : option WorkerRoute) : run S CanonicalHandoff := fun s =>
  if halted s then (Err (WorkerAttemptError "Worker supervisor is halted"), s)
  else
    (baseline ← lift (checked_attempt attempt_record route);
     let acp := py_eq (dget "configured_transport" baseline) (PStr "acp") in
     _ ← check_authority baseline;
     claimed ← claimed_attempt baseline;
     r ← admitted_receipt acp baseline claimed;
     submitted ← submitted_attempt baseline claimed r;
     completed_handoff acp baseline submitted r) s.
End supervisor.

(** ** The gate to the next Worker *)

Definition gate_fields : list string := ["attempt_state"; "result_status"; "reply_state"; "handoff_state"; "next_worker"].

(** [SupervisorGateDecision]: the next Worker, or why there is none. *)
Definition supervisor_gate (ledger : pyval) : result (pyval + string) :=
  match ledger with
  | PDict d =>
      if negb (keys_are gate_fields d) then Ok (inr "Worker ledger facts are invalid")
      else
        reply_known ← in_str_set (dget "reply_state" d) ["none"; "received"; "validated"];
        if negb reply_known then Ok (inr "Worker reply state is invalid")
        else
          handoff_known ← in_str_set (dget "handoff_state" d) ["none"; "recorded"];
          let validated := py_eq (dget "reply_state" d) (PStr "validated") in
          let recorded := py_eq (dget "handoff_state" d) (PStr "recorded") in
          if negb handoff_known then Ok (inr "Worker handoff state is invalid")
          else if recorded && negb validated then Ok (inr "Worker handoff lacks validated reply")
          else if negb validated || negb recorded then Ok (inr "Worker completion handoff is not ready")
          else if negb (is_successful_attempt_result (dget "attempt_state" d) (dget "result_status" d))
               then Ok (inr "Worker attempt result is not successful")
          else if negb (is_form nonempty (dget "next_worker" d)) then Ok (inr "Next Worker identity is invalid")
          else Ok (inl (dget "next_worker" d))
  | _ => Ok (inr "Worker ledger facts are invalid")
  end.

(** ** What the supervisor relies on

    The world keeps a history of recorded events that only grows; a claim that
    is returned is recorded and new; a record that is returned is in the phase
    its recorded events lead to. *)
Class AttemptAuthority `{LeaseEnv} {S} `{!Callbacks S} (holds : S -> list pyval -> Prop) : Prop := {
  authority_grows {A} (r : request A) s records : holds s records ->
    exists records', holds (answer r s).1 records' /\ grows records records';
  authority_claims a s records v d : holds s records -> (answer (ClaimAdmission a) s).2 = Some v ->
    _validate_mission_attempt_record v = Ok d ->
    exists records' c, holds (answer (ClaimAdmission a) s).1 records' /\ grows records records'
      /\ dget "admission_claim_id" d = PStr c /\ EClaim c ∈ events_of (lineage_of d) records'
      /\ forall key, EClaim c ∉ events_of key records;
  authority_reads a s records v d : holds s records -> (answer (AuthorizeAttempt a) s).2 = Some v ->
    _validate_mission_attempt_record v = Ok d ->
    exists records', holds (answer (AuthorizeAttempt a) s).1 records' /\ grows records records'
      /\ admission_path Ready (events_of (lineage_of d) records') (phase_of d)
}.

(** The history says how a claimed admission ended. *)
Definition settled (c : string) (es : list admission_event) : Prop :=
  ERelease c ∈ es \/ EAmbiguous c ∈ es \/ ESubmit c ∈ es.

Lemma grows_trans r1 r2 r3 : grows r1 r2 -> grows r2 r3 -> grows r1 r3.
Proof. intros H1 H2 key. destruct (H1 key) as [e1 E1], (H2 key) as [e2 E2]. exists (e1 ++ e2). by rewrite E2, E1, app_assoc. Qed.

Lemma path_settled p es q c : admission_path p es q -> p = Ready -> EClaim c ∈ es -> q = Claimed c \/ settled c es.
Proof.
  unfold settled. induction 1 as [|p es q e r _ IH Hs]; intros ->; [by intros ?%elem_of_nil|].
  rewrite !elem_of_app, !list_elem_of_singleton. intros [Hin|He].
  - destruct (IH eq_refl Hin) as [->|?]; [inversion Hs; subst; tauto|tauto].
  - subst e. inversion Hs; subst. by left.
Qed.

Lemma path_submitted p es c : admission_path p es (Submitted c) -> p = Ready -> ESubmit c ∈ es.
Proof. inversion 1; subst; [done|]. inversion H1; subst. intros _. apply elem_of_app. right. by left. Qed.

(** *** Records *)

Lemma py_eq_dict a b k x : py_eq (PDict a) (PDict b) = true -> dlookup k a = Some x ->
  exists y, dlookup k b = Some y /\ py_eq x y = true.
Proof.
  cbn [py_eq num_of]. intros [_ H]%andb_true_iff. revert H. induction a as [|[k' x'] a IH]; [done|].
  destruct (dlookup k' b) as [y|] eqn:Hy; [|done]. intros [Hxy H]%andb_true_iff. cbn [dlookup].
  destruct (String.eqb_spec k k') as [->|Hne].
  - intros [= <-]. by exists y.
  - by apply IH.
Qed.

Lemma py_eq_dict_str a b k s : py_eq (PDict a) (PDict b) = true -> dget k a = PStr s -> dget k b = PStr s.
Proof.
  unfold dget. destruct (dlookup k a) as [x|] eqn:Hx; [|done]. intros H ->.
  destruct (py_eq_dict _ _ _ _ H Hx) as (y & -> & ->%py_eq_str_l). done.
Qed.

Lemma path_ambiguous p es c : admission_path p es (Ambiguous c) -> p = Ready -> EAmbiguous c ∈ es.
Proof. inversion 1; subst; [done|]. inversion H1; subst; intros _; apply elem_of_app; right; by left. Qed.

(** What a validated record holds. *)
Definition well_formed `{LeaseEnv} (d : dict) : Prop := exists v, _validate_mission_attempt_record v = Ok d.

Section records.
Context {env : LeaseEnv}.

Lemma well_formed_texts d : well_formed d ->
  dget "attempt_id" d = PStr (field "attempt_id" d) /\ dget "dispatch_key" d = PStr (field "dispatch_key" d)
  /\ dget "state" d = PStr (field "state" d)
  /\ (state_is "admitting" d = true -> dget "admission_claim_id" d = PStr (field "admission_claim_id" d)).
Proof.
  intros [v H]. unfold _validate_mission_attempt_record in H. destruct v; try done. inv_ok. subst. split_guards. unfold field.
  assert (Ht : forall k f, is_form f (dget k d) = true -> dget k d = PStr (text_of (dget k d)))
    by (intros k f (x & -> & _)%is_form_PStr; done).
  assert (Hs : exists s, dget "state" d = PStr s).
  { match goal with Hk : in_str_set (dget "state" d) _ = Ok ?b, Hb : ?b = true |- _ => 
      rewrite Hb in Hk; apply in_str_set_Ok_true in Hk as (s & Hs & _) end. eauto. }
  destruct Hs as [s Hs]. split_and!; [by eapply Ht|by eapply Ht|by rewrite Hs|].
  intros Hadm. unfold pre_dispatch_stopped, state_in, state_is in *. rewrite Hs in *. cbn [existsb] in *.
  apply py_eq_str in Hadm as [= ->]. cbn [py_eq num_of String.eqb] in *. cbn in *.
  destruct (is_none (dget "admission_claim_id" d)); [done|]. by eapply Ht.
Qed.

Lemma validate_fails v e : _validate_mission_attempt_record v = Err e -> type_or_value e = true.
Proof.
  assert (Hset : forall x l e', in_str_set x l = Err e' -> type_or_value e' = true)
    by (intros x l e'; unfold in_str_set; destruct (hashable x); [done|by intros [= <-]]).
  assert (Hinst : forall x m e', aware_instant x (ValueError m) = Err e' -> type_or_value e' = true)
    by (intros x m e'; destruct x; cbn; try (by intros [= <-]); destruct (fromisoformat _); [done|by intros [= <-]]).
  unfold _validate_mission_attempt_record. destruct v; try (by intros [= <-]). intros H.
  repeat match goal with
  | H : (_ ≫= _) = Err _ |- _ => apply bind_Err in H as [H|(? & _ & H)]
  | H : raise_if _ _ = Err _ |- _ => apply raise_if_Err in H as ->; done
  end; eauto; done.
Qed.
End records.

Lemma validated_Some `{LeaseEnv} v d : _validated_attempt v = Ok (Some d) -> _validate_mission_attempt_record v = Ok d.
Proof. unfold _validated_attempt. destruct (_validate_mission_attempt_record v) as [|e]; [congruence|]. by destruct (type_or_value e). Qed.

Lemma validated_total `{LeaseEnv} v : exists o, _validated_attempt v = Ok o.
Proof.
  unfold _validated_attempt. destruct (_validate_mission_attempt_record v) as [|e] eqn:E; [eauto|].
  rewrite (validate_fails _ _ E). eauto.
Qed.

Lemma same_lineage `{LeaseEnv} a b : well_formed a -> well_formed b -> _same_attempt_authority a b = true -> lineage_of a = lineage_of b.
Proof.
  intros (Ha & Hk & _)%well_formed_texts (Hb & Hl & _)%well_formed_texts. unfold _same_attempt_authority, lineage_of.
  cbn [forallb _ATTEMPT_AUTHORITY_FIELDS]. rewrite Ha, Hk, Hb, Hl, !andb_true_iff.
  intros (E1%py_eq_str & _ & _ & _ & _ & E2%py_eq_str & _). congruence.
Qed.

(** A record that equals another is of the same attempt and claim. *)
Lemma equal_records `{LeaseEnv} a b : well_formed a -> py_eq (PDict a) (PDict b) = true ->
  lineage_of a = lineage_of b /\ dget "state" b = dget "state" a
  /\ (state_is "admitting" a = true -> dget "admission_claim_id" b = dget "admission_claim_id" a).
Proof.
  intros (Hi & Hk & Hs & Hc)%well_formed_texts He. unfold lineage_of. split_and!.
  - apply (py_eq_dict_str _ _ _ _ He) in Hi, Hk. unfold field. rewrite Hi, Hk. done.
  - rewrite Hs. by apply (py_eq_dict_str _ _ _ _ He).
  - intros Ha%Hc. rewrite Ha. by apply (py_eq_dict_str _ _ _ _ He).
Qed.

Lemma claimed_phase s d c : state_is s d = true -> dget "admission_claim_id" d = PStr c ->
  phase_of d = if String.eqb s "admitting" then Claimed c else if String.eqb s "ambiguous" then Ambiguous c else Submitted c.
Proof. unfold phase_of, claim_of, state_is. intros Hs%py_eq_str ->. by rewrite Hs. Qed.

(** ** Weakest preconditions of runs *)

Section runs.
Context {env : LeaseEnv} {repr : PyRepr} {S : Type} `{!Callbacks S} (holds : S -> list pyval -> Prop)
  `{!AttemptAuthority holds}.

Definition wp {A} (m : run S A) (Q : result A -> supervisor S -> Prop) (s : supervisor S) : Prop := Q (m s).1 (m s).2.

Lemma wp_bind {A B} (m : run S A) (f : A -> run S B) Q s :
  wp m (fun r s' => match r with Ok a => wp (f a) Q s' | Err e => Q (Err e) s' end) s -> wp (m ≫= f) Q s.
Proof. unfold wp, mbind, run_bind. by destruct (m s) as [[a|e] s']. Qed.

Lemma wp_ask {A} (r : request A) Q s records : holds (world s) records ->
  (forall a w records', holds w records' -> grows records records' ->
     Q (Ok a) (Supervisor (halted s) w (asked s ++ call_made r))) -> wp (ask r) Q s.
Proof.
  intros Hs HQ. destruct (authority_grows r _ _ Hs) as (records' & Hs' & Hg). unfold wp, ask.
  destruct (answer r (world s)) as [w a]. by eapply HQ.
Qed.

(** A record that was read: valid, and where its recorded events lead. *)
Definition readable (records : list pyval) (d : dict) : Prop :=
  well_formed d /\ admission_path Ready (events_of (lineage_of d) records) (phase_of d).

Lemma wp_current baseline Q s records : holds (world s) records ->
  (forall o w records', holds w records' -> grows records records' -> (forall d, o = Some d -> readable records' d) ->
     Q (Ok o) (Supervisor (halted s) w (asked s))) -> wp (_current_attempt baseline) Q s.
Proof.
  intros Hs HQ. unfold _current_attempt. apply wp_bind. unfold wp, ask.
  destruct (answer (AuthorizeAttempt baseline) (world s)) as [w raw] eqn:E. cbn. rewrite app_nil_r.
  destruct raw as [v|].
  - destruct (validated_total v) as [[d|] Hv].
    + destruct (authority_reads baseline (world s) records v d Hs) as (records' & Hw & Hg & Hp);
        [by rewrite E|by apply validated_Some|]. rewrite E in Hw. rewrite Hv. eapply HQ; [done..|].
      intros ? [= <-]. split; [|done]. exists v. by apply validated_Some.
    + destruct (authority_grows (AuthorizeAttempt baseline) _ _ Hs) as (records' & Hw & Hg). rewrite E in Hw.
      rewrite Hv. by eapply HQ.
  - destruct (authority_grows (AuthorizeAttempt baseline) _ _ Hs) as (records' & Hw & Hg). rewrite E in Hw. by eapply HQ.
Qed.

(** What a durable claim is. *)
Record claim_of_run (baseline claimed : dict) (c : string) : Prop := {
  cr_baseline : well_formed baseline;
  cr_lineage : lineage_of claimed = lineage_of baseline;
  cr_claim : dget "admission_claim_id" claimed = PStr c
}.

(** A step that reports [true] only if [P] is recorded. *)
Definition tells (P : list pyval -> Prop) (m : run S bool) : Prop := forall Q s records, holds (world s) records ->
  (forall b w records', holds w records' -> grows records records' -> (b = true -> P records') ->
     Q (Ok b) (Supervisor (halted s) w (asked s))) -> wp m Q s.

Lemma tells_after_ask {A} (r : request (option A)) (m : run S bool) P : call_made r = [] -> tells P m ->
  tells P (o ← ask r; match o with None => mret false | Some _ => m end).
Proof.
  intros Hr Hm Q s records Hs HQ. apply wp_bind. eapply wp_ask; [done|]. intros [a|] w records1 Hw Hg; rewrite Hr, app_nil_r.
  - eapply Hm; [done|]. intros b w' records2 Hw' Hg' HP. eapply HQ; [done|by eapply grows_trans|done].
  - by eapply HQ.
Qed.

Lemma recorded_ambiguous_tells baseline claimed c summary reason : claim_of_run baseline claimed c ->
  tells (fun records => settled c (events_of (lineage_of baseline) records)) (recorded_ambiguous baseline claimed summary reason).
Proof.
  intros [Hb Hl Hc] Q s records Hs HQ. unfold recorded_ambiguous. apply wp_bind. eapply wp_current; [done|].
  intros o w records' Hw Hg Ho. eapply HQ; [done..|]. destruct o as [d|]; [|done]. destruct (Ho d eq_refl) as [Hd Hp].
  rewrite Hc. intros Hall. split_guards. rewrite <- (same_lineage _ _ Hb Hd) in Hp by done. right; left.
  match goal with H : py_eq (dget "admission_claim_id" d) _ = true |- _ => apply py_eq_str in H; rename H into Hcl end.
  match goal with H : state_is _ d = true |- _ => rewrite (claimed_phase _ _ _ H Hcl) in Hp end. by eapply path_ambiguous.
Qed.

Lemma mark_unknown_tells baseline claimed c r : claim_of_run baseline claimed c ->
  tells (fun records => settled c (events_of (lineage_of baseline) records)) (_durably_mark_unknown baseline claimed r).
Proof. intros Hc. apply tells_after_ask; [done|by apply recorded_ambiguous_tells]. Qed.
Lemma mark_admission_tells baseline claimed c : claim_of_run baseline claimed c ->
  tells (fun records => settled c (events_of (lineage_of baseline) records)) (_durably_mark_admission_unknown baseline claimed).
Proof. intros Hc. apply tells_after_ask; [done|by apply recorded_ambiguous_tells]. Qed.

(** A released attempt is prepared again, so its claim was released. *)
Lemma release_tells baseline claimed c : claim_of_run baseline claimed c -> state_is "prepared" baseline = true ->
  tells (fun records => EClaim c ∈ events_of (lineage_of baseline) records -> settled c (events_of (lineage_of baseline) records))
    (_durably_release_admission baseline claimed).
Proof.
  intros [Hb Hl Hc] Hprep. apply tells_after_ask; [done|]. intros Q s records Hs HQ. apply wp_bind.
  eapply wp_current; [done|]. intros o w records' Hw Hg Ho. eapply HQ; [done..|]. destruct o as [d|]; [|done].
  destruct (Ho d eq_refl) as [Hd Hp]. intros He Hin. destruct (equal_records _ _ Hd He) as (Hlin & Hst & _).
  rewrite Hlin in Hp. destruct (path_settled _ _ _ _ Hp eq_refl Hin) as [Hph|]; [|done]. exfalso.
  unfold state_is in Hprep. rewrite Hst in Hprep. destruct Hd as [v Hv].
  destruct (validate_attempt_Ok _ _ Hv) as [_ Hn]. specialize (Hn Hprep). unfold phase_of, claim_of in Hph.
  rewrite Hn in Hph. by destruct (state_is "prepared" d).
Qed.

(** *** The steps after the claim *)

(** A step that raises, after the admission was asked for: what became of it is
    recorded, or the supervisor has halted. *)
Definition closed_out (start : list pyval) (baseline : dict) (c : string) (s : supervisor S) : Prop :=
  exists records, holds (world s) records /\ grows start records
    /\ (halted s = true \/ settled c (events_of (lineage_of baseline) records)).

Lemma wp_marked {A} (m : run S bool) start baseline c msg msg' (Q : result A -> _ -> Prop) s records :
  tells (fun records => settled c (events_of (lineage_of baseline) records)) m ->
  holds (world s) records -> grows start records ->
  (forall e s', asked s' = asked s -> closed_out start baseline c s' -> Q (Err e) s') ->
  wp (b ← m; if b : bool then fail msg else halt_with msg') Q s.
Proof.
  intros Hm Hs Hstart HQ. apply wp_bind. eapply Hm; [done|]. intros b w records' Hw Hg Hb.
  destruct b; apply HQ; try done; exists records'; (split; [done|]); (split; [by eapply grows_trans|]).
  - right. by apply Hb.
  - by left.
Qed.

Section one_run.
Context (start : list pyval) (baseline : dict) (c : string).

Lemma wp_admitted acp claimed Q s records : claim_of_run baseline claimed c -> state_is "prepared" baseline = true ->
  holds (world s) records -> grows start records -> EClaim c ∈ events_of (lineage_of baseline) records ->
  (forall r w records', holds w records' -> grows start records' ->
     Q (Ok r) (Supervisor (halted s) w (asked s ++ [CallAdmit (lineage_of baseline) c]))) ->
  (forall e s', asked s' = asked s ++ [CallAdmit (lineage_of baseline) c] -> closed_out start baseline c s' -> Q (Err e) s') ->
  wp (admitted_receipt acp baseline claimed) Q s.
Proof.
  intros Hcr Hprep Hs Hg Hin Hok Herr. unfold admitted_receipt. apply wp_bind. eapply wp_ask; [done|].
  intros o w records1 Hw Hg1. assert (Hcall : call_made (AdmitTransport acp claimed) = [CallAdmit (lineage_of baseline) c]).
  { cbn. unfold field. rewrite (cr_lineage _ _ _ Hcr), (cr_claim _ _ _ Hcr). done. }
  rewrite Hcall. assert (Hg' : grows start records1) by (by eapply grows_trans).
  destruct o as [| |[r|]].
  - apply wp_bind. eapply (release_tells _ _ _ Hcr Hprep); [done|]. intros b w' records2 Hw' Hg2 Hb.
    destruct b; apply Herr; try done; exists records2; (split; [done|]); (split; [by eapply grows_trans|]); [right|by left].
    apply Hb; [done|]. by apply (grows_elem _ _ _ _ Hg2), (grows_elem _ _ _ _ Hg1).
  - eapply wp_marked; [by apply mark_admission_tells|done..].
  - destruct (py_eq _ _); [by eapply Hok|]. eapply wp_marked; [by apply mark_unknown_tells|done..].
  - eapply wp_marked; [by apply mark_admission_tells|done..].
Qed.

Lemma wp_submitted claimed r Q s records : claim_of_run baseline claimed c -> holds (world s) records -> grows start records ->
  (forall d w records', holds w records' -> grows start records' -> ESubmit c ∈ events_of (lineage_of baseline) records' ->
     lineage_of d = lineage_of baseline -> dget "admission_claim_id" d = PStr c ->
     Q (Ok d) (Supervisor (halted s) w (asked s))) ->
  (forall e s', asked s' = asked s -> closed_out start baseline c s' -> Q (Err e) s') ->
  wp (submitted_attempt baseline claimed r) Q s.
Proof.
  intros Hcr Hs Hg Hok Herr. unfold submitted_attempt. apply wp_bind. eapply wp_ask; [done|]. cbn [call_made].
  rewrite app_nil_r. intros saved w records1 Hw Hg1. apply wp_bind. eapply wp_current; [done|].
  intros o w' records2 Hw' Hg2 Ho. assert (Hg' : grows start records2) by (by do 2 (eapply grows_trans; [done|])).
  assert (Hun : wp (receipt_unknown_as (A:=dict) "Worker submitted receipt persistence failed" baseline claimed r) Q
                  (Supervisor (halted s) w' (asked s))).
  { eapply wp_marked; [by apply mark_unknown_tells|done..]. }
  destruct o as [d|]; [|done]. destruct (Ho d eq_refl) as [Hd Hp].
  destruct (_same_attempt_authority baseline d && _ && _) eqn:Hsame; [|done]. split_guards.
  destruct (negb _) eqn:Hclaim.
  - apply Herr; [done|]. exists records2. split; [done|]. split; [done|]. by left.
  - destruct saved; [|done]. split_guards. rewrite (cr_claim _ _ _ Hcr) in Hclaim. apply py_eq_str in Hclaim.
    assert (Hl : lineage_of baseline = lineage_of d) by (apply same_lineage; [apply Hcr|done..]).
    match goal with H : state_is _ d = true |- _ => rewrite (claimed_phase _ _ _ H Hclaim) in Hp end.
    eapply Hok; [done..| | |done]; [|done]. rewrite Hl. by eapply path_submitted.
Qed.

Lemma canonical_result_token acp returned h : well_formed baseline ->
  canonical_result acp (dget "dispatch_key" baseline) returned = Ok h -> handoff_token h = (lineage_of baseline).2.
Proof.
  intros (_ & Hk & _)%well_formed_texts. unfold canonical_result. destruct (_project_result returned) as [[[[r reply] arts] traces]|]; [|done].
  intros ([] & _ & ([] & _ & H)%bind_Ok)%bind_Ok. destruct (build_canonical_handoff _ _ _ _ _) as [h'|] eqn:Eb; [|done].
  injection H as <-. apply build_Ok in Eb as (_ & Ht & _). unfold lineage_of. cbn. congruence.
Qed.

Lemma wp_completed acp d r Q s records : well_formed baseline -> lineage_of d = lineage_of baseline ->
  dget "admission_claim_id" d = PStr c -> holds (world s) records -> grows start records ->
  ESubmit c ∈ events_of (lineage_of baseline) records ->
  (forall o s' records', asked s' = asked s ++ [CallComplete (lineage_of baseline) c] -> holds (world s') records' ->
     grows start records' -> ESubmit c ∈ events_of (lineage_of baseline) records' ->
     (forall h, o = Ok h -> handoff_token h = (lineage_of baseline).2) -> Q o s') ->
  wp (completed_handoff acp baseline d r) Q s.
Proof.
  intros Hb Hl Hc Hs Hg Hin HQ. unfold completed_handoff. apply wp_bind. eapply wp_ask; [done|]. intros o w records' Hw Hg'.
  cbn [call_made]. unfold field. rewrite Hl, Hc.
  assert (grows start records') by (by eapply grows_trans).
  assert (ESubmit c ∈ events_of (lineage_of baseline) records') by (exact (grows_elem _ _ _ _ Hg' Hin)).
  destruct o as [returned|]; eapply HQ; try done. intros h. by apply canonical_result_token.
Qed.
End one_run.

Lemma wp_claimed baseline Q s records : well_formed baseline -> holds (world s) records ->
  (forall d c w records', holds w records' -> grows records records' -> claim_of_run baseline d c ->
     EClaim c ∈ events_of (lineage_of baseline) records' -> (forall key, EClaim c ∉ events_of key records) ->
     Q (Ok d) (Supervisor (halted s) w (asked s))) ->
  (forall e w records', holds w records' -> grows records records' -> Q (Err e) (Supervisor (halted s) w (asked s))) ->
  wp (claimed_attempt baseline) Q s.
Proof.
  intros Hb Hs Hok Herr. unfold claimed_attempt. apply wp_bind. unfold wp at 1, ask.
  destruct (authority_grows (ClaimAdmission baseline) _ _ Hs) as (records1 & Hw & Hg).
  destruct (answer (ClaimAdmission baseline) (world s)) as [w raw] eqn:E. cbn -[py_eq _same_attempt_authority] in Hw |- *. rewrite app_nil_r.
  apply wp_bind. unfold wp at 1, lift. cbn -[py_eq _same_attempt_authority].
  destruct raw as [v|]; [|by eapply Herr].
  destruct (validated_total v) as [o Ho]. rewrite Ho. destruct o as [d|]; [|by eapply Herr]. apply validated_Some in Ho.
  destruct (authority_claims baseline (world s) records v d Hs) as (records2 & c & Hw2 & Hg2 & Hc & Hin & Hfresh);
    [by rewrite E|done|]. rewrite E in Hw2. cbn in Hw2.
  match goal with |- context [if ?b then _ else _] => destruct b eqn:Hall end; [|by eapply Herr]. split_guards.
  assert (Hl : lineage_of baseline = lineage_of d) by (apply same_lineage; [done|by exists v|done]).
  apply wp_bind. eapply wp_current; [done|]. intros o w' records3 Hw3 Hg3 Hread. cbn [halted asked].
  assert (Hg' : grows records records3) by (by eapply grows_trans).
  destruct o as [d'|]; [|by eapply Herr]. destruct (py_eq _ _) eqn:He; [|by eapply Herr].
  destruct (Hread d' eq_refl) as [Hd' _]. destruct (equal_records _ _ Hd' He) as (Hl' & Hst & Hcl).
  eapply (Hok d' c); [done..| | |done].
  - split; [done|congruence|]. rewrite <- Hcl; [done|].
    match goal with H : state_is "admitting" d = true |- _ => unfold state_is in H |- *; by rewrite <- Hst end.
  - rewrite Hl. by apply (grows_elem _ _ _ _ Hg3).
Qed.

Lemma wp_check_authority baseline Q s records : holds (world s) records ->
  (forall o w records', holds w records' -> grows records records' -> Q o (Supervisor (halted s) w (asked s))) ->
  wp (check_authority baseline) Q s.
Proof.
  intros Hs HQ. unfold check_authority. apply wp_bind. eapply wp_current; [done|]. intros o w records' Hw Hg _.
  destruct o as [d|]; [|by eapply HQ]. repeat (match goal with |- context [if ?b then _ else _] => destruct b end; [by eapply HQ|]).
  by eapply HQ.
Qed.

Lemma checked_attempt_Ok v route baseline : checked_attempt v route = Ok baseline ->
  well_formed baseline /\ state_is "prepared" baseline = true.
Proof.
  unfold checked_attempt. intros ([d|] & Hv & H)%bind_Ok; [|done]. apply bind_Ok in H as ([] & Hg & H).
  destruct (_validate_route d route); [done|]. injection H as <-. split; [exists v; by apply validated_Some|].
  unfold raise_if in Hg. by destruct (state_is "prepared" d).
Qed.

(** ** What a run leaves behind *)

(** The outcome of a run, for the history it started from. *)
Definition run_outcome (start : list pyval) (s : supervisor S) (o : result CanonicalHandoff) (s' : supervisor S) : Prop :=
  exists records, holds (world s') records /\ grows start records
    /\ ((asked s' = asked s /\ is_ok o = false)
        \/ exists key c, EClaim c ∈ events_of key records /\ (forall k, EClaim c ∉ events_of k start)
           /\ ((asked s' = asked s ++ [CallAdmit key c] /\ is_ok o = false
                 /\ (halted s' = true \/ settled c (events_of key records)))
               \/ (asked s' = asked s ++ [CallAdmit key c; CallComplete key c] /\ ESubmit c ∈ events_of key records
                   /\ forall h, o = Ok h -> handoff_token h = key.2))).

Lemma execute_outcome v route s records : holds (world s) records ->
  wp (execute v route) (run_outcome records s) s.
Proof.
  intros Hs. unfold execute, wp. destruct (halted s) eqn:Hh.
  { exists records. split; [done|]. split; [apply grows_refl|by left]. }
  apply (wp_bind (lift _)). unfold wp at 1, lift. cbn -[checked_attempt]. destruct (checked_attempt v route) as [baseline|e] eqn:Hb; cbn.
  2:{ exists records. split; [done|]. split; [apply grows_refl|by left]. }
  apply checked_attempt_Ok in Hb as [Hb Hprep]. apply wp_bind. eapply wp_check_authority; [done|]. intros o w1 rs1 Hw1 Hg1.
  destruct o as [[]|e]; [|exists rs1; split; [done|]; split; [done|by left]].
  apply wp_bind. eapply wp_claimed; [done..| |].
  2:{ intros e w rs2 Hw Hg2. exists rs2. split; [done|]. split; [by eapply grows_trans|by left]. }
  intros d c w2 rs2 Hw2 Hg2 Hcr Hin Hfresh0. cbn [halted asked].
  assert (Hfresh : forall k, EClaim c ∉ events_of k records) by (intros k H; by eapply Hfresh0, (grows_elem _ _ _ _ Hg1)).
  assert (Hg02 : grows records rs2) by (by eapply grows_trans).
  assert (Hin_later : forall rs, grows rs2 rs -> EClaim c ∈ events_of (lineage_of baseline) rs) by (intros rs H; by eapply grows_elem).
  assert (Hclosed : forall e s', asked s' = asked s ++ [CallAdmit (lineage_of baseline) c] -> closed_out rs2 baseline c s' ->
            run_outcome records s (Err e) s').
  { intros e s' Ha (rs & Hrs & Hg & Hset). exists rs. split; [done|]. split; [by eapply grows_trans|]. right.
    exists (lineage_of baseline), c. split; [by apply Hin_later|]. split; [done|]. by left. }
  apply wp_bind. eapply (wp_admitted rs2); [done..|apply grows_refl|done| |by apply Hclosed].
  intros r w3 rs3 Hw3 Hg3. apply wp_bind. eapply (wp_submitted rs2); [done..| |].
  2:{ intros e s' Ha. by apply Hclosed. }
  intros d' w4 rs4 Hw4 Hg4 Hsub Hl Hc. eapply (wp_completed rs2); [done..|].
  intros o s' rs5 Ha Hw5 Hg5 Hsub5 Htok. exists rs5. split; [done|]. split; [by eapply grows_trans|]. right.
  exists (lineage_of baseline), c. split; [by apply Hin_later|]. split; [done|]. right. rewrite Ha. cbn [asked]. by rewrite <- app_assoc.
Qed.

(** C5: Whatever the transports answer and whoever shares the record of the
    attempts, a run of the supervisor accounts for the admission it asked for.
    It makes no transport call and returns nothing; or it asked once, under a
    claim that was never recorded before and is recorded now, and then the
    history says how that admission ended (released, submitted or ambiguous),
    or the supervisor has halted; or the submission was recorded before the
    transport was asked once to complete it, and a handoff that is returned
    carries the attempt's dispatch key.  A supervisor that has halted does
    nothing. *)
Theorem supervised_admission_accounted v route s records o s' : holds (world s) records ->
  execute v route s = (o, s') ->
  run_outcome records s o s'
  /\ (halted s = true -> s' = s /\ o = Err (WorkerAttemptError "Worker supervisor is halted")).
Proof.
  intros Hs He. split.
  - pose proof (execute_outcome v route s records Hs) as H. unfold wp in H. by rewrite He in H.
  - intros Hh. unfold execute in He. rewrite Hh in He. by injection He as <- <-.
Qed.
End runs.

(** ** The state store as the authority

    The callbacks as operations of the store (as the program's tests wire
    them), beside a transport and anybody else who shares the store. *)

Record store_state := StoreState { st_tick : nat; st_journal : option string; st_doc : dict }.

Definition at_journal (j : option string) (w : store_world) : store_world :=
  StoreWorld j (sw_now w) (sw_claim w) (sw_event w) (sw_result_time w) (sw_result_event w) (sw_reply w) (sw_reply_time w)
    (sw_reply_event w).

Section store.
Context {env : LeaseEnv} {ft : FloatText} {lim : RecursionLimits} {repr : PyRepr}.
Context (worlds : nat -> store_world) (elsewhere : nat -> option string * dict -> option string * dict)
  (admits : nat -> dict -> admission) (completes : nat -> dict -> option (option TransportResult)).

Definition text (k : string) (a : dict) : pyval := PStr (field k a).

#[local] Instance store_callbacks : Callbacks store_state := fun A r s =>
  let n := st_tick s in
  let '(j, doc) := elsewhere n (st_journal s, st_doc s) in
  let w := at_journal j (worlds n) in
  let op (m : result (dict * dict)) := match m with
    | Ok (doc', d) => (StoreState (S n) j doc', Some (PDict d))
    | Err _ => (StoreState (S n) j doc, None)
    end in
  match r with
  | AuthorizeAttempt a => op (d ← mission_attempt_by_id doc (text "attempt_id" a); Ok (doc, d))
  | ClaimAdmission a => op (claim_mission_attempt_admission w doc (text "attempt_id" a) (text "dispatch_key" a))
  | ReleaseAdmission a => op (release_mission_attempt_admission w doc (text "attempt_id" a) (text "dispatch_key" a)
                                (text "admission_claim_id" a))
  | PersistSubmitted a r => op (record_mission_attempt_submitted w doc (text "attempt_id" a) (text "dispatch_key" a)
                                  (text "admission_claim_id" a) (PStr (receipt_summary r)))
  | MarkAttemptAmbiguous a r reason => op (mark_mission_attempt_ambiguous w doc (text "attempt_id" a) (text "dispatch_key" a)
                                  (text "admission_claim_id" a) (PStr (receipt_key r)) (PStr (receipt_summary r)) (PStr reason))
  | MarkAdmissionAmbiguous a reason => op (mark_mission_attempt_admission_ambiguous w doc (text "attempt_id" a)
                                  (text "dispatch_key" a) (text "admission_claim_id" a) (PStr reason))
  | AdmitTransport _ a => (StoreState (S n) j doc, admits n a)
  | CompleteTransport _ a _ => (StoreState (S n) j doc, completes n a)
  end.

Definition store_holds (s : store_state) (records : list pyval) : Prop :=
  exists attempts, coherent (st_journal s) (st_doc s) attempts records.

Hypothesis elsewhere_grows : forall n j doc attempts records, coherent j doc attempts records ->
  exists attempts' records', coherent (elsewhere n (j, doc)).1 (elsewhere n (j, doc)).2 attempts' records' /\ grows records records'.

Lemma by_id_Ok doc id d j attempts records : coherent j doc attempts records -> mission_attempt_by_id doc id = Ok d -> d ∈ attempts.
Proof.
  intros ((rows & (Ht & _ & Hv & _)%load_attempts_Ok) & _). unfold mission_attempt_by_id. rewrite Ht, Hv.
  intros ([] & _ & H%one_attempt_Ok)%bind_Ok. apply attempts_with_one in H as (pre & post & -> & _). set_solver.
Qed.

Lemma op_grows n j doc attempts records start (m : result (dict * dict)) :
  coherent j doc attempts records -> grows start records ->
  (forall doc' d, m = Ok (doc', d) -> exists attempts' records', coherent j doc' attempts' records' /\ grows records records') ->
  exists records', store_holds (match m with
    | Ok (doc', d) => (StoreState (S n) j doc', Some (PDict d))
    | Err _ => (StoreState (S n) j doc, None)
    end).1 records' /\ grows start records'.
Proof.
  intros Hco Hg Hm. destruct m as [[doc' d]|e].
  - destruct (Hm _ _ eq_refl) as (attempts' & records' & Hco' & Hg'). exists records'. split; [by exists attempts'|by eapply grows_trans].
  - exists records. split; [by exists attempts|done].
Qed.

(** What the others left when it is this callback's turn. *)
Lemma after_others s records : store_holds s records -> exists j doc attempts records',
  elsewhere (st_tick s) (st_journal s, st_doc s) = (j, doc) /\ coherent j doc attempts records' /\ grows records records'.
Proof.
  intros [attempts Hco]. destruct (elsewhere_grows (st_tick s) _ _ _ _ Hco) as (attempts' & records' & Hco' & Hg).
  destruct (elsewhere _ _) as [j doc]. by exists j, doc, attempts', records'.
Qed.

Lemma store_grows A (r : request A) s records : store_holds s records ->
  exists records', store_holds (answer r s).1 records' /\ grows records records'.
Proof.
  intros (j & doc & attempts & records' & E & Hco & Hg)%after_others. unfold answer, store_callbacks. rewrite E.
  assert (Hop : forall op doc' d, run_attempt_op (at_journal j (worlds (st_tick s))) doc op = Ok (doc', d) ->
            exists attempts' records'', coherent j doc' attempts' records'' /\ grows records' records'').
  { intros op doc' d H. by apply (attempt_op_grows (at_journal j (worlds (st_tick s))) doc attempts records' op doc' d). }
  destruct r; [..|by exists records'; split; [exists attempts|] |by exists records'; split; [exists attempts|] ];
    apply (op_grows _ _ _ _ _ _ _ Hco Hg); intros doc' d.
  - intros (x & _ & [= <- <-])%bind_Ok. exists attempts, records'. split; [done|apply grows_refl].
  - apply (Hop (OpClaim _ _)).
  - apply (Hop (OpRelease _ _ _)).
  - apply (Hop (OpSubmitted _ _ _ _)).
  - apply (Hop (OpReceiptUnknown _ _ _ _ _ _)).
  - apply (Hop (OpAdmissionUnknown _ _ _ _)).
Qed.

#[local] Instance store_authority : AttemptAuthority store_holds.
Proof.
  split; [apply store_grows|..].
  - intros a s records v d (j & doc & attempts & records1 & E & Hco & Hg)%after_others.
    unfold answer, store_callbacks. rewrite E.
    destruct (claim_mission_attempt_admission _ _ _ _) as [[doc' d']|] eqn:Ec; [|done]. intros [= <-] ->%validate_PDict.
    destruct (claim_recorded (at_journal j (worlds (st_tick s))) _ _ _ _ _ _ _ Hco Ec) as (attempts' & records' & c & Hco' & Hc & Hev).
    assert (Hg' : grows records1 records') by (intros k; rewrite Hev; by eexists).
    exists records', c. split; [by exists attempts'|]. split; [by eapply grows_trans|]. split; [done|]. split.
    + rewrite Hev, bool_decide_true by done. apply elem_of_app. right. by left.
    + intros key Hin. eapply new_claim_fresh; [apply Hco'|apply Hev|]. by apply (grows_elem _ _ _ _ Hg).
  - intros a s records v d (j & doc & attempts & records1 & E & Hco & Hg)%after_others.
    unfold answer, store_callbacks. rewrite E.
    destruct (mission_attempt_by_id _ _) as [d'|] eqn:Ed; cbn; [|done]. intros [= <-] ->%validate_PDict.
    exists records1. split; [by exists attempts|]. split; [done|]. eapply coherent_path; [done|]. by eapply by_id_Ok.
Qed.
End store.

(** ** Witness *)

#[local] Existing Instance sample_env.
#[local] Existing Instance sample_limits.
#[local] Existing Instance sample_float_text.
#[local] Existing Instance sample_repr.

Definition sample_reply : pyval :=
  PDict [("handoff_token", PStr ("dsp_" +:+ hex_a)); ("status", PStr "completed"); ("summary", PStr "done");
         ("verification", PStr "tests"); ("risks", PStr "none"); ("next_steps", PStr "none")].
Definition sample_result : TransportResult :=
  {| tr_stop_reason := PStr "end_turn"; tr_validated := PBool true; tr_reply := sample_reply; tr_artifacts := []; tr_trace_ids := [] |}.
Definition sample_route : WorkerRoute :=
  {| wr_agent_id := dget "agent_id" prepared_attempt; wr_configured_transport := dget "configured_transport" prepared_attempt;
     wr_effective_transport := dget "configured_transport" prepared_attempt; wr_ready := PBool true;
     wr_ownership := PStr "agentdeck_owned"; wr_automation_allowed := PBool true |}.

(** Nobody else; the transport admits and completes. *)
#[local] Instance sample_callbacks : Callbacks store_state :=
  store_callbacks sample_world (fun _ s => s) (fun _ _ => AdmissionReturned (Some (Receipt "r1" ("dsp_" +:+ hex_a) "sent")))
    (fun _ _ => Some (Some sample_result)).
#[local] Instance sample_authority : AttemptAuthority store_holds.
Proof. apply store_authority. intros n j doc attempts records H. exists attempts, records. split; [done|apply grows_refl]. Defined.

Lemma supervised_admission_accounted_witness : exists h s' c,
  execute (PDict prepared_attempt) (Some sample_route) (Supervisor false (StoreState 0 None prepared_doc) []) = (Ok h, s')
  /\ asked s' = [CallAdmit (lineage_of prepared_attempt) c; CallComplete (lineage_of prepared_attempt) c]
  /\ handoff_token h = (lineage_of prepared_attempt).2.
Proof.
  destruct (execute (PDict prepared_attempt) (Some sample_route) (Supervisor false (StoreState 0 None prepared_doc) []))
    as [o s'] eqn:E.
  assert (Ho : exists h, o = Ok h /\ asked s' = [CallAdmit (lineage_of prepared_attempt) "adm_00000000000a";
                                                 CallComplete (lineage_of prepared_attempt) "adm_00000000000a"]).
  { vm_compute in E. injection E as <- <-. eexists. split; [reflexivity|by vm_compute]. }
  destruct Ho as (h & -> & Ha).
  assert (Hs : store_holds (StoreState 0 None prepared_doc) []) by (exists [prepared_attempt]; exact (prepared_coherent 1)).
  destruct (supervised_admission_accounted store_holds _ _ (Supervisor false (StoreState 0 None prepared_doc) []) [] _ _ Hs E) as [(rs & _ & _ & Hcase) _].
  exists h, s', "adm_00000000000a". split; [done|]. split; [done|].
  destruct Hcase as [[_ [=]]|(key & c & _ & _ & [(_ & [=] & _)|(Ha' & _ & Htok)])].
  rewrite Ha in Ha'. injection Ha' as <- _ _ _. by apply Htok.
Defined.
