(* ===== verification/Recovery.v ===== *)
(** * Crash recovery ([daemon/recovery.py])

    After a restart the daemon derives facts about every active Mission from the
    saved document alone, classifies them, saves the decisions and only then
    enables the scheduler.  It asks no Worker and dispatches nothing. *)
From S2P Require Import Prelude PyStr PyVal ReviewVerdict ReviewGroup Json Protocol Handoff Scheduler Lease Store Attempt AttemptStore Conversation Snapshot.

(** ** Facts *)

Inductive receipt_state := ReceiptNone | ReceiptRecorded.
Inductive transport_kind := Acp | Tmux | NoTransport.
Inductive transport_state := TrReady | TrMissing | TrInvalid.
Inductive recovery_lineage := LinValid | LinMissing | LinConflict.
Inductive recovery_ownership := AgentdeckOwned | HumanOwned | OwnConflict.
#[export] Instance receipt_state_dec : EqDecision receipt_state. Proof. solve_decision. Defined.
#[export] Instance transport_kind_dec : EqDecision transport_kind. Proof. solve_decision. Defined.
#[export] Instance transport_state_dec : EqDecision transport_state. Proof. solve_decision. Defined.
#[export] Instance recovery_lineage_dec : EqDecision recovery_lineage. Proof. solve_decision. Defined.
#[export] Instance recovery_ownership_dec : EqDecision recovery_ownership. Proof. solve_decision. Defined.

Definition MISSION_STATUSES : list (string * mission_st) :=
  [("pending_confirmation", MPendingConfirmation); ("preparing", MPreparing); ("running", MRunning);
   ("completed", MCompleted); ("stopped", MStopped); ("interrupted", MInterrupted)].
Definition RECEIPT_STATES : list (string * receipt_state) := [("none", ReceiptNone); ("recorded", ReceiptRecorded)].
Definition REPLY_STATES : list (string * reply_st) :=
  [("none", RNone); ("received", RReceived); ("validated", RValidated); ("invalid", RInvalid)].
Definition CONFIGURED_TRANSPORTS : list (string * transport_kind) := [("acp", Acp); ("tmux", Tmux); ("none", NoTransport)].
Definition TRANSPORT_STATES : list (string * transport_state) := [("ready", TrReady); ("missing", TrMissing); ("invalid", TrInvalid)].
Definition LINEAGE_STATES : list (string * recovery_lineage) :=
  [("valid", LinValid); ("missing", LinMissing); ("conflict", LinConflict)].
Definition OWNERSHIP_STATES : list (string * recovery_ownership) :=
  [("agentdeck_owned", AgentdeckOwned); ("human_owned", HumanOwned); ("conflict", OwnConflict)].

Definition _FACT_FIELDS : list string :=
  ["mission_id"; "mission_state"; "attempt_id"; "attempt_state"; "receipt_state"; "reply_state"; "handoff_state";
   "permission_state"; "configured_transport"; "transport_state"; "snapshot_state"; "lineage_state"; "ownership_state"].

Record RecoveryFacts := {
  rf_mission_id : string; rf_mission : mission_st; rf_attempt_id : option string; rf_attempt : attempt_st;
  rf_receipt : receipt_state; rf_reply : reply_st; rf_handoff : handoff_st; rf_permission : permission_st;
  rf_configured : transport_kind; rf_transport : transport_state; rf_snapshot : snapshot_st;
  rf_lineage : recovery_lineage; rf_ownership : recovery_ownership
}.

Definition bad_facts (what : string) : exn := RecoveryError ("invalid recovery facts: " +:+ what).
Definition known_state {A} (states : list (string * A)) (v : pyval) : result A :=
  match v with
  | PStr s => match assoc_str s states with Some a => Ok a | None => Err (bad_facts "unknown state") end
  | _ => Err (bad_facts "unknown state")
  end.

(** [RecoveryFacts.__post_init__] on the fields of a new object. *)
Definition new_facts (d : dict) : result RecoveryFacts :=
  _ ← raise_if (negb (is_canonical_mission_id (dget "mission_id" d))) (bad_facts "mission identity");
  mission ← known_state MISSION_STATUSES (dget "mission_state" d);
  attempt ← known_state ATTEMPT_STATES (dget "attempt_state" d);
  receipt ← known_state RECEIPT_STATES (dget "receipt_state" d);
  reply ← known_state REPLY_STATES (dget "reply_state" d);
  handoff ← known_state HANDOFF_STATES (dget "handoff_state" d);
  permission ← known_state PERMISSION_STATES (dget "permission_state" d);
  configured ← known_state CONFIGURED_TRANSPORTS (dget "configured_transport" d);
  transport ← known_state TRANSPORT_STATES (dget "transport_state" d);
  snapshot ← known_state SNAPSHOT_STATES (dget "snapshot_state" d);
  lineage ← known_state LINEAGE_STATES (dget "lineage_state" d);
  ownership ← known_state OWNERSHIP_STATES (dget "ownership_state" d);
  let attempt_id := dget "attempt_id" d in
  _ ← raise_if (negb (Attempt.is_none attempt_id || is_form attempt_id_form attempt_id)) (bad_facts "attempt identity");
  _ ← raise_if (negb (Bool.eqb (eqd attempt ANone) (Attempt.is_none attempt_id))) (bad_facts "attempt lineage");
  _ ← raise_if (eqd attempt ANone && (negb (eqd receipt ReceiptNone) || negb (eqd reply RNone) || negb (eqd handoff HNone)))
               (bad_facts "attempt lineage");
  Ok {| rf_mission_id := text_of (dget "mission_id" d); rf_mission := mission;
        rf_attempt_id := match attempt_id with PStr s => Some s | _ => None end; rf_attempt := attempt;
        rf_receipt := receipt; rf_reply := reply; rf_handoff := handoff; rf_permission := permission;
        rf_configured := configured; rf_transport := transport; rf_snapshot := snapshot;
        rf_lineage := lineage; rf_ownership := ownership |}.

Definition facts_from_mapping (value : pyval) : result RecoveryFacts :=
  match value with
  | PDict d => if keys_are _FACT_FIELDS d then new_facts d else Err (bad_facts "exact fields required")
  | _ => Err (bad_facts "exact fields required")
  end.

(** ** Decisions *)

Inductive classification := Resumable | WaitingHuman | CAmbiguous | CBlocked | CTerminal.
Inductive next_transition := PrepareDispatch | DispatchPrepared | AwaitWorker | ValidateReply | RecordHandoff | ActivateNext.
#[export] Instance classification_dec : EqDecision classification. Proof. solve_decision. Defined.
#[export] Instance next_transition_dec : EqDecision next_transition. Proof. solve_decision. Defined.

Definition CLASSIFICATIONS : list (string * classification) :=
  [("resumable", Resumable); ("waiting_human", WaitingHuman); ("ambiguous", CAmbiguous); ("blocked", CBlocked); ("terminal", CTerminal)].
Definition _ALLOWED_RECOVERY_TRANSITIONS : list (string * next_transition) :=
  [("prepare_dispatch", PrepareDispatch); ("dispatch_prepared", DispatchPrepared); ("await_worker", AwaitWorker);
   ("validate_reply", ValidateReply); ("record_handoff", RecordHandoff); ("activate_next", ActivateNext)].

Record RecoveryDecision := {
  rd_class : classification; rd_reason : string; rd_mission_id : string; rd_attempt_id : option string;
  rd_next : option next_transition
}.
#[export] Instance decision_dec : EqDecision RecoveryDecision. Proof. solve_decision. Defined.

(** [RecoveryDecision.__post_init__] *)
Definition new_decision (d : RecoveryDecision) : result RecoveryDecision :=
  _ ← raise_if (String.eqb (rd_reason d) "") (RecoveryError "invalid recovery decision reason");
  _ ← raise_if (negb (hex_id "mis_" 12 (rd_mission_id d))) (RecoveryError "invalid recovery decision Mission identity");
  _ ← raise_if (match rd_attempt_id d with Some a => negb (attempt_id_form a) | None => false end)
               (RecoveryError "invalid recovery decision attempt identity");
  _ ← raise_if (eqd (rd_class d) Resumable && bool_decide (rd_next d = None))
               (RecoveryError "resumable recovery decision requires an allowed transition");
  _ ← raise_if (negb (eqd (rd_class d) Resumable) && negb (bool_decide (rd_next d = None)))
               (RecoveryError "non-resumable recovery decision has a transition");
  Ok d.

Definition decide_as (f : RecoveryFacts) (c : classification) (reason : string) (next : option next_transition)
    : result RecoveryDecision :=
  new_decision {| rd_class := c; rd_reason := reason; rd_mission_id := rf_mission_id f; rd_attempt_id := rf_attempt_id f;
                  rd_next := next |}.

Definition mission_name (m : mission_st) : string :=
  match m with
  | MIdle => "idle" | MPendingConfirmation => "pending_confirmation" | MPreparing => "preparing" | MRunning => "running"
  | MCompleted => "completed" | MStopped => "stopped" | MInterrupted => "interrupted"
  end.

(** The attempt was given to a Worker and has not ended. *)
Definition in_flight (a : attempt_st) : bool := bool_decide (a ∈ [ASubmitted; ARunning]).
Definition failed_attempt (a : attempt_st) : bool := bool_decide (a ∈ [AFailed; ACancelled; AInterrupted]).

(** The end of the gate: what to do with a successful attempt. *)
Definition successful_gate (f : RecoveryFacts) : result RecoveryDecision :=
  let blocked reason := decide_as f CBlocked reason None in
  let resumable reason next := decide_as f Resumable reason (Some next) in
  if negb (eqd (rf_receipt f) ReceiptRecorded) then blocked "terminal Worker result lacks a receipt"
  else if eqd (rf_reply f) RNone then blocked "terminal Worker result has no reply evidence"
  else if eqd (rf_reply f) RInvalid then blocked "Worker reply is invalid"
  else if eqd (rf_reply f) RReceived then
    if negb (eqd (rf_handoff f) HNone) then blocked "handoff precedes reply validation"
    else resumable "terminal Worker reply awaits validation" ValidateReply
  else if eqd (rf_handoff f) HNone then resumable "validated Worker reply awaits compact handoff" RecordHandoff
  else if eqd (rf_handoff f) HPending then blocked "Mission handoff state is incomplete"
  else resumable "validated compact handoff can activate the next step" ActivateNext.

Definition terminal_gate (f : RecoveryFacts) : result RecoveryDecision :=
  let blocked reason := decide_as f CBlocked reason None in
  let ended := decide_as f CTerminal ("Mission is " +:+ mission_name (rf_mission f)) None in
  if bool_decide (rf_attempt f ∈ [APrepared; ASubmitted; ARunning]) then
    blocked "terminal Mission retains an active Worker attempt"
  else if successful_attempt (rf_attempt f) then
    if negb (eqd (rf_receipt f) ReceiptRecorded) then blocked "terminal Worker result lacks a receipt"
    else if eqd (rf_reply f) RNone then blocked "terminal Worker result has no reply evidence"
    else if negb (eqd (rf_reply f) RValidated) || negb (eqd (rf_handoff f) HRecorded) then
      blocked "terminal Mission result is not fully validated"
    else ended
  else ended.

(** The attempt of an active Mission, once nothing else stands in the way. *)
Definition attempt_gate (f : RecoveryFacts) : result RecoveryDecision :=
  let blocked reason := decide_as f CBlocked reason None in
  let resumable reason next := decide_as f Resumable reason (Some next) in
  if eqd (rf_attempt f) ANone then resumable "Mission has no active Worker attempt" PrepareDispatch
  else if eqd (rf_attempt f) APrepared then
    if negb (eqd (rf_receipt f) ReceiptNone) || negb (eqd (rf_reply f) RNone) then blocked "prepared attempt has external evidence"
    else resumable "prepared Worker attempt has not been dispatched" DispatchPrepared
  else if in_flight (rf_attempt f) then
    if negb (eqd (rf_reply f) RNone) then blocked "Worker reply precedes a terminal successful attempt"
    else resumable "submitted Worker receipt is waiting for a reply" AwaitWorker
  else if failed_attempt (rf_attempt f) then
    blocked ("Worker attempt ended as " +:+ (if eqd (rf_attempt f) AFailed then "failed"
                                             else if eqd (rf_attempt f) ACancelled then "cancelled" else "interrupted"))
  else if successful_attempt (rf_attempt f) then successful_gate f
  else blocked "Mission recovery evidence is incomplete".

(** The Mission, its transport and its permissions, when the outcome of its
    attempt is known. *)
Definition settled_gate (f : RecoveryFacts) : result RecoveryDecision :=
  let blocked reason := decide_as f CBlocked reason None in
  let waiting reason := decide_as f WaitingHuman reason None in
  if terminal_mission (rf_mission f) then terminal_gate f
  else if eqd (rf_mission f) MPendingConfirmation then waiting "Mission confirmation is pending"
  else if eqd (rf_transport f) TrMissing then blocked "Worker transport is missing"
  else if eqd (rf_transport f) TrInvalid then blocked "Worker transport is invalid"
  else if eqd (rf_permission f) PermPending then waiting "Worker permission is pending"
  else if bool_decide (rf_permission f ∈ [PermDenied; PermExpired]) then
    blocked ("Worker permission is " +:+ if eqd (rf_permission f) PermDenied then "denied" else "expired")
  else attempt_gate f.

(** The attempt may have reached its Worker although nothing says so. *)
Definition ordered_gate (f : RecoveryFacts) : result RecoveryDecision :=
  let ambiguous reason := decide_as f CAmbiguous reason None in
  if eqd (rf_attempt f) AAdmitting then ambiguous "Worker admission outcome is unknown"
  else if eqd (rf_attempt f) AAmbiguous then ambiguous "Worker attempt outcome is ambiguous"
  else if eqd (rf_configured f) Acp && in_flight (rf_attempt f) then
    ambiguous "ACP Worker connection was lost across daemon restart"
  else if in_flight (rf_attempt f) && eqd (rf_receipt f) ReceiptNone then
    ambiguous "Worker dispatch outcome lacks a receipt"
  else settled_gate f.

Definition reconcile_gate (f : RecoveryFacts) : result RecoveryDecision :=
  let blocked reason := decide_as f CBlocked reason None in
  if eqd (rf_snapshot f) SnDrift then blocked "frozen Mission snapshot drift"
  else if eqd (rf_snapshot f) SnMissing then blocked "frozen Mission snapshot is missing"
  else if eqd (rf_lineage f) LinMissing then blocked "Mission recovery lineage is incomplete"
  else if eqd (rf_lineage f) LinConflict then blocked "Mission recovery lineage conflicts"
  else if eqd (rf_ownership f) HumanOwned then blocked "Worker is human-owned"
  else if eqd (rf_ownership f) OwnConflict then blocked "Worker ownership conflicts"
  else if negb (eqd (rf_handoff f) HNone) && negb (eqd (rf_reply f) RValidated) then
    blocked "Mission handoff lacks validated reply lineage"
  else if negb (eqd (rf_reply f) RNone) && negb (eqd (rf_receipt f) ReceiptRecorded) then
    blocked "Worker reply lacks receipt lineage"
  else ordered_gate f.

(** ** Persisted evidence *)

Definition _RECOVERY_RECORD_FIELDS : list string :=
  ["classification"; "reason"; "mission_id"; "attempt_id"; "next_transition"; "classified_at"].
Definition _DURABLE_EVIDENCE_FIELDS : list string := ["mission_id"; "attempt_id"; "agent_id"].
Definition HANDOFF_EVIDENCE_FIELDS : list string :=
  ["mission_id"; "attempt_id"; "handoff_id"; "reply_id"; "state"; "canonical_handoff"].

Definition in_domain {A} (states : list (string * A)) (v : pyval) (e : exn) : result A :=
  match v with
  | PStr s => match assoc_str s states with Some a => Ok a | None => Err e end
  | _ => _ ← in_str_set v []; Err e
  end.

(** The decision of a saved record, and the record as it is returned. *)
Definition validate_recovery_record `{LeaseEnv} (value : pyval) : result dict :=
  let invalid := ValueError "recovery_decisions record is invalid" in
  match value with
  | PDict d =>
      _ ← raise_if (negb (keys_are _RECOVERY_RECORD_FIELDS d)) invalid;
      class ← in_domain CLASSIFICATIONS (dget "classification" d) (RecoveryError "invalid recovery decision classification");
      _ ← raise_if (negb (is_form nonempty (dget "reason" d))) (RecoveryError "invalid recovery decision reason");
      _ ← raise_if (negb (is_canonical_mission_id (dget "mission_id" d))) (RecoveryError "invalid recovery decision Mission identity");
      _ ← raise_if (negb (Attempt.is_none (dget "attempt_id" d) || is_form attempt_id_form (dget "attempt_id" d)))
                   (RecoveryError "invalid recovery decision attempt identity");
      _ ← (if eqd class Resumable
           then _ ← in_domain _ALLOWED_RECOVERY_TRANSITIONS (dget "next_transition" d)
                      (RecoveryError "resumable recovery decision requires an allowed transition"); Ok tt
           else raise_if (negb (Attempt.is_none (dget "next_transition" d)))
                         (RecoveryError "non-resumable recovery decision has a transition"));
      _ ← aware_instant (dget "classified_at" d) invalid;
      Ok ((fun k => (k, dget k d)) <$> _RECOVERY_RECORD_FIELDS)
  | _ => Err invalid
  end.

Definition validate_mission_recovery_evidence_record (value : pyval) : result dict :=
  let invalid := ValueError "durable recovery evidence is invalid" in
  match value with
  | PDict d =>
      let attempt_id := dget "attempt_id" d in
      _ ← raise_if (negb (keys_are _DURABLE_EVIDENCE_FIELDS d)) invalid;
      _ ← raise_if (negb (is_canonical_mission_id (dget "mission_id" d))
                    || negb (Attempt.is_none attempt_id || is_form attempt_id_form attempt_id)) invalid;
      _ ← raise_if (if Attempt.is_none attempt_id then negb (Attempt.is_none (dget "agent_id" d))
                    else negb (is_form nonempty (dget "agent_id" d)))
                   (ValueError "durable recovery attempt lineage is invalid");
      Ok ((fun k => (k, dget k d)) <$> _DURABLE_EVIDENCE_FIELDS)
  | _ => Err invalid
  end.

Definition validate_mission_permission_binding (value : pyval) : result dict :=
  let invalid := ValueError "durable recovery permission binding is invalid" in
  match value with
  | PDict d =>
      _ ← raise_if (negb (keys_are ["mission_id"; "attempt_id"; "permission_id"] d)
                    || negb (is_canonical_mission_id (dget "mission_id" d)) || negb (is_form attempt_id_form (dget "attempt_id" d))
                    || negb (is_form (hex_id "prm_" 12) (dget "permission_id" d))) invalid;
      Ok d
  | _ => Err invalid
  end.

Section evidence.
Context {env : LeaseEnv} {ft : FloatText} {lim : RecursionLimits} {repr : PyRepr}.

Definition validate_mission_handoff_evidence_record (value : pyval) : result dict :=
  let invalid := ValueError "durable recovery handoff evidence is invalid" in
  match value with
  | PDict d =>
      _ ← raise_if (negb (keys_are HANDOFF_EVIDENCE_FIELDS d || keys_are (HANDOFF_EVIDENCE_FIELDS ++ ["semantic_step_hash"]) d)
                    || negb (is_canonical_mission_id (dget "mission_id" d)) || negb (is_form attempt_id_form (dget "attempt_id" d))
                    || negb (is_form (hex_id "hof_" 12) (dget "handoff_id" d))
                    || negb (is_form (hex_id "mrp_" 12) (dget "reply_id" d))) invalid;
      known ← in_str_set (dget "state" d) ["pending"; "recorded"];
      _ ← raise_if (negb known || dmem "semantic_step_hash" d && negb (is_hash (dget "semantic_step_hash" d))) invalid;
      match validate_canonical_handoff (dget "canonical_handoff" d) PNone with
      | Ok h => Ok (dset "canonical_handoff" (PDict (compact h)) d)
      | Err e => Err (if type_or_value e then invalid else e)
      end
  | _ => Err invalid
  end.

(** ** Facts of a saved document *)

Definition recovery_error {A} (msg : string) : result A := Err (RecoveryError msg).

(** [[item for item in table if type(item) is dict and item.get(key) == v]] *)
Definition rows_with (key : string) (v : pyval) (rows : list pyval) : list dict :=
  List.filter (fun d => py_eq (dget key d) v) (dicts_of rows).
Definition table_list (e : exn) (v : pyval) : result (list pyval) := match v with PList l => Ok l | _ => Err e end.
(** [state.get(key, [])], iterated *)
Definition table_of (key : string) (state : dict) : result (list pyval) :=
  iter_table (match dlookup key state with Some v => v | None => PList [] end).

(** [max(rows, key=lambda r: (str(r.get("created_at")), str(r.get("attempt_id"))))]
    with its position: the first of the greatest. *)
Definition row_key (d : dict) : string * string := (py_str (dget "created_at" d), py_str (dget "attempt_id" d)).
Definition key_lt (a b : string * string) : bool :=
  negb (String.leb b.1 a.1) || String.eqb a.1 b.1 && negb (String.leb b.2 a.2).
Fixpoint latest_from (best : nat * dict) (n : nat) (rows : list dict) : nat * dict :=
  match rows with
  | [] => best
  | d :: rows => latest_from (if key_lt (row_key best.2) (row_key d) then (n, d) else best) (S n) rows
  end.
Definition latest_row (rows : list dict) : option (nat * dict) :=
  match rows with [] => None | d :: rows => Some (latest_from (0, d) 1 rows) end.

Definition get_of (key : string) (d : option dict) : pyval := match d with Some d => dget key d | None => PNone end.

(** The Mission's row and its current attempt. *)
Definition current_attempt (state : dict) (mission_id : pyval) : result (dict * option dict) :=
  let invalid := RecoveryError "persisted recovery state is invalid" in
  _ ← raise_if (negb (is_canonical_mission_id mission_id)) invalid;
  missions ← table_list invalid (dget "missions" state);
  attempts ← table_list invalid (dget "mission_attempts" state);
  evidence ← table_list invalid (dget "mission_recovery_evidence" state);
  match rows_with "mission_id" mission_id missions with
  | [mission] =>
      _ ← raise_if (negb (in_list (dget "status" mission) (PStr ∘ fst <$> MISSION_STATUSES)))
                   (RecoveryError "persisted Mission evidence is invalid");
      let mine := rows_with "mission_id" mission_id attempts in
      flags ← mapR (fun d => in_str_set (dget "state" d) ["prepared"; "admitting"; "submitted"; "running"]) mine;
      let active := list_find (fun b => b = true) flags in
      _ ← raise_if (Nat.ltb 1 (length (List.filter id flags))) (RecoveryError "multiple active Mission attempts");
      let current := latest_row mine in
      _ ← raise_if (match active with
                    | Some (i, _) => negb (bool_decide (fst <$> current = Some i))
                    | None => false
                    end) (RecoveryError "active Mission attempt is not current");
      let row := snd <$> current in
      bindings ← mapR (fun d => validate_mission_recovery_evidence_record (PDict d)) (rows_with "mission_id" mission_id evidence);
      match bindings with
      | [binding] =>
          _ ← raise_if (negb (py_eq (dget "attempt_id" binding) (get_of "attempt_id" row)))
                       (RecoveryError "durable recovery evidence mismatch");
          _ ← raise_if (negb (py_eq (dget "agent_id" binding) (get_of "agent_id" row)))
                       (RecoveryError "durable recovery attempt binding mismatch");
          Ok (mission, row)
      | _ => recovery_error "durable recovery evidence mismatch"
      end
  | _ => recovery_error "persisted Mission evidence is invalid"
  end.

(** What the frozen snapshot says about the current attempt: the Worker the
    Mission waits for, the lineage of the attempt, its transport. *)
Definition step_target (steps : list dict) (current : option dict) : option string * recovery_lineage :=
  match current with
  | None => (match steps with d :: _ => Some (field "agent_id" d) | [] => None end, LinValid)
  | Some c =>
      match List.filter (fun d => py_eq (dget "step_id" d) (dget "step_id" c)) steps with
      | [d] =>
          if negb (py_eq (dget "agent_id" d) (dget "agent_id" c)) then (None, LinConflict)
          else (Some (field "agent_id" d),
                match dget "semantic_step_hash" d with
                | PNone => if dmem "semantic_step_hash" c then LinConflict else LinValid
                | h => if py_eq (dget "semantic_step_hash" c) h then LinValid else LinConflict
                end)
      | _ => (None, LinConflict)
      end
  end.
Definition worker_of (agent : option string) (workers : list dict) : option dict :=
  match agent with
  | Some a => last (List.filter (fun d => py_eq (dget "agent_id" d) (PStr a)) workers)
  | None => None
  end.
Definition snapshot_steps (snapshot : dict) : list dict :=
  match dget "mission" snapshot with
  | PDict m => match dget "steps" m with PList l => dicts_of l | _ => [] end
  | _ => []
  end.
Definition snapshot_workers (snapshot : dict) : list dict :=
  match dget "workers" snapshot with PList l => dicts_of l | _ => [] end.

Record snapshot_view := {
  sv_target : option string; sv_lineage : recovery_lineage; sv_configured : pyval; sv_transport : transport_state
}.
Definition view_snapshot (snapshot : option dict) (current : option dict) : snapshot_view :=
  match snapshot with
  | None => {| sv_target := None; sv_lineage := LinValid; sv_configured := PStr "none"; sv_transport := TrMissing |}
  | Some s =>
      let '(target, lineage) := step_target (snapshot_steps s) current in
      match worker_of target (snapshot_workers s) with
      | None => {| sv_target := target; sv_lineage := lineage; sv_configured := PStr "none"; sv_transport := TrMissing |}
      | Some w =>
          {| sv_target := target; sv_lineage := lineage; sv_configured := dget "configured_transport" w;
             sv_transport := match current with
                             | Some c => if py_eq (dget "configured_transport" w) (dget "configured_transport" c)
                                         then TrReady else TrInvalid
                             | None => TrReady
                             end |}
      end
  end.

(** The reply and the handoff of the current attempt. *)
Definition current_reply (state : dict) (mission_id : pyval) (current : option dict) : result (option dict) :=
  rows ← table_of "mission_worker_replies" state;
  replies ← mapR (fun d => validate_mission_reply_evidence_record (PDict d)) (rows_with "attempt_id" (get_of "attempt_id" current) rows);
  match replies with
  | [] => Ok None
  | [reply] =>
      match current with
      | Some c =>
          _ ← raise_if (negb (py_eq (dget "mission_id" reply) mission_id)
                        || negb (py_eq (dget "dispatch_key" reply) (dget "dispatch_key" c))
                        || negb (py_eq (dget "semantic_step_hash" reply) (dget "semantic_step_hash" c)))
                       (RecoveryError "durable recovery reply lineage is invalid");
          Ok (Some reply)
      | None => recovery_error "durable recovery reply lineage is invalid"
      end
  | _ => recovery_error "duplicate durable recovery reply evidence"
  end.

Definition current_handoff (state : dict) (mission_id : pyval) (current reply : option dict) : result (option dict) :=
  rows ← table_of "mission_handoffs" state;
  handoffs ← mapR (fun d => validate_mission_handoff_evidence_record (PDict d)) (rows_with "attempt_id" (get_of "attempt_id" current) rows);
  match handoffs with
  | [] => Ok None
  | [h] =>
      match reply with
      | Some r =>
          _ ← raise_if (negb (py_eq (dget "mission_id" h) mission_id) || negb (py_eq (dget "reply_id" h) (dget "reply_id" r))
                        || negb (py_eq (dget "state" r) (PStr "validated"))
                        || negb (py_eq (dget "canonical_handoff" h) (dget "canonical_handoff" r))
                        || negb (py_eq (dget "semantic_step_hash" h) (dget "semantic_step_hash" r)))
                       (RecoveryError "durable recovery handoff reply lineage is invalid");
          Ok (Some h)
      | None => recovery_error "durable recovery handoff reply lineage is invalid"
      end
  | _ => recovery_error "duplicate durable recovery handoff evidence"
  end.

(** *** Permissions *)

(** [[item for item in state.get(key, []) if type(item) is dict and item.get(field) == v]] *)
Definition rows_of (key fld : string) (v : pyval) (state : dict) : result (list dict) :=
  rows ← table_of key state; Ok (rows_with fld v rows).

Definition is_true (v : pyval) : bool := match v with PBool b => b | _ => false end.
Definition is_false (v : pyval) : bool := match v with PBool b => negb b | _ => false end.

Definition _STRUCTURED : list string := ["structured_sessions"; "streaming_updates"; "structured_tools"; "permission_requests"].

(** The session the permission was asked in is the current Worker's, on the
    structured transport, in the Mission's project. *)
Definition permission_session (state : dict) (snapshot : option dict) (current permission : dict) : result dict :=
  let mismatch := RecoveryError "durable recovery permission agent scope mismatch" in
  sessions ← rows_of "agent_sessions" "session_id" (dget "session_id" permission) state;
  match sessions with
  | [session] =>
      _ ← raise_if (negb (py_eq (dget "agent_id" session) (dget "agent_id" current))) mismatch;
      _ ← raise_if (negb (py_eq (dget "configured_transport" current) (PStr "acp"))) mismatch;
      match snapshot, List.filter (fun d => py_eq (dget "agent_id" d) (dget "agent_id" current))
                        (match snapshot with Some s => snapshot_workers s | None => [] end) with
      | Some s, [worker] =>
          _ ← raise_if (negb (py_eq (dget "configured_transport" worker) (PStr "acp"))
                        || negb (py_eq (dget "provider" session) (dget "provider" worker))
                        || negb (py_eq (dget "transport" session) (PStr "acp-adapter"))
                        || negb (is_form (fun _ => true) (dget "workspace" session))) mismatch;
          hash ← canonical_snapshot_hash (PDict [("project_root", dget "workspace" session)]);
          _ ← raise_if (negb (py_eq (PStr hash) (dget "project_scope_hash" (match dget "mission" s with PDict m => m | _ => [] end)))
                        || negb (is_form (fun _ => true) (dget "native_session_id" session))) mismatch;
          match dget "capabilities" session with
          | PDict caps =>
              _ ← raise_if (negb (forallb (fun name => is_true (dget name caps)) _STRUCTURED)
                            || negb (is_false (dget "observable_terminal" caps))) mismatch;
              Ok session
          | _ => Err mismatch
          end
      | _, _ => Err mismatch
      end
  | _ => Err mismatch
  end.

(** The one turn of the dispatch. *)
Definition permission_turn (state current permission session : dict) : result unit :=
  let mismatch := RecoveryError "durable recovery permission turn scope mismatch" in
  turns ← rows_of "protocol_turns" "turn_id" (dget "turn_id" permission) state;
  match turns with
  | [turn] => raise_if (negb (py_eq (dget "session_id" turn) (dget "session_id" session)) || negb (py_eq (dget "kind" turn) (PStr "prompt"))
                        || negb (py_eq (dget "message_id" turn) (dget "dispatch_key" current))) mismatch
  | _ => Err mismatch
  end.

(** The status after the permission's transitions. *)
Definition permission_move (permission_id status : pyval) (t : dict) : result pyval :=
  if py_eq (dget "entity_type" t) (PStr "permission") && py_eq (dget "entity_id" t) permission_id then
    _ ← raise_if (negb (py_eq (dget "from_state" t) status)) (RecoveryError "durable recovery permission history is invalid");
    Ok (dget "to_state" t)
  else Ok status.

Definition update_sequences (permission_id : pyval) (rows : list dict) : list Z :=
  omap (fun d =>
          if py_eq (dget "kind" d) (PStr "permission_request") then
            match dget "payload" d, dget "sequence" d with
            | PDict p, PInt n => if py_eq (dget "permission_id" p) permission_id then Some n else None
            | _, _ => None
            end
          else None) rows.

(** The sort key of a permission, and what it was decided. *)
Definition permission_row : Type := (Z * Z) * (string * string * string).
Definition text_lt (a b : string) : bool := negb (String.leb b a).
Definition row_lt (a b : permission_row) : bool :=
  let '((a1, a2), (a3, a4, a5)) := a in
  let '((b1, b2), (b3, b4, b5)) := b in
  (a1 <? b1)%Z || (a1 =? b1)%Z && ((a2 <? b2)%Z || (a2 =? b2)%Z &&
    (text_lt a3 b3 || String.eqb a3 b3 && (text_lt a4 b4 || String.eqb a4 b4 && text_lt a5 b5))).

Definition derive_permission (state : dict) (snapshot : option dict) (current binding : dict) : result permission_row :=
  let permission_id := dget "permission_id" binding in
  permissions ← rows_of "permission_requests" "permission_id" permission_id state;
  match permissions with
  | [permission] =>
      session ← permission_session state snapshot current permission;
      _ ← permission_turn state current permission session;
      moves ← table_of "protocol_state_transitions" state;
      status ← foldM (permission_move permission_id) (dget "status" permission) (dicts_of moves);
      updates ← table_of "transport_updates" state;
      Ok (match update_sequences permission_id (dicts_of updates) with [n] => (1, n)%Z | _ => (0, -1)%Z end,
          (py_str (dget "created_at" permission), py_str permission_id, py_str status))
  | _ => recovery_error "durable recovery permission record is missing"
  end.

(** [sorted(rows)[-1][4]] *)
Definition last_status (row : permission_row) (rows : list permission_row) : string :=
  (foldl (fun best r => if row_lt best r then r else best) row rows).2.2.

Definition permission_status (state : dict) (mission_id : pyval) (snapshot current : option dict) : result string :=
  rows ← table_of "mission_permission_bindings" state;
  bindings ← mapR (fun d => validate_mission_permission_binding (PDict d))
                  (rows_with "attempt_id" (get_of "attempt_id" current) rows);
  match bindings, current with
  | [], _ => Ok "none"
  | _, Some c =>
      _ ← raise_if (negb (forallb (fun b => py_eq (dget "mission_id" b) mission_id) bindings))
                   (RecoveryError "durable recovery permission lineage is invalid");
      derived ← mapR (derive_permission state snapshot c) bindings;
      Ok (match derived with r :: rs => last_status r rs | [] => "none" end)
  | _, None => recovery_error "durable recovery permission lineage is invalid"
  end.

(** *** Ownership *)

Definition ownership_of (state : dict) (target : option string) : result string :=
  let base := (fun spec => (spec.1, match dlookup spec.1 state with Some v => v | None => PList [] end)) <$> _RECORD_SPECS in
  match validate_conversation_history base (match dlookup "conversation_state_transitions" state with Some v => v | None => PList [] end) with
  | Ok p =>
      let raw := match target with Some a => default "agentdeck_owned" (pj_states p !! (Ownership, a)) | None => "agentdeck_owned" end in
      Ok (if in_strs raw ["agentdeck_owned"; "human_owned"] then raw else "conflict")
  | Err e => Err (if type_or_value e then RecoveryError "durable recovery ownership history is invalid" else e)
  end.

(** *** The facts *)

Definition snapshot_of (mission : dict) : result (option dict) :=
  match validate_execution_snapshot (dget "execution_snapshot" mission) with
  | Ok s => Ok (Some s)
  | Err e => if type_or_value e then Ok None else Err e
  end.

Definition snapshot_status (snapshot : option dict) (mission : dict) (current : option dict) : string :=
  let frozen := match snapshot, dget "snapshot_hash" mission with
                | Some s, PStr h => if py_eq (dget "execution_hash" s) (PStr h) then "valid" else "drift"
                | _, _ => "missing"
                end in
  match current with
  | Some c => if py_eq (dget "snapshot_hash" c) (dget "snapshot_hash" mission) then frozen else "drift"
  | None => frozen
  end.

Definition transport_name (t : transport_state) : string :=
  match t with TrReady => "ready" | TrMissing => "missing" | TrInvalid => "invalid" end.
Definition lineage_name (l : recovery_lineage) : string :=
  match l with LinValid => "valid" | LinMissing => "missing" | LinConflict => "conflict" end.
Definition state_or_none (d : option dict) : pyval := match d with Some d => dget "state" d | None => PStr "none" end.

Definition recovery_facts_from_persisted_state (state : dict) (mission_id : pyval) : result RecoveryFacts :=
  cur ← current_attempt state mission_id;
  let '(mission, current) := cur in
  snapshot ← snapshot_of mission;
  let view := view_snapshot snapshot current in
  reply ← current_reply state mission_id current;
  handoff ← current_handoff state mission_id current reply;
  permission ← permission_status state mission_id snapshot current;
  ownership ← ownership_of state (sv_target view);
  new_facts
    [("mission_id", mission_id); ("mission_state", dget "status" mission); ("attempt_id", get_of "attempt_id" current);
     ("attempt_state", state_or_none current);
     ("receipt_state", PStr (if Attempt.is_none (get_of "receipt_summary" current) then "none" else "recorded"));
     ("reply_state", state_or_none reply); ("handoff_state", state_or_none handoff); ("permission_state", PStr permission);
     ("configured_transport", sv_configured view); ("transport_state", PStr (transport_name (sv_transport view)));
     ("snapshot_state", PStr (snapshot_status snapshot mission current)); ("lineage_state", PStr (lineage_name (sv_lineage view)));
     ("ownership_state", PStr ownership)].
End evidence.

(** ** Startup ([reconcile_startup])

    What the store promises the startup gate: [RecoveryStore] of the source. *)
Class RecoveryStore (W : Type) := {
  flush_daemon_event_outbox : W -> result unit * W;
  flush_conversation_event_outbox : W -> result unit * W;
  flush_protocol_event_outbox : W -> result unit * W;
  load_recovery_snapshot : W -> result (dict * string) * W;
  commit_recovery_decisions : list RecoveryDecision -> string -> W -> result (list dict) * W;
  enable_scheduler : W -> result unit * W
}.

Definition os_error (e : exn) : bool := match e with PermissionError _ => true | _ => false end.
Definition outside_error (e : exn) : bool := os_error e || runtime_error e || type_or_value e.
Definition key_or_outside (e : exn) : bool := match e with KeyError _ => true | _ => outside_error e end.
(** [except (...): raise RecoveryError(msg)] *)
Definition translate {A} (caught : exn -> bool) (msg : string) (r : result A) : result A :=
  match r with Ok a => Ok a | Err e => Err (if caught e then RecoveryError msg else e) end.

Definition no_outbox (state : dict) : bool :=
  forallb (fun fld => match dlookup fld state with None | Some (PList []) => true | _ => false end)
          ["daemon_event_outbox"; "conversation_event_outbox"; "protocol_event_outbox"].

(** The identities of the Missions that have not ended. *)
Definition nonterminal_missions (state : dict) : result (list pyval) :=
  let invalid := RecoveryError "persisted Mission evidence is invalid" in
  missions ← table_list invalid (match dlookup "missions" state with Some v => v | None => PList [] end);
  ids ← mapR (fun m =>
                match m with
                | PDict d =>
                    _ ← raise_if (negb (is_canonical_mission_id (dget "mission_id" d))
                                  || negb (in_list (dget "status" d) (PStr ∘ fst <$> MISSION_STATUSES))) invalid;
                    Ok (if in_list (dget "status" d) (PStr <$> ["completed"; "stopped"; "interrupted"])
                        then None else Some (dget "mission_id" d))
                | _ => Err invalid
                end) missions;
  _ ← raise_if (negb (bool_decide (NoDup (text_of <$> omap id ids)))) invalid;
  Ok (omap id ids).

Section startup.
Context {env : LeaseEnv} {ft : FloatText} {lim : RecursionLimits} {repr : PyRepr} {W : Type} {store : RecoveryStore W}.

Definition startup_decisions (state : dict) : result (list RecoveryDecision) :=
  _ ← raise_if (negb (no_outbox state)) (RecoveryError "pending outbox flush failed");
  ids ← nonterminal_missions state;
  translate type_or_value "durable recovery evidence is invalid"
    (facts ← mapR (recovery_facts_from_persisted_state state) ids; mapR reconcile_gate facts).

Definition reconcile_startup (w : W) : result (list dict) * W :=
  let flush_failed := translate outside_error "pending outbox flush failed" in
  match flush_daemon_event_outbox w with
  | (Err e, w) => (flush_failed (Err e), w)
  | (Ok _, w) =>
    match flush_conversation_event_outbox w with
    | (Err e, w) => (flush_failed (Err e), w)
    | (Ok _, w) =>
      match flush_protocol_event_outbox w with
      | (Err e, w) => (flush_failed (Err e), w)
      | (Ok _, w) =>
        match load_recovery_snapshot w with
        | (Err e, w) => (translate key_or_outside "durable recovery evidence is invalid" (Err e), w)
        | (Ok (state, token), w) =>
          match startup_decisions state with
          | Err e => (Err e, w)
          | Ok decisions =>
            match commit_recovery_decisions decisions token w with
            | (Err e, w) => (translate key_or_outside "recovery authority drift" (Err e), w)
            | (Ok persisted, w) => match enable_scheduler w with (Err e, w) => (Err e, w) | (Ok _, w) => (Ok persisted, w) end
            end
          end
        end
      end
    end
  end.
End startup.

(** ** Laws of the gate *)

(** Facts as the constructor makes them. *)
Record facts_ok (f : RecoveryFacts) : Prop := {
  fo_mission : hex_id "mis_" 12 (rf_mission_id f) = true;
  fo_attempt : match rf_attempt_id f with Some a => attempt_id_form a = true | None => rf_attempt f = ANone end;
  fo_reply : rf_reply f <> RPending
}.

Lemma known_state_in {A} (states : list (string * A)) v a : known_state states v = Ok a ->
  exists s, v = PStr s /\ (s, a) ∈ states.
Proof.
  unfold known_state. destruct v; try done. destruct (assoc_str s states) eqn:E; [|done]. intros [= <-]. exists s. split; [done|].
  induction states as [|[k x] states IH]; [done|]. cbn in E. destruct (String.eqb_spec s k) as [->|]; set_solver.
Qed.

Lemma new_facts_ok d f : new_facts d = Ok f -> facts_ok f.
Proof.
  unfold new_facts. intros H. inv_ok. split_guards.
  match goal with H : is_canonical_mission_id _ = true |- _ => apply is_form_PStr in H as (m & Hm & Hf) end.
  split; cbn; [by rewrite Hm| |].
  2:{ match goal with H : known_state REPLY_STATES _ = Ok ?r |- _ => apply known_state_in in H as (s & _ & Hin) end.
      intros ->. unfold REPLY_STATES in Hin. rewrite !elem_of_cons, elem_of_nil in Hin. naive_solver. }
  destruct (dget "attempt_id" d) as [| | | |s| | |]; try done.
  cbn in *. by match goal with H : Bool.eqb (eqd ?a ANone) true = true |- _ => 
    apply Bool.eqb_prop, bool_decide_eq_true in H end.
Qed.

(** Nothing but the attempt itself decides what comes next. *)
Record clear (f : RecoveryFacts) : Prop := {
  cl_snapshot : rf_snapshot f = SnValid;
  cl_lineage : rf_lineage f = LinValid;
  cl_ownership : rf_ownership f = AgentdeckOwned;
  cl_handoff : rf_handoff f <> HNone -> rf_reply f = RValidated;
  cl_reply : rf_reply f <> RNone -> rf_receipt f = ReceiptRecorded;
  cl_active : terminal_mission (rf_mission f) = false;
  cl_confirmed : rf_mission f <> MPendingConfirmation;
  cl_transport : rf_transport f = TrReady;
  cl_permission : rf_permission f = PermNone \/ rf_permission f = PermApproved
}.

(** When a transition may be taken after a crash. *)
Definition guard (t : next_transition) (f : RecoveryFacts) : Prop :=
  match t with
  | PrepareDispatch => rf_attempt f = ANone
  | DispatchPrepared => rf_attempt f = APrepared /\ rf_receipt f = ReceiptNone /\ rf_reply f = RNone
  | AwaitWorker => in_flight (rf_attempt f) = true /\ rf_configured f <> Acp /\ rf_receipt f = ReceiptRecorded /\ rf_reply f = RNone
  | ValidateReply => successful_attempt (rf_attempt f) = true /\ rf_receipt f = ReceiptRecorded /\ rf_reply f = RReceived
                     /\ rf_handoff f = HNone
  | RecordHandoff => successful_attempt (rf_attempt f) = true /\ rf_receipt f = ReceiptRecorded /\ rf_reply f = RValidated
                     /\ rf_handoff f = HNone
  | ActivateNext => successful_attempt (rf_attempt f) = true /\ rf_receipt f = ReceiptRecorded /\ rf_reply f = RValidated
                    /\ rf_handoff f = HRecorded
  end.

Lemma decide_as_ok f c reason next : facts_ok f -> reason <> "" -> (c = Resumable <-> next <> None) ->
  decide_as f c reason next = Ok {| rd_class := c; rd_reason := reason; rd_mission_id := rf_mission_id f;
                                    rd_attempt_id := rf_attempt_id f; rd_next := next |}.
Proof.
  intros [Hm Ha _] Hr Hn. unfold decide_as, new_decision. cbn. apply String.eqb_neq in Hr as ->. rewrite Hm. cbn.
  assert ((match rf_attempt_id f with Some a => negb (attempt_id_form a) | None => false end) = false) as ->
    by (destruct (rf_attempt_id f); [by rewrite Ha|done]).
  destruct next; cbn.
  - assert (c = Resumable) as -> by by apply Hn. done.
  - assert (c <> Resumable) as Hc by (intros Hc%Hn; done). by destruct c.
Qed.

#[local] Opaque decide_as.

(** The outcome is unknown: the Worker may hold the task. *)
Definition outcome_unknown (f : RecoveryFacts) : Prop :=
  rf_attempt f = AAdmitting \/ rf_attempt f = AAmbiguous
  \/ in_flight (rf_attempt f) = true /\ (rf_configured f = Acp \/ rf_receipt f = ReceiptNone).

(** The saved evidence is of one undamaged Mission that is the daemon's. *)
Record evidence_ordered (f : RecoveryFacts) : Prop := {
  eo_snapshot : rf_snapshot f = SnValid;
  eo_lineage : rf_lineage f = LinValid;
  eo_ownership : rf_ownership f = AgentdeckOwned;
  eo_handoff : rf_handoff f <> HNone -> rf_reply f = RValidated;
  eo_reply : rf_reply f <> RNone -> rf_receipt f = ReceiptRecorded
}.

Definition decides (f : RecoveryFacts) (r : result RecoveryDecision) : Prop :=
  exists c reason next, r = decide_as f c reason next /\ reason <> "" /\ (c = Resumable <-> next <> None)
    /\ (forall t, next = Some t <-> clear f /\ guard t f)
    /\ (c = CAmbiguous -> evidence_ordered f /\ outcome_unknown f).

Lemma guard_fun f t t' : guard t f -> guard t' f -> t = t'.
Proof.
  destruct t, t'; cbn; intros; destruct_and?; try done; try congruence.
  all: match goal with H : rf_attempt _ = _ |- _ => by rewrite H in * end.
Qed.

Lemma decides_refusal f c reason : c <> Resumable -> (c = CAmbiguous -> evidence_ordered f /\ outcome_unknown f) -> reason <> "" ->
  (forall t, clear f -> ~ guard t f) -> decides f (decide_as f c reason None).
Proof.
  intros Hc Ha Hr Hno. exists c, reason, None. split; [done|]. split; [done|]. split; [by split; intros|]. split; [|done].
  intros t. split; [done|]. intros [H1 H2]. by destruct (Hno t).
Qed.

Lemma decides_resume f reason t : reason <> "" -> clear f -> guard t f -> decides f (decide_as f Resumable reason (Some t)).
Proof.
  intros Hr Hc Hg. exists Resumable, reason, (Some t). split; [done|]. split; [done|]. split; [done|]. split; [|done].
  intros t'. split; [by intros [= <-]|]. intros [_ Hg']. f_equal. by eapply guard_fun.
Qed.

Ltac compute_eqd := repeat match goal with
  | |- context [eqd ?a ?b] => first [change (eqd a b) with true | change (eqd a b) with false]
  end; cbn [negb andb orb].
(** No guard holds, by what the attempt and its evidence are. *)
Ltac refuse Ha := apply decides_refusal; [done|done|done|]; intros t _ Hg; destruct t; cbn [guard] in Hg;
  try rewrite Ha in Hg; destruct_and?; first [discriminate|congruence].

Lemma successful_gate_decides f : rf_reply f <> RPending -> successful_attempt (rf_attempt f) = true -> clear f -> decides f (successful_gate f).
Proof.
  intros Hnp Hs Hclear. pose proof (cl_handoff _ Hclear) as Hh. unfold successful_gate.
  assert (exists a, rf_attempt f = a /\ in_flight a = false /\ a <> ANone /\ a <> APrepared) as (a & Ha & Hi & Hn & Hp)
    by (exists (rf_attempt f); by destruct (rf_attempt f)).
  destruct (rf_receipt f) eqn:Er; compute_eqd; [by refuse Ha|].
  destruct (rf_reply f) eqn:Ey; compute_eqd; [by refuse Ha|done| | |by refuse Ha]; destruct (rf_handoff f) eqn:Eh; compute_eqd.
  all: try (specialize (Hh ltac:(done)); done).
  all: try (apply decides_resume; [done..|cbn; by rewrite Er, Ey, Eh]).
  refuse Ha.
Qed.

Lemma attempt_gate_decides f : rf_reply f <> RPending -> clear f -> ~ outcome_unknown f -> decides f (attempt_gate f).
Proof.
  intros Hnp Hclear Hknown. unfold attempt_gate. pose proof (cl_reply _ Hclear) as Hr.
  destruct (rf_attempt f) eqn:Ea; try (exfalso; unfold outcome_unknown in Hknown; rewrite Ea in Hknown; tauto); compute_eqd.
  all: try (apply successful_gate_decides; [done|by rewrite Ea|done]).
  all: try (by refuse Ea).
  3-4: assert (Hk : rf_configured f <> Acp /\ rf_receipt f = ReceiptRecorded)
    by (unfold outcome_unknown in Hknown; rewrite Ea in Hknown; change (in_flight _) with true in Hknown;
        destruct (rf_configured f), (rf_receipt f); split; try done; exfalso; tauto).
  3-4: destruct Hk as [Hc Hrec]; change (in_flight _) with true; cbn.
  3-4: destruct (rf_reply f) eqn:Ey; compute_eqd; try (by refuse Ea); by apply decides_resume; [..|cbn; rewrite Ea].
  - by apply decides_resume.
  - destruct (rf_receipt f) eqn:Er; compute_eqd; [|by refuse Ea].
    destruct (rf_reply f) eqn:Ey; compute_eqd; [|by refuse Ea..]. by apply decides_resume.
Qed.

Lemma terminal_gate_decides f : terminal_mission (rf_mission f) = true -> decides f (terminal_gate f).
Proof.
  intros Ht. assert (Hno : forall t, clear f -> ~ guard t f) by (intros t [] _; congruence).
  assert (Hname : "Mission is " +:+ mission_name (rf_mission f) <> "") by by destruct (rf_mission f).
  unfold terminal_gate. repeat case_match; by apply decides_refusal.
Qed.

Lemma settled_gate_decides f : rf_reply f <> RPending -> evidence_ordered f -> ~ outcome_unknown f -> decides f (settled_gate f).
Proof.
  intros Hnp [Hs Hl Ho Hh Hr] Hknown. unfold settled_gate, eqd.
  destruct (terminal_mission _) eqn:Ht; [by apply terminal_gate_decides|].
  assert (Hpr : "Worker permission is " +:+ (if bool_decide (rf_permission f = PermDenied) then "denied" else "expired") <> "") by done.
  repeat match goal with
  | |- decides _ (if bool_decide ?P then _ else _) => destruct (bool_decide_reflect P)
  end.
  all: try (apply decides_refusal; [done|done|done|]; intros t Hc _; destruct (cl_permission _ Hc), Hc; congruence).
  { apply decides_refusal; [done..|]. intros t Hc _. rewrite !elem_of_cons, elem_of_nil in *. destruct (cl_permission _ Hc); intuition congruence. }
  apply attempt_gate_decides; [done| |done]. split; try done.
  - by destruct (rf_transport f).
  - rewrite !elem_of_cons, elem_of_nil in *. destruct (rf_permission f); tauto.
Qed.

Lemma guard_known t f : guard t f -> rf_attempt f <> AAdmitting /\ rf_attempt f <> AAmbiguous
  /\ (in_flight (rf_attempt f) = true -> rf_configured f <> Acp /\ rf_receipt f <> ReceiptNone).
Proof.
  destruct t; cbn [guard]; intros; destruct_and?;
    (split; [intros E; rewrite E in *; done|]; split; [intros E; rewrite E in *; done|]); intros Hi.
  all: try (split; congruence).
  all: exfalso; destruct (rf_attempt f); done.
Qed.

Lemma unknown_not_resumed f : outcome_unknown f -> forall t, ~ guard t f.
Proof. intros H t (H1 & H2 & H3)%guard_known. destruct H as [?|[?|[Hi Ha]]]; [done..|]. destruct (H3 Hi). tauto. Qed.

Lemma ordered_gate_decides f : rf_reply f <> RPending -> evidence_ordered f -> decides f (ordered_gate f).
Proof.
  intros Hnp Hord. unfold ordered_gate, eqd.
  assert (Ha : forall reason, reason <> "" -> outcome_unknown f -> decides f (decide_as f CAmbiguous reason None))
    by (intros reason Hreason Hu; apply decides_refusal; [done|done|done|]; intros t _; by apply unknown_not_resumed).
  destruct (bool_decide_reflect (rf_attempt f = AAdmitting)); [by apply Ha; [|left]|].
  destruct (bool_decide_reflect (rf_attempt f = AAmbiguous)); [by apply Ha; [|right; left]|].
  destruct (in_flight (rf_attempt f)) eqn:Hi; rewrite ?andb_true_r, ?andb_false_r; cbn [andb].
  - destruct (bool_decide_reflect (rf_configured f = Acp)); [apply Ha; [done|]; right; right; tauto|].
    destruct (bool_decide_reflect (rf_receipt f = ReceiptNone)); [apply Ha; [done|]; right; right; tauto|].
    apply settled_gate_decides; [done..|]. unfold outcome_unknown. tauto.
  - apply settled_gate_decides; [done..|]. unfold outcome_unknown. rewrite Hi. naive_solver.
Qed.

Lemma reconcile_gate_decides f : rf_reply f <> RPending -> decides f (reconcile_gate f).
Proof.
  intros Hnp. unfold reconcile_gate, eqd.
  repeat match goal with
  | |- decides _ (if bool_decide ?P then _ else _) => destruct (bool_decide_reflect P)
  | |- decides _ (if negb (bool_decide ?P) && negb (bool_decide ?Q) then _ else _) =>
      destruct (bool_decide_reflect P), (bool_decide_reflect Q); cbn [negb andb]
  end.
  all: try (apply decides_refusal; [done|done|done|]; intros t [] _; congruence).
  all: try (apply decides_refusal; [done|done|done|]; intros t [] _; naive_solver).
  all: apply ordered_gate_decides; [done|]; split; try done; try (by destruct (rf_snapshot f)); try (by destruct (rf_lineage f));
    try (by destruct (rf_ownership f)).
Qed.

Lemma unknown_is_ambiguous f : evidence_ordered f -> outcome_unknown f ->
  exists reason, reason <> "" /\ reconcile_gate f = decide_as f CAmbiguous reason None.
Proof.
  intros [Hs Hl Ho Hh Hr] Hu. unfold reconcile_gate. rewrite Hs, Hl, Ho. compute_eqd.
  assert (negb (eqd (rf_handoff f) HNone) && negb (eqd (rf_reply f) RValidated) = false) as ->.
  { unfold eqd. destruct (bool_decide_reflect (rf_handoff f = HNone)); [done|]. by rewrite (Hh n). }
  assert (negb (eqd (rf_reply f) RNone) && negb (eqd (rf_receipt f) ReceiptRecorded) = false) as ->.
  { unfold eqd. destruct (bool_decide_reflect (rf_reply f = RNone)); [done|]. by rewrite (Hr n). }
  unfold ordered_gate. destruct Hu as [->|[->|[Hi Ha]]]; compute_eqd; [by eexists; split; [|reflexivity]..|].
  rewrite Hi, !andb_true_l, andb_true_r. assert (eqd (rf_attempt f) AAdmitting = false /\ eqd (rf_attempt f) AAmbiguous = false) as [-> ->]
    by by destruct (rf_attempt f).
  destruct (eqd (rf_configured f) Acp) eqn:E; [by eexists; split; [|reflexivity]|]. destruct Ha as [Ha| ->]; [by rewrite Ha in E|]. by eexists; split; [|reflexivity].
Qed.

(** C18: The recovery gate decides every set of facts.  A transition is resumed
    exactly when the evidence is clear (valid frozen snapshot and lineage, the
    daemon's own Worker with a ready transport, no permission in the way, an
    active and confirmed Mission) and the transition's own guard holds; at most
    one transition can.  The Mission is ambiguous exactly when its evidence is in
    order but a Worker may hold a task nothing accounts for: an admission under
    way, an attempt lost over ACP, or one submitted without a receipt. *)
Theorem reconcile_gate_spec f : facts_ok f ->
  exists d, reconcile_gate f = Ok d /\ rd_mission_id d = rf_mission_id f /\ rd_attempt_id d = rf_attempt_id f
    /\ (forall t, rd_next d = Some t <-> clear f /\ guard t f)
    /\ (rd_class d = Resumable <-> rd_next d <> None)
    /\ (rd_class d = CAmbiguous <-> evidence_ordered f /\ outcome_unknown f).
Proof.
  intros Hok. destruct (reconcile_gate_decides _ (fo_reply _ Hok)) as (c & reason & next & Hg & Hr & Hc & Ht & Ha).
  pose proof Hg as Hd. rewrite decide_as_ok in Hd by done. eexists. split; [exact Hd|]. cbn. do 4 (split; [done|]).
  split; [done|]. intros [Ho Hu]. destruct (unknown_is_ambiguous _ Ho Hu) as (reason' & Hr' & Hg').
  rewrite Hg', decide_as_ok in Hd by done. by injection Hd.
Qed.

(** ** Laws of the facts *)

Section laws.
Context {env : LeaseEnv} {ft : FloatText} {lim : RecursionLimits} {repr : PyRepr}.

(** The store loads only records that say which claim they are under. *)
Lemma valid_phase v a : _validate_mission_attempt_record v = Ok a ->
  dget "state" a <> PStr "none" /\ (dget "state" a = PStr "prepared" -> phase_of a = Ready)
  /\ (forall s, dget "state" a = PStr s -> s ∈ ["submitted"; "running"; "completed"; "succeeded"] ->
        exists c, claim_of a = Some c /\ phase_of a = Submitted c).
Proof.
  intros Hv. pose proof Hv as [-> Hprep]%validate_attempt_Ok. split_and!.
  - intros Hs. unfold _validate_mission_attempt_record in Hv. rewrite Hs in Hv. inv_ok. split_guards.
    match goal with H : in_str_set _ _ = Ok _ |- _ => by injection H as <- end.
  - intros Hs. apply phase_ready; [done|]. apply Hprep. unfold state_is. by rewrite Hs.
  - unfold _validate_mission_attempt_record in Hv. inv_ok. split_guards. intros s Hs Hin.
    assert (Hp : state_is "prepared" a = false /\ pre_dispatch_stopped a = false /\ state_is "admitting" a = false
      /\ state_is "ambiguous" a = false).
    { unfold pre_dispatch_stopped, state_in, state_is. rewrite Hs. rewrite !elem_of_cons, elem_of_nil in Hin.
      by destruct Hin as [->|[->|[->|[->|[]]]]]. }
    destruct Hp as (Hp & Hst & Hadm & Hamb).
    match goal with H : negb (state_is "prepared" a) && negb (pre_dispatch_stopped a) && is_none ?c = false |- _ =>
      rewrite Hp, Hst in H; cbn in H; rename H into Hn end.
    match goal with H : is_none (dget "admission_claim_id" a) || is_form claim_id_form _ = true |- _ => rewrite Hn in H; cbn in H;
      apply is_form_PStr in H as (c & Hc & _) end.
    exists c. unfold phase_of. rewrite (claim_of_Some _ _ Hc), Hadm, Hamb. done.
Qed.

(** The greatest row, at its position. *)
Lemma latest_from_lookup all best n rows : drop n all = rows -> all !! best.1 = Some best.2 ->
  all !! (latest_from best n rows).1 = Some (latest_from best n rows).2.
Proof.
  revert best n. induction rows as [|d rows IH]; intros best n Hd Hb; cbn; [done|].
  apply IH.
  - replace (S n) with (n + 1) by lia. by rewrite <- drop_drop, Hd.
  - destruct (key_lt _ _); [|done]. cbn. by rewrite <- (Nat.add_0_r n), <- lookup_drop, Hd.
Qed.
Lemma latest_row_lookup rows i d : latest_row rows = Some (i, d) -> rows !! i = Some d.
Proof.
  destruct rows as [|r rows]; [done|]. cbn [latest_row]. intros [= H].
  pose proof (latest_from_lookup (r :: rows) (0, r) 1 rows eq_refl eq_refl) as Hl. by rewrite H in Hl.
Qed.

(** At most one flag is up. *)
Lemma one_flag (l : list bool) i j : (1 <? length (List.filter id l)) = false -> l !! i = Some true -> l !! j = Some true -> i = j.
Proof.
  revert i j. induction l as [|b l IH]; intros i j; [done|]. rewrite Nat.ltb_ge.
  assert (Hno : length (List.filter id l) = 0 -> forall k, l !! k = Some true -> False).
  { intros H0%nil_length_inv k Hk%list_elem_of_lookup_2. apply list_elem_of_In in Hk.
    assert (In true (List.filter id l)) as Hin by by apply filter_In. by rewrite H0 in Hin. }
  destruct b; cbn [List.filter id length].
  - intros Hle. destruct i as [|i], j as [|j]; try done; cbn; intros Hi Hj; exfalso; (eapply Hno; [lia|eassumption]).
  - intros Hle. destruct i as [|i], j as [|j]; try done; cbn. intros Hi Hj. f_equal. apply IH; [by apply Nat.ltb_ge|done..].
Qed.

Lemma rows_with_elem key v rows d : d ∈ rows_with key v rows <-> PDict d ∈ rows /\ py_eq (dget key d) v = true.
Proof.
  unfold rows_with, dicts_of. rewrite list_elem_of_In, filter_In, <- list_elem_of_In, list_elem_of_omap.
  split; [intros ((x & Hx & Hd) & H); split; [|done]; by destruct x; try done; injection Hd as <-|].
  intros [Hd H]. split; [|done]. by exists (PDict d).
Qed.

Lemma current_attempt_Ok state mission_id mission current : current_attempt state mission_id = Ok (mission, current) ->
  exists rows, dget "mission_attempts" state = PList rows
    /\ match current with
       | Some c => PDict c ∈ rows /\ dget "mission_id" c = mission_id
       | None => forall d, PDict d ∈ rows -> dget "mission_id" d <> mission_id
       end
    /\ (forall d, PDict d ∈ rows -> dget "mission_id" d = mission_id -> state_in _MISSION_ATTEMPT_ACTIVE_STATES d = true ->
          current = Some d).
Proof.
  unfold current_attempt. intros H0. inv_ok. split_guards.
  match goal with H : table_list _ (dget "mission_attempts" state) = Ok ?r |- _ => 
    destruct (dget "mission_attempts" state) as [| | | | |rows| |] eqn:Hm; try done; injection H as <- end.
  exists rows. split; [done|].
  destruct (rows_with "mission_id" mission_id _) as [|m [|]]; try done. inv_ok.
  match goal with H : (match ?x with [] => _ | _ => _ end) = Ok (_, _) |- _ => destruct x as [|b [|]]; try done end. inv_ok.
  match goal with H : is_canonical_mission_id _ = true |- _ => apply is_form_PStr in H as (s & -> & _) end.
  match goal with H : mapR _ (rows_with _ _ rows) = Ok ?l |- _ => apply mapR_Ok in H; rename H into Hflags; rename l into flags end.
  assert (Hmine : forall d, PDict d ∈ rows -> dget "mission_id" d = PStr s -> d ∈ rows_with "mission_id" (PStr s) rows)
    by (intros d Hd Hs; apply rows_with_elem; split; [done|by apply py_eq_str]).
  split.
  - destruct (latest_row _) as [[i c]|] eqn:Hlast; cbn.
    + apply latest_row_lookup, list_elem_of_lookup_2, rows_with_elem in Hlast as [Hin Heq]. split; [done|by apply py_eq_str].
    + intros d Hd Hs. pose proof (Hmine _ Hd Hs) as Hin. unfold latest_row in Hlast.
      destruct (rows_with "mission_id" (PStr s) rows); [by apply elem_of_nil in Hin|done].
  - intros d Hd Hs Hact. pose proof (Hmine _ Hd Hs) as (j & Hj)%list_elem_of_lookup.
    destruct (Forall2_lookup_l _ _ _ _ _ Hflags Hj) as (b0 & Hb0 & Hset).
    assert (b0 = true) as ->.
    { unfold state_in, state_is in Hact. apply existsb_elem in Hact as (x & Hx%in_strs_spec & He%py_eq_str).
      rewrite He in Hset. change (Ok (in_strs x _MISSION_ATTEMPT_ACTIVE_STATES) = Ok b0) in Hset. rewrite Hx in Hset. by injection Hset. }
    match goal with H : match list_find ?P flags with _ => _ end = false |- _ => destruct (list_find P flags) as [[i x]|] eqn:Hfind end.
    + apply list_find_Some in Hfind as (Hi & -> & _). split_guards.
      assert (i = j) as -> by (eapply one_flag; eassumption).
      destruct (latest_row _) as [[k c]|] eqn:Hlast; [|done]. cbn in *.
      match goal with H : Some _ = Some _ |- _ => injection H as -> end. apply latest_row_lookup in Hlast. congruence.
    + apply list_find_None in Hfind. rewrite Forall_forall in Hfind. destruct (Hfind true); [by eapply list_elem_of_lookup_2|done].
Qed.

Lemma known_attempt s a : known_state ATTEMPT_STATES (PStr s) = Ok a ->
  (a = ANone -> s = "none") /\ (a = APrepared -> s = "prepared")
  /\ (in_flight a = true \/ successful_attempt a = true -> s ∈ ["submitted"; "running"; "completed"; "succeeded"]).
Proof.
  intros (s' & [= <-] & Hin)%known_state_in. unfold ATTEMPT_STATES in Hin. rewrite !elem_of_cons, elem_of_nil in *.
  repeat (destruct Hin as [Hin|Hin]; [injection Hin as -> ->; split_and!; try done; first [by intros [H|H]; vm_compute in H|by auto 6]|]). by apply elem_of_nil in Hin.
Qed.

(** What the facts say of the attempts of the document. *)
Lemma facts_current state mission_id f : recovery_facts_from_persisted_state state mission_id = Ok f ->
  facts_ok f /\ mission_id = PStr (rf_mission_id f) /\ exists current rows,
    dget "mission_attempts" state = PList rows
    /\ match current with
       | Some c => PDict c ∈ rows /\ dget "mission_id" c = mission_id
                   /\ get_of "attempt_id" (Some c) = match rf_attempt_id f with Some i => PStr i | None => PNone end
                   /\ known_state ATTEMPT_STATES (dget "state" c) = Ok (rf_attempt f)
       | None => (forall d, PDict d ∈ rows -> dget "mission_id" d <> mission_id) /\ rf_attempt f = ANone
       end
    /\ (forall d, PDict d ∈ rows -> dget "mission_id" d = mission_id -> state_in _MISSION_ATTEMPT_ACTIVE_STATES d = true ->
          current = Some d).
Proof.
  unfold recovery_facts_from_persisted_state. intros ([mission current] & Hcur & H)%bind_Ok. cbn in H. inv_ok.
  pose proof (new_facts_ok _ _ H) as Hok. split; [done|].
  apply current_attempt_Ok in Hcur as (rows & Hrows & Hc & Hact). unfold new_facts in H. cbn -[known_state] in H. inv_ok. cbn.
  split_guards. match goal with H : is_canonical_mission_id _ = true |- _ => apply is_form_PStr in H as (m & -> & _) end.
  split; [done|]. exists current, rows. split; [done|]. split; [|done]. destruct current as [c|].
  - destruct Hc as [Hc Hm]. do 2 (split; [done|]). split; [|done]. cbn in *.
    match goal with H : Attempt.is_none ?x || _ = true |- _ => 
      apply orb_true_iff in H as [H|H]; [by destruct x|by apply is_form_PStr in H as (i & -> & _)] end.
  - split; [done|]. match goal with H : known_state ATTEMPT_STATES _ = Ok _ |- _ => by injection H as <- end.
Qed.

(** No other attempt of the Mission is under way. *)
Definition only_active (mission : string) (a : dict) (attempts : list dict) : Prop :=
  forall b, b ∈ attempts -> field "mission_id" b = mission -> state_in _MISSION_ATTEMPT_ACTIVE_STATES b = true -> b = a.

(** The phase each resumable transition leaves the Mission's attempt in. *)
Definition claims_allow (mission : string) (attempt_id : option string) (attempts : list dict) (records : list pyval)
    (t : next_transition) : Prop :=
  match t with
  | PrepareDispatch => Forall (fun a => field "mission_id" a <> mission) attempts
  | DispatchPrepared => exists a, a ∈ attempts /\ field "mission_id" a = mission /\ attempt_id = Some (field "attempt_id" a)
      /\ admission_path Ready (events_of (lineage_of a) records) Ready
      /\ submitted_in (events_of (lineage_of a) records) = [] /\ only_active mission a attempts
  | _ => exists a c, a ∈ attempts /\ field "mission_id" a = mission /\ attempt_id = Some (field "attempt_id" a)
      /\ admission_path Ready (events_of (lineage_of a) records) (Submitted c)
      /\ submitted_in (events_of (lineage_of a) records) = [c] /\ only_active mission a attempts
  end.

Lemma path_submissions p es q : admission_path p es q -> p = Ready ->
  submitted_in es = match q with Ready | Claimed _ | Stopped _ => [] | Submitted c => [c] | Ambiguous c => submitted_in es end
  /\ (forall c, q = Ambiguous c -> submitted_in es = [] \/ submitted_in es = [c]).
Proof.
  induction 1 as [|p es q e r _ IH Hs]; intros ->; [done|]. specialize (IH eq_refl) as [IH IHa].
  unfold submitted_in in *. rewrite omap_app.
  destruct Hs; cbn; rewrite ?app_nil_r; (split; [try done; by rewrite IH|intros c' [= <-]]); rewrite IH; by auto.
Qed.

Lemma coherent_rows journal doc attempts records rows : coherent journal doc attempts records ->
  dget "mission_attempts" doc = PList rows ->
  rows = PDict <$> attempts /\ Forall (fun a => _validate_mission_attempt_record (PDict a) = Ok a) attempts.
Proof.
  intros ((rows' & Hl) & _) Hd. apply load_attempts_Ok in Hl as (Ht & -> & Hv & _).
  unfold attempts_table in Ht. unfold dget in Hd. destruct (dlookup _ doc); [|done]. split; [congruence|].
  apply mapR_Ok in Hv. rewrite Forall2_fmap_l in Hv. clear -Hv.
  induction Hv as [|a a' l l' Ha _ IH]; constructor; [|done]. pose proof (validate_PDict _ _ Ha). congruence.
Qed.

(** What the current attempt's record implies about its history. *)
Lemma claims_respected journal doc attempts records mission_id f t : coherent journal doc attempts records ->
  recovery_facts_from_persisted_state doc mission_id = Ok f -> guard t f ->
  claims_allow (rf_mission_id f) (rf_attempt_id f) attempts records t.
Proof.
  intros Hco (Hok & -> & current & rows & Hrows & Hc & Hact)%facts_current Hg.
  destruct (coherent_rows _ _ _ _ _ Hco Hrows) as [-> Hvalid].
  assert (Hf : forall a, a ∈ attempts -> dget "mission_id" a = PStr (field "mission_id" a)).
  { intros a Ha. rewrite Forall_forall in Hvalid. specialize (Hvalid _ Ha). unfold _validate_mission_attempt_record in Hvalid.
    inv_ok. split_guards. match goal with H : is_canonical_mission_id _ = true |- _ => apply is_form_PStr in H as (m & Hm & _) end.
    unfold field. by rewrite Hm. }
  destruct current as [c|].
  - destruct Hc as (Hin & Hm & Hid & Hst). apply list_elem_of_fmap in Hin as (c' & [= <-] & Hin).
    pose proof (coherent_path _ _ _ _ _ Hco Hin) as Hp. destruct (path_submissions _ _ _ Hp eq_refl) as [Hsub _].
    rewrite Forall_forall in Hvalid. destruct (valid_phase _ _ (Hvalid _ Hin)) as (Hnot & Hready & Hflight).
    assert (Honly : only_active (rf_mission_id f) c attempts).
    { intros b Hb Hbm Hba. assert (Some c = Some b) as [= ->]; [|done].
      apply Hact; [by apply list_elem_of_fmap; eauto|by rewrite Hf, Hbm|done]. }
    assert (Hmission : field "mission_id" c = rf_mission_id f) by (unfold field; by rewrite Hm).
    destruct (known_state_in _ _ _ Hst) as (s & Hs & _). rewrite Hs in Hst. apply known_attempt in Hst as (Hnone & Hprep & Hfl).
    assert (Hattempt : rf_attempt f <> ANone -> rf_attempt_id f = Some (field "attempt_id" c)).
    { intros Hne. pose proof (fo_attempt _ Hok) as Hfo. unfold get_of in Hid. unfold field. rewrite Hid.
      destruct (rf_attempt_id f); [done|by destruct Hne]. }
    assert (Hsubmitted : in_flight (rf_attempt f) = true \/ successful_attempt (rf_attempt f) = true ->
      exists a c, a ∈ attempts /\ field "mission_id" a = rf_mission_id f /\ rf_attempt_id f = Some (field "attempt_id" a)
        /\ admission_path Ready (events_of (lineage_of a) records) (Submitted c)
        /\ submitted_in (events_of (lineage_of a) records) = [c] /\ only_active (rf_mission_id f) a attempts).
    { intros Hfs. destruct (Hflight s Hs (Hfl Hfs)) as (cl & _ & Hph). rewrite Hph in Hp, Hsub.
      exists c, cl. split_and!; try done. apply Hattempt. intros E. rewrite E in Hfs. by destruct Hfs as [H|H]; vm_compute in H. }
    destruct t; cbn in Hg; destruct_and?; cbn; try (apply Hsubmitted; tauto).
    + destruct Hnot. by rewrite Hs, Hnone.
    + exists c. rewrite Hready in Hp, Hsub by (rewrite Hs, Hprep; done). split_and!; try done. apply Hattempt. congruence.
  - destruct Hc as [Hno Ha]. destruct t; cbn in Hg; destruct_and?; try congruence.
    2-5: rewrite Ha in *; by match goal with H : _ ANone = true |- _ => vm_compute in H end.
    cbn. apply Forall_forall. intros a Hin Heq. apply (Hno a); [by apply list_elem_of_fmap; eauto|]. rewrite Hf by done. by rewrite Heq.
Qed.

(** What recovery resumes agrees with the recorded admissions.  From a
    document whose attempts and admission history are coherent, a Mission whose
    dispatch is to be prepared has no attempt at all; an attempt that is to be
    dispatched is the Mission's only one under way, every claim of it was released
    and it was never submitted; every other resumed transition is of an attempt
    submitted exactly once, beside which none is under way.  So no restart submits
    a task twice. *)
Lemma recovery_respects_claims journal doc attempts records mission_id f d t : coherent journal doc attempts records ->
  recovery_facts_from_persisted_state doc mission_id = Ok f -> reconcile_gate f = Ok d -> rd_next d = Some t ->
  mission_id = PStr (rd_mission_id d) /\ claims_allow (rd_mission_id d) (rd_attempt_id d) attempts records t.
Proof.
  intros Hco Hf Hd Ht. destruct (facts_current _ _ _ Hf) as (Hok & Hm & _).
  destruct (reconcile_gate_decides _ (fo_reply _ Hok)) as (c & reason & next & Hg & Hr & Hc & Hn & _).
  rewrite Hg, decide_as_ok in Hd by done. injection Hd as <-. cbn in *. split; [done|].
  apply (claims_respected _ _ _ _ _ _ _ Hco Hf). by apply Hn in Ht as [_ ?].
Qed.
End laws.

(** ** Laws of the startup gate *)

(** Only [enable_scheduler] enables the scheduler. *)
Class SchedulerGate (W : Type) `{RecoveryStore W} (enabled : W -> bool) := {
  daemon_flush_quiet w : enabled (flush_daemon_event_outbox w).2 = enabled w;
  conversation_flush_quiet w : enabled (flush_conversation_event_outbox w).2 = enabled w;
  protocol_flush_quiet w : enabled (flush_protocol_event_outbox w).2 = enabled w;
  load_quiet w : enabled (load_recovery_snapshot w).2 = enabled w;
  commit_quiet ds token w : enabled (commit_recovery_decisions ds token w).2 = enabled w
}.

Section startup_laws.
Context {env : LeaseEnv} {ft : FloatText} {lim : RecursionLimits} {repr : PyRepr} {W : Type} {store : RecoveryStore W}
  {enabled : W -> bool} {gate : SchedulerGate W enabled}.

Definition decided (state : dict) (id : pyval) (d : RecoveryDecision) : Prop :=
  exists f, recovery_facts_from_persisted_state state id = Ok f /\ reconcile_gate f = Ok d.

Lemma startup_decisions_Ok state ds : startup_decisions state = Ok ds ->
  no_outbox state = true /\ exists ids, nonterminal_missions state = Ok ids /\ Forall2 (decided state) ids ds.
Proof.
  unfold startup_decisions. intros H. inv_ok. split_guards. split; [done|]. eexists. split; [done|].
  destruct (mapR _ _ ≫= _) as [ds'|e] eqn:E; [|done]. injection H as ->. apply bind_Ok in E as (facts & Hf & Hd).
  apply mapR_Ok in Hf, Hd. clear -Hf Hd. revert ds Hd. induction Hf as [|id f ids facts Hf _ IH]; intros ds Hd; inversion Hd; subst;
    constructor; [by exists f|by apply IH].
Qed.

(** The scheduler is enabled only after recovery: the three outboxes were
    flushed, the loaded snapshot holds no pending event, every Mission that has
    not ended was classified from that snapshot, once, and exactly these
    decisions were committed under the snapshot's token.  When anything of this
    fails the scheduler stays off. *)
Lemma startup_enables_after_commit (w w' : W) r : enabled w = false -> reconcile_startup w = (r, w') -> enabled w' = true ->
  exists w1 w2 w3 w4 w5 state token ids ds persisted,
    flush_daemon_event_outbox w = (Ok tt, w1) /\ flush_conversation_event_outbox w1 = (Ok tt, w2)
    /\ flush_protocol_event_outbox w2 = (Ok tt, w3) /\ load_recovery_snapshot w3 = (Ok (state, token), w4)
    /\ no_outbox state = true /\ nonterminal_missions state = Ok ids /\ Forall2 (decided state) ids ds
    /\ commit_recovery_decisions ds token w4 = (Ok persisted, w5) /\ w' = (enable_scheduler w5).2
    /\ (is_ok r = true -> r = Ok persisted).
Proof.
  intros Hoff H Hon. unfold reconcile_startup in H.
  pose proof (daemon_flush_quiet w) as Q. destruct (flush_daemon_event_outbox w) as [[[]|e] w1] eqn:E1; [|naive_solver congruence].
  pose proof (conversation_flush_quiet w1) as Q1. destruct (flush_conversation_event_outbox w1) as [[[]|e] w2] eqn:E2; [|naive_solver congruence].
  pose proof (protocol_flush_quiet w2) as Q2. destruct (flush_protocol_event_outbox w2) as [[[]|e] w3] eqn:E3; [|naive_solver congruence].
  pose proof (load_quiet w3) as Q3. destruct (load_recovery_snapshot w3) as [[[state token]|e] w4] eqn:E4; [|naive_solver congruence].
  cbn in *. destruct (startup_decisions state) as [ds|e] eqn:Ed; [|naive_solver congruence].
  pose proof (commit_quiet ds token w4) as Q4. destruct (commit_recovery_decisions ds token w4) as [[persisted|e] w5] eqn:E5; [|naive_solver congruence].
  apply startup_decisions_Ok in Ed as (Hno & ids & Hids & Hds). exists w1, w2, w3, w4, w5, state, token, ids, ds, persisted.
  split_and!; try done; destruct (enable_scheduler w5) as [[[]|e] w6]; by injection H as <- <-.
Qed.
End startup_laws.

(** ** Witnesses *)

#[local] Existing Instance sample_env.
#[local] Existing Instance sample_limits.
#[local] Existing Instance sample_float_text.
#[local] Existing Instance sample_repr.

Definition sample_hash : pyval := PStr ("sha256:" +:+ sample_digest).
Definition sample_step (n : nat) (agent : string) : pyval :=
  PDict [("step_id", PStr ("step_" +:+ pretty n)); ("position", PInt (Z.of_nat n)); ("agent_id", PStr agent); ("role", PStr "coder");
         ("task_hash", sample_hash)].
Definition sample_worker (agent : string) : pyval :=
  PDict [("agent_id", PStr agent); ("role", PStr "coder"); ("provider", PStr agent); ("workspace_mode", PStr "worktree");
         ("configured_transport", PStr "acp");
         ("capability_provenance", PDict [("source", PStr "project_config"); ("transport", PStr "acp");
                                          ("adapter_configuration", PStr "present")]);
         ("runtime_identity_hash", sample_hash)].
Definition sample_snapshot : dict :=
  [("mission", PDict
     ([("mission_id", PStr "mis_0123456789ab"); ("schema_version", PStr MISSION_SCHEMA_VERSION); ("plan_id", PStr "pln_0123456789ab")]
      ++ ((fun k => (k, sample_hash)) <$> ["plan_hash"; "goal_hash"; "summary_hash"; "project_scope_hash"])
      ++ [("steps", PList [sample_step 1 "codex"; sample_step 2 "claude"]);
          ("action_classes", PList [PStr "worker_task"; PStr "declared_local_verification"]);
          ("skill_provenance", PList []); ("memory_provenance", PList []); ("declared_tests_hash", PNone);
          ("acceptance_criteria_hash", PNone)]));
   ("workers", PList [sample_worker "codex"; sample_worker "claude"]);
   ("policy", PDict [("approval_mode", PStr "confirm"); ("autonomous_allowed_agents", PList []);
                     ("autonomous_max_approvals", PInt 0); ("policy_source", PStr "project_config")]);
   ("limits", PDict [("step_count", PInt 2); ("timeout_seconds", PInt 60); ("retry_limit", PInt 0); ("worker_budget", PInt 2)]);
   ("mission_hash", sample_hash); ("policy_hash", sample_hash); ("execution_hash", sample_hash)].

(** A running Mission whose first attempt is prepared. *)
Definition waiting_attempt : dict := dset "snapshot_hash" sample_hash prepared_attempt.
Definition sample_mission (status : string) : dict :=
  [("mission_id", PStr "mis_0123456789ab"); ("status", PStr status); ("execution_snapshot", PDict sample_snapshot);
   ("snapshot_hash", sample_hash)].
Definition sample_state (attempt : dict) : dict :=
  [("missions", PList [PDict (sample_mission "running")]); ("mission_attempts", PList [PDict attempt]);
   ("mission_recovery_evidence", PList [PDict [("mission_id", PStr "mis_0123456789ab"); ("attempt_id", PStr "mat_0123456789ab");
                                               ("agent_id", PStr "codex")]])].

Example prepared_state_resumes :
  (f ← recovery_facts_from_persisted_state (sample_state waiting_attempt) (PStr "mis_0123456789ab"); d ← reconcile_gate f; Ok (rd_next d))
  = Ok (Some DispatchPrepared).
Proof. vm_compute. reflexivity. Qed.
Example claimed_state_ambiguous :
  (f ← recovery_facts_from_persisted_state (sample_state (dset "snapshot_hash" sample_hash claimed_attempt)) (PStr "mis_0123456789ab");
   d ← reconcile_gate f; Ok (rd_class d)) = Ok CAmbiguous.
Proof. vm_compute. reflexivity. Qed.

Definition sample_facts : RecoveryFacts :=
  {| rf_mission_id := "mis_0123456789ab"; rf_mission := MRunning; rf_attempt_id := Some "mat_0123456789ab"; rf_attempt := ARunning;
     rf_receipt := ReceiptRecorded; rf_reply := RNone; rf_handoff := HNone; rf_permission := PermApproved; rf_configured := Tmux;
     rf_transport := TrReady; rf_snapshot := SnValid; rf_lineage := LinValid; rf_ownership := AgentdeckOwned |}.

Lemma reconcile_gate_spec_witness : exists d, reconcile_gate sample_facts = Ok d /\ rd_next d = Some AwaitWorker.
Proof.
  destruct (reconcile_gate_spec sample_facts ltac:(by split)) as (d & Hd & _ & _ & Hn & _).
  exists d. split; [done|]. apply Hn. split; [split; try done; by right|by cbn].
Defined.

Lemma recovery_respects_claims_witness : exists f d,
  recovery_facts_from_persisted_state (sample_state waiting_attempt) (PStr "mis_0123456789ab") = Ok f
  /\ reconcile_gate f = Ok d
  /\ claims_allow (rd_mission_id d) (rd_attempt_id d) [waiting_attempt] [] DispatchPrepared.
Proof.
  assert (Hco : coherent None (sample_state waiting_attempt) [waiting_attempt] []).
  { split; [eexists; vm_compute; reflexivity|]. split; [done|]. eexists. vm_compute. reflexivity. }
  destruct (recovery_facts_from_persisted_state (sample_state waiting_attempt) (PStr "mis_0123456789ab")) as [f|e] eqn:Hf;
    [|by vm_compute in Hf].
  destruct (reconcile_gate f) as [d|e] eqn:Hd; [|vm_compute in Hf; injection Hf as <-; by vm_compute in Hd].
  exists f, d. split; [done|]. split; [done|].
  refine (proj2 (recovery_respects_claims _ _ _ _ _ _ _ _ Hco Hf Hd _)).
  vm_compute in Hf. injection Hf as <-. vm_compute in Hd. by injection Hd as <-.
Defined.

(** A store that keeps the document, and whether the scheduler runs. *)
Definition sample_recovery_store : RecoveryStore (dict * bool) := {|
  flush_daemon_event_outbox w := (Ok tt, w); flush_conversation_event_outbox w := (Ok tt, w);
  flush_protocol_event_outbox w := (Ok tt, w); load_recovery_snapshot w := (Ok (w.1, "token"), w);
  commit_recovery_decisions ds token w := (Ok (map (fun d => [("mission_id", PStr (rd_mission_id d))]) ds), w);
  enable_scheduler w := (Ok tt, (w.1, true))
|}.
#[local] Existing Instance sample_recovery_store.
#[local] Instance sample_gate : SchedulerGate (dict * bool) snd.
Proof. split; done. Defined.

Lemma startup_enables_after_commit_witness : exists ids ds,
  reconcile_startup (sample_state waiting_attempt, false) = (Ok (map (fun d => [("mission_id", PStr (rd_mission_id d))]) ds),
                                                             (sample_state waiting_attempt, true))
  /\ nonterminal_missions (sample_state waiting_attempt) = Ok ids /\ Forall2 (decided (sample_state waiting_attempt)) ids ds.
Proof.
  destruct (reconcile_startup (sample_state waiting_attempt, false)) as [r w'] eqn:E.
  assert (Hw : w' = (sample_state waiting_attempt, true) /\ is_ok r = true) by (vm_compute in E; injection E as <- <-; by vm_compute).
  destruct Hw as [-> Hok].
  destruct (startup_enables_after_commit _ _ _ eq_refl E eq_refl)
    as (w1 & w2 & w3 & w4 & w5 & state & token & ids & ds & persisted & H1 & H2 & H3 & H4 & _ & Hids & Hds & Hc & _ & Hr).
  apply (f_equal snd) in H1. apply (f_equal snd) in H2. apply (f_equal snd) in H3.
  assert (w3 = (sample_state waiting_attempt, false)) as -> by exact (eq_sym (eq_trans H1 (eq_trans H2 H3))).
  assert (state = sample_state waiting_attempt) as -> by exact (eq_sym (f_equal (fun r => match r.1 with Ok p => p.1 | Err _ => [] end) H4)).
  assert (persisted = map (fun d => [("mission_id", PStr (rd_mission_id d))]) ds) as ->
    by exact (eq_sym (f_equal (fun r => match r.1 with Ok p => p | Err _ => [] end) Hc)).
  exists ids, ds. split; [rewrite (Hr Hok); reflexivity|exact (conj Hids Hds)].
Defined.
