(* ===== verification/EvidenceStore.v ===== *)
(** * Recovery evidence in the store ([state.py])

    The recovery snapshot: everything a restarted daemon relies on, validated as
    a whole under the store's lock and summed up in a token; the decisions made
    from a snapshot, saved only if the token is still the current one; and the
    operations that record a Worker's reply, its handoff and the permission of an
    attempt as evidence, each only on a document whose snapshot is valid.

    An operation returns the document it saves.  The journal, new identities,
    clock readings and the snapshot that would be frozen from the project's
    current configuration ([ew_rebuild], of a Mission and its plan) are given. *)
From S2P Require Import Prelude PyStr PyVal ReviewVerdict ReviewGroup Json Protocol Handoff Scheduler Lease Store Conversation Attempt Snapshot AttemptStore Recovery.
From S2P Require Import AgentProtocol Governance GovernanceStore.

Record evidence_world := EvidenceWorld {
  ew_store : store_world;
  ew_event : nat -> string * string;
  ew_rebuild : dict -> dict -> result dict;
  ew_reply : string; ew_handoff : string; ew_now : string
}.

(** ** Frozen Missions *)

Definition _SEMANTIC_FROZEN_EVENT_PAYLOAD_FIELDS : list string :=
  ["mission_id"; "plan_id"; "semantic_authority_hash"; "compiled_task_hashes"; "compiled_step_count";
   "policy_snapshot_hash"; "preview_generation"].
Definition SEMANTIC_MISSION_COMPACT_FIELDS : list string :=
  ["semantic_authority_schema_version"; "semantic_authority_hash"; "compiled_task_hashes"; "preview_generation"].

Definition is_int (n : Z) (v : pyval) : bool := match v with PInt z => (z =? n)%Z | _ => false end.

Definition _validate_semantic_frozen_event_payload (value : pyval) : result dict :=
  let invalid := ValueError "semantic frozen event authority is invalid" in
  match value with
  | PDict d =>
      _ ← raise_if (negb (keys_are _SEMANTIC_FROZEN_EVENT_PAYLOAD_FIELDS d)) invalid;
      match dget "compiled_task_hashes" d with
      | PList hashes =>
          _ ← raise_if (negb (is_canonical_mission_id (dget "mission_id" d))
                        || negb (is_form plan_id_form (dget "plan_id" d))
                        || match hashes with [] => true | _ => false end || (64 <? length hashes)
                        || negb (forallb is_hash hashes)
                        || negb (is_int (Z.of_nat (length hashes)) (dget "compiled_step_count" d))
                        || negb (is_int 1 (dget "preview_generation" d))
                        || negb (is_hash (dget "semantic_authority_hash" d))
                        || negb (is_hash (dget "policy_snapshot_hash" d))) invalid;
          Ok d
      | _ => Err invalid
      end
  | _ => Err invalid
  end.

Definition _validate_execution_frozen_event_payload (value : pyval) : result dict :=
  match value with
  | PDict d =>
      _ ← raise_if (negb (keys_are ["mission_id"; "snapshot_hash"] d)
                    || negb (is_canonical_mission_id (dget "mission_id" d)) || negb (is_hash (dget "snapshot_hash" d)))
                   (ValueError "execution frozen event authority is invalid");
      Ok d
  | _ => Err (ValueError "execution frozen event authority is invalid")
  end.

Definition frozen_invalid : exn := ValueError "frozen Mission event authority is invalid".

Section snapshot.
Context {env : LeaseEnv} {ft : FloatText} {lim : RecursionLimits} {repr : PyRepr}.
Variable w : evidence_world.

(** The events of journal and outbox by identity; a repeated one is the same. *)
Definition add_authority_event (acc : list (string * dict)) (event : pyval) : result (list (string * dict)) :=
  id ← match validate_daemon_event_record event with
       | Err (LeaseError _) => Err (ValueError "protocol event journal is malformed")
       | r => r
       end;
  d ← as_dict event;
  match assoc_str id acc with
  | Some e => _ ← raise_if (negb (py_eq (PDict e) event)) frozen_invalid; Ok acc
  | None => Ok (acc ++ [(id, d)])
  end.

(** The events that froze a Mission's semantic authority and its execution. *)
Record frozen_events := FrozenEvents { fe_semantic : list (string * dict); fe_execution : list (string * dict) }.
Definition add_frozen (mission_ids : list string) (acc : frozen_events) (event : dict) : result frozen_events :=
  let record (table : list (string * dict)) (payload : dict) (put : list (string * dict) -> frozen_events) :=
    let id := text_of (dget "mission_id" payload) in
    _ ← raise_if (negb (in_strs id mission_ids) || bool_decide (is_Some (assoc_str id table))) frozen_invalid;
    Ok (put (table ++ [(id, payload)])) in
  if is_row "event_type" "mission_semantic_authority_frozen" event then
    payload ← _validate_semantic_frozen_event_payload (dget "payload" event);
    record (fe_semantic acc) payload (fun t => FrozenEvents t (fe_execution acc))
  else if is_row "event_type" "mission_execution_frozen" event then
    payload ← _validate_execution_frozen_event_payload (dget "payload" event);
    record (fe_execution acc) payload (fun t => FrozenEvents (fe_semantic acc) t)
  else Ok acc.

Definition _unique_plan_record (doc : dict) (plan_id : string) : result dict :=
  plans ← iter_rows "plans" doc;
  match rows_with "plan_id" plan_id plans with
  | [p] => Ok p
  | [] => Err (KeyError plan_id)
  | _ => Err (ValueError "duplicate plan identity")
  end.

(** Is the Mission's plan a semantic one? *)
Definition plan_is_semantic (doc mission : dict) : bool :=
  match dget "plan_id" mission, dlookup "plans" doc with
  | PStr id, Some (PList plans) =>
      match rows_with "plan_id" id plans with
      | [p] => match dget "plan" p with PDict b => dmem "semantic_authority" b || dmem "semantic_steps" b | _ => false end
      | _ => false
      end
  | _, _ => false
  end.
Definition snapshot_is_semantic (mission : dict) : bool :=
  match dget "execution_snapshot" mission with
  | PDict s => match dget "mission" s with PDict m => dmem "semantic_authority_schema_version" m | _ => false end
  | _ => false
  end.

Definition frozen_steps (snapshot : dict) : list pyval :=
  match dget "mission" snapshot with
  | PDict m => match dget "steps" m with PList steps => steps | _ => [] end
  | _ => []
  end.

(** A Mission under way with semantic authority: what was frozen is what the
    configuration would freeze today, and what its events say. *)
Definition check_semantic_mission (doc : dict) (frozen : frozen_events) (mission : dict) : result unit :=
  let id := text_of (dget "mission_id" mission) in
  let anchor := assoc_str id (fe_semantic frozen) in
  let semantic := existsb (fun f => dmem f mission) SEMANTIC_MISSION_COMPACT_FIELDS || plan_is_semantic doc mission
                  || bool_decide (is_Some anchor) || snapshot_is_semantic mission in
  if negb (in_list (dget "status" mission) [PStr "preparing"; PStr "running"]) || negb semantic then Ok tt
  else
    let drift := ValueError "semantic recovery authority drift" in
    match anchor, assoc_str id (fe_execution frozen), dget "plan_id" mission with
    | Some a, Some x, PStr plan_id =>
        match (plan ← _unique_plan_record doc plan_id;
               persisted ← validate_execution_snapshot (dget "execution_snapshot" mission);
               current ← ew_rebuild w mission plan;
               Ok (persisted, current)) with
        | Err _ => Err drift
        | Ok (persisted, current) =>
            raise_if (negb (py_eq (dget "snapshot_hash" mission) (dget "execution_hash" persisted))
                      || negb (py_eq (dget "execution_authority_hash" mission) (dget "execution_hash" persisted))
                      || negb (py_eq (PDict current) (PDict persisted))
                      || negb (py_eq (dget "plan_id" a) (PStr plan_id))
                      || negb (same_field "semantic_authority_hash" a mission)
                      || negb (same_field "compiled_task_hashes" a mission)
                      || negb (is_int (Z.of_nat (length (frozen_steps persisted))) (dget "compiled_step_count" a))
                      || negb (py_eq (dget "policy_snapshot_hash" a) (dget "policy_hash" current))
                      || negb (same_field "preview_generation" a mission)
                      || negb (py_eq (dget "snapshot_hash" x) (dget "execution_hash" current))) drift
        end
    | _, _, _ => Err drift
    end.

(** ** The evidence records and what they refer to *)

Definition distinct_texts (l : list string) (e : exn) : result unit := raise_if (negb (bool_decide (NoDup l))) e.
Definition attempt_with_id (attempts : list dict) (id : pyval) : option dict := head (attempts_with id attempts).

(** The record's attempt exists and is of the record's Mission. *)
Definition check_attempt_reference (attempts : list dict) (e : exn) (item : dict) : result unit :=
  match attempt_with_id attempts (dget "attempt_id" item) with
  | Some a => raise_if (negb (same_field "mission_id" a item)) e
  | None => Err e
  end.
Definition check_evidence_reference (mission_ids : list string) (attempts : list dict) (item : dict) : result unit :=
  _ ← raise_if (negb (in_strs (text_of (dget "mission_id" item)) mission_ids))
               (ValueError "durable recovery Mission reference is invalid");
  if Attempt.is_none (dget "attempt_id" item) then Ok tt
  else
    let e := ValueError "durable recovery attempt reference is invalid" in
    match attempt_with_id attempts (dget "attempt_id" item) with
    | Some a => raise_if (negb (same_field "mission_id" a item) || negb (same_field "agent_id" a item)) e
    | None => Err e
    end.
Definition check_collection (attempts : list dict) (label : string) (items : list dict) : result unit :=
  _ ← distinct_texts (text_of ∘ dget "attempt_id" <$> items)
                     (ValueError ("duplicate durable recovery " +:+ label +:+ " evidence"));
  _ ← mapR (check_attempt_reference attempts (ValueError ("durable recovery " +:+ label +:+ " reference is invalid"))) items;
  Ok tt.

(** *** The audit events of a record *)

Definition audit_invalid : exn := ValueError "durable recovery evidence audit history is invalid".
Definition AUDIT_TYPES : list string :=
  ["mission_reply_evidence_recorded"; "mission_handoff_evidence_recorded"; "mission_permission_bound"].
Definition payload_of (event : dict) : dict := match dget "payload" event with PDict p => p | _ => [] end.
Definition audits_of (events : list dict) (event_type identity_key : string) (record : dict) : list dict :=
  payload_of <$> List.filter (fun e => is_row "event_type" event_type e && is_dict (dget "payload" e)
                         && same_field identity_key (payload_of e) record && same_field "mission_id" (payload_of e) record
                         && same_field "attempt_id" (payload_of e) record) events.

Definition require_audit_history (events : list dict) (event_type identity_key : string) (record : dict) (states : list string)
    : result unit :=
  let matching := audits_of events event_type identity_key record in
  _ ← raise_if (negb (py_eq (PList (dget "state" <$> matching)) (PList (PStr <$> states)))) audit_invalid;
  _ ← raise_if (existsb (fun p => negb (same_field "semantic_step_hash" p record)) matching) audit_invalid;
  if dmem "canonical_handoff" record then
    expected ← canonical_snapshot_hash (dget "canonical_handoff" record);
    raise_if (existsb (fun p => negb (py_eq (dget "canonical_handoff_hash" p) (PStr expected))) matching) audit_invalid
  else Ok tt.

Definition reply_states (reply : dict) : list string :=
  "received" :: (if state_in ["validated"; "invalid"] reply then [text_of (dget "state" reply)] else []).
Definition handoff_states (handoff : dict) : list string :=
  "pending" :: (if state_is "recorded" handoff then ["recorded"] else []).
Definition check_reply_audit (events : list dict) (reply : dict) : result unit :=
  require_audit_history events "mission_reply_evidence_recorded" "reply_id" reply (reply_states reply).
Definition check_handoff_audit (events : list dict) (handoff : dict) : result unit :=
  require_audit_history events "mission_handoff_evidence_recorded" "handoff_id" handoff (handoff_states handoff).
Definition check_binding_audit (events : list dict) (binding : dict) : result unit :=
  match List.filter (fun e => is_row "event_type" "mission_permission_bound" e && py_eq (dget "payload" e) (PDict binding)) events with
  | [_] => Ok tt
  | _ => Err audit_invalid
  end.

(** ** The recovery snapshot *)

Definition EVIDENCE_TABLES : list string :=
  ["missions"; "mission_attempts"; "mission_recovery_evidence"; "mission_worker_replies"; "mission_handoffs";
   "mission_permission_bindings"; "recovery_decisions"; "protocol_event_outbox"; "daemon_event_outbox";
   "conversation_event_outbox"].

(** [_is_force_stop_terminal_ambiguity] *)
Definition _is_force_stop_terminal_ambiguity (mission : dict) (attempts : list dict) (f : RecoveryFacts) (class : classification)
    : bool :=
  is_row "status" "interrupted" mission && is_row "stop_reason" "force_daemon_stop" mission && eqd class CAmbiguous
  && py_eq (PStr (rf_mission_id f)) (dget "mission_id" mission) && eqd (rf_attempt f) AAmbiguous
  && match rf_attempt_id f with
     | Some id => existsb (fun a => same_field "mission_id" a mission && is_row "attempt_id" id a && state_is "ambiguous" a
                                    && is_row "terminal_reason" "force_daemon_stop_outcome_unknown" a) attempts
     | None => false
     end.

Definition check_mission_row (row : pyval) : result string :=
  match row with
  | PDict m =>
      _ ← raise_if (negb (is_canonical_mission_id (dget "mission_id" m))
                    || negb (in_list (dget "status" m) (PStr ∘ fst <$> MISSION_STATUSES)))
                   (ValueError "persisted Mission evidence is invalid");
      Ok (text_of (dget "mission_id" m))
  | _ => Err (ValueError "persisted Mission evidence is invalid")
  end.

(** An open Mission has facts; one that ended and left evidence is terminal, or
    holds an attempt whose outcome a forced stop left unknown. *)
Definition ended_mission (m : dict) : bool := in_list (dget "status" m) (PStr <$> ENDED_MISSIONS).
Definition check_mission_facts (doc : dict) (attempts evidence : list dict) (m : dict) : result unit :=
  let id := dget "mission_id" m in
  if negb (ended_mission m) then _ ← recovery_facts_from_persisted_state doc id; Ok tt
  else if existsb (same_field "mission_id" m) evidence then
    facts ← recovery_facts_from_persisted_state doc id;
    decision ← reconcile_gate facts;
    raise_if (negb (eqd (rd_class decision) CTerminal)
              && negb (_is_force_stop_terminal_ambiguity m attempts facts (rd_class decision)))
             (ValueError "terminal Mission recovery integrity is invalid")
  else Ok tt.

Definition _recovery_authority_hash (value : pyval) : result string :=
  match json_dumps_sorted value with
  | Ok encoded => Ok ("sha256:" +:+ sha256_hex encoded)
  | Err e => Err (if type_or_value e then ValueError "recovery authority encoding is invalid" else e)
  end.

(** What a valid snapshot holds: the validated records, the events that audit
    them, the claims of the history. *)
Record recovery_view := RecoveryView {
  vw_missions : list dict; vw_attempts : list dict; vw_evidence : list dict; vw_replies : list dict; vw_handoffs : list dict;
  vw_bindings : list dict; vw_sessions : list dict; vw_turns : list dict; vw_permissions : list dict;
  vw_audits : list dict; vw_claims : history
}.

Definition dict_rows (l : list dict) : pyval := PList (PDict <$> l).
Definition claim_lineage (h : history) : pyval :=
  PDict (sort_keys ((fun c => (c.1, PList [PStr c.2.1; PStr c.2.2])) <$> map_to_list (h_lineage h))).
Definition authority_of (doc : dict) (v : recovery_view) : pyval :=
  let raw k := (k, rows_of k doc) in
  PDict ([("missions", rows_of "missions" doc); ("mission_attempts", dict_rows (vw_attempts v));
          ("mission_recovery_evidence", dict_rows (vw_evidence v)); ("mission_worker_replies", dict_rows (vw_replies v));
          ("mission_handoffs", dict_rows (vw_handoffs v)); ("mission_permission_bindings", dict_rows (vw_bindings v));
          ("permission_requests", dict_rows (vw_permissions v)); ("agent_sessions", dict_rows (vw_sessions v));
          ("protocol_turns", dict_rows (vw_turns v)); raw "protocol_state_transitions"; raw "conversation_sessions";
          raw "conversation_turns"; raw "conversation_preview_bindings"; raw "conversation_state_transitions";
          ("recovery_audit_events", dict_rows (vw_audits v)); raw "recovery_decisions"; raw "protocol_event_outbox";
          raw "daemon_event_outbox"; raw "conversation_event_outbox"; ("claim_lineage", claim_lineage (vw_claims v))]).

Definition typed_table (k : string) (e : exn) (doc : dict) : result (list pyval) := as_rows (rows_of k doc) e.
Definition must_be_list (k : string) : exn := TypeError (k +:+ " must be a list").

(** The frozen events of journal and outbox, and every semantic Mission under way. *)
Definition check_frozen (doc : dict) (mission_ids : list string) (missions : list dict) (events : list pyval) : result unit :=
  by_id ← foldM add_authority_event [] events;
  frozen ← foldM (add_frozen mission_ids) (FrozenEvents [] []) (snd <$> by_id);
  _ ← mapR (check_semantic_mission doc frozen) missions;
  Ok tt.

(** The evidence of the attempts, record by record and against the attempts. *)
Definition check_evidence (mission_ids : list string) (attempts : list dict)
    (evidence_raw replies_raw handoffs_raw bindings_raw decisions_raw : list pyval)
    : result (list dict * list dict * list dict * list dict) :=
  evidence ← mapR validate_mission_recovery_evidence_record evidence_raw;
  _ ← distinct_texts (text_of ∘ dget "mission_id" <$> evidence) (ValueError "duplicate durable recovery evidence");
  _ ← mapR (check_evidence_reference mission_ids attempts) evidence;
  replies ← mapR validate_mission_reply_evidence_record replies_raw;
  handoffs ← mapR validate_mission_handoff_evidence_record handoffs_raw;
  bindings ← mapR validate_mission_permission_binding bindings_raw;
  _ ← check_collection attempts "reply" replies;
  _ ← check_collection attempts "handoff" handoffs;
  _ ← distinct_texts (text_of ∘ dget "permission_id" <$> bindings) (ValueError "duplicate durable recovery permission evidence");
  _ ← mapR (check_attempt_reference attempts (ValueError "durable recovery permission reference is invalid")) bindings;
  _ ← mapR validate_recovery_record decisions_raw;
  Ok (evidence, replies, handoffs, bindings).

(** The ledger of the Worker agents. *)
Definition check_ledger (doc : dict) : result (dict * (list dict * list dict * list dict)) :=
  doc ← _validate_protocol_identities doc;
  _ ← _validate_protocol_lineage doc;
  session_rows ← py_iter (rows_of "agent_sessions" doc);
  sessions ← mapR _validate_agent_session_record session_rows;
  turn_rows ← py_iter (rows_of "protocol_turns" doc);
  turns ← mapR _validate_protocol_turn_record turn_rows;
  permission_rows ← py_iter (rows_of "permission_requests" doc);
  permissions ← mapR _validate_permission_record permission_rows;
  _ ← _validate_protocol_transition_history doc;
  Ok (doc, (sessions, turns, permissions)).

Definition recovery_view_of (doc : dict) : result (dict * recovery_view) :=
  let doc := ensure_all EVIDENCE_TABLES doc in
  missions ← typed_table "missions" (ValueError "persisted Mission evidence is invalid") doc;
  attempts_raw ← typed_table "mission_attempts" (ValueError "mission attempt state invalid") doc;
  evidence_raw ← typed_table "mission_recovery_evidence" (must_be_list "mission_recovery_evidence") doc;
  replies_raw ← typed_table "mission_worker_replies" (must_be_list "mission_worker_replies") doc;
  handoffs_raw ← typed_table "mission_handoffs" (must_be_list "mission_handoffs") doc;
  bindings_raw ← typed_table "mission_permission_bindings" (must_be_list "mission_permission_bindings") doc;
  decisions_raw ← typed_table "recovery_decisions" (must_be_list "recovery_decisions") doc;
  mission_ids ← mapR check_mission_row missions;
  _ ← distinct_texts mission_ids (ValueError "duplicate mission identity");
  let source := sw_journal (ew_store w) in
  let outbox := event_outbox doc in
  _ ← _strict_protocol_journal_event_ids source;
  journal ← journal_records source;
  _ ← _validated_protocol_event_outbox_ids outbox;
  pending ← py_iter outbox;
  let events := (PDict <$> journal) ++ pending in
  _ ← check_frozen doc mission_ids (dicts_of missions) events;
  attempts ← mapR _validate_mission_attempt_record attempts_raw;
  _ ← _require_unique_mission_attempt_lineage attempts;
  _ ← raise_if (existsb (fun a => negb (in_strs (text_of (dget "mission_id" a)) mission_ids)) attempts)
               (ValueError "mission attempt reference is invalid");
  '(evidence, replies, handoffs, bindings) ←
    check_evidence mission_ids attempts evidence_raw replies_raw handoffs_raw bindings_raw decisions_raw;
  '(doc, (sessions, turns, permissions)) ← check_ledger doc;
  let audits := List.filter (fun e => is_form (fun t => in_strs t AUDIT_TYPES) (dget "event_type" e)) (dicts_of events) in
  _ ← mapR (check_reply_audit audits) replies;
  _ ← mapR (check_handoff_audit audits) handoffs;
  _ ← mapR (check_binding_audit audits) bindings;
  _ ← validate_daemon_event_outbox (rows_of "daemon_event_outbox" doc);
  doc ← _conversation_collections doc;
  claims ← _protocol_admission_claim_history source outbox attempts;
  _ ← mapR (check_mission_facts doc attempts (attempts ++ evidence ++ replies ++ handoffs ++ bindings)) (dicts_of missions);
  Ok (doc, RecoveryView (dicts_of missions) attempts evidence replies handoffs bindings sessions turns permissions audits claims).

(** The document with its missing tables, and the token of its authority. *)
Definition _validated_recovery_snapshot_locked (doc : dict) : result (dict * string) :=
  '(doc, view) ← recovery_view_of doc;
  token ← _recovery_authority_hash (authority_of doc view);
  Ok (doc, token).

Definition load_recovery_snapshot (doc : dict) : result (dict * string) := _validated_recovery_snapshot_locked doc.

(** ** Saving the decisions *)

Definition name_of {A} `{EqDecision A} (table : list (string * A)) (a : A) : string :=
  match find_first (fun p => bool_decide (p.2 = a)) table with Some p => p.1 | None => "" end.
Definition option_text (o : option string) : pyval := match o with Some s => PStr s | None => PNone end.
Definition decision_record (d : RecoveryDecision) (now : string) : dict :=
  [("classification", PStr (name_of CLASSIFICATIONS (rd_class d))); ("reason", PStr (rd_reason d));
   ("mission_id", PStr (rd_mission_id d)); ("attempt_id", option_text (rd_attempt_id d));
   ("next_transition", option_text (name_of _ALLOWED_RECOVERY_TRANSITIONS <$> rd_next d)); ("classified_at", PStr now)].
Definition decision_payload (d : RecoveryDecision) : dict :=
  [("attempt_id", option_text (rd_attempt_id d)); ("classification", PStr (name_of CLASSIFICATIONS (rd_class d)));
   ("mission_id", PStr (rd_mission_id d));
   ("next_transition", option_text (name_of _ALLOWED_RECOVERY_TRANSITIONS <$> rd_next d)); ("reason", PStr (rd_reason d))].

(** The records and events of the decisions, each event with a new identity. *)
Fixpoint decision_records (n : nat) (missions : list dict) (known : list string) (decisions : list RecoveryDecision)
    : result (list dict * list pyval) :=
  match decisions with
  | [] => Ok ([], [])
  | d :: decisions =>
      _ ← match head (GovernanceStore.rows_with "mission_id" (rd_mission_id d) (PDict <$> missions)) with
          | Some m => raise_if (ended_mission m) (ValueError "recovery Mission is not active")
          | None => Err (ValueError "recovery Mission is not active")
          end;
      let '(id, now) := ew_event w n in
      record ← validate_recovery_record (PDict (decision_record d now));
      let event := event_doc id "mission_recovery_classified" now (decision_payload d) in
      event_id ← event_identity event;
      _ ← raise_if (in_strs event_id known) (ValueError "duplicate protocol event identity");
      '(records, events) ← decision_records (S n) missions (event_id :: known) decisions;
      Ok (record :: records, event :: events)
  end.

(** The gate's decision about a Mission, on the document. *)
Definition decision_for (doc : dict) (mission_id : pyval) : result RecoveryDecision :=
  facts ← recovery_facts_from_persisted_state doc mission_id; reconcile_gate facts.

Definition commit_recovery_decisions (doc : dict) (decisions : list RecoveryDecision) (expected_recovery_token : string)
    : result (dict * list dict) :=
  _ ← raise_if (negb (content_hash_form expected_recovery_token)) (ValueError "recovery decisions are invalid");
  let mission_ids := rd_mission_id <$> decisions in
  _ ← distinct_texts mission_ids (ValueError "duplicate recovery Mission identity");
  '(doc, token) ← _validated_recovery_snapshot_locked doc;
  _ ← raise_if (negb (String.eqb token expected_recovery_token)) (ValueError "recovery authority drift");
  rows ← iter_rows "missions" doc;
  let missions := dicts_of rows in
  let open_ids := text_of ∘ dget "mission_id" <$> List.filter (fun m => negb (ended_mission m)) missions in
  let evidence_drift := ValueError "recovery decision evidence drift" in
  _ ← raise_if (negb (forallb (fun i => in_strs i open_ids) mission_ids && forallb (fun i => in_strs i mission_ids) open_ids))
               evidence_drift;
  expected ← mapR (fun i => d ← decision_for doc (PStr i); Ok (i, d)) open_ids;
  _ ← raise_if (existsb (fun d => bool_decide (assoc_str (rd_mission_id d) expected <> Some d)) decisions) evidence_drift;
  existing ← typed_table "recovery_decisions" (must_be_list "recovery_decisions") doc;
  _ ← mapR validate_recovery_record existing;
  '(_, attempts) ← load_attempts doc;
  outbox_ids ← _validated_protocol_event_outbox_ids (event_outbox doc);
  _ ← _protocol_admission_claim_history (sw_journal (ew_store w)) (event_outbox doc) attempts;
  journal_ids ← _strict_protocol_journal_event_ids (sw_journal (ew_store w));
  _ ← mapR check_mission_row rows;
  '(records, events) ← decision_records 0 missions (outbox_ids ++ journal_ids) decisions;
  outbox ← as_rows (event_outbox doc) AttributeError;
  Ok (dset "protocol_event_outbox" (PList (outbox ++ events)) (dset "recovery_decisions" (dict_rows records) doc), records).

(** ** Recording evidence *)

Definition ev_audit (event_type : string) (payload : dict) (doc : dict) : result dict :=
  events ← _append_recovery_audit_locked (ew_store w) (event_outbox doc)
             (event_doc (ew_event w 0).1 event_type (ew_event w 0).2 payload);
  Ok (dset "protocol_event_outbox" (PList events) doc).

(** [records[index] = candidate] at the first row of the attempt. *)
Definition put_record (attempt_id : string) (candidate : dict) (rows : list pyval) : list pyval :=
  replace_first (is_row "attempt_id" attempt_id) candidate rows.

Definition validated_attempts (doc : dict) : result (list dict) :=
  rows ← iter_rows "mission_attempts" doc; mapR _validate_mission_attempt_record rows.
Definition canonical_hash_of (d : dict) : result pyval :=
  h ← canonical_snapshot_hash (dget "canonical_handoff" d); Ok (PStr h).

Definition record_mission_reply_evidence (doc : dict) (attempt_id dispatch_key state : string)
    (expected_reply_id : pyval) (canonical_handoff : pyval) : result (dict * dict) :=
  let refused := ValueError "mission reply evidence transition is invalid" in
  _ ← raise_if (negb (in_strs state ["received"; "validated"; "invalid"])) refused;
  '(doc, _) ← _validated_recovery_snapshot_locked doc;
  attempts ← validated_attempts doc;
  attempt ← match attempts_with (PStr attempt_id) attempts with
            | [a] => Ok a
            | _ => Err (ValueError "mission reply attempt reference is invalid")
            end;
  _ ← raise_if (negb (is_row "dispatch_key" dispatch_key attempt) || negb (state_in ["completed"; "succeeded"] attempt))
               (ValueError "mission reply attempt authority is invalid");
  rows ← iter_rows "mission_worker_replies" doc;
  replies ← mapR validate_mission_reply_evidence_record rows;
  '(candidate, rows') ←
    match attempts_with (PStr attempt_id) replies with
    | [] =>
        _ ← raise_if (negb (String.eqb state "received") || negb (Attempt.is_none expected_reply_id)
                      || Attempt.is_none canonical_handoff) refused;
        candidate ← validate_mission_reply_evidence_record
                      (PDict ([("mission_id", dget "mission_id" attempt); ("attempt_id", PStr attempt_id);
                               ("reply_id", PStr (ew_reply w)); ("dispatch_key", PStr dispatch_key); ("state", PStr "received");
                               ("canonical_handoff", canonical_handoff)] ++ semantic_hash_of attempt));
        Ok (candidate, rows ++ [PDict candidate])
    | [prior] =>
        _ ← raise_if (negb (py_eq expected_reply_id (dget "reply_id" prior)) || negb (is_row "dispatch_key" dispatch_key prior)
                      || negb (state_is "received" prior) || negb (in_strs state ["validated"; "invalid"])
                      || negb (Attempt.is_none canonical_handoff)) refused;
        candidate ← validate_mission_reply_evidence_record (PDict (dset "state" (PStr state) prior));
        Ok (candidate, put_record attempt_id candidate rows)
    | _ => Err (ValueError "duplicate durable recovery reply evidence")
    end;
  hash ← canonical_hash_of candidate;
  doc ← ev_audit "mission_reply_evidence_recorded"
          ([("attempt_id", PStr attempt_id); ("mission_id", dget "mission_id" candidate); ("reply_id", dget "reply_id" candidate);
            ("state", dget "state" candidate); ("canonical_handoff_hash", hash)] ++ semantic_hash_of candidate)
          (dset "mission_worker_replies" (PList rows') doc);
  Ok (doc, candidate).

Definition record_mission_handoff_evidence (doc : dict) (attempt_id reply_id state : string) (expected_handoff_id : pyval)
    : result (dict * dict) :=
  let refused := ValueError "mission handoff evidence transition is invalid" in
  _ ← raise_if (negb (in_strs state ["pending"; "recorded"])) refused;
  '(doc, _) ← _validated_recovery_snapshot_locked doc;
  reply_rows ← iter_rows "mission_worker_replies" doc;
  replies ← mapR validate_mission_reply_evidence_record reply_rows;
  reply ← match List.filter (fun r => is_row "attempt_id" attempt_id r && is_row "reply_id" reply_id r) replies with
          | [r] => _ ← raise_if (negb (state_is "validated" r)) (ValueError "mission handoff reply authority is invalid"); Ok r
          | _ => Err (ValueError "mission handoff reply authority is invalid")
          end;
  rows ← iter_rows "mission_handoffs" doc;
  handoffs ← mapR validate_mission_handoff_evidence_record rows;
  '(candidate, rows') ←
    match attempts_with (PStr attempt_id) handoffs with
    | [] =>
        _ ← raise_if (negb (String.eqb state "pending") || negb (Attempt.is_none expected_handoff_id)) refused;
        candidate ← validate_mission_handoff_evidence_record
                      (PDict ([("mission_id", dget "mission_id" reply); ("attempt_id", PStr attempt_id);
                               ("handoff_id", PStr (ew_handoff w)); ("reply_id", PStr reply_id); ("state", PStr "pending");
                               ("canonical_handoff", dget "canonical_handoff" reply)] ++ semantic_hash_of reply));
        Ok (candidate, rows ++ [PDict candidate])
    | [prior] =>
        _ ← raise_if (negb (py_eq expected_handoff_id (dget "handoff_id" prior)) || negb (is_row "reply_id" reply_id prior)
                      || negb (state_is "pending" prior) || negb (String.eqb state "recorded")) refused;
        candidate ← validate_mission_handoff_evidence_record (PDict (dset "state" (PStr "recorded") prior));
        _ ← raise_if (negb (same_field "canonical_handoff" candidate reply))
                     (ValueError "mission handoff evidence content drift");
        Ok (candidate, put_record attempt_id candidate rows)
    | _ => Err (ValueError "duplicate durable recovery handoff evidence")
    end;
  hash ← canonical_hash_of candidate;
  doc ← ev_audit "mission_handoff_evidence_recorded"
          ([("attempt_id", PStr attempt_id); ("handoff_id", dget "handoff_id" candidate);
            ("mission_id", dget "mission_id" candidate); ("reply_id", PStr reply_id); ("state", dget "state" candidate);
            ("canonical_handoff_hash", hash)] ++ semantic_hash_of candidate)
          (dset "mission_handoffs" (PList rows') doc);
  Ok (doc, candidate).

Definition bind_mission_permission_evidence (doc : dict) (attempt_id permission_id : string) : result (dict * dict) :=
  '(doc, _) ← _validated_recovery_snapshot_locked doc;
  attempts ← validated_attempts doc;
  attempt ← match attempts_with (PStr attempt_id) attempts with
            | [a] => Ok a
            | _ => Err (ValueError "mission permission attempt reference is invalid")
            end;
  permission_rows ← iter_rows "permission_requests" doc;
  permissions ← mapR as_dict permission_rows;
  permission ← match List.filter (is_row "permission_id" permission_id) permissions with
               | [p] => Ok p
               | _ => Err (ValueError "mission permission request reference is invalid")
               end;
  session_rows ← iter_rows "agent_sessions" doc;
  sessions ← mapR as_dict session_rows;
  _ ← match List.filter (same_field "session_id" permission) sessions with
      | [s] => raise_if (negb (same_field "agent_id" s attempt)) (ValueError "mission permission agent scope mismatch")
      | _ => Err (ValueError "mission permission agent scope mismatch")
      end;
  rows ← iter_rows "mission_permission_bindings" doc;
  bindings ← mapR validate_mission_permission_binding rows;
  _ ← raise_if (existsb (is_row "permission_id" permission_id) bindings)
               (ValueError "duplicate durable recovery permission binding");
  candidate ← validate_mission_permission_binding
                (PDict [("mission_id", dget "mission_id" attempt); ("attempt_id", PStr attempt_id);
                        ("permission_id", PStr permission_id)]);
  doc ← ev_audit "mission_permission_bound" candidate
          (dset "mission_permission_bindings" (PList (rows ++ [PDict candidate])) doc);
  Ok (doc, candidate).

(** *** A permission somebody waits for

    A live waiter of this daemon: the Mission, which a restart would have to
    call ambiguous, waits for a human. *)
Definition live_authority (authority : dict) (daemon_instance_id : string) : result (string * string * string) :=
  let invalid := ValueError "live permission recovery authority is invalid" in
  _ ← raise_if (negb (keys_are ["permission_id"; "attempt_id"; "session_id"; "generation"] authority)) invalid;
  match dget "permission_id" authority, dget "attempt_id" authority, dget "session_id" authority with
  | PStr p, PStr a, PStr s =>
      _ ← raise_if (negb (token_form "prm_" p) || negb (attempt_id_form a) || String.eqb s ""
                    || negb (py_eq (dget "generation" authority) (PInt 1)) || String.eqb daemon_instance_id "") invalid;
      Ok (p, a, s)
  | _, _, _ => Err invalid
  end.
Definition get_rows (k : string) (doc : dict) : result (list pyval) :=
  iter_table (match dlookup k doc with Some v => v | None => PList [] end).

Definition live_lineage_invalid : exn := ValueError "live permission recovery lineage is invalid".
Definition live_lineage (doc : dict) (permission_id attempt_id session_id : string) : result (dict * dict) :=
  permission_rows ← get_rows "permission_requests" doc;
  let permissions := GovernanceStore.rows_with "permission_id" permission_id permission_rows in
  binding_rows ← get_rows "mission_permission_bindings" doc;
  bindings ← mapR (validate_mission_permission_binding ∘ PDict)
                  (List.filter (is_row "attempt_id" attempt_id)
                     (GovernanceStore.rows_with "permission_id" permission_id binding_rows));
  attempt_rows ← get_rows "mission_attempts" doc;
  attempts ← mapR (_validate_mission_attempt_record ∘ PDict) (GovernanceStore.rows_with "attempt_id" attempt_id attempt_rows);
  session_rows ← get_rows "agent_sessions" doc;
  sessions ← mapR (_validate_agent_session_record ∘ PDict) (GovernanceStore.rows_with "session_id" session_id session_rows);
  match permissions, bindings, attempts with
  | [p], [b], [a] =>
      permission ← _validate_permission_record (PDict p);
      _ ← raise_if (negb (is_row "session_id" session_id permission) || negb (same_field "mission_id" b a)
                    || negb (is_row "configured_transport" "acp" a) || negb (state_in ["submitted"; "running"] a)
                    || negb match sessions with [s] => same_field "agent_id" s a | _ => false end) live_lineage_invalid;
      Ok (permission, a)
  | _, _, _ => Err live_lineage_invalid
  end.

Definition record_live_permission_recovery (doc authority : dict) (daemon_instance_id : string) : result (dict * dict) :=
  '(permission_id, attempt_id, session_id) ← live_authority authority daemon_instance_id;
  _ ← match dlookup "daemon_runtime" doc with
      | Some (PDict r) => raise_if (negb (is_row "instance_id" daemon_instance_id r))
                                   (ValueError "live permission recovery daemon authority drift")
      | _ => Err (ValueError "live permission recovery daemon authority drift")
      end;
  '(permission, attempt) ← live_lineage doc permission_id attempt_id session_id;
  states ← _validate_protocol_transition_history doc;
  let current := match states !! (PermissionE, permission_id) with Some s => PStr s | None => dget "status" permission end in
  _ ← raise_if (negb (py_eq current (PStr "pending"))) (ValueError "live permission recovery is not pending");
  let doc := ensure_all ["protocol_state_transitions"; "agent_sessions"; "protocol_turns"; "permission_requests"] doc in
  let mission_id := py_str (dget "mission_id" attempt) in
  facts ← recovery_facts_from_persisted_state doc (PStr mission_id);
  persisted_only ← reconcile_gate facts;
  _ ← raise_if (negb (bool_decide (rf_attempt_id facts = Some attempt_id)) || negb (eqd (rf_permission facts) PermPending)
                || negb (eqd (rd_class persisted_only) CAmbiguous)
                || negb (String.eqb (rd_reason persisted_only) "ACP Worker connection was lost across daemon restart"))
               (ValueError "live permission recovery state is invalid");
  live ← new_decision {| rd_class := WaitingHuman; rd_reason := "Worker permission is pending"; rd_mission_id := mission_id;
                         rd_attempt_id := Some attempt_id; rd_next := None |};
  record ← validate_recovery_record (PDict (decision_record live (ew_now w)));
  let doc := ensure_all ["recovery_decisions"] doc in
  decisions ← typed_table "recovery_decisions" (ValueError "live permission recovery decisions are invalid") doc;
  validated ← mapR validate_recovery_record decisions;
  doc ← ev_audit "live_permission_recovery_projected"
          [("mission_id", PStr mission_id); ("attempt_id", PStr attempt_id); ("permission_id", PStr permission_id);
           ("daemon_instance_id", PStr daemon_instance_id)]
          (dset "recovery_decisions"
             (dict_rows (List.filter (fun d => negb (is_row "mission_id" mission_id d)) validated ++ [record])) doc);
  Ok (doc, record).
End snapshot.

(** ** Laws *)

Section laws.
Context {env : LeaseEnv} {ft : FloatText} {lim : RecursionLimits} {repr : PyRepr}.
Variable w : evidence_world.
Implicit Types (doc : dict) (v : recovery_view).

#[local] Notation source := (sw_journal (ew_store w)).

Lemma typed_table_Ok k e doc l : typed_table k e doc = Ok l <-> rows_of k doc = PList l.
Proof. unfold typed_table, as_rows. destruct (rows_of k doc); split; naive_solver. Qed.

Lemma check_ledger_rows doc doc' p k : check_ledger doc = Ok (doc', p) -> rows_of k doc' = rows_of k doc.
Proof.
  unfold check_ledger. intros (d & Hd & H)%bind_Ok. repeat apply bind_Ok in H as (? & _ & H). injection H as <- _.
  by apply identities_rows.
Qed.

(** What a valid snapshot says. *)
Record snapshot_valid (doc doc' : dict) (v : recovery_view) : Prop := {
  sv_rows k : rows_of k doc' = rows_of k doc;
  sv_missions : exists rows ids, rows_of "missions" doc = PList rows /\ vw_missions v = dicts_of rows
                  /\ mapR check_mission_row rows = Ok ids /\ NoDup ids;
  sv_attempts : exists rows, rows_of "mission_attempts" doc = PList rows /\ mapR _validate_mission_attempt_record rows = Ok (vw_attempts v)
                  /\ _require_unique_mission_attempt_lineage (vw_attempts v) = Ok tt;
  sv_claims : _protocol_admission_claim_history source (event_outbox doc) (vw_attempts v) = Ok (vw_claims v);
  sv_facts : exists evidence, mapR (check_mission_facts doc' (vw_attempts v) evidence) (vw_missions v) = Ok (const tt <$> vw_missions v)
}.

Lemma mapR_all_unit {A} (f : A -> result unit) l us : mapR f l = Ok us -> mapR f l = Ok (const tt <$> l).
Proof.
  intros H. rewrite H. f_equal. apply mapR_Ok in H. induction H as [|x [] l l' _ _ IH]; [done|]. cbn. by rewrite IH.
Qed.

Lemma event_outbox_rows doc : event_outbox doc = rows_of "protocol_event_outbox" doc.
Proof. done. Qed.

Lemma recovery_view_Ok doc doc' v : recovery_view_of w doc = Ok (doc', v) -> snapshot_valid doc doc' v.
Proof.
  unfold recovery_view_of. set (d0 := ensure_all EVIDENCE_TABLES doc).
  assert (H0 : forall k, rows_of k d0 = rows_of k doc) by (intros k; apply rows_ensure_all). clearbody d0. cbv zeta.
  intros (missions & Hm & H)%bind_Ok. apply bind_Ok in H as (attempts_raw & Ha & H).
  do 5 apply bind_Ok in H as (? & _ & H). apply bind_Ok in H as (ids & Hids & H). apply bind_Ok in H as ([] & Hnd & H).
  do 5 apply bind_Ok in H as (? & _ & H). apply bind_Ok in H as (attempts & Hat & H). apply bind_Ok in H as ([] & Hun & H).
  apply bind_Ok in H as ([] & _ & H). apply bind_Ok in H as ([[[evidence replies] handoffs] bindings] & _ & H).
  apply bind_Ok in H as ([d1 [[sessions turns] permissions]] & Hl & H). do 4 apply bind_Ok in H as (? & _ & H).
  apply bind_Ok in H as (d2 & Hc & H). apply bind_Ok in H as (claims & Hcl & H). apply bind_Ok in H as (us & Hf & H).
  injection H as <- <-. pose proof (check_ledger_rows _ _ _ "missions" Hl) as _.
  assert (Hrows : forall k, rows_of k d2 = rows_of k doc).
  { intros k. by rewrite (collections_rows _ _ _ Hc), (check_ledger_rows _ _ _ k Hl), H0. }
  apply typed_table_Ok in Hm, Ha. rewrite H0 in Hm, Ha.
  split; cbn [vw_missions vw_attempts vw_claims].
  - done.
  - exists missions, ids. split_and!; try done. unfold distinct_texts in Hnd. by apply raise_if_Ok, negb_false_iff, bool_decide_eq_true in Hnd.
  - by exists attempts_raw.
  - by rewrite event_outbox_rows, H0 in Hcl.
  - eexists. by eapply mapR_all_unit.
Qed.

Lemma snapshot_locked_Ok doc doc' token : _validated_recovery_snapshot_locked w doc = Ok (doc', token) ->
  exists v, recovery_view_of w doc = Ok (doc', v).
Proof.
  unfold _validated_recovery_snapshot_locked. intros ([d v] & Hv & H)%bind_Ok. apply bind_Ok in H as (t & _ & [= <- _]). by exists v.
Qed.

(** A record that refers to an attempt is of the attempt's Mission. *)
Lemma attempt_reference_Ok attempts e item : check_attempt_reference attempts e item = Ok tt ->
  exists a, a ∈ attempts /\ py_eq (dget "attempt_id" a) (dget "attempt_id" item) = true /\ same_field "mission_id" a item = true.
Proof.
  unfold check_attempt_reference, attempt_with_id. destruct (attempts_with _ attempts) as [|a l] eqn:E; [done|]. cbn [head].
  intros Hm%raise_if_Ok%negb_false_iff. assert (a ∈ attempts_with (dget "attempt_id" item) attempts) as Hin by (rewrite E; left).
  apply list_elem_of_In, filter_In in Hin as [Hin Ha]. exists a. split_and!; [by apply list_elem_of_In|done..].
Qed.

(** The replies of a valid snapshot refer to its attempts. *)
Lemma view_replies doc doc' v : recovery_view_of w doc = Ok (doc', v) ->
  exists rows, rows_of "mission_worker_replies" doc = PList rows /\ mapR validate_mission_reply_evidence_record rows = Ok (vw_replies v)
    /\ Forall (fun r => exists a, a ∈ vw_attempts v /\ py_eq (dget "attempt_id" a) (dget "attempt_id" r) = true
                                /\ same_field "mission_id" a r = true) (vw_replies v).
Proof.
  unfold recovery_view_of. set (d0 := ensure_all EVIDENCE_TABLES doc).
  assert (H0 : forall k, rows_of k d0 = rows_of k doc) by (intros k; apply rows_ensure_all). clearbody d0. cbv zeta.
  intros (missions & _ & H)%bind_Ok. do 2 apply bind_Ok in H as (? & _ & H). apply bind_Ok in H as (replies_raw & Hr & H).
  do 10 apply bind_Ok in H as (? & _ & H). apply bind_Ok in H as (attempts & _ & H). do 2 apply bind_Ok in H as (? & _ & H).
  apply bind_Ok in H as ([[[evidence replies] handoffs] bindings] & He & H).
  apply bind_Ok in H as ([d1 [[sessions turns] permissions]] & _ & H). do 7 apply bind_Ok in H as (? & _ & H). injection H as _ <-.
  apply typed_table_Ok in Hr. rewrite H0 in Hr. exists replies_raw. cbn [vw_replies vw_attempts]. split; [done|].
  unfold check_evidence in He. do 3 apply bind_Ok in He as (? & _ & He). apply bind_Ok in He as (l & Hl & He).
  do 2 apply bind_Ok in He as (? & _ & He). apply bind_Ok in He as (u & Hc & He). do 4 apply bind_Ok in He as (? & _ & He).
  injection He as <- <- <- <-. split; [done|]. unfold check_collection in Hc. apply bind_Ok in Hc as (? & _ & Hc).
  apply bind_Ok in Hc as (us & Hc & _). apply mapR_Ok in Hc. apply Forall_forall. intros r [i Hi]%list_elem_of_lookup.
  destruct (Forall2_lookup_l _ _ _ _ _ Hc Hi) as ([] & _ & Hr'). by eapply attempt_reference_Ok.
Qed.

(** A valid snapshot has a coherent admission history. *)
Lemma snapshot_coherent doc doc' v : snapshot_valid doc doc' v ->
  exists outbox records, rows_of "protocol_event_outbox" doc = PList outbox
    /\ valid_history source outbox (vw_attempts v) records (vw_claims v).
Proof.
  intros [_ _ _ Hc _]. rewrite event_outbox_rows in Hc.
  destruct (rows_of "protocol_event_outbox" doc) as [| | | | |outbox| |] eqn:E; try done.
  apply valid_history_iff in Hc as (records & Hv). by exists outbox, records.
Qed.

Lemma coherent_intro doc rows attempts outbox records h : rows_of "mission_attempts" doc = PList rows ->
  mapR _validate_mission_attempt_record rows = Ok attempts -> _require_unique_mission_attempt_lineage attempts = Ok tt ->
  rows_of "protocol_event_outbox" doc = PList outbox -> valid_history source outbox attempts records h ->
  coherent source doc attempts records.
Proof.
  intros Hr Hv Hu Ho Hh. split; [|split].
  - exists rows. unfold load_attempts. change (attempts_table doc) with (rows_of "mission_attempts" doc). rewrite Hr, Hv. cbn [mbind result_bind]. by rewrite Hu.
  - rewrite event_outbox_rows, Ho. by destruct Hh.
  - exists h. rewrite event_outbox_rows, Ho. apply valid_history_iff. by exists records.
Qed.

(** Plain events under new identities, recorded one after the other. *)
Lemma quiet_events outbox attempts records h events ids outbox_ids journal_ids : valid_history source outbox attempts records h ->
  _validated_protocol_event_outbox_ids (PList outbox) = Ok outbox_ids -> _strict_protocol_journal_event_ids source = Ok journal_ids ->
  Forall2 (fun e id => event_identity e = Ok id /\ plain_event e = true) events ids ->
  NoDup ids -> (forall id, id ∈ ids -> id ∉ outbox_ids /\ id ∉ journal_ids) ->
  valid_history source (outbox ++ events) attempts (records ++ events) h.
Proof.
  intros Hv Ho Hj Hev. revert outbox records outbox_ids Hv Ho. induction Hev as [|e id events ids [Hid Hplain] _ IH];
    intros outbox records outbox_ids Hv Ho Hn Hnew; [by rewrite !app_nil_r|].
  apply NoDup_cons in Hn as [Hni Hn]. destruct (Hnew id ltac:(by left)) as [Hno Hnj].
  assert (Happ : _append_recovery_audit_locked (ew_store w) (PList outbox) e = Ok (outbox ++ [e])).
  { unfold _append_recovery_audit_locked. rewrite Hid, Ho, Hj. cbn [mbind result_bind].
    destruct (in_strs id outbox_ids) eqn:E1; [by apply in_strs_spec in E1|].
    destruct (in_strs id journal_ids) eqn:E2; [by apply in_strs_spec in E2|]. done. }
  destruct (audit_history _ _ _ _ _ _ _ Hv Hplain Happ) as [_ Hv'].
  assert (Ho' : _validated_protocol_event_outbox_ids (PList (outbox ++ [e])) = Ok (outbox_ids ++ [id])).
  { unfold event_identity in Hid. cbn in Ho |- *. apply bind_Ok in Ho as (l & Hl & ([] & Hnd & [= ->])%bind_Ok).
    assert (mapR (fun item => match validate_daemon_event_record item with
                              | Err (LeaseError _) => Err (ValueError "protocol event outbox is invalid") | r => r end)
              (outbox ++ [e]) = Ok (outbox_ids ++ [id])) as ->.
    { apply mapR_Ok, Forall2_app; [by apply mapR_Ok|]. constructor; [|constructor].
      by destruct (validate_daemon_event_record e) as [|[]]. }
    cbn [mbind result_bind]. rewrite bool_decide_true; [done|]. apply raise_if_Ok, negb_false_iff, bool_decide_eq_true in Hnd.
    apply NoDup_app. split; [done|]. split; [|apply NoDup_singleton]. by intros x Hx ->%list_elem_of_singleton. }
  specialize (IH (outbox ++ [e]) (records ++ [e]) (outbox_ids ++ [id]) Hv' Ho' Hn).
  rewrite <- !app_assoc in IH. apply IH. intros i Hi. destruct (Hnew i ltac:(by right)) as [H1 H2]. split; [|done].
  rewrite elem_of_app, list_elem_of_singleton. intros [?| ->]; done.
Qed.

(** The records of the decisions, and their events. *)
Lemma decision_records_Ok missions : forall decisions n known records events,
  decision_records w n missions known decisions = Ok (records, events) ->
  length records = length decisions
  /\ (forall i d, decisions !! i = Some d ->
        validate_recovery_record (PDict (decision_record d (ew_event w (n + i)).2)) = Ok (default [] (records !! i)))
  /\ exists ids, Forall2 (fun e id => event_identity e = Ok id /\ plain_event e = true) events ids /\ NoDup ids
       /\ forall id, id ∈ ids -> id ∉ known.
Proof.
  induction decisions as [|d decisions IH]; intros n known records events; cbn [decision_records].
  { intros [= <- <-]. split_and!; [done|by intros [|i]|]. exists []. split_and!; [constructor|constructor|by intros id ?%elem_of_nil]. }
  intros ([] & _ & H)%bind_Ok. destruct (ew_event w n) as [id now] eqn:Hw. apply bind_Ok in H as (r & Hr & H).
  apply bind_Ok in H as (eid & Heid & H). apply bind_Ok in H as ([] & Hnew & H). apply bind_Ok in H as ([rs es] & Hrest & [= <- <-]).
  destruct (IH _ _ _ _ Hrest) as (Hlen & Hrec & ids & Hids & Hn & Hk). cbn [length]. split; [by rewrite Hlen|]. split.
  - intros [|i] d'; cbn [lookup list_lookup]; [intros [= <-]; by rewrite Nat.add_0_r, Hw|]. intros Hd.
    specialize (Hrec i d' Hd). by replace (n + S i) with (S n + i) by lia.
  - exists (eid :: ids). split; [by constructor|]. apply raise_if_Ok in Hnew. split.
    + constructor; [|done]. intros Hin%Hk. apply Hin. by left.
    + intros i [->|Hi]%elem_of_cons Hin; [apply in_strs_spec in Hin; congruence|]. apply (Hk i Hi). by right.
Qed.
End laws.

(** ** Committed decisions *)

Section commits.
Context {env : LeaseEnv} {ft : FloatText} {lim : RecursionLimits} {repr : PyRepr}.
Variable w : evidence_world.

(** What a commit leaves: the decisions are those of the gate on the document it
    was made on, one for each Mission that has not ended; their records replace
    the earlier ones and everything else but the outbox is as it was; the
    admission history is coherent before and after, and each resumption agrees
    with it. *)
Record recovered (doc doc' : dict) (decisions : list RecoveryDecision) (records : list dict) (token : string) : Prop := {
  rc_view : exists ensured v, recovery_view_of w doc = Ok (ensured, v)
    /\ _recovery_authority_hash (authority_of ensured v) = Ok token
    /\ NoDup (rd_mission_id <$> decisions)
    /\ (forall id, id ∈ rd_mission_id <$> decisions
                   <-> exists m, m ∈ vw_missions v /\ ended_mission m = false /\ dget "mission_id" m = PStr id)
    /\ (forall d, d ∈ decisions -> decision_for ensured (PStr (rd_mission_id d)) = Ok d)
    /\ exists history history', coherent (sw_journal (ew_store w)) doc (vw_attempts v) history
         /\ coherent (sw_journal (ew_store w)) doc' (vw_attempts v) history'
         /\ (forall key, events_of key history' = events_of key history)
         /\ forall d t, d ∈ decisions -> rd_next d = Some t ->
              claims_allow (rd_mission_id d) (rd_attempt_id d) (vw_attempts v) history t;
  rc_records : rows_of "recovery_decisions" doc' = PList (PDict <$> records) /\ length records = length decisions
    /\ forall i d, decisions !! i = Some d ->
         exists now, validate_recovery_record (PDict (decision_record d now)) = Ok (default [] (records !! i));
  rc_other k : k <> "recovery_decisions" -> k <> "protocol_event_outbox" -> rows_of k doc' = rows_of k doc
}.

Lemma plain_not_event key e : plain_event e = true -> event_of key e = None.
Proof.
  unfold plain_event, event_of. destruct e as [| | | | | | |r]; try done. cbv zeta. intros H. split_guards.
  match goal with H1 : _ <> PRE_DISPATCH_STOPPED, H2 : claim_kind_of _ = None |- _ => rewrite ?(proj2 (String.eqb_neq _ _) H1), ?H2 end.
  repeat case_match; try done; congruence.
Qed.

Lemma plain_quiet key records events : Forall (fun e => plain_event e = true) events ->
  events_of key (records ++ events) = events_of key records.
Proof.
  intros H. unfold events_of. rewrite omap_app. assert (omap (event_of key) events = []) as ->; [|by rewrite app_nil_r].
  induction H as [|e l He _ IH]; [done|]. cbn. by rewrite (plain_not_event _ _ He).
Qed.

Lemma assoc_mapR {A} (f : string -> result A) l ps k a : mapR (fun i => x ← f i; Ok (i, x)) l = Ok ps ->
  assoc_str k ps = Some a -> f k = Ok a /\ k ∈ l.
Proof.
  intros H. apply mapR_Ok in H. induction H as [|i p l ps Hp _ IH]; [done|]. apply bind_Ok in Hp as (x & Hx & [= <-]).
  cbn [assoc_str]. destruct (String.eqb_spec k i) as [->|].
  - intros [= ->]. split; [done|by left].
  - intros Ha. destruct (IH Ha). split; [done|by right].
Qed.

Lemma view_missions_rows doc doc' v : snapshot_valid w doc doc' v -> forall rows, iter_rows "missions" doc' = Ok rows ->
  dicts_of rows = vw_missions v /\ forall m, m ∈ vw_missions v -> dget "mission_id" m = PStr (text_of (dget "mission_id" m)).
Proof.
  intros Hv rows Hrows. destruct (sv_missions _ _ _ _ Hv) as (rs & ids & Hrs & Hvm & Hids & _).
  unfold iter_rows in Hrows. rewrite (sv_rows _ _ _ _ Hv), Hrs in Hrows. injection Hrows as <-. split; [done|].
  intros m Hm. rewrite Hvm in Hm. apply elem_of_dicts_of in Hm. apply list_elem_of_lookup in Hm as [i Hi].
  apply mapR_Ok in Hids. destruct (Forall2_lookup_l _ _ _ _ _ Hids Hi) as (id & _ & Hc). cbn [check_mission_row] in Hc.
  apply bind_Ok in Hc as ([] & Hg & _). apply raise_if_Ok, orb_false_iff in Hg as [Hg%negb_false_iff _].
  by apply is_form_PStr in Hg as (s & -> & _).
Qed.

(** Committed decisions are those the gate makes on the document they are
    committed to. *)
Lemma commit_recovered doc decisions token doc' records : commit_recovery_decisions w doc decisions token = Ok (doc', records) ->
  recovered doc doc' decisions records token.
Proof.
  unfold commit_recovery_decisions. intros ([] & _ & H)%bind_Ok. apply bind_Ok in H as ([] & Hnd & H).
  apply bind_Ok in H as ([d0 tk] & Hsnap & H). apply bind_Ok in H as ([] & Htok & H).
  apply raise_if_Ok, negb_false_iff, String.eqb_eq in Htok as ->.
  apply bind_Ok in H as (rows & Hrows & H). apply bind_Ok in H as ([] & Hset & H). apply bind_Ok in H as (expected & Hexp & H).
  apply bind_Ok in H as ([] & Hin & H). do 2 apply bind_Ok in H as (? & _ & H). apply bind_Ok in H as ([? attempts] & _ & H).
  apply bind_Ok in H as (oids & Hoids & H). apply bind_Ok in H as (? & _ & H). apply bind_Ok in H as (jids & Hjids & H).
  apply bind_Ok in H as (? & _ & H). apply bind_Ok in H as ([recs events] & Hrec & H). apply bind_Ok in H as (outbox & Hout & [= <- <-]).
  apply bind_Ok in Hsnap as ([d1 v] & Hview & (tk' & Hhash & [= -> ->])%bind_Ok).
  pose proof (recovery_view_Ok _ _ _ _ Hview) as Hv. destruct (view_missions_rows _ _ _ Hv _ Hrows) as [Hms Hid].
  destruct (snapshot_coherent _ _ _ _ Hv) as (obox & history & Hobox & Hhist).
  apply raise_if_Ok, negb_false_iff, bool_decide_eq_true in Hnd.
  apply raise_if_Ok, negb_false_iff, andb_true_iff in Hset as [Hs1 Hs2]. rewrite forallb_elem in Hs1, Hs2.
  apply raise_if_Ok in Hin. rewrite existsb_elem_false in Hin.
  assert (Hout' : outbox = obox).
  { unfold as_rows in Hout. rewrite event_outbox_rows, (sv_rows _ _ _ _ Hv), Hobox in Hout. by injection Hout as <-. }
  subst obox. clear Hout. rewrite event_outbox_rows, (sv_rows _ _ _ _ Hv), Hobox in Hoids.
  destruct (decision_records_Ok _ _ _ _ _ _ _ Hrec) as (Hlen & Hrecs & ids & Hids & Hnid & Hnew).
  pose proof (quiet_events _ _ _ _ _ _ _ _ _ Hhist Hoids Hjids Hids Hnid
                (fun i Hi => proj1 (not_elem_of_app _ _ _) (Hnew i Hi))) as Hhist'.
  assert (Hdec : forall d, d ∈ decisions -> decision_for d0 (PStr (rd_mission_id d)) = Ok d).
  { intros d Hd. specialize (Hin _ Hd). apply bool_decide_eq_false in Hin. apply dec_stable in Hin.
    by apply (assoc_mapR _ _ _ _ _ Hexp) in Hin as [? _]. }
  destruct (sv_attempts _ _ _ _ Hv) as (arows & Harows & Hval & Hun).
  split.
  - exists d0, v. split; [done|]. split; [done|]. split; [done|]. split; [|split; [done|]].
    + intros id. split.
      * intros Hd%Hs1. apply in_strs_spec, list_elem_of_fmap in Hd as (m & -> & Hm).
        apply list_elem_of_In, filter_In in Hm as [Hm Hopen%negb_true_iff]. apply list_elem_of_In in Hm. rewrite Hms in Hm.
        exists m. split_and!; [done|done|by apply Hid].
      * intros (m & Hm & Hopen & Hmid). assert (in_strs id (rd_mission_id <$> decisions) = true) as Hi; [|by apply in_strs_spec in Hi].
        apply Hs2. apply list_elem_of_fmap. exists m. split; [cbn; by rewrite Hmid|].
        apply list_elem_of_In, filter_In. rewrite Hopen. split; [|done]. apply list_elem_of_In. by rewrite Hms.
    + exists history, (history ++ events). split; [by eapply coherent_intro|]. split.
      { eapply coherent_intro; [..|exact Hhist']; [|done..|]; rewrite !rows_of_dset; [|done].
        cbn. by rewrite (sv_rows _ _ _ _ Hv). }
      split; [intros key; apply plain_quiet; clear -Hids; induction Hids as [|e i l l' [_ ?] _ IH]; by constructor|].
      intros d t Hd Ht. specialize (Hdec d Hd). apply bind_Ok in Hdec as (f & Hf & Hg).
      assert (Hco : coherent (sw_journal (ew_store w)) d0 (vw_attempts v) history)
        by (eapply coherent_intro; [..|exact Hhist]; [|done..|]; by rewrite (sv_rows _ _ _ _ Hv)).
      by apply (proj2 (recovery_respects_claims _ _ _ _ _ _ _ _ Hco Hf Hg Ht)).
  - rewrite !rows_of_dset. cbn. split; [done|]. split; [done|]. intros i d Hd. eexists. by apply (Hrecs i d).
  - intros k H1 H2. rewrite !rows_of_dset. rewrite (proj2 (String.eqb_neq _ _) H1), (proj2 (String.eqb_neq _ _) H2).
    apply (sv_rows _ _ _ _ Hv).
Qed.
End commits.

(** ** Startup over the store

    The store behind the startup gate: the document and whether the scheduler
    runs.  The flushes are the other outboxes' business; they do not start the
    scheduler. *)
Record daemon_state := DaemonState { ds_doc : dict; ds_running : bool }.

Section startup.
Context {env : LeaseEnv} {ft : FloatText} {lim : RecursionLimits} {repr : PyRepr}.
Variable w : evidence_world.
Variables flush_daemon flush_conversation flush_protocol : dict -> result unit * dict.

Definition flushing (flush : dict -> result unit * dict) (s : daemon_state) : result unit * daemon_state :=
  let p := flush (ds_doc s) in (p.1, DaemonState p.2 (ds_running s)).

#[export] Instance store_recovery : RecoveryStore daemon_state := {|
  Recovery.flush_daemon_event_outbox := flushing flush_daemon;
  Recovery.flush_conversation_event_outbox := flushing flush_conversation;
  Recovery.flush_protocol_event_outbox := flushing flush_protocol;
  Recovery.load_recovery_snapshot s := (load_recovery_snapshot w (ds_doc s), s);
  Recovery.commit_recovery_decisions ds token s :=
    match commit_recovery_decisions w (ds_doc s) ds token with
    | Ok (doc, records) => (Ok records, DaemonState doc (ds_running s))
    | Err e => (Err e, s)
    end;
  Recovery.enable_scheduler s := (Ok tt, DaemonState (ds_doc s) true)
|}.

#[export] Instance store_gate : SchedulerGate daemon_state ds_running.
Proof.
  split; try done. intros ds token s. cbn. by destruct (commit_recovery_decisions w (ds_doc s) ds token) as [[]|].
Qed.

(** C15: When the daemon has started with this store, its scheduler runs on a
    document whose recovery decisions were made by the gate on that very
    document: one for each Mission that has not ended, the history of admissions
    coherent, and no decision resumes what a Worker may hold. *)
Theorem startup_resumes_safely s s' r : ds_running s = false -> reconcile_startup s = (r, s') -> ds_running s' = true ->
  let flushed := (flush_protocol (flush_conversation (flush_daemon (ds_doc s)).2).2).2 in
  exists decisions records token, r = Ok records /\ recovered w flushed (ds_doc s') decisions records token.
Proof.
  intros Hoff H Hon. destruct s as [doc0 on]. cbn in Hoff. subst on. revert H.
  unfold reconcile_startup. cbn -[commit_recovery_decisions load_recovery_snapshot startup_decisions]. unfold flushing.
  cbn -[commit_recovery_decisions load_recovery_snapshot startup_decisions].
  destruct (flush_daemon doc0) as [[[]|] d1]; [|by intros [= <- <-]].
  cbn -[commit_recovery_decisions load_recovery_snapshot startup_decisions].
  destruct (flush_conversation d1) as [[[]|] d2]; [|by intros [= <- <-]].
  cbn -[commit_recovery_decisions load_recovery_snapshot startup_decisions].
  destruct (flush_protocol d2) as [[[]|] d3]; [|by intros [= <- <-]].
  cbn -[commit_recovery_decisions load_recovery_snapshot startup_decisions].
  destruct (load_recovery_snapshot w d3) as [[state token]|]; [|by intros [= <- <-]].
  destruct (startup_decisions state) as [decisions|]; [|by intros [= <- <-]].
  destruct (commit_recovery_decisions w d3 decisions token) as [[doc records]|] eqn:E; [|by intros [= <- <-]].
  intros [= <- <-]. exists decisions, records, token. split; [done|]. by apply commit_recovered.
Qed.
End startup.

(** ** A daemon that starts *)

#[local] Existing Instance sample_env.
#[local] Existing Instance sample_limits.
#[local] Existing Instance sample_float_text.
#[local] Existing Instance sample_repr.

Definition sample_evidence_world (n : nat) : evidence_world :=
  EvidenceWorld (sample_world n) (fun i => ("evt_" +:+ pretty (n * 100 + i), instant_text 5)) (fun _ _ => Err (ValueError "no plan"))
    ("rpl_" +:+ pretty n) ("hnd_" +:+ pretty n) (instant_text 5).
Definition startup_doc : dict := sample_state waiting_attempt.
Definition unflushed (doc : dict) : result unit * dict := (Ok tt, doc).

Definition started : result (list dict) * daemon_state :=
  @reconcile_startup _ _ _ _ (store_recovery (sample_evidence_world 1) unflushed unflushed unflushed) (DaemonState startup_doc false).

(** It decides that the prepared attempt is to be dispatched. *)
Lemma startup_resumes_safely_witness : exists s' r,
  @reconcile_startup _ _ _ _ (store_recovery (sample_evidence_world 1) unflushed unflushed unflushed) (DaemonState startup_doc false) = (r, s')
  /\ exists decisions records token, r = Ok records /\ map (dget "next_transition") records = [PStr "dispatch_prepared"]
       /\ recovered (sample_evidence_world 1) startup_doc (ds_doc s') decisions records token.
Proof.
  assert (Hon : ds_running started.2 = true) by (by vm_compute).
  assert (Hdec : match started.1 with Ok l => map (dget "next_transition") l | Err _ => [] end = [PStr "dispatch_prepared"]) by (by vm_compute).
  exists started.2, started.1. split; [exact (surjective_pairing started)|].
  destruct (startup_resumes_safely (sample_evidence_world 1) unflushed unflushed unflushed (DaemonState startup_doc false) started.2 started.1
              eq_refl (surjective_pairing started) Hon) as (ds & records & token & Hr & H).
  exists ds, records, token. split; [exact Hr|]. split; [by rewrite Hr in Hdec|exact H].
Defined.
