(* ===== verification/AcpPermission.v ===== *)
(** * ACP permissions ([state.py])

    A Worker on the structured transport asks for a permission in the middle of
    a turn.  The permission, the update that carries it and the turn's move to
    [waiting_permission] are saved together; in a daemon the permission is bound
    to the attempt that is running.  When a human has approved it, the effect is
    authorised at most once, after the frozen scope, the permission policy and
    the ownership of the Worker are rebuilt from the saved document.

    A path is the parsed [Path]; [ax_resolve] is the file system's resolved form
    of one, or what [resolve] raises, [ax_user_home] the [os.path.expanduser] of
    a first component such as [~] or [~user]. *)
From S2P Require Import Prelude PyStr PyVal ReviewVerdict ReviewGroup Json Protocol Scheduler Lease Store Conversation Attempt Snapshot AttemptStore Recovery.
From S2P Require Import AgentProtocol Governance GovernanceStore EvidenceStore.

Definition MAX_ACP_TURN_PAYLOAD_BYTES : Z := 2097152.
Definition MAX_ACP_UPDATES_PER_TURN : nat := 256.
Definition MAX_ACP_TERMINAL_UPDATE_BYTES : Z := 512.

(** What [new_id] and [utc_now] return, for each record and event. *)
Record acp_stamps := AcpStamps {
  ap_permission : string * string; ap_update : string * string; ap_transition : string * string;
  ap_event : nat -> string * string
}.
(** What is saved together. *)
Record staged := Staged { sg_permission : dict; sg_update : dict; sg_transition : dict; sg_events : list dict }.

Section staging.
Context {ft : FloatText}.

(** [len(json.dumps(payload, ensure_ascii=False, sort_keys=True).encode("utf-8"))] *)
Definition payload_size (v : pyval) : result Z := text ← json_dumps_spaced v; Ok (Z.of_nat (String.length text)).
Definition update_size (update : dict) : result Z :=
  match dlookup "payload" update with Some p => payload_size p | None => Err (KeyError "payload") end.
Definition turn_updates (turn_id : pyval) (rows : list pyval) : list dict :=
  List.filter (fun u => py_eq (dget "turn_id" u) turn_id) (dicts_of rows).
Definition sum_sizes (updates : list dict) : result Z := sizes ← mapR update_size updates; Ok (foldl Z.add 0%Z sizes).

Definition permission_payload (permission : dict) (tool_call_id risk : pyval) : dict :=
  [("permission_id", dget "permission_id" permission); ("tool_call_id", tool_call_id); ("risk", risk)].
Definition event_at (st : acp_stamps) (n : nat) (event_type : string) (payload : dict) : dict :=
  [("event_id", PStr (ap_event st n).1); ("event_type", PStr event_type); ("created_at", PStr (ap_event st n).2);
   ("payload", PDict payload)].

(** The turn is not over its bounds, with room for its last update. *)
Definition check_turn_bounds (updates : list dict) (payload : dict) (sequence : pyval) : result unit :=
  _ ← raise_if (existsb (fun u => py_eq (dget "sequence" u) sequence) updates) (ValueError "duplicate transport update sequence");
  _ ← raise_if (negb (py_eq sequence (PInt (Z.of_nat (length updates)))))
               (ValueError "ACP transport update sequence must be contiguous");
  existing_bytes ← sum_sizes updates;
  payload_bytes ← payload_size (PDict payload);
  _ ← raise_if (MAX_ACP_TURN_PAYLOAD_BYTES <? existing_bytes + payload_bytes + MAX_ACP_TERMINAL_UPDATE_BYTES)%Z
               (ValueError "ACP turn payload exceeds 2097152 bytes");
  raise_if (MAX_ACP_UPDATES_PER_TURN <? length updates + 2) (ValueError "ACP turn updates exceed 256").

(** Everything [_stage_acp_permission_pending_locked] decides before it writes;
    the document with its missing tables. *)
Definition stage_records (st : acp_stamps) (doc : dict) (session_id turn_id sequence tool_name target risk tool_call_id : pyval)
    : result (dict * staged) :=
  '(doc, _) ← _validated_protocol_turn doc session_id turn_id;
  states ← _validate_protocol_transition_history doc;
  turn ← _unique_protocol_record (rows_of "protocol_turns" doc) "turn_id" turn_id (duplicate_error TurnE);
  let current := match states !! (TurnE, text_of turn_id) with Some s => PStr s | None => dget "state" turn end in
  waiting ← in_str_set current ["submitted"; "streaming"];
  _ ← raise_if (negb waiting) (ValueError "ACP permission requires a submitted or streaming turn");
  permission ← build_permission_request (ap_permission st).1 (ap_permission st).2 session_id turn_id tool_name target risk;
  let payload := permission_payload permission tool_call_id risk in
  rows ← py_iter (rows_of "transport_updates" doc);
  _ ← check_turn_bounds (turn_updates turn_id rows) payload sequence;
  update ← build_transport_update (ap_update st).1 (ap_update st).2 session_id turn_id sequence (PStr "permission_request")
             (PDict payload);
  transition ← build_protocol_transition (ap_transition st).1 (ap_transition st).2 (PStr "turn") turn_id current
                 (PStr "waiting_permission") (PStr "permission_requested") (PDict []);
  permissions ← py_iter (rows_of "permission_requests" doc);
  _ ← fresh_identity "permission_id" (dget "permission_id" permission) (duplicate_error PermissionE) permissions;
  Ok (doc, Staged permission update transition
             [event_at st 0 "permission_request_recorded"
                [("permission_id", dget "permission_id" permission); ("session_id", session_id); ("turn_id", turn_id);
                 ("tool_name", tool_name); ("risk", risk)];
              event_at st 1 "transport_update_recorded"
                [("update_id", dget "update_id" update); ("session_id", session_id); ("turn_id", turn_id);
                 ("sequence", sequence); ("kind", PStr "permission_request")];
              event_at st 2 "protocol_state_transition_recorded"
                (pick ["transition_id"; "entity_type"; "entity_id"; "from_state"; "to_state"; "reason"] transition)]).

Definition append_staged (doc : dict) (s : staged) : result dict :=
  doc ← append_row "permission_requests" (sg_permission s) doc;
  doc ← append_row "transport_updates" (sg_update s) doc;
  doc ← append_row "protocol_state_transitions" (sg_transition s) doc;
  append_rows "protocol_event_outbox" (sg_events s) doc.

Fixpoint append_events (events : list dict) : io unit :=
  match events with
  | [] => io_ret (Ok tt)
  | e :: events => let* _ := io_write (AppendEvent e) in append_events events
  end.

(** The events that reached the journal leave the outbox. *)
Definition without_events (events : list dict) (doc : dict) : result dict :=
  match rows_of "protocol_event_outbox" doc with
  | PList items =>
      rest ← filterR (fun item => d ← as_dict item;
                                  if hashable (dget "event_id" d)
                                  then Ok (negb (in_list (dget "event_id" d) (dget "event_id" <$> events)))
                                  else Err (TypeError "unhashable type")) items;
      Ok (dset "protocol_event_outbox" (PList rest) doc)
  | _ => Err AttributeError
  end.

Definition record_acp_permission_pending (d : disk) (st : acp_stamps)
    (session_id turn_id sequence tool_name target risk tool_call_id : pyval) : io staged :=
  let* (doc, s) := io_ret (stage_records st (d_doc d) session_id turn_id sequence tool_name target risk tool_call_id) in
  let* doc := _flush_protocol_event_outbox_locked (d_journal d) doc in
  let* doc := io_ret (append_staged doc s) in
  let* _ := io_write (SaveDoc doc) in
  let* _ := append_events (sg_events s) in
  let* doc := io_ret (without_events (sg_events s) doc) in
  let* _ := io_write (SaveDoc doc) in
  io_ret (Ok s).
End staging.

(** ** Paths ([pathlib], on POSIX) *)

(** [Path(s)]: its root, a slash, two slashes or nothing, and its components
    without the empty ones and the dots. *)
Record py_path := PyPath { pp_root : string; pp_parts : list string }.
#[export] Instance py_path_eq_dec : EqDecision py_path.
Proof. solve_decision. Defined.
Fixpoint components (cur : string) (cs : list string) : list string :=
  match cs with
  | [] => [cur]
  | c :: cs => if String.eqb c "/" then cur :: components "" cs else components (cur +:+ c) cs
  end.
Definition path_of (s : string) : py_path :=
  PyPath (if startswith "///" s then "/" else if startswith "//" s then "//" else if startswith "/" s then "/" else "")
         (List.filter (fun c => nonempty c && negb (String.eqb c ".")) (components "" (chars s))).
Definition is_absolute (p : py_path) : bool := nonempty (pp_root p).
(** [str(p)], [p.as_posix()] *)
Definition as_posix (p : py_path) : string :=
  if nonempty (pp_root p) || match pp_parts p with [] => false | _ => true end then pp_root p +:+ join "/" (pp_parts p) else ".".
(** [root / p], for a relative [p] *)
Definition joined (root p : py_path) : py_path := PyPath (pp_root root) (pp_parts root ++ pp_parts p).

Fixpoint drop_parts (root l : list string) : option (list string) :=
  match root, l with
  | [], l => Some l
  | r :: root, c :: l => if String.eqb r c then drop_parts root l else None
  | _ :: _, [] => None
  end.
(** [p.relative_to(root)] *)
Definition relative_to (p root : py_path) : result py_path :=
  if String.eqb (pp_root p) (pp_root root) then
    match drop_parts (pp_parts root) (pp_parts p) with
    | Some rel => Ok (PyPath "" rel)
    | None => Err (ValueError "is not in the subpath of")
    end
  else Err (ValueError "is not in the subpath of").

Lemma drop_parts_Some root l rel : drop_parts root l = Some rel <-> l = root ++ rel.
Proof.
  revert l; induction root as [|r root IH]; intros l; cbn [drop_parts app]; [naive_solver|].
  destruct l as [|c l]; [naive_solver|]. destruct (String.eqb_spec r c) as [->|Hne]; [|naive_solver]. rewrite IH. naive_solver.
Qed.
Lemma relative_to_Ok p root rel : relative_to p root = Ok rel ->
  pp_root rel = "" /\ pp_root p = pp_root root /\ pp_parts p = pp_parts root ++ pp_parts rel.
Proof.
  unfold relative_to. destruct (String.eqb_spec (pp_root p) (pp_root root)) as [E|]; [|done].
  destruct (drop_parts _ _) as [l|] eqn:Hd; [|done]. intros [= <-]. by apply drop_parts_Some in Hd.
Qed.

(** ** Permissions of a Mission's attempt *)

(** The world of a daemon operation: the store's, the stamps, and the file system. *)
Record acp_world := AcpWorld {
  ax_evidence : evidence_world;
  ax_stamps : acp_stamps;
  ax_root : py_path;
  ax_resolve : py_path -> result py_path;
  ax_user_home : string -> string;
  ax_consumption : string * string
}.

Section mission.
Context {env : LeaseEnv} {ft : FloatText} {lim : RecursionLimits} {repr : PyRepr}.
Variable w : acp_world.

Definition one_of (e : exn) (l : list dict) : result dict := match l with [d] => Ok d | _ => Err e end.
Definition key_in (k : string) (l : list string) (d : dict) : bool := is_form (fun s => in_strs s l) (dget k d).
Definition current_state (e : protocol_entity) (id default_state : pyval) (states : gmap reference string) : pyval :=
  match id with
  | PStr i => match states !! (e, i) with Some s => PStr s | None => default_state end
  | _ => default_state
  end.
Definition ACTIVE_CLAIMED : list string := ["admitting"; "submitted"; "running"].
Definition MISSION_TOOLS : list string := ["read"; "search"; "edit"; "delete"; "move"; "execute"].

(** [snapshot["workers"]], [snapshot["mission"]["steps"]] of a validated snapshot *)
Definition frozen_workers (agent_id : pyval) (snapshot : dict) : list dict :=
  match dget "workers" snapshot with
  | PList l => List.filter (fun x => py_eq (dget "agent_id" x) agent_id) (dicts_of l)
  | _ => []
  end.
Definition frozen_steps_of (attempt snapshot : dict) : list dict :=
  List.filter (fun s => same_field "step_id" s attempt && same_field "agent_id" s attempt) (dicts_of (frozen_steps snapshot)).
Definition frozen_mission_of (snapshot : dict) : dict := match dget "mission" snapshot with PDict m => m | _ => [] end.

(** The attempt, claimed and under way on the structured transport. *)
Definition claimed_acp_attempt (doc : dict) (attempt_id : string) : result dict :=
  attempts ← validated_attempts doc;
  attempt ← one_of (ValueError "mission permission attempt reference is invalid") (attempts_with (PStr attempt_id) attempts);
  _ ← raise_if (negb (is_row "configured_transport" "acp" attempt) || negb (key_in "state" ACTIVE_CLAIMED attempt)
                || negb (is_form nonempty (dget "admission_claim_id" attempt)))
               (ValueError "mission permission requires an active claimed ACP attempt");
  Ok attempt.

(** The attempt's Worker in the Mission's frozen scope. *)
Definition frozen_acp_worker (doc attempt : dict) : result dict :=
  rows ← iter_rows "missions" doc;
  mission ← one_of (ValueError "mission permission Mission is invalid")
              (List.filter (same_field "mission_id" attempt) (dicts_of rows));
  snapshot ← validate_execution_snapshot (dget "execution_snapshot" mission);
  _ ← raise_if (negb (py_eq (dget "snapshot_hash" mission) (dget "execution_hash" snapshot)))
               (ValueError "mission permission snapshot drift");
  let bad := ValueError "mission permission frozen ACP scope is invalid" in
  match frozen_workers (dget "agent_id" attempt) snapshot, frozen_steps_of attempt snapshot with
  | [worker], [_] =>
      _ ← raise_if (negb (is_row "configured_transport" "acp" worker) || py_eq (dget "provider" worker) (PStr "")) bad;
      root ← ax_resolve w (ax_root w);
      scope ← canonical_snapshot_hash (PDict [("project_root", PStr (as_posix root))]);
      _ ← raise_if (negb (py_eq (dget "project_scope_hash" (frozen_mission_of snapshot)) (PStr scope))) bad;
      Ok worker
  | _, _ => Err bad
  end.

(** The session is the Worker's, structured, in the project and busy. *)
Definition busy_session (doc attempt worker : dict) (session_id : string) : result (dict * gmap reference string) :=
  let mismatch := ValueError "mission permission agent scope mismatch" in
  rows ← iter_rows "agent_sessions" doc;
  all_rows ← mapR as_dict rows;
  sessions ← mapR (_validate_agent_session_record ∘ PDict) (List.filter (is_row "session_id" session_id) all_rows);
  session ← one_of mismatch sessions;
  states ← _validate_protocol_transition_history doc;
  let caps := match dget "capabilities" session with PDict c => c | _ => [] end in
  _ ← raise_if (negb (same_field "agent_id" session attempt) || negb (same_field "provider" session worker)
                || negb (is_row "transport" "acp-adapter" session)) mismatch;
  workspace ← ax_resolve w (path_of (text_of (dget "workspace" session)));
  root ← ax_resolve w (ax_root w);
  _ ← raise_if (negb (bool_decide (workspace = root))
                || Attempt.is_none (dget "native_session_id" session)
                || negb (forallb (fun name => Recovery.is_true (dget name caps)) _STRUCTURED)
                || negb (is_false (dget "observable_terminal" caps))
                || negb (py_eq (current_state SessionE (PStr session_id) (dget "state" session) states) (PStr "busy"))) mismatch;
  Ok (session, states).

(** The turn is the prompt the attempt was dispatched with. *)
Definition dispatch_turn (doc attempt : dict) (session_id turn_id : string) (states : gmap reference string) : result unit :=
  let bad := ValueError "mission permission turn lineage is invalid" in
  rows ← iter_rows "protocol_turns" doc;
  turn ← one_of bad (GovernanceStore.rows_with "turn_id" turn_id rows);
  let state := current_state TurnE (PStr turn_id) (dget "state" turn) states in
  _ ← raise_if (negb (is_row "session_id" session_id turn) || negb (is_row "kind" "prompt" turn)
                || negb (py_eq (dget "message_id" turn) (dget "dispatch_key" attempt))) bad;
  live ← in_str_set state ["submitted"; "streaming"; "waiting_permission"];
  raise_if (negb live) bad.

Definition bounded_text (limit : nat) (s : string) : bool := negb (blank s) && (String.length s <=? limit).

(** The permission was recorded before, with exactly these fields: the records
    are found again. *)
Definition retry_records (doc : dict) (bindings : list dict) (attempt_id session_id turn_id : string)
    (tool_name target risk tool_call_id : string) (update : dict) : result (dict * dict * dict * dict) :=
  let conflict := ValueError "mission ACP permission retry conflict" in
  let payload := match dget "payload" update with PDict p => p | _ => [] end in
  let permission_id := dget "permission_id" payload in
  permission_rows ← iter_rows "permission_requests" doc;
  let permissions := List.filter (fun p => py_eq (dget "permission_id" p) permission_id) (dicts_of permission_rows) in
  let retry_bindings := List.filter (fun b => is_row "attempt_id" attempt_id b && py_eq (dget "permission_id" b) permission_id) bindings in
  transition_rows ← iter_rows "protocol_state_transitions" doc;
  let transitions := List.filter (fun t => is_row "entity_type" "turn" t && is_row "entity_id" turn_id t
                                   && is_row "to_state" "waiting_permission" t && is_row "reason" "permission_requested" t)
                       (dicts_of transition_rows) in
  match is_row "kind" "permission_request" update && is_dict (dget "payload" update)
        && is_row "tool_call_id" tool_call_id payload && is_row "risk" risk payload, permissions, retry_bindings, transitions with
  | true, [p], [b], [t] =>
      _ ← raise_if (negb (is_row "session_id" session_id p && is_row "turn_id" turn_id p && is_row "tool_name" tool_name p
                          && is_row "target" target p && is_row "risk" risk p)) conflict;
      Ok (p, update, t, b)
  | _, _, _, _ => Err conflict
  end.

Definition record_mission_acp_permission_pending (saved_doc : dict) (attempt_id session_id turn_id : string) (sequence : Z)
    (tool_name target risk tool_call_id : string) : result (dict * (dict * dict * dict * dict)) :=
  '(doc, _) ← _validated_recovery_snapshot_locked (ax_evidence w) saved_doc;
  attempt ← claimed_acp_attempt doc attempt_id;
  worker ← frozen_acp_worker doc attempt;
  '(session, states) ← busy_session doc attempt worker session_id;
  _ ← dispatch_turn doc attempt session_id turn_id states;
  _ ← raise_if (negb (in_strs tool_name MISSION_TOOLS) || negb (bounded_text 64 tool_name) || negb (bounded_text 1024 target)
                || negb (bounded_text 64 risk) || negb (bounded_text 256 tool_call_id))
               (ValueError "mission ACP permission fields are invalid");
  binding_rows ← iter_rows "mission_permission_bindings" doc;
  bindings ← mapR validate_mission_permission_binding binding_rows;
  update_rows ← iter_rows "transport_updates" doc;
  match List.filter (fun u => is_row "session_id" session_id u && is_row "turn_id" turn_id u
                              && py_eq (dget "sequence" u) (PInt sequence)) (dicts_of update_rows) with
  | [] =>
      '(doc, s) ← stage_records (ax_stamps w) doc (PStr session_id) (PStr turn_id) (PInt sequence) (PStr tool_name)
                    (PStr target) (PStr risk) (PStr tool_call_id);
      doc ← append_staged doc s;
      binding ← validate_mission_permission_binding
                  (PDict [("mission_id", dget "mission_id" attempt); ("attempt_id", PStr attempt_id);
                          ("permission_id", dget "permission_id" (sg_permission s))]);
      doc ← append_row "mission_permission_bindings" binding doc;
      doc ← ev_audit (ax_evidence w) "mission_permission_bound" binding doc;
      Ok (doc, (sg_permission s, sg_update s, sg_transition s, binding))
  | [update] =>
      found ← retry_records doc bindings attempt_id session_id turn_id tool_name target risk tool_call_id update;
      Ok (saved_doc, found)
  | _ => Err (ValueError "mission ACP permission retry conflict")
  end.

(** ** The effect *)

Definition tool_actions (tool_name : string) : option string :=
  if in_strs tool_name ["read"; "search"; "edit"; "delete"; "move"] then Some "worker_task"
  else if String.eqb tool_name "execute" then Some "declared_local_verification"
  else None.

(** [re.sub(r":\d+$", "", target)]: the line number a target ends with, before a
    final line feed too. *)
Fixpoint drop_digits (reversed : list string) : list string :=
  match reversed with c :: r => if is_decimal c then drop_digits r else reversed | [] => [] end.
Definition strip_line_number (s : string) : string :=
  let strip (reversed : list string) : option (list string) :=
    match reversed with
    | c :: _ => if is_decimal c then match drop_digits reversed with ":" :: r => Some r | _ => None end else None
    | [] => None
    end in
  let reversed := reverse (chars s) in
  match strip reversed with
  | Some r => concat_str (reverse r)
  | None =>
      match reversed with
      | c :: r => if String.eqb c (String LF_byte "") then
                    match strip r with Some r => concat_str (reverse r ++ [c]) | None => s end
                  else s
      | [] => s
      end
  end.

(** [p.expanduser()] *)
Definition expanduser (p : py_path) : result py_path :=
  match pp_root p, pp_parts p with
  | "", c :: parts =>
      if startswith "~" c then
        let home := ax_user_home w c in
        _ ← raise_if (startswith "~" home) (RuntimeError "Could not determine home directory.");
        Ok (PyPath (pp_root (path_of home)) (pp_parts (path_of home) ++ parts))
      else Ok p
  | _, _ => Ok p
  end.

(** The resolved path that the target stands for, from the project's root. *)
Definition resolved_target (root : py_path) (raw : string) : result py_path :=
  target ← expanduser (path_of (strip_line_number raw));
  ax_resolve w (if is_absolute target then target else joined root target).

(** The target inside the project, outside AgentDeck's own files. *)
Definition normalized_target (raw : string) : result (option string) :=
  root ← ax_resolve w (ax_root w);
  match (resolved ← resolved_target root raw; relative_to resolved root) with
  | Ok relative =>
      let path := as_posix relative in
      Ok (if negb (nonempty path) || startswith ".agentdeck/" path then None else Some path)
  | Err e => match e with OSError _ => Ok None | _ => if value_error e then Ok None else Err e end
  end.

(** The attempt, the permission it waits for, and all that is found with them. *)
Record effect_facts := EffectFacts {
  ef_attempt : dict; ef_snapshot : dict; ef_worker : dict; ef_permission : dict; ef_permission_state : pyval;
  ef_session : dict; ef_turn : dict; ef_states : gmap reference string; ef_ownership : string
}.

Definition read_effect_facts (doc : dict) (attempt_id permission_id : string) : result effect_facts :=
  attempts ← validated_attempts doc;
  attempt ← one_of (ValueError "ACP effect attempt is invalid") (attempts_with (PStr attempt_id) attempts);
  mission_rows ← iter_rows "missions" doc;
  mission ← one_of (ValueError "ACP effect Mission is invalid") (List.filter (same_field "mission_id" attempt) (dicts_of mission_rows));
  snapshot ← validate_execution_snapshot (dget "execution_snapshot" mission);
  _ ← raise_if (negb (py_eq (dget "snapshot_hash" mission) (dget "execution_hash" snapshot)))
               (ValueError "ACP effect snapshot drift");
  worker ← match frozen_steps_of attempt snapshot, frozen_workers (dget "agent_id" attempt) snapshot with
           | [_], [worker] => Ok worker
           | _, _ => Err (ValueError "ACP effect frozen Worker scope is invalid")
           end;
  permission_rows ← iter_rows "permission_requests" doc;
  permissions ← mapR (_validate_permission_record ∘ PDict) (GovernanceStore.rows_with "permission_id" permission_id permission_rows);
  binding_rows ← iter_rows "mission_permission_bindings" doc;
  let bindings := List.filter (is_row "permission_id" permission_id)
                    (GovernanceStore.rows_with "attempt_id" attempt_id binding_rows) in
  permission ← match permissions, bindings with
               | [p], [_] => Ok p
               | _, _ => Err (ValueError "ACP effect permission lineage is invalid")
               end;
  states ← _validate_protocol_transition_history doc;
  session_rows ← iter_rows "agent_sessions" doc;
  sessions ← mapR (_validate_agent_session_record ∘ PDict)
                  (List.filter (same_field "session_id" permission) (dicts_of session_rows));
  session ← one_of (ValueError "ACP effect session lineage is invalid") sessions;
  turn_rows ← iter_rows "protocol_turns" doc;
  turn ← one_of (ValueError "ACP effect turn lineage is invalid") (List.filter (same_field "turn_id" permission) (dicts_of turn_rows));
  _ ← raise_if (negb (same_field "session_id" turn session) || negb (is_row "kind" "prompt" turn)
                || negb (py_eq (dget "message_id" turn) (dget "dispatch_key" attempt)))
               (ValueError "ACP effect turn lineage is invalid");
  projection ← validate_conversation_history (conversation_base doc) (AgentProtocol.rows_of "conversation_state_transitions" doc);
  Ok (EffectFacts attempt snapshot worker permission
        (current_state PermissionE (PStr permission_id) (dget "status" permission) states)
        session turn states (GovernanceStore.ownership_of projection (text_of (dget "agent_id" attempt)))).

Definition effect_of (f : effect_facts) (target : option string) : dict :=
  let tool := text_of (dget "tool_name" (ef_permission f)) in
  let attempt := ef_attempt f in
  [("mission_id", dget "mission_id" attempt); ("step_id", dget "step_id" attempt); ("agent_id", dget "agent_id" attempt);
   ("action_class", PStr (default "unsupported" (tool_actions tool)));
   ("transport", dget "configured_transport" attempt);
   ("target", PStr (default "outside_frozen_scope" target))].
Definition frozen_scope_of (f : effect_facts) (target : option string) : dict :=
  let attempt := ef_attempt f in
  [("mission_id", dget "mission_id" attempt);
   ("steps", PList [PDict [("step_id", dget "step_id" attempt); ("agent_id", dget "agent_id" attempt);
                           ("transport", dget "configured_transport" (ef_worker f))]]);
   ("allowed_action_classes", dget "action_classes" (frozen_mission_of (ef_snapshot f)));
   ("allowed_targets", PList (match target with Some p => [PStr p] | None => [] end))].
Definition policy_of (f : effect_facts) : dict :=
  [("allowed_action_classes", dget "action_classes" (frozen_mission_of (ef_snapshot f)));
   ("permission_state", ef_permission_state f)].

(** The session is the attempt's and busy, the turn waits for this permission. *)
Definition effect_ready (f : effect_facts) : bool :=
  key_in "state" ACTIVE_CLAIMED (ef_attempt f) && same_field "agent_id" (ef_session f) (ef_attempt f)
  && is_row "transport" "acp-adapter" (ef_session f)
  && py_eq (current_state SessionE (dget "session_id" (ef_session f)) (dget "state" (ef_session f)) (ef_states f)) (PStr "busy")
  && py_eq (current_state TurnE (dget "turn_id" (ef_turn f)) (dget "state" (ef_turn f)) (ef_states f)) (PStr "waiting_permission").
Definition runtime_of (f : effect_facts) : dict :=
  [("owner", PStr (ef_ownership f)); ("ready", PBool (effect_ready f));
   ("effective_transport", dget "configured_transport" (ef_attempt f))].

(** The updates that carried the permission. *)
Definition permission_updates (permission_id : string) (rows : list pyval) : result (list dict) :=
  filterR (fun u => if is_row "kind" "permission_request" u then
                      match dlookup "payload" u with
                      | None => Ok (is_row "permission_id" permission_id [])
                      | Some p => d ← as_dict p; Ok (is_row "permission_id" permission_id d)
                      end
                    else Ok false) (dicts_of rows).
Definition payload_call (u : dict) : pyval := match dget "payload" u with PDict p => dget "tool_call_id" p | _ => PNone end.
(** [next(..., None)]: the call of the first of them. *)
Fixpoint first_call (permission_id : string) (rows : list dict) : result pyval :=
  match rows with
  | [] => Ok PNone
  | u :: rows =>
      if is_row "kind" "permission_request" u then
        d ← match dlookup "payload" u with None => Ok [] | Some p => as_dict p end;
        if is_row "permission_id" permission_id d then Ok (dget "tool_call_id" d) else first_call permission_id rows
      else first_call permission_id rows
  end.

Definition effect_result (allowed : bool) (gate blocker : pyval) (effect : dict) : dict :=
  [("allowed", PBool allowed); ("gate", gate); ("blocker", blocker); ("effect", PDict effect)].

(** The permission was used: the one record of it is of this attempt, this call
    and this effect. *)
Definition check_consumed (doc : dict) (attempt_id permission_id : string) (effect_hash : string) (consumed : list dict)
    : result unit :=
  let invalid := ValueError "ACP effect consumption lineage is invalid" in
  match consumed with
  | [c] =>
      _ ← raise_if (negb (is_row "attempt_id" attempt_id c)) invalid;
      rows ← iter_rows "transport_updates" doc;
      call ← first_call permission_id (dicts_of rows);
      raise_if (negb (py_eq (dget "tool_call_id" c) call) || negb (is_row "effect_hash" effect_hash c)
                || negb (is_row "state" "consumed" c)) invalid
  | _ => Err invalid
  end.

Definition consumption (attempt_id permission_id : string) (tool_call_id : pyval) (effect_hash : string) : dict :=
  [("consumption_id", PStr (ax_consumption w).1); ("attempt_id", PStr attempt_id); ("permission_id", PStr permission_id);
   ("tool_call_id", tool_call_id); ("effect_hash", PStr effect_hash); ("state", PStr "consumed");
   ("created_at", PStr (ax_consumption w).2)].

Definition authorize_mission_acp_effect (saved_doc : dict) (attempt_id permission_id : string) : result (dict * dict) :=
  '(doc, _) ← _validated_recovery_snapshot_locked (ax_evidence w) saved_doc;
  f ← read_effect_facts doc attempt_id permission_id;
  target ← normalized_target (text_of (dget "target" (ef_permission f)));
  let effect := effect_of f target in
  effect_hash ← canonical_snapshot_hash (PDict effect);
  let invalid := ValueError "ACP effect consumption ledger is invalid" in
  consumptions ← as_rows (AgentProtocol.rows_of "mission_acp_effect_consumptions" doc) invalid;
  _ ← raise_if (negb (forallb is_dict consumptions)) invalid;
  match GovernanceStore.rows_with "permission_id" permission_id consumptions with
  | [] =>
      let decision := authorize_effect (PDict effect) (PDict (frozen_scope_of f target)) (PDict (policy_of f)) (PDict (runtime_of f)) in
      consumptions' ←
        (if allowed decision then
           rows ← iter_rows "transport_updates" doc;
           updates ← permission_updates permission_id rows;
           let bad := ValueError "ACP effect tool-call lineage is invalid" in
           update ← one_of bad updates;
           _ ← raise_if (negb (is_form nonempty (payload_call update))) bad;
           Ok (consumptions ++ [PDict (consumption attempt_id permission_id (payload_call update) effect_hash)])
         else Ok consumptions);
      let gate := option_text (gate decision) in
      let blocker := option_text (blocker decision) in
      doc ← ev_audit (ax_evidence w) "mission_acp_effect_authorized"
              [("attempt_id", PStr attempt_id); ("permission_id", PStr permission_id); ("allowed", PBool (allowed decision));
               ("gate", gate); ("blocker", blocker); ("effect_hash", PStr effect_hash)]
              (dset "mission_acp_effect_consumptions" (PList consumptions') doc);
      Ok (doc, effect_result (allowed decision) gate blocker effect)
  | consumed =>
      _ ← check_consumed doc attempt_id permission_id effect_hash consumed;
      Ok (saved_doc, effect_result false (PStr "permission_consumed")
                       (PStr "ACP allow-once permission was already consumed") effect)
  end.
End mission.

(** *** A new entity *)

Lemma index_from e acc rows m : foldM (index_record e) acc rows = Ok m -> forall r s, m !! r = Some s ->
  acc !! r = Some s \/ r.1 = e /\ exists d, PDict d ∈ rows /\ dget (identity_field e) d = PStr r.2.
Proof.
  apply (foldM_ind (fun pre m => forall r s, m !! r = Some s ->
    acc !! r = Some s \/ r.1 = e /\ exists d, PDict d ∈ pre /\ dget (identity_field e) d = PStr r.2)); [by left|].
  intros pre row m1 m2 IH H r s Hr. unfold index_record in H. destruct row as [| | | | | | |d]; try done.
  destruct (dget (identity_field e) d) as [| | | |id| | |] eqn:Hid; try done. inv_ok.
  destruct (dget (state_field e) d) as [| | | |s0| | |]; try done. destruct (in_strs s0 _); [|done]. injection H as <-.
  apply lookup_insert_Some in Hr as [[<- <-]|[_ Hr]].
  - right. split; [done|]. exists d. split; [|done]. apply elem_of_app. right. by left.
  - destruct (IH _ _ Hr) as [|(-> & d' & Hd & Hi)]; [by left|right]. split; [done|]. exists d'. split; [|done]. apply elem_of_app. by left.
Qed.

(** A new permission is pending; the other entities are as they were. *)
Lemma base_states_permission doc doc' bases rows d id : base_states doc = Ok bases ->
  rows_of "permission_requests" doc = PList rows -> rows_of "permission_requests" doc' = PList (rows ++ [PDict d]) ->
  (forall k, k ∈ ["agent_sessions"; "protocol_turns"] -> rows_of k doc' = rows_of k doc) ->
  dget "permission_id" d = PStr id -> id <> "" -> dget "status" d = PStr "pending" ->
  (forall d', PDict d' ∈ rows -> dget "permission_id" d' <> PStr id) ->
  base_states doc' = Ok (<[(PermissionE, id) := "pending"]> bases) /\ bases !! (PermissionE, id) = None.
Proof.
  unfold base_states, entity_types. cbn [foldM]. unfold index_collection. cbn [entity_collection].
  intros H Hrows Hrows' Hsame Hid Hne Hst Hnew. rewrite Hrows', !Hsame by (rewrite !elem_of_cons; tauto).
  apply bind_Ok in H as (m1 & H1 & H). apply bind_Ok in H as (m2 & H2 & H). apply bind_Ok in H as (m3 & H3 & [= ->]).
  rewrite H1. cbn [mbind result_bind]. rewrite H2. cbn [mbind result_bind]. rewrite Hrows in H3.
  assert (Hnone : bases !! (PermissionE, id) = None).
  { apply eq_None_not_Some. intros [s Hs]. destruct (index_from _ _ _ _ H3 _ _ Hs) as [Hs2|(_ & d' & Hd & Hi)]; [|by eapply Hnew].
    destruct (rows_of "protocol_turns" doc); try done. destruct (index_from _ _ _ _ H2 _ _ Hs2) as [Hs1|(? & _)]; [|done].
    destruct (rows_of "agent_sessions" doc); try done. destruct (index_from _ _ _ _ H1 _ _ Hs1) as [Hs0|(? & _)]; [|done].
    by rewrite lookup_empty in Hs0. }
  split; [|done]. rewrite foldM_app, H3. cbn [mbind result_bind foldM index_record identity_field state_field]. rewrite Hid, Hst.
  rewrite (proj2 (String.eqb_neq _ _) Hne), Hnone. rewrite bool_decide_eq_false_2 by (intros [? ?]; done). done.
Qed.

(** A history is one with more entities too. *)
Lemma replay_more {ft : FloatText} bases bases' items states states' : bases ⊆ bases' ->
  foldM (replay_one bases) states items = Ok states' -> foldM (replay_one bases') states items = Ok states'.
Proof.
  intros Hsub. revert states. induction items as [|item items IH]; intros states; cbn [foldM]; [done|].
  intros (st & H & Hrest)%bind_Ok. assert (replay_one bases' states item = Ok st) as ->; [|by apply IH].
  unfold replay_one in *. apply bind_Ok in H as (e & He & H). rewrite He. cbn [mbind result_bind]. destruct item; try done.
  destruct (states !! _) as [s|]; [done|]. destruct (bases !! _) as [s|] eqn:Hb; [|by apply bind_Ok in H as (? & ? & _)].
  by rewrite (lookup_weaken _ _ _ _ Hb Hsub).
Qed.

(** *** What is staged *)

Record good_stamps (st : acp_stamps) : Prop := {
  gs_permission : token_form "prm_" (ap_permission st).1 = true;
  gs_transition : token_form "pst_" (ap_transition st).1 = true;
  gs_now : blank (ap_transition st).2 = false
}.

Lemma fresh_identity_Ok k id e rows : fresh_identity k id e rows = Ok tt -> forall d, PDict d ∈ rows -> py_eq (dget k d) id = false.
Proof.
  induction rows as [|row rows IH]; cbn [fresh_identity]; [by intros _ d ?%elem_of_nil|].
  intros (d & Hd & ([] & Hne & H)%bind_Ok)%bind_Ok. apply raise_if_Ok in Hne. destruct row; try done. injection Hd as ->.
  intros d' [[= ->]|Hin]%elem_of_cons; [done|]. by apply IH.
Qed.

Section staging_laws.
Context {ft : FloatText}.

(** The turn after a permission was staged. *)
Record staged_turn (doc doc' : dict) (session_id turn_id sequence : pyval) (s : staged) : Prop := {
  st_updates : exists rows total, rows_of "transport_updates" doc = PList rows
    /\ rows_of "transport_updates" doc' = PList (rows ++ [PDict (sg_update s)])
    /\ dget "turn_id" (sg_update s) = turn_id /\ dget "session_id" (sg_update s) = session_id
    /\ dget "sequence" (sg_update s) = sequence
    /\ py_eq sequence (PInt (Z.of_nat (length (turn_updates turn_id rows)))) = true
    /\ length (turn_updates turn_id rows) + 2 <= MAX_ACP_UPDATES_PER_TURN
    /\ sum_sizes (turn_updates turn_id (rows ++ [PDict (sg_update s)])) = Ok total
    /\ (total + MAX_ACP_TERMINAL_UPDATE_BYTES <= MAX_ACP_TURN_PAYLOAD_BYTES)%Z;
  st_history : exists turn states, turn_id = PStr turn
    /\ _validate_protocol_transition_history doc = Ok states
    /\ _validate_protocol_transition_history doc' = Ok (<[(TurnE, turn) := "waiting_permission"]> states);
  st_permission : exists rows id, rows_of "permission_requests" doc = PList rows
    /\ rows_of "permission_requests" doc' = PList (rows ++ [PDict (sg_permission s)])
    /\ dget "permission_id" (sg_permission s) = PStr id /\ dget "turn_id" (sg_permission s) = turn_id
    /\ dget "status" (sg_permission s) = PStr "pending"
    /\ forall d, PDict d ∈ rows -> dget "permission_id" d <> PStr id
}.

(** The tables it is about. *)
Definition TURN_TABLES : list string :=
  ["transport_updates"; "permission_requests"; "protocol_state_transitions"; "agent_sessions"; "protocol_turns"].
Lemma staged_turn_ext doc doc1 doc' doc1' session_id turn_id sequence s :
  (forall k, k ∈ TURN_TABLES -> rows_of k doc1 = rows_of k doc) -> (forall k, k ∈ TURN_TABLES -> rows_of k doc1' = rows_of k doc') ->
  staged_turn doc doc' session_id turn_id sequence s -> staged_turn doc1 doc1' session_id turn_id sequence s.
Proof.
  intros H H' [Hu (turn & states & Ht & Hh & Hh') Hp].
  assert (Hhist : forall d d', (forall k, k ∈ TURN_TABLES -> rows_of k d' = rows_of k d) ->
    _validate_protocol_transition_history d' = _validate_protocol_transition_history d).
  { intros d d' Hd. unfold _validate_protocol_transition_history. rewrite Hd by (by apply (bool_decide_eq_true_1 _)).
    rewrite (base_states_ext d d'); [done|]. intros k Hk. apply Hd.
    repeat (apply elem_of_cons in Hk as [->|Hk]; [by apply (bool_decide_eq_true_1 _)|]). by apply elem_of_nil in Hk. }
  split.
  - rewrite H, H' by (by apply (bool_decide_eq_true_1 _)). done.
  - exists turn, states. split; [done|]. by rewrite (Hhist doc doc1), (Hhist doc' doc1').
  - rewrite H, H' by (by apply (bool_decide_eq_true_1 _)). done.
Qed.

Lemma append_staged_Ok doc s doc' : append_staged doc s = Ok doc' ->
  exists ps us ts, rows_of "permission_requests" doc = PList ps /\ rows_of "transport_updates" doc = PList us
    /\ rows_of "protocol_state_transitions" doc = PList ts
    /\ rows_of "permission_requests" doc' = PList (ps ++ [PDict (sg_permission s)])
    /\ rows_of "transport_updates" doc' = PList (us ++ [PDict (sg_update s)])
    /\ rows_of "protocol_state_transitions" doc' = PList (ts ++ [PDict (sg_transition s)])
    /\ forall k, k ∉ ["transport_updates"; "permission_requests"; "protocol_state_transitions"; "protocol_event_outbox"] ->
         rows_of k doc' = rows_of k doc.
Proof.
  unfold append_staged. intros (d1 & H1 & H)%bind_Ok. apply bind_Ok in H as (d2 & H2 & H). apply bind_Ok in H as (d3 & H3 & H4).
  assert (Hrow : forall k row d d', append_row k row d = Ok d' -> exists l, rows_of k d = PList l /\ rows_of k d' = PList (l ++ [PDict row])).
  { intros k row d d'. unfold append_row. destruct (rows_of k d) eqn:E; try done. intros [= <-]. eexists. split; [done|].
    by rewrite rows_of_dset, String.eqb_refl. }
  destruct (Hrow _ _ _ _ H1) as (ps & Hp & Hp'). destruct (Hrow _ _ _ _ H2) as (us & Hu & Hu'). destruct (Hrow _ _ _ _ H3) as (ts & Ht & Ht').
  pose proof (fun k => GovernanceStore.rows_append_row k _ _ _ _ H1) as E1. pose proof (fun k => GovernanceStore.rows_append_row k _ _ _ _ H2) as E2.
  pose proof (fun k => GovernanceStore.rows_append_row k _ _ _ _ H3) as E3. pose proof (fun k => GovernanceStore.rows_append_rows k _ _ _ _ H4) as E4.
  exists ps, us, ts. split; [done|]. split; [by rewrite <- Hu, E1|]. split; [by rewrite <- Ht, E2, E1|].
  split; [by rewrite E4, E3, E2|]. split; [by rewrite E4, E3|]. split; [by rewrite E4|].
  intros k Hk. rewrite !not_elem_of_cons in Hk. destruct Hk as (? & ? & ? & ? & _). by rewrite E4, E3, E2, E1.
Qed.

Lemma mapR_snoc {A B} (f : A -> result B) l x : mapR f (l ++ [x]) = (ys ← mapR f l; y ← f x; Ok (ys ++ [y])).
Proof.
  induction l as [|z l IH]; cbn [mapR app]; [by destruct (f x)|]. destruct (f z); [|done]. cbn [mbind result_bind]. rewrite IH.
  destruct (mapR f l); [|done]. cbn [mbind result_bind]. by destruct (f x).
Qed.
Lemma sum_sizes_snoc updates u : sum_sizes (updates ++ [u]) = (total ← sum_sizes updates; n ← update_size u; Ok (total + n)%Z).
Proof.
  unfold sum_sizes. rewrite mapR_snoc. destruct (mapR update_size updates) as [l|e]; [|done]. cbn [mbind result_bind].
  destruct (update_size u) as [n|e]; [|done]. cbn [mbind result_bind]. by rewrite foldl_app.
Qed.

Lemma required_str name v s : _required_string name v = Ok s -> v = PStr s.
Proof. unfold _required_string. destruct v; try done. destruct (blank _); [done|]. by intros [= ->]. Qed.
Lemma record_id_str name v p s : _record_id name v p = Ok s -> v = PStr s.
Proof. unfold _record_id. intros (x & Hx%required_str & ([] & _ & [= <-])%bind_Ok)%bind_Ok. done. Qed.

(** What staging found and built. *)
Lemma stage_records_Ok st doc session_id turn_id sequence tool_name target risk call doc1 s : good_stamps st ->
  stage_records st doc session_id turn_id sequence tool_name target risk call = Ok (doc1, s) ->
  (forall k, rows_of k doc1 = rows_of k doc)
  /\ exists turn session seq rows total ps states bases current,
     turn_id = PStr turn /\ session_id = PStr session /\ sequence = PInt seq
     /\ py_iter (rows_of "transport_updates" doc) = Ok rows
     /\ seq = Z.of_nat (length (turn_updates turn_id rows))
     /\ length (turn_updates turn_id rows) + 2 <= MAX_ACP_UPDATES_PER_TURN
     /\ sum_sizes (turn_updates turn_id rows ++ [sg_update s]) = Ok total
     /\ (total + MAX_ACP_TERMINAL_UPDATE_BYTES <= MAX_ACP_TURN_PAYLOAD_BYTES)%Z
     /\ rows_of "permission_requests" doc = PList ps
     /\ (forall d, PDict d ∈ ps -> dget "permission_id" d <> PStr (ap_permission st).1)
     /\ _validate_protocol_transition_history doc1 = Ok states /\ base_states doc1 = Ok bases
     /\ (states !! (TurnE, turn) = Some current \/ states !! (TurnE, turn) = None /\ bases !! (TurnE, turn) = Some current)
     /\ validate_protocol_transition_record (PDict (sg_transition s)) = Ok TurnE
     /\ (dget "entity_id" (sg_transition s) = PStr turn /\ dget "from_state" (sg_transition s) = PStr current
         /\ dget "to_state" (sg_transition s) = PStr "waiting_permission" /\ dget "entity_type" (sg_transition s) = PStr "turn"
         /\ dget "reason" (sg_transition s) = PStr "permission_requested")
     /\ (dget "turn_id" (sg_update s) = turn_id /\ dget "session_id" (sg_update s) = session_id /\ dget "sequence" (sg_update s) = sequence
         /\ dget "kind" (sg_update s) = PStr "permission_request"
         /\ dget "payload" (sg_update s) = PDict (permission_payload (sg_permission s) call risk))
     /\ exists tl tg rk, tool_name = PStr tl /\ target = PStr tg /\ risk = PStr rk /\
        sg_permission s = [("permission_id", PStr (ap_permission st).1); ("session_id", session_id); ("turn_id", turn_id); ("tool_name", tool_name);
                        ("target", target); ("risk", risk); ("status", PStr "pending"); ("decision", PNone);
                        ("created_at", PStr (ap_permission st).2); ("updated_at", PStr (ap_permission st).2)].
Proof.
  intros Hst. unfold stage_records. intros ([d1 turn] & Hturn & H)%bind_Ok. apply bind_Ok in H as (states & Hh & H).
  apply bind_Ok in H as (turn' & Hu & H). apply bind_Ok in H as (waiting & Hwait & H). apply bind_Ok in H as ([] & Hw & H).
  apply raise_if_Ok, negb_false_iff in Hw as ->. apply in_str_set_Ok_true in Hwait as (current & Hcur & _).
  apply bind_Ok in H as (p & Hp & H). apply bind_Ok in H as (rows & Hrows & H). apply bind_Ok in H as ([] & Hb & H).
  apply bind_Ok in H as (u & Hup & H). apply bind_Ok in H as (t & Ht & H). apply bind_Ok in H as (ps & Hps & H).
  apply bind_Ok in H as ([] & Hfresh & [= <- <-]). cbn [sg_permission sg_update sg_transition].
  pose proof (fun k => validated_turn_rows _ _ _ _ k Hturn) as Hsame. cbn [fst] in Hsame. split; [done|].
  unfold build_permission_request in Hp. apply bind_Ok in Hp as (sid & Hsid & Hp). apply bind_Ok in Hp as (tid & Htid & Hp).
  apply bind_Ok in Hp as (tl & Htl & Hp). apply bind_Ok in Hp as (tg & Htg & Hp). apply bind_Ok in Hp as (rk & Hrk & [= <-]).
  apply record_id_str in Hsid as ->. apply record_id_str in Htid as ->.
  apply required_str in Htl as ->. apply required_str in Htg as ->. apply required_str in Hrk as ->.
  unfold build_transport_update in Hup. apply bind_Ok in Hup as (? & [= <-]%record_id_str & Hup).
  apply bind_Ok in Hup as (? & [= <-]%record_id_str & Hup).
  apply bind_Ok in Hup as ([] & Hseq & Hup). do 2 apply bind_Ok in Hup as ([] & _ & Hup). apply bind_Ok in Hup as (c & Hclone & [= <-]).
  apply clone_same in Hclone as ->. apply raise_if_Ok, negb_false_iff in Hseq. destruct sequence as [| |seq| | | | |]; try done.
  apply Z.leb_le in Hseq. cbn [text_of] in Hcur, Ht. rewrite Hcur in Ht.
  pose proof Hh as Hh'. unfold _validate_protocol_transition_history in Hh'. destruct (rows_of "protocol_state_transitions" d1) as [| | | | |ts| |] eqn:Hts; try done.
  apply bind_Ok in Hh' as (bases & Hbs & _).
  destruct (base_states_list _ _ PermissionE Hbs) as (ps' & Hps'). cbn [entity_collection] in Hps'. rewrite Hps' in Hps. injection Hps as <-.
  unfold check_turn_bounds in Hb. apply bind_Ok in Hb as ([] & _ & Hb). apply bind_Ok in Hb as ([] & Hn & Hb).
  apply bind_Ok in Hb as (existing & He & Hb). apply bind_Ok in Hb as (n & Hpay & Hb). apply bind_Ok in Hb as ([] & Hmax & Hb).
  apply raise_if_Ok, negb_false_iff, Z.eqb_eq in Hn. apply raise_if_Ok, Z.ltb_ge in Hmax. apply raise_if_Ok, Nat.ltb_ge in Hb.
  destruct (build_transition_valid _ _ _ _ _ _ _ _ _ Ht (gs_transition _ Hst) (pst_not_blank _ (gs_transition _ Hst)) (gs_now _ Hst))
    as (e & Hv & He' & ->).
  assert (e = TurnE) as ->.
  { apply validate_edge_Ok in He' as [Hk _]. by destruct e. }
  exists tid, sid, seq, rows, (existing + n)%Z, ps', states, bases, current. split_and!; try done.
  - by rewrite <- Hsame.
  - cbn [fst snd] in Hn. rewrite Z.min_id, !Z.sub_diag, !Z.mul_1_r in Hn. exact Hn.
  - rewrite sum_sizes_snoc, He. cbn [mbind result_bind]. match goal with |- context [update_size ?u] => assert (update_size u = Ok n) as -> by exact Hpay end. done.
  - by rewrite <- Hsame.
  - intros d Hd Hid. pose proof (fresh_identity_Ok _ _ _ _ Hfresh _ Hd) as Hf. rewrite Hid in Hf. change (String.eqb (ap_permission st).1 (ap_permission st).1 = false) in Hf. by rewrite String.eqb_refl in Hf.
  - destruct (states !! _) as [x|]; [left; congruence|right]. split; [done|]. by apply (entity_base_state d1 bases TurnE tid turn').
  - by exists tl, tg, rk.
Qed.

(** The permission and what is saved with it leave a valid ledger, in which the
    turn waits; the turn keeps room for its last update. *)
Lemma stage_appends st doc session_id turn_id sequence tool_name target risk call doc1 s doc2 doc' : good_stamps st ->
  stage_records st doc session_id turn_id sequence tool_name target risk call = Ok (doc1, s) ->
  (forall k, k <> "protocol_event_outbox" -> rows_of k doc2 = rows_of k doc1) ->
  append_staged doc2 s = Ok doc' ->
  staged_turn doc doc' session_id turn_id sequence s
  /\ forall k, k ∉ ["transport_updates"; "permission_requests"; "protocol_state_transitions"; "protocol_event_outbox"] ->
       rows_of k doc' = rows_of k doc.
Proof.
  intros Hst Hstage Hflush Happ. destruct (append_staged_Ok _ _ _ Happ) as (ps & us & ts & Hp & Hu & Ht & Hp' & Hu' & Ht' & Hother).
  destruct (stage_records_Ok _ _ _ _ _ _ _ _ _ _ _ Hst Hstage) as (Hsame & turn & session & seq & rows & total & ps0 & states & bases
    & current & -> & -> & -> & Hrows & Hseq & Hcount & Hsum & Hmax & Hps & Hnew & Hh & Hbs & Hcur & Hv & (Hti & Htf & Htt & _)
    & (Hut & Hus & Huq & _) & tl & tg & rk & _ & _ & _ & Hperm).
  assert (Hdoc : forall k, k <> "protocol_event_outbox" -> rows_of k doc2 = rows_of k doc) by (intros k Hk; by rewrite Hflush, Hsame).
  rewrite Hdoc in Hp, Hu, Ht by done. rewrite Hps in Hp. injection Hp as <-. rewrite Hu in Hrows. injection Hrows as <-.
  split; [split|].
  - exists us, total. split_and!; try done.
    + rewrite Hseq. apply py_eq_refl. done.
    + unfold turn_updates, dicts_of in *. rewrite omap_app, List.filter_app. cbn. by rewrite Hut, (proj2 (py_eq_str _ _) eq_refl).
  - exists turn, states. split; [done|].
    assert (Hbs0 : base_states doc = Ok bases) by (rewrite <- Hbs; apply base_states_ext; intros; by rewrite Hsame).
    assert (Hh0 : _validate_protocol_transition_history doc = Ok states).
    { rewrite <- Hh. unfold _validate_protocol_transition_history. by rewrite Hsame, Hbs, Hbs0. }
    split; [done|].
    destruct (base_states_permission doc doc' bases ps0 (sg_permission s) (ap_permission st).1) as [Hbs' Hnone]; try done.
    { intros k [->|[->|[]%elem_of_nil]%elem_of_cons]%elem_of_cons; rewrite Hother, Hdoc; try done; intros Hk; by apply (bool_decide_eq_true_2 _) in Hk. }
    { by rewrite Hperm. }
    { intros E. pose proof (gs_permission _ Hst) as Hf. by rewrite E in Hf. }
    { by rewrite Hperm. }
    unfold _validate_protocol_transition_history in Hh0 |- *. rewrite Ht'. rewrite Ht, Hbs0 in Hh0. cbn [mbind result_bind] in Hh0.
    rewrite Hbs'. cbn [mbind result_bind]. rewrite foldM_app, (replay_more _ _ _ _ _ (insert_subseteq _ _ _ Hnone) Hh0).
    cbn [mbind result_bind foldM].
    rewrite (replay_one_record _ states _ TurnE (sg_transition s) Hv eq_refl turn current "waiting_permission"); try done.
    destruct Hcur as [?|[??]]; [by left|right]. split; [done|]. by rewrite lookup_insert_ne.
  - exists ps0, (ap_permission st).1. rewrite Hperm in Hp' |- *. split_and!; done.
  - intros k Hk. rewrite Hother, Hdoc; [done| |done]. intros ->. apply Hk. rewrite !elem_of_cons. tauto.
Qed.
End staging_laws.

(** ** Laws of the effects *)

Section effect_laws.
Context {env : LeaseEnv} {ft : FloatText} {lim : RecursionLimits} {repr : PyRepr}.
Variable w : acp_world.

(** What the facts of an authorisation are, field by field. *)
Record facts_read (doc : dict) (attempt_id permission_id : string) (f : effect_facts) : Prop := {
  fr_attempt : dget "attempt_id" (ef_attempt f) = PStr attempt_id;
  fr_permission : dget "permission_id" (ef_permission f) = PStr permission_id;
  fr_texts : exists mission step agent transport, dget "mission_id" (ef_attempt f) = PStr mission
    /\ dget "step_id" (ef_attempt f) = PStr step /\ dget "agent_id" (ef_attempt f) = PStr agent
    /\ dget "configured_transport" (ef_attempt f) = PStr transport;
  fr_worker : exists transport, dget "configured_transport" (ef_worker f) = PStr transport;
  fr_actions : dget "action_classes" (frozen_mission_of (ef_snapshot f))
               = PList [PStr "worker_task"; PStr "declared_local_verification"];
  fr_state : exists s, ef_permission_state f = PStr s;
  fr_lineage : same_field "session_id" (ef_permission f) (ef_session f) = true
               /\ same_field "turn_id" (ef_permission f) (ef_turn f) = true
               /\ py_eq (dget "message_id" (ef_turn f)) (dget "dispatch_key" (ef_attempt f)) = true
}.

Lemma one_of_Ok e l d : one_of e l = Ok d <-> l = [d].
Proof. unfold one_of. destruct l as [|x [|]]; naive_solver. Qed.

Lemma valid_attempt_texts v a : _validate_mission_attempt_record v = Ok a ->
  (exists m, dget "mission_id" a = PStr m) /\ (exists s, dget "step_id" a = PStr s) /\ (exists g, dget "agent_id" a = PStr g)
  /\ exists t, dget "configured_transport" a = PStr t.
Proof.
  unfold _validate_mission_attempt_record. destruct v as [| | | | | | |d]; try done. intros H. inv_ok. split_guards. subst.
  repeat match goal with
  | H : is_canonical_mission_id _ = true |- _ => apply is_form_PStr in H as (? & ? & _)
  | H : is_form _ _ = true |- _ => apply is_form_PStr in H as (? & ? & _)
  | H : in_str_set _ _ = Ok true |- _ => apply in_str_set_Ok_true in H as (? & ? & _)
  end. subst. split_and!; eauto.
Qed.

Lemma in_list_singleton {A} (x : A) l (f : A -> bool) : List.filter f l = [x] -> x ∈ l /\ f x = true.
Proof. intros H. assert (x ∈ List.filter f l) as Hx by (rewrite H; by left). by apply list_elem_of_In, filter_In in Hx as [?%list_elem_of_In ?]. Qed.

Lemma worker_transport snapshot v agent worker : validate_execution_snapshot v = Ok snapshot ->
  frozen_workers agent snapshot = [worker] -> exists t, dget "configured_transport" worker = PStr t.
Proof.
  intros (_ & mission & steps & workers & agents & ids & Hs)%validate_snapshot_Ok. unfold frozen_workers. rewrite (so_workers _ _ _ _ _ _ Hs).
  intros [Hin _]%in_list_singleton. apply elem_of_dicts_of in Hin. pose proof (so_ids _ _ _ _ _ _ Hs) as Hids. apply mapR_Ok in Hids.
  apply list_elem_of_lookup in Hin as [i Hi]. destruct (Forall2_lookup_l _ _ _ _ _ Hids Hi) as (y & _ & Hc).
  cbn [check_worker] in Hc. apply bind_Ok in Hc as (? & _ & Hc). apply bind_Ok in Hc as (known & Hk & Hc).
  apply bind_Ok in Hc as ([] & Hg & _). apply raise_if_Ok, orb_false_iff in Hg as [->%negb_false_iff _].
  apply in_str_set_Ok_true in Hk as (t & ? & _). by exists t.
Qed.

Lemma snapshot_actions snapshot v : validate_execution_snapshot v = Ok snapshot ->
  dget "action_classes" (frozen_mission_of snapshot) = PList [PStr "worker_task"; PStr "declared_local_verification"].
Proof.
  intros (_ & mission & steps & workers & agents & ids & Hs)%validate_snapshot_Ok. unfold frozen_mission_of.
  rewrite (so_mission _ _ _ _ _ _ Hs). apply (so_actions _ _ _ _ _ _ Hs).
Qed.

Lemma mapR_singleton {A B} (f : A -> result B) l y : mapR f l = Ok [y] -> exists x, l = [x] /\ f x = Ok y.
Proof. intros H%mapR_Ok. inversion H as [|x ? ? ? Hx Hr]; subst. inversion Hr; subst. by exists x. Qed.
Lemma permission_same p p' : _validate_permission_record (PDict p) = Ok p' -> p = p' /\ dget "status" p = PStr "pending".
Proof. unfold _validate_permission_record. intros H. inv_ok. split; [done|]. split_guards. by apply py_eq_str. Qed.
Lemma session_same s s' : _validate_agent_session_record (PDict s) = Ok s' -> s = s'.
Proof. unfold _validate_agent_session_record. intros H. apply bind_Ok in H as ([] & _ & H). repeat case_match; try done; by inv_ok. Qed.

Lemma read_facts_Ok doc attempt_id permission_id f : read_effect_facts doc attempt_id permission_id = Ok f ->
  facts_read doc attempt_id permission_id f.
Proof.
  unfold read_effect_facts. intros (attempts & Hatts & H)%bind_Ok. apply bind_Ok in H as (attempt & Hatt & H).
  do 2 apply bind_Ok in H as (? & _ & H). apply bind_Ok in H as (snapshot & Hsnap & H). apply bind_Ok in H as (? & _ & H).
  apply bind_Ok in H as (worker & Hworker & H). do 1 apply bind_Ok in H as (prows & _ & H). apply bind_Ok in H as (ps & Hps & H).
  apply bind_Ok in H as (brows & _ & H). apply bind_Ok in H as (p & Hp & H). apply bind_Ok in H as (states & _ & H).
  apply bind_Ok in H as (srows & _ & H). apply bind_Ok in H as (sessions & Hsess & H). apply bind_Ok in H as (session & Hse & H).
  apply bind_Ok in H as (trows & _ & H). apply bind_Ok in H as (turn & Hturn & H). apply bind_Ok in H as (? & Hlin & H).
  apply bind_Ok in H as (? & _ & [= <-]).
  apply one_of_Ok, in_list_singleton in Hatt as [Hin Hid]. apply one_of_Ok in Hse as ->.
  apply one_of_Ok, in_list_singleton in Hturn as [_ Hturn]. apply raise_if_Ok, orb_false_iff in Hlin as [_ Hmsg%negb_false_iff].
  destruct (List.filter _ (GovernanceStore.rows_with "attempt_id" _ _)) as [|? [|]]; destruct ps as [|p' [|]]; try done. injection Hp as ->.
  destruct (frozen_steps_of attempt snapshot) as [|? [|]]; try done.
  destruct (frozen_workers _ snapshot) as [|worker' [|]] eqn:Hw; try done. injection Hworker as ->.
  apply mapR_singleton in Hps as (p0 & Hps & Hp). apply mapR_singleton in Hsess as (s0 & Hsess & Hs).
  destruct (permission_same _ _ Hp) as [-> _]. apply session_same in Hs as Hs'. subst s0.
  apply in_list_singleton in Hsess as [_ Hsf].
  assert (Hpr : is_row "permission_id" permission_id p = true) by (apply (rows_with_row _ _ prows); rewrite Hps; by left).
  assert (Hv : exists v, _validate_mission_attempt_record v = Ok attempt).
  { unfold validated_attempts in Hatts. apply bind_Ok in Hatts as (rows & _ & Hatts). apply mapR_Ok in Hatts.
    apply list_elem_of_lookup in Hin as [i Hi]. destruct (Forall2_lookup_r _ _ _ _ _ Hatts Hi) as (v & _ & ?). by exists v. }
  destruct Hv as (v & Hv). destruct (valid_attempt_texts _ _ Hv) as ((m & Hm) & (st & Hst) & (g & Hg) & (t & Ht)).
  split; cbn [ef_attempt ef_snapshot ef_worker ef_permission ef_permission_state ef_session ef_turn ef_states ef_ownership].
  - by apply py_eq_str.
  - by apply is_row_PStr.
  - by exists m, st, g, t.
  - by apply (worker_transport snapshot _ _ _ Hsnap) in Hw.
  - by apply (snapshot_actions _ _ Hsnap).
  - unfold current_state. destruct (states !! _) as [s|]; [by exists s|]. exists "pending".
    by destruct (permission_same _ _ Hp).
  - split_and!; try done.
Qed.

(** The target's resolved path lies under the project's resolved root, and is no
    file below [.agentdeck]. *)
Definition inside_project (raw path : string) : Prop :=
  exists root resolved rel, ax_resolve w (ax_root w) = Ok root /\ resolved_target w root raw = Ok resolved
    /\ pp_root resolved = pp_root root /\ pp_parts resolved = pp_parts root ++ rel
    /\ (forall c rest, rel <> ".agentdeck" :: c :: rest) /\ path = as_posix (PyPath "" rel).

Lemma normalized_inside raw path : normalized_target w raw = Ok (Some path) -> inside_project raw path.
Proof.
  unfold normalized_target. intros (root & Hroot & H)%bind_Ok. destruct (resolved ← _; _) as [rel|e] eqn:E.
  - apply bind_Ok in E as (resolved & Hres & Hrel). apply relative_to_Ok in Hrel as (Hr & H1 & H2).
    destruct (negb _ || _) eqn:Hb; [done|]. injection H as <-. apply orb_false_iff in Hb as [_ Hb].
    exists root, resolved, (pp_parts rel). destruct rel as [r l]. cbn [pp_root pp_parts] in *. subst r. split_and!; try done.
    intros c rest ->. change (startswith ".agentdeck/" (".agentdeck/" +:+ join "/" (c :: rest)) = false) in Hb. by rewrite startswith_app in Hb.
  - destruct e; try done; by destruct (value_error _).
Qed.

(** What holds of an effect that is allowed: the attempt is under way; the
    session is its Worker's, structured and busy; the turn waits for a
    permission; and so on. *)
Record granted (f : effect_facts) : Prop := {
  gr_active : exists s, dget "state" (ef_attempt f) = PStr s /\ s ∈ ACTIVE_CLAIMED;
  gr_session : dget "agent_id" (ef_session f) = dget "agent_id" (ef_attempt f) /\ dget "transport" (ef_session f) = PStr "acp-adapter";
  gr_busy : current_state SessionE (dget "session_id" (ef_session f)) (dget "state" (ef_session f)) (ef_states f) = PStr "busy";
  gr_waiting : current_state TurnE (dget "turn_id" (ef_turn f)) (dget "state" (ef_turn f)) (ef_states f) = PStr "waiting_permission";
  gr_owner : ef_ownership f = "agentdeck_owned";
  gr_approved : ef_permission_state f = PStr "approved";
  gr_transport : dget "configured_transport" (ef_worker f) = dget "configured_transport" (ef_attempt f);
  gr_tool : exists action, tool_actions (text_of (dget "tool_name" (ef_permission f))) = Some action;
  gr_target : exists path, inside_project (text_of (dget "target" (ef_permission f))) path
}.

(** The three gates, on these facts, allow only such an effect.  The scanner
    reads values nested three deep. *)
Lemma authorized_granted {laws : FloatTextLaws} doc attempt_id permission_id f target : 3 <= scanner_depth ->
  facts_read doc attempt_id permission_id f ->
  normalized_target w (text_of (dget "target" (ef_permission f))) = Ok target ->
  allowed (authorize_effect (PDict (effect_of f target)) (PDict (frozen_scope_of f target)) (PDict (policy_of f)) (PDict (runtime_of f))) = true ->
  granted f.
Proof.
  intros Hdepth [_ _ (m & st & g & t & Hm & Hst & Hg & Ht) (wt & Hwt) Hact (ps & Hps) _] Htarget.
  intros (cur & fr & pol & rt & Hc & Hf & Hp & Hr & Hscope & Hpol & Hown)%authorize_effect_spec.
  unfold effect_of, frozen_scope_of, policy_of, runtime_of in *. rewrite ?Hm, ?Hst, ?Hg, ?Ht, ?Hwt, ?Hact, ?Hps in *.
  destruct target as [path|]; destruct (tool_actions _) as [action|] eqn:Htool.
  all: cbn [default] in *.
  all: apply canonical_sorted in Hc; [|reflexivity|cbn; lia]; apply canonical_sorted in Hr; [|reflexivity|cbn; lia];
    apply canonical_sorted in Hp; [|reflexivity|cbn; lia]; apply canonical_sorted in Hf; [|reflexivity|cbn; lia].
  all: cbn in Hc, Hp, Hr, Hf; injection Hc as <-; injection Hp as <-; injection Hr as <-; injection Hf as <-.
  all: destruct Hscope as [_ _ (steps & step & Hsteps & Hin) _ (targets & Htg & Hlisted)];
    destruct Hpol as [(actions & Hacts & Hla) Hstate]; destruct Hown as [Howner Hready _].
  all: vm_compute in Hacts; injection Hacts as <-; try (vm_compute in Hla; discriminate Hla).
  all: try (vm_compute in Htg; injection Htg as <-; vm_compute in Hlisted; discriminate Hlisted).
  cbn in Hsteps. injection Hsteps as <-. cbn [List.filter] in Hin. destruct (in_step _ _) eqn:Hi; [|done].
  apply andb_true_iff in Hi as [_ Hi]. cbn in Howner, Hready, Hstate. injection Howner as Howner. injection Hready as Hready. injection Hstate as Hstate.
  unfold effect_ready in Hready. rewrite !andb_true_iff in Hready. destruct Hready as ((((Ha & Hs) & Htr) & Hbusy) & Hwait).
  split; try done.
  - unfold key_in in Ha. apply is_form_PStr in Ha as (x & Hx & Hin'). exists x. split; [done|]. by apply in_strs_spec.
  - split; [|by apply is_row_PStr]. unfold same_field in Hs. rewrite Hg in *. by apply py_eq_str in Hs.
  - by apply py_eq_str.
  - by apply py_eq_str.
  - by rewrite Hps, Hstate.
  - rewrite Hwt, Ht. by apply py_eq_str in Hi.
  - by exists action.
  - exists path. by apply normalized_inside.
Qed.

Definition ledger (doc : dict) : pyval := AgentProtocol.rows_of "mission_acp_effect_consumptions" doc.
Definition used (permission_id : string) (doc : dict) : Prop :=
  exists rows, ledger doc = PList rows /\ GovernanceStore.rows_with "permission_id" permission_id rows <> [].

Lemma rows_audited ty p doc doc' k : ev_audit (ax_evidence w) ty p doc = Ok doc' -> k <> "protocol_event_outbox" ->
  AgentProtocol.rows_of k doc' = AgentProtocol.rows_of k doc.
Proof.
  unfold ev_audit. intros (events & _ & [= <-])%bind_Ok Hk. rewrite rows_of_dset. by rewrite (proj2 (String.eqb_neq _ _) Hk).
Qed.

(** What a call does: it allows the effect of an unused permission, which it
    uses; or it leaves the ledger as it was. *)
Lemma authorize_Ok doc attempt_id permission_id doc' r :
  authorize_mission_acp_effect w doc attempt_id permission_id = Ok (doc', r) ->
  exists rows view f target, recovery_view_of (ax_evidence w) doc = Ok view /\ read_effect_facts view.1 attempt_id permission_id = Ok f
    /\ normalized_target w (text_of (dget "target" (ef_permission f))) = Ok target /\ ledger doc = PList rows
    /\ ((dget "allowed" r = PBool true
         /\ GovernanceStore.rows_with "permission_id" permission_id rows = []
         /\ (exists call hash, is_form nonempty call = true
               /\ ledger doc' = PList (rows ++ [PDict (consumption w attempt_id permission_id call hash)]))
         /\ allowed (authorize_effect (PDict (effect_of f target)) (PDict (frozen_scope_of f target)) (PDict (policy_of f)) (PDict (runtime_of f)))
            = true)
        \/ (dget "allowed" r = PBool false /\ ledger doc' = PList rows)).
Proof.
  unfold authorize_mission_acp_effect. intros ([d0 token] & Hsnap & H)%bind_Ok. apply bind_Ok in Hsnap as ([d1 v] & Hview & Hsnap).
  apply bind_Ok in Hsnap as (? & _ & [= -> ->]). apply bind_Ok in H as (f & Hf & H). apply bind_Ok in H as (target & Ht & H).
  apply bind_Ok in H as (hash & Hh & H).
  apply bind_Ok in H as (rows & Hrows & H). apply bind_Ok in H as ([] & _ & H).
  pose proof (sv_rows _ _ _ _ (recovery_view_Ok _ _ _ _ Hview)) as Hsame.
  assert (Hl : ledger doc = PList rows).
  { unfold ledger. rewrite <- Hsame. unfold as_rows in Hrows. destruct (AgentProtocol.rows_of _ d0); try done. by injection Hrows as ->. }
  exists rows, (d0, v), f, target. do 4 (split; [done|]).
  destruct (GovernanceStore.rows_with _ _ rows) as [|c cs] eqn:Hc.
  - apply bind_Ok in H as (rows' & Hr & H). apply bind_Ok in H as (d2 & Ha & [= <- <-]).
    assert (ledger d2 = PList rows') as Hl'.
    { unfold ledger. rewrite (rows_audited _ _ _ _ _ Ha) by done. by rewrite rows_of_dset. }
    destruct (allowed _) eqn:Hallow.
    + left. do 2 apply bind_Ok in Hr as (? & _ & Hr). apply bind_Ok in Hr as (u & _ & Hr). apply bind_Ok in Hr as ([] & Hcall & [= <-]).
      apply raise_if_Ok, negb_false_iff in Hcall. split_and!; try done. by eexists _, _.
    + right. by injection Hr as <-.
  - apply bind_Ok in H as ([] & _ & [= <- <-]). by right.
Qed.
End effect_laws.

(** ** Histories *)

Section histories.
Context {env : LeaseEnv} {ft : FloatText} {laws : FloatTextLaws} {lim : RecursionLimits} {repr : PyRepr}.

(** Authorisations, of any daemon, between steps that leave the ledger of used
    permissions alone; with the effects that were allowed, in order. *)
Inductive effect_run : dict -> list (string * string) -> dict -> Prop :=
| er_end doc : effect_run doc [] doc
| er_authorize w doc attempt_id permission_id doc1 r allowed doc' :
    authorize_mission_acp_effect w doc attempt_id permission_id = Ok (doc1, r) -> effect_run doc1 allowed doc' ->
    effect_run doc ((if Recovery.is_true (dget "allowed" r) then [(attempt_id, permission_id)] else []) ++ allowed) doc'
| er_other doc doc1 allowed doc' : ledger doc1 = ledger doc -> effect_run doc1 allowed doc' -> effect_run doc allowed doc'.

Lemma authorize_uses w doc attempt_id permission_id doc1 r p :
  authorize_mission_acp_effect w doc attempt_id permission_id = Ok (doc1, r) ->
  used p doc1 <-> used p doc \/ dget "allowed" r = PBool true /\ p = permission_id.
Proof.
  intros (rows & v & f & _ & _ & _ & _ & Hl & [(Ha & Hnew & (call & hash & _ & Hl') & _)|[Ha Hl']])%authorize_Ok; unfold used; rewrite Hl, Hl'.
  - split.
    + intros (rows' & [= <-] & Hr). rewrite GovernanceStore.rows_with_app in Hr.
      destruct (GovernanceStore.rows_with _ p rows) eqn:E; [|left; exists rows; by rewrite E]. right. split; [done|].
      cbn in Hr. unfold GovernanceStore.rows_with in Hr. cbn in Hr. unfold is_row in Hr. cbn in Hr.
      by destruct (String.eqb_spec permission_id p).
    + intros [(rows' & [= <-] & Hr)|[_ ->]]; eexists; (split; [done|]); rewrite GovernanceStore.rows_with_app; intros [H1 H2]%app_eq_nil;
        [done|]. unfold GovernanceStore.rows_with, is_row in H2. cbn in H2. by rewrite String.eqb_refl in H2.
  - split; [|intros [?|[H _]]; [done|by rewrite Ha in H]]. by left.
Qed.

Lemma run_uses doc allowed doc' p : effect_run doc allowed doc' -> p ∈ allowed.*2 -> ~ used p doc.
Proof.
  induction 1 as [doc|w doc a q doc1 r allowed doc' H Hrun IH|doc doc1 allowed doc' Hl Hrun IH]; [by intros ?%elem_of_nil| |].
  - intros Hp Hu. rewrite fmap_app in Hp. apply elem_of_app in Hp as [Hp|Hp].
    + pose proof H as (rows & v & f & _ & _ & _ & _ & Hl & [(Ha & Hnew & _)|[Ha _]])%authorize_Ok; rewrite Ha in Hp; cbn in Hp; [|by apply elem_of_nil in Hp].
      apply list_elem_of_singleton in Hp as ->. destruct Hu as (rows' & Hl' & Hne). rewrite Hl in Hl'. by injection Hl' as <-.
    + apply IH; [done|]. apply (authorize_uses _ _ _ _ _ _ _ H). by left.
  - intros Hp%IH Hu. apply Hp. unfold used in *. by rewrite Hl.
Qed.

End histories.

(** ** Permissions of a Mission *)

Section permission_laws.
Context {env : LeaseEnv} {ft : FloatText} {lim : RecursionLimits} {repr : PyRepr}.

Lemma binding_same b b' : validate_mission_permission_binding (PDict b) = Ok b' -> b = b'.
Proof. unfold validate_mission_permission_binding. intros H. by inv_ok. Qed.

(** The updates of the turn at a place. *)
Definition updates_at (session_id turn_id : string) (sequence : Z) (rows : list pyval) : list dict :=
  List.filter (fun u => is_row "session_id" session_id u && is_row "turn_id" turn_id u && py_eq (dget "sequence" u) (PInt sequence))
    (dicts_of rows).

(** A permission is recorded for the first time, or found again. *)
Lemma pending_Ok w saved attempt_id session_id turn_id sequence tool target risk call doc' p u t b :
  record_mission_acp_permission_pending w saved attempt_id session_id turn_id sequence tool target risk call = Ok (doc', (p, u, t, b)) ->
  exists doc v update_rows binding_rows bindings, recovery_view_of (ax_evidence w) saved = Ok (doc, v)
    /\ iter_rows "transport_updates" doc = Ok update_rows
    /\ iter_rows "mission_permission_bindings" doc = Ok binding_rows /\ mapR validate_mission_permission_binding binding_rows = Ok bindings
    /\ ((doc' = saved /\ updates_at session_id turn_id sequence update_rows = [u]
         /\ retry_records doc bindings attempt_id session_id turn_id tool target risk call u = Ok (p, u, t, b))
        \/ (updates_at session_id turn_id sequence update_rows = []
            /\ exists doc1 s doc2, stage_records (ax_stamps w) doc (PStr session_id) (PStr turn_id) (PInt sequence) (PStr tool) (PStr target)
                                (PStr risk) (PStr call) = Ok (doc1, s)
               /\ append_staged doc1 s = Ok doc2 /\ p = sg_permission s /\ u = sg_update s /\ t = sg_transition s
               /\ dget "attempt_id" b = PStr attempt_id /\ dget "permission_id" b = dget "permission_id" p
               /\ exists brows, rows_of "mission_permission_bindings" doc2 = PList brows
                    /\ rows_of "mission_permission_bindings" doc' = PList (brows ++ [PDict b])
                    /\ forall k, k <> "mission_permission_bindings" -> k <> "protocol_event_outbox" -> rows_of k doc' = rows_of k doc2)).
Proof.
  unfold record_mission_acp_permission_pending. intros ([d0 token] & Hsnap & H)%bind_Ok. apply bind_Ok in Hsnap as ([d1 v] & Hview & Hsnap).
  apply bind_Ok in Hsnap as (? & _ & [= -> ->]). apply bind_Ok in H as (attempt & _ & H). apply bind_Ok in H as (worker & _ & H).
  apply bind_Ok in H as ([session states] & _ & H). do 2 apply bind_Ok in H as (? & _ & H).
  apply bind_Ok in H as (brows & Hb & H). apply bind_Ok in H as (bindings & Hbs & H). apply bind_Ok in H as (urows & Hu & H).
  exists d0, v, urows, brows, bindings. split_and!; try done. fold (updates_at session_id turn_id sequence urows) in H.
  destruct (updates_at session_id turn_id sequence urows) as [|u0 [|]] eqn:Hat; try done.
  - right. split; [done|]. apply bind_Ok in H as ([d1 s] & Hs & H). apply bind_Ok in H as (d2 & H2 & H).
    apply bind_Ok in H as (b' & Hb' & H). apply bind_Ok in H as (d3 & H3 & H). apply bind_Ok in H as (d4 & H4 & [= <- <- <- <- <-]).
    apply binding_same in Hb' as <-. exists d1, s, d2. split_and!; try done.
    assert (exists l, rows_of "mission_permission_bindings" d2 = PList l) as [l Hl].
    { unfold append_row in H3. destruct (rows_of _ d2); try done. by eexists. }
    exists l. split; [done|]. split.
    + rewrite (rows_audited _ _ _ _ _ _ H4) by done. unfold append_row in H3. rewrite Hl in H3. injection H3 as <-.
      by rewrite rows_of_dset, String.eqb_refl.
    + intros k Hk Hk'. rewrite (rows_audited _ _ _ _ _ _ H4) by done. by rewrite (GovernanceStore.rows_append_row _ _ _ _ _ H3).
  - left. apply bind_Ok in H as ([[[p' u'] t'] b'] & Hr & [= <- -> -> -> ->]). 
    assert (u0 = u) as ->; [|done]. unfold retry_records in Hr. apply bind_Ok in Hr as (? & _ & Hr). apply bind_Ok in Hr as (? & _ & Hr).
    repeat case_match; try done; by apply bind_Ok in Hr as (? & _ & [= _ -> _ _]).
Qed.

(** The records a retry finds, in the tables they come from. *)
Lemma retry_records_Ok doc bindings attempt_id session_id turn_id tool target risk call update p u t b :
  retry_records doc bindings attempt_id session_id turn_id tool target risk call update = Ok (p, u, t, b) ->
  exists id prows trows, dget "payload" update = PDict id /\ iter_rows "permission_requests" doc = Ok prows
    /\ iter_rows "protocol_state_transitions" doc = Ok trows /\ u = update
    /\ List.filter (fun p => py_eq (dget "permission_id" p) (dget "permission_id" id)) (dicts_of prows) = [p]
    /\ List.filter (fun b => is_row "attempt_id" attempt_id b && py_eq (dget "permission_id" b) (dget "permission_id" id)) bindings = [b]
    /\ List.filter (fun t => is_row "entity_type" "turn" t && is_row "entity_id" turn_id t
                             && is_row "to_state" "waiting_permission" t && is_row "reason" "permission_requested" t) (dicts_of trows) = [t].
Proof.
  unfold retry_records. intros (prows & Hp & H)%bind_Ok. apply bind_Ok in H as (trows & Ht & H).
  destruct (is_row "kind" _ _ && _ && _ && _) eqn:Hk; [|done]. rewrite !andb_true_iff in Hk. destruct Hk as [[[_ Hd] _] _].
  destruct (dget "payload" update) as [| | | | | | |d] eqn:Hpay; try done.
  destruct (List.filter _ (dicts_of prows)) as [|p0 [|]] eqn:E1; try done. destruct (List.filter _ bindings) as [|b0 [|]] eqn:E2; try done.
  destruct (List.filter _ (dicts_of trows)) as [|t0 [|]] eqn:E3; try done. apply bind_Ok in H as (? & _ & [= -> <- -> ->]).
  exists d, prows, trows. split_and!; done.
Qed.

Definition PERMISSION_TABLES : list string :=
  ["transport_updates"; "permission_requests"; "protocol_state_transitions"; "mission_permission_bindings"].

Lemma filter_found {A} (f : A -> bool) l x y : List.filter f l = [x] -> y ∈ l -> f y = true -> x = y.
Proof.
  intros H Hin Hf. assert (y ∈ List.filter f l) as Hy by (apply list_elem_of_In, filter_In; split; [by apply list_elem_of_In|done]).
  rewrite H in Hy. by apply list_elem_of_singleton in Hy.
Qed.

(** A permission recorded again, by any daemon and on any later document with
    the same permissions, is not recorded twice: when the call succeeds nothing is
    written and the records of the first call are returned. *)
Lemma permission_retry_returns_the_same w w' saved attempt_id session_id turn_id sequence tool target risk call saved1 records
    doc saved2 records' : good_stamps (ax_stamps w) ->
  record_mission_acp_permission_pending w saved attempt_id session_id turn_id sequence tool target risk call = Ok (saved1, records) ->
  (forall k, k ∈ PERMISSION_TABLES -> rows_of k doc = rows_of k saved1) ->
  record_mission_acp_permission_pending w' doc attempt_id session_id turn_id sequence tool target risk call = Ok (saved2, records') ->
  saved2 = doc /\ records' = records.
Proof.
  intros Hst H1 Hsame H2. destruct records as [[[p u] t] b], records' as [[[p' u'] t'] b'].
  apply pending_Ok in H1 as (d1 & v1 & ur1 & br1 & bs1 & Hv1 & Hu1 & Hb1 & Hbs1 & H1).
  apply pending_Ok in H2 as (d2 & v2 & ur2 & br2 & bs2 & Hv2 & Hu2 & Hb2 & Hbs2 & H2).
  pose proof (sv_rows _ _ _ _ (recovery_view_Ok _ _ _ _ Hv1)) as R1. pose proof (sv_rows _ _ _ _ (recovery_view_Ok _ _ _ _ Hv2)) as R2.
  assert (R : forall k, k ∈ PERMISSION_TABLES -> rows_of k d2 = rows_of k saved1) by (intros k Hk; by rewrite R2, Hsame).
  assert (Hin : forall k, bool_decide (k ∈ PERMISSION_TABLES) = true -> rows_of k d2 = rows_of k saved1) by (intros k ?%bool_decide_eq_true; by apply R).
  destruct H1 as [(-> & Hat1 & Hr1)|(Hat1 & d1' & s & d1'' & Hs & Happ & -> & -> & -> & Hba & Hbp & brows & Hbr & Hbr' & Hother)].
  - (* found, and found again *)
    assert (E : forall k, bool_decide (k ∈ PERMISSION_TABLES) = true -> iter_rows k d2 = iter_rows k d1)
      by (intros k Hk; unfold iter_rows; by rewrite Hin, R1).
    rewrite E in Hu2, Hb2 by done. assert (ur2 = ur1) as -> by congruence. assert (br2 = br1) as -> by congruence.
    assert (bs2 = bs1) as -> by congruence. destruct H2 as [(-> & Hat2 & Hr2)|(Hat2 & _)]; [|congruence]. split; [done|].
    assert (u' = u) as -> by congruence.
    assert (forall u, retry_records d2 bs1 attempt_id session_id turn_id tool target risk call u
                      = retry_records d1 bs1 attempt_id session_id turn_id tool target risk call u) as Er
      by (intros; unfold retry_records; by rewrite (E "permission_requests"), (E "protocol_state_transitions")).
    rewrite Er in Hr2. congruence.
  - destruct (append_staged_Ok _ _ _ Happ) as (ps & us & ts & _ & Hus & _ & Hps' & Hus' & Hts' & _).
    destruct (stage_records_Ok _ _ _ _ _ _ _ _ _ _ _ Hst Hs) as (Hd1 & turn & sess & seq & rows & total & ps0 & states & bases & current
      & [= <-] & [= <-] & [= <-] & _ & _ & _ & _ & _ & _ & _ & _ & _ & _ & _ & (Hti & _ & Htt & Hty & Htr) & (Hut & Hsn & Huq & _ & Hpay) & _ & _ & _ & _ & _ & _ & Hperm).
    unfold iter_rows in Hu2, Hb2. rewrite Hin in Hu2, Hb2 by done. rewrite Hother, Hus' in Hu2 by done. rewrite Hbr' in Hb2.
    injection Hu2 as <-. injection Hb2 as <-.
    assert (Hat : updates_at session_id turn_id sequence (us ++ [PDict (sg_update s)]) = [sg_update s]).
    { unfold iter_rows in Hu1. rewrite <- Hd1, Hus in Hu1. injection Hu1 as <-. unfold updates_at, dicts_of in Hat1 |- *.
      rewrite omap_app, List.filter_app, Hat1. cbn. unfold is_row. rewrite Hsn, Hut, Huq. cbn. rewrite !String.eqb_refl. unfold num_eqb. by rewrite Z.eqb_refl. }
    destruct H2 as [(-> & Hat2 & Hr2)|(Hat2 & _)]; [|congruence]. split; [done|]. rewrite Hat in Hat2. injection Hat2 as <-.
    apply retry_records_Ok in Hr2 as (d & prows & trows & Hd & Hp2 & Ht2 & _ & Fp & Fb & Ft). rewrite Hpay in Hd. injection Hd as <-.
    assert (Hpp : dget "permission_id" (permission_payload (sg_permission s) (PStr call) (PStr risk)) = dget "permission_id" (sg_permission s)) by done.
    rewrite Hpp in Fp, Fb.
    assert (Hid : dget "permission_id" (sg_permission s) = PStr (ap_permission (ax_stamps w)).1) by (by rewrite Hperm).
    unfold iter_rows in Hp2, Ht2. rewrite Hin, Hother in Hp2, Ht2 by done. rewrite Hps' in Hp2. rewrite Hts' in Ht2.
    injection Hp2 as <-. injection Ht2 as <-. rewrite Hid in Fp, Fb.
    assert (p' = sg_permission s) as ->.
    { apply (filter_found _ _ _ _ Fp); [|by apply py_eq_str]. apply elem_of_dicts_of, elem_of_app. right. by left. }
    assert (t' = sg_transition s) as ->.
    { apply (filter_found _ _ _ _ Ft); [apply elem_of_dicts_of, elem_of_app; right; by left|].
      unfold is_row. by rewrite Hty, Hti, Htt, Htr; cbn; rewrite String.eqb_refl. }
    assert (b' = b) as ->; [|done]. apply (filter_found _ _ _ _ Fb).
    + apply mapR_Ok in Hbs2. apply Forall2_app_inv_l in Hbs2 as (l1 & l2 & _ & Hl2 & ->).
      inversion Hl2 as [|x y ? ? Hx Hnil]; subst. inversion Hnil; subst. apply binding_same in Hx as <-. apply elem_of_app. right. by left.
    + unfold is_row. rewrite Hba, Hbp, Hid. cbn. by rewrite !String.eqb_refl.
Qed.

(** C17: A permission that is recorded leaves a valid ledger: the turn waits for
    the permission, which is new and pending and bound to the attempt, and all
    other entities are in the state they were in; its update is the next of the
    turn's, which stays within its 256 updates and its two megabytes with room for
    a last one.  A call that records nothing found the update already there. *)
Theorem permission_waits_within_bounds w saved attempt_id session_id turn_id sequence tool target risk call saved1 p u t b :
  good_stamps (ax_stamps w) ->
  record_mission_acp_permission_pending w saved attempt_id session_id turn_id sequence tool target risk call = Ok (saved1, (p, u, t, b)) ->
  (exists rows, iter_rows "transport_updates" saved = Ok rows /\ updates_at session_id turn_id sequence rows = [u] /\ saved1 = saved)
  \/ (staged_turn saved saved1 (PStr session_id) (PStr turn_id) (PInt sequence) (Staged p u t [])
      /\ dget "attempt_id" b = PStr attempt_id /\ dget "permission_id" b = dget "permission_id" p
      /\ exists rows, rows_of "mission_permission_bindings" saved = PList rows
           /\ rows_of "mission_permission_bindings" saved1 = PList (rows ++ [PDict b])).
Proof.
  intros Hst (doc & v & urows & brows & bs & Hv & Hu & Hb & _ & [(-> & Hat & _)|(Hat & doc1 & s & doc2 & Hs & Happ & -> & -> & -> & Hba & Hbp
    & rows & Hr & Hr' & Hother)])%pending_Ok; pose proof (sv_rows _ _ _ _ (recovery_view_Ok _ _ _ _ Hv)) as R.
  - left. exists urows. split_and!; try done. unfold iter_rows in *. by rewrite <- R.
  - right. destruct (stage_appends _ _ _ _ _ _ _ _ _ _ _ doc1 doc2 Hst Hs ltac:(done) Happ) as [Hturn Hsame].
    split; [|split_and!; try done].
    + assert (Hturn' : staged_turn doc doc2 (PStr session_id) (PStr turn_id) (PInt sequence) (Staged (sg_permission s) (sg_update s) (sg_transition s) []))
        by (by destruct Hturn).
      apply (staged_turn_ext doc saved doc2 saved1); [by intros; rewrite R| |done].
      intros k Hk. apply Hother; intros ->; by apply (bool_decide_eq_true_2 _) in Hk.
    + exists rows. split; [|done]. rewrite <- R, <- Hsame; [done|]. intros Hk. by apply (bool_decide_eq_true_2 _) in Hk.
Qed.
End permission_laws.

(** ** Witnesses *)

#[local] Existing Instance sample_env.
#[local] Existing Instance sample_limits.
#[local] Existing Instance sample_float_text.
#[local] Existing Instance sample_float_laws.
#[local] Existing Instance sample_repr.

Definition sample_session : dict :=
  [("session_id", PStr "ags_a"); ("agent_id", PStr "codex"); ("provider", PStr "codex"); ("transport", PStr "acp-adapter");
   ("native_session_id", PStr "native"); ("workspace", PStr "/project");
   ("capabilities", PDict ((fun k => (k, PBool (negb (String.eqb k "observable_terminal")))) <$> _TRANSPORT_CAPABILITY_FIELDS));
   ("state", PStr "busy"); ("created_at", PStr (instant_text 1000)); ("updated_at", PStr (instant_text 1000));
   ("observation_bindings", PList [])].
Definition sample_turn : dict :=
  [("turn_id", PStr "trn_a"); ("session_id", PStr "ags_a"); ("message_id", PStr ("dsp_" +:+ hex_a)); ("kind", PStr "prompt");
   ("state", PStr "streaming"); ("created_at", PStr (instant_text 1000)); ("updated_at", PStr (instant_text 1000))].
Definition sample_acp_world (n : nat) : acp_world :=
  AcpWorld (sample_evidence_world n)
    (AcpStamps ("prm_0123456789ab", instant_text 1000) ("upd_a", instant_text 1000) ("pst_a", instant_text 1000)
       (fun i => ("evt_a" +:+ pretty i, instant_text 1000)))
    (path_of "/project") Ok (fun c => c) ("aec_a", instant_text 1000).

(** A prepared attempt is claimed; its Worker's session is busy with the turn. *)
Definition claimed_doc : dict :=
  match run_attempt_op (sample_world 1)
          (sample_state waiting_attempt ++ [("agent_sessions", PList [PDict sample_session]); ("protocol_turns", PList [PDict sample_turn])])
          claim_prepared with
  | Ok p => p.1
  | Err _ => []
  end.
#[local] Notation pending_call doc :=
  (record_mission_acp_permission_pending (sample_acp_world 3) doc "mat_0123456789ab" "ags_a" "trn_a" 0 "edit" "src/main.py" "low" "call_1").
Definition doc_of {A} (r : result (dict * A)) : dict := match r with Ok p => p.1 | Err _ => [] end.
Definition pending_doc : dict := doc_of (pending_call claimed_doc).

(** A human approves it. *)
Definition approved_doc : dict :=
  let approval := [("transition_id", PStr "pst_b"); ("entity_type", PStr "permission"); ("entity_id", PStr "prm_0123456789ab");
                   ("from_state", PStr "pending"); ("to_state", PStr "approved"); ("reason", PNone); ("details", PDict []);
                   ("created_at", PStr (instant_text 1000))] in
  doc_of (doc ← append_row "protocol_state_transitions" approval pending_doc; Ok (doc, tt)).
#[local] Notation authorize_call n doc :=
  (authorize_mission_acp_effect (sample_acp_world n) doc "mat_0123456789ab" "prm_0123456789ab").

(** The first call allows the effect, the second refuses it. *)
Definition effect_doc (n : nat) (doc : dict) : dict := doc_of (authorize_call n doc).
Lemma authorize_runs n doc allowed : (r ← authorize_call n doc; Ok (dget "allowed" r.2)) = Ok (PBool allowed) ->
  exists r, authorize_call n doc = Ok (effect_doc n doc, r) /\ dget "allowed" r = PBool allowed.
Proof.
  unfold effect_doc. destruct (authorize_call n doc) as [[d r]|]; [|done]. cbn [mbind result_bind]. intros H. injection H as H.
  exists r. split; [reflexivity|exact H].
Qed.
Lemma first_allowed : (r ← authorize_call 4 approved_doc; Ok (dget "allowed" r.2)) = Ok (PBool true).
Proof. by vm_compute. Qed.
Lemma second_refused : (r ← authorize_call 5 (effect_doc 4 approved_doc); Ok (dget "allowed" r.2)) = Ok (PBool false).
Proof. by vm_compute. Qed.
Lemma authorize_step n doc a l doc' : (exists r, authorize_call n doc = Ok (effect_doc n doc, r) /\ dget "allowed" r = PBool a) ->
  effect_run (effect_doc n doc) l doc' ->
  effect_run doc ((if a then [("mat_0123456789ab", "prm_0123456789ab")] else []) ++ l) doc'.
Proof. intros (r & H & A) Hrun. pose proof (er_authorize _ _ _ _ _ _ _ _ H Hrun) as E. by rewrite A in E. Qed.
Lemma sample_effect_run : effect_run approved_doc [("mat_0123456789ab", "prm_0123456789ab")] (effect_doc 5 (effect_doc 4 approved_doc)).
Proof.
  apply (authorize_step 4 approved_doc true []); [exact (authorize_runs _ _ _ first_allowed)|].
  apply (authorize_step 5 (effect_doc 4 approved_doc) false []); [exact (authorize_runs _ _ _ second_refused)|]. constructor.
Qed.


Lemma sample_stamps_good n : good_stamps (ax_stamps (sample_acp_world n)).
Proof. split; by vm_compute. Qed.

(** The permission is recorded once and found again. *)
Definition records_of (r : result (dict * (dict * dict * dict * dict))) : dict * dict * dict * dict :=
  match r with Ok p => p.2 | Err _ => ([], [], [], []) end.
Definition recorded : dict * dict * dict * dict := records_of (pending_call claimed_doc).
Lemma pending_runs : pending_call claimed_doc = Ok (pending_doc, recorded).
Proof.
  assert (is_ok (pending_call claimed_doc) = true) as H by (by vm_compute). unfold pending_doc, recorded.
  destruct (pending_call claimed_doc) as [[d r]|]; [exact eq_refl|discriminate H].
Qed.

Lemma permission_retry_returns_the_same_witness : pending_call pending_doc = Ok (pending_doc, recorded).
Proof.
  assert (is_ok (pending_call pending_doc) = true) as Hok by (by vm_compute).
  destruct (pending_call pending_doc) as [[doc r]|] eqn:E; [|discriminate Hok].
  destruct (permission_retry_returns_the_same (sample_acp_world 3) (sample_acp_world 3) claimed_doc "mat_0123456789ab" "ags_a" "trn_a" 0%Z "edit" "src/main.py" "low" "call_1"
              pending_doc recorded pending_doc doc r (sample_stamps_good 3) pending_runs (fun _ _ => eq_refl) E) as [-> ->].
  exact eq_refl.
Defined.

Lemma permission_waits_within_bounds_witness :
  staged_turn claimed_doc pending_doc (PStr "ags_a") (PStr "trn_a") (PInt 0)
    (Staged recorded.1.1.1 recorded.1.1.2 recorded.1.2 []).
Proof.
  pose proof pending_runs as H. destruct recorded as [[[p u] t] b] eqn:E. 
  destruct (permission_waits_within_bounds (sample_acp_world 3) claimed_doc "mat_0123456789ab" "ags_a" "trn_a" 0%Z "edit" "src/main.py" "low" "call_1"
              pending_doc p u t b (sample_stamps_good 3) H) as [(rows & Hr & Hat & _)|[Hs _]]; [|exact Hs].
  exfalso. vm_compute in Hr. injection Hr as <-. discriminate Hat.
Defined.
