(* ===== verification/MissionStore.v ===== *)
(** * Missions in the store ([state.py], [mission.py])

    From the user's request to the attempt a Worker is given: the record of a
    Mission, its confirmation with the execution snapshot that freezes what it
    may do, its admission to the daemon, the start of a Worker's pane for one of
    its steps, and the preparation of an attempt for its next step.

    An operation reads the saved document under the store's lock and returns the
    document it saves.  The project's configuration as it is read, the snapshot
    that would be frozen from it now, the validation of a semantic plan and the
    hash of its authority ([mission_authority.py], [semantic_authority.py]), new
    identities, clock readings and the journal are given. *)
From S2P Require Import Prelude PyStr PyVal ReviewVerdict ReviewGroup Json Protocol Handoff Scheduler Lease Store Conversation Attempt Snapshot AttemptStore Recovery.
From S2P Require Import AgentProtocol Governance GovernanceStore EvidenceStore.

(** ** The project's configuration ([models.py]): the fields the store reads *)

Record AgentSpec := {
  ag_agent_id : string; ag_role : string; ag_provider : string; ag_command : string; ag_workspace_mode : string;
  ag_role_prompt : string; ag_transport : string; ag_transport_command : list string
}.
Record RuntimeConfig := { rt_backend : string; rt_session_name : string; rt_socket_name : string }.
Record ProjectConfig := { cf_root : string; cf_agents : list AgentSpec; cf_runtime : RuntimeConfig }.

Record mission_world := MissionWorld {
  mw_evidence : evidence_world;
  mw_config : result ProjectConfig;
  mw_semantic : pyval -> result dict;
  mw_authority_hash : pyval -> result string;
  mw_mission : string; mw_attempt : string; mw_start : string
}.

(** ** The Leader's backend *)

Definition API_PROVIDERS : list string := ["deepseek"; "openai-compatible"].
Definition CLI_PROVIDERS : list string := ["codex-cli"; "claude-cli"].
Definition provider_kind (api cli local : string) (provider : pyval) : string :=
  if is_form (fun p => in_strs p API_PROVIDERS) provider then api
  else if is_form (fun p => in_strs p CLI_PROVIDERS) provider then cli
  else if py_eq provider (PStr "fake") then local else "unknown".
Definition leader_provider_backend : pyval -> string := provider_kind "api" "cli" "local".
Definition leader_provider_transport : pyval -> string := provider_kind "http" "subprocess" "local".
Definition leader_reasoning_backend : pyval -> string := provider_kind "api-llm" "cli-subprocess" "local-fake".

Definition leader_backend_identity (provider model : pyval) (dispatch_ready : bool) : dict :=
  [("agent_id", PStr "leader"); ("provider", provider); ("model", model);
   ("provider_backend", PStr (leader_provider_backend provider)); ("provider_transport", PStr (leader_provider_transport provider));
   ("reasoning_backend", PStr (leader_reasoning_backend provider)); ("runtime_kind", PStr "logical_leader");
   ("pane_backed", PBool false); ("pane_id", PNone); ("approval_required", PBool true); ("dispatch_ready", PBool dispatch_ready)].

(** ** The summaries a Mission keeps *)

Definition MISSION_SELECTED_AGENT_REQUIRED_FIELDS : list string :=
  ["agent_id"; "provider"; "role"; "workspace_mode"; "runtime_status"; "effective_model"; "model_source"].
Definition MISSION_SELECTED_AGENT_FIELDS : list string := MISSION_SELECTED_AGENT_REQUIRED_FIELDS ++ ["blocker"].
Definition MISSION_STARTUP_ACTION_REQUIRED_FIELDS : list string :=
  ["agent_id"; "action"; "runtime_status"; "effective_model"; "model_source"].
Definition MISSION_STARTUP_ACTION_FIELDS : list string := MISSION_STARTUP_ACTION_REQUIRED_FIELDS ++ ["blocker"].
Definition MISSION_WORKER_NULLABLE_FIELDS : list string := ["effective_model"; "blocker"].

Definition compact_mission_blockers (value : pyval) : list string * bool :=
  match value with
  | PList l => let blockers := omap (fun v => match v with PStr s => Some s | _ => None end) l in
               (blockers, negb (length blockers =? length l))
  | _ => ([], true)
  end.

Definition worker_field_ok (f : string) (v : pyval) : bool :=
  is_str v || in_strs f MISSION_WORKER_NULLABLE_FIELDS && Attempt.is_none v.
(** The entry with its known fields; is it complete, and are its fields valid? *)
Definition compact_entry (fields required : list string) (startup : bool) (raw : dict) : dict * (bool * bool) :=
  let item := omap (fun f => match dlookup f raw with
                             | Some v => if worker_field_ok f v then Some (f, v) else None
                             | None => None
                             end) fields in
  let valid := forallb (fun f => match dlookup f raw with Some v => worker_field_ok f v | None => true end) fields in
  let complete := has_keys required item && (negb startup || is_form (fun a => in_strs a ["reuse"; "spawn"]) (dget "action" item)) in
  (item, (complete, valid)).
Definition add_entry (fields required : list string) (startup : bool) (acc : list dict * nat) (raw : pyval) : list dict * nat :=
  match raw with
  | PDict raw =>
      let '(item, (complete, valid)) := compact_entry fields required startup raw in
      (if complete then acc.1 ++ [item] else acc.1, if valid && complete then acc.2 else S acc.2)
  | _ => (acc.1, S acc.2)
  end.
Definition compact_mission_worker_entries (value : pyval) (kind : string) : result (list dict * nat) :=
  '(fields, required) ←
    (if String.eqb kind "selected_agents" then Ok (MISSION_SELECTED_AGENT_FIELDS, MISSION_SELECTED_AGENT_REQUIRED_FIELDS)
     else if String.eqb kind "startup_actions" then Ok (MISSION_STARTUP_ACTION_FIELDS, MISSION_STARTUP_ACTION_REQUIRED_FIELDS)
     else Err (ValueError ("unknown mission worker summary kind: " +:+ kind)));
  Ok (match value with
      | PList l => foldl (add_entry fields required (String.eqb kind "startup_actions")) ([], 0) l
      | _ => ([], 1)
      end).

(** [daemon_mission_authority_state]: has the daemon been given the Mission? *)
Definition ADMISSION_FIELDS : list string := ["state"; "snapshot_hash"; "blocker"; "recovery_command"; "updated_at"].
Definition get_in (k : string) (v : pyval) : pyval := match v with PDict d => dget k d | _ => PNone end.
Definition daemon_mission_authority_state (mission : dict) : result string :=
  let snapshot_hash := dget "snapshot_hash" mission in
  let snapshot := dget "execution_snapshot" mission in
  let admission := dget "daemon_admission" mission in
  let exact_hash := is_hash snapshot_hash && py_eq (get_in "execution_hash" snapshot) snapshot_hash
                    && py_eq (get_in "snapshot_hash" admission) snapshot_hash in
  let exact_admission := match admission with
    | PDict a => keys_are ADMISSION_FIELDS a && py_eq (dget "state" a) (PStr "admitted") && Attempt.is_none (dget "blocker" a)
                 && Attempt.is_none (dget "recovery_command" a) && is_form nonempty (dget "updated_at" a)
    | _ => false
    end in
  if exact_hash && exact_admission then Ok "admitted"
  else if negb (Attempt.is_none snapshot_hash) || negb (Attempt.is_none snapshot) then Ok "incomplete"
  else
    known ← in_str_set (get_in "state" admission) ["admitted"; "confirmed_not_admitted"];
    Ok (if known : bool then "incomplete" else "legacy").

(** ** Shared steps *)

(** [d[k]] *)
Definition item_at (k : string) (d : dict) : result pyval := match dlookup k d with Some v => Ok v | None => Err (KeyError k) end.

Definition _unique_mission_record (doc : dict) (mission_id : string) : result dict :=
  missions ← iter_rows "missions" doc;
  match GovernanceStore.rows_with "mission_id" mission_id missions with
  | [m] => Ok m
  | [] => Err (KeyError mission_id)
  | _ => Err (ValueError "duplicate mission identity")
  end.
Definition mission_by_id (doc : dict) (mission_id : string) : result dict :=
  missions ← iter_rows "missions" doc;
  match GovernanceStore.rows_with "mission_id" mission_id missions with
  | m :: _ => Ok m
  | [] => Err (KeyError mission_id)
  end.
Definition list_missions (doc : dict) : result (list pyval) := iter_rows "missions" doc.

(** The Mission's row replaced by [mission]. *)
Definition put_mission (mission_id : string) (mission doc : dict) : dict :=
  match rows_of "missions" doc with
  | PList rows => dset "missions" (PList (replace_first (is_row "mission_id" mission_id) mission rows)) doc
  | _ => doc
  end.

(** [state.setdefault(key, []).append(event)] *)
Definition append_event (k : string) (event : pyval) (doc : dict) : result dict :=
  match rows_of k doc with PList l => Ok (dset k (PList (l ++ [event])) doc) | _ => Err AttributeError end.

(** [semantic_mission_provenance_shape] of [mission_authority.py]: is semantic
    authority involved, is the plan semantic, does the Mission carry all of it? *)
Definition semantic_mission_provenance_shape (plan : pyval) (mission : dict) : bool * bool * bool :=
  let plan_is_semantic := match plan with PDict d => dmem "semantic_authority" d || dmem "semantic_steps" d | _ => false end in
  (plan_is_semantic || existsb (fun f => dmem f mission) SEMANTIC_MISSION_COMPACT_FIELDS, plan_is_semantic,
   has_keys SEMANTIC_MISSION_COMPACT_FIELDS mission).

Section missions.
Context {env : LeaseEnv} {ft : FloatText} {lim : RecursionLimits} {repr : PyRepr}.
Variable w : mission_world.
#[local] Notation ew := (mw_evidence w).
#[local] Notation now := (ew_now ew).

(** The event [EventRecord.create] makes, the [n]-th of the operation. *)
Definition created_event (n : nat) (event_type : string) (payload : dict) : pyval :=
  event_doc (ew_event ew n).1 event_type (ew_event ew n).2 payload.

(** ** Creating a Mission *)

(** The arguments of [create_mission] and [build_mission_record]. *)
Record mission_request := MissionRequest {
  rq_user_message : pyval; rq_can_start : pyval; rq_blockers : pyval; rq_provider : pyval; rq_model : pyval;
  rq_leader_backend : pyval; rq_plan_id : pyval; rq_plan_hash : pyval; rq_selected_agents : pyval; rq_startup_actions : pyval;
  rq_step_count : pyval; rq_timeout_seconds : pyval; rq_retry_limit : pyval
}.

Definition check_request (q : mission_request) : result (list string * list dict * list dict) :=
  _ ← raise_if (negb (forallb (is_form nonempty) [rq_user_message q; rq_provider q; rq_model q; rq_plan_id q; rq_plan_hash q]))
               (ValueError "mission identity fields must be non-empty strings");
  _ ← raise_if (match rq_can_start q with PBool _ => false | _ => true end) (ValueError "can_start must be a boolean");
  let can_start := Recovery.is_true (rq_can_start q) in
  let '(blockers, invalid_blockers) := compact_mission_blockers (rq_blockers q) in
  _ ← raise_if invalid_blockers (ValueError "blockers must be a list of strings");
  _ ← raise_if (can_start && negb (match blockers with [] => true | _ => false end)) (ValueError "can_start requires empty blockers");
  _ ← raise_if (negb (int_from 1 (rq_step_count q))) (ValueError "step_count must be a positive integer");
  _ ← raise_if (negb (int_from 1 (rq_timeout_seconds q))) (ValueError "timeout_seconds must be a positive integer");
  _ ← raise_if (negb (int_from 0 (rq_retry_limit q))) (ValueError "retry_limit must be a non-negative integer");
  _ ← raise_if (negb (py_eq (rq_leader_backend q) (PDict (leader_backend_identity (rq_provider q) (rq_model q) false))))
               (ValueError "leader_backend must match provider and model");
  '(agents, invalid_agents) ← compact_mission_worker_entries (rq_selected_agents q) "selected_agents";
  '(actions, invalid_actions) ← compact_mission_worker_entries (rq_startup_actions q) "startup_actions";
  _ ← raise_if (negb (invalid_agents =? 0) || negb (invalid_actions =? 0))
               (ValueError "mission worker summaries must use compact domain fields");
  _ ← raise_if (can_start && ((length agents <? 2) || (length actions <? 2)
                              || negb (py_eq (PList (dget "agent_id" <$> agents)) (PList (dget "agent_id" <$> actions)))))
               (ValueError "startable mission requires matching worker and startup summaries");
  Ok (blockers, agents, actions).

Definition mission_record (q : mission_request) (blockers : list string) (agents actions : list dict) : dict :=
  [("mission_id", PStr (mw_mission w)); ("schema_version", PStr MISSION_SCHEMA_VERSION); ("user_message", rq_user_message q);
   ("status", PStr "pending_confirmation"); ("stop_reason", PNone); ("can_start", rq_can_start q);
   ("blockers", PList (PStr <$> blockers)); ("provider", rq_provider q); ("model", rq_model q);
   ("leader_backend", PDict (leader_backend_identity (rq_provider q) (rq_model q) false)); ("plan_id", rq_plan_id q);
   ("plan_hash", rq_plan_hash q); ("selected_agents", dict_rows agents); ("startup_actions", dict_rows actions);
   ("step_count", rq_step_count q); ("timeout_seconds", rq_timeout_seconds q); ("retry_limit", rq_retry_limit q);
   ("workflow_run_id", PNone); ("current_step", PInt 0); ("confirmed_at", PNone); ("execution_snapshot", PNone);
   ("snapshot_hash", PNone); ("execution_authority_hash", PNone); ("completed_at", PNone); ("created_at", PStr now);
   ("updated_at", PStr now)].

Definition create_mission (doc : dict) (q : mission_request) : result (dict * dict) :=
  '(blockers, agents, actions) ← check_request q;
  let record := mission_record q blockers agents actions in
  doc ← append_row "missions" record doc;
  Ok (doc, record).

(** A validated semantic plan: its authority's schema and hash, the hashes of its
    compiled tasks. *)
Definition task_hash_of (step : pyval) : result string :=
  d ← as_dict step; task ← item_at "task" d;
  match task with PStr t => Ok ("sha256:" +:+ sha256_hex t) | _ => Err AttributeError end.
Definition semantic_of (plan : pyval) : result (pyval * string * list string) :=
  validated ← mw_semantic w plan;
  authority ← item_at "semantic_authority" validated;
  hash ← mw_authority_hash w authority;
  steps ← item_at "steps" validated;
  steps ← py_iter steps;
  tasks ← mapR task_hash_of steps;
  fields ← as_dict authority;
  schema ← item_at "schema_version" fields;
  Ok (schema, hash, tasks).
Definition semantic_fields (semantic : pyval * string * list string) : dict :=
  let '(schema, hash, tasks) := semantic in
  [("semantic_authority_schema_version", schema); ("semantic_authority_hash", PStr hash);
   ("compiled_task_hashes", PList (PStr <$> tasks)); ("preview_generation", PInt 1)].

Definition build_mission_record (q : mission_request) (semantic_plan : pyval) : result dict :=
  '(blockers, agents, actions) ← check_request q;
  fields ← match semantic_plan with
           | PNone => Ok []
           | plan => semantic ← semantic_of plan; Ok (semantic_fields semantic)
           end;
  Ok (mission_record q blockers agents actions ++ fields).

(** ** Confirming a Mission *)

(** The snapshot the configuration gives now; a failure to build one is drift. *)
Definition current_authority (drifted : exn) (mission plan : dict) : result dict :=
  match ew_rebuild ew mission plan with
  | Ok snapshot => Ok snapshot
  | Err (MissionStateError m) => Err (MissionStateError m)
  | Err e => Err (if os_error e || type_or_value e then drifted else e)
  end.
Definition authority_drift : exn := MissionStateError "execution authority drift".
Definition plan_of (doc mission : dict) : result dict :=
  _unique_plan_record doc (py_str (py_or (dget "plan_id" mission) (PStr ""))).

Definition confirmable (mission : dict) : bool :=
  is_row "status" "pending_confirmation" mission && Recovery.is_true (dget "can_start" mission)
  && py_eq (dget "blockers" mission) (PList []) && Attempt.is_none (dget "confirmed_at" mission)
  && Attempt.is_none (dget "execution_snapshot" mission) && Attempt.is_none (dget "snapshot_hash" mission).

(** The event that freezes the semantic authority, when the Mission has one. *)
Definition semantic_frozen_event (mission_id : string) (mission plan snapshot : dict) : result (option pyval) :=
  let plan_body := dget "plan" plan in
  let '(semantic_active, plan_is_semantic, present) := semantic_mission_provenance_shape plan_body mission in
  if negb semantic_active then Ok None
  else
    _ ← raise_if (negb plan_is_semantic || negb present) authority_drift;
    '(schema, hash, tasks) ← semantic_of plan_body;
    let hashes := PList (PStr <$> tasks) in
    _ ← raise_if (negb (py_eq (dget "semantic_authority_schema_version" mission) schema)
                  || negb (py_eq (dget "semantic_authority_hash" mission) (PStr hash))
                  || negb (py_eq (dget "compiled_task_hashes" mission) hashes)
                  || negb (py_eq (dget "preview_generation" mission) (PInt 1))) authority_drift;
    Ok (Some (created_event 1 "mission_semantic_authority_frozen"
                [("mission_id", PStr mission_id); ("plan_id", PStr (py_str (py_or (dget "plan_id" mission) (PStr ""))));
                 ("semantic_authority_hash", PStr hash); ("compiled_task_hashes", hashes);
                 ("compiled_step_count", PInt (Z.of_nat (length tasks))); ("policy_snapshot_hash", dget "policy_hash" snapshot);
                 ("preview_generation", PInt 1)])).

Definition confirmed_mission (confirmed_at : pyval) (snapshot mission : dict) : dict :=
  dupdate [("status", PStr "preparing"); ("can_start", PBool false); ("confirmed_at", confirmed_at); ("updated_at", confirmed_at);
           ("execution_snapshot", PDict snapshot); ("snapshot_hash", dget "execution_hash" snapshot)] mission.

(** The evidence of a Mission no attempt of which was prepared yet. *)
Definition unbound (mission_id : string) : dict :=
  [("mission_id", PStr mission_id); ("attempt_id", PNone); ("agent_id", PNone)].
Definition add_unbound (mission_id : string) (doc : dict) : result dict :=
  rows ← typed_table "mission_recovery_evidence" (must_be_list "mission_recovery_evidence") doc;
  evidence ← mapR validate_mission_recovery_evidence_record rows;
  _ ← raise_if (existsb (is_row "mission_id" mission_id) evidence) (ValueError "duplicate durable recovery evidence");
  record ← validate_mission_recovery_evidence_record (PDict (unbound mission_id));
  Ok (dset "mission_recovery_evidence" (PList (rows ++ [PDict record])) doc).

Definition freeze_mission_execution (doc : dict) (mission_id : string) (confirmed_at : pyval) : result (dict * dict) :=
  let untimely := ValueError "confirmation timestamp invalid" in
  _ ← raise_if (negb (is_canonical_mission_id (PStr mission_id))) (ValueError "mission identity invalid");
  _ ← raise_if (negb (is_form nonempty confirmed_at)) untimely;
  parsed ← aware_instant confirmed_at untimely;
  mission ← _unique_mission_record doc mission_id;
  plan ← plan_of doc mission;
  created ← aware_instant (dget "created_at" mission) untimely;
  _ ← raise_if (parsed <? created)%Z untimely;
  _ ← raise_if (negb (confirmable mission)) (ValueError "mission is not confirmable");
  snapshot ← current_authority authority_drift mission plan;
  let authority_hash := dget "execution_authority_hash" mission in
  _ ← raise_if (negb (is_hash authority_hash) || negb (py_eq (dget "execution_hash" snapshot) authority_hash)) authority_drift;
  semantic ← semantic_frozen_event mission_id mission plan snapshot;
  let mission' := confirmed_mission confirmed_at snapshot mission in
  doc ← add_unbound mission_id (put_mission mission_id mission' doc);
  doc ← append_event "protocol_event_outbox"
          (created_event 0 "mission_execution_frozen"
             [("mission_id", PStr mission_id); ("snapshot_hash", dget "execution_hash" snapshot)]) doc;
  doc ← match semantic with Some event => append_event "protocol_event_outbox" event doc | None => Ok doc end;
  Ok (doc, mission').

(** ** Admitting a Mission to the daemon *)

Definition _mission_admission_record (mission_id snapshot_hash state : string) (blocker : pyval) : result dict :=
  _ ← raise_if (negb (in_strs state ["confirmed_not_admitted"; "admitted"])) (ValueError "Mission admission state invalid");
  let waiting := String.eqb state "confirmed_not_admitted" in
  _ ← raise_if (String.eqb state "admitted" && negb (Attempt.is_none blocker)) (ValueError "Mission admission blocker invalid");
  _ ← raise_if (waiting && negb (is_form nonempty blocker)) (ValueError "Mission admission blocker invalid");
  Ok [("state", PStr state); ("snapshot_hash", PStr snapshot_hash); ("blocker", blocker);
      ("recovery_command", if waiting then PStr ("agentdeck mission run --mission-id " +:+ mission_id +:+ " --confirm") else PNone);
      ("updated_at", PStr now)].

Definition admission_drift : exn := ValueError "Mission admission drift".
Definition admission_of (mission : dict) : dict := match dget "daemon_admission" mission with PDict a => a | _ => [] end.
Definition save_admission (doc : dict) (mission_id snapshot_hash event_type : string) (mission record : dict) : result dict :=
  ev_audit ew event_type [("mission_id", PStr mission_id); ("snapshot_hash", PStr snapshot_hash)]
    (put_mission mission_id (dset "daemon_admission" (PDict record) mission) doc).

Definition record_mission_not_admitted (doc : dict) (mission_id snapshot_hash : string) (blocker : pyval) : result (dict * dict) :=
  mission ← _unique_mission_record doc mission_id;
  _ ← raise_if (negb (is_row "status" "preparing" mission) || negb (is_row "snapshot_hash" snapshot_hash mission)) admission_drift;
  snapshot ← validate_execution_snapshot (dget "execution_snapshot" mission);
  _ ← raise_if (negb (is_row "execution_hash" snapshot_hash snapshot)) admission_drift;
  let current := admission_of mission in
  if is_row "state" "admitted" current
     || is_row "state" "confirmed_not_admitted" current && is_row "snapshot_hash" snapshot_hash current
        && py_eq (dget "blocker" current) blocker
  then Ok (doc, current)
  else
    record ← _mission_admission_record mission_id snapshot_hash "confirmed_not_admitted" blocker;
    doc ← save_admission doc mission_id snapshot_hash "mission_admission_deferred" mission record;
    Ok (doc, record).

(** [[validate(item) for item in rows if item is the Mission's]] *)
Definition bindings_of (doc : dict) (mission_id : string) : result (list dict) :=
  rows ← iter_rows "mission_recovery_evidence" doc;
  mapR (fun d => validate_mission_recovery_evidence_record (PDict d)) (GovernanceStore.rows_with "mission_id" mission_id rows).

Definition admit_mission_execution (doc : dict) (mission_id snapshot_hash : string) : result (dict * dict) :=
  mission ← _unique_mission_record doc mission_id;
  snapshot ← match validate_execution_snapshot (dget "execution_snapshot" mission) with
             | Err e => Err (if value_error e then admission_drift else e)
             | r => r
             end;
  bindings ← bindings_of doc mission_id;
  _ ← raise_if (negb (is_row "status" "preparing" mission) || Attempt.is_none (dget "confirmed_at" mission)
                || negb (is_row "snapshot_hash" snapshot_hash mission) || negb (is_row "execution_hash" snapshot_hash snapshot)
                || negb (match bindings with [b] => py_eq (PDict b) (PDict (unbound mission_id)) | _ => false end)) admission_drift;
  let current := admission_of mission in
  if is_row "state" "admitted" current && is_row "snapshot_hash" snapshot_hash current then Ok (doc, current)
  else
    record ← _mission_admission_record mission_id snapshot_hash "admitted" PNone;
    doc ← save_admission doc mission_id snapshot_hash "mission_admitted" mission record;
    Ok (doc, record).

(** ** Starting a Worker's pane *)

Definition worker_runtime_identity_hash (agent : AgentSpec) (rt : RuntimeConfig) : result string :=
  canonical_snapshot_hash (PDict
    [("command", PStr (ag_command agent)); ("transport_command", PList (PStr <$> ag_transport_command agent));
     ("role_prompt", PStr (ag_role_prompt agent));
     ("runtime", PDict [("backend", PStr (rt_backend rt)); ("session_name", PStr (rt_session_name rt));
                        ("socket_name", PStr (rt_socket_name rt))])]).

Definition frozen_worker_rows (snapshot : dict) : list dict :=
  match dget "workers" snapshot with PList l => dicts_of l | _ => [] end.

(** The frozen step at the Mission's cursor and its Worker, to be spawned. *)
Definition startup_scope (mission snapshot : dict) (step_id agent_id : string) : result dict :=
  _ ← raise_if (negb (is_dict (dget "daemon_admission" mission)) || negb (is_row "state" "admitted" (admission_of mission))
                || negb (py_eq (dget "snapshot_hash" (admission_of mission)) (dget "execution_hash" snapshot))
                || negb (py_eq (dget "snapshot_hash" mission) (dget "execution_hash" snapshot)))
               (ValueError "Worker startup Mission authority is invalid");
  let bad_cursor := ValueError "Worker startup step authority is invalid" in
  step ← match dget "current_step" mission with
         | PInt cursor => if (cursor <? 0)%Z then Err bad_cursor
                          else match frozen_steps snapshot !! Z.to_nat cursor with Some s => as_dict s | None => Err bad_cursor end
         | _ => Err bad_cursor
         end;
  actions ← iter_rows "startup_actions" mission;
  match List.filter (is_row "agent_id" agent_id) (frozen_worker_rows snapshot), GovernanceStore.rows_with "agent_id" agent_id actions with
  | [worker], [action] =>
      _ ← raise_if (negb (is_row "step_id" step_id step) || negb (is_row "agent_id" agent_id step)
                    || negb (is_row "configured_transport" "tmux" worker) || negb (is_row "action" "spawn" action))
                   (ValueError "Worker startup frozen scope is invalid");
      Ok worker
  | _, _ => Err (ValueError "Worker startup frozen scope is invalid")
  end.

Definition agents_with (agent_id : string) (config : ProjectConfig) : list AgentSpec :=
  List.filter (fun a => String.eqb (ag_agent_id a) agent_id) (cf_agents config).
Definition check_runtime (worker : dict) (agent_id : string) : result unit :=
  let identity_drift := ValueError "Worker startup runtime identity drift" in
  config ← mw_config w;
  match agents_with agent_id config with
  | [agent] =>
      _ ← raise_if (negb (String.eqb (ag_transport agent) "tmux") || negb (is_row "provider" (ag_provider agent) worker)
                    || negb (is_row "role" (ag_role agent) worker) || negb (is_row "workspace_mode" (ag_workspace_mode agent) worker))
                   identity_drift;
      hash ← worker_runtime_identity_hash agent (cf_runtime config);
      raise_if (negb (py_eq (PStr hash) (dget "runtime_identity_hash" worker))) identity_drift
  | _ => Err identity_drift
  end.

Definition claim_mission_worker_start (doc : dict) (mission_id step_id agent_id : string) : result (dict * dict) :=
  mission ← _unique_mission_record doc mission_id;
  snapshot ← validate_execution_snapshot (dget "execution_snapshot" mission);
  under_way ← in_str_set (dget "status" mission) ["preparing"; "running"];
  _ ← raise_if (negb under_way) (ValueError "Worker startup Mission authority is invalid");
  worker ← startup_scope mission snapshot step_id agent_id;
  _ ← check_runtime worker agent_id;
  let invalid := ValueError "Worker startup ledger is invalid" in
  starts ← typed_table "mission_worker_starts" invalid doc;
  _ ← raise_if (negb (forallb is_dict starts)) invalid;
  _ ← raise_if (existsb (fun s => is_row "mission_id" mission_id s && is_row "step_id" step_id s) (dicts_of starts))
               (ValueError "Worker startup already recorded");
  let record := [("start_id", PStr (mw_start w)); ("mission_id", PStr mission_id); ("step_id", PStr step_id);
                 ("agent_id", PStr agent_id); ("runtime_identity_hash", dget "runtime_identity_hash" worker);
                 ("state", PStr "claimed"); ("pane_id", PNone); ("blocker", PNone); ("created_at", PStr now);
                 ("updated_at", PStr now)] in
  doc ← append_row "mission_worker_starts" record doc;
  doc ← append_event "daemon_event_outbox"
          (created_event 0 "mission_worker_start_claimed"
             [("start_id", PStr (mw_start w)); ("mission_id", PStr mission_id); ("step_id", PStr step_id);
              ("agent_id", PStr agent_id); ("runtime_identity_hash", dget "runtime_identity_hash" worker)]) doc;
  Ok (doc, record).

(** The pane's receipt is the one the configuration expects for the Worker. *)
Definition check_receipt (record : dict) (session_name cwd : string) : result string :=
  let receipt_drift := ValueError "Worker startup receipt authority drift" in
  config ← mw_config w;
  match dget "agent_id" record with
  | PStr agent_id =>
      match agents_with agent_id config with
      | [agent] =>
          hash ← worker_runtime_identity_hash agent (cf_runtime config);
          _ ← raise_if (negb (py_eq (PStr hash) (dget "runtime_identity_hash" record))
                        || negb (String.eqb session_name (rt_session_name (cf_runtime config)))
                        || negb (String.eqb cwd (cf_root config))) receipt_drift;
          Ok agent_id
      | _ => Err receipt_drift
      end
  | _ => Err receipt_drift
  end.
(** [state.setdefault("agents", {})[agent_id] = binding] *)
Definition bind_pane (agent_id : string) (binding : dict) (doc : dict) : result dict :=
  match dlookup "agents" doc with
  | Some (PDict agents) => Ok (dset "agents" (PDict (dset agent_id (PDict binding) agents)) doc)
  | None => Ok (dset "agents" (PDict [(agent_id, PDict binding)]) doc)
  | Some _ => Err (TypeError "agents is not a mapping")
  end.
(** The record's fields an event repeats; a missing one is an error. *)
Definition items_at (ks : list string) (d : dict) : result dict := mapR (fun k => v ← item_at k d; Ok (k, v)) ks.

Definition started_ok (doc record : dict) (pane_id : pyval) (session_name cwd : string) : result (dict * dict * pyval) :=
  _ ← raise_if (negb (is_form nonempty pane_id)) (ValueError "Worker startup pane is invalid");
  agent_id ← check_receipt record session_name cwd;
  let receipt := [("pane_id", pane_id); ("session_name", PStr session_name); ("cwd", PStr cwd)] in
  doc ← bind_pane agent_id (("agent_id", PStr agent_id) :: receipt ++ [("status", PStr "running")]) doc;
  about ← items_at ["mission_id"; "agent_id"] record;
  Ok (doc, dupdate [("state", PStr "started"); ("pane_id", pane_id); ("blocker", PNone)] record,
      created_event 0 "agent_spawned" (about ++ receipt)).
Definition started_blocked (doc record : dict) (start_id : string) (blocker : pyval) : result (dict * dict * pyval) :=
  _ ← raise_if (negb (is_form nonempty blocker)) (ValueError "Worker startup blocker is invalid");
  about ← items_at ["mission_id"; "step_id"; "agent_id"] record;
  Ok (doc, dupdate [("state", PStr "blocked"); ("pane_id", PNone); ("blocker", blocker)] record,
      created_event 0 "mission_worker_start_blocked" (("start_id", PStr start_id) :: about ++ [("reason", blocker)])).

Definition finish_mission_worker_start (doc : dict) (start_id : string) (pane_id : pyval) (session_name cwd : string)
    (blocker : pyval) : result (dict * dict) :=
  starts ← iter_rows "mission_worker_starts" doc;
  match GovernanceStore.rows_with "start_id" start_id starts with
  | [record] =>
      _ ← raise_if (negb (is_row "state" "claimed" record)) (ValueError "Worker startup claim is invalid");
      '(doc, record, event) ← (if Attempt.is_none blocker then started_ok doc record pane_id session_name cwd
                               else started_blocked doc record start_id blocker);
      let record := dset "updated_at" (PStr now) record in
      doc ← append_event "daemon_event_outbox" event
              (dset "mission_worker_starts" (PList (replace_first (is_row "start_id" start_id) record starts)) doc);
      Ok (doc, record)
  | _ => Err (ValueError "Worker startup claim is invalid")
  end.

(** ** Preparing an attempt *)

(** The Mission is confirmed and under way; the instant of its confirmation. *)
Definition confirmed_time (mission : dict) : result Z :=
  let unconfirmed := ValueError "mission execution is not confirmed" in
  let invalid := ValueError "mission confirmation state invalid" in
  ended ← in_str_set (dget "status" mission) ENDED_MISSIONS;
  _ ← raise_if ended (ValueError "terminal mission step");
  under_way ← in_str_set (dget "status" mission) ["preparing"; "running"];
  _ ← raise_if (negb under_way || negb (truthy (dget "confirmed_at" mission)) || Attempt.is_none (dget "execution_snapshot" mission))
               unconfirmed;
  confirmed ← aware_instant (dget "confirmed_at" mission) invalid;
  created ← aware_instant (dget "created_at" mission) invalid;
  _ ← raise_if (confirmed <? created)%Z invalid;
  Ok confirmed.

Definition part (k : string) (d : dict) : dict := match dget k d with PDict p => p | _ => [] end.

(** The frozen snapshot, which is what the configuration would freeze now. *)
Definition frozen_authority (doc mission : dict) : result dict :=
  let frozen_drift := ValueError "frozen execution drift" in
  persisted ← match validate_execution_snapshot (dget "execution_snapshot" mission) with
              | Err e => Err (if value_error e then ValueError "frozen execution snapshot invalid" else e)
              | r => r
              end;
  _ ← raise_if (negb (py_eq (dget "snapshot_hash" mission) (dget "execution_hash" persisted))) frozen_drift;
  _ ← raise_if (negb (py_eq (dget "execution_authority_hash" mission) (dget "execution_hash" persisted))) frozen_drift;
  _ ← raise_if (negb (same_field "plan_hash" (part "mission" persisted) mission)) (MissionStateError "plan hash drift");
  plan ← plan_of doc mission;
  snapshot ← current_authority frozen_drift mission plan;
  _ ← raise_if (negb (py_eq (PDict snapshot) (PDict persisted))) frozen_drift;
  Ok persisted.

(** The step that is next, and the Worker that is to do it. *)
Definition next_step (snapshot mission : dict) (step_id agent_id : string) : result (dict * dict) :=
  let invalid := ValueError "frozen execution snapshot invalid" in
  let agent_drift := ValueError "mission step agent drift" in
  step ← match GovernanceStore.rows_with "step_id" step_id (frozen_steps snapshot) with
         | [s] => Ok s
         | _ => Err (ValueError "unknown mission step")
         end;
  match dget "position" step, dget "current_step" mission with
  | PInt position, PInt current =>
      _ ← raise_if (position <=? current)%Z (ValueError "terminal mission step");
      _ ← raise_if (negb (position =? current + 1)%Z) (ValueError "mission step lineage drift");
      _ ← raise_if (negb (is_row "agent_id" agent_id step)) agent_drift;
      match find_first (is_row "agent_id" agent_id) (frozen_worker_rows snapshot) with
      | Some worker => Ok (step, worker)
      | None => Err agent_drift
      end
  | _, _ => Err invalid
  end.

(** The transport asked for is the step's: the frozen one, or a reroute's. *)
Definition check_transport (doc : dict) (mission_id step_id agent_id configured_transport : string) (worker : dict) : result unit :=
  let transport_drift := ValueError "mission step transport drift" in
  match dget "configured_transport" worker with
  | PStr frozen =>
      expected ← match effective_transport_for_step doc mission_id step_id agent_id frozen with
                 | Err (GovernanceError _) => Err transport_drift
                 | r => r
                 end;
      raise_if (negb (String.eqb expected configured_transport)) transport_drift
  | _ => Err transport_drift
  end.

Definition ordinal_key (mission_id step_id agent_id configured_transport : string) (snapshot : dict) (ordinal : nat) : result string :=
  derive_attempt_dispatch_key (PStr mission_id) (PStr step_id) (PStr agent_id) (PStr configured_transport)
    (dget "execution_hash" snapshot) (Z.of_nat ordinal).

(** The step's earlier attempts are the ones this snapshot would have made. *)
Definition check_prior (mission_id step_id agent_id configured_transport : string) (snapshot step worker : dict)
    (ordinal : nat) (prior : dict) : result unit :=
  expected_key ← ordinal_key mission_id step_id agent_id configured_transport snapshot ordinal;
  raise_if (negb (py_eq (dget "snapshot_hash" prior) (dget "execution_hash" snapshot)) || negb (same_field "agent_id" prior step)
            || negb (same_field "configured_transport" prior worker)
            || negb (is_row "dispatch_key" expected_key prior)) (ValueError "mission attempt lineage drift").
Fixpoint check_priors (check : nat -> dict -> result unit) (ordinal : nat) (priors : list dict) : result unit :=
  match priors with
  | [] => Ok tt
  | prior :: priors => _ ← check ordinal prior; check_priors check (S ordinal) priors
  end.

(** The document's recovery evidence binds the Mission to its latest attempt. *)
Definition mission_names (doc : dict) : result (list string) :=
  rows ← iter_rows "missions" doc;
  Ok (omap (fun m => match dget "mission_id" m with PStr s => if hex_id "mis_" 12 s then Some s else None | _ => None end)
           (dicts_of rows)).
Definition of_mission (mission_id : string) (records : list dict) : list dict := List.filter (is_row "mission_id" mission_id) records.
Definition latest_binding (mission_id : string) (attempts : list dict) : dict :=
  let latest := snd <$> latest_row (of_mission mission_id attempts) in
  [("mission_id", PStr mission_id); ("attempt_id", get_of "attempt_id" latest); ("agent_id", get_of "agent_id" latest)].
Definition checked_evidence (doc : dict) (mission_id : string) (attempts : list dict) : result (list dict) :=
  let invalid := ValueError "durable recovery authority invalid" in
  rows ← typed_table "mission_recovery_evidence" invalid doc;
  match (evidence ← mapR validate_mission_recovery_evidence_record rows;
         names ← mission_names doc;
         _ ← distinct_texts (text_of ∘ dget "mission_id" <$> evidence) invalid;
         _ ← mapR (check_evidence_reference names attempts) evidence;
         _ ← raise_if (negb (match of_mission mission_id evidence with
                             | [b] => py_eq (PDict b) (PDict (latest_binding mission_id attempts))
                             | _ => false
                             end)) invalid;
         Ok evidence) with
  | Err e => Err (if type_or_value e then invalid else e)
  | r => r
  end.

(** At most [1 + retry_limit] attempts, and every one before has failed. *)
Definition check_budget (snapshot : dict) (priors : list dict) : result unit :=
  _ ← raise_if (existsb (state_in _MISSION_ATTEMPT_ACTIVE_STATES) priors) (ValueError "active attempt already exists");
  _ ← raise_if (existsb (fun a => negb (state_is "failed" a)) priors) (ValueError "terminal mission attempt");
  match dget "retry_limit" (part "limits" snapshot) with
  | PInt retry_limit =>
      raise_if (1 + retry_limit <=? Z.of_nat (length priors))%Z (ValueError "mission retry budget exhausted")
  | _ => Err (TypeError "retry_limit is not a number")
  end.

(** The snapshot of the recovery, its errors as the preparation reports them. *)
Definition KEPT_RECOVERY_ERRORS : list string :=
  ["duplicate protocol event identity"; "protocol event journal is malformed"; "protocol event outbox is invalid"].
Definition kept_message (e : exn) : option string :=
  match e with
  | ValueError m | TypeError m | PermissionError m | RuntimeError m | GovernanceError m | PreviewBindingError m | ServiceError m
  | WorkerAttemptError m | LeaseError m | RecoveryError m | SchedulerError m | MissionStateError m =>
      if in_strs m KEPT_RECOVERY_ERRORS then Some m else None
  | _ => None
  end.
Definition recovery_checked (doc : dict) : result dict :=
  match _validated_recovery_snapshot_locked ew doc with
  | Ok (doc, _) => Ok doc
  | Err e => Err (if key_or_outside e
                  then ValueError (default "durable recovery authority invalid" (kept_message e)) else e)
  end.

Definition prepared_record (mission_id step_id agent_id configured_transport dispatch_key : string) (snapshot step : dict) : dict :=
  [("attempt_id", PStr (mw_attempt w)); ("mission_id", PStr mission_id); ("step_id", PStr step_id); ("agent_id", PStr agent_id);
   ("configured_transport", PStr configured_transport); ("dispatch_key", PStr dispatch_key); ("admission_claim_id", PNone);
   ("snapshot_hash", dget "execution_hash" snapshot); ("state", PStr "prepared"); ("created_at", PStr now); ("updated_at", PStr now);
   ("receipt_summary", PNone); ("blocker", PNone); ("terminal_reason", PNone)] ++ semantic_hash_of step.
Definition prepared_event (attempt : dict) : pyval :=
  event_doc (ew_event ew 0).1 "mission_attempt_prepared" (text_of (dget "created_at" attempt))
    ([("attempt_id", dget "attempt_id" attempt); ("mission_id", dget "mission_id" attempt); ("step_id", dget "step_id" attempt);
      ("dispatch_key", dget "dispatch_key" attempt)] ++ semantic_hash_of attempt).

(** The new attempt, under a new identity and not before the confirmation. *)
Definition new_attempt (confirmed : Z) (attempts : list dict) (record : dict) : result dict :=
  attempt ← _validate_mission_attempt_record (PDict record);
  _ ← raise_if (in_strs (field "attempt_id" attempt) (field "attempt_id" <$> attempts)) (ValueError "duplicate mission attempt identity");
  created ← aware_instant (dget "created_at" attempt) (ValueError "mission attempt state invalid");
  _ ← raise_if (created <? confirmed)%Z (ValueError "mission attempt state invalid");
  Ok attempt.

(** The attempt, its event and the new binding, saved together. *)
Definition save_prepared (doc : dict) (mission_id agent_id : string) (evidence : list dict) (attempt : dict) : result dict :=
  let event := prepared_event attempt in
  id ← event_identity event;
  outbox_ids ← _validated_protocol_event_outbox_ids (event_outbox doc);
  journal_ids ← _strict_protocol_journal_event_ids (sw_journal (ew_store ew));
  _ ← raise_if (in_strs id outbox_ids || in_strs id journal_ids) (ValueError "duplicate protocol event identity");
  binding ← validate_mission_recovery_evidence_record
              (PDict [("mission_id", PStr mission_id); ("attempt_id", dget "attempt_id" attempt); ("agent_id", PStr agent_id)]);
  doc ← append_row "mission_attempts" attempt doc;
  append_event "protocol_event_outbox" event
    (dset "mission_recovery_evidence"
       (dict_rows (List.filter (fun b => negb (is_row "mission_id" mission_id b)) evidence ++ [binding])) doc).

(** Every check of the preparation, up to the key of the new attempt. *)
Record preparation := Preparation {
  pr_confirmed : Z; pr_snapshot : dict; pr_step : dict; pr_worker : dict; pr_attempts : list dict; pr_evidence : list dict;
  pr_key : string
}.
Definition of_step (mission_id step_id : string) (attempts : list dict) : list dict :=
  List.filter (is_row "step_id" step_id) (of_mission mission_id attempts).
Definition plan_attempt (doc : dict) (mission_id step_id agent_id configured_transport : string) : result preparation :=
  mission ← _unique_mission_record doc mission_id;
  confirmed ← confirmed_time mission;
  snapshot ← frozen_authority doc mission;
  '(step, worker) ← next_step snapshot mission step_id agent_id;
  _ ← check_transport doc mission_id step_id agent_id configured_transport worker;
  rows ← typed_table "mission_attempts" (ValueError "mission attempt state invalid") doc;
  attempts ← mapR _validate_mission_attempt_record rows;
  _ ← distinct_texts (field "attempt_id" <$> attempts) (ValueError "duplicate mission attempt identity");
  _ ← distinct_texts (field "dispatch_key" <$> attempts) (ValueError "duplicate mission dispatch key");
  let priors := of_step mission_id step_id attempts in
  _ ← check_priors (check_prior mission_id step_id agent_id configured_transport snapshot step worker) 1 priors;
  evidence ← checked_evidence doc mission_id attempts;
  _ ← check_budget snapshot priors;
  dispatch_key ← ordinal_key mission_id step_id agent_id configured_transport snapshot (S (length priors));
  _ ← raise_if (existsb (is_row "dispatch_key" dispatch_key) attempts) (ValueError "duplicate mission dispatch key");
  Ok (Preparation confirmed snapshot step worker attempts evidence dispatch_key).

Definition prepare_mission_attempt (doc : dict) (mission_id step_id agent_id configured_transport : string) : result (dict * dict) :=
  _ ← raise_if (negb (step_id_form step_id)) (ValueError "mission step identity invalid");
  _ ← raise_if (negb (nonempty agent_id)) (ValueError "mission step agent invalid");
  _ ← raise_if (negb (in_strs configured_transport TRANSPORTS)) (ValueError "mission step transport invalid");
  p ← plan_attempt doc mission_id step_id agent_id configured_transport;
  doc ← recovery_checked doc;
  attempt ← new_attempt (pr_confirmed p) (pr_attempts p)
              (prepared_record mission_id step_id agent_id configured_transport (pr_key p) (pr_snapshot p) (pr_step p));
  doc ← save_prepared doc mission_id agent_id (pr_evidence p) attempt;
  Ok (doc, attempt).

(** ** Audit of the dispatched task *)

Definition SEMANTIC_DISPATCH_EVENTS : list string := ["worker_task_compiled"; "semantic_authority_drift_detected"].
Definition dispatch_event_payload (event_type : string) (mission_id attempt_id step_id agent_id task_hash semantic_step_hash code : pyval)
    : result dict :=
  let invalid := ValueError "semantic dispatch event is invalid" in
  _ ← raise_if (negb (in_strs event_type SEMANTIC_DISPATCH_EVENTS)) invalid;
  _ ← raise_if (negb (is_canonical_mission_id mission_id) || negb (is_form attempt_id_form attempt_id)
                || negb (is_form step_id_form step_id) || negb (is_form nonempty agent_id)) invalid;
  let about := [("mission_id", mission_id); ("attempt_id", attempt_id); ("step_id", step_id); ("agent_id", agent_id)] in
  if String.eqb event_type "worker_task_compiled" then
    _ ← raise_if (negb (is_hash task_hash) || negb (is_hash semantic_step_hash) || negb (Attempt.is_none code)) invalid;
    Ok (about ++ [("task_hash", task_hash); ("semantic_step_hash", semantic_step_hash)])
  else
    _ ← raise_if (negb (py_eq code (PStr "semantic_compilation_drift")) || negb (Attempt.is_none task_hash)
                  || negb (Attempt.is_none semantic_step_hash)) invalid;
    Ok (about ++ [("code", code)]).

(** [all_events]: the journal as the plain reader reads it. *)
Definition all_events (source : option string) : result (list pyval) :=
  match source with None => Ok [] | Some s => mapR json_loads_last (journal_lines s) end.

(** The events by identity; the same identity twice is the same document. *)
Definition add_event (acc : list (string * dict)) (item : pyval) : result (list (string * dict)) :=
  match item with
  | PDict d =>
      match dget "event_id" d with
      | PStr id =>
          match assoc_str id acc with
          | Some existing => _ ← raise_if (negb (py_eq (PDict existing) item)) (ValueError "semantic dispatch event conflicts"); Ok acc
          | None => Ok (acc ++ [(id, d)])
          end
      | _ => Ok acc
      end
  | _ => Ok acc
  end.

Definition record_semantic_worker_dispatch_event (doc : dict) (event_type : string)
    (mission_id attempt_id step_id agent_id task_hash semantic_step_hash code : pyval) : result (dict * dict) :=
  payload ← dispatch_event_payload event_type mission_id attempt_id step_id agent_id task_hash semantic_step_hash code;
  let attempts := match rows_of "mission_attempts" doc with PList l => dicts_of l | _ => [] end in
  _ ← raise_if (negb (match attempts_with attempt_id attempts with
                      | [a] => py_eq (dget "mission_id" a) mission_id && py_eq (dget "step_id" a) step_id
                               && py_eq (dget "agent_id" a) agent_id
                      | _ => false
                      end)) (ValueError "semantic dispatch event authority is invalid");
  journal ← all_events (sw_journal (ew_store ew));
  pending ← iter_rows "protocol_event_outbox" doc;
  by_id ← foldM add_event [] (journal ++ pending);
  let known := List.filter (fun e => is_row "event_type" event_type e && is_dict (dget "payload" e)
                                     && py_eq (dget "attempt_id" (payload_of e)) attempt_id) (snd <$> by_id) in
  match known with
  | e :: _ => if forallb (fun e => py_eq (dget "payload" e) (PDict payload)) known then Ok (doc, e)
              else Err (ValueError "semantic dispatch event conflicts")
  | [] =>
      let event := created_event 0 event_type payload in
      _ ← validate_daemon_event_record event;
      doc ← append_event "protocol_event_outbox" event doc;
      event ← as_dict event;
      Ok (doc, event)
  end.
End missions.

(** ** Laws *)

(** *** A new attempt in the admission history *)

Section fresh.
Context {env : LeaseEnv}.
Implicit Types (attempts : list dict) (h : history).

Definition fresh_lineage (a : dict) attempts : Prop := lineage_of a ∉ lineage_of <$> attempts.

Lemma attempt_at_Some key attempts x : attempt_at key attempts = Some x -> x ∈ attempts /\ lineage_of x = key.
Proof. intros [Hx Hk%bool_decide_eq_true]%find_first_Some. by rewrite elem_of_reverse in Hx. Qed.

Lemma attempt_at_fresh key attempts a x : fresh_lineage a attempts -> attempt_at key attempts = Some x ->
  attempt_at key (attempts ++ [a]) = Some x.
Proof.
  intros Hf Hx. pose proof (attempt_at_Some _ _ _ Hx) as [Hin <-]. unfold attempt_at. rewrite reverse_app. cbn.
  rewrite bool_decide_false; [exact Hx|]. intros E. apply Hf. rewrite E. apply list_elem_of_fmap. by exists x.
Qed.

Lemma stop_event_fresh attempts a h p h' : fresh_lineage a attempts -> stop_event attempts h p = Ok h' ->
  stop_event (attempts ++ [a]) h p = Ok h'.
Proof.
  intros Hf. unfold stop_event. destruct (raise_if _ _) as [[]|]; [|done]. cbn [mbind result_bind].
  destruct (dget "attempt_id" p); try done. destruct (dget "dispatch_key" p); try done.
  destruct (attempt_at _ attempts) as [x|] eqn:E; [|done]. by rewrite (attempt_at_fresh _ _ _ _ Hf E).
Qed.

Lemma claim_event_fresh attempts a h kind p h' : fresh_lineage a attempts -> claim_event attempts h kind p = Ok h' ->
  claim_event (attempts ++ [a]) h kind p = Ok h'.
Proof.
  intros Hf. unfold claim_event. destruct (dget "attempt_id" p); try done. destruct (dget "step_id" p); try done.
  destruct (dget "dispatch_key" p); try done. destruct (dget "admission_claim_id" p); try done.
  destruct (raise_if _ _) as [[]|]; [|done]. cbn [mbind result_bind].
  destruct (attempt_at _ attempts) as [x|] eqn:E; [|done]. by rewrite (attempt_at_fresh _ _ _ _ Hf E).
Qed.

(** An event is about an attempt of the store: what is recorded of every other
    lineage stays as it was. *)
Definition same_at (key : string * string) h h' : Prop :=
  h_stops h' !! key = h_stops h !! key /\ (key ∈ h_closed h' <-> key ∈ h_closed h) /\ claims_of h' key = claims_of h key.

Lemma stop_event_other attempts h p h' key : stop_event attempts h p = Ok h' -> attempt_at key attempts = None -> same_at key h h'.
Proof.
  intros H Hn. pose proof (stop_event_Ok _ _ _ _ H) as (a & k & s & Ha & Hk & _ & _ & _ & _ & ->).
  assert ((a, k) <> key) as Hne.
  { intros <-. unfold stop_event in H. rewrite Ha, Hk, Hn in H. by apply bind_Ok in H as (? & _ & ?). }
  split; [by apply lookup_insert_ne|]. done.
Qed.

Lemma claim_event_other attempts h kind p h' key : claim_event attempts h kind p = Ok h' -> attempt_at key attempts = None -> same_at key h h'.
Proof.
  intros H Hn. pose proof (claim_event_Ok _ _ _ _ _ H) as (a & k & c & s & Ha & Hk & Hc & _ & _ & _ & ->).
  assert ((a, k) <> key) as Hne.
  { intros <-. unfold claim_event in H. rewrite Ha, Hk, Hc, Hn in H. destruct (dget "step_id" p); try done.
    by apply bind_Ok in H as (? & _ & ?). }
  unfold same_at, record_stage, claims_of. cbn. split; [done|]. split; [destruct (closes s); set_solver|].
  destruct kind; [|done..]. by rewrite lookup_insert_ne.
Qed.

Lemma history_step_cases attempts h r h' : history_step attempts h r = Ok h' ->
  h' = h \/ (exists p, stop_event attempts h p = Ok h' /\ forall l, history_step l h r = stop_event l h p)
  \/ exists kind p, claim_event attempts h kind p = Ok h' /\ forall l, history_step l h r = claim_event l h kind p.
Proof.
  unfold history_step. destruct r as [| | | | | | |r]; try done. destruct (validate_daemon_event_record (PDict r)) as [id|[]]; try done.
  cbv zeta. destruct (String.eqb _ PRE_DISPATCH_STOPPED).
  - destruct (dget "payload" r) as [| | | | | | |p]; try done. destruct (keys_are _ p); [|done]. intros H. right. left. by exists p.
  - destruct (claim_kind_of _) as [kind|]; [|intros [= ->]; by left].
    destruct (dget "payload" r) as [| | | | | | |p]; try done. destruct (keys_are _ p); [|done]. intros H. right. right. by exists kind, p.
Qed.

Lemma history_step_fresh attempts a h r h' : fresh_lineage a attempts -> history_step attempts h r = Ok h' ->
  history_step (attempts ++ [a]) h r = Ok h' /\ forall key, attempt_at key attempts = None -> same_at key h h'.
Proof.
  intros Hf H. pose proof H as [->|[(p & Hp & He)|(kind & p & Hp & He)]]%history_step_cases.
  - split; [|done]. revert H. unfold history_step. destruct r as [| | | | | | |r]; try done.
    destruct (validate_daemon_event_record (PDict r)) as [id|[]]; try done. cbv zeta. destruct (String.eqb _ PRE_DISPATCH_STOPPED).
    + destruct (dget "payload" r) as [| | | | | | |p]; try done. destruct (keys_are _ p); [|done]. by apply stop_event_fresh.
    + destruct (claim_kind_of _) as [kind|]; [|done]. destruct (dget "payload" r) as [| | | | | | |p]; try done.
      destruct (keys_are _ p); [|done]. by apply claim_event_fresh.
  - rewrite He. split; [by apply stop_event_fresh|]. intros key Hn. by eapply stop_event_other.
  - rewrite He. split; [by apply claim_event_fresh|]. intros key Hn. by eapply claim_event_other.
Qed.

Lemma fresh_unknown a attempts : fresh_lineage a attempts -> attempt_at (lineage_of a) attempts = None.
Proof.
  intros Hf. destruct (attempt_at _ _) as [x|] eqn:E; [|done]. apply attempt_at_Some in E as [Hx Hk]. destruct Hf.
  apply list_elem_of_fmap. by exists x.
Qed.

(** The same records with the new attempt; nothing is recorded about it. *)
Lemma history_fresh attempts a records h : fresh_lineage a attempts -> foldM (history_step attempts) no_history records = Ok h ->
  foldM (history_step (attempts ++ [a])) no_history records = Ok h /\ same_at (lineage_of a) no_history h.
Proof.
  intros Hf. revert h. induction records as [|r records IH] using rev_ind; intros h H.
  - injection H as <-. by split.
  - rewrite foldM_app in H. apply bind_Ok in H as (h0 & H0 & H1). cbn in H1. apply bind_Ok in H1 as (h1 & H1 & [= <-]).
    destruct (IH _ H0) as [E (S1 & S2 & S3)]. destruct (history_step_fresh _ _ _ _ _ Hf H1) as [E1 Hs].
    destruct (Hs _ (fresh_unknown _ _ Hf)) as (T1 & T2 & T3). split.
    + rewrite foldM_app, E. cbn [mbind result_bind foldM]. by rewrite E1.
    + split; [congruence|]. split; [by rewrite T2|congruence].
Qed.

Lemma unclaimed_path p es q : admission_path p es q -> p = Ready -> claimed_in es = [] -> (forall s, q <> Stopped s) -> es = [] /\ q = Ready.
Proof.
  induction 1 as [|p es q e r _ IH Hs]; intros -> Hc Hq; [done|]. unfold claimed_in in *. rewrite omap_app in Hc.
  apply app_eq_nil in Hc as [Hc He]. destruct q; try by inversion Hs.
  - destruct (IH eq_refl Hc) as [-> _]; [done|]. inversion Hs; subst; try done. by destruct (Hq s).
  - destruct (IH eq_refl Hc) as [_ ?]; done.
  - destruct (IH eq_refl Hc) as [_ ?]; done.
Qed.

Lemma nothing_at key h : same_at key no_history h -> h_stops h !! key = None /\ key ∉ h_closed h /\ claims_of h key = [].
Proof.
  intros (S1 & S2 & S3). split_and!.
  - rewrite S1. apply lookup_empty.
  - rewrite S2. apply not_elem_of_empty.
  - rewrite S3. unfold claims_of. change (h_claims no_history) with (∅ : gmap (string * string) (list string)). by rewrite lookup_empty.
Qed.

Lemma no_events_yet records h key : history_inv records h -> same_at key no_history h -> events_of key records = [].
Proof.
  intros Hi (Hst & _ & Hcl)%nothing_at.
  apply (unclaimed_path _ _ _ (hi_path _ _ Hi key) eq_refl).
  - by rewrite <- (hi_claims _ _ Hi).
  - intros s. unfold phase_in. rewrite Hst, Hcl. done.
Qed.

(** A prepared attempt of a new lineage: the history stays valid and has no
    event about it. *)
Lemma history_with_prepared attempts a records h : _validate_mission_admission_claim_history records attempts = Ok h ->
  fresh_lineage a attempts -> dget "state" a = PStr "prepared" -> dget "admission_claim_id" a = PNone ->
  _validate_mission_admission_claim_history records (attempts ++ [a]) = Ok h /\ events_of (lineage_of a) records = [].
Proof.
  intros (h' & Hh & (us & Hus & [= ->])%bind_Ok)%bind_Ok Hf Hst Hcl. destruct (history_fresh _ _ _ _ Hf Hh) as [E Hsame].
  split; [|by apply (no_events_yet _ _ _ (history_of_inv _ _ _ Hh))].
  unfold _validate_mission_admission_claim_history. rewrite E. cbn [mbind result_bind].
  assert (mapR (check_attempt h) (attempts ++ [a]) = Ok (us ++ [tt])) as ->; [|done].
  apply mapR_Ok, Forall2_app; [by apply mapR_Ok|]. constructor; [|constructor]. apply nothing_at in Hsame as (S1 & S2 & S3).
  unfold check_attempt, claim_of. rewrite Hcl. unfold state_in, state_is. rewrite Hst. cbn [existsb]. cbn -[last_released].
  unfold last_released. rewrite S3, S1. cbn. rewrite !bool_decide_false; [done|try done; by intros []..].
Qed.

Lemma unique_with_prepared attempts a : _require_unique_mission_attempt_lineage attempts = Ok tt ->
  field "attempt_id" a ∉ field "attempt_id" <$> attempts -> field "dispatch_key" a ∉ field "dispatch_key" <$> attempts ->
  dget "admission_claim_id" a = PNone ->
  (forall b, b ∈ attempts -> field "mission_id" b = field "mission_id" a -> state_in _MISSION_ATTEMPT_ACTIVE_STATES b = false) ->
  _require_unique_mission_attempt_lineage (attempts ++ [a]) = Ok tt.
Proof.
  rewrite !unique_iff. intros (Hi & Hk & Hc & Hm) Hni Hnk Hcl Hact. rewrite !fmap_app, omap_app, List.filter_app. cbn [omap list_omap].
  assert (claim_of a = None) as -> by (unfold claim_of; by rewrite Hcl). rewrite app_nil_r.
  assert (Hadd : forall l (x : string), NoDup l -> x ∉ l -> NoDup (l ++ [x])).
  { intros l x Hl Hx. apply NoDup_app. split; [done|]. split; [|apply NoDup_singleton]. by intros y Hy ->%list_elem_of_singleton. }
  split_and!; [by apply Hadd|by apply Hadd|done|]. cbn [List.filter]. destruct (state_in _ a) eqn:Ea; [|by rewrite app_nil_r].
  rewrite fmap_app. apply Hadd; [done|]. intros (b & Hb & Hin)%list_elem_of_fmap. apply list_elem_of_In, filter_In in Hin as [Hin Hs].
  apply list_elem_of_In in Hin. by rewrite (Hact b Hin (eq_sym Hb)) in Hs.
Qed.
End fresh.

(** *** What the preparation checks *)

Section prepare_laws.
Context {env : LeaseEnv} {ft : FloatText} {lim : RecursionLimits} {repr : PyRepr}.
Variable w : mission_world.
#[local] Notation ew := (mw_evidence w).
#[local] Notation source := (sw_journal (ew_store (mw_evidence w))).
Implicit Types (doc mission snapshot : dict).

Lemma frozen_authority_Ok doc mission snapshot : frozen_authority w doc mission = Ok snapshot ->
  validate_execution_snapshot (dget "execution_snapshot" mission) = Ok snapshot
  /\ exists plan current, ew_rebuild ew mission plan = Ok current /\ py_eq (PDict current) (PDict snapshot) = true.
Proof.
  unfold frozen_authority. intros (persisted & Hp & H)%bind_Ok. do 3 apply bind_Ok in H as ([] & _ & H).
  apply bind_Ok in H as (plan & _ & H). apply bind_Ok in H as (current & Hc & H). apply bind_Ok in H as ([] & Heq & [= ->]).
  split; [by destruct (validate_execution_snapshot _)|]. exists plan, current. split; [|by apply raise_if_Ok, negb_false_iff in Heq].
  unfold current_authority in Hc. by destruct (ew_rebuild ew mission plan) as [|[]].
Qed.

Lemma rows_with_one k id l d : GovernanceStore.rows_with k id l = [d] -> PDict d ∈ l /\ dget k d = PStr id.
Proof.
  intros H. assert (Hd : d ∈ GovernanceStore.rows_with k id l) by (rewrite H; by left). split; [|by eapply is_row_PStr, rows_with_row].
  unfold GovernanceStore.rows_with in Hd. apply list_elem_of_In, filter_In in Hd as [Hd%list_elem_of_In _]. by apply elem_of_dicts_of.
Qed.

(** The step after the Mission's cursor, done by the named agent. *)
Record step_is_next (snapshot mission : dict) (step_id agent_id : string) (step worker : dict) : Prop := {
  sn_step : PDict step ∈ frozen_steps snapshot /\ dget "step_id" step = PStr step_id /\ dget "agent_id" step = PStr agent_id;
  sn_cursor : exists cursor, dget "current_step" mission = PInt cursor /\ dget "position" step = PInt (cursor + 1);
  sn_worker : worker ∈ frozen_worker_rows snapshot /\ dget "agent_id" worker = PStr agent_id
}.

Lemma next_step_Ok snapshot mission step_id agent_id step worker : next_step snapshot mission step_id agent_id = Ok (step, worker) ->
  step_is_next snapshot mission step_id agent_id step worker.
Proof.
  unfold next_step. intros (s & Hs & H)%bind_Ok. destruct (GovernanceStore.rows_with _ _ _) as [|s' [|]] eqn:E; try done. injection Hs as ->.
  apply rows_with_one in E as [Hin Hid]. destruct (dget "position" s) as [| |p| | | | |] eqn:Ep; try done.
  destruct (dget "current_step" mission) as [| |c| | | | |] eqn:Ec; try done. apply bind_Ok in H as ([] & _ & H).
  apply bind_Ok in H as ([] & Hp & H). apply bind_Ok in H as ([] & Ha & H).
  apply raise_if_Ok, negb_false_iff, Z.eqb_eq in Hp as ->. apply raise_if_Ok, negb_false_iff, is_row_PStr in Ha.
  destruct (find_first _ _) as [wk|] eqn:Ew; [|done]. injection H as <- <-. apply find_first_Some in Ew as [Hw Hwa%is_row_PStr].
  split; [done|by exists c|done].
Qed.

(** Everything the preparation found, in terms of the document. *)
Record planned (doc : dict) (mission_id step_id agent_id transport : string) (p : preparation) (mission : dict) (rows : list pyval) : Prop := {
  pl_mission : _unique_mission_record doc mission_id = Ok mission;
  pl_frozen : frozen_authority w doc mission = Ok (pr_snapshot p);
  pl_step : step_is_next (pr_snapshot p) mission step_id agent_id (pr_step p) (pr_worker p);
  pl_transport : check_transport doc mission_id step_id agent_id transport (pr_worker p) = Ok tt;
  pl_rows : rows_of "mission_attempts" doc = PList rows;
  pl_attempts : mapR _validate_mission_attempt_record rows = Ok (pr_attempts p);
  pl_priors : check_priors (check_prior mission_id step_id agent_id transport (pr_snapshot p) (pr_step p) (pr_worker p)) 1
                (of_step mission_id step_id (pr_attempts p)) = Ok tt;
  pl_budget : check_budget (pr_snapshot p) (of_step mission_id step_id (pr_attempts p)) = Ok tt;
  pl_key : existsb (is_row "dispatch_key" (pr_key p)) (pr_attempts p) = false
}.

Lemma plan_attempt_Ok doc mission_id step_id agent_id transport p : plan_attempt w doc mission_id step_id agent_id transport = Ok p ->
  exists mission rows, planned doc mission_id step_id agent_id transport p mission rows.
Proof.
  unfold plan_attempt. intros (mission & Hm & H)%bind_Ok. apply bind_Ok in H as (t & _ & H). apply bind_Ok in H as (snapshot & Hs & H).
  apply bind_Ok in H as ([step worker] & Hstep & H). apply bind_Ok in H as ([] & Ht & H). apply bind_Ok in H as (rows & Hr & H).
  apply bind_Ok in H as (attempts & Ha & H). do 2 apply bind_Ok in H as ([] & _ & H). apply bind_Ok in H as ([] & Hp & H).
  apply bind_Ok in H as (evidence & _ & H). apply bind_Ok in H as ([] & Hb & H). apply bind_Ok in H as (key & _ & H).
  apply bind_Ok in H as ([] & Hk & [= <-]). exists mission, rows. apply typed_table_Ok in Hr. apply raise_if_Ok in Hk.
  split; try done. by apply next_step_Ok.
Qed.

(** Earlier attempts of the step: all failed, and fewer than the budget. *)
Lemma budget_left snapshot priors : check_budget snapshot priors = Ok tt ->
  Forall (fun a => state_is "failed" a = true) priors
  /\ exists limit, dget "retry_limit" (part "limits" snapshot) = PInt limit /\ (Z.of_nat (length priors) <= limit)%Z.
Proof.
  unfold check_budget. intros ([] & _ & H)%bind_Ok. apply bind_Ok in H as ([] & Hf & H). apply raise_if_Ok in Hf. split.
  - apply Forall_forall. intros a Ha. apply existsb_elem_false with (x := a) in Hf; [|done]. by apply negb_false_iff in Hf.
  - destruct (dget "retry_limit" _) as [| |l| | | | |]; try done. exists l. split; [done|].
    apply raise_if_Ok, Z.leb_gt in H. lia.
Qed.

Lemma new_attempt_Ok confirmed attempts record a : new_attempt confirmed attempts record = Ok a ->
  a = record /\ _validate_mission_attempt_record (PDict a) = Ok a /\ field "attempt_id" a ∉ field "attempt_id" <$> attempts.
Proof.
  unfold new_attempt. intros (a' & Ha & H)%bind_Ok. apply bind_Ok in H as ([] & Hn & H). apply bind_Ok in H as (t & _ & H).
  apply bind_Ok in H as ([] & _ & [= ->]). pose proof (validate_PDict _ _ Ha) as ->. split_and!; [done..|].
  apply raise_if_Ok in Hn. intros Hin%in_strs_spec. congruence.
Qed.

Lemma prepared_quiet a : plain_event (prepared_event w a) = true.
Proof. done. Qed.
Lemma prepared_no_event key a : event_of key (prepared_event w a) = None.
Proof. unfold event_of, prepared_event, event_doc. cbn. by destruct (_ && _). Qed.

Lemma append_event_Ok k event doc doc' : append_event k event doc = Ok doc' ->
  exists l, rows_of k doc = PList l /\ doc' = dset k (PList (l ++ [event])) doc.
Proof. unfold append_event. destruct (rows_of k doc) as [| | | | |l| |]; try done. intros [= <-]. by exists l. Qed.
Lemma append_row_Ok k row doc doc' : append_row k row doc = Ok doc' ->
  exists l, rows_of k doc = PList l /\ doc' = dset k (PList (l ++ [PDict row])) doc.
Proof. unfold append_row. destruct (rows_of k doc) as [| | | | |l| |]; try done. intros [= <-]. by exists l. Qed.
Lemma save_prepared_Ok doc mission_id agent_id evidence a doc' : save_prepared w doc mission_id agent_id evidence a = Ok doc' ->
  exists rows outbox, rows_of "mission_attempts" doc = PList rows /\ rows_of "mission_attempts" doc' = PList (rows ++ [PDict a])
    /\ rows_of "protocol_event_outbox" doc = PList outbox
    /\ rows_of "protocol_event_outbox" doc' = PList (outbox ++ [prepared_event w a])
    /\ _append_recovery_audit_locked (ew_store ew) (PList outbox) (prepared_event w a) = Ok (outbox ++ [prepared_event w a]).
Proof.
  unfold save_prepared. intros (id & Hid & H)%bind_Ok. apply bind_Ok in H as (oids & Ho & H). apply bind_Ok in H as (jids & Hj & H).
  apply bind_Ok in H as ([] & Hn & H). apply bind_Ok in H as (binding & _ & H). apply bind_Ok in H as (doc1 & Hr & H).
  apply append_row_Ok in Hr as (rows & Hrows & ->). apply append_event_Ok in H as (outbox & Hout & ->).
  rewrite !rows_of_dset in Hout. cbn in Hout. exists rows, outbox. split; [done|]. split; [by rewrite !rows_of_dset|].
  split; [done|]. split; [by rewrite rows_of_dset|]. rewrite event_outbox_rows, Hout in Ho.
  apply raise_if_Ok, orb_false_iff in Hn as [Hn1 Hn2]. unfold _append_recovery_audit_locked.
  by rewrite Hid, Ho; cbn [mbind result_bind]; rewrite Hn1, Hj; cbn [mbind result_bind raise_if]; rewrite Hn2.
Qed.

Lemma recovery_checked_Ok doc doc' : recovery_checked w doc = Ok doc' -> exists v, snapshot_valid ew doc doc' v.
Proof.
  unfold recovery_checked. destruct (_validated_recovery_snapshot_locked ew doc) as [[d token]|] eqn:E; [|done]. intros [= <-].
  unfold _validated_recovery_snapshot_locked in E. apply bind_Ok in E as ([d' v] & Hv & E). apply bind_Ok in E as (t & _ & [= <- <-]).
  exists v. by apply recovery_view_Ok.
Qed.

Lemma attempt_key rows attempts b : mapR _validate_mission_attempt_record rows = Ok attempts -> b ∈ attempts ->
  exists k, dget "dispatch_key" b = PStr k.
Proof.
  intros Hat%mapR_Ok [i Hi]%list_elem_of_lookup. destruct (Forall2_lookup_r _ _ _ _ _ Hat Hi) as (v & _ & Hv).
  unfold _validate_mission_attempt_record in Hv. destruct v as [| | | | | | |d]; try done. inv_ok. split_guards.
  match goal with H : is_form dispatch_key_form _ = true |- _ => apply is_form_PStr in H as (k & Hk & _) end. by exists k.
Qed.

(** *** The prepared attempt *)

(** What is prepared: the next step of a confirmed Mission, under the snapshot
    that was frozen and is still what the configuration gives; within the retry
    budget, and after every earlier attempt of the step has failed. *)
Record next_attempt (doc : dict) (mission_id step_id agent_id transport : string) (attempts : list dict) (a : dict) : Prop := {
  na_names : dget "mission_id" a = PStr mission_id /\ dget "step_id" a = PStr step_id /\ dget "agent_id" a = PStr agent_id
             /\ dget "configured_transport" a = PStr transport;
  na_snapshot : exists mission snapshot step worker, _unique_mission_record doc mission_id = Ok mission
    /\ validate_execution_snapshot (dget "execution_snapshot" mission) = Ok snapshot
    /\ (exists plan current, ew_rebuild ew mission plan = Ok current /\ py_eq (PDict current) (PDict snapshot) = true)
    /\ step_is_next snapshot mission step_id agent_id step worker
    /\ dget "snapshot_hash" a = dget "execution_hash" snapshot
    /\ exists limit, dget "retry_limit" (part "limits" snapshot) = PInt limit
         /\ (Z.of_nat (length (of_step mission_id step_id attempts)) <= limit)%Z;
  na_failed : Forall (fun b => state_is "failed" b = true) (of_step mission_id step_id attempts);
  na_ready : phase_of a = Ready;
  na_fresh : fresh_lineage a attempts
}.

Lemma prepared_fields mission_id step_id agent_id transport key snapshot step :
  let a := prepared_record w mission_id step_id agent_id transport key snapshot step in
  dget "mission_id" a = PStr mission_id /\ dget "step_id" a = PStr step_id /\ dget "agent_id" a = PStr agent_id
  /\ dget "configured_transport" a = PStr transport /\ dget "dispatch_key" a = PStr key /\ dget "admission_claim_id" a = PNone
  /\ dget "state" a = PStr "prepared" /\ dget "snapshot_hash" a = dget "execution_hash" snapshot.
Proof. by split_and!. Qed.

Lemma prepare_Ok doc mission_id step_id agent_id transport doc' a :
  prepare_mission_attempt w doc mission_id step_id agent_id transport = Ok (doc', a) ->
  exists p mission rows doc1 v, planned doc mission_id step_id agent_id transport p mission rows /\ snapshot_valid ew doc doc1 v
    /\ a = prepared_record w mission_id step_id agent_id transport (pr_key p) (pr_snapshot p) (pr_step p)
    /\ _validate_mission_attempt_record (PDict a) = Ok a /\ field "attempt_id" a ∉ field "attempt_id" <$> pr_attempts p
    /\ save_prepared w doc1 mission_id agent_id (pr_evidence p) a = Ok doc'.
Proof.
  unfold prepare_mission_attempt. intros H. do 3 apply bind_Ok in H as ([] & _ & H). apply bind_Ok in H as (p & Hp & H).
  apply bind_Ok in H as (doc1 & Hd & H). apply bind_Ok in H as (a' & Ha & H). apply bind_Ok in H as (doc2 & Hs & [= <- <-]).
  apply plan_attempt_Ok in Hp as (mission & rows & Hp). apply recovery_checked_Ok in Hd as (v & Hd).
  apply new_attempt_Ok in Ha as (-> & Hv & Hn). by exists p, mission, rows, doc1, v.
Qed.

Lemma prepared_is_next doc mission_id step_id agent_id transport p mission rows a :
  planned doc mission_id step_id agent_id transport p mission rows ->
  a = prepared_record w mission_id step_id agent_id transport (pr_key p) (pr_snapshot p) (pr_step p) ->
  field "attempt_id" a ∉ field "attempt_id" <$> pr_attempts p ->
  next_attempt doc mission_id step_id agent_id transport (pr_attempts p) a.
Proof.
  intros [Hm Hf Hs _ _ _ _ Hb _] -> Hn. pose proof (frozen_authority_Ok _ _ _ Hf) as [Hv Hcur]. apply budget_left in Hb as [Hb Hl].
  split; [done| |done|done|].
  - exists mission, (pr_snapshot p), (pr_step p), (pr_worker p). by split_and!.
  - intros (b & E & Hb')%list_elem_of_fmap. apply Hn, list_elem_of_fmap. exists b. split; [|done]. by injection E.
Qed.

(** C11: An attempt that was prepared is for the step after its Mission's cursor,
    under the snapshot that was frozen when the Mission was confirmed and that
    the configuration still gives, within the retry budget and after every
    earlier attempt of the step failed.  It is ready: of a lineage no attempt
    has, with no event about its admission; and when no other attempt of the
    Mission is under way the saved document is one the attempt operations and
    the recovery can go on with. *)
Theorem prepared_attempt_awaits_admission doc mission_id step_id agent_id transport doc' a :
  prepare_mission_attempt w doc mission_id step_id agent_id transport = Ok (doc', a) ->
  exists attempts records, coherent source doc attempts records
    /\ next_attempt doc mission_id step_id agent_id transport attempts a
    /\ ((forall b, b ∈ attempts -> field "mission_id" b = mission_id -> state_in _MISSION_ATTEMPT_ACTIVE_STATES b = false) ->
        exists records', coherent source doc' (attempts ++ [a]) records' /\ only_active mission_id a (attempts ++ [a])
          /\ (forall key, events_of key records' = events_of key records) /\ events_of (lineage_of a) records' = []).
Proof.
  intros (p & mission & rows & doc1 & v & Hp & Hv & Ea & Hva & Hn & Hs)%prepare_Ok.
  pose proof (prepared_is_next _ _ _ _ _ _ _ _ _ Hp Ea Hn) as Hnext. destruct Hp as [_ _ _ _ Hr Hat _ _ Hk].
  pose proof (prepared_fields mission_id step_id agent_id transport (pr_key p) (pr_snapshot p) (pr_step p)) as (Fm & _ & _ & _ & Fk & Fc & Fs & _).
  rewrite <- Ea in Fm, Fk, Fc, Fs.
  destruct (sv_attempts _ _ _ _ Hv) as (rows' & Hr' & Hat' & Hu). rewrite Hr in Hr'. injection Hr' as <-.
  rewrite Hat in Hat'. injection Hat' as Ev. destruct (snapshot_coherent _ _ _ _ Hv) as (outbox & records & Hout & Hh).
  rewrite <- Ev in Hh, Hu. exists (pr_attempts p), records. split; [by eapply coherent_intro|]. split; [done|]. intros Hidle.
  apply save_prepared_Ok in Hs as (rows1 & outbox1 & H1 & H2 & H3 & H4 & Happ). rewrite (sv_rows _ _ _ _ Hv) in H1, H3.
  rewrite Hr in H1. injection H1 as <-. rewrite Hout in H3. injection H3 as <-.
  destruct (history_with_prepared _ _ _ _ (vh_history _ _ _ _ _ Hh) (na_fresh _ _ _ _ _ _ _ Hnext) Fs Fc) as [Hh' Hnone].
  assert (Hh1 : valid_history source outbox (pr_attempts p ++ [a]) records (vw_claims v)) by (destruct Hh; by split).
  destruct (audit_history _ _ _ _ _ _ _ Hh1 (prepared_quiet a) Happ) as [_ Hh2].
  exists (records ++ [prepared_event w a]).
  assert (Hev : forall key, events_of key (records ++ [prepared_event w a]) = events_of key records).
  { intros key. by rewrite events_snoc, prepared_no_event, app_nil_r. }
  assert (Fm' : field "mission_id" a = mission_id) by (unfold field; by rewrite Fm).
  split_and!; [| |done|by rewrite Hev].
  - eapply (coherent_intro ew doc' (rows ++ [PDict a])); [done| | |done|done].
    + apply mapR_Ok, Forall2_app; [by apply mapR_Ok|]. by repeat constructor.
    + apply unique_with_prepared; [done..| |done|by rewrite Fm'].
      intros (b & E & Hb)%list_elem_of_fmap. apply existsb_elem_false with (x := b) in Hk; [|done]. unfold field in E. rewrite Fk in E.
      assert (is_row "dispatch_key" (pr_key p) b = true); [|congruence]. apply is_row_PStr.
      destruct (attempt_key _ _ _ Hat Hb) as [k Hkey]. rewrite Hkey in E. cbn in E. congruence.
  - intros b [Hb| ->%list_elem_of_singleton]%elem_of_app Hm Hact; [|done]. by rewrite (Hidle b Hb Hm) in Hact.
Qed.
End prepare_laws.

(** *** A rerouted step *)

Section reroute_laws.
Context {env : LeaseEnv} {ft : FloatText} {lim : RecursionLimits} {repr : PyRepr}.

Lemma check_priors_Ok check n priors : check_priors check n priors = Ok tt -> forall a, a ∈ priors -> exists i, check i a = Ok tt.
Proof.
  revert n. induction priors as [|b priors IH]; intros n; [intros _ a Ha; by apply elem_of_nil in Ha|]. cbn [check_priors].
  intros ([] & Hb & H)%bind_Ok a [->|Ha]%elem_of_cons; [by exists n|by eapply IH].
Qed.

(** Every earlier attempt of the step has the Worker's frozen transport. *)
Lemma prior_transport doc (w : mission_world) mission_id step_id agent_id transport p mission rows b :
  planned w doc mission_id step_id agent_id transport p mission rows -> PDict b ∈ rows ->
  dget "mission_id" b = PStr mission_id -> dget "step_id" b = PStr step_id ->
  exists worker, worker ∈ frozen_worker_rows (pr_snapshot p) /\ dget "agent_id" worker = PStr agent_id
    /\ same_field "configured_transport" b worker = true.
Proof.
  intros Hp Hb Hm Hs. exists (pr_worker p). destruct (sn_worker _ _ _ _ _ _ (pl_step _ _ _ _ _ _ _ _ _ Hp)) as [Hw Ha]. do 2 (split; [done|]).
  pose proof (validate_rows _ _ (pl_attempts _ _ _ _ _ _ _ _ _ Hp)) as ->. apply list_elem_of_fmap in Hb as (b' & [= <-] & Hb).
  assert (Hin : b ∈ of_step mission_id step_id (pr_attempts p)).
  { unfold of_step, of_mission. apply list_elem_of_In, filter_In. split; [|by apply is_row_PStr].
    apply filter_In. split; [by apply list_elem_of_In|by apply is_row_PStr]. }
  destruct (check_priors_Ok _ _ _ (pl_priors _ _ _ _ _ _ _ _ _ Hp) _ Hin) as (n & Hc). unfold check_prior in Hc.
  apply bind_Ok in Hc as (key & _ & Hc). apply raise_if_Ok in Hc. by split_guards.
Qed.

(** C14: An attempt prepared on a transport other than its Worker's frozen one,
    as a confirmed reroute asks for, is the only one of its step: as long as it
    is stored and the Mission is under the same snapshot, no later attempt of
    the step can be prepared, on any transport, whatever the retry budget. *)
Theorem rerouted_step_is_not_retried (w w' : mission_world) doc mission_id step_id agent_id transport doc' a mission snapshot
    later mission' b transport' r :
  prepare_mission_attempt w doc mission_id step_id agent_id transport = Ok (doc', a) ->
  _unique_mission_record doc mission_id = Ok mission ->
  validate_execution_snapshot (dget "execution_snapshot" mission) = Ok snapshot ->
  (forall worker, worker ∈ frozen_worker_rows snapshot -> dget "agent_id" worker = PStr agent_id ->
     dget "configured_transport" worker <> PStr transport) ->
  _unique_mission_record later mission_id = Ok mission' -> dget "execution_snapshot" mission' = dget "execution_snapshot" mission ->
  (exists rows, rows_of "mission_attempts" later = PList rows /\ PDict b ∈ rows) -> attempt_identity b = attempt_identity a ->
  prepare_mission_attempt w' later mission_id step_id agent_id transport' <> Ok r.
Proof.
  intros (p & m & rows & doc1 & v & Hp & _ & Ea & _)%prepare_Ok Hm Hv Hne Hm' Hsame (rows' & Hrows & Hb) Hid Hr.
  pose proof (prepared_fields w mission_id step_id agent_id transport (pr_key p) (pr_snapshot p) (pr_step p)) as (F1 & F2 & _ & F4 & _).
  rewrite <- Ea in F1, F2, F4. unfold attempt_identity in Hid. cbn [fmap list_fmap] in Hid. injection Hid as _ I2 I3 _ I5 _ _ _.
  destruct r as [doc2 a2]. apply prepare_Ok in Hr as (p2 & m2 & rows2 & doc3 & v2 & Hp2 & _).
  pose proof (pl_rows _ _ _ _ _ _ _ _ _ Hp2) as E. rewrite Hrows in E. injection E as ->.
  pose proof (pl_mission _ _ _ _ _ _ _ _ _ Hp2) as E. rewrite Hm' in E. injection E as ->.
  destruct (prior_transport _ _ _ _ _ _ _ _ _ b Hp2 Hb) as (worker & Hw & Hwa & Ht); [congruence..|].
  pose proof (frozen_authority_Ok _ _ _ _ (pl_frozen _ _ _ _ _ _ _ _ _ Hp2)) as [Hv2 _]. rewrite Hsame, Hv in Hv2. injection Hv2 as Hs.
  rewrite <- Hs in Hw. apply (Hne worker Hw Hwa). unfold same_field in Ht. rewrite I5, F4 in Ht. by apply py_eq_str_l in Ht.
Qed.
End reroute_laws.

(** *** Confirmation *)

Section freeze_laws.
Context {env : LeaseEnv} {ft : FloatText} {lim : RecursionLimits} {repr : PyRepr}.
Variable w : mission_world.
#[local] Notation ew := (mw_evidence w).
Implicit Types (doc mission snapshot : dict).

Lemma unique_mission_rows doc mission_id mission : _unique_mission_record doc mission_id = Ok mission <->
  exists rows, rows_of "missions" doc = PList rows /\ GovernanceStore.rows_with "mission_id" mission_id rows = [mission].
Proof.
  unfold _unique_mission_record. split.
  - intros (rows & Hr & H)%bind_Ok. destruct (GovernanceStore.rows_with _ _ rows) as [|m [|]] eqn:E; try done. injection H as ->.
    exists rows. split; [|done]. assert (Hs : forall l, GovernanceStore.rows_with "mission_id" mission_id (PStr <$> l) = []).
    { induction l as [|s l IH]; [done|]. cbn [fmap list_fmap]. by rewrite rows_with_cons. }
    unfold iter_rows, iter_table in Hr. destruct (rows_of "missions" doc); cbn [py_iter] in Hr; try done; injection Hr as <-; by rewrite ?Hs in E.
  - intros (rows & Hr & E). unfold iter_rows. rewrite Hr. cbn. by rewrite E.
Qed.

Lemma put_mission_rows k mission_id mission doc : k <> "missions" -> rows_of k (put_mission mission_id mission doc) = rows_of k doc.
Proof. intros Hne. unfold put_mission. destruct (rows_of "missions" doc); try done. rewrite rows_of_dset. by destruct (String.eqb_spec k "missions"). Qed.

Lemma put_mission_unique mission_id mission mission' doc : _unique_mission_record doc mission_id = Ok mission ->
  dget "mission_id" mission' = PStr mission_id ->
  _unique_mission_record (put_mission mission_id mission' doc) mission_id = Ok mission'
  /\ forall id rows, id <> mission_id -> rows_of "missions" doc = PList rows ->
       exists rows', rows_of "missions" (put_mission mission_id mission' doc) = PList rows'
         /\ GovernanceStore.rows_with "mission_id" id rows' = GovernanceStore.rows_with "mission_id" id rows.
Proof.
  intros (rows & Hr & E)%unique_mission_rows Hid. unfold put_mission. rewrite Hr. split.
  - apply unique_mission_rows. eexists. rewrite rows_of_dset. split; [done|]. eapply replace_same; [by apply is_row_PStr|done].
  - intros id rows0 Hne [= <-]. eexists. rewrite rows_of_dset. split; [done|]. eapply replace_other; [done|by apply is_row_PStr].
Qed.

Lemma unique_same_rows doc doc' mission_id : rows_of "missions" doc' = rows_of "missions" doc ->
  _unique_mission_record doc' mission_id = _unique_mission_record doc mission_id.
Proof. intros E. unfold _unique_mission_record, iter_rows. by rewrite E. Qed.

(** The tables the confirmation does not touch, and its two that it does. *)
Record froze doc doc' (mission_id : string) (confirmed_at : pyval) mission' : Prop := {
  fz_before : exists mission plan snapshot hash, _unique_mission_record doc mission_id = Ok mission /\ confirmable mission = true
    /\ plan_of doc mission = Ok plan /\ ew_rebuild ew mission plan = Ok snapshot
    /\ dget "execution_authority_hash" mission = PStr hash /\ content_hash_form hash = true
    /\ dget "execution_hash" snapshot = PStr hash /\ mission' = confirmed_mission confirmed_at snapshot mission;
  fz_after : _unique_mission_record doc' mission_id = Ok mission';
  fz_others : forall id rows, id <> mission_id -> rows_of "missions" doc = PList rows -> exists rows',
    rows_of "missions" doc' = PList rows' /\ GovernanceStore.rows_with "mission_id" id rows' = GovernanceStore.rows_with "mission_id" id rows;
  fz_unbound : exists rows, rows_of "mission_recovery_evidence" doc = PList rows
    /\ rows_of "mission_recovery_evidence" doc' = PList (rows ++ [PDict (unbound mission_id)])
    /\ bindings_of doc' mission_id = Ok [unbound mission_id];
  fz_rest : forall k, k ∉ ["missions"; "mission_recovery_evidence"; "protocol_event_outbox"] -> rows_of k doc' = rows_of k doc
}.

Lemma no_binding_rows mission_id rows evidence : mapR validate_mission_recovery_evidence_record rows = Ok evidence ->
  existsb (is_row "mission_id" mission_id) evidence = false -> GovernanceStore.rows_with "mission_id" mission_id rows = [].
Proof.
  intros H%mapR_Ok. induction H as [|v d rows ds Hv _ IH]; [done|]. cbn [existsb]. intros [Hd Hr]%orb_false_iff. rewrite rows_with_cons.
  destruct v as [| | | | | | |e]; try done. rewrite IH by done. unfold validate_mission_recovery_evidence_record in Hv.
  do 3 apply bind_Ok in Hv as ([] & _ & Hv). injection Hv as <-. unfold is_row in Hd |- *. unfold dget in Hd at 1. cbn in Hd. by rewrite Hd.
Qed.

Lemma add_unbound_Ok mission_id doc doc' : add_unbound mission_id doc = Ok doc' ->
  exists rows, rows_of "mission_recovery_evidence" doc = PList rows
    /\ doc' = dset "mission_recovery_evidence" (PList (rows ++ [PDict (unbound mission_id)])) doc
    /\ validate_mission_recovery_evidence_record (PDict (unbound mission_id)) = Ok (unbound mission_id)
    /\ GovernanceStore.rows_with "mission_id" mission_id rows = [].
Proof.
  unfold add_unbound. intros (rows & Hr%typed_table_Ok & H)%bind_Ok. apply bind_Ok in H as (evidence & He & H).
  apply bind_Ok in H as ([] & Hn%raise_if_Ok & H). apply bind_Ok in H as (record & Hrec & [= <-]). exists rows. split; [done|].
  assert (record = unbound mission_id) as ->.
  { unfold validate_mission_recovery_evidence_record in Hrec. do 3 apply bind_Ok in Hrec as ([] & _ & Hrec). by injection Hrec as <-. }
  split_and!; [done..|]. by eapply no_binding_rows.
Qed.

Lemma freeze_froze doc mission_id confirmed_at doc' mission' :
  freeze_mission_execution w doc mission_id confirmed_at = Ok (doc', mission') -> froze doc doc' mission_id confirmed_at mission'.
Proof.
  unfold freeze_mission_execution. intros H. do 2 apply bind_Ok in H as ([] & _ & H). apply bind_Ok in H as (parsed & _ & H).
  apply bind_Ok in H as (mission & Hm & H). apply bind_Ok in H as (plan & Hplan & H). apply bind_Ok in H as (created & _ & H).
  apply bind_Ok in H as ([] & _ & H). apply bind_Ok in H as ([] & Hc%raise_if_Ok%negb_false_iff & H).
  apply bind_Ok in H as (snapshot & Hs & H). apply bind_Ok in H as ([] & Hh%raise_if_Ok & H). apply bind_Ok in H as (semantic & _ & H).
  apply bind_Ok in H as (doc1 & Hu & H). apply bind_Ok in H as (doc2 & He & H). apply bind_Ok in H as (doc3 & Hse & [= <- <-]).
  apply orb_false_iff in Hh as [Hf%negb_false_iff Hh%negb_false_iff]. apply is_form_PStr in Hf as (hash & Hauth & Hform).
  rewrite Hauth in Hh. apply py_eq_str in Hh. set (m' := confirmed_mission confirmed_at snapshot mission) in *.
  assert (Hid : dget "mission_id" m' = PStr mission_id).
  { unfold m', confirmed_mission, dupdate. cbn [foldl fst snd]. rewrite !dget_dset. cbn.
    apply unique_mission_rows in Hm as (rows & _ & E). by apply rows_with_one in E as [_ E]. }
  apply add_unbound_Ok in Hu as (rows & Hr & -> & Hub & Hnone). rewrite put_mission_rows in Hr by done.
  apply append_event_Ok in He as (outbox & Hout & ->).
  assert (Hrest : forall k, k <> "protocol_event_outbox" -> rows_of k doc3
            = rows_of k (dset "mission_recovery_evidence" (PList (rows ++ [PDict (unbound mission_id)])) (put_mission mission_id m' doc))).
  { intros k Hk. destruct semantic as [event|].
    - apply append_event_Ok in Hse as (outbox' & _ & ->). rewrite !rows_of_dset. by destruct (String.eqb_spec k "protocol_event_outbox").
    - injection Hse as <-. rewrite rows_of_dset. by destruct (String.eqb_spec k "protocol_event_outbox"). }
  destruct (put_mission_unique _ _ _ _ Hm Hid) as [Hnew Hothers]. split.
  - exists mission, plan, snapshot, hash. split_and!; try done. unfold current_authority in Hs. by destruct (ew_rebuild ew mission plan) as [|[]].
  - rewrite <- Hnew. apply unique_same_rows. rewrite Hrest by done. by rewrite rows_of_dset.
  - intros id l Hne Hl. rewrite Hrest by done. rewrite rows_of_dset. by apply Hothers.
  - exists rows. split; [done|]. rewrite Hrest by done. rewrite rows_of_dset. split; [done|].
    unfold bindings_of, iter_rows. rewrite Hrest by done. rewrite rows_of_dset. cbn [String.eqb]. cbn [Ascii.eqb Bool.eqb iter_table py_iter mbind result_bind].
    rewrite rows_with_app, Hnone. cbn [app]. rewrite rows_with_cons, (proj2 (is_row_PStr "mission_id" mission_id (unbound mission_id)) eq_refl).
    cbn [GovernanceStore.rows_with dicts_of omap list_omap List.filter mapR]. by rewrite Hub.
  - intros k Hk. rewrite Hrest by set_solver. rewrite rows_of_dset. destruct (String.eqb_spec k "mission_recovery_evidence"); [set_solver|].
    apply put_mission_rows. set_solver.
Qed.
End freeze_laws.

(** C13: A Mission is confirmed once.  The confirmation takes a Mission that
    waits for it, freezes the snapshot whose hash its preview showed and that
    the configuration still gives, moves it to preparing and binds it to no
    attempt; it leaves other Missions and the other tables alone.  Whatever is
    done to the document after that, as long as the snapshot stays frozen no
    other confirmation succeeds. *)
Theorem mission_is_confirmed_once {env : LeaseEnv} {ft : FloatText} {lim : RecursionLimits} {repr : PyRepr} (w w' : mission_world)
    doc mission_id confirmed_at doc' mission' :
  freeze_mission_execution w doc mission_id confirmed_at = Ok (doc', mission') ->
  froze w doc doc' mission_id confirmed_at mission'
  /\ (forall later m at_ r, _unique_mission_record later mission_id = Ok m ->
        dget "execution_snapshot" m = dget "execution_snapshot" mission' ->
        freeze_mission_execution w' later mission_id at_ <> Ok r).
Proof.
  intros Hf%freeze_froze. split; [done|]. intros later m at_ [d' m'] Hm Hsame [Hb _ _ _ _]%freeze_froze.
  destruct Hb as (m2 & plan & snapshot & hash & Hm2 & Hc & _). rewrite Hm in Hm2. injection Hm2 as <-.
  destruct Hf as [(m0 & p0 & s0 & h0 & _ & _ & _ & _ & _ & _ & _ & ->) _ _ _ _]. unfold confirmable in Hc. split_guards.
  assert (E : dget "execution_snapshot" m = PDict s0).
  { rewrite Hsame. unfold confirmed_mission, dupdate. cbn [foldl fst snd]. by rewrite !dget_dset. }
  rewrite E in *. done.
Qed.

(** *** Worker starts *)

(** The two operations on the ledger of starts. *)
Inductive start_op :=
| OpClaimStart (mission_id step_id agent_id : string)
| OpFinishStart (start_id : string) (pane_id : pyval) (session_name cwd : string) (blocker : pyval).

Section start_laws.
Context {env : LeaseEnv} {ft : FloatText} {lim : RecursionLimits} {repr : PyRepr}.
Implicit Types (w : mission_world) (doc : dict).

Definition run_start_op w doc (op : start_op) : result (dict * dict) :=
  match op with
  | OpClaimStart m s a => claim_mission_worker_start w doc m s a
  | OpFinishStart i p session cwd b => finish_mission_worker_start w doc i p session cwd b
  end.

(** Starts claimed and finished one after the other, each under the store's
    lock, with everything else that may happen in between keeping the ledger. *)
Inductive start_run : dict -> list start_op -> dict -> Prop :=
| start_nil doc : start_run doc [] doc
| start_other doc doc1 doc' ops : rows_of "mission_worker_starts" doc1 = rows_of "mission_worker_starts" doc ->
    start_run doc1 ops doc' -> start_run doc ops doc'
| start_step w doc op doc1 record ops doc' : run_start_op w doc op = Ok (doc1, record) -> start_run doc1 ops doc' ->
    start_run doc (op :: ops) doc'.

Definition claims_made (ops : list start_op) : list (string * string) :=
  omap (fun op => match op with OpClaimStart m s _ => Some (m, s) | _ => None end) ops.
Definition starts_finished (ops : list start_op) : list string :=
  omap (fun op => match op with OpFinishStart i _ _ _ _ => Some i | _ => None end) ops.

(** The ledger holds a start for the step; a start that is over. *)
Definition claimed_in_ledger (step : string * string) doc : Prop := exists rows d,
  rows_of "mission_worker_starts" doc = PList rows /\ PDict d ∈ rows
  /\ dget "mission_id" d = PStr step.1 /\ dget "step_id" d = PStr step.2.
Definition over_in_ledger (start_id : string) doc : Prop := exists rows d,
  rows_of "mission_worker_starts" doc = PList rows /\ PDict d ∈ rows
  /\ dget "start_id" d = PStr start_id /\ dget "state" d <> PStr "claimed".

Lemma claim_start_Ok w doc m s a doc' record : claim_mission_worker_start w doc m s a = Ok (doc', record) ->
  ~ claimed_in_ledger (m, s) doc /\ exists rows, rows_of "mission_worker_starts" doc = PList rows
    /\ rows_of "mission_worker_starts" doc' = PList (rows ++ [PDict record])
    /\ dget "mission_id" record = PStr m /\ dget "step_id" record = PStr s.
Proof.
  unfold claim_mission_worker_start. intros (mission & _ & H)%bind_Ok. apply bind_Ok in H as (snapshot & _ & H).
  apply bind_Ok in H as (known & _ & H). apply bind_Ok in H as ([] & _ & H). apply bind_Ok in H as (worker & _ & H).
  apply bind_Ok in H as ([] & _ & H). apply bind_Ok in H as (starts & Hr%typed_table_Ok & H). apply bind_Ok in H as ([] & _ & H).
  apply bind_Ok in H as ([] & Hn%raise_if_Ok & H). apply bind_Ok in H as (doc1 & Ha & H). apply bind_Ok in H as (doc2 & He & [= <- <-]).
  apply append_row_Ok in Ha as (rows & Hr' & ->). rewrite Hr in Hr'. injection Hr' as <-. apply append_event_Ok in He as (l & _ & ->).
  split; [|exists starts; rewrite !rows_of_dset; by split_and!].
  intros (rows & d & Hrows & Hd & Hm & Hs). rewrite Hr in Hrows. injection Hrows as <-. cbn in Hm, Hs.
  apply existsb_elem_false with (x := d) in Hn; [|by apply elem_of_dicts_of].
  by rewrite (proj2 (is_row_PStr _ _ _) Hm), (proj2 (is_row_PStr _ _ _) Hs) in Hn.
Qed.

(** A finished start replaces its claim, and keeps what it is about. *)
Lemma finish_start_Ok w doc id pane session cwd blocker doc' record : finish_mission_worker_start w doc id pane session cwd blocker = Ok (doc', record) ->
  exists rows claim, rows_of "mission_worker_starts" doc = PList rows /\ GovernanceStore.rows_with "start_id" id rows = [claim]
    /\ dget "state" claim = PStr "claimed"
    /\ rows_of "mission_worker_starts" doc' = PList (replace_first (is_row "start_id" id) record rows)
    /\ dget "state" record = PStr (if Attempt.is_none blocker then "started" else "blocked")
    /\ (forall k, k ∈ ["start_id"; "mission_id"; "step_id"; "agent_id"] -> dget k record = dget k claim).
Proof.
  unfold finish_mission_worker_start. intros (starts & Hr & H)%bind_Ok.
  destruct (GovernanceStore.rows_with _ _ starts) as [|claim [|]] eqn:E; try done. apply bind_Ok in H as ([] & Hc%raise_if_Ok & H).
  apply negb_false_iff, is_row_PStr in Hc. apply bind_Ok in H as ([[doc1 r] event] & Hf & H). apply bind_Ok in H as (doc2 & He & [= <- <-]).
  assert (Hrows : rows_of "mission_worker_starts" doc = PList starts).
  { assert (Hs : forall l, GovernanceStore.rows_with "start_id" id (PStr <$> l) = []).
    { induction l as [|s l IH]; [done|]. cbn [fmap list_fmap]. by rewrite rows_with_cons. }
    unfold iter_rows, iter_table in Hr. destruct (rows_of _ doc); cbn [py_iter] in Hr; try done; injection Hr as <-; by rewrite ?Hs in E. }
  exists starts, claim. do 3 (split; [done|]). apply append_event_Ok in He as (l & _ & ->). rewrite !rows_of_dset.
  split; [done|]. assert (Hrec : exists p b, r = dupdate [("state", PStr (if Attempt.is_none blocker then "started" else "blocked"));
                                                         ("pane_id", p); ("blocker", b)] claim).
  { destruct (Attempt.is_none blocker).
    - unfold started_ok in Hf. apply bind_Ok in Hf as ([] & _ & Hf). apply bind_Ok in Hf as (agent & _ & Hf).
      apply bind_Ok in Hf as (d & _ & Hf). apply bind_Ok in Hf as (about & _ & [= _ <- _]). by do 2 eexists.
    - unfold started_blocked in Hf. apply bind_Ok in Hf as ([] & _ & Hf). apply bind_Ok in Hf as (about & _ & [= _ <- _]). by do 2 eexists. }
  destruct Hrec as (p & b & ->). unfold dupdate. cbn [foldl fst snd].
  split; [by rewrite !dget_dset|]. intros k Hk. rewrite !dget_dset.
  by repeat (apply elem_of_cons in Hk as [->|Hk]; [done|]); apply elem_of_nil in Hk.
Qed.

(** A row of the table is still there, or it was the one replaced. *)
Lemma replaced_row k id new rows claim d : GovernanceStore.rows_with k id rows = [claim] -> PDict d ∈ rows ->
  PDict d ∈ replace_first (is_row k id) new rows \/ d = claim /\ PDict new ∈ replace_first (is_row k id) new rows.
Proof.
  induction rows as [|v rows IH]; [intros _ H; by apply elem_of_nil in H|]. rewrite rows_with_cons.
  destruct v as [| | | | | | |e]; cbn [replace_first].
  all: try (intros E [H|H]%elem_of_cons; [done|]; destruct (IH E H) as [?|[? ?]]; [left|right]; set_solver).
  destruct (is_row k id e) eqn:Ee.
  - intros [= -> _] [[= ->]|H]%elem_of_cons; [right; split; [done|by left]|left; by right].
  - intros E [[= ->]|H]%elem_of_cons; [left; by left|]. destruct (IH E H) as [?|[? ?]]; [left|right]; set_solver.
Qed.

Lemma start_op_keeps w doc op doc' record : run_start_op w doc op = Ok (doc', record) ->
  (forall step, claimed_in_ledger step doc -> claimed_in_ledger step doc') /\ (forall i, over_in_ledger i doc -> over_in_ledger i doc')
  /\ match op with
     | OpClaimStart m s _ => ~ claimed_in_ledger (m, s) doc /\ claimed_in_ledger (m, s) doc'
     | OpFinishStart i _ _ _ _ => ~ over_in_ledger i doc /\ over_in_ledger i doc'
     end.
Proof.
  destruct op as [m s a|i p session cwd b]; cbn [run_start_op].
  - intros (Hn & rows & Hr & Hr' & Hm & Hs)%claim_start_Ok. split_and!.
    + intros step (rows0 & d & E & Hd & H). rewrite Hr in E. injection E as <-. exists (rows ++ [PDict record]), d.
      split; [done|]. split; [set_solver|done].
    + intros i (rows0 & d & E & Hd & H). rewrite Hr in E. injection E as <-. exists (rows ++ [PDict record]), d.
      split; [done|]. split; [set_solver|done].
    + done.
    + exists (rows ++ [PDict record]), record. split_and!; [done|set_solver|done..].
  - intros (rows & claim & Hr & E & Hc & Hr' & Hst & Hk)%finish_start_Ok. pose proof (rows_with_one _ _ _ _ E) as [Hin Hid].
    assert (Hnew : PDict record ∈ replace_first (is_row "start_id" i) record rows).
    { destruct (replaced_row _ _ record _ _ _ E Hin) as [H|[_ H]]; [|done].
      assert (Hw : GovernanceStore.rows_with "start_id" i (replace_first (is_row "start_id" i) record rows) = [record]).
      { apply (replace_same _ _ _ _ claim); [|done]. apply is_row_PStr. by rewrite Hk by set_solver. }
      by apply rows_with_one in Hw as [? _]. }
    assert (Hne : dget "state" record <> PStr "claimed") by (rewrite Hst; by destruct (Attempt.is_none b)).
    split_and!.
    + intros step (rows0 & d & E0 & Hd & H1 & H2). rewrite Hr in E0. injection E0 as <-.
      destruct (replaced_row _ _ record _ _ _ E Hd) as [H|[-> H]].
      * by exists (replace_first (is_row "start_id" i) record rows), d.
      * exists (replace_first (is_row "start_id" i) record rows), record. split_and!; [done..| |]; by rewrite Hk by set_solver.
    + intros j (rows0 & d & E0 & Hd & H1 & H2). rewrite Hr in E0. injection E0 as <-.
      destruct (replaced_row _ _ record _ _ _ E Hd) as [H|[-> H]]; [|by destruct H2].
      by exists (replace_first (is_row "start_id" i) record rows), d.
    + intros (rows0 & d & E0 & Hd & H1 & H2). rewrite Hr in E0. injection E0 as <-.
      assert (Hd' : d ∈ GovernanceStore.rows_with "start_id" i rows).
      { unfold GovernanceStore.rows_with. apply list_elem_of_In, filter_In. split; [by apply list_elem_of_In, elem_of_dicts_of|by apply is_row_PStr]. }
      rewrite E in Hd'. apply list_elem_of_singleton in Hd' as ->. done.
    + exists (replace_first (is_row "start_id" i) record rows), record. split_and!; [done..| |done]. by rewrite Hk by set_solver.
Qed.

Lemma ledger_same doc doc1 : rows_of "mission_worker_starts" doc1 = rows_of "mission_worker_starts" doc ->
  (forall step, claimed_in_ledger step doc <-> claimed_in_ledger step doc1) /\ (forall i, over_in_ledger i doc <-> over_in_ledger i doc1).
Proof. intros E. unfold claimed_in_ledger, over_in_ledger. by rewrite E. Qed.

(** C12: A Worker's pane is started at most once for each step of a Mission and
    each start has one outcome: over any sequence of claims and receipts, with
    other operations in between, no step is claimed twice or when the ledger
    already had a start for it, and no start is finished twice or when it was
    over before. *)
Theorem worker_starts_once doc ops doc' : start_run doc ops doc' ->
  NoDup (claims_made ops) /\ NoDup (starts_finished ops)
  /\ (forall step, step ∈ claims_made ops -> ~ claimed_in_ledger step doc)
  /\ (forall i, i ∈ starts_finished ops -> ~ over_in_ledger i doc).
Proof.
  induction 1 as [doc|doc doc1 doc' ops E _ IH|w doc op doc1 record ops doc' Hop _ IH].
  - split_and!; [constructor|constructor|by intros ? ?%elem_of_nil|by intros ? ?%elem_of_nil].
  - apply ledger_same in E as [E1 E2]. setoid_rewrite E1. setoid_rewrite E2. exact IH.
  - destruct IH as (N1 & N2 & F1 & F2). apply start_op_keeps in Hop as (K1 & K2 & Hop).
    destruct op as [m s a|i p session cwd b]; cbn [claims_made starts_finished omap list_omap]; destruct Hop as [Hn Hy].
    + split_and!; [|done| |naive_solver].
      * apply NoDup_cons. split; [|done]. intros Hin. by apply (F1 _ Hin).
      * intros step [->|Hin]%elem_of_cons; [done|]. intros Hc. by apply (F1 _ Hin), K1.
    + split_and!; [done| |naive_solver|].
      * apply NoDup_cons. split; [|done]. intros Hin. by apply (F2 _ Hin).
      * intros j [->|Hin]%elem_of_cons; [done|]. intros Hc. by apply (F2 _ Hin), K2.
Qed.
End start_laws.

(** ** A sample Mission *)

#[local] Existing Instance sample_env.
#[local] Existing Instance sample_limits.
#[local] Existing Instance sample_float_text.
#[local] Existing Instance sample_repr.

Definition tmux_worker (agent : string) : pyval :=
  PDict [("agent_id", PStr agent); ("role", PStr "coder"); ("provider", PStr agent); ("workspace_mode", PStr "worktree");
         ("configured_transport", PStr "tmux");
         ("capability_provenance", PDict [("source", PStr "project_config"); ("transport", PStr "tmux");
                                          ("adapter_configuration", PStr "not_applicable")]);
         ("runtime_identity_hash", sample_hash)].
Definition tmux_snapshot : dict :=
  dset "limits" (PDict (dset "retry_limit" (PInt 2) (part "limits" sample_snapshot)))
    (dset "workers" (PList [tmux_worker "codex"; sample_worker "claude"]) sample_snapshot).
Definition sample_config : ProjectConfig :=
  {| cf_root := "/repo";
     cf_agents := [{| ag_agent_id := "codex"; ag_role := "coder"; ag_provider := "codex"; ag_command := "codex";
                      ag_workspace_mode := "worktree"; ag_role_prompt := ""; ag_transport := "tmux"; ag_transport_command := [] |}];
     cf_runtime := {| rt_backend := "tmux"; rt_session_name := "agentdeck"; rt_socket_name := "agentdeck-local" |} |}.
Definition mission_sample_world (n : nat) : mission_world :=
  MissionWorld
    (EvidenceWorld (sample_world n) (fun i => ("evt_" +:+ pretty (n * 100 + i), instant_text 5)) (fun _ _ => Ok tmux_snapshot)
       ("rpl_" +:+ pretty n) ("hnd_" +:+ pretty n) (instant_text 5))
    (Ok sample_config) (fun _ => Err (ValueError "semantic plan invalid")) (fun _ => Err (ValueError "no authority"))
    "mis_0123456789ab" ("mat_00000000000" +:+ pretty n) ("wst_" +:+ pretty n).

Definition sample_entry (action : bool) (agent : string) : pyval :=
  PDict ([("agent_id", PStr agent)]
         ++ (if action then [("action", PStr "spawn")] else [("provider", PStr agent); ("role", PStr "coder"); ("workspace_mode", PStr "worktree")])
         ++ [("runtime_status", PStr "stopped"); ("effective_model", PNone); ("model_source", PStr "config")]).
Definition sample_request : mission_request :=
  MissionRequest (PStr "add a test") (PBool true) (PList []) (PStr "fake") (PStr "m") (PDict (leader_backend_identity (PStr "fake") (PStr "m") false))
    (PStr "pln_0123456789ab") sample_hash (PList [sample_entry false "codex"; sample_entry false "claude"])
    (PList [sample_entry true "codex"; sample_entry true "claude"]) (PInt 2) (PInt 60) (PInt 0).

Definition doc_after (r : result (dict * dict)) : dict := match r with Ok r => r.1 | Err _ => [] end.
Definition sample_plans : dict := [("plans", PList [PDict [("plan_id", PStr "pln_0123456789ab")]])].
(** The Mission as it was created, with the hash its preview showed. *)
Definition pending_doc : dict :=
  match create_mission (mission_sample_world 1) sample_plans sample_request with
  | Ok (doc, m) => put_mission "mis_0123456789ab" (dset "execution_authority_hash" sample_hash m) doc
  | Err _ => []
  end.
Definition frozen_doc : dict := doc_after (freeze_mission_execution (mission_sample_world 2) pending_doc "mis_0123456789ab" (PStr (instant_text 5))).
Definition admitted_doc : dict := doc_after (admit_mission_execution (mission_sample_world 3) frozen_doc "mis_0123456789ab" (text_of sample_hash)).
Definition claimed_doc : dict := doc_after (claim_mission_worker_start (mission_sample_world 4) admitted_doc "mis_0123456789ab" "step_1" "codex").
Definition started_doc : dict :=
  doc_after (finish_mission_worker_start (mission_sample_world 5) claimed_doc "wst_4" (PStr "%1") "agentdeck" "/repo" PNone).
#[local] Notation prepared := (prepare_mission_attempt (mission_sample_world 6) started_doc "mis_0123456789ab" "step_1" "codex" "tmux").

Lemma outcome_of {A B} (r : result (A * B)) : is_ok r = true -> exists a b, r = Ok (a, b).
Proof. destruct r as [[a b]|]; [|done]. intros _. by exists a, b. Qed.

Lemma prepared_runs : is_ok prepared = true.
Proof. vm_compute. reflexivity. Qed.
Lemma started_attempts : load_attempts started_doc = Ok ([], []).
Proof. vm_compute. reflexivity. Qed.

Lemma prepared_attempt_awaits_admission_witness : exists doc' a records, prepared = Ok (doc', a)
  /\ coherent (sw_journal (sample_world 6)) doc' [a] records /\ phase_of a = Ready /\ events_of (lineage_of a) records = [].
Proof.
  destruct (outcome_of prepared prepared_runs) as (doc' & a & H). exists doc', a.
  destruct (prepared_attempt_awaits_admission (mission_sample_world 6) started_doc "mis_0123456789ab" "step_1" "codex" "tmux" doc' a H)
    as (attempts & records & ((rows & Hl) & _) & Hnext & Hidle).
  rewrite started_attempts in Hl. injection Hl as _ <-.
  destruct Hidle as (records' & Hc & _ & _ & Hnone); [intros b Hb; exfalso; exact (not_elem_of_nil b Hb)|].
  exists records'. split; [exact H|]. split; [exact Hc|]. split; [|exact Hnone]. exact (na_ready _ _ _ _ _ _ _ _ Hnext).
Defined.

(** The step rerouted from the frozen tmux to ACP, and its failed attempt. *)
Definition the_mission (doc : dict) : dict := match _unique_mission_record doc "mis_0123456789ab" with Ok m => m | Err _ => [] end.
Definition rerouted_doc : dict :=
  dset "mission_transport_reroutes"
    (PList [PDict (reroute_facts "mis_0123456789ab" "step_1" "codex" (the_mission started_doc) "agentdeck_owned" (PStr "tmux") "acp"
                   ++ [("preview_id", PStr "gov_1"); ("generation", PInt 1); ("created_at", PStr (instant_text 5))])]) started_doc.
#[local] Notation rerouted := (prepare_mission_attempt (mission_sample_world 6) rerouted_doc "mis_0123456789ab" "step_1" "codex" "acp").
Definition as_failed (a : dict) : dict :=
  dupdate [("state", PStr "failed"); ("admission_claim_id", PStr "adm_00000000000a"); ("receipt_summary", PStr "sent")] a.
Lemma as_failed_identity a : attempt_identity (as_failed a) = attempt_identity a.
Proof. unfold attempt_identity, as_failed, dupdate. cbn [foldl fst snd fmap list_fmap]. by rewrite !dget_dset. Qed.
Definition failed_attempt_of (r : result (dict * dict)) : dict :=
  match r with
  | Ok (_, a) => as_failed a
  | Err _ => []
  end.
Definition retry_doc : dict := dset "mission_attempts" (PList [PDict (failed_attempt_of rerouted)]) (doc_after rerouted).

Example retry_is_drift : prepare_mission_attempt (mission_sample_world 7) retry_doc "mis_0123456789ab" "step_1" "codex" "acp"
  = Err (ValueError "mission attempt lineage drift").
Proof. vm_compute. reflexivity. Qed.

Lemma rerouted_runs : is_ok rerouted = true.
Proof. vm_compute. reflexivity. Qed.
Lemma rerouted_mission : _unique_mission_record rerouted_doc "mis_0123456789ab" = Ok (the_mission rerouted_doc).
Proof. vm_compute. reflexivity. Qed.
Lemma retry_mission : _unique_mission_record retry_doc "mis_0123456789ab" = Ok (the_mission rerouted_doc).
Proof. vm_compute. reflexivity. Qed.
Lemma rerouted_snapshot : validate_execution_snapshot (dget "execution_snapshot" (the_mission rerouted_doc)) = Ok tmux_snapshot.
Proof. vm_compute. reflexivity. Qed.
Lemma sample_workers_frozen : forallb (fun k => negb (is_row "agent_id" "codex" k) || negb (is_row "configured_transport" "acp" k))
                                (frozen_worker_rows tmux_snapshot) = true.
Proof. vm_compute. reflexivity. Qed.

Lemma rerouted_step_is_not_retried_witness : exists doc' a, rerouted = Ok (doc', a)
  /\ forall transport r, prepare_mission_attempt (mission_sample_world 7) retry_doc "mis_0123456789ab" "step_1" "codex" transport <> Ok r.
Proof.
  destruct (outcome_of rerouted rerouted_runs) as (doc' & a & H). exists doc', a. split; [exact H|]. intros transport r.
  apply (rerouted_step_is_not_retried (mission_sample_world 6) (mission_sample_world 7) rerouted_doc "mis_0123456789ab" "step_1" "codex" "acp"
           doc' a (the_mission rerouted_doc) tmux_snapshot retry_doc (the_mission rerouted_doc) (failed_attempt_of rerouted) transport r H
           rerouted_mission rerouted_snapshot).
  - intros k Hk Ha Ht. clear H. pose proof (proj1 (forallb_elem _ _) sample_workers_frozen k Hk) as E. cbn beta in E.
    rewrite (proj2 (is_row_PStr _ _ _) Ha), (proj2 (is_row_PStr _ _ _) Ht) in E. discriminate E.
  - exact retry_mission.
  - reflexivity.
  - exists [PDict (failed_attempt_of rerouted)]. split; [|apply list_elem_of_here]. unfold retry_doc. rewrite rows_of_dset. reflexivity.
  - rewrite H. exact (as_failed_identity a).
Defined.

Definition confirmed : result (dict * dict) := freeze_mission_execution (mission_sample_world 2) pending_doc "mis_0123456789ab" (PStr (instant_text 5)).
Lemma confirmed_runs : is_ok confirmed = true.
Proof. vm_compute. reflexivity. Qed.
Lemma admitted_mission : exists m m', confirmed = Ok (frozen_doc, m') /\ _unique_mission_record admitted_doc "mis_0123456789ab" = Ok m
  /\ dget "execution_snapshot" m = dget "execution_snapshot" m'.
Proof. vm_compute. do 2 eexists. split; [reflexivity|]. split; reflexivity. Qed.

Lemma mission_is_confirmed_once_witness : exists m',
  froze (mission_sample_world 2) pending_doc frozen_doc "mis_0123456789ab" (PStr (instant_text 5)) m'
  /\ forall at_ r, freeze_mission_execution (mission_sample_world 4) admitted_doc "mis_0123456789ab" at_ <> Ok r.
Proof.
  destruct admitted_mission as (m & m' & H & Hm & Hs). exists m'. unfold confirmed in H.
  destruct (mission_is_confirmed_once (mission_sample_world 2) (mission_sample_world 4) pending_doc "mis_0123456789ab" (PStr (instant_text 5))
              frozen_doc m' H) as [Hf Hno].
  split; [exact Hf|]. intros at_ r. exact (Hno admitted_doc m at_ r Hm Hs).
Defined.

Definition claim_op : start_op := OpClaimStart "mis_0123456789ab" "step_1" "codex".
Definition finish_op : start_op := OpFinishStart "wst_4" (PStr "%1") "agentdeck" "/repo" PNone.
Lemma claim_runs : is_ok (run_start_op (mission_sample_world 4) admitted_doc claim_op) = true.
Proof. vm_compute. reflexivity. Qed.
Lemma finish_runs : is_ok (run_start_op (mission_sample_world 5) claimed_doc finish_op) = true.
Proof. vm_compute. reflexivity. Qed.
Lemma sample_start_run : start_run admitted_doc [claim_op; finish_op] started_doc.
Proof.
  destruct (outcome_of _ claim_runs) as (d1 & r1 & H1), (outcome_of _ finish_runs) as (d2 & r2 & H2).
  apply (start_step (mission_sample_world 4) admitted_doc claim_op claimed_doc r1); [|apply (start_step (mission_sample_world 5) _ _ started_doc r2)].
  - unfold claimed_doc. unfold run_start_op, claim_op in H1. by rewrite H1.
  - unfold started_doc. unfold run_start_op, finish_op in H2. by rewrite H2.
  - apply start_nil.
Qed.

Lemma worker_starts_once_witness : NoDup (claims_made [claim_op; finish_op]) /\ ~ over_in_ledger "wst_4" admitted_doc.
Proof.
  destruct (worker_starts_once admitted_doc [claim_op; finish_op] started_doc sample_start_run) as (H & _ & _ & Hover).
  split; [exact H|]. apply Hover. apply list_elem_of_here.
Defined.
