(* ===== verification/MissionProgress.v ===== *)
(** * The progress of a Mission ([state.py], [daemon/service.py])

    How a Mission moves through its steps: the recorded handoff of a step moves
    its cursor, a Mission whose cursor has reached the last step is complete.
    The runs of a Mission put these operations together with the preparation of
    its attempts ([MissionStore]) and the operations on them ([AttemptStore]).

    The hash of a semantic step, which also validates it
    ([semantic_planning.py]), is given. *)
From S2P Require Import Prelude PyStr PyVal ReviewVerdict ReviewGroup Json Protocol Handoff Scheduler Lease Store Conversation Attempt Snapshot AttemptStore Recovery.
From S2P Require Import AgentProtocol Governance GovernanceStore EvidenceStore AcpPermission MissionStore.

(** [int(step_id.split("_")[1])]: the digits of a valid identity. *)
Definition step_number (step_id : string) : result Z :=
  match drop_prefix "step_" step_id with
  | Some digits =>
      _ ← raise_if (4300 <? String.length digits) (ValueError "Exceeds the limit for integer string conversion");
      Ok (digits_value 0 digits)
  | None => Err IndexError
  end.

(** [mission.get("current_step", 0)] as a number: arithmetic on anything else
    raises ([float]s are never stored here). *)
Definition cursor_number (mission : dict) : result Z :=
  match dlookup "current_step" mission with
  | None => Ok 0%Z
  | Some v => match isinstance_int v with Some z => Ok z | None => Err (TypeError "unsupported operand type(s) for +") end
  end.

Section progress.
Context {env : LeaseEnv} {ft : FloatText} {lim : RecursionLimits} {repr : PyRepr}.
Variable w : mission_world.
Variable semantic_step_hash : pyval -> result string.
#[local] Notation ew := (mw_evidence w).
#[local] Notation now := (ew_now ew).

(** ** What a handoff may contain ([daemon/service.py]) *)

(** Some artifact of the handoff is no target of the step's effects. *)
Definition effect_target (item : dict) : result string :=
  match dget "target" item with
  | PStr t => if nonempty t then Ok t else Err (ValueError "target")
  | v => if hashable v then Err (ValueError "target") else Err (TypeError "unhashable type")
  end.
Definition exceeds_scope (semantic_step canonical_handoff : pyval) : result bool :=
  _ ← semantic_step_hash semantic_step;
  canonical ← validate_canonical_handoff canonical_handoff PNone;
  step ← dict_or (ValueError "semantic step") semantic_step;
  effects ← list_or (ValueError "effects") (dget "required_effects" step);
  proposals ← list_or (ValueError "effects") (dget "proposed_effects" step);
  _ ← raise_if (negb (forallb is_dict (effects ++ proposals))) (ValueError "effects");
  targets ← mapR effect_target (dicts_of (effects ++ proposals));
  Ok (existsb (fun a => negb (in_strs (path a) targets)) (artifacts canonical)).
Definition validate_semantic_handoff_scope (semantic_step canonical_handoff : pyval) : result (option string) :=
  match exceeds_scope semantic_step canonical_handoff with
  | Ok exceeds => Ok (if exceeds : bool then Some "semantic_compilation_drift" else None)
  | Err e => if match e with KeyError _ => true | _ => type_or_value e end then Ok (Some "semantic_compilation_drift") else Err e
  end.

(** ** Moving the cursor *)

(** The recorded handoffs of the attempt, by their identity. *)
Definition recorded_handoffs (doc : dict) (mission_id attempt_id handoff_id : string) : result (list dict) :=
  rows ← iter_rows "mission_handoffs" doc;
  handoffs ← mapR validate_mission_handoff_evidence_record rows;
  Ok (List.filter (fun h => is_row "attempt_id" attempt_id h && is_row "handoff_id" handoff_id h
                            && is_row "mission_id" mission_id h && state_is "recorded" h) handoffs).

(** The plan's semantic step of the attempt. *)
Definition semantic_step_of (plan : dict) (position : Z) : pyval :=
  match get_in "semantic_steps" (dget "plan" plan) with
  | PList steps => if (0 <? position)%Z then default PNone (steps !! Z.to_nat (position - 1)) else PNone
  | _ => PNone
  end.
Definition scope_blocker (doc mission attempt handoff : dict) : result (option string) :=
  match dget "semantic_step_hash" attempt with
  | PNone => Ok None
  | _ =>
      plan ← plan_of doc mission;
      position ← step_number (field "step_id" attempt);
      validate_semantic_handoff_scope (semantic_step_of plan position) (dget "canonical_handoff" handoff)
  end.

Definition stopped_mission (blocker : string) (mission : dict) : dict :=
  dupdate [("status", PStr "stopped"); ("stop_reason", PStr blocker); ("updated_at", PStr now)] mission.
Definition advanced_mission (cursor : Z) (mission : dict) : dict :=
  dupdate [("current_step", PInt (cursor + 1)); ("status", PStr "running"); ("updated_at", PStr now)] mission.

Definition advance_mission_after_handoff (doc : dict) (mission_id attempt_id handoff_id : string) : result (dict * dict) :=
  let invalid := ValueError "Mission handoff advance authority invalid" in
  mission ← _unique_mission_record doc mission_id;
  matches ← recorded_handoffs doc mission_id attempt_id handoff_id;
  attempts ← validated_attempts doc;
  match matches, find_first (is_row "attempt_id" attempt_id) attempts with
  | [handoff], Some attempt =>
      _ ← raise_if (negb (state_in ["completed"; "succeeded"] attempt)) invalid;
      cursor ← cursor_number mission;
      position ← step_number (field "step_id" attempt);
      _ ← raise_if (negb (cursor + 1 =? position)%Z) invalid;
      blocker ← scope_blocker doc mission attempt handoff;
      match blocker with
      | Some blocker =>
          let mission' := stopped_mission blocker mission in
          doc ← ev_audit ew "semantic_authority_drift_detected"
                  [("mission_id", PStr mission_id); ("attempt_id", PStr attempt_id); ("step_id", dget "step_id" attempt);
                   ("agent_id", dget "agent_id" attempt); ("code", PStr blocker)]
                  (put_mission mission_id mission' doc);
          Ok (doc, mission')
      | None =>
          let mission' := advanced_mission cursor mission in
          doc ← ev_audit ew "mission_step_activated"
                  ([("mission_id", PStr mission_id); ("attempt_id", PStr attempt_id); ("current_step", PInt (cursor + 1))]
                   ++ match dget "semantic_step_hash" attempt with PNone => [] | h => [("semantic_step_hash", h)] end)
                  (put_mission mission_id mission' doc);
          Ok (doc, mission')
      end
  | _, _ => Err invalid
  end.

Definition completed_mission (mission : dict) : dict :=
  dupdate [("status", PStr "completed"); ("completed_at", PStr now); ("updated_at", PStr now); ("stop_reason", PNone)] mission.
Definition complete_admitted_mission (doc : dict) (mission_id : string) : result (dict * dict) :=
  mission ← _unique_mission_record doc mission_id;
  admission ← match dlookup "daemon_admission" mission with None => Ok [] | Some v => as_dict v end;
  _ ← raise_if (negb (is_row "state" "admitted" admission) || negb (py_eq (dget "current_step" mission) (dget "step_count" mission)))
               (ValueError "Mission completion authority invalid");
  let mission' := completed_mission mission in
  doc ← ev_audit ew "mission_completed" [("mission_id", PStr mission_id)] (put_mission mission_id mission' doc);
  Ok (doc, mission').
End progress.

(** ** Runs of Missions *)

(** The cursor of the one Mission with the identity. *)
Definition cursor_of (doc : dict) (mission_id : string) : option pyval :=
  match _unique_mission_record doc mission_id with Ok m => Some (dget "current_step" m) | Err _ => None end.
Definition step_name (n : nat) : pyval := PStr ("step_" +:+ pretty n).

Inductive mission_op :=
| MPrepare (mission_id step_id agent_id transport : string)
| MAttempt (op : attempt_op)
| MHandoff (attempt_id reply_id state : string) (expected : pyval)
| MAdvance (mission_id attempt_id handoff_id : string)
| MComplete (mission_id : string)
| MGovern (w : gov_world) (op : gov_op).

Section runs.
Context {env : LeaseEnv} {ft : FloatText} {lim : RecursionLimits} {repr : PyRepr}.
Variable semantic_step_hash : pyval -> result string.

Definition run_mission_op (w : mission_world) (doc : dict) (op : mission_op) : result (dict * dict) :=
  match op with
  | MPrepare m s a t => prepare_mission_attempt w doc m s a t
  | MAttempt op => run_attempt_op (ew_store (mw_evidence w)) doc op
  | MHandoff a r st e => record_mission_handoff_evidence (mw_evidence w) doc a r st e
  | MAdvance m a h => advance_mission_after_handoff w semantic_step_hash doc m a h
  | MComplete m => complete_admitted_mission w doc m
  | MGovern gw op => run_gov_op gw doc op
  end.

(** Everything else: it leaves the attempts, the handoffs and the cursors alone,
    but may create Missions that have not begun. *)
Definition elsewhere (doc doc' : dict) : Prop :=
  rows_of "mission_attempts" doc' = rows_of "mission_attempts" doc
  /\ rows_of "mission_handoffs" doc' = rows_of "mission_handoffs" doc
  /\ forall m, cursor_of doc' m = cursor_of doc m \/ cursor_of doc m = None /\ cursor_of doc' m = Some (PInt 0).

Inductive mission_run : dict -> dict -> Prop :=
| run_start doc : mission_run doc doc
| run_elsewhere doc doc1 doc2 : mission_run doc doc1 -> elsewhere doc1 doc2 -> mission_run doc doc2
| run_op w doc doc1 op doc2 record : mission_run doc doc1 -> run_mission_op w doc1 op = Ok (doc2, record) ->
    mission_run doc doc2.

(** ** In order *)

(** An attempt that has not failed; one that did the step. *)
Definition open (a : dict) : Prop := state_is "failed" a = false.
Definition did (a : dict) : Prop := state_in ["completed"; "succeeded"] a = true.
Definition same_step (a b : dict) : Prop := dget "mission_id" a = dget "mission_id" b /\ dget "step_id" a = dget "step_id" b.

(** The handoff is one of a listed attempt, and of its Mission. *)
Definition handoff_known (attempts : list dict) (h : dict) : Prop :=
  exists a, a ∈ attempts /\ dget "attempt_id" h = dget "attempt_id" a /\ dget "mission_id" h = dget "mission_id" a.
Definition handoffs_known (doc : dict) (attempts : list dict) : Prop :=
  exists rows, rows_of "mission_handoffs" doc = PList rows /\ forall h, PDict h ∈ rows -> handoff_known attempts h.

(** The attempt's handoff is recorded. *)
Definition handed_over (doc a : dict) : Prop :=
  exists rows h, rows_of "mission_handoffs" doc = PList rows /\ PDict h ∈ rows /\ dget "attempt_id" h = dget "attempt_id" a
    /\ dget "mission_id" h = dget "mission_id" a /\ state_is "recorded" h = true.

Record in_order (doc : dict) (attempts : list dict) : Prop := {
  io_rows : rows_of "mission_attempts" doc = PList (PDict <$> attempts);
  io_unique : NoDup (field "attempt_id" <$> attempts);
  io_cursor : forall m v, cursor_of doc m = Some v -> exists k : nat, v = PInt (Z.of_nat k);
  io_named : forall a, a ∈ attempts -> (exists m, dget "mission_id" a = PStr m) /\ exists k, dget "step_id" a = step_name (S k);
  io_one : forall i j a b, attempts !! i = Some a -> attempts !! j = Some b -> same_step a b -> open a -> open b -> i = j;
  io_active : forall a m, a ∈ attempts -> dget "mission_id" a = PStr m -> state_in _MISSION_ATTEMPT_ACTIVE_STATES a = true ->
    exists k, cursor_of doc m = Some (PInt (Z.of_nat k)) /\ dget "step_id" a = step_name (S k);
  io_done : forall m k j, cursor_of doc m = Some (PInt (Z.of_nat k)) -> j < k ->
    exists a, a ∈ attempts /\ dget "mission_id" a = PStr m /\ dget "step_id" a = step_name (S j) /\ did a /\ handed_over doc a;
  io_handoffs : handoffs_known doc attempts
}.

Lemma known_same_rows doc doc' attempts : rows_of "mission_handoffs" doc' = rows_of "mission_handoffs" doc ->
  handoffs_known doc attempts -> handoffs_known doc' attempts.
Proof. intros E (rows & Hr & H). exists rows. by rewrite E. Qed.
Lemma handed_same doc doc' a c : rows_of "mission_handoffs" doc' = rows_of "mission_handoffs" doc ->
  dget "attempt_id" c = dget "attempt_id" a -> dget "mission_id" c = dget "mission_id" a -> handed_over doc a -> handed_over doc' c.
Proof. intros E E1 E2 (rows & h & Hr & Hh & H1 & H2 & H3). exists rows, h. rewrite E, E1, E2. by split_and!. Qed.
Lemma known_grows doc attempts attempts' :
  (forall a, a ∈ attempts -> exists c, c ∈ attempts' /\ dget "attempt_id" c = dget "attempt_id" a /\ dget "mission_id" c = dget "mission_id" a) ->
  handoffs_known doc attempts -> handoffs_known doc attempts'.
Proof.
  intros Hc (rows & Hr & H). exists rows. split; [done|]. intros h Hh. destruct (H h Hh) as (a & Ha & E1 & E2).
  destruct (Hc a Ha) as (c & Hin & F1 & F2). exists c. split_and!; congruence.
Qed.

Lemma step_number_pretty n z : step_number ("step_" +:+ pretty n) = Ok z -> z = Z.of_nat n.
Proof.
  unfold step_number. rewrite (proj2 (drop_prefix_spec _ _ (pretty n)) eq_refl). intros ([] & _ & [= <-])%bind_Ok.
  change (pretty n) with (pretty (N.of_nat n)). destruct (pretty_N_digits (N.of_nat n)) as (c & p & -> & _ & -> & _). lia.
Qed.

Lemma step_name_inj n m : step_name n = step_name m -> n = m.
Proof. intros [= H]. by apply (inj pretty) in H. Qed.

(** Attempts are told apart by their identity. *)
Lemma one_identity attempts id (a b : dict) : NoDup (field "attempt_id" <$> attempts) -> a ∈ attempts -> b ∈ attempts ->
  dget "attempt_id" a = PStr id -> dget "attempt_id" b = PStr id -> b = a.
Proof.
  intros Hnd [i Hi]%list_elem_of_lookup [j Hj]%list_elem_of_lookup Ha Hb. assert (i = j) as ->.
  { eapply (NoDup_lookup _ _ _ id Hnd); rewrite list_lookup_fmap; [rewrite Hi|rewrite Hj]; cbn; unfold field; by rewrite ?Ha, ?Hb. }
  rewrite Hi in Hj. by injection Hj.
Qed.

Lemma dict_rows_inj (l k : list dict) : PDict <$> l = PDict <$> k -> k = l.
Proof. revert k. induction l as [|d l IH]; intros [|e k]; try done. cbn. intros [= -> H]. by rewrite (IH k H). Qed.

Lemma active_open a : state_in _MISSION_ATTEMPT_ACTIVE_STATES a = true -> open a.
Proof.
  unfold open, state_in, state_is. cbn [existsb _MISSION_ATTEMPT_ACTIVE_STATES]. destruct (py_eq (dget "state" a) (PStr "failed")) eqn:E; [|done].
  apply py_eq_str in E. by rewrite E.
Qed.
Lemma did_open a : did a -> open a.
Proof.
  unfold did, open, state_in, state_is. cbn [existsb]. destruct (py_eq (dget "state" a) (PStr "failed")) eqn:E; [|done].
  apply py_eq_str in E. by rewrite E.
Qed.
Lemma did_not_active a : did a -> state_in _MISSION_ATTEMPT_ACTIVE_STATES a = false.
Proof.
  unfold did, state_in, state_is. cbn [existsb _MISSION_ATTEMPT_ACTIVE_STATES]. rewrite orb_false_r, orb_true_iff.
  by intros [E%py_eq_str|E%py_eq_str]; rewrite E.
Qed.

Lemma cursor_same_rows doc doc' m : rows_of "missions" doc' = rows_of "missions" doc -> cursor_of doc' m = cursor_of doc m.
Proof. intros E. unfold cursor_of. by rewrite (unique_same_rows _ _ _ E). Qed.

(** *** Other operations *)

Lemma elsewhere_in_order doc doc' attempts : elsewhere doc doc' -> in_order doc attempts -> in_order doc' attempts.
Proof.
  intros (Hr & Hh & Hc) [R U I N O A D K]. split; [by rewrite Hr|done| |done|done| | |by eapply known_same_rows].
  - intros m v Hv. destruct (Hc m) as [E|[_ E]]; rewrite E in Hv; [by eapply I|]. injection Hv as <-. by exists 0.
  - intros a m Ha Hm Hs. destruct (A a m Ha Hm Hs) as (k & Hk & Hn). exists k. split; [|done].
    destruct (Hc m) as [->|[E _]]; [done|congruence].
  - intros m k j Hk Hj. destruct (Hc m) as [E|[_ E]].
    { rewrite E in Hk. destruct (D _ _ _ Hk Hj) as (a & Ha & H1 & H2 & H3 & H4). exists a. split_and!; [done..|by eapply handed_same]. }
    rewrite E in Hk. injection Hk as Hk. lia.
Qed.

(** The confirmation of a Mission is such an operation. *)
Lemma freeze_elsewhere w doc m at_ doc' mission : freeze_mission_execution w doc m at_ = Ok (doc', mission) -> elsewhere doc doc'.
Proof.
  intros [(m0 & plan & s & h & Hm0 & _ & _ & _ & _ & _ & _ & ->) Ha Ho _ Hk]%freeze_froze. split; [apply Hk; set_solver|].
  split; [apply Hk; set_solver|].
  intros id. left. unfold cursor_of. destruct (decide (id = m)) as [->|Hne].
  - rewrite Ha, Hm0. unfold confirmed_mission, dupdate. cbn [foldl fst snd]. by rewrite !dget_dset.
  - pose proof (proj1 (unique_mission_rows _ _ _) Hm0) as (rows & Hr & _). destruct (Ho id rows Hne Hr) as (rows' & Hr' & E).
    unfold _unique_mission_record, iter_rows. rewrite Hr, Hr'. cbn [iter_table py_iter mbind result_bind]. by rewrite E.
Qed.

(** *** Preparation *)

(** The tables that these operations only read. *)
#[local] Notation READ := ["missions"; "mission_handoffs"].

Lemma save_prepared_keeps k w doc m a evidence r doc' : save_prepared w doc m a evidence r = Ok doc' -> k ∈ READ -> rows_of k doc' = rows_of k doc.
Proof.
  unfold save_prepared. intros H Hk. do 3 apply bind_Ok in H as (? & _ & H). apply bind_Ok in H as ([] & _ & H).
  apply bind_Ok in H as (binding & _ & H). apply bind_Ok in H as (doc1 & Hr & H). apply append_row_Ok in Hr as (rows & _ & ->).
  apply append_event_Ok in H as (outbox & _ & ->). rewrite !rows_of_dset.
  by apply elem_of_cons in Hk as [->| ->%list_elem_of_singleton].
Qed.

(** The step that is next has the number after the cursor. *)
Lemma next_step_name snapshot v mission step_id agent_id step worker : validate_execution_snapshot v = Ok snapshot ->
  step_is_next snapshot mission step_id agent_id step worker ->
  exists k, PStr step_id = step_name (S k) /\ dget "current_step" mission = PInt (Z.of_nat k).
Proof.
  intros (_ & m & steps & workers & agents & ids & Hok)%validate_snapshot_Ok [(Hin & Hid & _) (cursor & Hc & Hp) _].
  unfold frozen_steps in Hin. rewrite (so_mission _ _ _ _ _ _ Hok), (so_steps _ _ _ _ _ _ Hok) in Hin.
  apply list_elem_of_lookup in Hin as [i Hi].
  destruct (check_steps_nth _ _ _ _ (so_agents _ _ _ _ _ _ Hok) _ _ Hi) as (d & a & [= <-] & _ & Hid' & Hp' & _).
  rewrite Hid in Hid'. rewrite Hp in Hp'. exists i. split; [exact Hid'|]. rewrite Hc. f_equal. injection Hp' as Hp'. lia.
Qed.

Lemma of_step_elem m s attempts b : b ∈ of_step m s attempts <-> b ∈ attempts /\ dget "mission_id" b = PStr m /\ dget "step_id" b = PStr s.
Proof.
  unfold of_step, of_mission. rewrite list_elem_of_In, !filter_In, <- list_elem_of_In, !is_row_PStr. tauto.
Qed.

Lemma prepare_in_order w doc m s agent t doc' a attempts : prepare_mission_attempt w doc m s agent t = Ok (doc', a) ->
  in_order doc attempts -> in_order doc' (attempts ++ [a]).
Proof.
  intros (p & mission & rows & doc1 & v & Hp & Hv & Ea & Hva & Hn & Hs)%prepare_Ok [R U I N O A D K].
  assert (Hkeep : forall k, k ∈ READ -> rows_of k doc' = rows_of k doc).
  { intros k Hk. by rewrite (save_prepared_keeps k _ _ _ _ _ _ _ Hs), (sv_rows _ _ _ _ Hv). }
  apply save_prepared_Ok in Hs as (rows1 & outbox1 & H1 & H2 & _ & _ & _). rewrite (sv_rows _ _ _ _ Hv), R in H1. injection H1 as <-.
  destruct Hp as [Hm Hf Hstep _ Hr Hat _ Hb _]. rewrite R in Hr. injection Hr as <-.
  assert (pr_attempts p = attempts) as Hpa.
  { pose proof (validate_rows _ _ Hat) as E. by apply dict_rows_inj. }
  rewrite Hpa in Hb, Hat. apply budget_left in Hb as [Hfail _]. rewrite Forall_forall in Hfail.
  pose proof (frozen_authority_Ok _ _ _ _ Hf) as [Hsnap _].
  destruct (next_step_name _ _ _ _ _ _ _ Hsnap Hstep) as (k & Hk & Hcur).
  pose proof (prepared_fields w m s agent t (pr_key p) (pr_snapshot p) (pr_step p)) as (F1 & F2 & _ & _ & _ & _ & F7 & _).
  rewrite <- Ea in F1, F2, F7.
  assert (Hcm : forall id, cursor_of doc' id = cursor_of doc id) by (intros id; apply cursor_same_rows, Hkeep; set_solver).
  assert (Hcur' : cursor_of doc m = Some (PInt (Z.of_nat k))) by (unfold cursor_of; by rewrite Hm, Hcur).
  assert (Hold : forall b, b ∈ attempts -> same_step b a -> ~ open b).
  { intros b Hb [E1 E2] Hopen. assert (b ∈ of_step m s attempts) as Hin by (apply of_step_elem; split_and!; congruence).
    specialize (Hfail b Hin). unfold open in Hopen. congruence. }
  split.
  - by rewrite H2, fmap_app.
  - rewrite fmap_app. rewrite Hpa in Hn. apply NoDup_app. split_and!; [done|by intros x Hx ->%list_elem_of_singleton|apply NoDup_singleton].
  - intros id x. rewrite Hcm. apply I.
  - intros b [Hb| ->%list_elem_of_singleton]%elem_of_app; [by apply N|]. split; [by exists m|]. exists k. by rewrite F2.
  - intros i j b c [Hi|[Hi Hi']]%lookup_app_Some [Hj|[Hj Hj']]%lookup_app_Some Hsame Ho1 Ho2; [by eapply O| | |].
    + apply list_lookup_singleton_Some in Hj' as [_ <-]. destruct (Hold b); [by eapply list_elem_of_lookup_2|done|done].
    + apply list_lookup_singleton_Some in Hi' as [_ <-]. destruct (Hold c); [by eapply list_elem_of_lookup_2|by destruct Hsame|done].
    + apply list_lookup_singleton_Some in Hi' as [? _], Hj' as [? _]. lia.
  - intros b id [Hb| ->%list_elem_of_singleton]%elem_of_app Hid Hact; rewrite Hcm; [by apply A|].
    rewrite F1 in Hid. injection Hid as <-. exists k. split; [done|]. by rewrite F2.
  - intros id k' j Hk' Hj. rewrite Hcm in Hk'. destruct (D _ _ _ Hk' Hj) as (b & Hb & E1 & E2 & E3 & E4). exists b.
    split_and!; [set_solver|done..|]. apply (handed_same doc doc' b); [apply Hkeep; set_solver|done..].
  - apply (known_same_rows doc); [apply Hkeep; set_solver|]. apply (known_grows _ attempts); [|done]. intros b Hb. exists b. set_solver.
Qed.

(** *** The operations on attempts *)

Lemma commit_keeps k w doc id c event doc' : commit_attempt w doc id c event = Ok doc' -> k ∈ READ -> rows_of k doc' = rows_of k doc.
Proof.
  unfold commit_attempt. intros ([rows validated] & _ & H)%bind_Ok Hk. destruct (event_outbox doc); try done.
  apply bind_Ok in H as (h & _ & [= <-]). unfold saved. rewrite !rows_of_dset. by apply elem_of_cons in Hk as [->| ->%list_elem_of_singleton].
Qed.
Lemma save_result_keeps k w doc rows c id key canonical doc' : save_result w doc rows c id key canonical = Ok doc' ->
  k ∈ READ -> rows_of k doc' = rows_of k doc.
Proof.
  unfold save_result. intros (reply & _ & (events & _ & H)%bind_Ok)%bind_Ok Hk.
  assert (k <> "mission_attempts" /\ k <> "mission_worker_replies" /\ k <> "protocol_event_outbox") as (H1 & H2 & H3) by set_solver.
  apply String.eqb_neq in H1, H2, H3. destruct reply as [r|].
  - apply bind_Ok in H as (replies & _ & H). apply bind_Ok in H as (event & _ & H). apply bind_Ok in H as (events' & _ & [= <-]).
    by rewrite !rows_of_dset, ?H1, ?H2, ?H3.
  - injection H as <-. by rewrite !rows_of_dset, ?H1, ?H2, ?H3.
Qed.

(** Follow an operation to the document it saves. *)
Ltac to_saved H :=
  repeat match type of H with
  | (_ ≫= _) = Ok _ => let x := fresh "x" in let E := fresh "E" in apply bind_Ok in H as (x & E & H)
  | (let '(_, _) := ?p in _) = Ok _ => destruct p
  | (if ?b then _ else _) = Ok _ => destruct b
  | match ?x with _ => _ end = Ok _ => destruct x
  | Err _ = Ok _ => discriminate H
  end;
  try (injection H as <- <-);
  first [reflexivity | eapply commit_keeps; eassumption | eapply save_result_keeps; eassumption].

Lemma attempt_op_keeps k w doc op doc' c : run_attempt_op w doc op = Ok (doc', c) -> k ∈ READ -> rows_of k doc' = rows_of k doc.
Proof.
  destruct op; cbn [run_attempt_op]; intros H Hk.
  - unfold claim_mission_attempt_admission, _transition_mission_attempt_admission in H. cbv zeta in H. to_saved H.
  - unfold release_mission_attempt_admission, _transition_mission_attempt_admission in H. cbv zeta in H. to_saved H.
  - unfold interrupt_prepared_mission_attempt in H. cbv zeta in H. to_saved H.
  - unfold record_mission_attempt_submitted, _transition_mission_attempt_receipt in H. cbv zeta in H. to_saved H.
  - unfold mark_mission_attempt_ambiguous, _transition_mission_attempt_receipt in H. cbv zeta in H. to_saved H.
  - unfold mark_mission_attempt_admission_ambiguous, _transition_mission_attempt_receipt in H. cbv zeta in H. to_saved H.
  - unfold mark_acp_mission_attempt_completion_ambiguous, _transition_mission_attempt_receipt in H. cbv zeta in H. to_saved H.
  - unfold record_acp_mission_attempt_completion in H. cbv zeta in H. to_saved H.
  - unfold record_tmux_mission_attempt_completion in H. cbv zeta in H. to_saved H.
  - unfold record_mission_attempt_result in H. cbv zeta in H. apply bind_Ok in H as ([] & _ & H). do 4 apply bind_Ok in H as (? & _ & H).
    apply bind_Ok in H as (events & _ & [= <- <-]). unfold saved. rewrite !rows_of_dset. by apply elem_of_cons in Hk as [->| ->%list_elem_of_singleton].
Qed.

(** Attempts under way change; identities stay. *)
Definition may_change (a c : dict) : Prop := c = a \/ attempt_identity c = attempt_identity a /\ state_in _MISSION_ATTEMPT_ACTIVE_STATES a = true.

Lemma may_change_same a c : may_change a c -> same_step a c /\ (open c -> open a).
Proof.
  intros [->|[Hid Hon]]; [done|]. unfold attempt_identity in Hid. cbn [fmap list_fmap] in Hid. injection Hid as _ Im Is _ _ _ _ _.
  split; [done|]. intros _. by apply active_open.
Qed.

Lemma changed_in_order doc doc' attempts attempts' : in_order doc attempts -> Forall2 may_change attempts attempts' ->
  rows_of "mission_attempts" doc' = PList (PDict <$> attempts') -> (forall id, cursor_of doc' id = cursor_of doc id) ->
  rows_of "mission_handoffs" doc' = rows_of "mission_handoffs" doc -> in_order doc' attempts'.
Proof.
  intros [R U I N O A D K] Hch Hr Hcm Hh.
  assert (Helem : forall c, c ∈ attempts' -> exists a, a ∈ attempts /\ may_change a c).
  { intros c [i Hi]%list_elem_of_lookup. destruct (Forall2_lookup_r _ _ _ _ _ Hch Hi) as (a & Ha & Hm). exists a.
    split; [by eapply list_elem_of_lookup_2|done]. }
  split.
  - done.
  - replace (field "attempt_id" <$> attempts') with (field "attempt_id" <$> attempts); [done|]. clear -Hch.
    induction Hch as [|a c l l' Hc _ IH]; [done|]. rewrite !fmap_cons, IH. f_equal. destruct Hc as [->|[Hid _]]; [done|].
    by destruct (identity_fields _ _ Hid) as [-> _].
  - intros id v. rewrite Hcm. apply I.
  - intros c Hc. destruct (Helem c Hc) as (a & Ha & [[E1 E2] _]%may_change_same). rewrite <- E1, <- E2. by apply N.
  - intros i j c1 c2 Hi Hj [E1 E2] Ho1 Ho2. destruct (Forall2_lookup_r _ _ _ _ _ Hch Hi) as (a1 & Ha1 & [[F1 F2] C1]%may_change_same).
    destruct (Forall2_lookup_r _ _ _ _ _ Hch Hj) as (a2 & Ha2 & [[G1 G2] C2]%may_change_same).
    apply (O i j a1 a2 Ha1 Ha2); [split; congruence|by apply C1|by apply C2].
  - intros c m Hc Hm Hs. rewrite Hcm. destruct (Helem c Hc) as (a & Ha & Hch'). pose proof (may_change_same _ _ Hch') as [[E1 E2] _].
    rewrite <- E2. apply A; [done|congruence|]. by destruct Hch' as [->|[_ Hon]].
  - intros m k j Hk Hj. rewrite Hcm in Hk. destruct (D _ _ _ Hk Hj) as (a & Ha & H1 & H2 & H3 & H4).
    apply list_elem_of_lookup in Ha as [i Hi]. destruct (Forall2_lookup_l _ _ _ _ _ Hch Hi) as (c & Hc & [->|[_ Hon]]).
    + exists a. split_and!; [by eapply list_elem_of_lookup_2|done..|by eapply handed_same].
    + by rewrite (did_not_active _ H3) in Hon.
  - apply (known_same_rows _ _ _ Hh). apply (known_grows _ attempts); [|done]. intros a [i Hi]%list_elem_of_lookup.
    destruct (Forall2_lookup_l _ _ _ _ _ Hch Hi) as (c & Hc & Hac). exists c. split; [by eapply list_elem_of_lookup_2|].
    destruct Hac as [->|[Hid _]]; [done|]. unfold attempt_identity in Hid. cbn [fmap list_fmap] in Hid. by injection Hid.
Qed.

Lemma attempt_op_changes w doc attempts op doc' c : rows_of "mission_attempts" doc = PList (PDict <$> attempts) ->
  run_attempt_op w doc op = Ok (doc', c) ->
  doc' = doc \/ exists attempts', Forall2 may_change attempts attempts' /\ rows_of "mission_attempts" doc' = PList (PDict <$> attempts').
Proof.
  intros Hr H.
  assert (Hone : forall pre (a : dict) post, attempt_identity c = attempt_identity a -> state_in _MISSION_ATTEMPT_ACTIVE_STATES a = true ->
            Forall2 may_change (pre ++ a :: post) (pre ++ c :: post)).
  { intros pre a post Hid Hon. assert (forall l, Forall2 may_change l l) as Hrefl by (intros l; apply Forall_Forall2_diag, Forall_true; by left).
    apply Forall2_app; [done|]. constructor; [by right|done]. }
  assert (Hrows : forall d l r, coherent (sw_journal w) d l r -> rows_of "mission_attempts" d = PList (PDict <$> l)).
  { intros d l r ((rows & Hl) & _). apply load_attempts_Ok in Hl as (Ht & -> & _). exact Ht. }
  assert (Hrep : forall pre a post r r', replaced w doc doc' a c r r' pre post ->
            exists attempts', Forall2 may_change attempts attempts' /\ rows_of "mission_attempts" doc' = PList (PDict <$> attempts')).
  { intros pre a post r r' [Hb Ha Hid Hon]. assert (attempts = pre ++ a :: post) as ->.
    { apply dict_rows_inj. pose proof (Hrows _ _ _ Hb) as E. rewrite Hr in E. by injection E. }
    exists (pre ++ c :: post). split; [by apply Hone|by eapply Hrows]. }
  assert (Hcases : (forall id key succeeded summary, op <> OpResult id key succeeded summary) ->
            doc' = doc \/ (exists id e, steps_by w doc doc' c id e) \/ exists id, settles w doc doc' c id).
  { intros Hne. destruct op; cbn [run_attempt_op] in H; try (by destruct (Hne id key succeeded summary)).
    - right; left. apply claim_steps in H as [H _]. eauto.
    - right; left. apply release_steps in H as (cl & _ & H & _). eauto.
    - right; left. apply interrupt_steps in H as [H _]. eauto.
    - apply receipt_steps in H as [H|(cl & _ & H & _)]; eauto.
    - apply bind_Ok in H as ([] & _ & [H|(cl & _ & H & _)]%receipt_steps); eauto.
    - apply bind_Ok in H as ([] & _ & [H|(cl & _ & H & _)]%receipt_steps); eauto.
    - apply bind_Ok in H as (r & _ & [H|(cl & _ & H & _)]%receipt_steps); eauto.
    - apply acp_completion_settles in H as [H|H]; eauto.
    - apply tmux_completion_settles in H as [H|H]; eauto. }
  destruct op as [| | | | | | | | |id key succeeded summary];
    try (destruct Hcases as [->|[(i & e & Hs)|(i & Hs)]]; [intros ????; discriminate|by left|..];
         right; destruct Hs as (pre & a & post & r & r' & Hs & _); by eapply Hrep).
  right. cbn [run_attempt_op] in H. unfold record_mission_attempt_result in H. apply bind_Ok in H as ([] & _ & H).
  apply bind_Ok in H as (rows & Ht & H). change (attempts_table doc) with (rows_of "mission_attempts" doc) in Ht. rewrite Hr in Ht. injection Ht as <-.
  apply bind_Ok in H as (l & Hv & H). assert (l = attempts) as -> by (pose proof (validate_rows _ _ Hv); by apply dict_rows_inj).
  apply bind_Ok in H as (a & Ha & H). apply bind_Ok in H as (c' & Hc & H). apply bind_Ok in H as (events & _ & [= <- ->]).
  destruct (attempts_with id attempts) as [|x [|]] eqn:Ex; try done. destruct (_ && _) eqn:E in Ha; [|done]. injection Ha as ->.
  apply andb_true_iff in E as [_ Hst]. apply attempts_with_one in Ex as (pre & post & -> & Hai & Hothers).
  apply with_result_fields in Hc as (_ & Hid & _). exists (pre ++ c :: post). split.
  - apply Hone; [done|]. unfold state_in in *. cbn [existsb _MISSION_ATTEMPT_ACTIVE_STATES] in *. destruct (state_is "prepared" a), (state_is "admitting" a), (state_is "submitted" a), (state_is "running" a); done.
  - rewrite (replace_row_here _ _ _ _ _ Hai Hothers). unfold saved. by rewrite !rows_of_dset.
Qed.

Lemma attempt_in_order w doc attempts op doc' c : run_attempt_op w doc op = Ok (doc', c) -> in_order doc attempts ->
  exists attempts', in_order doc' attempts'.
Proof.
  intros H Hin. destruct (attempt_op_changes _ _ _ _ _ _ (io_rows _ _ Hin) H) as [->|(attempts' & Hch & Hr)]; [by exists attempts|].
  exists attempts'. eapply changed_in_order; [done..| |].
  - intros id. eapply cursor_same_rows, attempt_op_keeps; [exact H|set_solver].
  - eapply attempt_op_keeps; [exact H|set_solver].
Qed.

(** *** The cursor *)

Lemma put_cursor m mission mission' doc : _unique_mission_record doc m = Ok mission -> dget "mission_id" mission' = PStr m ->
  forall id, cursor_of (put_mission m mission' doc) id = if decide (id = m) then Some (dget "current_step" mission') else cursor_of doc id.
Proof.
  intros Hm Hid id. destruct (put_mission_unique _ _ _ _ Hm Hid) as [Hnew Hother]. unfold cursor_of. case_decide as E.
  - by rewrite E, Hnew.
  - pose proof (proj1 (unique_mission_rows _ _ _) Hm) as (rows & Hr & _). destruct (Hother id rows E Hr) as (rows' & Hr' & Heq).
    unfold _unique_mission_record, iter_rows. rewrite Hr, Hr'. cbn [iter_table py_iter mbind result_bind]. by rewrite Heq.
Qed.

Lemma ev_audit_rows w ty p doc doc' k : ev_audit w ty p doc = Ok doc' -> k <> "protocol_event_outbox" -> rows_of k doc' = rows_of k doc.
Proof. unfold ev_audit. intros (events & _ & [= <-])%bind_Ok Hne. rewrite rows_of_dset. by destruct (String.eqb_spec k "protocol_event_outbox"). Qed.

(** The Mission's row replaced and an event audited. *)
Lemma replaced_mission w ty p m mission mission' doc doc' : _unique_mission_record doc m = Ok mission ->
  ev_audit w ty p (put_mission m mission' doc) = Ok doc' -> dget "mission_id" mission' = dget "mission_id" mission ->
  rows_of "mission_attempts" doc' = rows_of "mission_attempts" doc
  /\ rows_of "mission_handoffs" doc' = rows_of "mission_handoffs" doc
  /\ forall id, cursor_of doc' id = if decide (id = m) then Some (dget "current_step" mission') else cursor_of doc id.
Proof.
  intros Hm Ha Hid. pose proof (proj1 (unique_mission_rows _ _ _) Hm) as (rows & Hr & E). apply rows_with_one in E as [_ E]. rewrite E in Hid.
  do 2 (split; [by rewrite (ev_audit_rows _ _ _ _ _ _ Ha), put_mission_rows by done|]).
  intros id. rewrite <- (put_cursor _ _ _ _ Hm Hid). by apply cursor_same_rows, (ev_audit_rows _ _ _ _ _ _ Ha).
Qed.

(** A change of a Mission that leaves its cursor is a change elsewhere. *)
Lemma kept_cursor w ty p m mission mission' doc doc' : _unique_mission_record doc m = Ok mission ->
  ev_audit w ty p (put_mission m mission' doc) = Ok doc' -> dget "mission_id" mission' = dget "mission_id" mission ->
  dget "current_step" mission' = dget "current_step" mission -> elsewhere doc doc'.
Proof.
  intros Hm Ha Hid Hc. destruct (replaced_mission _ _ _ _ _ _ _ _ Hm Ha Hid) as (Hr & Hh & Hcur). split; [done|]. split; [done|]. intros id. left.
  rewrite Hcur. case_decide as E; [|done]. unfold cursor_of. by rewrite E, Hm, Hc.
Qed.

Lemma complete_Ok w doc m doc' mission : complete_admitted_mission w doc m = Ok (doc', mission) ->
  exists mission0, _unique_mission_record doc m = Ok mission0 /\ mission = completed_mission w mission0
    /\ py_eq (dget "current_step" mission0) (dget "step_count" mission0) = true.
Proof.
  unfold complete_admitted_mission. intros (mission0 & Hm & H)%bind_Ok. apply bind_Ok in H as (adm & _ & H).
  apply bind_Ok in H as ([] & Hg & H). apply bind_Ok in H as (doc1 & Ha & [= <- <-]). exists mission0. split_and!; [done..|].
  apply raise_if_Ok, orb_false_iff in Hg as [_ Hg]. by apply negb_false_iff.
Qed.
Lemma complete_elsewhere w doc m doc' mission : complete_admitted_mission w doc m = Ok (doc', mission) -> elsewhere doc doc'.
Proof.
  unfold complete_admitted_mission. intros (mission0 & Hm & H)%bind_Ok. apply bind_Ok in H as (adm & _ & H).
  apply bind_Ok in H as ([] & _ & H). apply bind_Ok in H as (doc1 & Ha & [= <- <-]).
  eapply kept_cursor; [done|done|..]; unfold completed_mission, dupdate; cbn [foldl fst snd]; by rewrite !dget_dset.
Qed.

(** A handoff record keeps all but its contents. *)
Lemma handoff_record_fields v h : validate_mission_handoff_evidence_record v = Ok h ->
  exists d, v = PDict d /\ forall k, k <> "canonical_handoff" -> dget k h = dget k d.
Proof.
  unfold validate_mission_handoff_evidence_record. destruct v as [| | | | | | |d]; try done.
  intros (? & _ & (? & _ & (? & _ & H)%bind_Ok)%bind_Ok)%bind_Ok. destruct (validate_canonical_handoff _ _); [|done]. injection H as <-.
  exists d. split; [done|]. intros k Hk%String.eqb_neq. by rewrite dget_dset, Hk.
Qed.

(** A recorded handoff that the advance finds is one of a listed attempt. *)
Lemma recorded_known doc attempts m aid hid handoffs h : recorded_handoffs doc m aid hid = Ok handoffs -> h ∈ handoffs ->
  handoffs_known doc attempts -> exists a, a ∈ attempts /\ dget "attempt_id" a = PStr aid /\ dget "mission_id" a = PStr m /\ handed_over doc a.
Proof.
  unfold recorded_handoffs, iter_rows. intros H Hin (rows & Hr & Hk). rewrite Hr in H. cbn [iter_table py_iter mbind result_bind] in H.
  apply bind_Ok in H as (l & Hl & [= <-]). apply list_elem_of_In, filter_In in Hin as [Hin Hf]. apply list_elem_of_In in Hin.
  repeat (apply andb_true_iff in Hf as [Hf ?Hx]). apply is_row_PStr in Hf, Hx0.
  apply mapR_Ok in Hl. apply list_elem_of_lookup in Hin as [i Hi]. destruct (Forall2_lookup_r _ _ _ _ _ Hl Hi) as (v & Hv & Hval).
  destruct (handoff_record_fields _ _ Hval) as (d & -> & Hd). apply list_elem_of_lookup_2 in Hv. destruct (Hk d Hv) as (a & Ha & E1 & E2).
  exists a. rewrite <- E1, <- E2, <- !Hd by done. split_and!; [done..|]. exists rows, d. split_and!; [done..|]. unfold state_is in *. by rewrite <- Hd.
Qed.

(** The cursor moves past a step that an attempt of the Mission did, or the
    Mission stops. *)
Lemma advance_cases w doc m aid hid doc' mission' attempts : advance_mission_after_handoff w semantic_step_hash doc m aid hid = Ok (doc', mission') ->
  in_order doc attempts ->
  elsewhere doc doc' \/ exists a z step, a ∈ attempts /\ handed_over doc a /\ dget "mission_id" a = PStr m /\ dget "attempt_id" a = PStr aid /\ did a /\ dget "step_id" a = PStr step
    /\ step_number step = Ok (z + 1)%Z /\ rows_of "mission_attempts" doc' = rows_of "mission_attempts" doc
    /\ rows_of "mission_handoffs" doc' = rows_of "mission_handoffs" doc
    /\ (exists mission, _unique_mission_record doc m = Ok mission /\ cursor_number mission = Ok z)
    /\ forall id, cursor_of doc' id = if decide (id = m) then Some (PInt (z + 1)) else cursor_of doc id.
Proof.
  intros H Hin. pose proof (io_rows _ _ Hin) as Hr. unfold advance_mission_after_handoff in H. apply bind_Ok in H as (mission & Hm & H).
  apply bind_Ok in H as (matches & Hmatch & H).
  apply bind_Ok in H as (attempts' & Hat & H). unfold validated_attempts, iter_rows in Hat. rewrite Hr in Hat. cbn [iter_table py_iter mbind result_bind] in Hat.
  assert (attempts' = attempts) as -> by (pose proof (validate_rows _ _ Hat); by apply dict_rows_inj).
  destruct matches as [|handoff [|]]; try done. destruct (find_first _ attempts) as [a|] eqn:Ef; [|done].
  apply find_first_Some in Ef as [Ha Haid%is_row_PStr].
  assert (Ham : dget "mission_id" a = PStr m /\ handed_over doc a).
  { destruct (recorded_known _ _ _ _ _ _ handoff Hmatch ltac:(by left) (io_handoffs _ _ Hin)) as (b & Hb & Hbid & Hbm & Hbh).
    by rewrite <- (one_identity _ _ a b (io_unique _ _ Hin) Ha Hb Haid Hbid). }
  destruct Ham as [Ham Hah]. apply bind_Ok in H as ([] & Hdid%raise_if_Ok%negb_false_iff & H).
  apply bind_Ok in H as (z & Hz & H). apply bind_Ok in H as (position & Hpos & H). apply bind_Ok in H as ([] & Heq & H).
  apply raise_if_Ok, negb_false_iff, Z.eqb_eq in Heq. apply bind_Ok in H as (blocker & _ & H). destruct blocker as [blocker|].
  - left. apply bind_Ok in H as (doc1 & Hd & [= <- <-]).
    eapply kept_cursor; [done|done|..]; unfold stopped_mission, dupdate; cbn [foldl fst snd]; by rewrite !dget_dset.
  - right. apply bind_Ok in H as (doc1 & Hd & [= <- <-]).
    destruct (replaced_mission _ _ _ _ _ _ _ _ Hm Hd) as (Hr' & Hh' & Hcur).
    { unfold advanced_mission, dupdate. cbn [foldl fst snd]. by rewrite !dget_dset. }
    assert (Hstep : exists s, dget "step_id" a = PStr s).
    { apply mapR_Ok in Hat. apply list_elem_of_lookup in Ha as [i Hi]. destruct (Forall2_lookup_r _ _ _ _ _ Hat Hi) as (v & _ & Hv).
      by apply valid_attempt_texts in Hv as (_ & ? & _). }
    destruct Hstep as [s Hs]. exists a, z, s. unfold field in Hpos. rewrite Hs in Hpos. cbn [text_of] in Hpos. rewrite <- Heq in Hpos.
    split_and!; try done; [by exists mission|]. intros id. rewrite Hcur. case_decide; [|done].
    unfold advanced_mission, dupdate. cbn [foldl fst snd]. by rewrite !dget_dset.
Qed.

Lemma advance_in_order w doc m aid hid doc' mission' attempts :
  advance_mission_after_handoff w semantic_step_hash doc m aid hid = Ok (doc', mission') -> in_order doc attempts -> in_order doc' attempts.
Proof.
  intros H Hin. pose proof (io_rows _ _ Hin) as Hr. destruct (advance_cases _ _ _ _ _ _ _ _ H Hin) as [He|Hcase]; [by eapply elsewhere_in_order|].
  destruct Hcase as (a & z & s & Ha & Hhand & Hown & Haid & Hdid & Hs & Hnum & Hr' & Hh' & (mission & Hm & Hz) & Hcur).
  destruct Hin as [_ U I N O A D K].
  destruct (N a Ha) as (_ & k & Hk). rewrite Hs in Hk. injection Hk as ->. apply step_number_pretty in Hnum.
  assert (z = Z.of_nat k) as -> by lia.
  assert (Hname : dget "step_id" a = step_name (S k)) by exact Hs.
  assert (Hnow : cursor_of doc m = Some (PInt (Z.of_nat k))).
  { destruct (I m (dget "current_step" mission)) as [n Hn]; [unfold cursor_of; by rewrite Hm|].
    unfold cursor_of. rewrite Hm, Hn. unfold cursor_number in Hz. unfold dget in Hn. destruct (dlookup "current_step" mission) as [v|]; [|done].
    cbn in Hn. subst v. cbn in Hz. injection Hz as Hz. do 2 f_equal. done. }
  assert (Hidle : forall b, b ∈ attempts -> dget "mission_id" b = PStr m -> state_in _MISSION_ATTEMPT_ACTIVE_STATES b = true -> False).
  { intros b Hb Hbm Hact. destruct (A b m Hb Hbm Hact) as (k' & Hk' & Hbn). rewrite Hnow in Hk'. injection Hk' as Hk'%Nat2Z.inj. subst k'.
    apply list_elem_of_lookup in Ha as [i Hi]. apply list_elem_of_lookup in Hb as [j Hj].
    assert (i = j) as -> by (apply (O i j a b Hi Hj); [split; congruence|by apply did_open|by apply active_open]).
    rewrite Hi in Hj. injection Hj as ->. by rewrite (did_not_active _ Hdid) in Hact. }
  split; [by rewrite Hr'|done| |done|done| | |by eapply known_same_rows].
  - intros id v. rewrite Hcur. case_decide; [|apply I]. intros [= <-]. exists (S k). f_equal. lia.
  - intros b id Hb Hid Hact. rewrite Hcur. case_decide as E; [|by apply A]. subst id. exfalso. by eapply Hidle.
  - intros id n j Hn Hj. rewrite Hcur in Hn. case_decide as E.
    2:{ destruct (D _ _ _ Hn Hj) as (b & Hb & H1 & H2 & H3 & H4). exists b. split_and!; [done..|by eapply handed_same]. }
    subst id. injection Hn as Hn.
    assert (n = S k) as -> by lia. assert (Hkeep : forall b, handed_over doc b -> handed_over doc' b) by (intros b; by apply handed_same).
    destruct (decide (j = k)) as [->|Hne]; [exists a; by split_and!; [..|apply Hkeep]|].
    destruct (D m k j Hnow) as (b & Hb & H1 & H2 & H3 & H4); [lia|]. exists b. by split_and!; [..|apply Hkeep].
Qed.

(** *** The evidence of a handoff *)

Lemma replace_first_elem p new rows h : PDict h ∈ replace_first p new rows -> PDict h ∈ rows \/ h = new.
Proof.
  induction rows as [|v rows IH]; [by intros ?%elem_of_nil|]. destruct v as [| | | | | | |d]; cbn [replace_first]; try case_match;
    rewrite !elem_of_cons; naive_solver.
Qed.

Lemma replace_first_other p new rows h : PDict h ∈ rows -> p h = false -> PDict h ∈ replace_first p new rows.
Proof.
  intros Hin Hp. induction rows as [|v rows IH]; [done|]. apply elem_of_cons in Hin as [<-|Hin]; cbn [replace_first].
  - rewrite Hp. left.
  - destruct v as [| | | | | | |d]; try case_match; right; by try apply IH.
Qed.

(** The validated reply that the evidence is for is one of an attempt. *)
Lemma reply_attempt attempts doc aid rid replies reply : in_order doc attempts ->
  Forall (fun r => exists a, a ∈ attempts /\ py_eq (dget "attempt_id" a) (dget "attempt_id" r) = true /\ same_field "mission_id" a r = true) replies ->
  forall e, match List.filter (fun r => is_row "attempt_id" aid r && is_row "reply_id" rid r) replies with
  | [r] => _ ← raise_if (negb (state_is "validated" r)) e; Ok r
  | _ => Err e
  end = Ok reply ->
  exists a, a ∈ attempts /\ PStr aid = dget "attempt_id" a /\ dget "mission_id" reply = dget "mission_id" a.
Proof.
  intros Hin Hrep e H. destruct (List.filter _ replies) as [|r [|]] eqn:Ef; try done. apply bind_Ok in H as ([] & _ & [= <-]).
  assert (r ∈ List.filter (fun r => is_row "attempt_id" aid r && is_row "reply_id" rid r) replies) as Hr by (rewrite Ef; left).
  apply list_elem_of_In, filter_In in Hr as [Hr [Haid%is_row_PStr _]%andb_true_iff]. apply list_elem_of_In in Hr.
  rewrite Forall_forall in Hrep. destruct (Hrep r Hr) as (a & Ha & E1 & E2). exists a. split; [done|].
  rewrite Haid in E1. apply py_eq_str in E1. destruct (io_named _ _ Hin a Ha) as ((m & Hm) & _). unfold same_field in E2.
  rewrite Hm in E2. apply py_eq_str_l in E2. by rewrite Hm.
Qed.

(** The record of a handoff is of the attempt that its reply is of, and names
    its Mission. *)
Lemma handoff_in_order w doc a rid st e doc' r attempts : record_mission_handoff_evidence w doc a rid st e = Ok (doc', r) ->
  in_order doc attempts -> in_order doc' attempts.
Proof.
  intros H Hin. unfold record_mission_handoff_evidence in H. apply bind_Ok in H as ([] & _ & H). apply bind_Ok in H as ([d t] & Hs & H).
  destruct (snapshot_locked_Ok _ _ _ _ Hs) as (v & Hview). pose proof (recovery_view_Ok _ _ _ _ Hview) as Hv. pose proof (sv_rows _ _ _ _ Hv) as Hd.
  assert (Hatts : vw_attempts v = attempts).
  { destruct (sv_attempts _ _ _ _ Hv) as (rows & Hr & Hval & _). rewrite (io_rows _ _ Hin) in Hr. injection Hr as <-.
    apply validate_rows in Hval. by apply dict_rows_inj. }
  destruct (view_replies _ _ _ _ Hview) as (rows0 & Hr0 & Hrv & Hrep). rewrite Hatts in Hrep.
  apply bind_Ok in H as (reply_rows & Hrr & H). unfold iter_rows in Hrr. rewrite Hd, Hr0 in Hrr. injection Hrr as <-. rewrite Hrv in H.
  cbn [mbind result_bind] in H. apply bind_Ok in H as (reply & Hre & H).
  apply bind_Ok in H as (rows & Hrows & H). apply bind_Ok in H as (handoffs & Hhs & H). apply bind_Ok in H as ([candidate rows'] & Hc & H).
  apply bind_Ok in H as (hash & _ & H). apply bind_Ok in H as (d' & Ha & [= <- <-]).
  assert (Hout : forall k, k <> "protocol_event_outbox" -> rows_of k d' = if String.eqb k "mission_handoffs" then PList rows' else rows_of k doc).
  { intros k Hk. rewrite (ev_audit_rows _ _ _ _ _ k Ha Hk), rows_of_dset. by rewrite Hd. }
  clear Ha. pose proof (io_handoffs _ _ Hin) as (rows1 & Hr1 & Hknown).
  unfold iter_rows in Hrows. rewrite Hd, Hr1 in Hrows. injection Hrows as <-.
  assert (Hnew : handoff_known attempts candidate /\ (forall h, PDict h ∈ rows' -> PDict h ∈ rows1 \/ h = candidate)
    /\ forall h, PDict h ∈ rows1 -> state_is "recorded" h = true -> PDict h ∈ rows').
  { destruct (attempts_with (PStr a) handoffs) as [|prior [|]] eqn:Ep; [| |done].
    - apply bind_Ok in Hc as ([] & _ & Hc). apply bind_Ok in Hc as (c & Hval & [= <- <-]). split.
      + destruct (handoff_record_fields _ _ Hval) as (x & [= <-] & Hx). destruct (reply_attempt _ _ _ _ _ _ Hin Hrep _ Hre) as (b & Hb & E1 & E2).
        exists b. rewrite !Hx by done. cbn. by split_and!.
      + split; [|intros h Hh _; by apply elem_of_app; left]. intros h [Hh|Hh%list_elem_of_singleton]%elem_of_app; [by left|]. right. congruence.
    - apply bind_Ok in Hc as ([] & Hpend & Hc). apply bind_Ok in Hc as (c & Hval & Hc). apply bind_Ok in Hc as ([] & _ & [= <- <-]). split.
      + destruct (handoff_record_fields _ _ Hval) as (x & [= <-] & Hx).
        assert (prior ∈ handoffs) as Hp. { assert (prior ∈ attempts_with (PStr a) handoffs) as Hp by (rewrite Ep; left).
          apply list_elem_of_In, filter_In in Hp as [Hp _]. by apply list_elem_of_In. }
        apply mapR_Ok in Hhs. apply list_elem_of_lookup in Hp as [i Hi]. destruct (Forall2_lookup_r _ _ _ _ _ Hhs Hi) as (y & Hy & Hyv).
        destruct (handoff_record_fields _ _ Hyv) as (z & -> & Hz). apply list_elem_of_lookup_2 in Hy. destruct (Hknown z Hy) as (b & Hb & E1 & E2).
        exists b. rewrite !Hx, !dget_dset by done. cbn [String.eqb Ascii.eqb Bool.eqb]. rewrite !Hz by done. by split_and!.
      + split; [intros h; apply replace_first_elem|]. intros h Hh Hst. apply replace_first_other; [done|].
        destruct (is_row "attempt_id" a h) eqn:Eh; [|done]. exfalso. apply mapR_Ok in Hhs.
        apply list_elem_of_lookup in Hh as [i Hi]. destruct (Forall2_lookup_l _ _ _ _ _ Hhs Hi) as (y & Hy & Hyv).
        destruct (handoff_record_fields _ _ Hyv) as (z & [= <-] & Hz).
        assert (y ∈ attempts_with (PStr a) handoffs) as Hin'.
        { apply list_elem_of_In, filter_In. split; [by apply list_elem_of_In; eapply list_elem_of_lookup_2|]. rewrite Hz by done. exact Eh. }
        rewrite Ep in Hin'. apply list_elem_of_singleton in Hin' as ->. apply raise_if_Ok in Hpend.
        apply orb_false_iff in Hpend as [[_ Hpend]%orb_false_iff _]. apply negb_false_iff in Hpend. unfold state_is in Hpend, Hst.
        rewrite Hz in Hpend by done. apply py_eq_str in Hpend, Hst. by rewrite Hpend in Hst. }
  destruct Hnew as (Hcand & Hold & Hrec). destruct Hin as [R U I N O A D _]. split; [by rewrite Hout|done| |done|done| | |].
  - intros m x. rewrite (cursor_same_rows doc); [apply I|by rewrite Hout].
  - intros b m Hb Hbm Hact. rewrite (cursor_same_rows doc); [by apply A|by rewrite Hout].
  - intros m k j Hk Hj. rewrite (cursor_same_rows doc d') in Hk by by rewrite Hout.
    destruct (D m k j Hk Hj) as (b & Hb & H1 & H2 & H3 & (rows2 & h & Hr2 & Hh & H4)). exists b. split_and!; [done..|].
    rewrite Hr1 in Hr2. injection Hr2 as <-. destruct H4 as (E1 & E2 & E3). exists rows', h. rewrite Hout by done. split_and!; [done|by apply Hrec|done..].
  - exists rows'. split; [by rewrite Hout|]. intros h Hh. destruct (Hold h Hh) as [Hh'| ->]; [by apply Hknown|done].
Qed.

(** *** Governed operations *)

Lemma baselines_keep k w action agent g at_ facts rc baselines active doc doc' :
  with_baselines w action agent g at_ facts rc baselines active doc = Ok doc' ->
  k <> "worker_takeover_baselines" -> k <> "worker_reconciliation_decisions" -> AgentProtocol.rows_of k doc' = AgentProtocol.rows_of k doc.
Proof.
  unfold with_baselines. intros H H1 H2.
  destruct (String.eqb action "takeover"); [by apply (rows_append_row k) in H|].
  apply bind_Ok in H as (ds & _ & [= <-]). rewrite !rows_of_dset.
  by destruct (String.eqb_spec k "worker_takeover_baselines"), (String.eqb_spec k "worker_reconciliation_decisions").
Qed.

(** A table after the writes of a governed operation to other tables. *)
Ltac row_steps k :=
  repeat match goal with
  | H : audit _ _ _ _ _ = Ok ?d |- context [AgentProtocol.rows_of k ?d] => rewrite (rows_audit _ _ _ _ _ _ k H) by done
  | H : append_row _ _ _ = Ok ?d |- context [AgentProtocol.rows_of k ?d] => rewrite (rows_append_row k _ _ _ _ H) by done
  | H : append_rows _ _ _ = Ok ?d |- context [AgentProtocol.rows_of k ?d] => rewrite (rows_append_rows k _ _ _ _ H) by done
  | H : _validate_protocol_identities _ = Ok ?d |- context [AgentProtocol.rows_of k ?d] => rewrite (identities_rows _ _ k H)
  | H : _conversation_collections _ = Ok ?d |- context [AgentProtocol.rows_of k ?d] => rewrite (collections_rows _ _ k H)
  | H : with_baselines _ _ _ _ _ _ _ _ _ _ = Ok ?d |- context [AgentProtocol.rows_of k ?d] => rewrite (baselines_keep k _ _ _ _ _ _ _ _ _ _ _ H) by done
  | H : force_attempts _ _ _ _ _ _ = Ok (_, ?d, _) |- context [AgentProtocol.rows_of k ?d] =>
      rewrite (rows_force_attempts _ k _ _ _ ltac:(done) _ _ _ _ _ H)
  | _ => rewrite with_consumed_rows | _ => rewrite rows_of_dset | _ => rewrite rows_ensure_all | _ => rewrite rows_of_ensure
  | _ => progress cbn [String.eqb Ascii.eqb Bool.eqb fst snd]
  end.
(** The calls of an operation that succeeded. *)
Ltac op_steps H :=
  repeat match type of H with
  | (_ ≫= _) = Ok _ => let x := fresh "x" in let E := fresh "E" in apply bind_Ok in H as (x & E & H)
  | (let '(_, _) := ?p in _) = Ok _ => destruct p
  | (let (_, _) := ?p in _) = Ok _ => destruct p
  | match ?x with _ => _ end = Ok _ => let E := fresh "E" in destruct x eqn:E
  | Err _ = Ok _ => discriminate H
  end;
  try (injection H as <-); cbn [fst snd].

Definition moves_missions (op : gov_op) : bool :=
  match op with OpPause _ _ _ _ _ | OpMission _ _ _ _ _ _ _ | OpForceStop _ _ _ _ => true | _ => false end.
Definition stops_attempts (op : gov_op) : bool := match op with OpForceStop _ _ _ _ => true | _ => false end.

Lemma gov_op_keeps k w doc op r : run_gov_op w doc op = Ok r -> k ∈ ["missions"; "mission_attempts"] ->
  (k = "missions" -> moves_missions op = false) -> (k = "mission_attempts" -> stops_attempts op = false) ->
  AgentProtocol.rows_of k r.1 = AgentProtocol.rows_of k doc.
Proof.
  intros H Hk Hm Ha.
  assert (Hk' : k = "missions" /\ moves_missions op = false \/ k = "mission_attempts" /\ stops_attempts op = false).
  { apply elem_of_cons in Hk as [->|[->|?%elem_of_nil]%elem_of_cons]; [left|right|done]; auto. }
  clear Hk Hm Ha. destruct op; cbn [run_gov_op moves_missions stops_attempts] in *.
  - destruct Hk' as [[-> _]|[-> _]]; unfold record_governance_preview in H; op_steps H; [row_steps "missions"|row_steps "mission_attempts"]; reflexivity.
  - destruct Hk' as [[-> _]|[-> _]]; unfold spend_governance_preview in H; op_steps H; [row_steps "missions"|row_steps "mission_attempts"]; reflexivity.
  - destruct Hk' as [[_ ?]|[-> _]]; [done|]. unfold pause_mission_with_governance_preview, with_mission in H. op_steps H.
    row_steps "mission_attempts". reflexivity.
  - destruct Hk' as [[_ ?]|[-> _]]; [done|]. unfold transition_mission_with_governance_preview, with_mission in H. op_steps H; row_steps "mission_attempts"; reflexivity.
  - by destruct Hk' as [[_ ?]|[_ ?]].
  - destruct Hk' as [[-> _]|[-> _]]; unfold record_transport_reroute_with_governance_preview in H; op_steps H;
      [row_steps "missions"|row_steps "mission_attempts"]; reflexivity.
  - destruct Hk' as [[-> _]|[-> _]]; unfold decide_permission_with_governance_preview in H; op_steps H;
      [row_steps "missions"|row_steps "mission_attempts"]; reflexivity.
  - destruct Hk' as [[-> _]|[-> _]]; unfold change_worker_ownership_with_governance_preview in H; op_steps H;
      [row_steps "missions"|row_steps "mission_attempts"]; reflexivity.
  - destruct Hk' as [[-> _]|[-> _]]; unfold record_worker_reconciliation_ambiguity in H; op_steps H;
      [row_steps "missions"|row_steps "mission_attempts"..]; reflexivity.
Qed.

Lemma gov_op_handoffs w doc op r : run_gov_op w doc op = Ok r ->
  AgentProtocol.rows_of "mission_handoffs" r.1 = AgentProtocol.rows_of "mission_handoffs" doc.
Proof.
  destruct op; cbn [run_gov_op]; intros H.
  - unfold record_governance_preview in H. op_steps H. row_steps "mission_handoffs". reflexivity.
  - unfold spend_governance_preview in H. op_steps H. row_steps "mission_handoffs". reflexivity.
  - unfold pause_mission_with_governance_preview, with_mission in H. op_steps H. row_steps "mission_handoffs". reflexivity.
  - unfold transition_mission_with_governance_preview, with_mission in H. op_steps H; row_steps "mission_handoffs"; reflexivity.
  - unfold force_stop_with_governance_preview in H. op_steps H. row_steps "mission_handoffs". reflexivity.
  - unfold record_transport_reroute_with_governance_preview in H. op_steps H; row_steps "mission_handoffs"; reflexivity.
  - unfold decide_permission_with_governance_preview in H. op_steps H; row_steps "mission_handoffs"; reflexivity.
  - unfold change_worker_ownership_with_governance_preview in H. op_steps H; row_steps "mission_handoffs"; reflexivity.
  - unfold record_worker_reconciliation_ambiguity in H. op_steps H; row_steps "mission_handoffs"; reflexivity.
Qed.

Lemma classified_active seen a id t : classify_attempt seen (PDict a) = Ok (id, Some t) -> state_in _MISSION_ATTEMPT_ACTIVE_STATES a = true.
Proof.
  unfold classify_attempt. destruct (dget "attempt_id" a) as [| | | |s| | |]; try done. intros ([] & _ & H)%bind_Ok.
  apply bind_Ok in H as (st & _ & H). destruct st; [done|]. unfold state_in, _MISSION_ATTEMPT_ACTIVE_STATES. cbn [existsb].
  destruct (state_is "prepared" a) eqn:Hp; [done|]. cbn [andb orb] in *. apply bind_Ok in H as (act & Hact & H). destruct act; [|done].
  unfold in_str_set in Hact. destruct (hashable (dget "state" a)); [|done]. unfold state_is.
  destruct (dget "state" a) as [| | | |x| | |]; try done. injection Hact as Hact. unfold in_strs in Hact. cbn [existsb] in Hact.
  cbn [py_eq num_of]. exact Hact.
Qed.

Lemma target_active attempts : forall seen l, classify_attempts seen (PDict <$> attempts) = Ok l -> forall a t, a ∈ attempts ->
  target_of l a = Some t -> state_in _MISSION_ATTEMPT_ACTIVE_STATES a = true.
Proof.
  induction attempts as [|a attempts IH]; intros seen l; cbn [fmap list_fmap classify_attempts]; [by intros _ a t ?%elem_of_nil|].
  intros ([id tt] & Hc & (rest & Hr & [= <-])%bind_Ok)%bind_Ok x t Hx Ht.
  pose proof (classify_attempt_id _ _ _ _ Hc) as (Hid & _). destruct (classify_seen _ _ _ Hr) as [Hl Hrest].
  apply elem_of_cons in Hx as [->|Hx].
  - destruct tt as [tt|]; [by eapply classified_active|]. exfalso. unfold target_of in Ht.
    destruct (find_first _ rest) as [p|] eqn:Hf; [|done]. apply find_first_Some in Hf as [Hin Hpe]. rewrite Hid in Hpe.
    apply py_eq_str in Hpe. injection Hpe as Hpe. specialize (Hl p Hin). rewrite <- Hpe in Hl. cbn in Hl. by rewrite String.eqb_refl in Hl.
  - destruct (Hrest x Hx) as (i & Hi & Hn). apply (IH _ _ Hr x t Hx). rewrite <- Ht. destruct tt as [tt|]; [|done].
    unfold target_of, find_first. cbn [List.filter fst]. rewrite Hi. cbn [py_eq num_of].
    destruct (String.eqb_spec i id) as [->|]; [|done]. cbn in Hn. by rewrite String.eqb_refl in Hn.
Qed.

Lemma forced_attempts_change w cl at_ attempts : forall n doc rest doc' n', force_attempts w n cl at_ attempts doc = Ok (rest, doc', n') ->
  (forall a t, a ∈ attempts -> target_of cl a = Some t -> state_in _MISSION_ATTEMPT_ACTIVE_STATES a = true) ->
  Forall2 may_change attempts rest.
Proof.
  induction attempts as [|a attempts IH]; intros n doc rest doc' n'; cbn [force_attempts]; [intros [= <- _ _] _; constructor|].
  intros H Hact. assert (Hrest : forall x t, x ∈ attempts -> target_of cl x = Some t -> state_in _MISSION_ATTEMPT_ACTIVE_STATES x = true)
    by (intros x t Hx; apply Hact; by right).
  destruct (target_of cl a) as [t|] eqn:Ht.
  - apply bind_Ok in H as (c & Hc & H). apply bind_Ok in H as (d1 & _ & H). apply bind_Ok in H as ([[r d2] n2] & H2 & [= <- _ _]).
    apply validate_attempt_Ok in Hc as [[= <-] _]. constructor; [|by eapply IH]. right. split; [|by apply (Hact a t); [left|]].
    unfold attempt_identity, forced, dupdate. cbn [foldl fst snd fmap list_fmap]. by rewrite !dget_dset.
  - apply bind_Ok in H as ([[r d2] n2] & H2 & [= <- _ _]). constructor; [by left|by eapply IH].
Qed.

(** A forced stop leaves the cursors. *)
Lemma forced_missions at_ id rows : forall rows', mapR (force_mission at_) rows = Ok rows' ->
  Forall2 (fun m m' => dget "current_step" m' = dget "current_step" m)
    (GovernanceStore.rows_with "mission_id" id rows) (GovernanceStore.rows_with "mission_id" id rows').
Proof.
  induction rows as [|v rows IH]; intros rows'; cbn [mapR]; [intros [= <-]; constructor|].
  intros (v' & Hv & (l & Hl & [= <-])%bind_Ok)%bind_Ok. specialize (IH l Hl). rewrite !rows_with_cons.
  destruct v as [| | | | | | |m]; try (injection Hv as <-; done). cbn [force_mission] in Hv.
  apply bind_Ok in Hv as (ended & _ & Hv). destruct ended.
  - injection Hv as <-. destruct (is_row "mission_id" id m); [by constructor|done].
  - apply bind_Ok in Hv as ([] & _ & [= <-]). unfold dupdate, is_row. cbn [foldl fst snd]. rewrite !dget_dset.
    cbn [String.eqb Ascii.eqb Bool.eqb]. destruct (py_eq _ _); [|done]. constructor; [|done]. by rewrite !dget_dset.
Qed.

Lemma cursor_same_missions doc doc' rows rows' id : AgentProtocol.rows_of "missions" doc = PList rows -> AgentProtocol.rows_of "missions" doc' = PList rows' ->
  Forall2 (fun m m' => dget "current_step" m' = dget "current_step" m)
    (GovernanceStore.rows_with "mission_id" id rows) (GovernanceStore.rows_with "mission_id" id rows') ->
  cursor_of doc' id = cursor_of doc id.
Proof.
  intros Hr Hr' H. unfold cursor_of, _unique_mission_record, iter_rows. rewrite Hr, Hr'. cbn [iter_table py_iter mbind result_bind].
  destruct H as [|m m' l l' E H]; [done|]. destruct H; [|done]. by rewrite E.
Qed.

Lemma force_stop_in_order w doc id facts generation now r attempts : force_stop_with_governance_preview w doc id facts generation now = Ok r ->
  in_order doc attempts -> exists attempts', in_order r.1 attempts'.
Proof.
  unfold force_stop_with_governance_preview. intros ([[m a] p] & Ht & H)%bind_Ok Hin. apply mission_tables_Ok in Ht as (Hms & Has & _).
  apply bind_Ok in H as (l & Hv & H). do 6 apply bind_Ok in H as (? & _ & H). apply bind_Ok in H as (cl & Hcl & H).
  apply bind_Ok in H as (at_ & _ & H). apply bind_Ok in H as ([[next d1] n] & Hf & H). apply bind_Ok in H as (ms & Hmap & H).
  apply bind_Ok in H as (doc' & Hd & [= <-]). cbn [fst].
  assert (l = attempts) as ->. { apply dict_rows_inj. rewrite <- (validate_rows _ _ Hv). pose proof (io_rows _ _ Hin) as E. rewrite Has in E. by injection E. }
  exists next. apply (changed_in_order doc _ attempts); [done| |by row_steps "mission_attempts"| |by row_steps "mission_handoffs"].
  - eapply forced_attempts_change; [exact Hf|]. intros b t Hb. by eapply target_active.
  - intros mid. eapply (cursor_same_missions _ _ m ms); [done|row_steps "missions"; reflexivity|by eapply forced_missions].
Qed.

Lemma moved_cursor doc doc' m source target reason : mission_moved doc doc' m source target reason -> forall id, cursor_of doc' id = cursor_of doc id.
Proof.
  intros (missions & attempts & mission & at_ & Hr & _ & Hm & _ & _ & _ & Hr' & _ & Ho) id. eapply cursor_same_missions; [done..|].
  destruct (decide (id = m)) as [->|Hne].
  - rewrite Hm. erewrite replace_same; [|apply is_row_PStr|exact Hm].
    + constructor; [|done]. unfold dupdate. cbn [foldl fst snd]. by rewrite !dget_dset.
    + unfold dupdate. cbn [foldl fst snd]. rewrite !dget_dset. cbn. by apply rows_with_one in Hm as [_ Hm].
  - rewrite Ho by done. induction (GovernanceStore.rows_with "mission_id" id missions); by constructor.
Qed.

Lemma gov_in_order w doc op r attempts : run_gov_op w doc op = Ok r -> in_order doc attempts -> exists attempts', in_order r.1 attempts'.
Proof.
  intros H Hin. destruct (stops_attempts op) eqn:Es; [destruct op; try done; by eapply force_stop_in_order|].
  exists attempts. eapply elsewhere_in_order; [|exact Hin].
  split; [by apply (gov_op_keeps _ _ _ _ _ H); [set_solver|..]|]. split; [by eapply gov_op_handoffs|]. intros id. left.
  destruct (moves_missions op) eqn:Em; [|by apply cursor_same_rows, (gov_op_keeps _ _ _ _ _ H); [set_solver|..]].
  destruct op; try done; cbn [run_gov_op] in H; [by eapply moved_cursor, pause_moves|].
  destruct (mission_action action) as [[[[src tgt] sr] et]|] eqn:Ha; [by eapply moved_cursor, action_moves|].
  unfold transition_mission_with_governance_preview in H. by rewrite Ha in H.
Qed.

Lemma mission_op_in_order w doc op doc' record attempts : run_mission_op w doc op = Ok (doc', record) ->
  in_order doc attempts -> exists attempts', in_order doc' attempts'.
Proof.
  destruct op as [m s agent t|op|a reply st e|m a h|m|gw op]; cbn [run_mission_op]; intros H Hin.
  - exists (attempts ++ [record]). by eapply prepare_in_order.
  - by eapply attempt_in_order.
  - exists attempts. by eapply handoff_in_order.
  - exists attempts. by eapply advance_in_order.
  - exists attempts. eapply elsewhere_in_order; [by eapply complete_elsewhere|done].
  - by apply (gov_in_order _ _ _ _ attempts H).
Qed.

Lemma mission_run_in_order doc doc' attempts : mission_run doc doc' -> in_order doc attempts -> exists attempts', in_order doc' attempts'.
Proof.
  intros H Hin. induction H as [doc|doc doc1 doc2 H IH He|w doc doc1 op doc2 record H IH Hop]; [by exists attempts| |].
  - destruct (IH Hin) as [l Hl]. exists l. by eapply elsewhere_in_order.
  - destruct (IH Hin) as [l Hl]. by eapply mission_op_in_order.
Qed.

(** No attempt has been prepared, no handoff recorded and no step is over. *)
Definition not_begun (doc : dict) : Prop :=
  rows_of "mission_attempts" doc = PList [] /\ rows_of "mission_handoffs" doc = PList [] /\ forall m v, cursor_of doc m = Some v -> v = PInt 0.
Lemma not_begun_in_order doc : not_begun doc -> in_order doc [].
Proof.
  intros (Hr & Hh & Hc). split; [done|constructor|..].
  - intros m v Hv. exists 0. by apply Hc in Hv.
  - intros a Ha. by apply not_elem_of_nil in Ha.
  - intros i j a b Hi. by rewrite lookup_nil in Hi.
  - intros a m Ha. by apply not_elem_of_nil in Ha.
  - intros m k j Hk. apply Hc in Hk. injection Hk as Hk. lia.
  - exists []. split; [done|]. by intros h Hh'%elem_of_nil.
Qed.

(** At most one attempt of a Mission is under way, at the step after the cursor. *)
Lemma in_order_one_active doc attempts i j a b m : in_order doc attempts -> attempts !! i = Some a -> attempts !! j = Some b ->
  dget "mission_id" a = PStr m -> dget "mission_id" b = PStr m ->
  state_in _MISSION_ATTEMPT_ACTIVE_STATES a = true -> state_in _MISSION_ATTEMPT_ACTIVE_STATES b = true -> i = j.
Proof.
  intros [_ _ _ _ O A _ _] Hi Hj Ha Hb Sa Sb.
  destruct (A a m) as (k & Hk & Na); [by eapply list_elem_of_lookup_2|done..|].
  destruct (A b m) as (k' & Hk' & Nb); [by eapply list_elem_of_lookup_2|done..|].
  rewrite Hk in Hk'. injection Hk' as Hk'%Nat2Z.inj. subst k'.
  apply (O i j a b Hi Hj); [split; congruence|by apply active_open..].
Qed.
End runs.

(** C9: The steps of a Mission run in order, one at a time.  Along any run that
    begins with no attempt prepared, no handoff recorded and every cursor at 0,
    however preparations, the operations on attempts, the records of handoffs,
    advances, completions and governed operations (a forced stop included) are
    interleaved with changes that leave the tables of attempts and handoffs and
    the cursors alone (but may create Missions), the attempts of the document
    are those of the steps up to the cursor: a step has at most one attempt that
    has not failed, at most one attempt of a Mission is under way and it is of
    the step after the cursor, every handoff is of an attempt of its own
    Mission, and every step before the cursor has an attempt that did it and
    whose handoff is recorded. *)
Theorem missions_run_in_order {env : LeaseEnv} {ft : FloatText} {lim : RecursionLimits} {repr : PyRepr}
    (semantic_step_hash : pyval -> result string) doc doc' :
  not_begun doc -> mission_run semantic_step_hash doc doc' ->
  exists attempts, in_order doc' attempts
    /\ forall i j a b m, attempts !! i = Some a -> attempts !! j = Some b ->
         dget "mission_id" a = PStr m -> dget "mission_id" b = PStr m ->
         state_in _MISSION_ATTEMPT_ACTIVE_STATES a = true -> state_in _MISSION_ATTEMPT_ACTIVE_STATES b = true -> i = j.
Proof.
  intros Hn%not_begun_in_order Hrun. destruct (mission_run_in_order _ _ _ _ Hrun Hn) as [attempts Hin].
  exists attempts. split; [done|]. intros i j a b m. by apply (in_order_one_active doc').
Qed.

(** C10: A completed Mission did every step.  When, after a run that begins with
    no attempt prepared, no handoff recorded and every cursor at 0 (and in which
    other writers leave attempts, handoffs and cursors alone), the completion of
    a Mission succeeds, the document it saves has for each of the Mission's
    steps an attempt of the step that completed and whose handoff is
    recorded. *)
Theorem completed_mission_did_every_step {env : LeaseEnv} {ft : FloatText} {lim : RecursionLimits} {repr : PyRepr}
    (semantic_step_hash : pyval -> result string) (w : mission_world) doc doc1 mission_id doc2 mission n :
  not_begun doc -> mission_run semantic_step_hash doc doc1 ->
  complete_admitted_mission w doc1 mission_id = Ok (doc2, mission) -> dget "step_count" mission = PInt (Z.of_nat n) ->
  dget "status" mission = PStr "completed"
  /\ exists attempts, rows_of "mission_attempts" doc2 = PList (PDict <$> attempts)
       /\ forall k, k < n -> exists a, a ∈ attempts /\ dget "mission_id" a = PStr mission_id
            /\ dget "step_id" a = step_name (S k) /\ did a /\ handed_over doc2 a.
Proof.
  intros Hn%not_begun_in_order Hrun H Hcount. destruct (mission_run_in_order _ _ _ _ Hrun Hn) as [attempts Hin].
  pose proof (complete_elsewhere _ _ _ _ _ H) as (Hr & Hh & _). destruct (complete_Ok _ _ _ _ _ H) as (mission0 & Hm & -> & Hall).
  unfold completed_mission, dupdate in *. cbn [foldl fst snd] in *. rewrite !dget_dset in *. cbn in Hcount. split; [done|].
  exists attempts. split; [by rewrite Hr, (io_rows _ _ Hin)|]. intros k Hk.
  destruct (io_cursor _ _ Hin mission_id (dget "current_step" mission0)) as [c Hc]; [unfold cursor_of; by rewrite Hm|].
  rewrite Hc, Hcount in Hall. cbn in Hall. apply Z.eqb_eq in Hall. cbn [fst snd] in Hall. rewrite Z.min_id, Z.sub_diag, !Z.mul_1_r in Hall.
  apply Nat2Z.inj in Hall. subst c.
  destruct (io_done _ _ Hin mission_id n k) as (a & Ha & H1 & H2 & H3 & H4); [unfold cursor_of; by rewrite Hm, Hc|done|].
  exists a. split_and!; [done..|by eapply handed_same].
Qed.

(** ** A sample run: a Mission of one step *)

#[local] Existing Instance sample_env.
#[local] Existing Instance sample_limits.
#[local] Existing Instance sample_float_text.
#[local] Existing Instance sample_repr.

Definition sample_step_hash (v : pyval) : result string := Ok (text_of sample_hash).
#[local] Notation wd n := (mission_sample_world n).
#[local] Notation mission_1 := "mis_0123456789ab".
#[local] Notation attempt_1 := "mat_000000000006".

Definition one_step_doc : dict := put_mission mission_1 (dset "step_count" (PInt 1) (the_mission started_doc)) started_doc.
Definition after_op (n : nat) (doc : dict) (op : mission_op) : dict := doc_after (run_mission_op sample_step_hash (wd n) doc op).
Definition key_of (doc : dict) : pyval :=
  match rows_of "mission_attempts" doc with PList (PDict a :: _) => dget "dispatch_key" a | _ => PNone end.

Definition op_1 : mission_op := MPrepare mission_1 "step_1" "codex" "tmux".
Definition doc_1 : dict := Eval vm_compute in after_op 6 one_step_doc op_1.
Definition op_2 : mission_op := MAttempt (OpClaim (PStr attempt_1) (key_of doc_1)).
Definition doc_2 : dict := Eval vm_compute in after_op 7 doc_1 op_2.
Definition op_3 : mission_op := MAttempt (OpSubmitted (PStr attempt_1) (key_of doc_1) (PStr "adm_00000000000a") (PStr "sent")).
Definition doc_3 : dict := Eval vm_compute in after_op 8 doc_2 op_3.
Definition op_4 : mission_op := MAttempt (OpResult (PStr attempt_1) (key_of doc_1) true "done").
Definition doc_4 : dict := Eval vm_compute in after_op 9 doc_3 op_4.
(** Its reply and its handoff are recorded. *)
Definition record_world (n : nat) : mission_world :=
  MissionWorld
    (EvidenceWorld (sample_world n) (ew_event (mw_evidence (wd n))) (fun _ _ => Ok tmux_snapshot) "mrp_00000000000b" "hof_00000000000c" (instant_text 5))
    (mw_config (wd n)) (mw_semantic (wd n)) (mw_authority_hash (wd n)) (mw_mission (wd n)) (mw_attempt (wd n)) (mw_start (wd n)).
#[local] Notation reply_1 := "mrp_00000000000b".
#[local] Notation handoff_1 := "hof_00000000000c".
Definition replied (n : nat) (doc : dict) (state : string) (expected canonical : pyval) : result (dict * dict) :=
  record_mission_reply_evidence (mw_evidence (record_world n)) doc attempt_1 (text_of (key_of doc_1)) state expected canonical.
Definition doc_received : dict :=
  Eval vm_compute in doc_after (replied 10 doc_4 "received" PNone (PDict (dset "handoff_token" (key_of doc_1) (compact sample_handoff)))).
Definition doc_replied : dict := Eval vm_compute in doc_after (replied 11 doc_received "validated" (PStr reply_1) PNone).
Definition op_pending : mission_op := MHandoff attempt_1 reply_1 "pending" PNone.
Definition doc_pending : dict := Eval vm_compute in doc_after (run_mission_op sample_step_hash (record_world 12) doc_replied op_pending).
Definition op_5 : mission_op := MHandoff attempt_1 reply_1 "recorded" (PStr handoff_1).
Definition doc_5 : dict := Eval vm_compute in doc_after (run_mission_op sample_step_hash (record_world 13) doc_pending op_5).
Definition op_6 : mission_op := MAdvance mission_1 attempt_1 handoff_1.
Definition doc_6 : dict := Eval vm_compute in after_op 14 doc_5 op_6.
#[local] Notation completed := (complete_admitted_mission (wd 15) doc_6 mission_1).

Lemma ran w doc op doc' : is_ok (run_mission_op sample_step_hash w doc op) = true -> doc_after (run_mission_op sample_step_hash w doc op) = doc' ->
  exists record, run_mission_op sample_step_hash w doc op = Ok (doc', record).
Proof. intros (d & r & E)%outcome_of <-. exists r. by rewrite E. Qed.

(** A document with a single Mission. *)
Lemma one_cursor doc mission : rows_of "missions" doc = PList [PDict mission] ->
  forall id, cursor_of doc id = if is_row "mission_id" id mission then Some (dget "current_step" mission) else None.
Proof.
  intros Hr id. unfold cursor_of, _unique_mission_record, iter_rows. rewrite Hr. cbn [iter_table py_iter mbind result_bind].
  rewrite rows_with_cons. by destruct (is_row "mission_id" id mission).
Qed.

Lemma one_step_not_begun : not_begun one_step_doc.
Proof.
  assert (Hc : dget "current_step" (the_mission one_step_doc) = PInt 0) by (vm_compute; reflexivity).
  split; [vm_compute; reflexivity|]. split; [vm_compute; reflexivity|]. intros m v. rewrite (one_cursor _ (the_mission one_step_doc)); [|vm_compute; reflexivity].
  rewrite Hc. destruct (is_row _ _ _); [|discriminate]. intros [= <-]. reflexivity.
Qed.

(** The reply is recorded elsewhere. *)
Lemma sample_elsewhere : elsewhere doc_4 doc_replied.
Proof.
  assert (rows_of "missions" doc_replied = rows_of "missions" doc_4) as E by (vm_compute; reflexivity).
  split; [vm_compute; reflexivity|]. split; [vm_compute; reflexivity|]. intros m. left. by apply cursor_same_rows.
Qed.

Lemma sample_mission_run : mission_run sample_step_hash one_step_doc doc_6.
Proof.
  destruct (ran (wd 6) one_step_doc op_1 doc_1) as [r1 H1]; [vm_compute; reflexivity..|].
  destruct (ran (wd 7) doc_1 op_2 doc_2) as [r2 H2]; [vm_compute; reflexivity..|].
  destruct (ran (wd 8) doc_2 op_3 doc_3) as [r3 H3]; [vm_compute; reflexivity..|].
  destruct (ran (wd 9) doc_3 op_4 doc_4) as [r4 H4]; [vm_compute; reflexivity..|].
  destruct (ran (record_world 12) doc_replied op_pending doc_pending) as [rp Hp]; [vm_compute; reflexivity..|].
  destruct (ran (record_world 13) doc_pending op_5 doc_5) as [r5 H5]; [vm_compute; reflexivity..|].
  destruct (ran (wd 14) doc_5 op_6 doc_6) as [r6 H6]; [vm_compute; reflexivity..|].
  apply (run_op _ (wd 14) _ doc_5 op_6 _ r6); [|exact H6].
  apply (run_op _ (record_world 13) _ doc_pending op_5 _ r5); [|exact H5].
  apply (run_op _ (record_world 12) _ doc_replied op_pending _ rp); [|exact Hp].
  apply (run_elsewhere _ _ doc_4); [|exact sample_elsewhere].
  apply (run_op _ (wd 9) _ doc_3 op_4 _ r4); [|exact H4].
  apply (run_op _ (wd 8) _ doc_2 op_3 _ r3); [|exact H3].
  apply (run_op _ (wd 7) _ doc_1 op_2 _ r2); [|exact H2].
  apply (run_op _ (wd 6) _ one_step_doc op_1 _ r1); [apply run_start|exact H1].
Qed.
Lemma completed_runs : is_ok completed = true.
Proof. vm_compute. reflexivity. Qed.
Lemma completed_count : forall doc m, completed = Ok (doc, m) -> dget "step_count" m = PInt (Z.of_nat 1).
Proof.
  assert (match completed with Ok (_, m) => dget "step_count" m | Err _ => PNone end = PInt 1) as E by (vm_compute; reflexivity).
  intros doc m H. by rewrite H in E.
Qed.

Lemma missions_run_in_order_witness : exists attempts, in_order doc_6 attempts.
Proof.
  destruct (missions_run_in_order sample_step_hash one_step_doc doc_6 one_step_not_begun sample_mission_run) as (attempts & H & _).
  exists attempts. exact H.
Defined.

Lemma completed_mission_did_every_step_witness : exists doc m attempts a, completed = Ok (doc, m)
  /\ rows_of "mission_attempts" doc = PList (PDict <$> attempts) /\ a ∈ attempts
  /\ dget "step_id" a = step_name 1 /\ did a.
Proof.
  destruct (outcome_of completed completed_runs) as (doc & m & H).
  destruct (completed_mission_did_every_step sample_step_hash (wd 15) one_step_doc doc_6 mission_1 doc m 1
              one_step_not_begun sample_mission_run H (completed_count doc m H)) as (_ & attempts & Hr & Hall).
  destruct (Hall 0 Nat.lt_0_1) as (a & Ha & _ & Hs & Hd & _). exists doc, m, attempts, a. split_and!; assumption.
Defined.
