(* ===== verification/ServiceFacts.v ===== *)
(** * The facts the daemon schedules on ([daemon/service.py])

    What [scheduler_facts_from_state] reads from the saved document: the one
    admitted Mission, the step at its cursor, the attempt it is bound to, the
    evidence of that attempt, its permission, and whether the step's Worker is
    owned, configured as frozen, and ready.  Also the handoff of the step before,
    which the next Worker's prompt contains.

    Outside the document are the configuration, the lookup of a command, the
    runtime's panes and the reading of a pane's text ([runtime/readiness.py]);
    they are given ([probe_world]). *)
From S2P Require Import Prelude PyStr PyVal ReviewVerdict ReviewGroup Json Protocol Handoff Lease Store Conversation Attempt Snapshot AttemptStore Recovery.
From S2P Require Import AgentProtocol Governance GovernanceStore Coordinator EvidenceStore AcpPermission MissionStore MissionProgress.
From S2P Require Import Scheduler.

Definition service_error {A} (msg : string) : result A := Err (ServiceError msg).

(** ** Worker panes *)

Record runtime_backend := RuntimeBackend { be_pane_exists : string -> result bool; be_capture_output : string -> result string }.
Record probe_world := ProbeWorld {
  pw_command : string -> result bool;  (** the command is a file, or is found on the path *)
  pw_backend : option runtime_backend;
  pw_classify : string -> string -> result (string * option string)  (** status and reason *)
}.

(** What a probe of a pane says: is the Worker ready, and if not why. *)
Definition probe_tmux_worker_readiness (pw : probe_world) (backend : runtime_backend) (agent : AgentSpec) (pane_id : string)
    : bool * option string :=
  let readiness :=
    exists_ ← be_pane_exists backend pane_id;
    if exists_ : bool then output ← be_capture_output backend pane_id; r ← pw_classify pw (ag_provider agent) output; Ok (Some r)
    else Ok None in
  match readiness with
  | Err _ => (false, Some "tmux Worker readiness check failed")
  | Ok None => (false, Some "tmux Worker pane is unavailable")
  | Ok (Some (status, reason)) =>
      if String.eqb status "ready" then (true, None)
      else
        let blocker := if String.eqb status "setup_required" then "tmux Worker setup required" else "tmux Worker is not ready" in
        (false, Some (match reason with
                      | Some r => if nonempty r then blocker +:+ ": " +:+ r else blocker
                      | None => blocker
                      end))
  end.

Definition text_or_none (o : option string) : pyval := match o with Some s => PStr s | None => PNone end.

(** [sorted(rows, key=...)[-1]] by two texts: the last of the greatest. *)
Definition last_greatest (key : dict -> string * string) (rows : list dict) : option dict :=
  match rows with
  | [] => None
  | r :: rows => Some (foldl (fun best d => if key_lt (key d) (key best) then best else d) r rows)
  end.

Section facts.
Context {env : LeaseEnv} {ft : FloatText} {lim : RecursionLimits} {repr : PyRepr}.

(** ** Ownership *)

Definition _worker_ownership_state (state : dict) (agent_id : string) : result string :=
  p ← validate_conversation_history (conversation_base state) (AgentProtocol.rows_of "conversation_state_transitions" state);
  Ok (GovernanceStore.ownership_of p agent_id).

(** ** The permission of an attempt *)

Definition PERMISSION_INVALID : string := "Mission permission state is invalid".
Definition permission_records (name : string) (state : dict) : result (list pyval) :=
  match AgentProtocol.rows_of name state with PList l => Ok l | _ => service_error PERMISSION_INVALID end.

(** One transition of the ledger. *)
Definition permission_after (permission_id : pyval) (current : string) (transition : pyval) : result string :=
  match transition with
  | PDict t =>
      if is_row "entity_type" "permission" t && py_eq (dget "entity_id" t) permission_id then
        let invalid := ServiceError "Mission permission history is invalid" in
        _ ← raise_if (negb (is_row "from_state" current t) || negb (String.eqb current "pending")) invalid;
        known ← in_str_set (dget "to_state" t) ["approved"; "denied"; "expired"];
        _ ← raise_if (negb known) invalid;
        Ok (text_of (dget "to_state" t))
      else Ok current
  | _ => Ok current
  end.

(** The sequences of the updates that asked for the permission. *)
Definition request_sequences (permission_id : pyval) (updates : list pyval) : list Z :=
  omap (fun u => match dget "payload" u, dget "sequence" u with
                 | PDict p, PInt z => if is_row "kind" "permission_request" u && py_eq (dget "permission_id" p) permission_id then Some z else None
                 | _, _ => None
                 end) (dicts_of updates).

(** A bound permission: its place in the order of requests, and its state. *)
Record derived := Derived { dv_bound : bool; dv_sequence : Z; dv_created : string; dv_id : string; dv_state : string }.
Definition derive_permission (state attempt binding : dict) : result derived :=
  let permission_id := dget "permission_id" binding in
  requests ← permission_records "permission_requests" state;
  match List.filter (fun d => py_eq (dget "permission_id" d) permission_id) (dicts_of requests) with
  | [permission] =>
      sessions ← permission_records "agent_sessions" state;
      match List.filter (fun d => py_eq (dget "session_id" d) (dget "session_id" permission)) (dicts_of sessions) with
      | [session] =>
          _ ← raise_if (negb (py_eq (dget "agent_id" session) (dget "agent_id" attempt)))
                       (ServiceError "Mission permission agent scope is invalid");
          _ ← raise_if (negb (is_row "status" "pending" permission)) (ServiceError "Mission permission base state is invalid");
          transitions ← permission_records "protocol_state_transitions" state;
          current ← foldM (permission_after permission_id) "pending" transitions;
          updates ← permission_records "transport_updates" state;
          let '(bound, sequence) := match request_sequences permission_id updates with [z] => (true, z) | _ => (false, (-1)%Z) end in
          Ok (Derived bound sequence (py_str (dget "created_at" permission)) (py_str permission_id) current)
      | _ => service_error "Mission permission agent scope is invalid"
      end
  | _ => service_error "Mission permission request is invalid"
  end.

(** The order of the tuples; equal ones are the same. *)
Definition derived_lt (a b : derived) : bool :=
  negb (dv_bound a) && dv_bound b
  || Bool.eqb (dv_bound a) (dv_bound b)
     && ((dv_sequence a <? dv_sequence b)%Z
         || (dv_sequence a =? dv_sequence b)%Z
            && (key_lt (dv_created a, dv_id a) (dv_created b, dv_id b)
                || String.eqb (dv_created a) (dv_created b) && String.eqb (dv_id a) (dv_id b)
                   && negb (String.leb (dv_state b) (dv_state a)))).

Definition permission_state_for_attempt (state : dict) (attempt : option dict) : result string :=
  match attempt with
  | None => Ok "none"
  | Some attempt =>
      rows ← permission_records "mission_permission_bindings" state;
      match List.filter (fun b => py_eq (dget "attempt_id" b) (dget "attempt_id" attempt)) (dicts_of rows) with
      | [] => Ok "none"
      | bindings =>
          _ ← raise_if (existsb (fun b => negb (py_eq (dget "mission_id" b) (dget "mission_id" attempt))) bindings)
                       (ServiceError "Mission permission binding is invalid");
          derived ← mapR (derive_permission state attempt) bindings;
          Ok (match derived with
              | [] => "none"
              | d :: ds => dv_state (foldl (fun best e => if derived_lt e best then best else e) d ds)
              end)
      end
  end.

(** ** The admitted Mission *)

Definition admitted_row (m : dict) : bool := match dget "daemon_admission" m with PDict a => is_row "state" "admitted" a | _ => false end.
(** The admitted Missions that have ended, or have not. *)
Definition admitted_missions (ended : bool) (state : dict) : result (list dict) :=
  rows ← iter_rows "missions" state;
  filterR (fun m => over ← in_str_set (dget "status" m) ENDED_MISSIONS; Ok (Bool.eqb over ended && admitted_row m)) (dicts_of rows).
Definition scheduled_mission (state : dict) (include_terminal : bool) : result (option dict) :=
  active ← admitted_missions false state;
  terminal ← admitted_missions true state;
  match (if match active with [] => negb include_terminal | _ => true end then active
         else match last terminal with Some m => [m] | None => [] end) with
  | [] => Ok None
  | [m] => Ok (Some m)
  | _ => service_error "multiple admitted Missions are unsupported"
  end.

(** The frozen steps, the cursor and the step at it, none past the last one. *)
Record scope := Scope { sc_snapshot : dict; sc_steps : list pyval; sc_cursor : nat; sc_step : option dict }.
Definition scheduled_scope (mission : dict) : result scope :=
  snapshot ← dict_or (ServiceError "scheduler snapshot is invalid") (dget "execution_snapshot" mission);
  frozen ← dict_or (ServiceError "scheduler snapshot is invalid") (dget "mission" snapshot);
  steps ← list_or (ServiceError "scheduler steps are invalid") (dget "steps" frozen);
  let bad_cursor := ServiceError "scheduler step cursor is invalid" in
  cursor ← match dlookup "current_step" mission with
           | None => Ok 0
           | Some (PInt z) => if (z <? 0)%Z || (Z.of_nat (length steps) <? z)%Z then Err bad_cursor else Ok (Z.to_nat z)
           | Some _ => Err bad_cursor
           end;
  step ← match steps !! cursor with
         | None => Ok None
         | Some v => s ← dict_or (ServiceError "scheduler step is invalid") v; Ok (Some s)
         end;
  Ok (Scope snapshot steps cursor step).

(** [[item for item in state.get(table, []) if ... item.get("mission_id") == mission["mission_id"]]] *)
Definition mission_rows (table : string) (state mission : dict) : result (list dict) :=
  rows ← iter_rows table state;
  filterR (fun d => id ← subscript "mission_id" mission; Ok (py_eq (dget "mission_id" d) id)) (dicts_of rows).

(** ** The current attempt *)

Record lineage := Lineage { ln_active : list dict; ln_current : option dict }.
Definition scheduled_lineage (state mission : dict) (step : option dict) : result lineage :=
  attempts ← mission_rows "mission_attempts" state mission;
  active ← filterR (fun a => in_str_set (dget "state" a) _MISSION_ATTEMPT_ACTIVE_STATES) attempts;
  _ ← raise_if (1 <? length active) (ServiceError "multiple active Mission attempts");
  bindings ← mission_rows "mission_recovery_evidence" state mission;
  match bindings with
  | [binding] =>
      match dget "attempt_id" binding, attempts_with (dget "attempt_id" binding) attempts with
      | PNone, _ => Ok (Lineage active None)
      | _, [current] =>
          let at_step := match step with Some s => py_eq (dget "step_id" current) (dget "step_id" s) | None => false end in
          Ok (Lineage active (if at_step then Some current else None))
      | _, _ => service_error "scheduler attempt binding is invalid"
      end
  | _ => service_error "scheduler recovery binding is invalid"
  end.

(** The rows of the table about the current attempt. *)
Definition attempt_rows (table : string) (state : dict) (current : option dict) : result (list dict) :=
  rows ← iter_rows table state;
  Ok (match current with
      | None => []
      | Some a => List.filter (fun d => py_eq (dget "attempt_id" d) (dget "attempt_id" a)) (dicts_of rows)
      end).
Definition last_state (rows : list dict) : pyval := match last rows with None => PStr "none" | Some d => dget "state" d end.

(** ** Blockers *)

Definition LOST_CONNECTION : string := "ACP Worker connection was lost across daemon restart".
Definition recovery_blocker (state mission : dict) (current : option dict) : result pyval :=
  rows ← iter_rows "recovery_decisions" state;
  mine ← filterR (fun d => id ← subscript "mission_id" mission;
                           Ok (py_eq (dget "mission_id" d) id && py_eq (dget "attempt_id" d) (get_of "attempt_id" current))) (dicts_of rows);
  match mine with
  | [] => Ok PNone
  | [d] => Ok (if is_row "classification" "ambiguous" d && is_row "reason" LOST_CONNECTION d then PStr LOST_CONNECTION else PNone)
  | _ => service_error "scheduler recovery decision is invalid"
  end.

Definition reconciliation_blocker (state : dict) (step : option dict) : result pyval :=
  match step with
  | None => Ok PNone
  | Some step =>
      rows ← iter_rows "worker_reconciliation_decisions" state;
      let mine := List.filter (fun d => py_eq (dget "agent_id" d) (dget "agent_id" step) && is_row "status" "ambiguous" d) (dicts_of rows) in
      match last_greatest (fun d => (py_str (dget "created_at" d), py_str (dget "decision_id" d))) mine with
      | None => Ok PNone
      | Some latest =>
          if is_form nonempty (dget "blocker" latest) then Ok (dget "blocker" latest)
          else service_error "scheduler reconciliation decision is invalid"
      end
  end.

(** ** The Worker of the step *)

Definition AUTHORITY_DRIFT : string := "Worker execution authority drift".

(** The configured agent of the step and its frozen Worker, which must agree. *)
Definition configured_worker (config : option ProjectConfig) (snapshot step : dict) : result (ProjectConfig * AgentSpec * dict) :=
  match config with
  | None => Err AttributeError
  | Some config =>
      match find_first (fun a => py_eq (PStr (ag_agent_id a)) (dget "agent_id" step)) (cf_agents config) with
      | None => Err StopIteration
      | Some agent =>
          workers ← iter_table (match dlookup "workers" snapshot with Some v => v | None => PList [] end);
          match find_first (is_row "agent_id" (ag_agent_id agent)) (dicts_of workers) with
          | None => Err StopIteration
          | Some worker =>
              _ ← raise_if (negb (is_row "configured_transport" (ag_transport agent) worker)
                            || negb (is_row "provider" (ag_provider agent) worker) || negb (is_row "role" (ag_role agent) worker)
                            || negb (is_row "workspace_mode" (ag_workspace_mode agent) worker)) StopIteration;
              identity ← worker_runtime_identity_hash agent (cf_runtime config);
              _ ← raise_if (negb (is_row "runtime_identity_hash" identity worker)) StopIteration;
              Ok (config, agent, worker)
          end
      end
  end.

(** Why a step's tmux Worker is not running. *)
Definition startup_blocker (mission : dict) (agent_id : string) (starts : list dict) : result pyval :=
  match starts with
  | [] =>
      actions ← iter_rows "startup_actions" mission;
      Ok (PStr (match GovernanceStore.rows_with "agent_id" agent_id actions with
                | [action] => if is_row "action" "spawn" action then WORKER_START_REQUIRED_BLOCKER
                              else "frozen tmux Worker reuse target is unavailable"
                | _ => "frozen tmux Worker reuse target is unavailable"
                end))
  | start :: _ =>
      Ok (if state_is "claimed" start then PStr "tmux Worker startup outcome is ambiguous"
          else if state_is "blocked" start then dget "blocker" start
          else PStr "tmux Worker runtime binding drift")
  end.

(** Whether the Worker can take the step, and what blocks it otherwise. *)
Definition worker_readiness (pw : probe_world) (state mission : dict) (config : option ProjectConfig) (snapshot step : dict)
    (current : option dict) (probe : bool) : result (bool * pyval) :=
  '(_, agent, _) ← configured_worker config snapshot step;
  let mission_id := dget "mission_id" mission in
  effective ← effective_transport_for_step state (text_of mission_id) (py_str (dget "step_id" step)) (ag_agent_id agent) (ag_transport agent);
  if String.eqb effective "acp" then
    let command := match ag_transport_command agent with c :: _ => c | [] => "" end in
    ready ← (if probe && nonempty command then pw_command pw command else Ok (nonempty command));
    Ok (ready, PNone)
  else
    bindings ← match dlookup "agents" state with
               | None => Ok []
               | Some (PDict d) => Ok d
               | Some _ => Err (ValueError "Worker runtime bindings are invalid")
               end;
    let pane := match dlookup (ag_agent_id agent) bindings with
                | Some (PDict r) => match dget "pane_id" r with PStr p => if is_row "status" "running" r then Some p else None | _ => None end
                | _ => None
                end in
    rows ← iter_rows "mission_worker_starts" state;
    let starts := List.filter (fun s => py_eq (dget "mission_id" s) mission_id && py_eq (dget "step_id" s) (dget "step_id" step)
                                        && is_row "agent_id" (ag_agent_id agent) s) (dicts_of rows) in
    _ ← raise_if (1 <? length starts) (ServiceError "Worker startup ledger is invalid");
    match pane with
    | None => blocker ← startup_blocker mission (ag_agent_id agent) starts; Ok (false, blocker)
    | Some pane_id =>
        match pw_backend pw with
        | Some backend =>
            if probe && match current with None => true | Some a => state_is "prepared" a end then
              let '(ready, blocker) := probe_tmux_worker_readiness pw backend agent pane_id in Ok (ready, text_or_none blocker)
            else Ok (true, PNone)
        | None => Ok (true, PNone)
        end
    end.

(** [except (AttributeError, KeyError, OSError, StopIteration, TypeError, ValueError)] *)
Definition drifted (e : exn) : bool :=
  match e with AttributeError | KeyError _ | PermissionError _ | StopIteration => true | _ => type_or_value e end.
Definition readiness_or_drift (r : result (bool * pyval)) : result (bool * pyval) :=
  match r with
  | Ok r => Ok r
  | Err e => if drifted e then Ok (false, PStr AUTHORITY_DRIFT) else Err e
  end.

Definition step_ownership (state : dict) (step : option dict) : result string :=
  match step with
  | None => Ok "owned"
  | Some step =>
      match _worker_ownership_state state (py_str (dget "agent_id" step)) with
      | Ok ownership => Ok (if String.eqb ownership "agentdeck_owned" then "owned" else "conflict")
      | Err e => if match e with KeyError _ => true | _ => type_or_value e end then Ok "conflict" else Err e
      end
  end.

(** ** The facts *)

(** The arguments of [SchedulerFacts], before its validation. *)
Definition facts_of (state mission : dict) (sc : scope) (ln : lineage) (replies handoffs : list dict)
    (ownership : string) (ready : bool) (blocker : pyval) : result dict :=
  let current := ln_current ln in
  mission_id ← subscript "mission_id" mission;
  status ← subscript "status" mission;
  permission ← permission_state_for_attempt state current;
  let handoff_state := last_state handoffs in
  let all_completed := Nat.eqb (sc_cursor sc) (length (sc_steps sc)) in
  Ok [("mission_id", mission_id); ("mission_state", status);
      ("step_id", get_of "step_id" (sc_step sc));
      ("step_state", PStr (match sc_step sc, current with None, _ => "none" | Some _, None => "pending" | Some _, Some _ => "active" end));
      ("attempt_id", get_of "attempt_id" current);
      ("attempt_state", match current with None => PStr "none" | Some a => dget "state" a end);
      ("reply_state", last_state replies); ("handoff_state", handoff_state);
      ("permission_state", PStr permission);
      ("worker_ready", PBool ready);
      ("next_step_eligible", PBool (py_eq handoff_state (PStr "recorded") && (sc_cursor sc <? length (sc_steps sc))));
      ("all_steps_completed", PBool all_completed);
      ("snapshot_state", PStr (if py_eq (dget "snapshot_hash" mission) (dget "execution_hash" (sc_snapshot sc)) then "valid" else "drift"));
      ("lineage_state", PStr "valid"); ("ownership_state", PStr ownership);
      ("active_attempt_count", PInt (Z.of_nat (length (ln_active ln))));
      ("blocker", blocker)].

Definition scheduler_facts_from_state (pw : probe_world) (state : dict) (config : option ProjectConfig)
    (probe_runtime include_terminal : bool) : result (option SchedulerFacts) :=
  scheduled ← scheduled_mission state include_terminal;
  match scheduled with
  | None => Ok None
  | Some mission =>
      sc ← scheduled_scope mission;
      ln ← scheduled_lineage state mission (sc_step sc);
      let current := ln_current ln in
      recovery ← recovery_blocker state mission current;
      reconciliation ← reconciliation_blocker state (sc_step sc);
      replies ← attempt_rows "mission_worker_replies" state current;
      handoffs ← attempt_rows "mission_handoffs" state current;
      ownership ← step_ownership state (sc_step sc);
      '(ready, runtime) ← match sc_step sc with
                          | None => Ok (true, PNone)
                          | Some step => readiness_or_drift (worker_readiness pw state mission config (sc_snapshot sc) step current probe_runtime)
                          end;
      let admission := match dget "daemon_admission" mission with PDict a => dget "blocker" a | _ => PNone end in
      facts ← facts_of state mission sc ln replies handoffs ownership ready
                (py_or reconciliation (py_or recovery (py_or runtime admission)));
      f ← post_init facts;
      Ok (Some f)
  end.

(** The configuration is read afresh; without one every Worker has drifted. *)
Definition scheduler_facts_from_store (pw : probe_world) (config : result ProjectConfig) (state : dict) : result (option SchedulerFacts) :=
  config ← match config with
           | Ok c => Ok (Some c)
           | Err e => if match e with PermissionError _ => true | _ => type_or_value e end then Ok None else Err e
           end;
  scheduler_facts_from_state pw state config true false.

Definition summary_blocked : observation :=
  {| o_state := "blocked"; o_mission := None; o_step := None; o_next := Some KBlocked;
     o_blockers := ["scheduler durable facts are invalid"] |}.
Definition summary_inactive : observation :=
  {| o_state := "inactive"; o_mission := None; o_step := None; o_next := None; o_blockers := [] |}.
Definition scheduler_summary_from_state (pw : probe_world) (state : dict) (config : option ProjectConfig) : result observation :=
  match scheduler_facts_from_state pw state config false true with
  | Err (ServiceError _) => Ok summary_blocked
  | Err e => Err e
  | Ok (Some facts) => scheduler_observation facts
  | Ok None => Ok summary_inactive
  end.

(** ** The handoff of the step before *)

Definition handoff_error {A} (what : string) : result A := service_error ("previous Worker handoff " +:+ what).
Definition only_row (what : string) (rows : list dict) : result dict :=
  match rows with [d] => Ok d | _ => handoff_error what end.

(** The step of the attempt among the frozen steps, and the one before it. *)
Definition previous_step (mission attempt : dict) : result (option dict) :=
  match get_in "steps" (get_in "mission" (dget "execution_snapshot" mission)) with
  | PList steps =>
      _ ← raise_if (negb (forallb is_dict steps)) (ServiceError "previous Worker handoff step order is invalid");
      let mine := fun d => py_eq (dget "step_id" d) (dget "step_id" attempt) && py_eq (dget "agent_id" d) (dget "agent_id" attempt) in
      match List.filter (fun '(_, d) => mine d) (imap (fun i d => (i, d)) (dicts_of steps)) with
      | [(0, _)] => Ok None
      | [(S i, _)] => Ok (dicts_of steps !! i)
      | _ => handoff_error "current step is invalid"
      end
  | _ => handoff_error "step order is invalid"
  end.

Definition succeeded_attempt (state attempt previous : dict) : result dict :=
  rows ← iter_rows "mission_attempts" state;
  only_row "attempt is ambiguous"
    (List.filter (fun a => py_eq (dget "mission_id" a) (dget "mission_id" attempt) && py_eq (dget "step_id" a) (dget "step_id" previous)
                           && py_eq (dget "agent_id" a) (dget "agent_id" previous) && state_is "succeeded" a) (dicts_of rows)).
Definition validated_reply (state attempt before : dict) : result dict :=
  rows ← iter_rows "mission_worker_replies" state;
  only_row "validated reply is invalid"
    (List.filter (fun r => py_eq (dget "mission_id" r) (dget "mission_id" attempt) && py_eq (dget "attempt_id" r) (dget "attempt_id" before)
                           && py_eq (dget "dispatch_key" r) (dget "dispatch_key" before) && state_is "validated" r) (dicts_of rows)).
Definition recorded_handoff (state attempt before reply : dict) : result dict :=
  rows ← iter_rows "mission_handoffs" state;
  only_row "recorded evidence is invalid"
    (List.filter (fun h => py_eq (dget "mission_id" h) (dget "mission_id" attempt) && py_eq (dget "attempt_id" h) (dget "attempt_id" before)
                           && py_eq (dget "reply_id" h) (dget "reply_id" reply) && state_is "recorded" h) (dicts_of rows)).

(** The semantic step a frozen hash stands for, in the Mission's plan. *)
Definition planned_semantic_step (state mission previous : dict) : result pyval :=
  rows ← iter_rows "plans" state;
  let body := match List.filter (fun p => py_eq (dget "plan_id" p) (dget "plan_id" mission)) (dicts_of rows) with
              | [plan] => dget "plan" plan
              | _ => PNone
              end in
  Ok (match get_in "semantic_steps" body, dget "position" previous with
      | PList steps, PInt z => if (0 <? z)%Z then default PNone (steps !! Z.to_nat (z - 1)) else PNone
      | _, _ => PNone
      end).

Definition check_semantic (semantic_step_hash : pyval -> result string) (state mission previous before reply handoff : dict) : result unit :=
  let drift := ServiceError "semantic_compilation_drift" in
  let hash := dget "semantic_step_hash" previous in
  if Attempt.is_none hash then
    raise_if (existsb (dmem "semantic_step_hash") [before; reply; handoff]) (ServiceError "previous Worker handoff content drift")
  else
    _ ← raise_if (existsb (fun d => negb (py_eq (dget "semantic_step_hash" d) hash)) [before; reply; handoff]) drift;
    step ← planned_semantic_step state mission previous;
    match step with
    | PDict s =>
        _ ← raise_if (negb (py_eq (dget "semantic_step_hash" s) hash)) drift;
        blocker ← validate_semantic_handoff_scope semantic_step_hash step (dget "canonical_handoff" handoff);
        match blocker with Some _ => Err drift | None => Ok tt end
    | _ => Err drift
    end.

Definition resolve_previous_handoff (semantic_step_hash : pyval -> result string) (state attempt : dict) : result (option dict) :=
  rows ← iter_rows "missions" state;
  mission ← only_row "Mission is invalid" (List.filter (fun m => py_eq (dget "mission_id" m) (dget "mission_id" attempt)) (dicts_of rows));
  previous ← previous_step mission attempt;
  match previous with
  | None => Ok None
  | Some previous =>
      before ← succeeded_attempt state attempt previous;
      reply ← validated_reply state attempt before;
      handoff ← recorded_handoff state attempt before reply;
      _ ← raise_if (negb (same_field "canonical_handoff" reply handoff)) (ServiceError "previous Worker handoff content drift");
      _ ← check_semantic semantic_step_hash state mission previous before reply handoff;
      match validate_canonical_handoff (dget "canonical_handoff" reply) (dget "dispatch_key" before) with
      | Ok h => Ok (Some (compact h))
      | Err e => if type_or_value e then handoff_error "content is invalid" else Err e
      end
  end.

(** ** What the document says, without the functions that read it *)

(** A row of a table; one of the Mission. *)
Definition in_table (table : string) (state d : dict) : Prop :=
  exists rows, AgentProtocol.rows_of table state = PList rows /\ PDict d ∈ rows.
Definition of_mission (table : string) (state mission d : dict) : Prop :=
  in_table table state d /\ py_eq (dget "mission_id" d) (dget "mission_id" mission) = true.

(** The frozen steps and the step at the Mission's cursor. *)
Record at_cursor (mission : dict) (sc : scope) : Prop := {
  ac_snapshot : dget "execution_snapshot" mission = PDict (sc_snapshot sc);
  ac_steps : exists frozen, dget "mission" (sc_snapshot sc) = PDict frozen /\ dget "steps" frozen = PList (sc_steps sc);
  ac_cursor : dlookup "current_step" mission = Some (PInt (Z.of_nat (sc_cursor sc)))
              \/ dlookup "current_step" mission = None /\ sc_cursor sc = 0;
  ac_bound : sc_cursor sc <= length (sc_steps sc);
  ac_step : sc_steps sc !! sc_cursor sc = PDict <$> sc_step sc
}.

(** The active attempts of the Mission, and the attempt its one recovery record
    binds, if that is of the step. *)
Record bound_to (state mission : dict) (step : option dict) (ln : lineage) : Prop := {
  bt_active : forall a, a ∈ ln_active ln <-> of_mission "mission_attempts" state mission a
                /\ exists s, dget "state" a = PStr s /\ s ∈ ["prepared"; "admitting"; "submitted"; "running"];
  bt_one : length (ln_active ln) <= 1;
  bt_binding : exists b, of_mission "mission_recovery_evidence" state mission b
    /\ (forall b', of_mission "mission_recovery_evidence" state mission b' -> b' = b)
    /\ match ln_current ln with
       | Some a => of_mission "mission_attempts" state mission a /\ py_eq (dget "attempt_id" a) (dget "attempt_id" b) = true
           /\ (forall a', of_mission "mission_attempts" state mission a' -> py_eq (dget "attempt_id" a') (dget "attempt_id" b) = true -> a' = a)
           /\ dget "attempt_id" b <> PNone /\ exists s, step = Some s /\ py_eq (dget "step_id" a) (dget "step_id" s) = true
       | None => dget "attempt_id" b = PNone
           \/ exists a, of_mission "mission_attempts" state mission a /\ py_eq (dget "attempt_id" a) (dget "attempt_id" b) = true
                /\ forall s, step = Some s -> py_eq (dget "step_id" a) (dget "step_id" s) = false
       end
}.

(** The conversation's history is accepted and hands the Worker to nobody else. *)
Definition agentdeck_owns (state : dict) (agent_id : string) : Prop :=
  exists p, validate_conversation_history (conversation_base state) (AgentProtocol.rows_of "conversation_state_transitions" state) = Ok p
    /\ (pj_states p !! (Ownership, agent_id) = None \/ pj_states p !! (Ownership, agent_id) = Some "agentdeck_owned").

(** The configured agent is the one frozen for the step. *)
Record frozen_agent (config : ProjectConfig) (snapshot step : dict) (agent : AgentSpec) : Prop := {
  fa_configured : agent ∈ cf_agents config;
  fa_step : dget "agent_id" step = PStr (ag_agent_id agent);
  fa_worker : exists workers worker identity, dget "workers" snapshot = PList workers /\ PDict worker ∈ workers
    /\ dget "agent_id" worker = PStr (ag_agent_id agent) /\ dget "configured_transport" worker = PStr (ag_transport agent)
    /\ dget "provider" worker = PStr (ag_provider agent) /\ dget "role" worker = PStr (ag_role agent)
    /\ dget "workspace_mode" worker = PStr (ag_workspace_mode agent)
    /\ dget "runtime_identity_hash" worker = PStr identity
    /\ canonical_snapshot_hash (PDict
         [("command", PStr (ag_command agent)); ("transport_command", PList (PStr <$> ag_transport_command agent));
          ("role_prompt", PStr (ag_role_prompt agent));
          ("runtime", PDict [("backend", PStr (rt_backend (cf_runtime config))); ("session_name", PStr (rt_session_name (cf_runtime config)));
                             ("socket_name", PStr (rt_socket_name (cf_runtime config)))])]) = Ok identity
}.

(** The transport of the step: the frozen one, or that of its one reroute. *)
Definition step_transport (state mission step : dict) (agent : AgentSpec) (transport : string) : Prop :=
  exists records, AgentProtocol.rows_of "mission_transport_reroutes" state = PList records
    /\ let mine := List.filter (fun r => py_eq (dget "mission_id" r) (PStr (text_of (dget "mission_id" mission)))
                                         && py_eq (dget "step_id" r) (PStr (py_str (dget "step_id" step)))) (dicts_of records) in
       mine = [] /\ transport = ag_transport agent
       \/ exists r, mine = [r] /\ dget "agent_id" r = PStr (ag_agent_id agent) /\ dget "from_transport" r = PStr (ag_transport agent)
                    /\ dget "to_transport" r = PStr transport /\ transport <> ag_transport agent.

(** The command of an ACP Worker is there; the pane of a tmux Worker is bound,
    running and, unless an attempt is past its preparation, answers as ready. *)
Definition can_take (pw : probe_world) (state : dict) (probe : bool) (current : option dict) (agent : AgentSpec) (transport : string) : Prop :=
  if String.eqb transport "acp" then
    exists command rest, ag_transport_command agent = command :: rest /\ command <> "" /\ (probe = true -> pw_command pw command = Ok true)
  else
    exists bindings r pane, dget "agents" state = PDict bindings /\ dget (ag_agent_id agent) bindings = PDict r
      /\ dget "status" r = PStr "running" /\ dget "pane_id" r = PStr pane
      /\ forall backend, probe = true -> pw_backend pw = Some backend ->
            match current with Some a => dget "state" a = PStr "prepared" | None => True end ->
            be_pane_exists backend pane = Ok true
            /\ exists output reason, be_capture_output backend pane = Ok output
                 /\ pw_classify pw (ag_provider agent) output = Ok ("ready", reason).

Definition ready_worker (pw : probe_world) (state : dict) (config : option ProjectConfig) (probe : bool) (mission snapshot step : dict)
    (current : option dict) : Prop :=
  exists cfg agent transport, config = Some cfg /\ frozen_agent cfg snapshot step agent /\ step_transport state mission step agent transport
    /\ can_take pw state probe current agent transport.

(** *** Permissions *)

(** Where the permission of a binding stands: its one request and the request's
    session, of the attempt's agent; its decision, if there is one, in the
    ledger; and its place among the requests. *)
Record stands (state a b : dict) (d : derived) : Prop := {
  st_request : exists requests p, AgentProtocol.rows_of "permission_requests" state = PList requests
    /\ List.filter (fun r => py_eq (dget "permission_id" r) (dget "permission_id" b)) (dicts_of requests) = [p]
    /\ dget "status" p = PStr "pending"
    /\ exists sessions s, AgentProtocol.rows_of "agent_sessions" state = PList sessions
         /\ List.filter (fun r => py_eq (dget "session_id" r) (dget "session_id" p)) (dicts_of sessions) = [s]
         /\ py_eq (dget "agent_id" s) (dget "agent_id" a) = true;
  st_decision : exists transitions, AgentProtocol.rows_of "protocol_state_transitions" state = PList transitions
    /\ let mine := List.filter (fun t => py_eq (dget "entity_type" t) (PStr "permission") && py_eq (dget "entity_id" t) (dget "permission_id" b))
                      (dicts_of transitions) in
       mine = [] /\ dv_state d = "pending"
       \/ exists t, mine = [t] /\ dget "from_state" t = PStr "pending" /\ dget "to_state" t = PStr (dv_state d)
                    /\ dv_state d ∈ ["approved"; "denied"; "expired"];
  st_place : exists updates, AgentProtocol.rows_of "transport_updates" state = PList updates
    /\ let asked := omap (fun u => match dget "payload" u, dget "sequence" u with
                                    | PDict p, PInt z => if py_eq (dget "kind" u) (PStr "permission_request")
                                                            && py_eq (dget "permission_id" p) (dget "permission_id" b) then Some z else None
                                    | _, _ => None
                                    end) (dicts_of updates) in
       (dv_bound d = true /\ asked = [dv_sequence d] \/ dv_bound d = false /\ dv_sequence d = (-1)%Z /\ length asked <> 1)
}.

(** No later: not in the order of the requests, those without a place first. *)
Definition no_later (d d' : derived) : Prop :=
  (dv_bound d = true -> dv_bound d' = true) /\ (dv_bound d = dv_bound d' -> (dv_sequence d <= dv_sequence d')%Z).

(** No permission of the attempt is open: none was asked, or the last one asked
    was approved. *)
Definition no_permission_open (state : dict) (current : option dict) : Prop :=
  match current with
  | None => True
  | Some a =>
      exists rows, AgentProtocol.rows_of "mission_permission_bindings" state = PList rows
        /\ let mine := List.filter (fun b => py_eq (dget "attempt_id" b) (dget "attempt_id" a)) (dicts_of rows) in
           mine = []
           \/ Forall (fun b => py_eq (dget "mission_id" b) (dget "mission_id" a) = true) mine
             /\ exists b d, b ∈ mine /\ stands state a b d /\ dv_state d = "approved"
                  /\ forall b', b' ∈ mine -> exists d', stands state a b' d' /\ no_later d' d
  end.

(** The last row of the table about the attempt has one of the states; none
    counts as the state none. *)
Definition latest_is (state : dict) (table : string) (current : option dict) (states : list string) : Prop :=
  exists rows, iter_rows table state = Ok rows
    /\ match (match current with
              | None => None
              | Some a => last (List.filter (fun d => py_eq (dget "attempt_id" d) (dget "attempt_id" a)) (dicts_of rows))
              end) with
       | None => "none" ∈ states
       | Some d => exists s, dget "state" d = PStr s /\ s ∈ states
       end.

Lemma filterR_spec {A} (f : A -> result bool) l r x : filterR f l = Ok r -> x ∈ r <-> x ∈ l /\ f x = Ok true.
Proof.
  revert r. induction l as [|y l IH]; intros r; cbn [filterR].
  - intros [= <-]. split; [by intros ?%elem_of_nil|by intros [?%elem_of_nil _]].
  - intros (b & Hb & (s & Hs & [= <-])%bind_Ok)%bind_Ok. specialize (IH s Hs). destruct b; rewrite ?elem_of_cons, IH; naive_solver congruence.
Qed.

Lemma iter_rows_in table state rows d : iter_rows table state = Ok rows -> d ∈ dicts_of rows <-> in_table table state d.
Proof.
  unfold iter_rows, iter_table, in_table. intros Hr. rewrite elem_of_dicts_of.
  assert (Hs : forall l, PDict d ∉ PStr <$> l) by (intros l0 (x & [=] & _)%list_elem_of_fmap).
  destruct (AgentProtocol.rows_of table state); cbn [py_iter] in Hr; try done; injection Hr as <-;
    first [by split; [intros; eexists; split; [reflexivity|done]|intros (? & [= <-] & ?)]
          | split; [by intros ?%Hs|by intros (? & [=] & _)]].
Qed.

Lemma mission_rows_of table state mission rows d : mission_rows table state mission = Ok rows ->
  d ∈ rows <-> of_mission table state mission d.
Proof.
  unfold mission_rows, of_mission. intros (all & Hall & H)%bind_Ok. rewrite <- (iter_rows_in _ _ _ _ Hall). clear Hall. revert rows H.
  induction (dicts_of all) as [|x l IH]; intros rows; cbn [filterR].
  - intros [= <-]. split; [by intros ?%elem_of_nil|by intros [?%elem_of_nil _]].
  - intros (b & Hb & (r & Hr & [= <-])%bind_Ok)%bind_Ok. specialize (IH r Hr). apply bind_Ok in Hb as (v & Hv & [= <-]).
    assert (v = dget "mission_id" mission) as ->.
    { unfold subscript in Hv. unfold dget. by destruct (dlookup "mission_id" mission); [injection Hv|]. }
    destruct (py_eq (dget "mission_id" x) (dget "mission_id" mission)) eqn:E; rewrite ?elem_of_cons, IH; [|]; split; naive_solver congruence.
Qed.

Lemma scope_at_cursor mission sc : scheduled_scope mission = Ok sc -> at_cursor mission sc.
Proof.
  unfold scheduled_scope. intros (snapshot & Hsn & H)%bind_Ok. apply bind_Ok in H as (frozen & Hfr & H). apply bind_Ok in H as (steps & Hst & H).
  apply bind_Ok in H as (cursor & Hc & H). apply bind_Ok in H as (step & Hstep & [= <-]).
  assert (Hd : forall e v d, dict_or e v = Ok d -> v = PDict d) by (intros e v d; destruct v; try done; by intros [= ->]).
  apply Hd in Hsn, Hfr. assert (Hl : dget "steps" frozen = PList steps) by (by destruct (dget "steps" frozen); try done; injection Hst as ->).
  assert (Hcur : (dlookup "current_step" mission = Some (PInt (Z.of_nat cursor)) \/ dlookup "current_step" mission = None /\ cursor = 0)
                 /\ cursor <= length steps).
  { destruct (dlookup "current_step" mission) as [[| |z| | | | |]|]; try done.
    - destruct (z <? 0)%Z eqn:E1; [done|]. destruct (Z.of_nat (length steps) <? z)%Z eqn:E2; [done|]. injection Hc as <-.
      split; [left; f_equal; f_equal|]; lia.
    - injection Hc as <-. split; [by right|lia]. }
  destruct Hcur as [Hcur Hle]. split; cbn [sc_snapshot sc_steps sc_cursor sc_step]; [done|by exists frozen|done|done|].
  destruct (steps !! cursor) as [v|]; [|by injection Hstep as <-]. apply bind_Ok in Hstep as (d & Hv%Hd & [= <-]). by rewrite Hv.
Qed.

Lemma lineage_bound state mission step ln : scheduled_lineage state mission step = Ok ln -> bound_to state mission step ln.
Proof.
  unfold scheduled_lineage. intros (attempts & Hat & H)%bind_Ok. apply bind_Ok in H as (active & Hact & H).
  apply bind_Ok in H as ([] & Hone & H). apply raise_if_Ok, Nat.ltb_ge in Hone. apply bind_Ok in H as (bindings & Hb & H).
  assert (Hactive : forall a, a ∈ active <-> of_mission "mission_attempts" state mission a
                /\ exists s, dget "state" a = PStr s /\ s ∈ ["prepared"; "admitting"; "submitted"; "running"]).
  { intros a. rewrite <- (mission_rows_of _ _ _ _ _ Hat). rewrite (filterR_spec _ _ _ _ Hact). apply and_iff_compat_l.
    unfold in_str_set. split.
    - destruct (hashable _); [|done]. destruct (dget "state" a); try done. intros [= E]. exists s. split; [done|]. by apply in_strs_spec.
    - intros (s & -> & Hs). change (Ok (in_strs s _MISSION_ATTEMPT_ACTIVE_STATES) = Ok true). f_equal. apply (proj2 (in_strs_spec s _MISSION_ATTEMPT_ACTIVE_STATES)). exact Hs. }
  destruct bindings as [|b [|]]; try done.
  assert (Hbind : of_mission "mission_recovery_evidence" state mission b
                  /\ forall b', of_mission "mission_recovery_evidence" state mission b' -> b' = b).
  { split; [apply (mission_rows_of _ _ _ _ _ Hb); by left|]. intros b' Hb'. apply (mission_rows_of _ _ _ _ _ Hb) in Hb'.
    by apply list_elem_of_singleton in Hb'. }
  destruct Hbind as [Hb1 Hb2].
  assert (Hin : forall x, x ∈ attempts_with (dget "attempt_id" b) attempts <->
                of_mission "mission_attempts" state mission x /\ py_eq (dget "attempt_id" x) (dget "attempt_id" b) = true).
  { intros x. rewrite <- (mission_rows_of _ _ _ _ _ Hat). unfold attempts_with. rewrite list_elem_of_In, filter_In. by rewrite list_elem_of_In. }
  destruct (decide (dget "attempt_id" b = PNone)) as [Hn|Hn].
  { rewrite Hn in H. injection H as <-. split; [done..|]. exists b. split_and!; [done..|]. by left. }
  assert (H' : match attempts_with (dget "attempt_id" b) attempts with
               | [current] => Ok (Lineage active (if match step with Some s => py_eq (dget "step_id" current) (dget "step_id" s) | None => false end
                                                  then Some current else None)) = Ok ln
               | _ => False
               end).
  { destruct (attempts_with _ _) as [|c [|]], (dget "attempt_id" b); try done. }
  destruct (attempts_with _ _) as [|c [|]] eqn:Ec; try done. injection H' as <-.
  assert (Hc : of_mission "mission_attempts" state mission c /\ py_eq (dget "attempt_id" c) (dget "attempt_id" b) = true) by (apply Hin; by left).
  destruct Hc as [Hc1 Hc2]. split; [done..|]. exists b. split; [done|]. split; [done|]. cbn [ln_current].
  destruct step as [s|]; [destruct (py_eq (dget "step_id" c) (dget "step_id" s)) eqn:Es|].
  - split_and!; [done..| |done|by exists s]. intros a' Ha' He. by apply list_elem_of_singleton, Hin.
  - right. exists c. split_and!; [done..|]. by intros ? [= <-].
  - right. exists c. by split_and!.
Qed.

Lemma ownership_owned state agent_id : _worker_ownership_state state agent_id = Ok "agentdeck_owned" -> agentdeck_owns state agent_id.
Proof.
  unfold _worker_ownership_state. intros (p & Hp & [= H])%bind_Ok. exists p. split; [done|]. unfold ownership_of in H.
  destruct (pj_states p !! (Ownership, agent_id)); cbn in H; [right; by f_equal|by left].
Qed.

Lemma configured_frozen config snapshot step cfg agent worker : configured_worker config snapshot step = Ok (cfg, agent, worker) ->
  config = Some cfg /\ frozen_agent cfg snapshot step agent.
Proof.
  unfold configured_worker. destruct config as [c|]; [|done]. destruct (find_first _ (cf_agents c)) as [ag|] eqn:Ea; [|done].
  intros (workers & Hw & H)%bind_Ok. destruct (find_first _ (dicts_of workers)) as [wk|] eqn:Ew; [|done].
  apply bind_Ok in H as ([] & Hg & H). apply bind_Ok in H as (identity & Hid & H). apply bind_Ok in H as ([] & Hg2 & [= -> -> ->]).
  apply raise_if_Ok in Hg, Hg2. apply negb_false_iff, is_row_PStr in Hg2. split_guards.
  apply find_first_Some in Ea as [Ha1 Ha2]. apply find_first_Some in Ew as [Hw1 Hw2]. apply is_row_PStr in Hw2.
  split; [done|]. split; [done| |].
  - destruct (dget "agent_id" step); try done. cbn in Ha2. apply String.eqb_eq in Ha2. by rewrite Ha2.
  - assert (Hin : in_table "workers" snapshot worker) by (by eapply (iter_rows_in "workers" snapshot)).
    destruct Hin as (rows & Hrows & Hin). exists rows, worker, identity.
    assert (Hd : dget "workers" snapshot = PList rows).
    { unfold AgentProtocol.rows_of in Hrows. unfold dget. destruct (dlookup "workers" snapshot); [done|]. injection Hrows as <-.
      by apply elem_of_nil in Hin. }
    unfold worker_runtime_identity_hash in Hid. split_and!; try done; by apply is_row_PStr.
Qed.

Lemma effective_step state mission step agent transport :
  effective_transport_for_step state (text_of (dget "mission_id" mission)) (py_str (dget "step_id" step)) (ag_agent_id agent) (ag_transport agent)
    = Ok transport -> step_transport state mission step agent transport.
Proof.
  unfold effective_transport_for_step, step_transport. intros ([] & _ & H)%bind_Ok. fold (AgentProtocol.rows_of "mission_transport_reroutes" state) in H.
  destruct (AgentProtocol.rows_of "mission_transport_reroutes" state) as [| | | | |records| |]; try done. apply bind_Ok in H as ([] & _ & H). exists records.
  split; [done|]. cbn zeta. destruct (List.filter _ _) as [|r [|]]; [left; by injection H as <-| |done]. right. exists r.
  apply bind_Ok in H as ([] & Hc & [= <-]). unfold check_reroute in Hc. apply bind_Ok in Hc as ([] & Hg & Hc). apply bind_Ok in Hc as (known & Hk & Hc).
  apply bind_Ok in Hc as ([] & Hg2 & _). apply raise_if_Ok in Hg, Hg2. split_guards.
  unfold in_str_set in Hk. destruct (hashable _); [|done]. destruct (dget "to_transport" r) as [| | | |t| | |]; try (injection Hk as <-; done).
  split_and!; [done|by apply py_eq_str|by apply py_eq_str|done|]. cbn [text_of]. intros ->. cbn in *. by rewrite String.eqb_refl in *.
Qed.

Lemma probe_ready pw backend agent pane blocker : probe_tmux_worker_readiness pw backend agent pane = (true, blocker) ->
  be_pane_exists backend pane = Ok true
  /\ exists output reason, be_capture_output backend pane = Ok output /\ pw_classify pw (ag_provider agent) output = Ok ("ready", reason).
Proof.
  unfold probe_tmux_worker_readiness. destruct (be_pane_exists backend pane) as [[]|]; cbn [mbind result_bind]; try done.
  destruct (be_capture_output backend pane) as [out|]; cbn [mbind result_bind]; [|done].
  destruct (pw_classify pw (ag_provider agent) out) as [[st why]|] eqn:Ec; cbn [mbind result_bind]; [|done].
  destruct (String.eqb st "ready") eqn:E; [|done]. apply String.eqb_eq in E as ->. intros _. split; [done|]. by exists out, why.
Qed.

Lemma readiness_ready pw state mission config snapshot step current probe blocker :
  worker_readiness pw state mission config snapshot step current probe = Ok (true, blocker) ->
  ready_worker pw state config probe mission snapshot step current.
Proof.
  unfold worker_readiness. intros ([[cfg agent] worker] & Hc & H)%bind_Ok. apply configured_frozen in Hc as [-> Hf].
  apply bind_Ok in H as (transport & Ht%effective_step & H). exists cfg, agent, transport. split_and!; [done..|]. unfold can_take.
  destruct (String.eqb transport "acp").
  - apply bind_Ok in H as (ready & Hr & [= -> _]). destruct (ag_transport_command agent) as [|c rest]; [by rewrite andb_false_r in Hr|].
    exists c, rest. split; [done|]. unfold nonempty in Hr. destruct (String.eqb_spec c "") as [->|Hne]; [by rewrite andb_false_r in Hr|].
    split; [done|]. intros ->. done.
  - apply bind_Ok in H as (bindings & Hb & H). apply bind_Ok in H as (rows & _ & H). apply bind_Ok in H as ([] & _ & H).
    set (pane := match dlookup (ag_agent_id agent) bindings with Some (PDict r) => _ | _ => None end) in H.
    destruct pane as [pane_id|] eqn:Ep; [|by apply bind_Ok in H as (? & _ & H)]. subst pane.
    destruct (dlookup (ag_agent_id agent) bindings) as [[| | | | | | |r]|] eqn:Er; try done.
    destruct (dget "pane_id" r) as [| | | |q| | |] eqn:Eq; try done. destruct (is_row "status" "running" r) eqn:Es; [|done]. injection Ep as ->.
    exists bindings, r, pane_id. assert (Hag : dget "agents" state = PDict bindings).
    { unfold dget. destruct (dlookup "agents" state) as [[| | | | | | |]|]; try done; injection Hb as <-; [done|]. by rewrite (eq_refl : dlookup _ [] = None) in Er. }
    split_and!; [done|by unfold dget; rewrite Er|by apply is_row_PStr|done|].
    intros backend -> Hbk Hcur. rewrite Hbk in H. cbn [andb] in H.
    assert (match current with None => true | Some a => state_is "prepared" a end = true) as Hp.
    { destruct current as [a|]; [|done]. unfold state_is. by rewrite Hcur. }
    rewrite Hp in H. destruct (probe_tmux_worker_readiness pw backend agent pane_id) as [ready bl] eqn:E. injection H as -> _.
    by eapply probe_ready.
Qed.

Lemma permission_rows name state rows : permission_records name state = Ok rows -> AgentProtocol.rows_of name state = PList rows.
Proof. unfold permission_records. destruct (AgentProtocol.rows_of name state); try done. by intros [= ->]. Qed.

#[local] Notation about_id id := (fun t => py_eq (dget "entity_type" t) (PStr "permission") && py_eq (dget "entity_id" t) id).
Lemma decided_stays id current rows final : current <> "pending" -> foldM (permission_after id) current rows = Ok final ->
  final = current /\ List.filter (about_id id) (dicts_of rows) = [].
Proof.
  intros Hne. induction rows as [|v rows IH]; cbn [foldM]; [by intros [= <-]|]. intros (c1 & H1 & H2)%bind_Ok.
  destruct v as [| | | | | | |t]; try (injection H1 as <-; by apply IH). cbn [permission_after] in H1. rewrite dicts_of_cons. cbn [List.filter].
  unfold is_row in H1. destruct (_ && _); [|injection H1 as <-; by apply IH]. apply bind_Ok in H1 as ([] & Hg & _). apply raise_if_Ok in Hg.
  apply orb_false_iff in Hg as [_ Hg]. apply negb_false_iff, String.eqb_eq in Hg. done.
Qed.

Lemma pending_decided id rows final : foldM (permission_after id) "pending" rows = Ok final ->
  let mine := List.filter (about_id id) (dicts_of rows) in
  mine = [] /\ final = "pending"
  \/ exists t, mine = [t] /\ dget "from_state" t = PStr "pending" /\ dget "to_state" t = PStr final /\ final ∈ ["approved"; "denied"; "expired"].
Proof.
  cbn zeta. induction rows as [|v rows IH]; cbn [foldM]; [intros [= <-]; by left|]. intros (c1 & H1 & H2)%bind_Ok.
  destruct v as [| | | | | | |t]; try (injection H1 as <-; by apply IH). cbn [permission_after] in H1. rewrite dicts_of_cons. cbn [List.filter].
  unfold is_row in H1. destruct (_ && _); [|injection H1 as <-; by apply IH]. apply bind_Ok in H1 as ([] & Hg & H1). apply raise_if_Ok in Hg.
  apply orb_false_iff in Hg as [Hg _]. apply negb_false_iff, py_eq_str in Hg. apply bind_Ok in H1 as (known & Hk & H1).
  apply bind_Ok in H1 as ([] & Hkn & [= <-]). apply raise_if_Ok, negb_false_iff in Hkn. subst known.
  unfold in_str_set in Hk. destruct (hashable _); [|done]. destruct (dget "to_state" t) as [| | | |to| | |] eqn:Eto; try done. injection Hk as Hk.
  change (in_strs to ["approved"; "denied"; "expired"] = true) in Hk. apply in_strs_spec in Hk. cbn [text_of] in H2. apply decided_stays in H2 as [-> ->]; [right; by exists t|].
  intros ->. clear -Hk. set_solver.
Qed.

Lemma derived_stands state a b d : derive_permission state a b = Ok d -> stands state a b d.
Proof.
  unfold derive_permission. intros (requests & Hr%permission_rows & H)%bind_Ok. destruct (List.filter _ (dicts_of requests)) as [|p [|]] eqn:Ep; try done.
  apply bind_Ok in H as (sessions & Hs%permission_rows & H). destruct (List.filter _ (dicts_of sessions)) as [|s [|]] eqn:Es; try done.
  apply bind_Ok in H as ([] & Hag & H). apply bind_Ok in H as ([] & Hpe & H). apply raise_if_Ok, negb_false_iff in Hag, Hpe.
  apply is_row_PStr in Hpe. apply bind_Ok in H as (transitions & Ht%permission_rows & H). apply bind_Ok in H as (current & Hc%pending_decided & H).
  apply bind_Ok in H as (updates & Hu%permission_rows & H).
  assert (Hd : dv_state d = current /\ (dv_bound d = true /\ request_sequences (dget "permission_id" b) updates = [dv_sequence d]
               \/ dv_bound d = false /\ dv_sequence d = (-1)%Z /\ length (request_sequences (dget "permission_id" b) updates) <> 1)).
  { destruct (request_sequences _ updates) as [|z [|]]; injection H as <-; cbn; split; auto. }
  destruct Hd as [<- Hplace]. split.
  - exists requests, p. split_and!; [done..|]. exists sessions, s. by split_and!.
  - exists transitions. by split.
  - exists updates. by split.
Qed.

Lemma no_later_trans a b c : no_later a b -> no_later b c -> no_later a c.
Proof.
  intros [H1 H2] [H3 H4]. split; [auto|]. intros E. destruct (dv_bound a) eqn:Ea, (dv_bound b) eqn:Eb, (dv_bound c) eqn:Ec; try done;
    try (specialize (H1 eq_refl)); try (specialize (H3 eq_refl)); try done; specialize (H2 eq_refl); specialize (H4 eq_refl); lia.
Qed.
Lemma greatest_no_later ds best : let g := foldl (fun best e => if derived_lt e best then best else e) best ds in
  g ∈ best :: ds /\ forall d, d ∈ best :: ds -> no_later d g.
Proof.
  revert best. induction ds as [|e ds IH]; intros best; cbn zeta; cbn [foldl].
  { split; [by left|]. intros d ->%list_elem_of_singleton. by split. }
  set (nb := if derived_lt e best then best else e). destruct (IH nb) as [Hin Hall].
  assert (Hnb : no_later best nb /\ no_later e nb /\ (nb = best \/ nb = e)).
  { unfold nb, derived_lt, no_later. destruct (dv_bound e) eqn:Ee, (dv_bound best) eqn:Eb; cbn [negb andb orb Bool.eqb];
      try (case_match eqn:Hlt); rewrite ?Ee, ?Eb; split_and!; auto; try done; intros _; try lia;
      apply orb_true_iff in Hlt as [Hlt|[Hlt _]%andb_true_iff] || apply orb_false_iff in Hlt as [Hlt _]; lia. }
  destruct Hnb as (Hb & He & Hor). split.
  - apply elem_of_cons in Hin as [Hin|Hin]; [|by right; right]. rewrite Hin. destruct Hor as [->| ->]; [by left|by right; left].
  - intros d [->|[->|Hd]%elem_of_cons]%elem_of_cons; [eapply no_later_trans; [exact Hb|]|eapply no_later_trans; [exact He|]|]; apply Hall;
      [by left|by left|by right].
Qed.

Lemma permission_not_open state current p : permission_state_for_attempt state current = Ok p -> p = "none" \/ p = "approved" ->
  no_permission_open state current.
Proof.
  unfold permission_state_for_attempt, no_permission_open. destruct current as [a|]; [|done]. intros (rows & Hr%permission_rows & H)%bind_Ok Hp.
  exists rows. split; [done|]. cbn zeta. destruct (List.filter _ (dicts_of rows)) as [|b bs] eqn:Eb; [by left|]. right.
  apply bind_Ok in H as ([] & Hm & H). apply raise_if_Ok in Hm. split.
  { apply Forall_forall. intros x Hx. destruct (py_eq _ _) eqn:E; [done|]. rewrite existsb_elem_false in Hm. specialize (Hm x Hx). by rewrite E in Hm. }
  apply bind_Ok in H as (ds & Hds & [= <-]). apply mapR_Ok in Hds. inversion Hds as [|? d0 ? ds' Hd0 Hds' E1 E2]; subst.
  destruct (greatest_no_later ds' d0) as [Hin Hall]. set (g := foldl _ d0 ds') in *. apply list_elem_of_lookup in Hin as [i Hi].
  destruct (Forall2_lookup_r _ _ _ _ _ Hds Hi) as (bi & Hbi & Hdi). exists bi, g. pose proof (derived_stands _ _ _ _ Hdi) as Hst.
  split_and!; [by eapply list_elem_of_lookup_2|done| |].
  - destruct Hp as [Hp|Hp]; [|done]. exfalso. destruct (st_decision _ _ _ _ Hst) as (ts & _ & [[_ E]|(t & _ & _ & _ & E)]); rewrite Hp in E; [done|].
    clear -E. set_solver.
  - intros b' Hb'. apply list_elem_of_lookup in Hb' as [j Hj]. destruct (Forall2_lookup_l _ _ _ _ _ Hds Hj) as (d' & Hd' & Hdd').
    exists d'. split; [by apply derived_stands|]. apply Hall. by eapply list_elem_of_lookup_2.
Qed.
(** ** What the facts say of the document *)

Definition mission_row (state mission : dict) : Prop := in_table "missions" state mission.

(** The Mission, the step at its cursor and the attempt the facts are about. *)
Record reading (pw : probe_world) (state : dict) (config : option ProjectConfig) (probe : bool) (mission : dict) (sc : scope) (ln : lineage)
    (f : SchedulerFacts) : Prop := {
  rd_scheduled : exists terminal, scheduled_mission state terminal = Ok (Some mission);
  rd_mission : mission_row state mission;
  rd_admitted : admitted_row mission = true;
  rd_scope : scheduled_scope mission = Ok sc;
  rd_lineage : scheduled_lineage state mission (sc_step sc) = Ok ln;
  rd_id : dget "mission_id" mission = text_or_none (f_mission_id f);
  rd_status : parse_state Scheduler.MISSION_STATES (dget "status" mission) = Ok (mission_state f);
  rd_step : match sc_step sc with Some s => dget "step_id" s | None => PNone end = text_or_none (f_step_id f);
  rd_step_state : step_state f = match sc_step sc, ln_current ln with None, _ => StNone | Some _, None => StPending | Some _, Some _ => StActive end;
  rd_attempt : get_of "attempt_id" (ln_current ln) = text_or_none (f_attempt_id f);
  rd_attempt_state : match ln_current ln with
                     | None => attempt_state f = ANone
                     | Some a => parse_state Scheduler.ATTEMPT_STATES (dget "state" a) = Ok (attempt_state f)
                     end;
  rd_reply : exists rows, attempt_rows "mission_worker_replies" state (ln_current ln) = Ok rows
    /\ parse_state Scheduler.REPLY_STATES (last_state rows) = Ok (reply_state f);
  rd_handoff : exists rows, attempt_rows "mission_handoffs" state (ln_current ln) = Ok rows
    /\ parse_state Scheduler.HANDOFF_STATES (last_state rows) = Ok (handoff_state f);
  rd_permission : exists p, permission_state_for_attempt state (ln_current ln) = Ok p
    /\ parse_state Scheduler.PERMISSION_STATES (PStr p) = Ok (permission_state f);
  rd_ready : match sc_step sc with
             | None => worker_ready f = true
             | Some step => exists r, readiness_or_drift (worker_readiness pw state mission config (sc_snapshot sc) step (ln_current ln) probe) = Ok r
                                      /\ worker_ready f = r.1 /\ (truthy r.2 = true -> f_blocker f <> None)
             end;
  rd_completed : all_steps_completed f = Nat.eqb (sc_cursor sc) (length (sc_steps sc));
  rd_snapshot : snapshot_state f = if py_eq (dget "snapshot_hash" mission) (dget "execution_hash" (sc_snapshot sc)) then SnValid else SnDrift;
  rd_owned : ownership_state f = Owned -> match sc_step sc with
             | None => True
             | Some s => _worker_ownership_state state (py_str (dget "agent_id" s)) = Ok "agentdeck_owned"
             end;
  rd_active : active_attempt_count f = Z.of_nat (length (ln_active ln));
  rd_facts : Scheduler.facts_ok f
}.

Lemma post_init_ok d f : post_init d = Ok f -> Scheduler.facts_ok f.
Proof.
  unfold post_init. intros H. repeat (apply bind_Ok in H as (? & ? & H)).
  injection H as <-. split; cbn [active_attempt_count f_blocker f_mission_id f_step_id f_attempt_id];
    [eauto using parse_count_Ok|eauto using parse_blocker_Ok|eauto using optional_identity_Ok..|by match goal with u : () |- _ => destruct u end].
Qed.

Lemma optional_identity_text v p l o : _optional_identity v p l = Ok o -> v = text_or_none o.
Proof. destruct v; cbn; try done; [by intros [= <-]|]. destruct (p s); [|done]. by intros [= <-]. Qed.

Lemma filterR_elem {A} (f : A -> result bool) l r x : filterR f l = Ok r -> x ∈ r -> x ∈ l /\ f x = Ok true.
Proof.
  revert r. induction l as [|y l IH]; intros r; cbn [filterR]; [by intros [= <-] ?%elem_of_nil|].
  intros (b & Hb & (s & Hs & [= <-])%bind_Ok)%bind_Ok Hx. destruct b; [apply elem_of_cons in Hx as [->|Hx]|].
  - split; [by left|done].
  - destruct (IH s Hs Hx). split; [by right|done].
  - destruct (IH s Hs Hx). split; [by right|done].
Qed.

Lemma admitted_missions_Ok ended state l m : admitted_missions ended state = Ok l -> m ∈ l ->
  mission_row state m
  /\ admitted_row m = true /\ in_str_set (dget "status" m) ENDED_MISSIONS = Ok ended.
Proof.
  unfold admitted_missions. intros (rows & Hr & H)%bind_Ok Hm. destruct (filterR_elem _ _ _ _ H Hm) as [Hin Hf].
  apply bind_Ok in Hf as (over & Ho & [= He%andb_true_iff]). destruct He as [He Ha]. apply eqb_prop in He. subst over.
  split; [|done]. by apply (iter_rows_in _ _ _ _ Hr).
Qed.

Lemma scheduled_mission_Ok state terminal m : scheduled_mission state terminal = Ok (Some m) ->
  mission_row state m /\ admitted_row m = true
  /\ (terminal = false -> in_str_set (dget "status" m) ENDED_MISSIONS = Ok false).
Proof.
  unfold scheduled_mission. intros (active & Ha & (over & Ho & H)%bind_Ok)%bind_Ok.
  assert (Hcase : m ∈ active \/ terminal = true /\ m ∈ over).
  { destruct active as [|a [|]]; [|by injection H as <-; left; left|done]. destruct terminal; cbn [negb] in H; [|done].
    destruct (last over) as [o|] eqn:El; [|done]. injection H as <-. right. split; [done|]. by apply last_Some_elem_of. }
  destruct Hcase as [Hm|[-> Hm]].
  - destruct (admitted_missions_Ok _ _ _ _ Ha Hm) as (H1 & H2 & H3). by split_and!.
  - destruct (admitted_missions_Ok _ _ _ _ Ho Hm) as (H1 & H2 & _). by split_and!.
Qed.

Lemma py_or_truthy a b c d : truthy c = true -> truthy (py_or a (py_or b (py_or c d))) = true.
Proof. intros Hc. unfold py_or. destruct (truthy a) eqn:Ea; [done|]. destruct (truthy b) eqn:Eb; [done|]. by rewrite Hc. Qed.

Lemma dget_cons' k k' v (d : dict) : dget k ((k', v) :: d) = if String.eqb k k' then v else dget k d.
Proof. unfold dget. cbn [dlookup]. by destruct (String.eqb k k'). Qed.
Lemma parse_blocker_None v : parse_blocker v = Ok None -> v = PNone.
Proof. destruct v; cbn; try done. by destruct (blank s). Qed.

Lemma facts_reading pw state config probe terminal f : scheduler_facts_from_state pw state config probe terminal = Ok (Some f) ->
  exists mission sc ln, reading pw state config probe mission sc ln f
    /\ (terminal = false -> in_str_set (dget "status" mission) ENDED_MISSIONS = Ok false).
Proof.
  unfold scheduler_facts_from_state. intros (scheduled & Hsch & H)%bind_Ok. destruct scheduled as [mission|]; [|done].
  pose proof Hsch as Hsched. apply scheduled_mission_Ok in Hsch as (Hrow & Hadm & Hterm). apply bind_Ok in H as (sc & Hsc & H). apply bind_Ok in H as (ln & Hln & H).
  apply bind_Ok in H as (recovery & _ & H). apply bind_Ok in H as (reconciliation & _ & H). apply bind_Ok in H as (replies & Hrep & H).
  apply bind_Ok in H as (handoffs & Hhand & H). apply bind_Ok in H as (ownership & Hown & H). apply bind_Ok in H as ([ready runtime] & Hready & H).
  apply bind_Ok in H as (facts & Hfacts & H). apply bind_Ok in H as (f' & Hf & [= ->]). exists mission, sc, ln. split; [|done].
  unfold facts_of in Hfacts. apply bind_Ok in Hfacts as (mid & Hmid & Hfacts). apply bind_Ok in Hfacts as (status & Hst & Hfacts).
  apply bind_Ok in Hfacts as (perm & Hperm & [= <-]).
  assert (Hsub : forall k v, subscript k mission = Ok v -> dget k mission = v).
  { intros k v. unfold subscript, dget. destruct (dlookup k mission); [by intros [= ->]|done]. }
  apply Hsub in Hmid, Hst. subst mid status. pose proof (post_init_ok _ _ Hf) as Hok. unfold post_init in Hf.
  repeat (let x := fresh "x" in let E := fresh "E" in apply bind_Ok in Hf as (x & E & Hf)). injection Hf as <-.
  rewrite !dget_cons' in *. cbn [String.eqb Ascii.eqb Bool.eqb] in *.
  injection E8 as <-. injection E9 as <-. injection E10 as <-. cbn [parse_count] in E11. destruct (Z.of_nat _ <? 0)%Z; [done|]. injection E11 as <-.
  split; cbn [f_mission_id mission_state f_step_id step_state f_attempt_id attempt_state reply_state handoff_state permission_state worker_ready
              next_step_eligible all_steps_completed snapshot_state ownership_state active_attempt_count f_blocker].
  - by exists terminal.
  - done.
  - done.
  - done.
  - done.
  - by eapply optional_identity_text.
  - done.
  - rewrite <- (optional_identity_text _ _ _ _ E14). by destruct (sc_step sc).
  - destruct (sc_step sc), (ln_current ln); by injection E0 as <-.
  - by eapply optional_identity_text.
  - destruct (ln_current ln); [done|]. by injection E1 as <-.
  - by exists replies.
  - by exists handoffs.
  - by exists perm.
  - destruct (sc_step sc) as [step|]; [|by injection Hready as <- _]. exists (ready, runtime). split; [done|]. split; [done|]. cbn [snd].
    intros Hr ->. apply parse_blocker_None in E12. pose proof (py_or_truthy reconciliation recovery runtime
      match dget "daemon_admission" mission with PDict a => dget "blocker" a | _ => PNone end Hr) as Ht. by rewrite E12 in Ht.
  - done.
  - destruct (py_eq _ _); by injection E5 as <-.
  - intros ->. destruct (sc_step sc) as [step|]; [|done]. unfold step_ownership in Hown.
    destruct (_worker_ownership_state state _) as [o|e].
    + destruct (String.eqb o "agentdeck_owned") eqn:Eo; [apply String.eqb_eq in Eo; by rewrite Eo|]. injection Hown as <-. by vm_compute in E7.
    + destruct (match e with KeyError _ => _ | _ => _ end); [|done]. injection Hown as <-. by vm_compute in E7.
  - done.
  - done.
Qed.
End facts.

(** ** The scheduler acts on what the document says *)

Lemma parse_state_Ok {A} (states : list (string * A)) v a : parse_state states v = Ok a -> exists s, v = PStr s /\ (s, a) ∈ states.
Proof.
  unfold parse_state. destruct v as [| | | |s| | |]; try done. intros H. exists s. split; [done|].
  assert (Ha : assoc_str s states = Some a) by (by destruct (assoc_str s states) as [b|]; [injection H as ->|]).
  clear H. induction states as [|[k b] states IH]; cbn in Ha; [done|]. destruct (String.eqb s k) eqn:E; [|right; by apply IH].
  apply String.eqb_eq in E. injection Ha as ->. subst k. by left.
Qed.
(** The text a known state was read from. *)
Ltac read_state H Hs :=
  let s := fresh "s" in let Hin := fresh "Hin" in
  apply parse_state_Ok in H as (s & H & Hin);
  repeat (apply elem_of_cons in Hin as [Hin|Hin]; [try discriminate Hin; injection Hin as -> Hs|]); try (by apply elem_of_nil in Hin).

Section decisions.
Context {env : LeaseEnv} {ft : FloatText} {lim : RecursionLimits} {repr : PyRepr}.
Variable (pw : probe_world) (state : dict) (config : option ProjectConfig) (probe : bool).

(** Admitted to the daemon. *)
Definition admitted (m : dict) : Prop := exists a, dget "daemon_admission" m = PDict a /\ dget "state" a = PStr "admitted".
Lemma admitted_spec m : admitted_row m = true <-> admitted m.
Proof.
  unfold admitted_row, admitted. split.
  - destruct (dget "daemon_admission" m) as [| | | | | | |a]; try done. intros H%is_row_PStr. by exists a.
  - intros (a & -> & H). by apply is_row_PStr.
Qed.

Lemma scheduled_only terminal m : scheduled_mission state terminal = Ok (Some m) ->
  (forall s, dget "status" m = PStr s -> s ∉ ENDED_MISSIONS) ->
  forall m' s, in_table "missions" state m' -> admitted m' -> dget "status" m' = PStr s -> s ∉ ENDED_MISSIONS -> m' = m.
Proof.
  unfold scheduled_mission. intros (active & Ha & (over & Ho & H)%bind_Ok)%bind_Ok Hm m' s Hin Had Hs Hne.
  assert (Hin' : m' ∈ active).
  { unfold admitted_missions in Ha. apply bind_Ok in Ha as (rows & Hr & Ha). apply (filterR_spec _ _ _ _ Ha).
    split; [by apply (iter_rows_in _ _ _ _ Hr)|]. rewrite Hs. unfold in_str_set. cbn [hashable mbind result_bind]. f_equal.
    rewrite (proj2 (admitted_spec m') Had), andb_true_r. destruct (in_strs s ENDED_MISSIONS) eqn:E; [|done]. by apply in_strs_spec in E. }
  destruct active as [|a [|]]; [by apply elem_of_nil in Hin'|by injection H as <-; apply list_elem_of_singleton in Hin'|done].
Qed.

(** What an acting decision is about. *)
Record about (d : SchedulerDecision) (mission : dict) (sc : scope) (ln : lineage) : Prop := {
  ab_row : in_table "missions" state mission;
  ab_admitted : admitted mission;
  ab_only : forall m s, in_table "missions" state m -> admitted m -> dget "status" m = PStr s ->
    s ∉ ["completed"; "stopped"; "interrupted"] -> m = mission;
  ab_id : exists m, dget "mission_id" mission = PStr m /\ d_mission_id d = Some m;
  ab_status : dget "status" mission = PStr "preparing" \/ dget "status" mission = PStr "running";
  ab_scope : at_cursor mission sc;
  ab_lineage : bound_to state mission (sc_step sc) ln;
  ab_frozen : py_eq (dget "snapshot_hash" mission) (dget "execution_hash" (sc_snapshot sc)) = true;
  ab_step : get_of "step_id" (sc_step sc) = text_or_none (d_step_id d);
  ab_attempt : get_of "attempt_id" (ln_current ln) = text_or_none (d_attempt_id d);
  ab_owned : forall s, sc_step sc = Some s -> agentdeck_owns state (py_str (dget "agent_id" s))
}.

Definition attempt_is (ln : lineage) (states : list string) : Prop :=
  exists a s, ln_current ln = Some a /\ dget "state" a = PStr s /\ s ∈ states.

(** When each of the acting decisions is taken. *)
#[local] Notation ready m sc ln step := (ready_worker pw state config probe m (sc_snapshot sc) step (ln_current ln)).
Definition fits (k : decision_kind) (mission : dict) (sc : scope) (ln : lineage) : Prop :=
  match k with
  | KStartWorker => (exists step, sc_step sc = Some step) /\ ln_current ln = None /\ ln_active ln = []
  | KPrepareDispatch =>
      (exists step, sc_step sc = Some step /\ ready mission sc ln step) /\ ln_current ln = None /\ ln_active ln = []
  | KDispatchPrepared =>
      (exists step, sc_step sc = Some step /\ ready mission sc ln step) /\ attempt_is ln ["prepared"] /\ length (ln_active ln) = 1
      /\ no_permission_open state (ln_current ln)
  | KAwaitWorker => attempt_is ln ["submitted"; "running"] /\ no_permission_open state (ln_current ln)
  | KValidateReply => attempt_is ln ["completed"; "succeeded"] /\ latest_is state "mission_worker_replies" (ln_current ln) ["received"] /\ no_permission_open state (ln_current ln)
  | KRecordHandoff =>
      attempt_is ln ["completed"; "succeeded"] /\ latest_is state "mission_worker_replies" (ln_current ln) ["validated"]
      /\ latest_is state "mission_handoffs" (ln_current ln) ["none"; "pending"] /\ no_permission_open state (ln_current ln)
  | KActivateNext =>
      attempt_is ln ["completed"; "succeeded"] /\ latest_is state "mission_worker_replies" (ln_current ln) ["validated"]
      /\ latest_is state "mission_handoffs" (ln_current ln) ["recorded"] /\ no_permission_open state (ln_current ln)
  | KCompleteMission => sc_cursor sc = length (sc_steps sc) /\ ln_current ln = None /\ ln_active ln = []
  | _ => True
  end.

Definition acting (k : decision_kind) : Prop :=
  k ∈ [KStartWorker; KPrepareDispatch; KDispatchPrepared; KAwaitWorker; KValidateReply; KRecordHandoff; KActivateNext; KCompleteMission].

Lemma completed_guard f k : guard k f = true -> k <> KStartWorker -> acting k -> clear f = true.
Proof.
  intros Hg Hne Hk. repeat (apply elem_of_cons in Hk as [->|Hk]; [cbn [guard] in Hg; try done; by split_tests Hg|]). by apply elem_of_nil in Hk.
Qed.

Lemma acting_about f d mission sc ln : reading pw state config probe mission sc ln f -> schedule_gate f = Ok d -> acting (kind d) ->
  guard (kind d) f = true /\ about d mission sc ln.
Proof.
  intros Hrd Hd Hk. pose proof (rd_facts _ _ _ _ _ _ _ _ Hrd) as Hok.
  destruct (gate_sound f Hok) as (d' & Hd' & Hc & H1 & H2 & H3 & Hg). rewrite Hd in Hd'. injection Hd' as <-.
  assert (Hne : kind d <> KBlocked). { intros E. rewrite E in Hk. unfold acting in Hk. set_solver. }
  specialize (Hg Hne). split; [done|].
  assert (Hk' : kind d ∈ [KStartWorker; KPrepareDispatch; KDispatchPrepared; KAwaitWorker; KValidateReply; KRecordHandoff; KActivateNext;
                          KCompleteMission; KWaitAmbiguity]) by (unfold acting in Hk; set_solver).
  destruct (guard_integrity f _ Hk' Hg) as [Hi Hl]. unfold integrity in Hi. split_tests Hi.
  destruct Hrd as [R0 R1 R2 R3 R4 R5 R6 R7 R8 R9 R10 R11 R12 R13 R14 R15 R16 R17 R18 R19]. 
  assert (Hstat : dget "status" mission = PStr "preparing" \/ dget "status" mission = PStr "running").
  { unfold live in Hl. apply bool_decide_eq_true in Hl. read_state R6 Hs; rewrite R6; try (exfalso; rewrite Hs in Hl; clear -Hl; set_solver); auto. }
  split.
  - done.
  - by apply admitted_spec.
  - destruct R0 as [terminal R0]. intros m s Hin Had Hs Hns. eapply (scheduled_only terminal mission R0); [|done..].
    intros s' Hs'. clear -Hstat Hs'. destruct Hstat as [E|E]; rewrite E in Hs'; injection Hs' as <-; unfold ENDED_MISSIONS; set_solver.
  - destruct (f_mission_id f) as [m|] eqn:Em; [exists m; by rewrite R5, H1|]. exfalso.
    assert (Hni : mission_state f <> MIdle) by (intros E; unfold live in Hl; by rewrite E in Hl).
    pose proof (ll_mission _ (check_lineage_live f Hni (fo_lineage _ Hok))) as H. by rewrite Em in H.
  - done.
  - by apply scope_at_cursor.
  - by apply lineage_bound.
  - rewrite eqd_true in T0. rewrite R16 in T0. by destruct (py_eq _ _).
  - by rewrite H2.
  - by rewrite H3.
  - intros s Hs. rewrite eqd_true in T1. specialize (R17 T1). rewrite Hs in R17. by apply ownership_owned.
Qed.

Lemma reading_permission f mission sc ln : reading pw state config probe mission sc ln f -> clear f = true -> no_permission_open state (ln_current ln).
Proof.
  intros Hrd Hc. unfold clear in Hc. split_tests Hc. unfold healthy in T0. split_tests T0.
  destruct (rd_permission _ _ _ _ _ _ _ _ Hrd) as (p & Hp & Hst). eapply permission_not_open; [exact Hp|].
  apply bool_decide_eq_false in T6. rewrite eqd_false in T. apply parse_state_Ok in Hst as (s & [= <-] & Hin).
  repeat (apply elem_of_cons in Hin as [[= -> Hs]|Hin]; [rewrite Hs in *; auto; exfalso; set_solver|]). by apply elem_of_nil in Hin.
Qed.

Lemma reading_attempt f mission sc ln a : reading pw state config probe mission sc ln f -> attempt_state f = a -> a <> ANone ->
  exists x s, ln_current ln = Some x /\ dget "state" x = PStr s /\ (s, a) ∈ ATTEMPT_STATES.
Proof.
  intros Hrd Ha Hne. pose proof (rd_attempt_state _ _ _ _ _ _ _ _ Hrd) as H. destruct (ln_current ln) as [x|]; [|congruence].
  apply parse_state_Ok in H as (s & Hs & Hin). exists x, s. by subst a.
Qed.

(** Every text read as [a] is one of the names. *)
Definition named {A} `{EqDecision A} (states : list (string * A)) (a : A) (names : list string) : bool :=
  forallb (fun p => negb (eqd p.2 a) || in_strs p.1 names) states.
Lemma named_spec {A} `{EqDecision A} (states : list (string * A)) a names s : named states a names = true -> (s, a) ∈ states -> s ∈ names.
Proof.
  unfold named. intros H Hin%list_elem_of_In. rewrite forallb_forall in H. specialize (H _ Hin). cbn [fst snd] in H.
  rewrite (proj2 (eqd_true _ _) eq_refl) in H. by apply in_strs_spec in H.
Qed.

Lemma reading_latest {A} table (states : list (string * A)) ln a names :
  (exists rows, attempt_rows table state (ln_current ln) = Ok rows /\ parse_state states (last_state rows) = Ok a) ->
  (forall s, (s, a) ∈ states -> s ∈ names) -> latest_is state table (ln_current ln) names.
Proof.
  intros (rows & Hr & Hp) Hn. apply parse_state_Ok in Hp as (s & Hs & Hin). unfold attempt_rows in Hr. apply bind_Ok in Hr as (all & Hall & [= <-]).
  exists all. split; [done|]. apply Hn in Hin. unfold last_state in Hs. destruct (ln_current ln) as [a'|]; [|by injection Hs as <-].
  destruct (last _) as [d|]; [by exists s|by injection Hs as <-].
Qed.

(** The current attempt is one of the Mission, at the step. *)
Lemma lineage_current mission step ln x : scheduled_lineage state mission step = Ok ln -> ln_current ln = Some x ->
  (exists attempts, mission_rows "mission_attempts" state mission = Ok attempts /\ x ∈ attempts)
  /\ dget "attempt_id" x <> PNone /\ exists s, step = Some s /\ py_eq (dget "step_id" x) (dget "step_id" s) = true.
Proof.
  unfold scheduled_lineage. intros (attempts & Hat & H)%bind_Ok Hx. apply bind_Ok in H as (active & _ & H). apply bind_Ok in H as ([] & _ & H).
  apply bind_Ok in H as (bindings & _ & H). destruct bindings as [|b [|]]; try done.
  destruct (attempts_with (dget "attempt_id" b) attempts) as [|c [|]] eqn:Ea; destruct (dget "attempt_id" b) eqn:Eb; try discriminate H;
    injection H as <-; cbn [ln_current] in Hx; try done.
  all: destruct step as [st|]; [|done]; destruct (py_eq (dget "step_id" c) (dget "step_id" st)) eqn:Es; [|done]; injection Hx as <-.
  all: assert (Hc : c ∈ attempts_with (dget "attempt_id" b) attempts) by (rewrite Eb, Ea; by left).
  all: unfold attempts_with in Hc; apply list_elem_of_In, filter_In in Hc as [Hin%list_elem_of_In Hid]; rewrite Eb in Hid.
  all: split; [by exists attempts|]; split; [intros E; by rewrite E in Hid|by exists st].
Qed.

Lemma reading_none f mission sc ln : reading pw state config probe mission sc ln f -> mission_state f <> MIdle -> attempt_state f = ANone ->
  ln_current ln = None.
Proof.
  intros Hrd Hni Ha. pose proof (rd_facts _ _ _ _ _ _ _ _ Hrd) as Hok. pose proof (rd_attempt _ _ _ _ _ _ _ _ Hrd) as Hat.
  pose proof (proj2 (ll_attempt _ (check_lineage_live f Hni (fo_lineage _ Hok))) Ha) as Hn. rewrite Hn in Hat. cbn in Hat.
  destruct (ln_current ln) as [x|] eqn:Ex; [|done].
  pose proof (lineage_current _ _ _ _ (rd_lineage _ _ _ _ _ _ _ _ Hrd) Ex) as (_ & Hne & _). done.
Qed.

Lemma reading_ready f mission sc ln step : reading pw state config probe mission sc ln f -> sc_step sc = Some step -> worker_ready f = true ->
  ready_worker pw state config probe mission (sc_snapshot sc) step (ln_current ln).
Proof.
  intros Hrd Hs Hr. pose proof (rd_ready _ _ _ _ _ _ _ _ Hrd) as H. rewrite Hs in H. destruct H as ([ready b] & H & Hw & _).
  rewrite Hr in Hw. cbn in Hw. subst ready. unfold readiness_or_drift in H. destruct (worker_readiness _ _ _ _ _ _ _ _) as [[r b']|e] eqn:E.
  - injection H as -> ->. by eapply readiness_ready.
  - by destruct (drifted e).
Qed.

Lemma reading_step f mission sc ln : reading pw state config probe mission sc ln f -> step_state f = StPending \/ ln_current ln <> None ->
  exists step, sc_step sc = Some step.
Proof.
  intros Hrd H. destruct (sc_step sc) as [s|] eqn:Es; [by exists s|]. exfalso. destruct H as [H|H].
  - pose proof (rd_step_state _ _ _ _ _ _ _ _ Hrd) as E. rewrite Es, H in E. by destruct (ln_current ln).
  - destruct (ln_current ln) as [x|] eqn:Ex; [|done].
    destruct (lineage_current _ _ _ _ (rd_lineage _ _ _ _ _ _ _ _ Hrd) Ex) as (_ & _ & s & Hs & _). by rewrite Es in Hs.
Qed.

Lemma reading_fits f mission sc ln k : reading pw state config probe mission sc ln f -> guard k f = true -> acting k -> fits k mission sc ln.
Proof.
  intros Hrd Hg Hk. pose proof (rd_facts _ _ _ _ _ _ _ _ Hrd) as Hok.
  assert (Hk' : k ∈ [KStartWorker; KPrepareDispatch; KDispatchPrepared; KAwaitWorker; KValidateReply; KRecordHandoff; KActivateNext;
                          KCompleteMission; KWaitAmbiguity]) by (unfold acting in Hk; set_solver).
  pose proof (guard_not_idle f k Hk' Hg) as Hni.
  assert (Hperm : k <> KStartWorker -> no_permission_open state (ln_current ln)) by (intros Hne; eapply reading_permission, completed_guard; eauto).
  assert (Hcount : forall b, attempt_in_flight k = Some b -> length (ln_active ln) = if b then 1 else 0).
  { intros b Hb. pose proof (guard_in_flight f k b Hok Hb Hg) as H. rewrite (rd_active _ _ _ _ _ _ _ _ Hrd) in H. destruct b; lia. }
  assert (Hatt : forall names, attempt_state f <> ANone -> named ATTEMPT_STATES (attempt_state f) names = true -> attempt_is ln names).
  { intros names Hne Hn. destruct (reading_attempt f mission sc ln _ Hrd eq_refl Hne) as (x & s & Hx & Hs & Hin). exists x, s. split_and!; [done..|].
    by eapply named_spec. }
  assert (Hreply : forall names, named REPLY_STATES (reply_state f) names = true -> latest_is state "mission_worker_replies" (ln_current ln) names).
  { intros names Hn. eapply reading_latest; [exact (rd_reply _ _ _ _ _ _ _ _ Hrd)|]. intros s Hin. by eapply named_spec. }
  assert (Hhand : forall names, named HANDOFF_STATES (handoff_state f) names = true -> latest_is state "mission_handoffs" (ln_current ln) names).
  { intros names Hn. eapply reading_latest; [exact (rd_handoff _ _ _ _ _ _ _ _ Hrd)|]. intros s Hin. by eapply named_spec. }
  assert (Hdone : successful_attempt (attempt_state f) = true -> attempt_is ln ["completed"; "succeeded"]).
  { intros Hs. apply Hatt; destruct (attempt_state f); done. }
  assert (Hnone : attempt_state f = ANone -> ln_current ln = None) by (by apply (reading_none f mission sc ln)).
  assert (Hidle : attempt_in_flight k = Some false -> ln_active ln = []) by (intros Hb; apply length_zero_iff_nil, (Hcount _ Hb)).
  repeat (apply elem_of_cons in Hk as [->|Hk]); [..|by apply elem_of_nil in Hk]; cbn [fits guard] in *; split_tests Hg.
  - (* start_worker *) rewrite eqd_true in T. rewrite eqd_true in T0. split_and!; auto. apply (reading_step f mission sc ln); auto.
  - (* prepare_dispatch *) rewrite eqd_true in T0. rewrite eqd_true in T1. split_and!; auto.
    destruct (reading_step f mission sc ln Hrd) as (step & Hs); [auto|]. exists step. split; [done|]. by eapply reading_ready.
  - (* dispatch_prepared *) rewrite eqd_true in T0. assert (Ha : attempt_is ln ["prepared"]) by (apply Hatt; by rewrite T0).
    split_and!; [|done|by apply (Hcount true)|by apply Hperm]. destruct Ha as (x & s & Hx & _).
    destruct (reading_step f mission sc ln Hrd) as (step & Hs); [right; by rewrite Hx|]. exists step. split; [done|]. by eapply reading_ready.
  - (* await_worker *) split; [|by apply Hperm]. apply Hatt; destruct (attempt_state f); done.
  - (* validate_reply *) rewrite eqd_true in T. split_and!; auto. apply Hreply. by rewrite T.
  - (* record_handoff *) rewrite eqd_true in T0. rewrite eqd_false in T. split_and!; auto; [apply Hreply; by rewrite T0|]. apply Hhand. by destruct (handoff_state f).
  - (* activate_next *) rewrite eqd_true in T0. rewrite eqd_true in T1. split_and!; auto; [apply Hreply; by rewrite T1|apply Hhand; by rewrite T0].
  - (* complete_mission *) rewrite (rd_completed _ _ _ _ _ _ _ _ Hrd) in T1. apply Nat.eqb_eq in T1. split_and!; auto. apply Hnone.
    rewrite is_none_true in T. by apply (ll_attempt _ (check_lineage_live f Hni (fo_lineage _ Hok))).
Qed.
End decisions.

(** C8: The scheduler acts on what the document says.  When the daemon's facts
    of the saved document lead the gate to an acting decision, the decision is
    about the only admitted Mission under way, whose snapshot is the frozen one,
    about the step at its cursor and the attempt its recovery record binds, and
    the conversation's history gives the step's Worker to nobody else.  An
    attempt is prepared, or a Worker started, only while no attempt of the
    Mission is active; it is dispatched only while it is the one active attempt,
    still prepared.  For both the Worker is ready: the configured agent has the
    transport, provider, role, workspace mode and runtime identity hash frozen
    for the step; its ACP command is there, or its pane is bound, running and
    seen ready.  A reply is validated, a handoff recorded and the cursor moved
    only after the attempt succeeded, in that order, and, as for a dispatch, only
    if no permission was asked or the last one asked was approved; the Mission
    completes only past its last step. *)
Theorem decisions_fit_document {env : LeaseEnv} {ft : FloatText} {lim : RecursionLimits} {repr : PyRepr}
    (pw : probe_world) state config probe terminal f d :
  scheduler_facts_from_state pw state config probe terminal = Ok (Some f) -> schedule_gate f = Ok d -> acting (kind d) ->
  exists mission sc ln, about state d mission sc ln /\ fits pw state config probe (kind d) mission sc ln.
Proof.
  intros Hf Hd Hk. destruct (facts_reading _ _ _ _ _ _ Hf) as (mission & sc & ln & Hrd & _). exists mission, sc, ln.
  destruct (acting_about _ _ _ _ _ _ _ _ _ Hrd Hd Hk) as [Hg Ha]. split; [done|]. by eapply reading_fits.
Qed.

(** ** A sample *)

#[local] Existing Instance sample_env.
#[local] Existing Instance sample_limits.
#[local] Existing Instance sample_float_text.
#[local] Existing Instance sample_repr.

Definition sample_probes : probe_world :=
  ProbeWorld (fun _ => Ok true) (Some (RuntimeBackend (fun _ => Ok true) (fun _ => Ok "> ask codex"))) (fun _ _ => Ok ("ready", None)).
#[local] Notation sample_facts := (scheduler_facts_from_state sample_probes started_doc (Some sample_config) true false).
Definition sample_outcome : result (option SchedulerFacts * SchedulerDecision) :=
  o ← sample_facts; match o with Some f => d ← schedule_gate f; Ok (Some f, d) | None => Err AssertionError end.
Lemma sample_decides : exists f d, sample_facts = Ok (Some f) /\ schedule_gate f = Ok d /\ kind d = KPrepareDispatch.
Proof.
  assert (H : match sample_outcome with Ok (_, d) => eqd (kind d) KPrepareDispatch | Err _ => false end = true) by (vm_compute; reflexivity).
  unfold sample_outcome in H. destruct sample_facts as [[f|]|]; [|discriminate H..]. cbn [mbind result_bind] in H.
  destruct (schedule_gate f) as [d|] eqn:Ed; [|discriminate H]. cbn [mbind result_bind] in H. exists f, d.
  split; [reflexivity|]. split; [exact Ed|]. by apply eqd_true.
Qed.

Lemma decisions_fit_document_witness : exists mission sc ln, ln_current ln = None /\ ln_active ln = []
  /\ (dget "status" mission = PStr "preparing" \/ dget "status" mission = PStr "running")
  /\ exists step, sc_step sc = Some step /\ ready_worker sample_probes started_doc (Some sample_config) true mission (sc_snapshot sc) step (ln_current ln).
Proof.
  destruct sample_decides as (f & d & Hf & Hd & Hk).
  destruct (decisions_fit_document sample_probes started_doc (Some sample_config) true false f d Hf Hd) as (mission & sc & ln & Ha & Hfit).
  { rewrite Hk. unfold acting. right. left. }
  rewrite Hk in Hfit. destruct Hfit as (Hstep & Hc & Hact). exists mission, sc, ln. split; [exact Hc|]. split; [exact Hact|].
  split; [|exact Hstep]. exact (ab_status _ _ _ _ _ Ha).
Defined.
