(* ===== verification/DaemonService.v ===== *)
(** * The daemon's loop ([daemon/service.py])

    One tick of [ProjectDaemonService]: flush the outboxes, then schedule one
    transition or run one queued mutation.  Scheduling reads the facts
    ([ServiceFacts]), asks the gate ([Scheduler]) and applies its decision
    ([DaemonTransitionEffects]) with the operations of the store.

    A tick is one step: nobody else writes the document while it runs.  What an
    effect leaves is the document saved so far and the outcome of the call, as it
    may raise after a write.  Queued mutations are functions on the document; what
    the runtime answers to the start of a Worker is given. *)
From S2P Require Import Prelude PyStr PyVal ReviewVerdict ReviewGroup Json Protocol Handoff Lease Store Conversation Attempt Snapshot AttemptStore Recovery.
From S2P Require Import AgentProtocol Governance GovernanceStore Coordinator EvidenceStore AcpPermission MissionStore MissionProgress.
From S2P Require Import Scheduler ServiceFacts.

(** What a tick is given: the operations' clocks and identities, the launch of an
    attempt, the configuration, the runtime's answers, whether the recovery
    callback returns. *)
Record tick_world := TickWorld {
  tw_mission : mission_world; tw_second : mission_world; tw_launch : launch_world; tw_probes : probe_world;
  tw_config : result ProjectConfig;
  tw_session : result unit;    (** [create_session] *)
  tw_spawned : result pyval;   (** [spawn_agent] *)
  tw_refreshed : bool
}.

(** The document saved, and what the call returned (the Worker call it started)
    or raised. *)
Definition effect : Type := dict * result (option job).

Section effects.
Context {env : LeaseEnv} {ft : FloatText} {lim : RecursionLimits} {repr : PyRepr}.
Variable semantic_step_hash : pyval -> result string.
Variable tw : tick_world.
#[local] Notation mw := (tw_mission tw).
#[local] Notation ew := (mw_evidence (tw_mission tw)).

(** [DaemonTransitionEffects._applied] *)
Definition refreshed (doc : dict) : effect :=
  (doc, if tw_refreshed tw then Ok None else Err (RuntimeError "recovery refresh")).
Definition applied (doc : dict) (r : result (dict * dict)) : effect :=
  match r with Ok (doc', _) => refreshed doc' | Err e => (doc, Err e) end.

(** [next(item for item in rows if item[key] == v)] over the rows of a frozen
    snapshot. *)
Fixpoint next_item (key : string) (v : result pyval) (rows : list pyval) : result dict :=
  match rows with
  | [] => Err StopIteration
  | PDict d :: rows => x ← subscript key d; y ← v; if py_eq x y then Ok d else next_item key v rows
  | _ :: _ => Err (TypeError "indices must be integers")
  end.
Definition item_of (k : string) (v : pyval) : result pyval :=
  match v with PDict d => subscript k d | _ => Err (TypeError "not subscriptable") end.

(** The step of the decision and its Worker, in the Mission's snapshot. *)
Definition decided_step (snapshot : pyval) (step_id : string) : result dict :=
  frozen ← item_of "mission" snapshot;
  steps ← item_of "steps" frozen;
  rows ← iter_table steps;
  next_item "step_id" (Ok (PStr step_id)) rows.
Definition decided_worker (snapshot : pyval) (agent_id : result pyval) : result dict :=
  workers ← item_of "workers" snapshot;
  rows ← iter_table workers;
  next_item "agent_id" agent_id rows.

(** *** Starting a Worker *)

Definition claimed_start (doc : dict) (d : SchedulerDecision) : result (dict * dict * dict * pyval) :=
  match kind d, d_step_id d with
  | KStartWorker, Some step_id =>
      let mission_id := default "" (d_mission_id d) in
      mission ← mission_by_id doc mission_id;
      let snapshot := dget "execution_snapshot" mission in
      step ← decided_step snapshot step_id;
      agent_id ← subscript "agent_id" step;
      '(doc', claim) ← claim_mission_worker_start mw doc mission_id step_id (text_of agent_id);
      Ok (doc', claim, step, snapshot)
  | _, _ => service_error "Worker startup decision is invalid"
  end.

(** The configured agent of the step, and whether its runtime is the frozen one. *)
Definition checked_runtime (step : dict) (snapshot : pyval) : result (ProjectConfig * AgentSpec * bool) :=
  config ← tw_config tw;
  match find_first (fun a => py_eq (PStr (ag_agent_id a)) (dget "agent_id" step)) (cf_agents config) with
  | None => Err StopIteration
  | Some agent =>
      worker ← decided_worker snapshot (Ok (PStr (ag_agent_id agent)));
      identity ← worker_runtime_identity_hash agent (cf_runtime config);
      frozen ← subscript "runtime_identity_hash" worker;
      Ok (config, agent, py_eq (PStr identity) frozen)
  end.
Definition spawned_pane : result pyval :=
  _ ← tw_session tw;
  pane ← tw_spawned tw;
  if is_form nonempty pane then Ok pane else Err (RuntimeError "tmux Worker startup outcome is ambiguous").

(** [DaemonTmuxWorkerStarter.__call__] *)
Definition start_worker (doc : dict) (d : SchedulerDecision) : dict * result unit :=
  match claimed_start doc d with
  | Err e => (doc, Err e)
  | Ok (doc', claim, step, snapshot) =>
      let finish (config : ProjectConfig) (pane blocker : pyval) :=
        start_id ← subscript "start_id" claim;
        finish_mission_worker_start (tw_second tw) doc' (text_of start_id) pane (rt_session_name (cf_runtime config)) (cf_root config) blocker in
      let outcome :=
        '(config, _, same) ← checked_runtime step snapshot;
        if same : bool then pane ← spawned_pane; finish config pane PNone
        else finish config (PStr "") (PStr "Worker startup runtime identity drift") in
      match outcome with Ok (doc'', _) => (doc'', Ok tt) | Err e => (doc', Err e) end
  end.

(** *** The other transitions *)

(** [[item for item in state.get(table, []) if item.get("attempt_id") == ...]] *)
Definition about_attempt (table : string) (attempt_id : string) (doc : dict) : result (list dict) :=
  rows ← iter_rows table doc; rows_where (is_row "attempt_id" attempt_id) rows.
(** [next(...)] of them: no row after the first is looked at. *)
Fixpoint first_about (attempt_id : string) (rows : list pyval) : result dict :=
  match rows with
  | [] => Err StopIteration
  | v :: rows => d ← as_dict v; if is_row "attempt_id" attempt_id d then Ok d else first_about attempt_id rows
  end.
Definition last_row (rows : list dict) : result dict := match last rows with Some r => Ok r | None => Err IndexError end.

Definition prepare_dispatch (doc : dict) (mission_id step_id : string) : result (dict * dict) :=
  mission ← mission_by_id doc mission_id;
  snapshot ← subscript "execution_snapshot" mission;
  step ← decided_step snapshot step_id;
  worker ← decided_worker snapshot (subscript "agent_id" step);
  agent_id ← subscript "agent_id" step;
  frozen ← subscript "configured_transport" worker;
  known ← in_str_set frozen TRANSPORTS;
  _ ← raise_if (negb known) (GovernanceError "frozen transport is invalid");
  transport ← effective_transport_for_step doc mission_id step_id (text_of agent_id) (text_of frozen);
  prepare_mission_attempt mw doc mission_id step_id (text_of agent_id) transport.

Definition validate_reply (doc : dict) (attempt_id : string) : result (dict * dict) :=
  replies ← about_attempt "mission_worker_replies" attempt_id doc;
  reply ← last_row replies;
  attempt ← mission_attempt_by_id doc (PStr attempt_id);
  dispatch_key ← subscript "dispatch_key" attempt;
  reply_id ← subscript "reply_id" reply;
  record_mission_reply_evidence ew doc attempt_id (text_of dispatch_key) "validated" reply_id PNone.

Definition record_handoff (doc : dict) (attempt_id : string) : result (dict * dict) :=
  rows ← iter_rows "mission_worker_replies" doc;
  reply ← first_about attempt_id rows;
  handoffs ← about_attempt "mission_handoffs" attempt_id doc;
  reply_id ← subscript "reply_id" reply;
  match last handoffs with
  | None => record_mission_handoff_evidence ew doc attempt_id (text_of reply_id) "pending" PNone
  | Some h =>
      handoff_id ← subscript "handoff_id" h;
      record_mission_handoff_evidence ew doc attempt_id (text_of reply_id) "recorded" handoff_id
  end.

Definition activate_next (doc : dict) (mission_id attempt_id : string) : result (dict * dict) :=
  rows ← iter_rows "mission_handoffs" doc;
  handoff ← first_about attempt_id rows;
  handoff_id ← subscript "handoff_id" handoff;
  advance_mission_after_handoff mw semantic_step_hash doc mission_id attempt_id (text_of handoff_id).

(** [coordinator.launch(mission_attempt_by_id(...))]: without a started call it
    raised after the claim was saved. *)
Definition launched (doc : dict) (attempt_id : string) : effect :=
  match (attempt ← mission_attempt_by_id doc (PStr attempt_id); launch (tw_launch tw) doc attempt) with
  | Ok (doc', Some j) => (doc', Ok (Some j))
  | Ok (doc', None) => (doc', Err (RuntimeError "Worker launch"))
  | Err e => (doc, Err e)
  end.

(** [DaemonTransitionEffects.apply] *)
Definition apply_transition (doc : dict) (d : SchedulerDecision) : effect :=
  let mission_id := default "" (d_mission_id d) in
  let step_id := default "" (d_step_id d) in
  let attempt_id := default "" (d_attempt_id d) in
  match kind d with
  | KIdle | KAwaitWorker | KWaitHuman | KWaitAmbiguity | KBlocked => (doc, Ok None)
  | KStartWorker => match start_worker doc d with (doc', Ok _) => refreshed doc' | (doc', Err e) => (doc', Err e) end
  | KPrepareDispatch => applied doc (prepare_dispatch doc mission_id step_id)
  | KDispatchPrepared => launched doc attempt_id
  | KValidateReply => applied doc (validate_reply doc attempt_id)
  | KRecordHandoff => applied doc (record_handoff doc attempt_id)
  | KActivateNext => applied doc (activate_next doc mission_id attempt_id)
  | KCompleteMission => applied doc (complete_admitted_mission mw doc mission_id)
  end.

(** ** A tick *)

(** What a scheduling pass leaves: the document, the call started, the decision. *)
Definition schedule_once (doc : dict) : dict * option job * result (option SchedulerDecision) :=
  match (facts ← scheduler_facts_from_store (tw_probes tw) (tw_config tw) doc;
         match facts with None => Ok None | Some f => d ← schedule_gate f; Ok (Some d) end) with
  | Ok None => (doc, None, Ok None)
  | Ok (Some d) =>
      match apply_transition doc d with
      | (doc', Ok j) => (doc', j, Ok (Some d))
      | (doc', Err e) => (doc', None, Err e)
      end
  | Err e => (doc, None, Err e)
  end.
End effects.

(** A mutation in the queue.  An exception in the completion of a Worker call is
    fatal, the others go to the caller. *)
Inductive queue_kind := External | WorkerCleanup | WorkerCompletion.
Record queued := Queued { qu_kind : queue_kind; qu_run : dict -> dict * result unit }.

Record daemon := Daemon {
  dm_doc : dict; dm_queue : list queued;
  dm_due : bool;       (** [_scheduler_due] *)
  dm_fatal : option exn; dm_shutdown : bool
}.

Section loop.
Context {env : LeaseEnv} {ft : FloatText} {lim : RecursionLimits} {repr : PyRepr}.
Variable semantic_step_hash : pyval -> result string.
Variable flush_safe_outboxes : dict -> dict * result unit.

Definition with_doc (s : daemon) (doc : dict) : daemon := Daemon doc (dm_queue s) (dm_due s) (dm_fatal s) (dm_shutdown s).
Definition COMPLETION_FAILED : exn := ServiceError "daemon Worker completion persistence failed".

(** The oldest mutation, or a scheduling pass when there is none. *)
Definition serve_queue (tw : tick_world) (s : daemon) : daemon * option job * result (option SchedulerDecision) :=
  match dm_queue s with
  | [] => let '(doc, j, r) := schedule_once semantic_step_hash tw (dm_doc s) in (with_doc s doc, j, r)
  | q :: rest =>
      match qu_run q (dm_doc s), qu_kind q with
      | (doc, Err _), WorkerCompletion => (Daemon doc rest (dm_due s) (Some COMPLETION_FAILED) true, None, Err COMPLETION_FAILED)
      | (doc, _), _ => (Daemon doc rest true (dm_fatal s) (dm_shutdown s), None, Ok None)
      end
  end.

(** [ProjectDaemonService.tick], once the service is started. *)
Definition tick (tw : tick_world) (s : daemon) : daemon * option job * result (option SchedulerDecision) :=
  match dm_fatal s with
  | Some e => (s, None, Err e)
  | None =>
      match flush_safe_outboxes (dm_doc s) with
      | (doc, Err e) => (with_doc s doc, None, Err e)
      | (doc, Ok _) =>
          if dm_due s then
            let '(doc, j, r) := schedule_once semantic_step_hash tw doc in
            let s := Daemon doc (dm_queue s) false (dm_fatal s) (dm_shutdown s) in
            match r with
            | Err e => (s, j, Err e)
            | Ok None => if match dm_queue s with [] => true | _ => false end then (s, j, Ok None) else serve_queue tw s
            | Ok (Some d) => (s, j, Ok (Some d))
            end
          else serve_queue tw (with_doc s doc)
      end
  end.
End loop.

(** ** The daemon runs Missions in order *)

Section runs.
Context {env : LeaseEnv} {ft : FloatText} {lim : RecursionLimits} {repr : PyRepr}.
Variable semantic_step_hash : pyval -> result string.
#[local] Notation mission_run := (mission_run semantic_step_hash).

Lemma mission_run_trans doc doc1 doc2 : mission_run doc doc1 -> mission_run doc1 doc2 -> mission_run doc doc2.
Proof.
  intros H1 H2. induction H2 as [d|d d1 d2 _ IH He|w d d1 op d2 r _ IH Hop]; [done|..].
  - eapply run_elsewhere; [by apply IH|done].
  - eapply run_op; [by apply IH|done..].
Qed.
Lemma one_op w doc op doc' r : run_mission_op semantic_step_hash w doc op = Ok (doc', r) -> mission_run doc doc'.
Proof. intros H. eapply run_op; [constructor|done..]. Qed.

(** A change of other tables. *)
Lemma other_tables doc doc' : (forall k, k ∈ ["missions"; "mission_attempts"; "mission_handoffs"] -> AgentProtocol.rows_of k doc' = AgentProtocol.rows_of k doc) ->
  mission_run doc doc'.
Proof.
  intros H. eapply run_elsewhere; [constructor|]. split; [apply H; set_solver|].
  split; [apply H; set_solver|]. intros m. left. apply cursor_same_rows, H. left.
Qed.

Lemma snapshot_rows w doc doc' token k : _validated_recovery_snapshot_locked w doc = Ok (doc', token) ->
  AgentProtocol.rows_of k doc' = AgentProtocol.rows_of k doc.
Proof.
  unfold _validated_recovery_snapshot_locked. intros ([d v] & Hv & H)%bind_Ok. apply bind_Ok in H as (t & _ & [= <- _]).
  apply (sv_rows _ _ _ _ (recovery_view_Ok _ _ _ _ Hv)).
Qed.

Lemma reply_evidence_run w doc a key st rid h doc' r : record_mission_reply_evidence w doc a key st rid h = Ok (doc', r) -> mission_run doc doc'.
Proof.
  intros H. apply other_tables. intros k Hk. unfold record_mission_reply_evidence in H. apply bind_Ok in H as ([] & _ & H).
  apply bind_Ok in H as ([d t] & Hs & H). do 5 apply bind_Ok in H as (? & _ & H). apply bind_Ok in H as ([candidate rows'] & _ & H).
  apply bind_Ok in H as (hash & _ & H). apply bind_Ok in H as (d' & Ha & [= <- <-]).
  rewrite (ev_audit_rows _ _ _ _ _ k Ha), rows_of_dset by set_solver. destruct (String.eqb_spec k "mission_worker_replies"); [set_solver|].
  by eapply snapshot_rows.
Qed.

Lemma handoff_evidence_run w doc a rid st hid doc' r : record_mission_handoff_evidence (mw_evidence w) doc a rid st hid = Ok (doc', r) ->
  mission_run doc doc'.
Proof. intros H. by apply (one_op w doc (MHandoff a rid st hid) doc' r). Qed.

Lemma claim_start_run w doc m s a doc' r : claim_mission_worker_start w doc m s a = Ok (doc', r) -> mission_run doc doc'.
Proof.
  intros H. apply other_tables. intros k Hk. unfold claim_mission_worker_start in H. do 9 apply bind_Ok in H as (? & _ & H).
  apply bind_Ok in H as (d1 & Hr & H). apply bind_Ok in H as (d2 & He & [= <- <-]).
  apply append_event_Ok in He as (l & _ & ->). rewrite rows_of_dset. destruct (String.eqb_spec k "daemon_event_outbox"); [set_solver|].
  apply (rows_append_row k) in Hr; [done|set_solver].
Qed.

Lemma finish_start_run w doc id p session cwd b doc' r : finish_mission_worker_start w doc id p session cwd b = Ok (doc', r) -> mission_run doc doc'.
Proof.
  intros H. apply other_tables. intros k Hk. unfold finish_mission_worker_start in H. apply bind_Ok in H as (starts & _ & H).
  destruct (GovernanceStore.rows_with _ _ starts) as [|record [|]]; try done. apply bind_Ok in H as ([] & _ & H).
  apply bind_Ok in H as ([[d1 rec] ev] & Hd & H). apply bind_Ok in H as (d2 & He & [= <- <-]).
  apply append_event_Ok in He as (l & _ & ->). rewrite !rows_of_dset.
  destruct (String.eqb_spec k "daemon_event_outbox"), (String.eqb_spec k "mission_worker_starts"); [set_solver..|].
  destruct (Attempt.is_none b).
  - unfold started_ok in Hd. apply bind_Ok in Hd as ([] & _ & Hd). apply bind_Ok in Hd as (agent & _ & Hd).
    apply bind_Ok in Hd as (d0 & Hb & Hd). apply bind_Ok in Hd as (about_ & _ & [= <- _ _]). unfold bind_pane in Hb.
    assert (k <> "agents") by set_solver. destruct (dlookup "agents" doc) as [[]|]; try done; injection Hb as <-; rewrite rows_of_dset;
      by destruct (String.eqb_spec k "agents").
  - unfold started_blocked in Hd. apply bind_Ok in Hd as ([] & _ & Hd). by apply bind_Ok in Hd as (about_ & _ & [= <- _ _]).
Qed.

Lemma start_worker_run tw doc d : mission_run doc (start_worker tw doc d).1.
Proof.
  unfold start_worker. destruct (claimed_start tw doc d) as [[[[doc1 claim] step] snapshot]|e] eqn:Hc; [|constructor].
  assert (H1 : mission_run doc doc1).
  { unfold claimed_start in Hc. destruct (kind d); try done. destruct (d_step_id d); try done. do 3 apply bind_Ok in Hc as (? & _ & Hc).
    apply bind_Ok in Hc as ([d1 c] & Hcl & [= <- _ _ _]). by eapply claim_start_run. }
  match goal with |- mission_run _ (match ?o with Ok _ => _ | Err _ => _ end).1 => destruct o as [[doc2 r]|e] eqn:Ho end; [|done].
  eapply mission_run_trans; [exact H1|]. cbn [fst]. apply bind_Ok in Ho as ([[config agent] same] & _ & Ho). destruct same.
  - apply bind_Ok in Ho as (pane & _ & Ho). apply bind_Ok in Ho as (sid & _ & Ho). by eapply finish_start_run.
  - apply bind_Ok in Ho as (sid & _ & Ho). by eapply finish_start_run.
Qed.

Lemma launch_run tw doc a : mission_run doc (launched tw doc a).1.
Proof.
  unfold launched. destruct (attempt ← _; _) as [[doc' j]|e] eqn:H; [|constructor]. apply bind_Ok in H as (attempt & _ & H).
  assert (Hr : mission_run doc doc').
  { unfold launch in H. do 4 apply bind_Ok in H as (? & _ & H). apply bind_Ok in H as ([d c] & Hc & [= <- _]).
    pose (w := tw_mission tw).
    set (w' := MissionWorld (EvidenceWorld (lw_first (tw_launch tw)) (ew_event (mw_evidence w)) (ew_rebuild (mw_evidence w)) (ew_reply (mw_evidence w))
                               (ew_handoff (mw_evidence w)) (ew_now (mw_evidence w)))
                 (mw_config w) (mw_semantic w) (mw_authority_hash w) (mw_mission w) (mw_attempt w) (mw_start w)).
    exact (one_op w' doc (MAttempt (OpClaim _ _)) _ _ Hc). }
  by destruct j.
Qed.

Lemma applied_run tw doc op : (forall doc' r, op = Ok (doc', r) -> mission_run doc doc') -> mission_run doc (applied tw doc op).1.
Proof. intros H. unfold applied, refreshed. destruct op as [[doc' r]|e]; cbn [fst]; [by eapply H|constructor]. Qed.

Lemma apply_run tw doc d : mission_run doc (apply_transition semantic_step_hash tw doc d).1.
Proof.
  unfold apply_transition. destruct (kind d); try (cbn [fst]; constructor).
  - pose proof (start_worker_run tw doc d) as H. destruct (start_worker tw doc d) as [doc' [u|e]]; exact H.
  - apply applied_run. intros doc' r H. unfold prepare_dispatch in H. do 9 apply bind_Ok in H as (? & _ & H).
    exact (one_op (tw_mission tw) doc (MPrepare _ _ _ _) _ _ H).
  - apply launch_run.
  - apply applied_run. intros doc' r H. unfold validate_reply in H. do 5 apply bind_Ok in H as (? & _ & H). by eapply reply_evidence_run.
  - apply applied_run. intros doc' r H. unfold record_handoff in H. do 4 apply bind_Ok in H as (? & _ & H).
    destruct (last _); [apply bind_Ok in H as (? & _ & H)|]; by eapply handoff_evidence_run.
  - apply applied_run. intros doc' r H. unfold activate_next in H. do 3 apply bind_Ok in H as (? & _ & H).
    exact (one_op (tw_mission tw) doc (MAdvance _ _ _) _ _ H).
  - apply applied_run. intros doc' r H. exact (one_op (tw_mission tw) doc (MComplete _) _ _ H).
Qed.

Lemma schedule_run tw doc : mission_run doc (schedule_once semantic_step_hash tw doc).1.1.
Proof.
  unfold schedule_once. destruct (facts ← _; _) as [[d|]|e]; [|constructor..].
  pose proof (apply_run tw doc d) as H. by destruct (apply_transition _ _ _ _) as [doc' [j|e]].
Qed.

(** A queued mutation, or the flush, that works by the store's operations. *)
Definition orderly (f : dict -> dict * result unit) : Prop := forall doc, mission_run doc (f doc).1.

Variable flush_safe_outboxes : dict -> dict * result unit.
Hypothesis flush_orderly : orderly flush_safe_outboxes.

Definition all_orderly (s : daemon) : Prop := Forall (fun q => orderly (qu_run q)) (dm_queue s).
Definition keeps_order (s s' : daemon) : Prop := mission_run (dm_doc s) (dm_doc s') /\ (all_orderly s -> all_orderly s').

Lemma serve_run tw s : all_orderly s -> keeps_order s (serve_queue semantic_step_hash tw s).1.1.
Proof.
  intros Hq. unfold serve_queue. destruct (dm_queue s) as [|q rest] eqn:Eq.
  - pose proof (schedule_run tw (dm_doc s)) as H. destruct (schedule_once _ _ _) as [[doc j] r]. split; [exact H|done].
  - assert (Hrest : all_orderly s -> Forall (fun q => orderly (qu_run q)) rest) by (unfold all_orderly; rewrite Eq; by inversion 1).
    unfold all_orderly in Hq. rewrite Eq in Hq. inversion Hq as [|? ? H1 H2]; subst. specialize (H1 (dm_doc s)).
    destruct (qu_run q (dm_doc s)) as [doc [u|e]]; destruct (qu_kind q); by split.
Qed.

Lemma tick_run tw s : all_orderly s -> keeps_order s (tick semantic_step_hash flush_safe_outboxes tw s).1.1.
Proof.
  intros Hq. unfold tick. destruct (dm_fatal s) as [e|]; [by split; [constructor|]|].
  pose proof (flush_orderly (dm_doc s)) as Hf. destruct (flush_safe_outboxes (dm_doc s)) as [doc [u|e]]; cbn [fst] in Hf; [|by split].
  destruct (dm_due s).
  - pose proof (schedule_run tw doc) as Hs. destruct (schedule_once _ _ _) as [[doc1 j] r]. cbn [fst] in Hs.
    assert (H1 : mission_run (dm_doc s) doc1) by (by eapply mission_run_trans).
    destruct r as [[d|]|e]; [by split|destruct (dm_queue s) eqn:Eq; [by split; [|unfold all_orderly; rewrite Eq]|]|by split].
    set (s1 := Daemon doc1 _ _ _ _). destruct (serve_run tw s1) as [H2 H3]; [by unfold all_orderly; cbn; rewrite <- Eq|].
    split; [by eapply mission_run_trans|]. intros Ha. apply H3. unfold all_orderly in *. cbn. by rewrite <- Eq.
  - destruct (serve_run tw (with_doc s doc)) as [H2 H3]; [done|]. split; [by eapply mission_run_trans|done].
Qed.

(** Ticks, with mutations that arrive and other processes that write between. *)
Inductive daemon_run (s : daemon) : daemon -> Prop :=
| daemon_start : daemon_run s s
| daemon_tick s' tw : daemon_run s s' -> daemon_run s (tick semantic_step_hash flush_safe_outboxes tw s').1.1
| daemon_arrival s' q : daemon_run s s' -> orderly (qu_run q) ->
    daemon_run s (Daemon (dm_doc s') (dm_queue s' ++ [q]) (dm_due s') (dm_fatal s') (dm_shutdown s'))
| daemon_other s' doc : daemon_run s s' -> mission_run (dm_doc s') doc -> daemon_run s (with_doc s' doc).

Lemma daemon_run_keeps s s' : daemon_run s s' -> all_orderly s -> keeps_order s s'.
Proof.
  intros H Hq. induction H as [|s' tw _ IH|s' q _ IH Ho|s' doc _ IH Hr].
  - split; [constructor|done].
  - destruct IH as [H1 H2]. destruct (tick_run tw s' (H2 Hq)) as [H3 H4]. split; [by eapply mission_run_trans|auto].
  - destruct IH as [H1 H2]. split; [done|]. intros Ha. apply Forall_app. split; [by apply H2|by constructor].
  - destruct IH as [H1 H2]. split; [by eapply mission_run_trans|done].
Qed.
End runs.

(** C6: The daemon's loop is a run of its Missions.  From a document with no
    attempt prepared, no handoff recorded and every cursor at 0, whatever the
    loop's ticks decide and apply, whichever queued mutations arrive and other
    processes write in between, provided these work by the store's operations
    (or leave attempts, handoffs and cursors alone), the saved document is
    reached by a run of those operations; so it stays in order: at most one
    attempt of a Mission is under way, of the step after its cursor, and every
    step before the cursor was done by an attempt whose handoff is recorded. *)
Theorem daemon_runs_missions_in_order {env : LeaseEnv} {ft : FloatText} {lim : RecursionLimits} {repr : PyRepr}
    (semantic_step_hash : pyval -> result string) flush_safe_outboxes s s' :
  orderly semantic_step_hash flush_safe_outboxes -> not_begun (dm_doc s) -> all_orderly semantic_step_hash s ->
  daemon_run semantic_step_hash flush_safe_outboxes s s' ->
  mission_run semantic_step_hash (dm_doc s) (dm_doc s') /\ exists attempts, in_order (dm_doc s') attempts.
Proof.
  intros Hf Hn%not_begun_in_order Hq Hrun. destruct (daemon_run_keeps _ _ Hf _ _ Hrun Hq) as [H _].
  split; [done|]. by eapply mission_run_in_order.
Qed.

(** ** Queued mutations are served *)

Section service.
Context {env : LeaseEnv} {ft : FloatText} {lim : RecursionLimits} {repr : PyRepr}.
Variable semantic_step_hash : pyval -> result string.
Variable flush_safe_outboxes : dict -> dict * result unit.
#[local] Notation tick := (tick semantic_step_hash flush_safe_outboxes).

(** What [submit_mutation], [submit_worker_cleanup] and a Worker call that ended
    put in the queue. *)
Definition enqueue (s : daemon) (qs : list queued) : daemon := Daemon (dm_doc s) (dm_queue s ++ qs) (dm_due s) (dm_fatal s) (dm_shutdown s).

(** The loop of [ProjectDaemonService.run], on what arrives before each of its
    ticks. *)
Fixpoint run_ticks (ins : list (list queued * tick_world)) (s : daemon) : result daemon :=
  match ins with
  | [] => Ok s
  | (qs, tw) :: ins =>
      if dm_shutdown s then Ok s
      else match tick tw (enqueue s qs) with
           | (s, _, Ok _) => run_ticks ins s
           | (_, _, Err e) => Err e
           end
  end.

(** The tick runs the mutation at the head of the queue and takes it out. *)
Definition runs_head (tw : tick_world) (s : daemon) (q : queued) : Prop :=
  exists rest doc, dm_queue s = q :: rest /\ dm_queue (tick tw s).1.1 = rest /\ dm_doc (tick tw s).1.1 = (qu_run q doc).1.

Lemma serve_head tw s q rest s' j d : dm_queue s = q :: rest -> serve_queue semantic_step_hash tw s = (s', j, Ok d) ->
  dm_queue s' = rest /\ dm_due s' = true /\ dm_doc s' = (qu_run q (dm_doc s)).1.
Proof. unfold serve_queue. intros ->. destruct (qu_run q (dm_doc s)) as [doc [u|e]], (qu_kind q); by intros [= <- _ _]. Qed.

(** A tick with a mutation waiting runs it, or takes the scheduling pass that
    was due. *)
Lemma tick_cases tw s q rest s' j d : dm_queue s = q :: rest -> tick tw s = (s', j, Ok d) ->
  (dm_due s = true /\ dm_due s' = false /\ dm_queue s' = q :: rest)
  \/ (dm_due s' = true /\ dm_queue s' = rest /\ runs_head tw s q).
Proof.
  intros Hq H. unfold runs_head. rewrite H. cbn [fst]. unfold tick in H.
  destruct (dm_fatal s); [done|]. destruct (flush_safe_outboxes (dm_doc s)) as [doc [u|e]]; [|done].
  destruct (dm_due s) eqn:Hdue.
  - destruct (schedule_once _ _ _) as [[doc1 j1] [[d1|]|e]]; [|rewrite Hq in H|done].
    + injection H as <- _ _. left. done.
    + set (s1 := Daemon doc1 _ _ _ _) in H. destruct (serve_head tw s1 q rest _ _ _ eq_refl H) as (H1 & H2 & H3). right. split_and!; [done..|]. by exists rest, doc1.
  - destruct (serve_head tw (with_doc s doc) q rest _ _ _ Hq H) as (H1 & H2 & H3). right. split_and!; [done..|]. by exists rest, doc.
Qed.
End service.

(** C7: A queued mutation waits for at most two ticks per mutation before it.
    When the loop has made its ticks without an exception and was not told to
    stop, a mutation with [length pre] others before it has been run, and taken
    out of the queue, by one of the first [2 * length pre + 2] of them (one less
    when no scheduling pass was due), whatever arrived in between: scheduling
    never takes two turns in a row while the queue holds something. *)
Theorem queued_mutation_is_served {env : LeaseEnv} {ft : FloatText} {lim : RecursionLimits} {repr : PyRepr}
    (semantic_step_hash : pyval -> result string) flush_safe_outboxes ins s s' pre q post :
  run_ticks semantic_step_hash flush_safe_outboxes ins s = Ok s' -> dm_shutdown s' = false ->
  dm_queue s = pre ++ q :: post -> 2 * length pre + (if dm_due s then 2 else 1) <= length ins ->
  exists n s1 qs tw, n < 2 * length pre + (if dm_due s then 2 else 1)
    /\ run_ticks semantic_step_hash flush_safe_outboxes (take n ins) s = Ok s1
    /\ ins !! n = Some (qs, tw) /\ runs_head semantic_step_hash flush_safe_outboxes tw (enqueue s1 qs) q.
Proof.
  intros Hrun Hs'. revert s pre post Hrun. induction ins as [|[qs tw] ins IH]; intros s pre post Hrun Hq Hlen; [destruct (dm_due s); cbn in Hlen; lia|].
  cbn [run_ticks] in Hrun. destruct (dm_shutdown s) eqn:Hgo; [injection Hrun as <-; congruence|].
  destruct (tick _ _ _ _) as [[s1 j] [d|e]] eqn:Ht; [|done].
  assert (Hstep : forall n, run_ticks semantic_step_hash flush_safe_outboxes (take (S n) ((qs, tw) :: ins)) s
                  = run_ticks semantic_step_hash flush_safe_outboxes (take n ins) s1) by (intros n; cbn; by rewrite Hgo, Ht).
  assert (Hnext : forall pre' post', dm_queue s1 = pre' ++ q :: post' ->
    2 * length pre' + (if dm_due s1 then 2 else 1) < 2 * length pre + (if dm_due s then 2 else 1) ->
    exists n s1' qs' tw', n < 2 * length pre + (if dm_due s then 2 else 1)
      /\ run_ticks semantic_step_hash flush_safe_outboxes (take n ((qs, tw) :: ins)) s = Ok s1'
      /\ ((qs, tw) :: ins) !! n = Some (qs', tw') /\ runs_head semantic_step_hash flush_safe_outboxes tw' (enqueue s1' qs') q).
  { intros pre' post' Hq' Hlt. destruct (IH s1 pre' post' Hrun Hq') as (n & s2 & qs2 & tw2 & Hn & Hr & Hi & Hh); [cbn in Hlen; lia|].
    exists (S n), s2, qs2, tw2. rewrite Hstep. split_and!; [lia|done..]. }
  assert (Hqq : dm_queue (enqueue s qs) = pre ++ q :: (post ++ qs)) by (cbn; by rewrite Hq, <- app_assoc).
  destruct pre as [|p pre]; cbn [app] in Hqq; destruct (tick_cases _ _ _ _ _ _ _ _ _ Hqq Ht) as [(Hd & Hd' & Hq1)|(Hd' & Hq1 & Hh)].
  - apply (Hnext [] (post ++ qs)); [done|]. cbn in Hd. rewrite Hd, Hd'. lia.
  - exists 0, s, qs, tw. split_and!; [destruct (dm_due s); lia|done..].
  - apply (Hnext (p :: pre) (post ++ qs)); [done|]. cbn in Hd. rewrite Hd, Hd'. lia.
  - apply (Hnext pre (post ++ qs)); [done|]. rewrite Hd'. cbn [length]. destruct (dm_due s); lia.
Qed.

(** ** A sample: a daemon with two queued mutations *)

#[local] Existing Instance sample_env.
#[local] Existing Instance sample_limits.
#[local] Existing Instance sample_float_text.
#[local] Existing Instance sample_repr.

Definition sample_tick (n : nat) : tick_world :=
  TickWorld (mission_sample_world n) (mission_sample_world (S n)) sample_launch sample_probes (Ok sample_config) (Ok tt) (Ok (PStr "%7")) true.
Definition quiet (doc : dict) : dict * result unit := (doc, Ok tt).
Definition sample_queued (k : queue_kind) : queued := Queued k quiet.
Definition sample_daemon : daemon := Daemon one_step_doc [sample_queued External; sample_queued WorkerCleanup] true None false.
#[local] Notation sample_ticks := [([], sample_tick 6); ([], sample_tick 7); ([sample_queued External], sample_tick 8); ([], sample_tick 9)].
#[local] Notation ticked := (run_ticks sample_step_hash quiet sample_ticks sample_daemon).
Lemma ticked_runs : exists s, ticked = Ok s /\ dm_shutdown s = false.
Proof.
  assert (H : match ticked with Ok s => negb (dm_shutdown s) | Err _ => false end = true) by (vm_compute; reflexivity).
  destruct ticked as [s|e]; [|discriminate H]. exists s. split; [reflexivity|]. by destruct (dm_shutdown s).
Qed.
Lemma quiet_orderly : orderly sample_step_hash quiet.
Proof. intros doc. constructor. Qed.

Lemma queued_mutation_is_served_witness : exists n s1 qs tw, n < 4
  /\ run_ticks sample_step_hash quiet (take n sample_ticks) sample_daemon = Ok s1 /\ sample_ticks !! n = Some (qs, tw)
  /\ runs_head sample_step_hash quiet tw (enqueue s1 qs) (sample_queued WorkerCleanup).
Proof.
  destruct ticked_runs as (s & H & Hgo).
  exact (queued_mutation_is_served sample_step_hash quiet sample_ticks sample_daemon s [sample_queued External] (sample_queued WorkerCleanup) []
           H Hgo eq_refl (le_n 4)).
Defined.

(** The first tick prepares the attempt of the first step. *)
Definition ticked_once : daemon := (tick sample_step_hash quiet (sample_tick 6) sample_daemon).1.1.
Lemma daemon_runs_missions_in_order_witness : exists attempts, in_order (dm_doc ticked_once) attempts /\ length attempts = 1.
Proof.
  destruct (daemon_runs_missions_in_order sample_step_hash quiet sample_daemon ticked_once) as (_ & attempts & H).
  - exact quiet_orderly.
  - exact one_step_not_begun.
  - repeat constructor.
  - apply daemon_tick. apply daemon_start.
  - exists attempts. split; [exact H|].
    assert (E : match AgentProtocol.rows_of "mission_attempts" (dm_doc ticked_once) with PList l => length l | _ => 0 end = 1) by (vm_compute; reflexivity).
    rewrite (io_rows _ _ H) in E. by rewrite length_fmap in E.
Defined.
