(* ===== verification/RunLoop.v ===== *)
(** * The run loop's waves ([cli.py])

    One wave of a plan: automatic approval, ingestion of reply files, the review
    iteration hook, the dispatch of every approved step whose inputs are ready
    and whose agent is free, and the diagnosis of the gate.  The saved document
    is threaded through; the audit events a wave writes and the check of the
    printed payload are not modelled. *)
From S2P Require Import Prelude PyStr PyVal StepDag Autonomy ReviewVerdict ReviewGroup ReviewIteration Store Dispatch.

(** ** The outside of a wave *)

(** The content of a reply file. *)
Inductive reply_file := NoReplyFile | NotUtf8 | ReplyText (text : string).

(** The configuration, and what the wave meets: reply files by message, the
    identities and clock readings of the replies it ingests and of the steps it
    appends, and one [send_world] per dispatch attempt. *)
Record wave_config := {
  wc_agents : list agent; wc_allowed : list string; wc_max_approvals : Z; wc_max_review_rounds : Z;
  wc_review_binding : pyval
}.
Record wave_world := {
  ww_now : string; ww_file : string -> reply_file; ww_reply_ids : string -> reply_ids;
  ww_step_ids : string -> nat -> string; ww_send : string -> send_world
}.

Definition str_mem (s : string) (l : list string) : bool := existsb (String.eqb s) l.

(** ** Reply files *)

Definition _strip_tui_reply_decoration (line : string) : string :=
  strip (concat_str (drop_while (String.eqb "•") (chars (strip line)))).

(** The lines from the last [status:] line on. *)
Fixpoint from_last_status (lines : list string) : option (list string) :=
  match lines with
  | [] => None
  | line :: rest =>
      match from_last_status rest with
      | Some tail => Some tail
      | None => let bare := _strip_tui_reply_decoration line in
                if startswith "status:" bare then Some (bare :: rest) else None
      end
  end.
Definition _extract_structured_reply (output : string) : option string :=
  option_map (fun tail => strip (join LF tail)) (from_last_status (splitlines output)).

Section wave.
Context `{PyRepr} {files : Files} {json : JsonLoads}.

(** The messages already answered. *)
Definition replied_messages (state : dict) : result (list string) :=
  replies ← state_list "replies" state;
  Ok ((fun r => py_str (dget "message_id" r)) <$> dicts_of replies).

(** The approvals of a plan, among the dictionaries of the table. *)
Definition plan_approvals (state : dict) (plan_id : string) : result (list dict) :=
  approvals ← state_list "approvals" state;
  Ok (List.filter (has_id "plan_id" plan_id) (dicts_of approvals)).

(** A dispatched approval whose message has no reply yet. *)
Definition is_awaiting (replied : list string) (a : dict) : bool :=
  has_id "status" "dispatched" a && truthy (dget "message_id" a)
  && negb (str_mem (py_str (dget "message_id" a)) replied).

Definition _plan_awaiting (state : dict) (plan_id : string) : result (list (string * string)) :=
  replied ← replied_messages state;
  approvals ← plan_approvals state plan_id;
  Ok ((fun a => (py_str (dget "message_id" a), py_str (dget "agent_id" a)))
      <$> List.filter (is_awaiting replied) approvals).

(** The state, and the reply's identity when one was ingested. *)
Definition _capture_reply_from_file_channel (w : wave_world) (state : dict) (agent_id message_id : string)
    : result (dict * option string) :=
  match ww_file w message_id with
  | NoReplyFile => Ok (state, None)
  | NotUtf8 => Err (ValueError "invalid utf-8")
  | ReplyText text =>
      match _extract_structured_reply text with
      | None => Ok (state, None)
      | Some reply =>
          let i := ww_reply_ids w message_id in
          match record_reply state i (ww_now w) agent_id message_id reply with
          | Ok (state', _) => Ok (state', Some (ri_reply i))
          | Err (KeyError _) => Ok (state, None)
          | Err e => Err e
          end
      end
  end.

Definition ingest_one (w : wave_world) (acc : dict * list (string * string)) (awaiting : string * string)
    : result (dict * list (string * string)) :=
  '(state, captured) ← _capture_reply_from_file_channel w acc.1 awaiting.2 awaiting.1;
  Ok (state, match captured with Some reply_id => acc.2 ++ [(awaiting.1, reply_id)] | None => acc.2 end).

Definition _ingest_plan_reply_files (w : wave_world) (state : dict) (plan_id : string)
    : result (dict * list (string * string)) :=
  awaiting ← _plan_awaiting state plan_id;
  foldM (ingest_one w) (state, []) awaiting.

(** ** Automatic approval *)

Definition auto_approve_one (now : string) (state : dict) (approval : dict) : result dict :=
  '(state', _) ← decide_approval state (str_get "approval_id" approval) "approved" (Some "autonomous") now;
  Ok state'.

Definition auto_approve (c : wave_config) (budget : Z) (now : string) (state : dict) (plan_id : string)
    : result (dict * list dict * list dict) :=
  approvals ← plan_approvals state plan_id;
  let pending := List.filter (has_id "status" "pending") approvals in
  '(selected, skipped) ← select_auto_approvals (PDict <$> pending) (wc_allowed c) budget;
  state' ← foldM (auto_approve_one now) state selected;
  Ok (state', selected, skipped).

(** ** Busy agents *)

(** [add] to a set, and membership in one. *)
Definition set_add (v : pyval) (s : list pyval) : result (list pyval) :=
  if hashable v then Ok (v :: s) else Err (TypeError "unhashable type").
Definition set_mem (v : pyval) (s : list pyval) : result bool :=
  if hashable v then Ok (in_list v s) else Err (TypeError "unhashable type").

Definition busy_step (replied : list pyval) (busy : list pyval) (step : dict) : result (list pyval) :=
  if status_is "dispatched" step && truthy (dget "message_id" step) then
    answered ← set_mem (dget "message_id" step) replied;
    if answered : bool then Ok busy else set_add (dget "agent_id" step) busy
  else Ok busy.

Definition busy_plan (state : dict) (replied : list pyval) (busy : list pyval) (plan : dict) : result (list pyval) :=
  match plan_status state (str_get "plan_id" plan) with
  | Ok status => foldM (busy_step replied) busy (pv_steps status)
  | Err (KeyError _) => Ok busy
  | Err e => Err e
  end.

Definition _busy_agents (state : dict) : result (list pyval) :=
  replies ← state_list "replies" state;
  replied ← foldM (fun s r => set_add (dget "message_id" r) s) [] (dicts_of replies);
  plans ← state_list "plans" state;
  foldM (busy_plan state replied) [] (dicts_of plans).

(** ** Dispatching *)

(** [_step_is_incomplete] *)
Definition step_is_incomplete (replied : list string) (a : dict) : bool :=
  if has_id "status" "rejected" a then false
  else negb (has_id "status" "dispatched" a && str_mem (py_str (dget "message_id" a)) replied).

Inductive hold := SequenceHeld | ContentionHeld | DispatchBlocked (blocker : string).

(** What the loop accumulates over the approved approvals. *)
Record loop_state := {
  ls_state : dict; ls_busy : list pyval; ls_dispatched : list (dict * string); ls_held : list (dict * hold);
  ls_error : bool
}.

(** One approval; [held] says that its inputs are not ready. *)
Definition dispatch_one (agents : list agent) (send : string -> send_world) (held : dict -> result bool)
    (l : loop_state) (approval : dict) : result loop_state :=
  let approval_id := str_get "approval_id" approval in
  let agent_id := dget "agent_id" approval in
  let hold_it why := {| ls_state := ls_state l; ls_busy := ls_busy l; ls_dispatched := ls_dispatched l;
                        ls_held := ls_held l ++ [(approval, why)]; ls_error := ls_error l |} in
  waits ← held approval;
  if waits : bool then Ok (hold_it SequenceHeld)
  else
    occupied ← set_mem agent_id (ls_busy l);
    if occupied : bool then Ok (hold_it ContentionHeld)
    else
      blocker ← preview_blocker agents (ls_state l) approval;
      match blocker with
      | Some b => Ok (hold_it (DispatchBlocked b))
      | None =>
          Ok (match _dispatch_approved_approval agents (ls_state l) approval approval_id (send approval_id) with
              | (state', Ok message_id) =>
                  {| ls_state := state'; ls_busy := agent_id :: ls_busy l;
                     ls_dispatched := ls_dispatched l ++ [(approval, message_id)];
                     ls_held := ls_held l; ls_error := ls_error l |}
              | (state', Err _) =>
                  {| ls_state := state'; ls_busy := ls_busy l; ls_dispatched := ls_dispatched l;
                     ls_held := ls_held l; ls_error := true |}
              end)
      end.

(** The guard of the single wave: an ancestor of the step is incomplete. *)
Definition ancestors_hold (incomplete : gset Z) (ancestors : gmap Z (list Z)) (approval : dict) : result bool :=
  number ← step_int approval;
  Ok (held_for_inputs incomplete ancestors number).

(** The guard of the wave over all plans: it is not the earliest incomplete step. *)
Definition earliest_hold (incomplete : list Z) (approval : dict) : result bool :=
  match incomplete with
  | [] => Ok false
  | n :: ns => number ← step_int approval; Ok (negb (number =? list_minZ n ns)%Z)
  end.

Definition incomplete_numbers (replied : list string) (approvals : list dict) : result (list Z) :=
  mapR step_int (List.filter (step_is_incomplete replied) approvals).

(** Step 3 of the single wave. *)
Definition dispatch_ready (c : wave_config) (w : wave_world) (state : dict) (plan_id : string) : result loop_state :=
  replied ← replied_messages state;
  approvals ← plan_approvals state plan_id;
  incomplete ← incomplete_numbers replied approvals;
  steps ← _plan_body_steps state plan_id;
  let ancestors := default ∅ (derive_step_ancestors steps) in
  busy ← _busy_agents state;
  foldM (dispatch_one (wc_agents c) (ww_send w) (ancestors_hold (list_to_set incomplete) ancestors))
    {| ls_state := state; ls_busy := busy; ls_dispatched := []; ls_held := []; ls_error := false |}
    (List.filter (has_id "status" "approved") approvals).

(** ** The single wave *)

Record wave_result := {
  wr_auto_approved : list dict; wr_skipped : list dict; wr_captured : list (string * string);
  wr_iteration : option (refusal + append_result); wr_dispatched : list (dict * string);
  wr_held : list (dict * hold); wr_stopped_reason : string; wr_next_command : string
}.

(** The review iteration hook. *)
Definition review_hook (c : wave_config) (w : wave_world) (state : dict) (plan_id : string)
    : result (dict * option (refusal + append_result)) :=
  if (0 <? wc_max_review_rounds c)%Z then
    '(state', out) ← append_review_iteration state plan_id (wc_max_review_rounds c) (wc_review_binding c) None
                       (ww_step_ids w plan_id) (ww_now w);
    Ok (state', Some out)
  else Ok (state, None).

Definition is_blocked_hold (h : dict * hold) : bool := match h.2 with DispatchBlocked _ => true | _ => false end.

(** The first entry with the smallest step number: the head after a stable sort. *)
Fixpoint earliest (l : list (string * string * Z)) : option (string * string * Z) :=
  match l with
  | [] => None
  | x :: l => match earliest l with Some y => if (y.2 <? x.2)%Z then Some y else Some x | None => Some x end
  end.

(** The awaited replies of the plan, with their step. *)
Definition awaiting_entry (a : dict) : result (string * string * Z) :=
  number ← step_int a;
  Ok (py_str (dget "message_id" a), py_str (dget "agent_id" a), number).
Definition awaiting_after (state : dict) (plan_id : string) : result (list (string * string * Z)) :=
  replied ← replied_messages state;
  approvals ← plan_approvals state plan_id;
  mapR awaiting_entry (List.filter (is_awaiting replied) approvals).

(** Steps 4 and 4b: the gate after the wave. *)
Definition wave_gate (state : dict) (plan_id : string) (l : loop_state) : result (string * string) :=
  '(review, _) ← leader_review state plan_id;
  let '(stopped, next) := run_loop_gate review (ls_error l) plan_id in
  if existsb (fun h => negb (is_blocked_hold h)) (ls_held l) && negb (existsb is_blocked_hold (ls_held l))
     && String.eqb stopped "blocked" then
    waiting ← awaiting_after state plan_id;
    Ok (match earliest waiting with
        | Some (message_id, agent_id, _) =>
            ("waiting_for_reply",
             "agentdeck capture-reply --agent " +:+ agent_id +:+ " --message-id " +:+ message_id)
        | None => (stopped, next)
        end)
  else Ok (stopped, next).

Definition _run_loop_single_wave (c : wave_config) (w : wave_world) (state : dict) (plan_id : string)
    : result (dict * wave_result) :=
  '(state, selected, skipped) ← auto_approve c (wc_max_approvals c) (ww_now w) state plan_id;
  '(state, captured) ← _ingest_plan_reply_files w state plan_id;
  '(state, out) ← review_hook c w state plan_id;
  l ← dispatch_ready c w state plan_id;
  '(stopped, next) ← wave_gate (ls_state l) plan_id l;
  Ok (ls_state l,
      {| wr_auto_approved := selected; wr_skipped := skipped; wr_captured := captured; wr_iteration := out;
         wr_dispatched := ls_dispatched l; wr_held := ls_held l; wr_stopped_reason := stopped;
         wr_next_command := next |}).

(** ** One wave over all plans *)

Record plan_result := {
  pr_plan_id : string; pr_auto_approved : list dict; pr_skipped : list dict; pr_captured : list (string * string);
  pr_iterations : list (refusal + append_result); pr_dispatched : list (dict * string); pr_held : list (dict * hold);
  pr_gate : string; pr_next_command : string
}.

Record all_state := { as_state : dict; as_busy : list pyval; as_budget : Z; as_results : list plan_result }.

(** Dispatch with the earliest-step guard and the busy agents of the whole wave. *)
Definition dispatch_earliest (c : wave_config) (w : wave_world) (state : dict) (busy : list pyval) (plan_id : string)
    : result loop_state :=
  replied ← replied_messages state;
  approvals ← plan_approvals state plan_id;
  incomplete ← incomplete_numbers replied approvals;
  foldM (dispatch_one (wc_agents c) (ww_send w) (earliest_hold incomplete))
    {| ls_state := state; ls_busy := busy; ls_dispatched := []; ls_held := []; ls_error := false |}
    (List.filter (has_id "status" "approved") approvals).

(** The hook of a plan whose gate is already complete: [None] skips the plan. *)
Definition pre_gate_hook (c : wave_config) (w : wave_world) (state : dict) (plan_id : string)
    : result (dict * option (list (refusal + append_result) * bool)) :=
  '(review, _) ← leader_review state plan_id;
  if negb (String.eqb (run_loop_gate review false plan_id).1 "complete") then Ok (state, Some ([], false))
  else
    '(state, out) ← review_hook c w state plan_id;
    Ok (state, match out with Some (inr r) => Some ([inr r], true) | _ => None end).

Definition wave_of_plan (c : wave_config) (w : wave_world) (acc : all_state) (plan : dict) : result all_state :=
  let plan_id := str_get "plan_id" plan in
  '(state, hook) ← pre_gate_hook c w (as_state acc) plan_id;
  match hook with
  | None => Ok {| as_state := state; as_busy := as_busy acc; as_budget := as_budget acc; as_results := as_results acc |}
  | Some (iterations, already_run) =>
      '(state, selected, skipped) ← auto_approve c (as_budget acc) (ww_now w) state plan_id;
      '(state, captured) ← _ingest_plan_reply_files w state plan_id;
      '(state, out) ← (if already_run : bool then Ok (state, None) else review_hook c w state plan_id);
      l ← dispatch_earliest c w state (as_busy acc) plan_id;
      '(review, _) ← leader_review (ls_state l) plan_id;
      let '(gate, next) := run_loop_gate review (ls_error l) plan_id in
      Ok {| as_state := ls_state l; as_busy := ls_busy l;
            as_budget := (as_budget acc - Z.of_nat (length selected))%Z;
            as_results := as_results acc ++
              [{| pr_plan_id := plan_id; pr_auto_approved := selected; pr_skipped := skipped; pr_captured := captured;
                  pr_iterations := iterations ++ match out with Some o => [o] | None => [] end;
                  pr_dispatched := ls_dispatched l; pr_held := ls_held l; pr_gate := gate; pr_next_command := next |}] |}
  end.

Definition _run_loop_all (c : wave_config) (w : wave_world) (state : dict) : result all_state :=
  busy ← _busy_agents state;
  plans ← state_list "plans" state;
  foldM (wave_of_plan c w) {| as_state := state; as_busy := busy; as_budget := wc_max_approvals c; as_results := [] |}
    (dicts_of plans).
End wave.

(** ** The gate *)

Lemma existsb_filter {A} (p : A -> bool) l : existsb p l = true <-> List.filter p l <> [].
Proof.
  rewrite existsb_exists. split.
  - intros (x & Hx & Hp) Hf. assert (Hin : In x (List.filter p l)) by (by apply filter_In). by rewrite Hf in Hin.
  - intros Hf. destruct (List.filter p l) as [|x k] eqn:Hk; [done|]. exists x.
    apply filter_In. rewrite Hk. by left.
Qed.

Lemma find_first_is_None {A} (p : A -> bool) l : find_first p l = None <-> existsb p l = false.
Proof. by rewrite find_first_None, existsb_elem_false. Qed.

Section gate.
Context `{PyRepr}.

(** The four outcomes, by the steps of the status. *)
Lemma review_action state plan_id review :
  _leader_review_core state plan_id = Ok review ->
  exists status rows ds replies,
    plan_status state plan_id = Ok status /\ state_list "replies" state = Ok rows /\ rows = PDict <$> ds
    /\ keyed_by (dget "message_id") ds = Ok replies
    /\ let steps := pv_steps status in
       let waiting := existsb (fun s => in_flight s && negb (answered replies s)) steps in
       let done_ := existsb (fun s => in_flight s && answered replies s) steps in
       dget "next_action" review =
         PStr (if existsb (status_is "approved") steps then "dispatch_approved"
               else if waiting then "wait_for_reply"
               else if done_ && negb (existsb waits_for_approval steps) then "summarize"
               else "wait_for_approval").
Proof.
  unfold _leader_review_core. intros (status & Hst & (rows & Hrows & (ds & Hds & (replies & Hrep & Hr)%bind_Ok)%bind_Ok)%bind_Ok)%bind_Ok.
  apply mapR_as_dict in Hds. exists status, rows, ds, replies. do 4 (split; [done|]). cbv zeta.
  destruct (find_first (status_is "approved") (pv_steps status)) as [step|] eqn:Hfirst.
  { assert (existsb (status_is "approved") (pv_steps status) = true) as ->.
    { apply not_false_iff_true. intros Hn%find_first_is_None. congruence. }
    by injection Hr as <-. }
  rewrite (proj1 (find_first_is_None _ _) Hfirst). apply bind_Ok in Hr as ([w c] & Hfold & Hr).
  apply review_fold in Hfold as [Hw Hc]. cbn [app length] in Hw, Hc.
  set (waits := List.filter (fun s => in_flight s && negb (answered replies s)) (pv_steps status)) in *.
  destruct w as [|step w'].
  - assert (existsb (fun s => in_flight s && negb (answered replies s)) (pv_steps status) = false) as ->.
    { apply not_true_iff_false. rewrite existsb_filter. fold waits. intros Hne; by apply Hne. }
    destruct (existsb (fun s => in_flight s && answered replies s) (pv_steps status)) eqn:Hdone.
    + apply existsb_filter in Hdone. destruct c as [|r c].
      { by destruct (List.filter (fun s => in_flight s && answered replies s) (pv_steps status)). }
      destruct (existsb waits_for_approval (pv_steps status)) eqn:Hp.
      * apply existsb_filter in Hp. destruct (List.filter waits_for_approval _); [done|]. by injection Hr as <-.
      * destruct (List.filter waits_for_approval _) eqn:Hf; [by injection Hr as <-|].
        assert (Hne : List.filter waits_for_approval (pv_steps status) <> []) by (by rewrite Hf).
        apply existsb_filter in Hne. congruence.
    + assert (c = []) as ->.
      { destruct c; [done|]. assert (Hne : List.filter (fun s => in_flight s && answered replies s) (pv_steps status) <> [])
          by (by destruct (List.filter (fun s => in_flight s && answered replies s) (pv_steps status))).
        apply existsb_filter in Hne. congruence. }
      by injection Hr as <-.
  - assert (existsb (fun s => in_flight s && negb (answered replies s)) (pv_steps status) = true) as ->.
    { apply existsb_filter. fold waits. by rewrite <- Hw. }
    by injection Hr as <-.
Qed.
End gate.

(** ** The dispatch loop *)

Definition agent_of (a : dict) : pyval := dget "agent_id" a.

(** The approval with this identity stands as dispatched under a message. *)
Definition marked (state : dict) (id m : string) : Prop :=
  exists pre a post, state_list "approvals" state = Ok ((PDict <$> pre) ++ PDict a :: post)
    /\ Forall (fun x => dget "approval_id" x <> PStr id) pre
    /\ dget "approval_id" a = PStr id /\ dget "status" a = PStr "dispatched" /\ dget "message_id" a = PStr m.

Lemma state_list_lookup key s s' : dlookup key s = dlookup key s' -> state_list key s = state_list key s'.
Proof. unfold state_list. by intros ->. Qed.

Lemma split_rows {A} (pre pre' : list A) a a' post post' :
  pre ++ a :: post = pre' ++ a' :: post' ->
  (pre = pre' /\ a = a' /\ post = post')
  \/ (exists mid, pre' = pre ++ a :: mid /\ post = mid ++ a' :: post')
  \/ (exists mid, pre = pre' ++ a' :: mid /\ post' = mid ++ a :: post).
Proof.
  revert pre'. induction pre as [|x pre IH]; intros [|y pre'] Heq; injection Heq as Hx Hl; subst.
  - by left.
  - right; left. by exists pre'.
  - right; right. by exists pre.
  - destruct (IH _ Hl) as [(-> & -> & ->)|[(mid & -> & ->)|(mid & -> & ->)]]; [by left|right; left|right; right]; by exists mid.
Qed.

Lemma PDict_rows_inj (l k : list dict) : PDict <$> l = PDict <$> k -> l = k.
Proof. apply list_fmap_eq_inj. by intros ? ? [= ->]. Qed.

(** Marking one approval keeps the marks of the others. *)
Lemma marked_other s s' id m id' pre a post a' :
  marked s id m -> id <> id' ->
  state_list "approvals" s = Ok ((PDict <$> pre) ++ PDict a :: post) ->
  dget "approval_id" a = PStr id' -> dget "approval_id" a' = PStr id' ->
  state_list "approvals" s' = Ok ((PDict <$> pre) ++ PDict a' :: post) ->
  marked s' id m.
Proof.
  intros (pre0 & a0 & post0 & Hs & Hpre0 & Hid0 & Hst & Hm) Hne Hrows Ha Ha' Hs'.
  rewrite Hs in Hrows. injection Hrows as Hrows. apply split_rows in Hrows as [(_ & [= ->] & _)|[(mid & Hp & Hq)|(mid & Hp & Hq)]].
  - congruence.
  - (* the marked row comes first *)
    apply fmap_app_inv in Hp as (p1 & p2 & Hp1 & Hp2 & ->).
    destruct p2 as [|x p2]; [done|]. injection Hp2 as -> Hmid. apply PDict_rows_inj in Hp1 as ->.
    rewrite fmap_app, <- app_assoc in Hs'. exists p1, x, ((PDict <$> p2) ++ PDict a' :: post). by split_and!.
  - (* the changed row comes first *)
    apply fmap_app_inv in Hp as (p1 & p2 & Hp1 & Hp2 & ->).
    destruct p2 as [|x p2]; [done|]. injection Hp2 as -> Hmid. apply PDict_rows_inj in Hp1 as ->.
    apply Forall_app in Hpre0 as [Hq1 [Hq2 Hq3]%Forall_cons].
    exists (p1 ++ a' :: p2), a0, post0. split.
    { rewrite Hs', Hq, fmap_app, <- app_assoc. cbn [fmap list_fmap app]. by rewrite Hmid. }
    split; [|done]. apply Forall_app. split; [done|]. constructor; [congruence|done].
Qed.

Section loop.
Context `{PyRepr}.
Variable agents : list agent.
Variable send : string -> send_world.
Variable held : dict -> result bool.

Inductive one_step (l : loop_state) (a : dict) (l' : loop_state) : Prop :=
| one_held why :
    ls_state l' = ls_state l -> ls_busy l' = ls_busy l -> ls_dispatched l' = ls_dispatched l ->
    ls_held l' = ls_held l ++ [(a, why)] -> ls_error l' = ls_error l -> one_step l a l'
| one_dispatched m :
    held a = Ok false -> in_list (agent_of a) (ls_busy l) = false ->
    preview_blocker agents (ls_state l) a = Ok None ->
    _dispatch_approved_approval agents (ls_state l) a (str_get "approval_id" a) (send (str_get "approval_id" a))
      = (ls_state l', Ok m) ->
    ls_busy l' = agent_of a :: ls_busy l -> ls_dispatched l' = ls_dispatched l ++ [(a, m)] ->
    ls_held l' = ls_held l -> ls_error l' = ls_error l -> one_step l a l'
| one_failed e :
    _dispatch_approved_approval agents (ls_state l) a (str_get "approval_id" a) (send (str_get "approval_id" a))
      = (ls_state l', Err e) ->
    ls_busy l' = ls_busy l -> ls_dispatched l' = ls_dispatched l ->
    ls_held l' = ls_held l -> ls_error l' = true -> one_step l a l'.

Lemma dispatch_one_inv l a l' : dispatch_one agents send held l a = Ok l' -> one_step l a l'.
Proof.
  unfold dispatch_one. intros (waits & Hh & Hr)%bind_Ok. destruct waits; [injection Hr as <-; by eapply one_held|].
  apply bind_Ok in Hr as (occ & Ho & Hr). unfold set_mem in Ho. destruct (hashable _); [|done]. injection Ho as <-.
  destruct (in_list _ _) eqn:Hin; [injection Hr as <-; by eapply one_held|].
  apply bind_Ok in Hr as (b & Hb & Hr). destruct b as [b|]; [injection Hr as <-; by eapply one_held|].
  destruct (_dispatch_approved_approval _ _ _ _ _) as [s' [m|e]] eqn:Hd; injection Hr as <-.
  - by eapply one_dispatched.
  - by eapply one_failed.
Qed.

Definition approval_ids (l : list dict) : list string := str_get "approval_id" <$> l.

(** What holds of the loop after the approvals [seen]. *)
Record loop_inv (s0 : dict) (busy0 : list pyval) (seen : list dict) (l : loop_state) : Prop := {
  li_plans : dlookup "plans" (ls_state l) = dlookup "plans" s0;
  li_replies : dlookup "replies" (ls_state l) = dlookup "replies" s0;
  li_busy : ls_busy l = reverse (agent_of <$> (ls_dispatched l).*1) ++ busy0;
  li_dispatched : Forall (fun am => am.1 ∈ seen /\ held am.1 = Ok false /\ in_list (agent_of am.1) busy0 = false)
                    (ls_dispatched l);
  li_distinct : ForallOrdPairs (fun x y => py_eq (agent_of y.1) (agent_of x.1) = false) (ls_dispatched l);
  li_counted : ls_error l = false -> length seen = length (ls_dispatched l) + length (ls_held l);
  li_marked : NoDup (approval_ids seen) ->
    Forall (fun am => marked (ls_state l) (str_get "approval_id" am.1) am.2) (ls_dispatched l)
}.

Lemma FOP_snoc {A} (R : A -> A -> Prop) l x :
  ForallOrdPairs R l -> Forall (fun y => R y x) l -> ForallOrdPairs R (l ++ [x]).
Proof.
  induction 1 as [|y l Hy _ IH]; intros Hx; cbn; [repeat constructor|].
  apply Forall_cons in Hx as [Hyx Hx]. constructor; [|auto]. apply Forall_app. split; [done|]. by constructor.
Qed.

Lemma in_list_app v l k : in_list v (l ++ k) = in_list v l || in_list v k.
Proof. apply existsb_app. Qed.

Lemma loop_inv_step s0 busy0 seen a l l' :
  loop_inv s0 busy0 seen l -> one_step l a l' -> loop_inv s0 busy0 (seen ++ [a]) l'.
Proof.
  intros [Hp Hr Hb Hd Hx Hn Hm] Hs.
  assert (Hd' : Forall (fun am => am.1 ∈ seen ++ [a] /\ held am.1 = Ok false /\ in_list (agent_of am.1) busy0 = false)
      (ls_dispatched l)).
  { eapply Forall_impl; [exact Hd|]. intros am (? & ? & ?). rewrite elem_of_app. auto. }
  assert (Hnd : NoDup (approval_ids (seen ++ [a])) -> NoDup (approval_ids seen) /\ str_get "approval_id" a ∉ approval_ids seen).
  { unfold approval_ids. rewrite fmap_app, NoDup_app. intros (? & Hdis & _). split; [done|]. intros Hin.
    by apply (Hdis _ Hin), list_elem_of_singleton. }
  destruct Hs as [why Hst Hbu Hdi Hh He|m Hheld Hfree _ Hdis Hbu Hdi Hh He|e Hdis Hbu Hdi Hh He].
  - split; rewrite ?Hst, ?Hbu, ?Hdi, ?Hh, ?He; try done.
    + intros Herr. rewrite !length_app, (Hn Herr). cbn. lia.
    + intros Hids. apply Hm, Hnd, Hids.
  - apply dispatch_effect in Hdis as (Hp' & Hr' & _ & -> & _ & pre & a0 & post & a1 & Hrows & Hid0 & Hpre & Hid1 & Hst1 & Hm1 & Hrows').
    rewrite Hb, in_list_app in Hfree. apply orb_false_iff in Hfree as [Hfree1 Hfree2].
    split; rewrite ?Hbu, ?Hdi, ?Hh, ?He.
    + congruence.
    + congruence.
    + rewrite Hb, !fmap_app. cbn. by rewrite reverse_app.
    + apply Forall_app. split; [done|]. constructor; [|done]. cbn. rewrite elem_of_app, list_elem_of_singleton. auto.
    + apply FOP_snoc; [done|]. apply Forall_forall. intros [y my] Hy. cbn.
      unfold in_list in Hfree1. rewrite existsb_elem_false in Hfree1. apply Hfree1. apply elem_of_reverse.
      apply list_elem_of_fmap. exists y. split; [done|]. apply list_elem_of_fmap. by exists (y, my).
    + intros Herr. rewrite !length_app, (Hn Herr). cbn. lia.
    + intros Hids. destruct (Hnd Hids) as [Hids' Hnew]. apply Forall_app. split; [|constructor; [|done]].
      * specialize (Hm Hids'). apply Forall_forall. intros [y my] Hy. cbn.
        rewrite Forall_forall in Hm. specialize (Hm _ Hy). cbn in Hm.
        eapply marked_other; [exact Hm| |exact Hrows|exact Hid0|exact Hid1|exact Hrows'].
        intros Heq. apply Hnew. rewrite <- Heq. unfold approval_ids. apply list_elem_of_fmap. exists y. split; [done|].
        rewrite Forall_forall in Hd. by destruct (Hd _ Hy).
      * exists pre, a1, post. by split_and!.
  - apply dispatch_effect in Hdis as (Hp' & Hr' & _ & Hap).
    split; rewrite ?Hbu, ?Hdi, ?Hh, ?He; try done; [congruence|congruence|].
    intros Hids. specialize (Hm (proj1 (Hnd Hids))). eapply Forall_impl; [exact Hm|].
    intros am (pre & x & post & Hrows & Hrest). exists pre, x, post. split; [|done].
    rewrite <- Hrows. by apply state_list_lookup.
Qed.

Lemma dispatch_loop_inv s0 busy0 approvals l :
  foldM (dispatch_one agents send held)
    {| ls_state := s0; ls_busy := busy0; ls_dispatched := []; ls_held := []; ls_error := false |} approvals = Ok l ->
  loop_inv s0 busy0 approvals l.
Proof.
  apply (foldM_ind (loop_inv s0 busy0)).
  - split; cbn; try done; constructor.
  - intros pre x acc acc' Hi Hx%dispatch_one_inv. by eapply loop_inv_step.
Qed.
End loop.

(** ** Where an approval gets approved *)

Definition approved_row (state : dict) (a : dict) : Prop :=
  exists rows, state_list "approvals" state = Ok rows /\ PDict a ∈ rows /\ dget "status" a = PStr "approved".

Lemma approved_row_lookup s s' a :
  dlookup "approvals" s = dlookup "approvals" s' -> approved_row s a -> approved_row s' a.
Proof. intros Heq (rows & Hr & Ha). exists rows. split; [|done]. rewrite <- Hr. by apply state_list_lookup. Qed.

Section authorised.
Context `{PyRepr} {files : Files} {json : JsonLoads}.

Lemma plan_approvals_elem state plan_id l a :
  plan_approvals state plan_id = Ok l -> a ∈ l ->
  dget "plan_id" a = PStr plan_id /\ exists rows, state_list "approvals" state = Ok rows /\ PDict a ∈ rows.
Proof.
  unfold plan_approvals. intros (rows & Hrows & [= <-])%bind_Ok [Ha Hp]%list_elem_of_In%filter_In.
  apply has_id_iff in Hp. split; [done|]. exists rows. split; [done|].
  apply elem_of_dicts_of. by apply list_elem_of_In.
Qed.

Lemma capture_lookup w state agent m state' cap key :
  _capture_reply_from_file_channel w state agent m = Ok (state', cap) ->
  key ∉ ["inbox"; "jobs"; "attempts"; "messages"; "artifacts"; "replies"] -> dlookup key state' = dlookup key state.
Proof.
  unfold _capture_reply_from_file_channel. intros Hc Hk. destruct (ww_file w m); [by injection Hc as <-|done|].
  destruct (_extract_structured_reply text); [|by injection Hc as <-].
  destruct (record_reply _ _ _ _ _ _) as [[s1 r]|[]] eqn:Hr; try done; injection Hc as <- <-; [|done].
  by eapply record_reply_lookup.
Qed.

Lemma ingest_lookup w state plan_id state' cap key :
  _ingest_plan_reply_files w state plan_id = Ok (state', cap) ->
  key ∉ ["inbox"; "jobs"; "attempts"; "messages"; "artifacts"; "replies"] -> dlookup key state' = dlookup key state.
Proof.
  unfold _ingest_plan_reply_files. intros (awaiting & _ & Hf)%bind_Ok Hk.
  apply (foldM_ind (fun _ acc => dlookup key acc.1 = dlookup key state)) in Hf; [done|done|].
  intros _ x [s1 c1] acc' Hs ([s2 c2] & Hc & [= <-])%bind_Ok. cbn in *. rewrite <- Hs. by eapply capture_lookup.
Qed.

Lemma review_hook_approved c w state plan_id state' out a :
  review_hook c w state plan_id = Ok (state', out) -> approved_row state' a -> approved_row state a.
Proof.
  unfold review_hook. destruct (0 <? wc_max_review_rounds c)%Z; [|by intros [= <- _]].
  intros ([s1 [x|r]] & Ha & [= <- _])%bind_Ok.
  - apply append_refused in Ha as ->. done.
  - apply append_inv in Ha as (i & plans & plans' & approvals & _ & _ & _ & Hnew & Hold & _).
    generalize dependent ((adopt_override None i).1.1). intros new Hnew.
    intros (rows & Hrows & Hin & Hst). unfold state_list, dget in *.
    destruct (dlookup "approvals" s1) as [v|]; [|discriminate Hnew]. subst v. cbn in Hrows. injection Hrows as <-.
    assert (Hap : state_list "approvals" state = Ok approvals).
    { unfold state_list. destruct Hold as [Hold|[-> ->]]; [|done]. by destruct (dlookup "approvals" state); simplify_eq. }
    exists approvals. split; [done|]. split; [|done].
    apply elem_of_app in Hin as [Hin|Hin]; [done|]. exfalso.
    apply list_elem_of_lookup in Hin as (k & Hk). apply list_lookup_imap_Some in Hk as (step & _ & [= ->]).
    discriminate Hst.
Qed.

Lemma auto_approve_fold now selected state state' a :
  foldM (auto_approve_one now) state selected = Ok state' -> approved_row state' a ->
  approved_row state a \/ exists x, x ∈ selected /\ dget "approval_id" a = PStr (str_get "approval_id" x).
Proof.
  revert state. induction selected as [|x selected IH]; intros state; cbn [foldM]; [intros [= <-]; by left|].
  intros (s1 & ([s2 a2] & Hd & [= <-])%bind_Ok & Hf)%bind_Ok Ha.
  destruct (IH _ Hf Ha) as [(rows & Hrows & Hin & Hst)|(y & Hy & Hid)]; [|right; exists y; split; [by right|done]].
  apply change_approval_Ok in Hd as (pre & a0 & post & Hold & Hid0 & _ & _ & ->).
  rewrite state_list_dset in Hrows. injection Hrows as <-.
  apply elem_of_app in Hin as [Hin|[Hin|Hin]%elem_of_cons].
  - left. exists ((PDict <$> pre) ++ PDict a0 :: post). split; [done|]. split; [|done]. apply elem_of_app; by left.
  - right. exists x. split; [by left|]. apply has_id_iff in Hid0.
    assert (a = decided "approved" now (Some "autonomous") a0) as -> by (injection Hin as ->; reflexivity).
    rewrite decided_get; [done|not_in].
  - left. exists ((PDict <$> pre) ++ PDict a0 :: post). split; [done|]. split; [|done]. apply elem_of_app; right; by right.
Qed.

Lemma select_Ok pending allowed max selected skipped :
  select_auto_approvals (PDict <$> pending) allowed max = Ok (selected, skipped) ->
  selected = take (Z.to_nat max) (List.filter (allowlisted allowed) pending).
Proof.
  unfold select_auto_approvals. destruct (hashable_agents (PDict <$> pending)) eqn:Hh;
    [rewrite select_fold by done|by rewrite select_fold_unhashable].
  cbn [length app]. rewrite Nat.sub_0_r, dicts_of_PDicts. by intros [= <- _].
Qed.

(** What automatic approval may touch. *)
Definition auto_approved (c : wave_config) (budget : Z) (state : dict) (plan_id : string) (selected : list dict) : Prop :=
  (Z.of_nat (length selected) <= Z.max 0 budget)%Z
  /\ Forall (fun x => (exists s, dget "agent_id" x = PStr s /\ s ∈ wc_allowed c)
                      /\ dget "status" x = PStr "pending" /\ dget "plan_id" x = PStr plan_id
                      /\ exists rows, state_list "approvals" state = Ok rows /\ PDict x ∈ rows) selected.

Lemma auto_approve_Ok c budget now state plan_id state' selected skipped :
  auto_approve c budget now state plan_id = Ok (state', selected, skipped) ->
  auto_approved c budget state plan_id selected
  /\ forall a, approved_row state' a ->
       approved_row state a \/ exists x, x ∈ selected /\ dget "approval_id" a = PStr (str_get "approval_id" x).
Proof.
  unfold auto_approve. intros (approvals & Hap & ([sel skip] & Hsel & (s1 & Hf & [= <- <- <-])%bind_Ok)%bind_Ok)%bind_Ok.
  split; [|by intros a; apply (auto_approve_fold now)]. apply select_Ok in Hsel as ->. split.
  - rewrite length_take. lia.
  - apply Forall_take, Forall_forall. intros x [[Hx Hpend]%filter_In Hall]%list_elem_of_In%filter_In.
    apply list_elem_of_In in Hx. destruct (plan_approvals_elem _ _ _ _ Hap Hx) as [Hpl Hrow].
    split; [|by apply has_id_iff in Hpend]. unfold allowlisted in Hall. destruct (dget "agent_id" x); try done.
    eexists; split; [done|]. by apply in_strs_spec.
Qed.
End authorised.

(** ** Agents at work *)

(** The agent of a step of some plan works on it: the latest approval of the
    step in the plan is dispatched, with a message no reply answers. *)
Definition at_work `{PyRepr} (st : dict) (agent : pyval) : Prop :=
  exists plan_id plan step approvals a replies,
    plan_record st plan_id = Ok plan /\ step ∈ dicts_of (status_plan_steps plan)
    /\ plan_approvals st plan_id = Ok approvals
    /\ last (List.filter (fun b => py_eq (dget "step" step) (dget "step" b)) approvals) = Some a
    /\ dget "status" a = PStr "dispatched" /\ truthy (dget "message_id" a) = true
    /\ state_list "replies" st = Ok replies
    /\ (forall r, PDict r ∈ replies -> py_eq (dget "message_id" a) (dget "message_id" r) = false)
    /\ dget "agent_id" step = agent.

(** An exception other than the [KeyError] the loop over the plans swallows. *)
Definition no_key {A} (r : result A) : Prop := forall k, r <> Err (KeyError k).
Lemma no_key_bind {A B} (m : result A) (f : A -> result B) : no_key m -> (forall x, no_key (f x)) -> no_key (m ≫= f).
Proof. intros Hm Hf k. destruct m as [x|e]; cbn; [apply Hf|]. intros [= ->]. by apply (Hm k). Qed.
Lemma no_key_mapR {A B} (f : A -> result B) l : (forall x, no_key (f x)) -> no_key (mapR f l).
Proof. intros Hf. induction l as [|x l IH]; cbn [mapR]; [done|]. apply no_key_bind; [done|intros y]. by apply no_key_bind. Qed.
Lemma no_key_foldM {A B} (f : B -> A -> result B) acc l : (forall b x, no_key (f b x)) -> no_key (foldM f acc l).
Proof. intros Hf. revert acc. induction l as [|x l IH]; intros acc; cbn [foldM]; [done|]. apply no_key_bind; auto. Qed.
Lemma no_key_state_list key st : no_key (state_list key st).
Proof. unfold state_list. destruct (dlookup key st) as [v|]; [|done]. by destruct v. Qed.
Lemma no_key_py_int v : no_key (py_int v).
Proof. unfold py_int, int_of_str. repeat case_match; done. Qed.

Section at_work.
Context `{PyRepr} {files : Files} {json : JsonLoads}.

Lemma no_key_status_step deps by_step messages acc step : no_key (status_step deps by_step messages acc step).
Proof.
  unfold status_step, status_item, keyed_get, count_status, step_int.
  repeat first [apply no_key_bind; [|intros ?] | apply no_key_py_int | case_match | done].
Qed.

Lemma status_of_plan st plan_id plan : plan_record st plan_id = Ok plan -> no_key (plan_status st plan_id).
Proof.
  intros Hp. unfold plan_status. rewrite Hp. cbn [mbind result_bind]. apply no_key_bind.
  - unfold approvals_by_step, rows_where, keyed_by. repeat (apply no_key_bind; [|intros ?]); try done; try apply no_key_state_list.
    + apply no_key_mapR. by intros [].
    + apply no_key_mapR. intros y. by case_match.
  - intros [approvals by_step]. apply no_key_bind; [apply no_key_state_list|intros messages].
    apply no_key_bind; [apply no_key_foldM; intros; apply no_key_status_step|by intros []].
Qed.

Lemma kget_last (key : dict -> pyval) k l m : keyed_by key l = Ok m -> kget k m = last (List.filter (fun x => py_eq k (key x)) l).
Proof.
  unfold keyed_by. intros Hm. assert (m = (fun x => (key x, x)) <$> l) as ->.
  { revert m Hm. induction l as [|x l IH]; intros m; cbn [mapR]; [by intros [= <-]|].
    intros (y & Hy & (ys & Hys & [= <-])%bind_Ok)%bind_Ok. rewrite (IH _ Hys). destruct (hashable _); [|done]. by injection Hy as <-. }
  clear Hm. unfold kget. induction l as [|x l IH] using rev_ind; [done|].
  rewrite fmap_app, reverse_app, !List.filter_app. cbn [fmap list_fmap reverse rev_append app List.filter fst].
  destruct (py_eq k (key x)); [by rewrite last_snoc|]. by rewrite app_nil_r.
Qed.

Lemma rows_where_filter p rows ds : rows_where p rows = Ok ds -> ds = List.filter p (dicts_of rows).
Proof.
  unfold rows_where. intros (all & Ha & [= <-])%bind_Ok. f_equal. revert all Ha.
  induction rows as [|v rows IH]; intros all; cbn [mapR]; [by intros [= <-]|].
  intros (y & Hy & (ys & Hys & [= <-])%bind_Ok)%bind_Ok. destruct v; try done. injection Hy as ->.
  unfold dicts_of in *. cbn [omap list_omap]. by rewrite <- (IH _ Hys).
Qed.

(** The steps of a plan's status that are at work are among the busy agents. *)
Lemma busy_step_fold replied steps busy busy' : foldM (busy_step replied) busy steps = Ok busy' ->
  (forall x, x ∈ busy -> x ∈ busy')
  /\ forall s, s ∈ steps -> status_is "dispatched" s = true -> truthy (dget "message_id" s) = true ->
       in_list (dget "message_id" s) replied = false -> dget "agent_id" s ∈ busy'.
Proof.
  revert busy. induction steps as [|s steps IH]; intros busy; cbn [foldM].
  { intros [= <-]. split; [done|]. by intros s ?%elem_of_nil. }
  intros (b1 & Hs & [Hkeep Hall]%IH)%bind_Ok.
  assert (Hb : (forall x, x ∈ busy -> x ∈ b1) /\ (status_is "dispatched" s = true -> truthy (dget "message_id" s) = true ->
             in_list (dget "message_id" s) replied = false -> dget "agent_id" s ∈ b1)).
  { unfold busy_step in Hs. destruct (status_is _ _ && truthy _) eqn:E.
    - apply bind_Ok in Hs as (ans & Ha & Hs). unfold set_mem in Ha. destruct (hashable (dget "message_id" s)); [|done]. injection Ha as <-.
      destruct (in_list _ _); [injection Hs as <-; by split|]. unfold set_add in Hs. destruct (hashable _); [|done].
      injection Hs as <-. split; [by right|]. by left.
    - injection Hs as <-. split; [done|]. intros H1 H2. by rewrite H1, H2 in E. }
  destruct Hb as [Hb1 Hb2]. split; [auto|]. intros x [->|Hx]%elem_of_cons; auto.
Qed.

Lemma busy_plans_fold st replied plans busy busy' : foldM (busy_plan st replied) busy plans = Ok busy' ->
  (forall x, x ∈ busy -> x ∈ busy')
  /\ forall plan status s, plan ∈ plans -> plan_status st (str_get "plan_id" plan) = Ok status -> s ∈ pv_steps status ->
       status_is "dispatched" s = true -> truthy (dget "message_id" s) = true ->
       in_list (dget "message_id" s) replied = false -> dget "agent_id" s ∈ busy'.
Proof.
  revert busy. induction plans as [|p plans IH]; intros busy; cbn [foldM].
  { intros [= <-]. split; [done|]. by intros ??? ?%elem_of_nil. }
  intros (b1 & Hp & [Hkeep Hall]%IH)%bind_Ok. unfold busy_plan in Hp.
  destruct (plan_status st (str_get "plan_id" p)) as [v|e] eqn:Hst.
  - apply busy_step_fold in Hp as [H1 H2]. split; [auto|]. intros plan status s [->|Hin]%elem_of_cons Hs; [|by eapply Hall].
    rewrite Hst in Hs. injection Hs as <-. intros ????. by apply Hkeep, H2.
  - assert (b1 = busy) as -> by (by destruct e; try done; injection Hp as <-). split; [done|].
    intros plan status s [->|Hin]%elem_of_cons Hs; [by rewrite Hst in Hs|by eapply Hall].
Qed.

Lemma replied_fold replies acc m : foldM (fun s r => set_add (dget "message_id" r) s) acc replies = Ok m ->
  m = reverse (dget "message_id" <$> replies) ++ acc.
Proof.
  revert acc. induction replies as [|r replies IH]; intros acc; cbn [foldM]; [by intros [= <-]|].
  intros (a1 & Ha & ->%IH)%bind_Ok. unfold set_add in Ha. destruct (hashable _); [|done]. injection Ha as <-.
  cbn [fmap list_fmap]. by rewrite reverse_cons, <- app_assoc.
Qed.

Lemma first_row_found (p : dict -> bool) rows d : first_row p rows = Ok (Some d) -> d ∈ dicts_of rows /\ p d = true.
Proof.
  induction rows as [|v rows IH]; cbn [first_row]; [done|]. destruct v; try done. cbn [as_dict mbind result_bind].
  destruct (p d0) eqn:E; [intros [= <-]; split; [by left|done]|]. intros [H1 H2]%IH. split; [by right|done].
Qed.

Lemma busy_agents_spec st busy : _busy_agents st = Ok busy -> forall agent, at_work st agent -> agent ∈ busy.
Proof.
  unfold _busy_agents. intros (replies & Hr & Hfold)%bind_Ok agent (id & plan & step & approvals & a & replies' & Hp & Hs & Ha & Hl & Hst & Hm & Hr' & Hno & <-).
  apply bind_Ok in Hfold as (replied & Hrep & (plans & Hpl & Hfold)%bind_Ok). rewrite Hr in Hr'. injection Hr' as <-.
  apply replied_fold in Hrep. rewrite app_nil_r in Hrep.
  pose proof Hp as Hp'. unfold plan_record in Hp'. rewrite Hpl in Hp'. cbn [mbind result_bind] in Hp'.
  apply bind_Ok in Hp' as ([p|] & Hfirst & Hp'); [injection Hp' as ->|done]. apply first_row_found in Hfirst as [Hin Hid].
  apply has_id_iff in Hid. assert (Hsid : str_get "plan_id" plan = id).
  { unfold str_get. unfold dget in Hid. destruct (dlookup "plan_id" plan) as [v|]; [by subst v|done]. }
  destruct (busy_plans_fold _ _ _ _ _ Hfold) as [_ Hall].
  destruct (plan_status st id) as [v|e] eqn:Hv.
  2:{ exfalso. pose proof (status_of_plan st id plan Hp) as Hk. clear Hall.
      assert (Hraise : forall busy0 l b, plan ∈ l -> foldM (busy_plan st replied) busy0 l = Ok b -> False); [|by eapply Hraise].
      clear Hfold. intros busy0 l b Hl'. revert busy0. induction l as [|x l IH]; intros busy0; [by apply elem_of_nil in Hl'|].
      cbn [foldM]. intros (b1 & Hb & Hf)%bind_Ok. apply elem_of_cons in Hl' as [<-|Hl']; [|by eapply IH].
      unfold busy_plan in Hb. rewrite Hsid, Hv in Hb. rewrite Hv in Hk. destruct e; try done. by apply (Hk key). }
  destruct (plan_status_spec _ _ _ Hv) as (plan' & approvals' & by_step & Hplan & Hby & Hitems & _).
  rewrite Hp in Hplan. injection Hplan as <-.
  apply list_elem_of_lookup in Hs as [i Hi]. destruct (Forall2_lookup_l _ _ _ _ _ Hitems Hi) as (item & Hitem & Hf & Hstat & Hids).
  unfold approvals_by_step in Hby. unfold plan_approvals in Ha. apply bind_Ok in Ha as (rows & Hrows & [= <-]).
  rewrite Hrows in Hby. cbn [mbind result_bind] in Hby. apply bind_Ok in Hby as (aps & Haps & Hby). apply bind_Ok in Hby as (m & Hkm & [= <- <-]).
  apply rows_where_filter in Haps as ->. pose proof (kget_last _ (dget "step" step) _ _ Hkm) as Hk. rewrite Hl in Hk.
  rewrite <- (Hf "agent_id") by (right; left). eapply (Hall plan v item); [done|by rewrite Hsid|by eapply list_elem_of_lookup_2|..].
  - unfold status_is. rewrite Hstat. unfold step_status. by rewrite Hk, Hst.
  - rewrite (Hids "message_id") by (right; left). rewrite Hk. exact Hm.
  - rewrite (Hids "message_id") by (right; left). rewrite Hk. cbn [opt_get]. subst replied.
    unfold in_list. apply existsb_elem_false. intros x Hx. apply elem_of_reverse in Hx. rewrite ?reverse_involutive in Hx. apply list_elem_of_fmap in Hx as (r & -> & Hx).
    apply Hno. by apply elem_of_dicts_of.
Qed.

Lemma free_not_at_work st busy agent agent' : _busy_agents st = Ok busy -> in_list agent busy = false -> at_work st agent' ->
  py_eq agent agent' = false.
Proof.
  intros Hb Hf Hw%(busy_agents_spec _ _ Hb). unfold in_list in Hf. rewrite existsb_elem_false in Hf. by apply Hf.
Qed.
End at_work.

(** ** The single wave *)

(** Every approval of the plan on an ancestor step is complete. *)
Definition inputs_ready `{PyRepr} (replied : list string) (approvals : list dict) (ancestors : gmap Z (list Z)) (a : dict) : Prop :=
  exists n, step_int a = Ok n
    /\ forall b x, b ∈ approvals -> step_int b = Ok x -> x ∈ ancestors_for ancestors n ->
         step_is_incomplete replied b = false.

Section single.
Context `{PyRepr} {files : Files} {json : JsonLoads}.

Lemma ancestors_hold_ready replied approvals incomplete ancestors a :
  incomplete_numbers replied approvals = Ok incomplete ->
  ancestors_hold (list_to_set incomplete) ancestors a = Ok false -> inputs_ready replied approvals ancestors a.
Proof.
  unfold incomplete_numbers, ancestors_hold. intros Hinc (n & Hn & [= Hh])%bind_Ok. exists n. split; [done|].
  intros b x Hb Hx Hanc. destruct (step_is_incomplete replied b) eqn:Hi; [|done]. exfalso.
  unfold held_for_inputs in Hh. rewrite existsb_elem_false in Hh. specialize (Hh _ Hanc).
  apply bool_decide_eq_false in Hh. apply Hh, elem_of_list_to_set.
  apply mapR_Ok in Hinc. assert (Hb' : b ∈ List.filter (step_is_incomplete replied) approvals).
  { apply list_elem_of_In, filter_In. by rewrite <- list_elem_of_In. }
  apply list_elem_of_lookup in Hb' as [k Hk]. destruct (Forall2_lookup_l _ _ _ _ _ Hinc Hk) as (y & Hy & Hstep).
  rewrite Hx in Hstep. injection Hstep as ->. by eapply list_elem_of_lookup_2.
Qed.

(** The facts of the wave at the moment it starts dispatching. *)
Record wave_facts (st : dict) (plan_id : string) := {
  wf_approvals : list dict; wf_replied : list string; wf_ancestors : gmap Z (list Z); wf_busy : list pyval;
  wf_approvals_ok : plan_approvals st plan_id = Ok wf_approvals;
  wf_replied_ok : replied_messages st = Ok wf_replied;
  wf_ancestors_ok : exists steps, _plan_body_steps st plan_id = Ok steps
    /\ wf_ancestors = default ∅ (derive_step_ancestors steps);
  wf_busy_ok : _busy_agents st = Ok wf_busy
}.
Arguments wf_approvals {_ _} _.
Arguments wf_replied {_ _} _.
Arguments wf_ancestors {_ _} _.
Arguments wf_busy {_ _} _.

Lemma dispatch_ready_inv c w st plan_id l :
  dispatch_ready c w st plan_id = Ok l ->
  exists f : wave_facts st plan_id,
    Forall (fun am => am.1 ∈ List.filter (has_id "status" "approved") (wf_approvals f)
              /\ inputs_ready (wf_replied f) (wf_approvals f) (wf_ancestors f) am.1
              /\ in_list (agent_of am.1) (wf_busy f) = false) (ls_dispatched l)
    /\ ForallOrdPairs (fun x y => py_eq (agent_of y.1) (agent_of x.1) = false) (ls_dispatched l)
    /\ (NoDup (approval_ids (List.filter (has_id "status" "approved") (wf_approvals f))) ->
          Forall (fun am => marked (ls_state l) (str_get "approval_id" am.1) am.2) (ls_dispatched l))
    /\ dlookup "plans" (ls_state l) = dlookup "plans" st /\ dlookup "replies" (ls_state l) = dlookup "replies" st.
Proof.
  unfold dispatch_ready. intros (replied & Hrep & (approvals & Hap & (incomplete & Hinc & (steps & Hsteps & (busy & Hbusy & Hf)%bind_Ok)%bind_Ok)%bind_Ok)%bind_Ok)%bind_Ok.
  apply dispatch_loop_inv in Hf as [Hp Hr _ Hd Hx _ Hm].
  exists {| wf_approvals := approvals; wf_replied := replied;
            wf_ancestors := default ∅ (derive_step_ancestors steps); wf_busy := busy; wf_approvals_ok := Hap;
            wf_replied_ok := Hrep; wf_ancestors_ok := ex_intro _ steps (conj Hsteps eq_refl); wf_busy_ok := Hbusy |}.
  cbn [wf_approvals wf_replied wf_ancestors wf_busy]. split; [|by split_and!].
  eapply Forall_impl; [exact Hd|]. intros am (Hin & Hh & Hfree). split; [done|]. split; [|done].
  by eapply ancestors_hold_ready.
Qed.

(** The document a wave starts dispatching from: after automatic approval, the
    ingestion of reply files and the review hook. *)
Definition before_dispatch (c : wave_config) (w : wave_world) (state : dict) (plan_id : string) : result dict :=
  '(state, _, _) ← auto_approve c (wc_max_approvals c) (ww_now w) state plan_id;
  '(state, _) ← _ingest_plan_reply_files w state plan_id;
  '(state, _) ← review_hook c w state plan_id;
  Ok state.

(** C2: Let [st] be the document in which the wave starts dispatching.  Whatever
    it dispatches belongs to the plan and is approved in [st], every approval of
    an ancestor of its step is rejected or answered there, and its agent is not
    at work there: no step of any plan is assigned to it whose latest approval is
    dispatched with a message that no reply answers (work given outside the steps
    of a plan does not count); no agent is given two tasks; and the wave leaves
    each dispatched approval marked with its message, without touching the plans
    or the replies of [st]. *)
Theorem wave_dispatch_safe c w state plan_id state' r :
  _run_loop_single_wave c w state plan_id = Ok (state', r) ->
  exists st (f : wave_facts st plan_id),
    before_dispatch c w state plan_id = Ok st
    /\ Forall (fun am => am.1 ∈ wf_approvals f /\ dget "status" am.1 = PStr "approved"
              /\ inputs_ready (wf_replied f) (wf_approvals f) (wf_ancestors f) am.1
              /\ forall agent, at_work st agent -> py_eq (agent_of am.1) agent = false) (wr_dispatched r)
    /\ ForallOrdPairs (fun x y => py_eq (agent_of y.1) (agent_of x.1) = false) (wr_dispatched r)
    /\ (NoDup (approval_ids (List.filter (has_id "status" "approved") (wf_approvals f))) ->
          Forall (fun am => marked state' (str_get "approval_id" am.1) am.2) (wr_dispatched r))
    /\ dlookup "plans" state' = dlookup "plans" st /\ dlookup "replies" state' = dlookup "replies" st.
Proof.
  unfold _run_loop_single_wave.
  intros ([[s1 sel] skip] & Ha & ([s2 cap] & Hi & ([s3 out] & Hh & (l & Hl & ([stopped next] & _ & [= <- <-])%bind_Ok)%bind_Ok)%bind_Ok)%bind_Ok)%bind_Ok.
  cbn [wr_dispatched]. apply dispatch_ready_inv in Hl as (f & Hd & Hrest). exists s3, f.
  split; [unfold before_dispatch; rewrite Ha; cbn; rewrite Hi; cbn; by rewrite Hh|]. split; [|done].
  eapply Forall_impl; [exact Hd|]. intros am ([Hin Hst]%list_elem_of_In%filter_In & Hready & Hfree).
  apply has_id_iff in Hst. rewrite <- list_elem_of_In in Hin. split_and!; [done..|].
  intros agent. apply (free_not_at_work s3 (wf_busy f)); [apply wf_busy_ok|done].
Qed.

(** C1: nothing is dispatched without authority.  The wave approves at most
    [max_approvals] approvals, all of them pending approvals of this plan whose
    agent is on the allowlist; and every approval it dispatches was approved in
    the document the wave started from or carries the identity of one it
    approved itself. *)
Theorem wave_dispatch_authorised c w state plan_id state' r :
  _run_loop_single_wave c w state plan_id = Ok (state', r) ->
  auto_approved c (wc_max_approvals c) state plan_id (wr_auto_approved r)
  /\ Forall (fun am => approved_row state am.1
       \/ exists x, x ∈ wr_auto_approved r /\ dget "approval_id" am.1 = PStr (str_get "approval_id" x)) (wr_dispatched r).
Proof.
  unfold _run_loop_single_wave.
  intros ([[s1 sel] skip] & Ha & ([s2 cap] & Hi & ([s3 out] & Hh & (l & Hl & ([stopped next] & _ & [= <- <-])%bind_Ok)%bind_Ok)%bind_Ok)%bind_Ok)%bind_Ok.
  cbn [wr_dispatched wr_auto_approved]. apply auto_approve_Ok in Ha as [Hsel Hrows]. split; [done|].
  apply dispatch_ready_inv in Hl as (f & Hd & _). eapply Forall_impl; [exact Hd|].
  intros am ([Hin Hst]%list_elem_of_In%filter_In & _ & _). apply has_id_iff in Hst. rewrite <- list_elem_of_In in Hin.
  apply Hrows. destruct (plan_approvals_elem _ _ _ _ (wf_approvals_ok _ _ f) Hin) as [_ (rows & Hr & Hrow)].
  assert (H3 : approved_row s3 am.1) by (by exists rows). apply (review_hook_approved _ _ _ _ _ _ _ Hh) in H3.
  eapply approved_row_lookup; [|exact H3]. eapply ingest_lookup; [exact Hi|not_in].
Qed.

(** The gate a review leads to, from the status of the plan's steps: work
    is [blocked] exactly when an approved step is left; otherwise it waits for a
    reply exactly when a dispatched step has none; otherwise it is [complete]
    exactly when a dispatched step has its reply and no step waits for approval;
    otherwise a human has to approve.  It is never [idle]. *)
Lemma review_gate_spec state plan_id review :
  _leader_review_core state plan_id = Ok review ->
  exists status rows ds replies,
    plan_status state plan_id = Ok status /\ state_list "replies" state = Ok rows /\ rows = PDict <$> ds
    /\ keyed_by (dget "message_id") ds = Ok replies
    /\ let steps := pv_steps status in
       let gate := (run_loop_gate review false plan_id).1 in
       let left_approved := exists s, s ∈ steps /\ status_is "approved" s = true in
       let unanswered := exists s, s ∈ steps /\ in_flight s = true /\ answered replies s = false in
       let complete := (exists s, s ∈ steps /\ in_flight s = true /\ answered replies s = true)
                       /\ forall s, s ∈ steps -> waits_for_approval s = false in
       (gate = "blocked" <-> left_approved)
       /\ (gate = "waiting_for_reply" <-> ~ left_approved /\ unanswered)
       /\ (gate = "complete" <-> ~ left_approved /\ ~ unanswered /\ complete)
       /\ (gate = "needs_human_approval" <-> ~ left_approved /\ ~ unanswered /\ ~ complete).
Proof.
  intros (status & rows & ds & replies & Hst & Hrows & Hds & Hrep & Hnext)%review_action.
  exists status, rows, ds, replies. do 4 (split; [done|]). cbv zeta in *.
  assert (He : forall p, (exists s, s ∈ pv_steps status /\ p s = true) <-> existsb p (pv_steps status) = true).
  { intros p. by rewrite existsb_elem. }
  assert (Hun : (exists s, s ∈ pv_steps status /\ in_flight s = true /\ answered replies s = false)
    <-> existsb (fun s => in_flight s && negb (answered replies s)) (pv_steps status) = true).
  { rewrite <- He. split; intros (s & Hs & Hp); exists s; (split; [done|]).
    - destruct Hp as [-> ->]. done.
    - apply andb_true_iff in Hp as [? ?%negb_true_iff]. done. }
  assert (Hdo : (exists s, s ∈ pv_steps status /\ in_flight s = true /\ answered replies s = true)
    <-> existsb (fun s => in_flight s && answered replies s) (pv_steps status) = true).
  { rewrite <- He. split; intros (s & Hs & Hp); exists s; (split; [done|]).
    - destruct Hp as [-> ->]. done.
    - by apply andb_true_iff in Hp. }
  assert (Hwa : (forall s, s ∈ pv_steps status -> waits_for_approval s = false)
    <-> existsb waits_for_approval (pv_steps status) = false) by (by rewrite existsb_elem_false).
  rewrite He, Hun, Hdo, Hwa. unfold run_loop_gate. rewrite Hnext. clear.
  destruct (existsb (status_is "approved") _), (existsb (fun s => in_flight s && negb _) _),
    (existsb (fun s => in_flight s && answered _ _) _), (existsb waits_for_approval _);
    cbn; intuition congruence.
Qed.
End single.

(** ** The wave over all plans *)

(** What the wave of one plan dispatches, from the document [st]: approved
    approvals of the plan's earliest incomplete step. *)
Definition earliest_dispatched `{PyRepr} (st : dict) (plan_id : string) (dispatched : list (dict * string)) : Prop :=
  exists approvals replied incomplete,
    plan_approvals st plan_id = Ok approvals /\ replied_messages st = Ok replied
    /\ incomplete_numbers replied approvals = Ok incomplete
    /\ Forall (fun am => am.1 ∈ approvals /\ dget "status" am.1 = PStr "approved"
         /\ exists n, step_int am.1 = Ok n /\ n ∈ incomplete /\ Forall (fun k => (n <= k)%Z) incomplete) dispatched.

Definition all_dispatched (results : list plan_result) : list (dict * string) := concat (pr_dispatched <$> results).
Definition approved_count (results : list plan_result) : Z :=
  foldr (fun pr n => Z.of_nat (length (pr_auto_approved pr)) + n)%Z 0%Z results.

Section all_plans.
Context `{PyRepr} {files : Files} {json : JsonLoads}.

Lemma dispatch_earliest_inv c w st busy plan_id l :
  dispatch_earliest c w st busy plan_id = Ok l ->
  ls_busy l = reverse (agent_of <$> (ls_dispatched l).*1) ++ busy
  /\ Forall (fun am => in_list (agent_of am.1) busy = false) (ls_dispatched l)
  /\ ForallOrdPairs (fun x y => py_eq (agent_of y.1) (agent_of x.1) = false) (ls_dispatched l)
  /\ earliest_dispatched st plan_id (ls_dispatched l).
Proof.
  unfold dispatch_earliest. intros (replied & Hrep & (approvals & Hap & (incomplete & Hinc & Hf)%bind_Ok)%bind_Ok)%bind_Ok.
  apply dispatch_loop_inv in Hf as [_ _ Hb Hd Hx _ _]. split; [done|]. split.
  { eapply Forall_impl; [exact Hd|]. by intros am (_ & _ & ?). }
  split; [done|]. exists approvals, replied, incomplete. do 3 (split; [done|]). eapply Forall_impl; [exact Hd|].
  intros am (Hin & Hh & _). apply list_elem_of_In, filter_In in Hin as [Hin Hst]. rewrite <- list_elem_of_In in Hin.
  pose proof Hst as Hst'. apply has_id_iff in Hst'. split; [done|]. split; [done|].
  assert (Hi : am.1 ∈ List.filter (step_is_incomplete replied) approvals).
  { apply list_elem_of_In, filter_In. rewrite <- list_elem_of_In. split; [done|]. unfold step_is_incomplete, has_id.
    by rewrite Hst'. }
  apply list_elem_of_lookup in Hi as [k Hk]. apply mapR_Ok in Hinc.
  destruct (Forall2_lookup_l _ _ _ _ _ Hinc Hk) as (n & Hn & Hstep). exists n. split; [done|].
  split; [by eapply list_elem_of_lookup_2|]. unfold earliest_hold in Hh. destruct incomplete as [|i rest]; [done|].
  rewrite Hstep in Hh. cbn [mbind result_bind] in Hh. injection Hh as Hh. split_guards. subst n.
  destruct (list_minZ_le i rest) as [Hle Hall]. by constructor.
Qed.

(** The document in which the wave of one plan starts dispatching. *)
Definition plan_before_dispatch (c : wave_config) (w : wave_world) (acc : all_state) (plan_id : string) : result dict :=
  '(state, hook) ← pre_gate_hook c w (as_state acc) plan_id;
  '(state, _, _) ← auto_approve c (as_budget acc) (ww_now w) state plan_id;
  '(state, _) ← _ingest_plan_reply_files w state plan_id;
  '(state, _) ← (match hook with Some (_, true) => Ok (state, None) | _ => review_hook c w state plan_id end);
  Ok state.

(** The result [pr] is that of the wave of one plan of the list, run after those
    of the plans before it. *)
Definition result_of_plan (c : wave_config) (w : wave_world) (init : all_state) (plans : list dict) (pr : plan_result) : Prop :=
  exists pre plan post acc st,
    plans = pre ++ plan :: post /\ foldM (wave_of_plan c w) init pre = Ok acc /\ pr_plan_id pr = str_get "plan_id" plan
    /\ plan_before_dispatch c w acc (pr_plan_id pr) = Ok st /\ earliest_dispatched st (pr_plan_id pr) (pr_dispatched pr).

Record all_inv (c : wave_config) (busy0 : list pyval) (acc : all_state) : Prop := {
  ai_busy : as_busy acc = reverse (agent_of <$> (all_dispatched (as_results acc)).*1) ++ busy0;
  ai_free : Forall (fun am => in_list (agent_of am.1) busy0 = false) (all_dispatched (as_results acc));
  ai_distinct : ForallOrdPairs (fun x y => py_eq (agent_of y.1) (agent_of x.1) = false) (all_dispatched (as_results acc));
  ai_budget : (approved_count (as_results acc) + as_budget acc = wc_max_approvals c)%Z;
  ai_left : (0 <= wc_max_approvals c)%Z -> (0 <= as_budget acc)%Z
}.

Lemma FOP_app {A} (R : A -> A -> Prop) l k :
  ForallOrdPairs R l -> ForallOrdPairs R k -> Forall (fun x => Forall (R x) k) l -> ForallOrdPairs R (l ++ k).
Proof.
  induction 1 as [|x l Hx _ IH]; intros Hk Hlk; cbn; [done|]. apply Forall_cons in Hlk as [Hxk Hlk].
  constructor; [|auto]. by apply Forall_app.
Qed.

Lemma approved_count_snoc results pr :
  approved_count (results ++ [pr]) = (approved_count results + Z.of_nat (length (pr_auto_approved pr)))%Z.
Proof. induction results as [|x results IH]; cbn; [lia|]. unfold approved_count in IH. rewrite IH. lia. Qed.

Lemma wave_of_plan_inv c w busy0 acc plan acc' :
  all_inv c busy0 acc -> wave_of_plan c w acc plan = Ok acc' ->
  all_inv c busy0 acc'
  /\ (as_results acc' = as_results acc \/ exists pr st, as_results acc' = as_results acc ++ [pr]
        /\ pr_plan_id pr = str_get "plan_id" plan /\ plan_before_dispatch c w acc (pr_plan_id pr) = Ok st
        /\ earliest_dispatched st (pr_plan_id pr) (pr_dispatched pr)).
Proof.
  intros [Hb Hf Hx Hbud Hleft]. unfold wave_of_plan.
  intros ([s0 hook] & Hpre & Hr)%bind_Ok. destruct hook as [[iterations already]|]; [|injection Hr as <-; by split; [|left]].
  apply bind_Ok in Hr as ([[s1 sel] skip] & Ha & ([s2 cap] & Hi & ([s3 out] & Hh & (l & Hl & ([review vs] & _ & Hr)%bind_Ok)%bind_Ok)%bind_Ok)%bind_Ok).
  destruct (run_loop_gate review (ls_error l) (str_get "plan_id" plan)) as [gate next]. injection Hr as <-.
  apply dispatch_earliest_inv in Hl as (Hlb & Hlf & Hlx & Hle). rewrite Hb in Hlb, Hlf. split; [|right].
  2:{ eexists _, s3. split; [done|]. cbn [pr_plan_id pr_dispatched]. split; [done|]. split; [|done].
      unfold plan_before_dispatch. rewrite Hpre. cbn [mbind result_bind]. rewrite Ha. cbn [mbind result_bind].
      rewrite Hi. cbn [mbind result_bind]. destruct already; rewrite Hh; done. }
  apply auto_approve_Ok in Ha as [[Hlen _] _].
  split; cbn [as_busy as_results as_budget].
  - rewrite Hlb. unfold all_dispatched. rewrite fmap_app, concat_app. cbn [fmap list_fmap concat pr_dispatched].
    by rewrite app_nil_r, !fmap_app, reverse_app, app_assoc.
  - unfold all_dispatched. rewrite fmap_app, concat_app. cbn [fmap list_fmap concat pr_dispatched]. rewrite app_nil_r.
    apply Forall_app. split; [done|]. eapply Forall_impl; [exact Hlf|]. intros am Ham. cbn in Ham.
    rewrite in_list_app in Ham. by apply orb_false_iff in Ham as [_ ?].
  - unfold all_dispatched. rewrite fmap_app, concat_app. cbn [fmap list_fmap concat pr_dispatched]. rewrite app_nil_r.
    apply FOP_app; [done|done|]. apply Forall_forall. intros x Hxin. eapply Forall_impl; [exact Hlf|]. intros y Hy. cbn in Hy.
    rewrite in_list_app in Hy. apply orb_false_iff in Hy as [Hy _]. unfold in_list in Hy.
    rewrite existsb_elem_false in Hy. apply Hy, elem_of_reverse, list_elem_of_fmap. exists x.1. split; [done|].
    apply list_elem_of_fmap. by exists x.
  - rewrite approved_count_snoc. cbn [pr_auto_approved]. lia.
  - intros Hm. specialize (Hleft Hm). lia.
Qed.

Lemma all_plans_inv c w busy0 init plans acc :
  all_inv c busy0 init -> as_results init = [] -> foldM (wave_of_plan c w) init plans = Ok acc ->
  all_inv c busy0 acc /\ Forall (result_of_plan c w init plans) (as_results acc).
Proof.
  intros Hinit Hnil. revert acc. induction plans as [|plan plans IH] using rev_ind; intros acc.
  - intros [= <-]. rewrite Hnil. split; [done|constructor].
  - rewrite foldM_app. intros (acc1 & H1 & (acc2 & H2 & [= <-])%bind_Ok)%bind_Ok.
    destruct (IH _ H1) as [Hi Hres]. destruct (wave_of_plan_inv _ _ _ _ _ _ Hi H2) as [Hi2 Hnew]. split; [done|].
    assert (Hres' : Forall (result_of_plan c w init (plans ++ [plan])) (as_results acc1)).
    { eapply Forall_impl; [exact Hres|]. intros pr (pre & p & post & a & st & -> & Hrest).
      exists pre, p, (post ++ [plan]), a, st. split; [by rewrite <- app_assoc|done]. }
    destruct Hnew as [->|(pr & st & -> & Hrest)]; [done|]. apply Forall_app. split; [done|]. constructor; [|done].
    by exists plans, plan, [], acc1, st.
Qed.

(** C3: one wave over all plans shares one budget and one set of busy agents:
    it approves at most [max_approvals] approvals in total, gives no agent two
    tasks across the plans nor a task to an agent that was at work on a step of
    some plan before, and in each plan dispatches only approved approvals of the
    earliest incomplete step. *)
Theorem run_loop_all_safe c w state acc :
  _run_loop_all c w state = Ok acc ->
  exists busy plans, _busy_agents state = Ok busy /\ state_list "plans" state = Ok plans
    /\ Forall (fun am => in_list (agent_of am.1) busy = false
                        /\ forall agent, at_work state agent -> py_eq (agent_of am.1) agent = false) (all_dispatched (as_results acc))
    /\ ForallOrdPairs (fun x y => py_eq (agent_of y.1) (agent_of x.1) = false) (all_dispatched (as_results acc))
    /\ Forall (result_of_plan c w
                 {| as_state := state; as_busy := busy; as_budget := wc_max_approvals c; as_results := [] |} (dicts_of plans))
         (as_results acc)
    /\ ((0 <= wc_max_approvals c)%Z ->
          (approved_count (as_results acc) <= wc_max_approvals c
           /\ as_budget acc = wc_max_approvals c - approved_count (as_results acc))%Z).
Proof.
  unfold _run_loop_all. intros (busy & Hbusy & (plans & Hplans & Hf)%bind_Ok)%bind_Ok.
  set (init := {| as_state := state |}) in *. exists busy, plans. do 2 (split; [done|]).
  destruct (all_plans_inv c w busy init (dicts_of plans) acc) as [[_ H1 H2 H3 H4] H5]; [|done|done|].
  - split; cbn; try done; try constructor; lia.
  - split; [|do 2 (split; [done|]); intros Hm; specialize (H4 Hm); lia].
    eapply Forall_impl; [exact H1|]. intros am Hf'. split; [done|]. intros agent. by apply (free_not_at_work state busy).
Qed.
End all_plans.

(** ** A concrete wave *)

#[local] Existing Instance sample_repr.
#[local] Existing Instance sample_files.
#[local] Existing Instance sample_json.

Definition sample_config : wave_config :=
  {| wc_agents := sample_agents; wc_allowed := ["coder"]; wc_max_approvals := 1; wc_max_review_rounds := 2;
     wc_review_binding := PNone |}.
Definition sample_world : wave_world :=
  {| ww_now := "t0"; ww_file := fun _ => NoReplyFile;
     ww_reply_ids := fun m => {| ri_reply := "r-" +:+ m; ri_artifact := "x"; ri_inbox := "i" |};
     ww_step_ids := fun _ i => "s" +:+ pretty (i + 1); ww_send := sample_send |}.
(** The first step is pending, the second already approved by a human. *)
Definition waiting_state : dict :=
  sample_state [sample_approval "a1" 1 "coder" "pending" ""; sample_approval "a2" 2 "critic" "approved" ""] [] [].

Definition sample_wave : result (dict * wave_result) := _run_loop_single_wave sample_config sample_world waiting_state "p1".

(** The wave approves and dispatches the first step and holds the second. *)
Example sample_wave_outcome :
  exists state' r, sample_wave = Ok (state', r)
    /\ (fun am => str_get "approval_id" am.1) <$> wr_dispatched r = ["a1"]
    /\ (fun h => (str_get "approval_id" h.1, h.2)) <$> wr_held r = [("a2", SequenceHeld)]
    /\ wr_stopped_reason r = "waiting_for_reply".
Proof.
  destruct sample_wave as [[state' r]|e] eqn:E; [|by vm_compute in E].
  exists state', r. split; [done|]. vm_compute in E. injection E as _ <-. by vm_compute.
Qed.

Lemma wave_dispatch_safe_witness :
  exists state' r, _run_loop_single_wave sample_config sample_world waiting_state "p1" = Ok (state', r)
    /\ ForallOrdPairs (fun x y => py_eq (agent_of y.1) (agent_of x.1) = false) (wr_dispatched r).
Proof.
  destruct (_run_loop_single_wave sample_config sample_world waiting_state "p1") as [[state' r]|e] eqn:E;
    [|by vm_compute in E].
  exists state', r. split; [done|]. destruct (wave_dispatch_safe _ _ _ _ _ _ E) as (st & f & _ & _ & Hx & _). exact Hx.
Defined.

Lemma wave_dispatch_authorised_witness :
  exists state' r, _run_loop_single_wave sample_config sample_world waiting_state "p1" = Ok (state', r)
    /\ auto_approved sample_config 1 waiting_state "p1" (wr_auto_approved r).
Proof.
  destruct (_run_loop_single_wave sample_config sample_world waiting_state "p1") as [[state' r]|e] eqn:E;
    [|by vm_compute in E].
  exists state', r. split; [done|]. exact (proj1 (wave_dispatch_authorised _ _ _ _ _ _ E)).
Defined.

Lemma review_gate_spec_witness :
  exists review, _leader_review_core waiting_state "p1" = Ok review
    /\ (run_loop_gate review false "p1").1 = "blocked".
Proof.
  destruct (_leader_review_core waiting_state "p1") as [review|e] eqn:E; [|by vm_compute in E].
  exists review. split; [done|].
  destruct (review_gate_spec _ _ _ E) as (status & rows & ds & replies & Hst & _ & _ & _ & Hb & _).
  apply Hb. vm_compute in Hst. injection Hst as <-. eexists. split; [right; left|]. by vm_compute.
Defined.

Lemma run_loop_all_safe_witness :
  exists acc, _run_loop_all sample_config sample_world waiting_state = Ok acc
    /\ (approved_count (as_results acc) <= 1)%Z.
Proof.
  destruct (_run_loop_all sample_config sample_world waiting_state) as [acc|e] eqn:E; [|by vm_compute in E].
  exists acc. split; [done|].
  destruct (run_loop_all_safe _ _ _ _ E) as (busy & plans & _ & _ & _ & _ & _ & Hb). apply Hb. by vm_compute.
Defined.
